(* ===== verification/_CoqProject ===== *)
-Q . S2P
Prelude.v
FileIdentity.v
ReadBudget.v
WorkBudget.v
RunIds.v
PngProbe.v
IoIdentity.v
ResourceModel.v
ResourceLedger.v
ResourceInit.v
ResourceSchedule.v
ResourceObserve.v
LedgerInvariant.v
GrantInvariant.v
LeaseInvariant.v
ReleaseInvariant.v
LedgerSafety.v
ScheduleSafety.v
ResourceAdmission.v
ZipStructure.v
ZipSafety.v
RawDeflate.v
ZipRoundtrip.v
TextChunking.v
ChunkWindows.v
ChunkSafety.v
DedupKeeper.v
DedupPlan.v
DedupSafety.v
PyOrder.v
KnowledgeContracts.v
RankFusion.v
FusionLaws.v
FusionSafety.v
ContentIO.v
ContentSafety.v
PdfRetry.v
PdfStore.v
PdfCache.v
PdfSession.v
PdfChild.v
PdfRun.v
PdfLaws.v
PdfPublish.v
PdfSafety.v
HeapQ.v
Utf8.v
VectorRetain.v
VectorRetainLaws.v
VectorFormat.v
VectorFormatLaws.v
VectorQuery.v
VectorQueryLaws.v
VectorScan.v
VectorScanLaws.v
VectorSearch.v
VectorSearchLaws.v
VectorSpec.v
VectorSpecLaws.v
VectorVerify.v
VectorVerifyLaws.v
VectorHandle.v
VectorHandleLaws.v
VectorAgree.v
VectorExample.v
VectorSafety.v
RetentionGraph.v
RetentionStores.v
RetentionOwners.v
RetentionRun.v
RetentionLaws.v
RetentionTerminal.v
RetentionTerminalPlan.v
RetentionTerminalLaws.v
RetentionDecision.v
RetentionSafety.v
