(* ===== verification/Prelude.v ===== *)
(** * NeoCortex: a verification library

    NeoCortex is a local file-intelligence system: it inventories a machine,
    extracts documents, images and archives, deduplicates files, and serves
    knowledge queries over SQLite stores.  This library models the parts of it
    that decide something: what is admitted, what is accepted, what is charged,
    what is retried, and it proves that those decisions are right.  File names
    below are relative to [src/neocortex/].

    ** How the program is put together, and what is modelled here

    Every heavy step of the system (a PDF batch, an OCR pass, a hash of a large
    file) asks one _resource coordinator_ for memory, CPU, threads, temporary
    space, I/O slots and GPU memory before it runs, and gives them back after.
    Around it stand small components that the routes and the queries share:
    budgets, identifiers, structural probes of untrusted files and policies.

    - [Prelude]: the monads, records, sums, floats, numerals, bytes and texts the
      other files share.
    - [FileIdentity] (foundation/file_identity.py): the packed and the decimal
      text of a device and inode pair.  [decode_encode_roundtrip];
      an untagged key is never guessed to be packed ([auto_never_guesses]).
    - [ReadBudget] (knowledge/knowledge_read_budget.py): the bounded, cancellable
      budget of a read.  [read_budget_never_overspent], [checkpoint_admits_iff].
    - [WorkBudget] (semantic/semantic_work_budget.py): admission of items and
      jobs, the deadline, and the closers of a semantic run.
      [work_budget_bounded], [admission_decision], [allowance_can_be_recorded],
      [closers_run_once].
    - [RunIds] (persistence/framework_run_ids.py): the allocator of run
      identifiers over an SQLite owner.  [next_run_id_exact].
    - [PngProbe] (capabilities/formats/image/png.py): the structural probe of a
      PNG file.  [valid_iff_well_formed] is its equivalence with a declarative
      description of the chunk sequence; [probe_terminates],
      [verdicts_are_evidence].
    - [IoIdentity] (runtime/control/io_identity.py): canonical device keys.
    - The resource coordinator (runtime/control/global_resources.py and its
      resource_*.py modules), in twelve files:
      [ResourceModel] holds its records ([Coordinator] is
      GlobalResourceCoordinator, [Request] is _Request, [Metrics] is
      _MutableRouteMetrics); [ResourceLedger] the transitions of the ledger (grant
      and its rollback, release, execution release, shrinking, resizing);
      [ResourceInit] the constructor; [ResourceSchedule] the fit test, the choice
      of the next route and the worker plans; [ResourceObserve] the observation
      of the machine and the pressure latches; [ResourceAdmission] the validation
      of a demand and the joining of a queue.
      [LedgerInvariant], [GrantInvariant], [LeaseInvariant] and
      [ReleaseInvariant] prove the ledger invariant step by step;
      [LedgerSafety] gathers the operations into a state machine whose
      reachable states satisfy it, and [ScheduleSafety] composes selection and
      grant.
    - [ZipStructure] (platform/zip_safety.py): the preflight of ZIP archives;
      [ZipSafety] proves that what it accepts lies inside the file and that it
      always ends; [ZipRoundtrip] that it accepts and describes exactly what a
      plain writer writes; [RawDeflate] models the recovery of one member.
    - [TextChunking] (semantic/semantic_chunking.py): the cutting of a text into
      bounded overlapping windows, with exact token counts computed in speculative
      batches.  [ChunkWindows] holds the laws of the window selection,
      [ChunkSafety] the theorems: every chunk is an exact bounded window, no
      visible character is lost, the loops end, the batches change nothing.
    - [ContentIO] (deduplication/fingerprinting.py, content_observation.py): the
      opening of a file without following links, its digest, the byte comparison
      of two files and the observation of a digest, over a kernel that may fail,
      shorten or change anything between two calls.  [ContentSafety]: descriptors
      are closed, loops end, a digest is of the content, redundant files equal
      their keeper.
    - [DedupKeeper] (deduplication/planning/keeper.py): the rank of a file among
      its copies; [DedupPlan] (deduplication/planning/pipeline.py and the checks of
      inventory/repository_plans.py): the planning of duplicate groups;
      [DedupSafety]: no copy is lost to a plan, an explicit choice is kept, what a
      session plans can be published.
    - [KnowledgeContracts] and [RankFusion] (knowledge/knowledge_search_fusion.py
      and the contracts it uses): the fusion of the rankings of several searches
      into one list of passages.  [PyOrder] holds the order of Python's sorts,
      [FusionLaws] the invariants of the loops, [FusionSafety] the theorems: one
      vote per source, grounded and visible hits, passages apart from each other,
      a greedy diverse prefix, no mismatching result under the coherent policy.
    - The PDF route (capabilities/formats/pdf/): [PdfRetry]
      (runtime/control/retry_policy.py) classifies failures and holds the SQL
      predicate of retryable page errors; [PdfStore] (pdf_route_storage.py) the
      tables and the operations on them; [PdfCache] (pdf_route_cache.py) the
      decision to reuse or to extract; [PdfSession] (pdf_route.py) the parent of an
      isolated extraction, which consumes the messages of [PdfChild]
      (pdf_isolation.py); [PdfRun] (pdf_route.py) the inputs of a worker, the
      extraction inside the process and the attempts of a run.  [PdfLaws] follows
      documents that cannot be read, [PdfPublish] those that are; [PdfSafety]
      composes the decision, the parent and the child: a readable document is
      published page by page and read once, an unreadable one is given up, a page
      that was read survives any ending.
    - The exact vector search (semantic/): [Utf8] and [HeapQ] are the codec and the
      heap of the standard library.  [VectorRetain] (semantic_search_order.py and the
      retention of both searches) keeps the best hit of each key in a dictionary and a
      heap with stale entries.  [VectorFormat] (semantic_exact_index_format.py) holds
      the wire formats of an index and the loop that writes it from records,
      [VectorQuery] the query of a stored index, [VectorVerify] its verification
      against the records of its owner.  [VectorScan] (semantic_search_repository.py)
      is the owner's own scan of the database, [VectorSearch]
      (semantic_vector_search.py and the dispatch) the contract of a backend, the
      validation of its pages and the fallback, [VectorHandle]
      (semantic_exact_index.py) the rows of the owner that an index is made of and the
      queries it takes.  [VectorSpec] is what a query promises, [record_page]: a page
      of records that names no row, batch or heap.  The files [*Laws] prove that each
      part implements it, [VectorAgree] that both searches have the same page,
      [VectorSafety] gathers the theorems: the retention keeps the best hits in
      bounded memory, a prepared index is accepted and an accepted one answers its
      records, an index answers as its owner, no backend gets an unsound page past the
      dispatch, and a declined query costs nothing.  [VectorExample] runs all of it on
      two rows.
    - The retention planner (workflow/retention/planner.py), a dry run that proposes
      what may be deleted.  [RetentionGraph] walks the ancestors of live rows within
      bounds, [RetentionStores] holds the policy, the plans and the queries they share,
      [RetentionOwners] the rows and the dispositions of the four stores,
      [RetentionRun] the request, the time budget and the dispatch; [RetentionLaws]
      says what a proposed row is not referred to by, and what the pages hold.
      [RetentionTerminal] and [RetentionTerminalPlan] are the plan of terminal
      evidence, whose dictionaries [RetentionTerminalLaws] and [RetentionDecision]
      reduce to a decision of each record.  [RetentionSafety]: only rows that nothing
      needs are proposed, each row is on one page, a complete walk has the ancestors within its depth,
      terminal evidence is proposed only when it was released, quotas bound what is
      kept, the order of the sources does not matter.

    ** How state and effects are represented

    A method that mutates its object and may raise is a [stm S E A]: a state
    transformer that returns the reached state together with a [result], because
    what was mutated before a [raise] stays mutated.  Pure fallible code returns a
    [result].  Python integers are [Z]; floats are IEEE binary64, computed by the
    Standard Library's [spec_float]; a [str] is the list of its code points; a
    dictionary whose order is not observed is a [gmap], one whose order is
    observed is a list.  The requests of the coordinator are shared mutable
    objects (queues, active reservations and leases hold the same one), so they
    live in a store and are named by their identity.  The coordinator's lock makes
    every operation atomic: an interleaving of threads is a sequence of
    operations ([LedgerSafety.reachable]).

    Tables of a state database are finite maps from their primary keys ([PdfRoute]).
    A process or a kernel outside the program is adversarial: a run of the kernel
    on a file ([FileRun]), the messages of a child and the exception that ends them
    ([stream]), the answers of an extractor ([Engine]) are any values of their type,
    and the theorems quantify over them.

    Clocks, probes, SQLite answers, file contents and sizes are arguments.  What
    cannot be read here (the SQLite aggregate of [RunIds], the zlib decoder of
    [RawDeflate]) is a parameter whose documented behaviour is a named
    hypothesis or a class of laws, with a concrete instance beside it.  The rows a
    query returns, a tokenizer, a hash and the byte comparison of two files are
    arguments, and the theorems hold for any of them or name what they use of them
    (the order of the rows of a plan, a tokenizer that counts each text by itself).

    ** Fuel

    Loops that are not structural take fuel, and a theorem shows the fuel to be
    enough: the PNG loops take the unread bytes, the ZIP loops the bytes of the
    structure they walk (each pass consumes at least one), the raw decoder the
    bytes of the chunk plus the output that may still be produced, the sections of
    a text their length (the cursor advances by a character at least), a rejected
    window its span, a digest the size of the file and one more read, a comparison
    the length of the left file.  The sifting of a heap takes its length, as does the
    removal of its stale entries ([retention_keeps_the_best] shows that it never runs
    out), the batches of a scan the rows and one more ([scan_batches_ok]), the
    bisection of an index its rows ([bisect_ok]), the pages of a retention store its rows
    ([every_row_is_visited_once]).  The walk of the retention planner is bounded by the
    program itself, and [complete_walks_are_closures] says what the bound costs.

    ** What the theorems show

    Invariants: the ledger is exact in every reachable state, nothing leaks when
    the last lease ends, budgets are never overspent.  Safety of composition: a
    request that was selected and granted fits every live budget.  Liveness of the
    scheduler: a route is served whenever some head fits, drains first.
    Equivalences and round trips: the PNG probe against a grammar, the ZIP
    preflight against a writer, the batched chunker against a plain one, the
    identity codecs.  Refinement: a planned duplicate session satisfies the
    publication contract of the owner of the plan.  Errors: a failed grant
    restores the ledger; cleaning up twice changes nothing; the pages an extraction
    read are staged however it ends.  Bounds: under automatic retries an unreadable
    document is extracted in three runs at most, the heap of a search never grows past twice its
    limit and a constant, a quota keeps its count and no more.  Safety of deletion: a
    retention plan proposes no row that a head, a lease, a checkpoint or another store
    refers to.  The exact index against the scan of its owner is an
    equivalence: both return the same candidates with the same scores in the same
    order, the same count and the same cursor.  Termination of every loop over untrusted
    bytes.

    ** Not modelled

    SQL stores, subprocesses, third-party parsers and models, HTTP and command
    line layers, and the rendering of results.  In the modelled files: the
    condition variable's wake-ups and wait timeouts of an admission (a waiting
    loop is a sequence of observations, selections and waiting marks), the walk
    over /proc that verifies a process before it is registered, the parsing of
    /proc/pressure, the session that captures and hashes the files of a duplicate
    plan, the derived tables of the PDF store (full text, layouts, similarity), its
    pruning and its migrations, OCR and its provenance, native warnings of the
    extractors, progress events, and the summaries that only copy counters.  Of the
    exact index: the files of an artifact with their fences, manifest and marker (a
    view is the bytes of its files), the sidecar of norms and the numeric projection
    of a query (the vectorized variant of the query that is modelled), and the export
    of diagnostics.  NumPy is a parameter of the batched scorers; the theorems on
    pages are about the scalar ones.  Of the retention planner: the copying and the
    validation of the snapshots (the outcome of opening them is an argument), the
    accounts of the holds and of the files, and the payloads; a table is the list of
    its rows, and each page is planned over the same snapshot.

    ** Plan

    Modelled first: the coordinator, because every route depends on it; then the
    shared budgets and identifiers, the probes of untrusted files, the chunking of
    texts and the planning of duplicates; then the rank fusion, the reading of
    contents and the PDF route, from the retry policy to the composition of parent
    and child; then the exact vector search, from the heap to the agreement of the
    index with its owner; last the retention planner.  What the same style would take next: the capture stage of a
    duplicate session, and the numeric projection of the index with the laws of the
    array operations it uses. *)

From stdpp Require Export base gmap sets list numbers strings.
From Stdlib Require Export Strings.Byte.
From Stdlib Require Export SpecFloat.

#[global] Open Scope Z_scope.

(** ** Fallible code

    A Python function that may raise is a function into [result E A]: [Err e]
    carries the exception, [Ok a] the returned value. *)

(** [len(xs)] as a Python integer. *)
Abbreviation zlen xs := (Z.of_nat (length xs)).

Inductive result (E A : Type) : Type :=
| Ok (a : A)
| Err (e : E).
Arguments Ok {E A} a.
Arguments Err {E A} e.

#[export] Instance result_ret {E} : MRet (result E) := λ A a, Ok a.

#[export] Instance result_bind {E} : MBind (result E) :=
  λ A B f r, match r with Ok a => f a | Err e => Err e end.

#[export] Instance result_fmap {E} : FMap (result E) :=
  λ A B f r, match r with Ok a => Ok (f a) | Err e => Err e end.

(** [if b: raise e] *)
Definition raise_if {E} (b : bool) (e : E) : result E unit :=
  if b then Err e else Ok tt.

(** A lookup whose absence raises. *)
Definition or_raise {E A} (o : option A) (e : E) : result E A :=
  match o with Some a => Ok a | None => Err e end.

Definition is_ok {E A} (r : result E A) : bool :=
  match r with Ok _ => true | Err _ => false end.

Section result_lemmas.
Context {E A B : Type}.

Lemma bind_ok (x : result E A) (f : A → result E B) b :
  x ≫= f = Ok b → ∃ a, x = Ok a ∧ f a = Ok b.
Proof. destruct x; naive_solver. Qed.

Lemma bind_err (x : result E A) (f : A → result E B) e :
  x ≫= f = Err e → x = Err e ∨ ∃ a, x = Ok a ∧ f a = Err e.
Proof. destruct x; naive_solver. Qed.

Lemma bind_ok_l (a : A) (f : A → result E B) : Ok a ≫= f = f a.
Proof. done. Qed.

Lemma bind_err_l (e : E) (f : A → result E B) : Err e ≫= f = Err e.
Proof. done. Qed.

Lemma raise_if_ok (b : bool) (e : E) u : raise_if b e = Ok u → b = false.
Proof. by destruct b. Qed.

Lemma or_raise_ok (o : option A) (e : E) a : or_raise o e = Ok a → o = Some a.
Proof. destruct o; naive_solver. Qed.
End result_lemmas.

Lemma fmap_ok {E A B} (f : A → B) (r : result E A) b :
  f <$> r = Ok b → ∃ a, r = Ok a ∧ b = f a.
Proof. destruct r; naive_solver. Qed.

(** Inverts every successful step of a monadic computation in the context. *)
Ltac inv_ok :=
  repeat match goal with
  | H : mbind _ _ = Ok _ |- _ => apply bind_ok in H as (?&?&?)
  | H : fmap _ _ = Ok _ |- _ => apply fmap_ok in H as (?&?&?)
  | H : raise_if _ _ = Ok _ |- _ => apply raise_if_ok in H
  | H : or_raise _ _ = Ok _ |- _ => apply or_raise_ok in H
  | H : Ok _ = Ok _ |- _ => injection H as H
  | H : Err _ = Ok _ |- _ => discriminate H
  | H : Ok _ = Err _ |- _ => discriminate H
  | H : mret _ = Ok _ |- _ => injection H as H
  | x : unit |- _ => destruct x
  end; subst.

(** *** Computations that avoid one error

    A loop with fuel ends in an error of its own when the fuel runs out; a
    computation built from parts that avoid that error avoids it. *)

Lemma bind_avoids {E A B} (r : result E A) (f : A → result E B) e :
  r ≠ Err e → (∀ a, r = Ok a → f a ≠ Err e) → r ≫= f ≠ Err e.
Proof. destruct r as [a|e']; cbn; intros H1 H2; [by apply H2|congruence]. Qed.

Lemma raise_avoids {E} b (e e' : E) : e ≠ e' → raise_if b e ≠ Err e'.
Proof. destruct b; cbn; congruence. Qed.

Lemma or_raise_avoids {E A} (o : option A) (e e' : E) : e ≠ e' → or_raise o e ≠ Err e'.
Proof. destruct o; cbn; congruence. Qed.

Create HintDb avoids discriminated.
#[export] Hint Extern 2 (raise_if _ _ ≠ _) => (apply raise_avoids; discriminate) : avoids.
#[export] Hint Extern 2 (or_raise _ _ ≠ _) => (apply or_raise_avoids; discriminate) : avoids.
#[export] Hint Extern 3 (Ok _ ≠ _) => discriminate : avoids.
#[export] Hint Extern 3 (Err _ ≠ _) => discriminate : avoids.

(** Walks through the binds of a computation that is built without recursion. *)
Ltac avoid :=
  repeat first
    [ solve [eauto 2 with avoids]
    | apply bind_avoids; [|intros ? ?]
    | progress cbn beta iota
    | match goal with
      | |- (match ?x with _ => _ end) ≠ _ => destruct x eqn:?
      | |- (if ?x then _ else _) ≠ _ => destruct x eqn:?
      end ].

(** Case split on the scrutinee of the first [if]/[match] of a hypothesis. *)
Ltac case_in H :=
  match type of H with
  | context [ match ?x with _ => _ end ] => destruct x eqn:?
  end.

(** Turns boolean tests of the source into propositions [lia] understands. *)
Ltac bool_prop :=
  repeat match goal with
  | H : _ && _ = true |- _ => apply andb_true_iff in H as [??]
  | H : _ || _ = false |- _ => apply orb_false_iff in H as [??]
  | H : negb _ = true |- _ => apply negb_true_iff in H
  | H : negb _ = false |- _ => apply negb_false_iff in H
  | H : bool_decide _ = true |- _ => apply bool_decide_eq_true in H
  | H : bool_decide _ = false |- _ => apply bool_decide_eq_false in H
  | H : (_ =? _) = true |- _ => apply Z.eqb_eq in H
  | H : (_ =? _) = false |- _ => apply Z.eqb_neq in H
  | H : (_ <? _) = true |- _ => apply Z.ltb_lt in H
  | H : (_ <? _) = false |- _ => apply Z.ltb_ge in H
  | H : (_ <=? _) = true |- _ => apply Z.leb_le in H
  | H : (_ <=? _) = false |- _ => apply Z.leb_gt in H
  end.

(** ** Generic list lemmas *)

Lemma list_fmap_id_on {A} (f : A → A) (l : list A) :
  Forall (λ x, f x = x) l → f <$> l = l.
Proof. induction 1; csimpl; congruence. Qed.

(** [max(v, *vs)] is an attained upper bound. *)
Lemma foldl_max_spec (vs : list Z) : ∀ v,
  (∀ x, x ∈ v :: vs → x <= foldl Z.max v vs) ∧ foldl Z.max v vs ∈ v :: vs.
Proof.
  induction vs as [|y vs IH]; intros v; cbn [foldl].
  - split; [|apply list_elem_of_here]. intros x ->%list_elem_of_singleton. lia.
  - destruct (IH (Z.max v y)) as [Hup Hin]. split.
    + intros x [->|[->|Hx]%elem_of_cons]%elem_of_cons.
      * pose proof (Hup _ (list_elem_of_here _ _)). lia.
      * pose proof (Hup _ (list_elem_of_here _ _)). lia.
      * apply Hup. by apply list_elem_of_further.
    + apply elem_of_cons in Hin as [->|Hin].
      * rewrite !elem_of_cons. destruct (Z.max_spec v y) as [[_ ->]|[_ ->]]; auto.
      * rewrite !elem_of_cons; auto.
Qed.

(** [s.rfind(pat, 0, end)]: the last [i < n] where [pat] starts and fits. *)
Fixpoint rfind `{EqDecision A} (pat s : list A) (n : nat) : option nat :=
  match n with
  | O => None
  | S m => if bool_decide (take (length pat) (drop m s) = pat) then Some m else rfind pat s m
  end.

Lemma rfind_spec `{EqDecision A} (pat s : list A) n :
  match rfind pat s n with
  | Some i => (i < n)%nat ∧ take (length pat) (drop i s) = pat ∧
              ∀ j, (i < j < n)%nat → take (length pat) (drop j s) ≠ pat
  | None => ∀ j, (j < n)%nat → take (length pat) (drop j s) ≠ pat
  end.
Proof.
  induction n as [|n IH]; cbn [rfind]; [intros; lia|].
  case_bool_decide as E; [split; [lia|split; [done|intros; lia]]|].
  destruct (rfind pat s n) as [i|].
  - destruct IH as (Hi&Hm&Hn). split; [lia|]. split; [done|]. intros j Hj.
    destruct (decide (j = n)) as [->|]; [done|apply Hn; lia].
  - intros j Hj. destruct (decide (j = n)) as [->|]; [done|apply IH; lia].
Qed.

(** ** Record update

    [upd proj f r] is [r] with [f] applied to the field [proj]: the assignment
    [r.proj = f(r.proj)].  A record type gives its eta expansion once. *)

Class Eta (R : Type) : Type := eta : R → R.
Class SetField {R E : Type} (proj : R → E) : Type := upd : (E → E) → R → R.
Arguments upd {R E} proj {_} f r /.

Ltac solve_set_field :=
  match goal with
  | |- @SetField ?R ?E ?proj =>
      let inst := constr:(_ : Eta R) in
      let body := eval hnf in inst in
      let g := eval pattern proj in body in
      match g with
      | ?g _ => exact (λ f r, g (λ r0, f (proj r0)) r)
      end
  end.

#[export] Hint Extern 0 (SetField _) => solve_set_field : typeclass_instances.

(** ** Sums over lists and maps *)

Fixpoint sum_with {A} (f : A → Z) (l : list A) : Z :=
  match l with [] => 0 | x :: l' => f x + sum_with f l' end.

Section sum_with.
Context {A : Type}.
Implicit Types (f g : A → Z) (l : list A).

Lemma sum_with_app f l1 l2 : sum_with f (l1 ++ l2) = sum_with f l1 + sum_with f l2.
Proof. induction l1 as [|x l1 IH]; cbn in *; lia. Qed.

Lemma sum_with_perm f l1 l2 : l1 ≡ₚ l2 → sum_with f l1 = sum_with f l2.
Proof. induction 1; cbn; lia. Qed.

Lemma sum_with_ext f g l : (∀ x, x ∈ l → f x = g x) → sum_with f l = sum_with g l.
Proof.
  induction l as [|x l IH]; intros H; [done|]. cbn.
  rewrite (H x) by set_solver. f_equal. apply IH. set_solver.
Qed.

Lemma sum_with_nonneg f l : (∀ x, x ∈ l → 0 <= f x) → 0 <= sum_with f l.
Proof.
  induction l as [|x l IH]; intros H; [done|]. cbn.
  assert (0 <= f x) by (apply H; set_solver).
  assert (0 <= sum_with f l) by (apply IH; set_solver). lia.
Qed.

Lemma sum_with_zero f l : (∀ x, x ∈ l → f x = 0) → sum_with f l = 0.
Proof.
  induction l as [|x l IH]; intros H; [done|]. cbn.
  rewrite (H x), IH by set_solver. done.
Qed.

Lemma sum_with_ge f l x : (∀ y, y ∈ l → 0 <= f y) → x ∈ l → f x <= sum_with f l.
Proof.
  induction l as [|y l IH]; intros H Hx; [by apply elem_of_nil in Hx|]. cbn.
  assert (0 <= f y) by (apply H; set_solver).
  assert (0 <= sum_with f l) by (apply sum_with_nonneg; set_solver).
  apply elem_of_cons in Hx as [->|Hx]; [lia|].
  assert (f x <= sum_with f l) by (apply IH; set_solver). lia.
Qed.

(** Replacing or dropping the one occurrence of [x]. *)
Lemma sum_with_update `{!EqDecision A} f g l x :
  NoDup l → x ∈ l → (∀ y, y ∈ l → y ≠ x → f y = g y) →
  sum_with g l = sum_with f l + (g x - f x).
Proof.
  induction 1 as [|y l Hy Hl IH]; intros Hx Hfg; [by apply elem_of_nil in Hx|]. cbn.
  apply elem_of_cons in Hx as [->|Hx].
  - rewrite (sum_with_ext g f l); [lia|].
    intros z Hz. symmetry. apply Hfg; set_solver.
  - rewrite (Hfg y) by set_solver. rewrite IH; [lia|done|set_solver].
Qed.

Lemma filter_ne_id l x `{!∀ y, Decision (y ≠ x)} :
  x ∉ l → filter (λ y, y ≠ x) l = l.
Proof.
  induction l as [|y l IH]; intros Hx; [done|].
  rewrite filter_cons_True, IH by set_solver. done.
Qed.

Lemma sum_with_filter_ne f l x `{!∀ y, Decision (y ≠ x)} :
  NoDup l → x ∈ l → sum_with f (filter (λ y, y ≠ x) l) = sum_with f l - f x.
Proof.
  induction 1 as [|y l Hy Hl IH]; intros Hx; [by apply elem_of_nil in Hx|].
  rewrite filter_cons. apply elem_of_cons in Hx as [->|Hx].
  - rewrite decide_False by tauto. cbn.
    rewrite filter_ne_id by done. lia.
  - rewrite decide_True by set_solver. cbn. rewrite IH by done. lia.
Qed.
End sum_with.

(** The sum of [f k v] over the entries of a finite map. *)
Definition map_sum `{Countable K} {V} (f : K → V → Z) (m : gmap K V) : Z :=
  map_fold (λ k v a, f k v + a) 0 m.

Section map_sum.
Context `{Countable K} {V : Type}.
Implicit Types (f : K → V → Z) (m : gmap K V).

Lemma map_sum_insert_new f m k v :
  m !! k = None → map_sum f (<[k:=v]> m) = f k v + map_sum f m.
Proof.
  intros Hk. unfold map_sum. rewrite map_fold_insert_L; [done| |done].
  intros. lia.
Qed.

Lemma map_sum_delete f m k :
  map_sum f (delete k m) = map_sum f m - default 0 (f k <$> m !! k).
Proof.
  destruct (m !! k) as [v|] eqn:Hk; cbn.
  - rewrite <- (insert_delete_id m k v Hk) at 2.
    rewrite map_sum_insert_new by apply lookup_delete_eq. lia.
  - rewrite delete_id by done. lia.
Qed.

Lemma map_sum_insert f m k v :
  map_sum f (<[k:=v]> m) = map_sum f m - default 0 (f k <$> m !! k) + f k v.
Proof.
  rewrite <- insert_delete_eq, map_sum_insert_new by apply lookup_delete_eq.
  rewrite map_sum_delete. lia.
Qed.

Lemma map_sum_zero f m : (∀ k v, m !! k = Some v → f k v = 0) → map_sum f m = 0.
Proof.
  induction m as [|k v m Hk IH] using map_ind; intros Hf; [done|].
  rewrite map_sum_insert_new, (Hf k v) by (done || by rewrite lookup_insert_eq).
  rewrite IH; [done|]. intros k' v' H'. apply Hf.
  rewrite lookup_insert_ne; [done|congruence].
Qed.

Lemma map_sum_nonneg f m : (∀ k v, m !! k = Some v → 0 <= f k v) → 0 <= map_sum f m.
Proof.
  induction m as [|k v m Hk IH] using map_ind; intros Hf; [done|].
  rewrite map_sum_insert_new by done.
  assert (0 <= f k v) by (apply Hf; by rewrite lookup_insert_eq).
  assert (0 <= map_sum f m); [|lia]. apply IH. intros k' v' Hkv. apply Hf.
  rewrite lookup_insert_ne; [done|]. congruence.
Qed.
End map_sum.

(** [max(values, default=0)] *)
Definition max_default (vs : list Z) : Z :=
  match vs with [] => 0 | v :: vs' => foldl Z.max v vs' end.

(** ** A state and exception monad

    A method that mutates its object and may raise: the state reached is
    returned with the exception too, as the mutations done before a [raise]
    stay done. *)

Definition stm (S E A : Type) : Type := S → S * result E A.

#[export] Instance stm_ret {S E} : MRet (stm S E) := λ A a s, (s, Ok a).

#[export] Instance stm_bind {S E} : MBind (stm S E) := λ A B f m s,
  match m s with
  | (s', Ok a) => f a s'
  | (s', Err e) => (s', Err e)
  end.

Definition get_state {S E} : stm S E S := λ s, (s, Ok s).
Definition put_state {S E} (s : S) : stm S E unit := λ _, (s, Ok tt).
Definition modify {S E} (f : S → S) : stm S E unit := λ s, (f s, Ok tt).
Definition lift {S E A} (r : result E A) : stm S E A := λ s, (s, r).
Definition throw {S E A} (e : E) : stm S E A := λ s, (s, Err e).
Definition throw_if {S E} (b : bool) (e : E) : stm S E unit := λ s, (s, raise_if b e).

(** [try: m except BaseException: handler; raise] where the handler works on
    the state the exception left. *)
Definition on_error {S E A} (m : stm S E A) (handler : S → S) : stm S E A :=
  λ s, match m s with (s', Err e) => (handler s', Err e) | ok => ok end.

Definition when {S E} (b : bool) (m : stm S E unit) : stm S E unit :=
  if b then m else mret tt.

Lemma stm_bind_ok {S E A B} (m : stm S E A) (f : A → stm S E B) s s' b :
  (m ≫= f) s = (s', Ok b) → ∃ s1 a, m s = (s1, Ok a) ∧ f a s1 = (s', Ok b).
Proof. unfold mbind, stm_bind. destruct (m s) as [s1 [a|e]]; naive_solver. Qed.

Lemma stm_bind_eq {S E A B} (m : stm S E A) (f : A → stm S E B) s :
  (m ≫= f) s = match m s with
               | (s', Ok a) => f a s'
               | (s', Err e) => (s', Err e)
               end.
Proof. done. Qed.

(** Names the state a run leaves, once its result is known. *)
Lemma run_result {S E A} (m : stm S E A) s r : (m s).2 = r → m s = ((m s).1, r).
Proof. intros <-. apply surjective_pairing. Qed.

Lemma on_error_ok {S E A} (m : stm S E A) h s s' a :
  on_error m h s = (s', Ok a) → m s = (s', Ok a).
Proof. unfold on_error. by destruct (m s) as [? [?|?]]. Qed.

Lemma on_error_err {S E A} (m : stm S E A) h s s' e :
  on_error m h s = (s', Err e) → ∃ s1, m s = (s1, Err e) ∧ s' = h s1.
Proof. unfold on_error. destruct (m s) as [s1 [a|e1]]; [done|]. intros [= <- <-]. eauto. Qed.

Lemma stm_bind_err {S E A B} (m : stm S E A) (f : A → stm S E B) s s' e :
  (m ≫= f) s = (s', Err e) →
  m s = (s', Err e) ∨ ∃ s1 a, m s = (s1, Ok a) ∧ f a s1 = (s', Err e).
Proof. unfold mbind, stm_bind. destruct (m s) as [s1 [a|e1]]; naive_solver. Qed.

Lemma modify_ok {S E} (f : S → S) s s' (r : result E unit) :
  modify f s = (s', r) → s' = f s ∧ r = Ok tt.
Proof. by intros [= <- <-]. Qed.

Lemma get_bind {S E B} (f : S → stm S E B) s : (get_state ≫= f) s = f s s.
Proof. done. Qed.

Lemma put_bind {S E B} (s' : S) (f : unit → stm S E B) s : (put_state s' ≫= f) s = f tt s'.
Proof. done. Qed.

Lemma modify_bind {S E B} (g : S → S) (f : unit → stm S E B) s :
  (modify g ≫= f) s = f tt (g s).
Proof. done. Qed.

Lemma bind_assoc {S E A B C} (m : stm S E A) (f : A → stm S E B) (g : B → stm S E C) s :
  ((m ≫= f) ≫= g) s = (m ≫= λ a, f a ≫= g) s.
Proof. rewrite !stm_bind_eq. by destruct (m s) as [s1 [a|e]]. Qed.

Lemma lift_bind {S E A B} (r : result E A) (f : A → stm S E B) s :
  (lift r ≫= f) s = match r with Ok a => f a s | Err e => (s, Err e) end.
Proof. by destruct r. Qed.

Lemma throw_if_bind {S E B} b (e : E) (f : unit → stm S E B) s :
  (throw_if b e ≫= f) s = if b then (s, Err e) else f tt s.
Proof. by destruct b. Qed.

(** [yields R m s]: running [m] from [s] leaves a state related to [s] by [R],
    whether [m] returns or raises. With a preorder [R] this composes along
    binds: an invariant is the relation "held before implies holds after". *)
Definition yields {S E A} (R : relation S) (m : stm S E A) (s : S) : Prop := R s (m s).1.

Section yields.
Context {S E : Type} (R : relation S) `{!PreOrder R}.

Lemma yields_bind {A B} (m : stm S E A) (f : A → stm S E B) s :
  yields R m s → (∀ a, m s = ((m s).1, Ok a) → yields R (f a) (m s).1) →
  yields R (m ≫= f) s.
Proof.
  unfold yields, mbind, stm_bind. destruct (m s) as [s1 [a|e]]; simpl; intros H1 H2;
    [|done]. etrans; [exact H1|]. by apply H2.
Qed.

Lemma yields_get {B} (f : S → stm S E B) s :
  yields R (f s) s → yields R (get_state ≫= f) s.
Proof. done. Qed.

Lemma yields_throw_if {B} b (e : E) (f : unit → stm S E B) s :
  (b = false → yields R (f tt) s) → yields R (throw_if b e ≫= f) s.
Proof.
  unfold yields, mbind, stm_bind, throw_if. destruct b; simpl; [done|]. intros H. by apply H.
Qed.

Lemma yields_ret {A} (a : A) s : yields R (mret a : stm S E A) s.
Proof. unfold yields, mret, stm_ret. done. Qed.

Lemma yields_throw {A} (e : E) s : yields R (throw e : stm S E A) s.
Proof. unfold yields, throw. done. Qed.

Lemma yields_put s s' : R s s' → yields R (put_state s' : stm S E unit) s.
Proof. done. Qed.

Lemma yields_modify (f : S → S) s : R s (f s) → yields R (modify f : stm S E unit) s.
Proof. done. Qed.
End yields.

(** [triple P m Q X]: from a state that satisfies [P], [m] returns a value and a
    state that satisfy [Q] or raises and leaves a state that satisfies [X]. *)
Definition triple {S E A} (P : S → Prop) (m : stm S E A) (Q : A → S → Prop) (X : S → Prop) : Prop :=
  ∀ s, P s → match m s with (s', Ok a) => Q a s' | (s', Err _) => X s' end.

Section triple.
Context {S E : Type} (X : S → Prop).

Lemma triple_bind {A B} P (R : A → S → Prop) Q (m : stm S E A) (f : A → stm S E B) :
  triple P m R X → (∀ a, triple (R a) (f a) Q X) → triple P (m ≫= f) Q X.
Proof.
  intros Hm Hf s Hs. specialize (Hm s Hs). rewrite stm_bind_eq. destruct (m s) as [s1 [a|e]].
  - by apply Hf.
  - done.
Qed.

Lemma triple_weaken {A} (P P' : S → Prop) (Q Q' : A → S → Prop) (m : stm S E A) :
  triple P m Q X → (∀ s, P' s → P s) → (∀ a s, Q a s → Q' a s) → triple P' m Q' X.
Proof.
  intros Hm HP HQ s Hs. specialize (Hm s (HP s Hs)). destruct (m s) as [s1 [a|e]]; [by apply HQ|done].
Qed.

Lemma triple_ret {A} (P : A → S → Prop) (a : A) : triple (P a) (mret a : stm S E A) P X.
Proof. by intros s Hs. Qed.

Lemma triple_get {B} P Q (f : S → stm S E B) :
  (∀ s, P s → triple (λ s', P s' ∧ s' = s) (f s) Q X) → triple P (get_state ≫= f) Q X.
Proof. intros Hf s Hs. rewrite get_bind. by apply (Hf s). Qed.

Lemma triple_modify (P : S → Prop) (Q : unit → S → Prop) (f : S → S) :
  (∀ s, P s → Q tt (f s)) → triple P (modify f : stm S E unit) Q X.
Proof. intros H s Hs. by apply H. Qed.

Lemma triple_lift {A} (P : S → Prop) (r : result E A) :
  (∀ s, P s → X s) → triple P (lift r : stm S E A) (λ a s, P s ∧ r = Ok a) X.
Proof. intros HX s Hs. unfold lift. destruct r; [done|by apply HX]. Qed.

Lemma triple_throw_if (P : S → Prop) b (e : E) :
  (∀ s, P s → X s) → triple P (throw_if b e : stm S E unit) (λ _ s, P s ∧ b = false) X.
Proof. intros HX s Hs. unfold throw_if. destruct b; [by apply HX|done]. Qed.

Lemma triple_when (P Q : S → Prop) b (m : stm S E unit) :
  (b = true → triple P m (λ _, Q) X) → (b = false → ∀ s, P s → Q s) →
  triple P (when b m) (λ _, Q) X.
Proof. destruct b; intros H1 H2; [by apply H1|]. intros s Hs. by apply H2. Qed.

Lemma triple_false {A} (P : S → Prop) (Q : A → S → Prop) (m : stm S E A) :
  (∀ s, P s → False) → triple P m Q X.
Proof. intros H s Hs. by destruct (H s). Qed.
End triple.

(** [raises_only Φ m]: every exception [m] can end with satisfies [Φ]. *)
Definition raises_only {S E A} (Φ : E → Prop) (m : stm S E A) : Prop :=
  ∀ s s' e, m s = (s', Err e) → Φ e.

Section raises_only.
Context {S E : Type} (Φ : E → Prop).

Lemma raises_bind {A B} (m : stm S E A) (f : A → stm S E B) :
  raises_only Φ m → (∀ a, raises_only Φ (f a)) → raises_only Φ (m ≫= f).
Proof.
  intros Hm Hf s s' e. rewrite stm_bind_eq. destruct (m s) as [s1 [a|e1]] eqn:H.
  - apply Hf.
  - intros [= <- <-]. by eapply Hm.
Qed.

Lemma raises_ret {A} (a : A) : raises_only Φ (mret a : stm S E A).
Proof. by intros s s' e. Qed.

Lemma raises_get : raises_only Φ (get_state : stm S E S).
Proof. by intros s s' e. Qed.

Lemma raises_put (s0 : S) : raises_only Φ (put_state s0 : stm S E unit).
Proof. by intros s s' e. Qed.

Lemma raises_modify (f : S → S) : raises_only Φ (modify f : stm S E unit).
Proof. by intros s s' e. Qed.

Lemma raises_throw {A} e : Φ e → raises_only Φ (throw e : stm S E A).
Proof. by intros H s s' e' [= _ <-]. Qed.
End raises_only.

Create HintDb stm discriminated.
#[export] Hint Resolve raises_ret raises_get raises_put raises_modify raises_throw : stm.
#[export] Hint Resolve yields_ret yields_throw yields_put yields_modify : stm.

(** Walks through a monadic body, splitting its tests, and leaves the state
    changes to the hints. *)
Ltac stm_step :=
  first
    [ solve [eauto with stm typeclass_instances]
    | lazymatch goal with
      | |- yields _ (get_state ≫= _) _ => apply yields_get
      | |- yields _ (throw_if _ _ ≫= _) _ => apply yields_throw_if; [tc_solve|intros ?]
      | |- yields _ (_ ≫= _) _ => apply yields_bind; [tc_solve| |intros ? ?]
      | |- context [ match ?x with _ => _ end ] => destruct x eqn:?
      end ].

(** ** Floats

    A Python float is an IEEE binary64 number: the executable specification
    [spec_float] of the Standard Library at precision 53. *)

Abbreviation pyfloat := spec_float.

Definition float_of_int (z : Z) : pyfloat := binary_normalize 53 1024 z 0 false.

Definition fadd : pyfloat → pyfloat → pyfloat := SFadd 53 1024.
Definition fsub : pyfloat → pyfloat → pyfloat := SFsub 53 1024.
Definition fmul : pyfloat → pyfloat → pyfloat := SFmul 53 1024.
Definition fdiv : pyfloat → pyfloat → pyfloat := SFdiv 53 1024.

Definition is_finite (f : pyfloat) : bool :=
  match f with S754_zero _ | S754_finite _ _ _ => true | _ => false end.

Definition exact_int (z : Z) : pyfloat :=
  match z with
  | Z0 => S754_zero false
  | Zpos p => S754_finite false p 0
  | Zneg p => S754_finite true p 0
  end.

(** [a / b] on integers: the correctly rounded quotient of the exact values. *)
Definition int_truediv (a b : Z) : pyfloat := fdiv (exact_int a) (exact_int b).

Definition signed (s : bool) (m : positive) : Z := if s then Z.neg m else Z.pos m.

(** [math.floor], [math.ceil] and [round] of a finite float; [None] where
    Python raises (infinities and NaN). *)
Definition float_floor (f : pyfloat) : option Z :=
  match f with
  | S754_zero _ => Some 0
  | S754_finite s m e =>
      Some (if 0 <=? e then signed s m * 2 ^ e else signed s m / 2 ^ (- e))
  | _ => None
  end.

Definition float_ceil (f : pyfloat) : option Z := Z.opp <$> float_floor (SFopp f).

Definition float_round (f : pyfloat) : option Z :=
  match f with
  | S754_zero _ => Some 0
  | S754_finite s m e =>
      Some (if 0 <=? e then signed s m * 2 ^ e
            else let d := 2 ^ (- e) in
                 let q := signed s m / d in
                 let r2 := 2 * (signed s m mod d) in
                 if r2 <? d then q
                 else if d <? r2 then q + 1
                 else if Z.even q then q else q + 1)
  | _ => None
  end.

(** [int(f)]: truncation toward zero; [None] where Python raises. *)
Definition float_trunc (f : pyfloat) : option Z :=
  match f with
  | S754_zero _ => Some 0
  | S754_finite s m e =>
      Some (if 0 <=? e then signed s m * 2 ^ e else Z.quot (signed s m) (2 ^ (- e)))
  | _ => None
  end.

(** [f >= z] for a float and an integer, compared exactly as Python does. *)
Definition float_ge_int (f : pyfloat) (z : Z) : bool :=
  match float_floor f with
  | Some n => z <=? n
  | None => match f with S754_infinity s => negb s | _ => false end
  end.

(** ** Python values at a dynamically typed boundary *)

Inductive pyval : Type :=
| PNone
| PBool (b : bool)
| PInt (z : Z)
| PFloat (f : pyfloat)
| PStr (s : list Z)
| PBytes (bs : list byte)
| POther.

(** ** Python text

    A [str] is the list of its code points. *)

Abbreviation pystr := (list Z).

Definition py (s : string) : pystr :=
  (λ c, Z.of_N (Ascii.N_of_ascii c)) <$> String.list_ascii_of_string s.

#[global] Arguments py : simpl never.

(** [str.isspace] of one character: Unicode white space and the separators
    U+001C to U+001F, as CPython's tables define it. *)
Definition is_space (c : Z) : bool :=
  ((9 <=? c) && (c <=? 13)) || ((28 <=? c) && (c <=? 32)) || (c =? 133) ||
  (c =? 160) || (c =? 5760) || ((8192 <=? c) && (c <=? 8202)) ||
  (c =? 8232) || (c =? 8233) || (c =? 8239) || (c =? 8287) || (c =? 12288).

Fixpoint drop_space (s : pystr) : pystr :=
  match s with
  | c :: s' => if is_space c then drop_space s' else s
  | [] => []
  end.

(** [str.strip()] *)
Definition strip (s : pystr) : pystr := reverse (drop_space (reverse (drop_space s))).

Definition is_ascii (s : pystr) : bool := forallb (λ c, (0 <=? c) && (c <? 128)) s.

Definition is_digit (c : Z) : bool := (48 <=? c) && (c <=? 57).

(** [str.isdecimal] and [unicodedata.decimal]: the first code points of the
    runs of ten decimal digits of Unicode 15. *)
Definition decimal_zeros : list Z :=
  [48; 1632; 1776; 1984; 2406; 2534; 2662; 2790; 2918; 3046; 3174; 3302; 3430; 3558; 3664;
   3792; 3872; 4160; 4240; 6112; 6160; 6470; 6608; 6784; 6800; 6992; 7088; 7232; 7248; 42528;
   43216; 43264; 43472; 43504; 43600; 44016; 65296; 66720; 68912; 69734; 69872; 69942; 70096;
   70384; 70736; 70864; 71248; 71360; 71472; 71904; 72016; 72784; 73040; 73120; 73552; 92768;
   92864; 93008; 120782; 120792; 120802; 120812; 120822; 123200; 123632; 124144; 125264; 130032].

Definition decimal_digit (c : Z) : option Z :=
  (λ z, c - z) <$> List.find (λ z, (z <=? c) && (c <? z + 10)) decimal_zeros.

Definition is_decimal (s : pystr) : bool :=
  negb (bool_decide (s = [])) && forallb (λ c, bool_decide (is_Some (decimal_digit c))) s.

(** [str.lower] on the ASCII letters. *)
Definition ascii_lower (c : Z) : Z := if (65 <=? c) && (c <=? 90) then c + 32 else c.

Definition starts_with (p s : pystr) : bool := bool_decide (take (length p) s = p).

(** ** Positional numerals *)

Section numerals.
Variable base : Z.

Fixpoint digits_aux (fuel : nat) (n : Z) (acc : list Z) : list Z :=
  match fuel with
  | O => acc
  | S fuel' => if n <? base then n :: acc
               else digits_aux fuel' (n / base) (n mod base :: acc)
  end.

(** The digits of [n >= 0], most significant first. *)
Definition digits (n : Z) : list Z := digits_aux (S (Z.to_nat (Z.log2 n))) n [].

Definition value (ds : list Z) : Z := foldl (λ a d, a * base + d) 0 ds.
End numerals.

(** Zero padding to a minimal width, as in a [f"{n:0wd}"] format. *)
Definition zero_pad (width : nat) (ds : list Z) : list Z :=
  replicate (width - length ds) 0 ++ ds.

Definition hex_char (d : Z) : Z := if d <? 10 then 48 + d else 87 + d.
Definition dec_char (d : Z) : Z := 48 + d.

Definition is_hex_char (c : Z) : bool :=
  is_digit c || ((97 <=? c) && (c <=? 102)) || ((65 <=? c) && (c <=? 70)).

Definition hex_digit (c : Z) : Z :=
  if is_digit c then c - 48
  else if (97 <=? c) then c - 87 else c - 55.

(** [int(s, 16)] on a nonempty run of hexadecimal digits. *)
Definition int_hex (s : pystr) : Z := value 16 (hex_digit <$> s).

(** [int(s, 10)] on a nonempty run of ASCII digits. *)
Definition int_dec (s : pystr) : Z := value 10 ((λ c, c - 48) <$> s).

(** CPython's default [sys.get_int_max_str_digits()]: decimal [int] refuses
    longer digit runs with a bare [ValueError]. *)
Definition INT_MAX_STR_DIGITS : Z := 4300.

(** [f"{n:x}"] and [str(n)] for [n >= 0]. *)
Definition hex_text (n : Z) : pystr := hex_char <$> digits 16 n.
Definition dec_text (n : Z) : pystr := dec_char <$> digits 10 n.

Section numeral_lemmas.
Variable base : Z.
Hypothesis base_ge : 2 <= base.

Lemma value_app ds1 ds2 :
  value base (ds1 ++ ds2) = value base ds1 * base ^ zlen ds2 + value base ds2.
Proof.
  unfold value. rewrite foldl_app.
  generalize (foldl (λ a d, a * base + d) 0 ds1). clear ds1.
  induction ds2 as [|d ds IH] using rev_ind; intros a; [simpl; lia|].
  rewrite !foldl_app, length_app. cbn [foldl length]. rewrite IH.
  replace (Z.of_nat (length ds + 1)) with (Z.of_nat (length ds) + 1) by lia.
  rewrite Z.pow_add_r by lia. ring.
Qed.

Lemma value_cons d ds : value base (d :: ds) = d * base ^ zlen ds + value base ds.
Proof. change (d :: ds) with ([d] ++ ds). rewrite value_app. unfold value; simpl. lia. Qed.

Lemma digits_aux_spec fuel n acc :
  0 <= n → n < 2 ^ Z.of_nat fuel →
  ∃ ds, digits_aux base fuel n acc = ds ++ acc ∧ value base ds = n ∧
        Forall (λ d, 0 <= d < base) ds ∧
        (fuel ≠ O → ∃ d ds', ds = d :: ds' ∧ (d = 0 → ds' = [])).
Proof.
  revert n acc. induction fuel as [|fuel IH]; intros n acc Hn Hlt.
  { exists []. change (2 ^ Z.of_nat 0) with 1 in Hlt. assert (n = 0) as -> by lia.
    split; [done|]. split; [done|]. split; [constructor|done]. }
  cbn [digits_aux]. destruct (n <? base) eqn:Hb; bool_prop.
  { exists [n]. split; [done|]. split; [done|]. split; [|by eauto].
    constructor; [lia|constructor]. }
  assert (0 < n / base) by (apply Z.div_str_pos; lia).
  assert (n / base < 2 ^ Z.of_nat fuel).
  { apply Z.div_lt_upper_bound; [lia|].
    rewrite Nat2Z.inj_succ, Z.pow_succ_r in Hlt by lia.
    assert (0 < 2 ^ Z.of_nat fuel) by (apply Z.pow_pos_nonneg; lia). nia. }
  destruct (IH (n / base) (n mod base :: acc)) as (ds&->&Hv&Hf&Hh); [lia|lia|].
  exists (ds ++ [n mod base]). rewrite <- app_assoc. split; [done|].
  split; [|split].
  - rewrite value_app, Hv. unfold value; simpl.
    pose proof (Z.div_mod n base). lia.
  - apply Forall_app; split; [done|]. constructor; [|constructor].
    apply Z.mod_pos_bound; lia.
  - intros _. destruct fuel as [|fuel].
    { change (2 ^ Z.of_nat 0) with 1 in *. lia. }
    destruct Hh as (d&ds'&->&Hd); [done|].
    exists d, (ds' ++ [n mod base]). split; [done|].
    intros ->. rewrite (Hd eq_refl) in Hv. unfold value in Hv. simpl in Hv. lia.
Qed.

Lemma digits_spec n :
  0 <= n →
  value base (digits base n) = n ∧ Forall (λ d, 0 <= d < base) (digits base n) ∧
  ∃ d ds', digits base n = d :: ds' ∧ (d = 0 → ds' = []).
Proof.
  intros Hn. unfold digits.
  destruct (digits_aux_spec (S (Z.to_nat (Z.log2 n))) n []) as (ds&->&Hv&Hf&Hh).
  - done.
  - rewrite Nat2Z.inj_succ, Z2Nat.id by apply Z.log2_nonneg.
    destruct (decide (n = 0)) as [->|]; [done|].
    apply Z.log2_spec; lia.
  - rewrite app_nil_r. repeat split; [done|done|]. by apply Hh.
Qed.

Lemma value_bounds ds :
  Forall (λ d, 0 <= d < base) ds → 0 <= value base ds < base ^ zlen ds.
Proof.
  induction 1 as [|d ds Hd Hf IH]; [unfold value; simpl; lia|].
  rewrite value_cons. cbn [length]. rewrite Nat2Z.inj_succ, Z.pow_succ_r by lia. nia.
Qed.

Lemma digits_length n k :
  0 <= n < base ^ Z.of_nat k → (0 < k)%nat → (length (digits base n) <= k)%nat.
Proof.
  intros [Hn Hlt] Hk. destruct (digits_spec n Hn) as (Hv&Hf&d&ds&Hd&Hc).
  destruct (decide (d = 0)) as [->|Hne].
  { rewrite Hd, (Hc eq_refl). simpl. lia. }
  rewrite Hd in *. rewrite value_cons in Hv.
  inversion Hf as [|? ? Hd0 Hf']; subst.
  pose proof (value_bounds _ Hf'). cbn [length].
  destruct (decide (length ds < k)%nat) as [|Hge]; [lia|exfalso].
  assert (base ^ Z.of_nat k <= base ^ zlen ds) by (apply Z.pow_le_mono_r; lia).
  assert (0 < base ^ zlen ds) by (apply Z.pow_pos_nonneg; lia). nia.
Qed.

Lemma value_zero_pad w ds : value base (zero_pad w ds) = value base ds.
Proof.
  unfold zero_pad. rewrite value_app.
  assert (value base (replicate (w - length ds) 0) = 0) as ->; [|lia].
  induction (w - length ds)%nat as [|m IH]; [done|].
  cbn [replicate]. rewrite value_cons, IH. lia.
Qed.

(** Canonical digit strings of equal value are equal. *)
Lemma value_inj ds1 ds2 :
  length ds1 = length ds2 →
  Forall (λ d, 0 <= d < base) ds1 → Forall (λ d, 0 <= d < base) ds2 →
  value base ds1 = value base ds2 → ds1 = ds2.
Proof.
  intros Hlen Hf1. revert ds2 Hlen. induction Hf1 as [|d ds Hd Hf IH]; intros [|d2 ds2];
    try done. cbn [length]. intros Hlen Hf2 Hv.
  inversion Hf2 as [|? ? Hd2 Hf2']; subst. rewrite !value_cons in Hv.
  assert (length ds = length ds2) as Hl by lia. rewrite Hl in Hv.
  pose proof (value_bounds _ Hf). pose proof (value_bounds _ Hf2'). rewrite Hl in *.
  assert (0 < base ^ zlen ds2) by (apply Z.pow_pos_nonneg; lia).
  assert (d = d2) by nia. subst. f_equal. apply IH; [done|done|lia].
Qed.

Lemma value_length_canonical d ds :
  Forall (λ d, 0 <= d < base) (d :: ds) → d ≠ 0 →
  base ^ zlen ds <= value base (d :: ds) < base ^ Z.of_nat (S (length ds)).
Proof.
  intros Hf Hd. split; [|apply (value_bounds _ Hf)].
  rewrite value_cons. inversion Hf as [|? ? ? Hf']; subst.
  pose proof (value_bounds _ Hf'). nia.
Qed.

(** [digits] inverts [value] on digit strings without leading zeros. *)
Lemma digits_value d ds :
  Forall (λ d, 0 <= d < base) (d :: ds) → (d = 0 → ds = []) →
  digits base (value base (d :: ds)) = d :: ds.
Proof.
  intros Hf Hc. pose proof (value_bounds _ Hf) as Hb.
  destruct (digits_spec (value base (d :: ds))) as (Hv&Hf'&e&es&He&Hce); [lia|].
  rewrite He in *. destruct (decide (d = 0)) as [->|Hd].
  - rewrite (Hc eq_refl) in *.
    destruct (decide (e = 0)) as [->|Hne]; [by rewrite (Hce eq_refl)|].
    pose proof (value_length_canonical e es Hf' Hne) as [Hlo _].
    rewrite Hv in Hlo. unfold value in Hlo; simpl in Hlo.
    assert (0 < base ^ zlen es) by (apply Z.pow_pos_nonneg; lia). lia.
  - pose proof (value_length_canonical d ds Hf Hd).
    destruct (decide (e = 0)) as [->|Hne].
    { rewrite (Hce eq_refl) in Hv. unfold value in Hv at 1. simpl in Hv.
      assert (0 < base ^ zlen ds) by (apply Z.pow_pos_nonneg; lia). lia. }
    pose proof (value_length_canonical e es Hf' Hne) as H2. rewrite Hv in H2.
    assert (length es = length ds).
    { destruct (Nat.lt_trichotomy (length es) (length ds)) as [Hlt|[->|Hlt]]; [|done|].
      - assert (base ^ Z.of_nat (S (length es)) <= base ^ zlen ds)
          by (apply Z.pow_le_mono_r; lia). lia.
      - assert (base ^ Z.of_nat (S (length ds)) <= base ^ zlen es)
          by (apply Z.pow_le_mono_r; lia). lia. }
    apply value_inj; simpl; congruence.
Qed.
End numeral_lemmas.

(** ** The texts of integers *)

Lemma hex_char_digit d :
  0 <= d < 16 →
  is_hex_char (hex_char d) = true ∧ hex_digit (hex_char d) = d ∧
  (48 <= hex_char d <= 57 ∨ 97 <= hex_char d <= 102).
Proof.
  intros Hd. unfold is_hex_char, hex_digit, hex_char, is_digit.
  destruct (d <? 10) eqn:?; bool_prop; repeat case_match; bool_prop; lia.
Qed.

Lemma hex_text_spec n :
  0 <= n →
  int_hex (hex_text n) = n ∧ hex_text n ≠ [] ∧
  Forall (λ c, is_hex_char c = true ∧ (48 <= c <= 57 ∨ 97 <= c <= 102)) (hex_text n).
Proof.
  intros Hn. destruct (digits_spec 16 ltac:(lia) n Hn) as (Hv&Hf&d&ds&Hd&_).
  unfold int_hex, hex_text. split; [|split; [by rewrite Hd|]].
  - rewrite <- list_fmap_compose. rewrite list_fmap_id_on; [done|].
    eapply Forall_impl; [exact Hf|]. intros e He. by apply hex_char_digit.
  - apply Forall_fmap. eapply Forall_impl; [exact Hf|]. intros e He.
    destruct (hex_char_digit e He) as (?&_&?). by split.
Qed.

(** ** Bytes *)

Definition b2z (b : byte) : Z := Z.of_N (Byte.to_N b).

Definition z2b (z : Z) : byte :=
  match Byte.of_N (Z.to_N z) with Some b => b | None => x00 end.

#[export] Instance byte_eq_dec : EqDecision byte := Byte.byte_eq_dec.

(** [int.from_bytes(bs, "big")] and ["little"]. *)
Definition be_int (bs : list byte) : Z := value 256 (b2z <$> bs).
Definition le_int (bs : list byte) : Z := be_int (reverse bs).

(** [n.to_bytes(width, "big")] for [0 <= n < 256 ^ width]. *)
Definition to_be (width : nat) (n : Z) : list byte :=
  z2b <$> zero_pad width (digits 256 n).

(** [n.to_bytes(width, "little")] *)
Definition to_le (width : nat) (n : Z) : list byte := reverse (to_be width n).

#[global] Arguments to_be : simpl never.
#[global] Arguments to_le : simpl never.
#[global] Arguments be_int : simpl never.
#[global] Arguments le_int : simpl never.

Lemma b2z_bounds b : 0 <= b2z b < 256.
Proof.
  unfold b2z. pose proof (Byte.to_N_bounded b). lia.
Qed.

Lemma z2b_b2z b : z2b (b2z b) = b.
Proof. unfold z2b, b2z. by rewrite N2Z.id, Byte.of_to_N. Qed.

Lemma b2z_z2b z : 0 <= z < 256 → b2z (z2b z) = z.
Proof.
  intros Hz. unfold z2b, b2z. destruct (Byte.of_N (Z.to_N z)) eqn:H.
  - apply Byte.to_of_N in H. rewrite H. lia.
  - apply Byte.of_N_None_iff in H. lia.
Qed.

#[export] Instance b2z_inj : Inj (=) (=) b2z.
Proof. intros a b H. by rewrite <- (z2b_b2z a), H, z2b_b2z. Qed.

Lemma b2z_forall bs : Forall (λ d, 0 <= d < 256) (b2z <$> bs).
Proof. apply Forall_fmap, Forall_true. intros ?. apply b2z_bounds. Qed.

Lemma be_int_bounds bs : 0 <= be_int bs < 256 ^ zlen bs.
Proof.
  pose proof (value_bounds 256 ltac:(lia) _ (b2z_forall bs)) as H.
  by rewrite length_fmap in H.
Qed.

Lemma to_be_spec width n :
  0 <= n < 256 ^ Z.of_nat width → (0 < width)%nat →
  length (to_be width n) = width ∧ be_int (to_be width n) = n.
Proof.
  intros Hn Hw. destruct (digits_spec 256 ltac:(lia) n) as (Hv&Hf&_); [lia|].
  pose proof (digits_length 256 ltac:(lia) n width Hn Hw).
  unfold to_be, be_int. split.
  - rewrite length_fmap. unfold zero_pad. rewrite length_app, length_replicate. lia.
  - rewrite <- list_fmap_compose. rewrite list_fmap_id_on.
    + by rewrite value_zero_pad by lia.
    + unfold zero_pad. apply Forall_app. split.
      * apply Forall_replicate. done.
      * eapply Forall_impl; [exact Hf|]. intros d Hd. by apply b2z_z2b.
Qed.

Lemma be_int_inj bs1 bs2 : length bs1 = length bs2 → be_int bs1 = be_int bs2 → bs1 = bs2.
Proof.
  intros Hl Hv. apply (inj (fmap b2z)).
  apply (value_inj 256); auto using b2z_forall; [lia|]. by rewrite !length_fmap.
Qed.

Lemma to_be_be_int bs : (0 < length bs)%nat → to_be (length bs) (be_int bs) = bs.
Proof.
  intros H. destruct (to_be_spec (length bs) (be_int bs)) as [Hl Hv];
    [apply be_int_bounds|done|]. by apply be_int_inj.
Qed.

Lemma to_le_spec w n :
  (0 < w)%nat → 0 <= n < 256 ^ Z.of_nat w → length (to_le w n) = w ∧ le_int (to_le w n) = n.
Proof.
  intros Hw Hn. unfold to_le, le_int. rewrite length_reverse, reverse_involutive.
  by apply to_be_spec.
Qed.

(** ** CRC-32 ([zlib.crc32]) *)

Definition CRC_POLYNOMIAL : Z := 3988292384.
Definition CRC_MASK : Z := 4294967295.

Definition crc_bit (c : Z) : Z :=
  if Z.odd c then Z.lxor (Z.shiftr c 1) CRC_POLYNOMIAL else Z.shiftr c 1.

Definition crc_byte (c : Z) (b : byte) : Z := Nat.iter 8 crc_bit (Z.lxor c (b2z b)).

(** [zlib.crc32(data, value)] *)
Definition crc32_from (v : Z) (data : list byte) : Z :=
  Z.lxor (foldl crc_byte (Z.lxor v CRC_MASK) data) CRC_MASK.

Definition crc32 (data : list byte) : Z := crc32_from 0 data.

#[global] Arguments crc32_from : simpl never.
#[global] Arguments crc32 : simpl never.
