(* ===== verification/FileIdentity.v ===== *)
(** * Stable file identities (neocortex/foundation/file_identity.py)

    The two textual encodings of a filesystem identity, their decoders, and the
    automatic detection that refuses text valid in both encodings. *)

From S2P Require Import Prelude.

Definition PACKED_HEX_COMPONENT_WIDTH : nat := 32.
Definition MAX_FILE_IDENTITY_COMPONENT : Z :=
  Z.shiftl 1 (Z.of_nat PACKED_HEX_COMPONENT_WIDTH * 4) - 1.

Inductive FileIdentityEncoding : Type := PACKED_HEX_V1 | LEGACY_DECIMAL | AUTO.

#[export] Instance FileIdentityEncoding_eq_dec : EqDecision FileIdentityEncoding.
Proof. solve_decision. Defined.

(** The exceptions the module raises: [FileIdentityError] with its cause,
    [AmbiguousFileIdentityError], and the [ValueError] of [int()] itself. *)
Inductive FileIdentityError : Type :=
| ComponentNotInteger
| ComponentOutOfRange
| UnsupportedEncoding
| KeyNotText
| WrongSeparatorCount
| EmptyComponent
| NotPackedHex
| NotLegacyDecimal
| NeitherEncoding
| AutoIsDecodeOnly
| AmbiguousFileIdentityError
| IntDigitLimit.

Record FileIdentity : Type := { volume_id : Z; file_id : Z }.

#[export] Instance FileIdentity_eq_dec : EqDecision FileIdentity.
Proof. solve_decision. Defined.

Definition validated_component (v : pyval) : result FileIdentityError Z :=
  match v with
  | PInt z =>
      raise_if (negb ((0 <=? z) && (z <=? MAX_FILE_IDENTITY_COMPONENT)))
        ComponentOutOfRange;;
      Ok z
  | _ => Err ComponentNotInteger
  end.

(** [FileIdentity(volume_id, file_id)] with its [__post_init__]. *)
Definition make_FileIdentity (v f : pyval) : result FileIdentityError FileIdentity :=
  v' ← validated_component v;
  f' ← validated_component f;
  Ok {| volume_id := v'; file_id := f' |}.

Definition colon : Z := 58.

Definition packed_component (n : Z) : pystr :=
  hex_char <$> zero_pad PACKED_HEX_COMPONENT_WIDTH (digits 16 n).

Definition packed_key (fi : FileIdentity) : pystr :=
  packed_component (volume_id fi) ++ colon :: packed_component (file_id fi).

Definition decimal_components (fi : FileIdentity) : pystr * pystr :=
  (dec_text (volume_id fi), dec_text (file_id fi)).

(** A [StrEnum] member equals its value, so an encoding argument is its text. *)
Definition encoding_value (e : FileIdentityEncoding) : pystr :=
  match e with
  | PACKED_HEX_V1 => py "packed-hex-v1"
  | LEGACY_DECIMAL => py "legacy-decimal"
  | AUTO => py "auto"
  end.

Definition coerce_encoding (e : pyval) : result FileIdentityError FileIdentityEncoding :=
  match e with
  | PStr s =>
      if decide (s = encoding_value PACKED_HEX_V1) then Ok PACKED_HEX_V1
      else if decide (s = encoding_value LEGACY_DECIMAL) then Ok LEGACY_DECIMAL
      else if decide (s = encoding_value AUTO) then Ok AUTO
      else Err UnsupportedEncoding
  | _ => Err UnsupportedEncoding
  end.

Definition encode (fi : FileIdentity) (encoding : pyval) : result FileIdentityError pystr :=
  e ← coerce_encoding encoding;
  match e with
  | PACKED_HEX_V1 => Ok (packed_key fi)
  | LEGACY_DECIMAL =>
      let '(v, f) := decimal_components fi in Ok (v ++ colon :: f)
  | AUTO => Err AutoIsDecodeOnly
  end.

(** [key.split(":", 1)] *)
Fixpoint split_colon (s : pystr) : pystr * pystr :=
  match s with
  | [] => ([], [])
  | c :: s' => if c =? colon then ([], s')
               else let '(a, b) := split_colon s' in (c :: a, b)
  end.

Definition count_colon (s : pystr) : nat := length (filter (λ c, c = colon) s).

Definition split_key (key : pyval) : result FileIdentityError (pystr * pystr) :=
  match key with
  | PStr s =>
      raise_if (negb (count_colon s =? 1)%nat) WrongSeparatorCount;;
      let '(v, f) := split_colon s in
      raise_if (bool_decide (v = []) || bool_decide (f = [])) EmptyComponent;;
      Ok (v, f)
  | _ => Err KeyNotText
  end.

Definition is_packed_hex_component (s : pystr) : bool :=
  (length s =? PACKED_HEX_COMPONENT_WIDTH)%nat && forallb is_hex_char s.

Definition is_canonical_decimal_component (s : pystr) : bool :=
  bool_decide (s = py "0") ||
  match s with
  | c :: _ => ((49 <=? c) && (c <=? 57)) && is_ascii s && forallb is_digit s
  | [] => false
  end.

Definition decode_packed_hex (v f : pystr) : result FileIdentityError FileIdentity :=
  raise_if (negb (is_packed_hex_component v && is_packed_hex_component f)) NotPackedHex;;
  make_FileIdentity (PInt (int_hex v)) (PInt (int_hex f)).

Definition int_decimal (s : pystr) : result FileIdentityError Z :=
  raise_if (INT_MAX_STR_DIGITS <? zlen s) IntDigitLimit;;
  Ok (int_dec s).

Definition decode_legacy_decimal (v f : pystr) : result FileIdentityError FileIdentity :=
  raise_if (negb (is_canonical_decimal_component v && is_canonical_decimal_component f))
    NotLegacyDecimal;;
  v' ← int_decimal v;
  f' ← int_decimal f;
  make_FileIdentity (PInt v') (PInt f').

Definition decode_file_identity (key encoding : pyval)
  : result FileIdentityError FileIdentity :=
  e ← coerce_encoding encoding;
  '(v, f) ← split_key key;
  match e with
  | PACKED_HEX_V1 => decode_packed_hex v f
  | LEGACY_DECIMAL => decode_legacy_decimal v f
  | AUTO =>
      let packed := is_packed_hex_component v && is_packed_hex_component f in
      let decimal := is_canonical_decimal_component v && is_canonical_decimal_component f in
      raise_if (packed && decimal) AmbiguousFileIdentityError;;
      if packed then decode_packed_hex v f
      else if decimal then decode_legacy_decimal v f
      else Err NeitherEncoding
  end.

Definition encode_file_identity (v f : pyval) : result FileIdentityError pystr :=
  fi ← make_FileIdentity v f;
  Ok (packed_key fi).

Definition file_key_from_snapshot (volume file : pyval) : result FileIdentityError pystr :=
  encode_file_identity volume file.

(** ** Lemmas on the component texts *)

Definition in_bounds (fi : FileIdentity) : Prop :=
  0 <= volume_id fi <= MAX_FILE_IDENTITY_COMPONENT ∧
  0 <= file_id fi <= MAX_FILE_IDENTITY_COMPONENT.

Lemma make_in_bounds v f fi :
  make_FileIdentity v f = Ok fi → in_bounds fi.
Proof.
  unfold make_FileIdentity, validated_component. intros H.
  destruct v, f; inv_ok; bool_prop. split; simpl; lia.
Qed.

Lemma make_ok fi :
  in_bounds fi → make_FileIdentity (PInt (volume_id fi)) (PInt (file_id fi)) = Ok fi.
Proof.
  intros [Hv Hf]. unfold make_FileIdentity, validated_component.
  destruct fi as [v f]; cbn [volume_id file_id] in *.
  assert ((0 <=? v) && (v <=? MAX_FILE_IDENTITY_COMPONENT) = true) as -> by lia.
  assert ((0 <=? f) && (f <=? MAX_FILE_IDENTITY_COMPONENT) = true) as -> by lia.
  done.
Qed.

Lemma hex_char_spec d :
  0 <= d < 16 → is_hex_char (hex_char d) = true ∧ hex_digit (hex_char d) = d ∧ hex_char d ≠ colon.
Proof.
  intros Hd. unfold is_hex_char, hex_digit, hex_char, is_digit, colon.
  destruct (d <? 10) eqn:?; bool_prop; repeat case_match; bool_prop; lia.
Qed.

Lemma dec_char_spec d :
  0 <= d < 10 → is_digit (dec_char d) = true ∧ dec_char d - 48 = d ∧ dec_char d ≠ colon.
Proof. unfold is_digit, dec_char, colon. lia. Qed.

Lemma packed_component_spec n :
  0 <= n <= MAX_FILE_IDENTITY_COMPONENT →
  is_packed_hex_component (packed_component n) = true ∧
  int_hex (packed_component n) = n ∧ Forall (λ c, c ≠ colon) (packed_component n).
Proof.
  intros Hn. destruct (digits_spec 16 ltac:(lia) n ltac:(lia)) as (Hv&Hf&_).
  assert (length (digits 16 n) <= 32)%nat as Hlen.
  { apply digits_length; [lia| |lia]. split; [lia|].
    change (16 ^ Z.of_nat 32) with (MAX_FILE_IDENTITY_COMPONENT + 1). lia. }
  assert (Forall (λ d, 0 <= d < 16) (zero_pad PACKED_HEX_COMPONENT_WIDTH (digits 16 n))) as Hz.
  { apply Forall_app; split; [|done]. apply Forall_replicate. lia. }
  unfold packed_component, is_packed_hex_component, int_hex. split; [|split].
  - apply andb_true_iff; split.
    + apply Nat.eqb_eq. unfold zero_pad.
      rewrite length_fmap, length_app, length_replicate.
      unfold PACKED_HEX_COMPONENT_WIDTH in *. lia.
    + apply forallb_forall. intros c. rewrite <- list_elem_of_In.
      intros (d&->&Hd)%list_elem_of_fmap.
      apply hex_char_spec. by apply (proj1 (Forall_forall _ _) Hz).
  - rewrite <- list_fmap_compose.
    rewrite list_fmap_id_on; [by rewrite value_zero_pad|].
    eapply Forall_impl; [exact Hz|]. intros d Hd. by apply hex_char_spec.
  - apply Forall_fmap. eapply Forall_impl; [exact Hz|]. intros d Hd.
    by apply hex_char_spec.
Qed.

Lemma dec_text_spec n :
  0 <= n →
  is_canonical_decimal_component (dec_text n) = true ∧
  int_dec (dec_text n) = n ∧ Forall (λ c, c ≠ colon) (dec_text n) ∧ dec_text n ≠ [].
Proof.
  intros Hn. destruct (digits_spec 10 ltac:(lia) n Hn) as (Hv&Hf&d&ds&Hd&Hc).
  unfold dec_text, int_dec. split; [|split; [|split]].
  - unfold is_canonical_decimal_component. rewrite Hd in *. cbn [fmap list_fmap].
    inversion Hf as [|? ? Hd0 Hf']; subst.
    destruct (decide (d = 0)) as [->|Hne].
    { rewrite (Hc eq_refl). done. }
    apply orb_true_iff; right. unfold is_ascii.
    rewrite !andb_true_iff, !forallb_forall.
    assert (∀ c, In c (dec_char d :: (dec_char <$> ds)) → is_digit c = true) as Hall.
    { intros c [<-|Hin]; [by apply dec_char_spec|].
      apply list_elem_of_In, list_elem_of_fmap in Hin as (e&->&He).
      apply dec_char_spec. by apply (proj1 (Forall_forall _ _) Hf'). }
    split; [split; [unfold dec_char; lia|]|exact Hall].
    intros c Hin. specialize (Hall c Hin). unfold is_digit in Hall. lia.
  - rewrite <- list_fmap_compose.
    rewrite list_fmap_id_on; [done|].
    eapply Forall_impl; [exact Hf|]. intros e He. by apply dec_char_spec.
  - apply Forall_fmap. eapply Forall_impl; [exact Hf|]. intros e He. by apply dec_char_spec.
  - rewrite Hd. done.
Qed.

Lemma split_colon_app a b :
  Forall (λ c, c ≠ colon) a → split_colon (a ++ colon :: b) = (a, b).
Proof.
  induction 1 as [|c a Hc Ha IH]; [done|]. cbn [app split_colon].
  destruct (c =? colon) eqn:?; bool_prop; [done|].
  by rewrite IH.
Qed.

Lemma split_key_app a b :
  Forall (λ c, c ≠ colon) a → Forall (λ c, c ≠ colon) b → a ≠ [] → b ≠ [] →
  split_key (PStr (a ++ colon :: b)) = Ok (a, b).
Proof.
  intros Ha Hb Hna Hnb. unfold split_key.
  assert (count_colon (a ++ colon :: b) = 1%nat) as ->.
  { unfold count_colon. rewrite filter_app, filter_cons_True, length_app by done.
    cbn [length].
    assert (∀ l, Forall (λ c, c ≠ colon) l → filter (λ c, c = colon) l = []) as Hnil.
    { intros l Hl. induction Hl; [done|]. by rewrite filter_cons_False. }
    rewrite (Hnil a), (Hnil b) by done. done. }
  cbn [Nat.eqb negb raise_if mbind result_bind].
  rewrite split_colon_app by done.
  rewrite !bool_decide_eq_false_2 by done. done.
Qed.

(** ** Round trips and the automatic detection *)

Lemma decimal_length_bound n :
  0 <= n <= MAX_FILE_IDENTITY_COMPONENT → zlen (dec_text n) <= INT_MAX_STR_DIGITS.
Proof.
  intros Hn. unfold dec_text. rewrite length_fmap.
  assert (length (digits 10 n) <= 40)%nat; [|unfold INT_MAX_STR_DIGITS; lia].
  apply digits_length; [lia| |lia]. split; [lia|].
  assert (MAX_FILE_IDENTITY_COMPONENT < 10 ^ Z.of_nat 40) by (vm_compute; done). lia.
Qed.

(** C37: every identity within the codec's bounds survives encoding and decoding
    through each of the two named encodings. *)
Theorem decode_encode_roundtrip (fi : FileIdentity) (e : FileIdentityEncoding) (key : pystr) :
  in_bounds fi → encode fi (PStr (encoding_value e)) = Ok key →
  decode_file_identity (PStr key) (PStr (encoding_value e)) = Ok fi.
Proof.
  intros Hb Henc. pose proof Hb as [Hv Hf]. unfold decode_file_identity.
  destruct e; [change (Ok (packed_key fi) = @Ok FileIdentityError _ key) in Henc
              |change (Ok (dec_text (volume_id fi) ++ colon :: dec_text (file_id fi))
                       = @Ok FileIdentityError _ key) in Henc
              |discriminate Henc]; injection Henc as <-.
  - destruct (packed_component_spec _ Hv) as (Hpv&Hiv&Hcv).
    destruct (packed_component_spec _ Hf) as (Hpf&Hif&Hcf).
    change (coerce_encoding _) with (@Ok FileIdentityError _ PACKED_HEX_V1).
    rewrite bind_ok_l. unfold packed_key.
    rewrite split_key_app; [|done..|by intros Hn; rewrite Hn in *|by intros Hn; rewrite Hn in *].
    rewrite bind_ok_l. unfold decode_packed_hex. rewrite Hpv, Hpf, Hiv, Hif.
    by apply make_ok.
  - destruct (dec_text_spec (volume_id fi)) as (Hpv&Hiv&Hcv&Hnv); [lia|].
    destruct (dec_text_spec (file_id fi)) as (Hpf&Hif&Hcf&Hnf); [lia|].
    change (coerce_encoding _) with (@Ok FileIdentityError _ LEGACY_DECIMAL).
    rewrite bind_ok_l. rewrite split_key_app by done.
    rewrite bind_ok_l. unfold decode_legacy_decimal, int_decimal.
    pose proof (decimal_length_bound _ Hv). pose proof (decimal_length_bound _ Hf).
    rewrite Hpv, Hpf, Hiv, Hif.
    assert ((INT_MAX_STR_DIGITS <? zlen (dec_text (volume_id fi))) = false) as -> by lia.
    assert ((INT_MAX_STR_DIGITS <? zlen (dec_text (file_id fi))) = false) as -> by lia.
    by apply make_ok.
Qed.

Lemma decode_encode_roundtrip_witness :
  decode_file_identity (PStr (packed_key {| volume_id := 2049; file_id := 77 |}))
    (PStr (encoding_value PACKED_HEX_V1)) = Ok {| volume_id := 2049; file_id := 77 |}.
Proof.
  apply (decode_encode_roundtrip {| volume_id := 2049; file_id := 77 |} PACKED_HEX_V1).
  - vm_compute. split; split; discriminate.
  - reflexivity.
Defined.

(** Automatic detection never guesses: whenever it returns an identity,
    exactly one of the two explicit encodings accepts the text's form, that
    encoding decodes it to the same identity, and the other one refuses it. *)
Theorem auto_never_guesses (key : pyval) (fi : FileIdentity) :
  decode_file_identity key (PStr (encoding_value AUTO)) = Ok fi →
  in_bounds fi ∧
  ((decode_file_identity key (PStr (encoding_value PACKED_HEX_V1)) = Ok fi ∧
    decode_file_identity key (PStr (encoding_value LEGACY_DECIMAL)) = Err NotLegacyDecimal) ∨
   (decode_file_identity key (PStr (encoding_value LEGACY_DECIMAL)) = Ok fi ∧
    decode_file_identity key (PStr (encoding_value PACKED_HEX_V1)) = Err NotPackedHex)).
Proof.
  unfold decode_file_identity.
  change (coerce_encoding (PStr (encoding_value AUTO))) with (@Ok FileIdentityError _ AUTO).
  change (coerce_encoding (PStr (encoding_value PACKED_HEX_V1)))
    with (@Ok FileIdentityError _ PACKED_HEX_V1).
  change (coerce_encoding (PStr (encoding_value LEGACY_DECIMAL)))
    with (@Ok FileIdentityError _ LEGACY_DECIMAL).
  rewrite !bind_ok_l. destruct (split_key key) as [[v f]|]; [|done]. rewrite !bind_ok_l.
  unfold decode_packed_hex, decode_legacy_decimal.
  destruct (is_packed_hex_component v && is_packed_hex_component f);
    destruct (is_canonical_decimal_component v && is_canonical_decimal_component f);
    cbn [negb andb raise_if]; rewrite ?bind_ok_l, ?bind_err_l; try done.
  - intros H. split; [by eapply make_in_bounds|by left].
  - intros H. split; [|by right].
    inv_ok. by eapply make_in_bounds.
Qed.

Lemma auto_never_guesses_witness :
  decode_file_identity (PStr (py "2049:77")) (PStr (encoding_value LEGACY_DECIMAL))
    = Ok {| volume_id := 2049; file_id := 77 |}.
Proof.
  destruct (auto_never_guesses (PStr (py "2049:77")) {| volume_id := 2049; file_id := 77 |})
    as [_ [[_ H]|[H _]]].
  - reflexivity.
  - exfalso. vm_compute in H. discriminate H.
  - exact H.
Defined.
