(* ===== verification/ReadBudget.v ===== *)
(** * Read budgets (neocortex/knowledge/knowledge_read_budget.py)

    The caller-owned limits of one bounded read: rows, vectors, temporary bytes
    and a deadline, charged by [checkpoint]. *)

From S2P Require Import Prelude.

Definition MAX_COUNTER : Z := 10000000.
Definition MAX_TEMPORARY_BYTES : Z := 256 * 1024 * 1024 * 1024.

(** The reasons of [KnowledgeReadBudgetExceeded]. *)
Inductive exceeded_reason : Type :=
| deadline_exceeded | rows_exhausted | vectors_exhausted
| temporary_bytes_exhausted | cancelled.

(** [ValueError], [RuntimeError] of the clock, [OverflowError] of a float
    conversion, and the budget's own exception. *)
Inductive budget_error : Type :=
| CounterOutOfRange (name : string)
| DeadlinesDisagree
| DeadlineNotMonotonic
| DeadlineSecondsInvalid
| BothDeadlines
| InvalidClock
| ClockValueInvalid
| ChargeInvalid (label : string)
| NotAnObject
| UnsupportedFields
| FloatOverflow
| KnowledgeReadBudgetExceeded (reason : exceeded_reason).

Record KnowledgeReadBudget : Type := {
  max_rows : option Z;
  max_vectors : option Z;
  max_temporary_bytes : option Z;
  deadline_ns : option Z;
  deadline_seconds : option pyfloat;
  has_cancellation_check : bool;
  rows_used : Z;
  vectors_used : Z;
  temporary_bytes_used : Z;
  checkpoints : Z;
  relative_deadline_ns : option Z;
}.

(** What one call observes: the callback's outcome, where one is configured,
    and the value of the injected monotonic clock. *)
Inductive cancellation_outcome : Type :=
| CheckRaised
| CheckReturned (v : pyval).

Record env : Type := { cancel_outcome : cancellation_outcome; clock : pyval }.

Definition optional_counter (name : string) (v : pyval) (maximum : Z)
  : result budget_error (option Z) :=
  match v with
  | PNone => Ok None
  | PInt z =>
      raise_if (negb ((0 <=? z) && (z <=? maximum))) (CounterOutOfRange name);;
      Ok (Some z)
  | _ => Err (CounterOutOfRange name)
  end.

Definition nonneg_deadline (v : pyval) : result budget_error (option Z) :=
  match v with
  | PNone => Ok None
  | PInt z => raise_if (z <? 0) DeadlineNotMonotonic;; Ok (Some z)
  | _ => Err DeadlineNotMonotonic
  end.

(** [float(v)] of an [int] raises [OverflowError] when it does not fit. *)
Definition positive_seconds (v : pyval) : result budget_error (option pyfloat) :=
  let checked f :=
    raise_if (negb (is_finite f) || SFleb f (S754_zero false)) DeadlineSecondsInvalid;;
    Ok (Some f) in
  match v with
  | PNone => Ok None
  | PInt z => let f := float_of_int z in
              raise_if (negb (is_finite f)) FloatOverflow;; checked f
  | PFloat f => checked f
  | _ => Err DeadlineSecondsInvalid
  end.

(** Python's [==] on the two deadline spellings: numbers compare by value. *)
Definition integral (v : pyval) : option Z :=
  match v with
  | PInt z => Some z
  | PBool b => Some (if b then 1 else 0)
  | PFloat f => if bool_decide (float_floor f = float_ceil f) then float_floor f else None
  | _ => None
  end.

Definition py_eq (a b : pyval) : bool :=
  match integral a, integral b with
  | Some x, Some y => x =? y
  | None, None =>
      match a, b with
      | PFloat f, PFloat g => SFeqb f g
      | PStr s, PStr t => bool_decide (s = t)
      | PBytes s, PBytes t => forallb (λ p, Byte.eqb p.1 p.2) (zip s t) &&
                              (length s =? length t)%nat
      | _, _ => false
      end
  | _, _ => false
  end.

(** The constructor with its [__post_init__]. *)
Definition make_budget (rows vectors temporary ns monotonic_ns seconds : pyval)
    (has_check : bool) : result budget_error KnowledgeReadBudget :=
  rows' ← optional_counter "max_rows" rows MAX_COUNTER;
  vectors' ← optional_counter "max_vectors" vectors MAX_COUNTER;
  temporary' ← optional_counter "max_temporary_bytes" temporary MAX_TEMPORARY_BYTES;
  ns' ← match ns, monotonic_ns with
        | PNone, _ => Ok monotonic_ns
        | _, PNone => Ok ns
        | _, _ => raise_if (negb (py_eq ns monotonic_ns)) DeadlinesDisagree;; Ok ns
        end;
  ns'' ← nonneg_deadline ns';
  seconds' ← positive_seconds seconds;
  raise_if (bool_decide (is_Some ns'') && bool_decide (is_Some seconds')) BothDeadlines;;
  Ok {| max_rows := rows'; max_vectors := vectors'; max_temporary_bytes := temporary';
        deadline_ns := ns''; deadline_seconds := seconds';
        has_cancellation_check := has_check;
        rows_used := 0; vectors_used := 0; temporary_bytes_used := 0;
        checkpoints := 0; relative_deadline_ns := None |}.

Definition interruptible (b : KnowledgeReadBudget) : bool :=
  bool_decide (is_Some (deadline_ns b)) || bool_decide (is_Some (deadline_seconds b)) ||
  has_cancellation_check b.

Definition remaining (limit : option Z) (used : Z) : option Z :=
  (λ m, Z.max 0 (m - used)) <$> limit.

Definition rows_remaining (b : KnowledgeReadBudget) : option Z :=
  remaining (max_rows b) (rows_used b).
Definition items_remaining (b : KnowledgeReadBudget) : option Z := rows_remaining b.
Definition vectors_remaining (b : KnowledgeReadBudget) : option Z :=
  remaining (max_vectors b) (vectors_used b).
Definition temporary_bytes_remaining (b : KnowledgeReadBudget) : option Z :=
  remaining (max_temporary_bytes b) (temporary_bytes_used b).

Definition now_ns (e : env) : result budget_error Z :=
  match clock e with
  | PInt z => raise_if (z <? 0) ClockValueInvalid;; Ok z
  | _ => Err ClockValueInvalid
  end.

Definition charge_amount (label : string) (v : pyval) : result budget_error Z :=
  match v with
  | PInt z => raise_if (z <? 0) (ChargeInvalid label);; Ok z
  | _ => Err (ChargeInvalid label)
  end.

Definition count_checkpoint (b : KnowledgeReadBudget) : KnowledgeReadBudget :=
  {| max_rows := max_rows b; max_vectors := max_vectors b;
     max_temporary_bytes := max_temporary_bytes b; deadline_ns := deadline_ns b;
     deadline_seconds := deadline_seconds b;
     has_cancellation_check := has_cancellation_check b;
     rows_used := rows_used b; vectors_used := vectors_used b;
     temporary_bytes_used := temporary_bytes_used b;
     checkpoints := checkpoints b + 1; relative_deadline_ns := relative_deadline_ns b |}.

Definition set_relative_deadline (d : Z) (b : KnowledgeReadBudget) : KnowledgeReadBudget :=
  {| max_rows := max_rows b; max_vectors := max_vectors b;
     max_temporary_bytes := max_temporary_bytes b; deadline_ns := deadline_ns b;
     deadline_seconds := deadline_seconds b;
     has_cancellation_check := has_cancellation_check b;
     rows_used := rows_used b; vectors_used := vectors_used b;
     temporary_bytes_used := temporary_bytes_used b;
     checkpoints := checkpoints b; relative_deadline_ns := Some d |}.

Definition charge (rows vectors temporary : Z) (b : KnowledgeReadBudget)
  : KnowledgeReadBudget :=
  {| max_rows := max_rows b; max_vectors := max_vectors b;
     max_temporary_bytes := max_temporary_bytes b; deadline_ns := deadline_ns b;
     deadline_seconds := deadline_seconds b;
     has_cancellation_check := has_cancellation_check b;
     rows_used := rows_used b + rows; vectors_used := vectors_used b + vectors;
     temporary_bytes_used := temporary_bytes_used b + temporary;
     checkpoints := checkpoints b; relative_deadline_ns := relative_deadline_ns b |}.

Definition exceeds (limit : option Z) (total : Z) : bool :=
  match limit with Some m => m <? total | None => false end.

Definition is_cancelled (b : KnowledgeReadBudget) (e : env) : bool :=
  has_cancellation_check b &&
  match cancel_outcome e with
  | CheckRaised => true
  | CheckReturned PNone | CheckReturned (PBool false) => false
  | CheckReturned _ => true
  end.

(** The deadline a checkpoint compares with, in the clock's own domain. *)
Definition active_deadline (b : KnowledgeReadBudget) : option Z :=
  match deadline_ns b with Some d => Some d | None => relative_deadline_ns b end.

Definition one_second_ns : Z := 1000000000.

(** [round(seconds * 1_000_000_000)] *)
Definition seconds_to_ns (f : pyfloat) : result budget_error Z :=
  or_raise (float_round (fmul f (float_of_int one_second_ns))) FloatOverflow.

Definition bind_relative_deadline (now : Z) : stm KnowledgeReadBudget budget_error unit :=
  b ← get_state;
  match relative_deadline_ns b, deadline_seconds b with
  | None, Some s => ns ← lift (seconds_to_ns s); modify (set_relative_deadline (now + ns))
  | _, _ => mret tt
  end.

Definition exceeded {A} (r : exceeded_reason) : stm KnowledgeReadBudget budget_error A :=
  throw (KnowledgeReadBudgetExceeded r).

Definition exceeded_if (b : bool) (r : exceeded_reason)
  : stm KnowledgeReadBudget budget_error unit :=
  throw_if b (KnowledgeReadBudgetExceeded r).

(** [checkpoint(rows=..., vectors=..., temporary_bytes=...)] *)
Definition checkpoint (e : env) (rows vectors temporary : pyval)
  : stm KnowledgeReadBudget budget_error unit :=
  r ← lift (charge_amount "rows" rows);
  v ← lift (charge_amount "vectors" vectors);
  t ← lift (charge_amount "temporary_bytes" temporary);
  modify count_checkpoint;;
  b0 ← get_state;
  exceeded_if (is_cancelled b0 e) cancelled;;
  now ← lift (now_ns e);
  bind_relative_deadline now;;
  b ← get_state;
  exceeded_if (match active_deadline b with Some d => d <? now | None => false end)
    deadline_exceeded;;
  exceeded_if (exceeds (max_rows b) (rows_used b + r)) rows_exhausted;;
  exceeded_if (exceeds (max_vectors b) (vectors_used b + v)) vectors_exhausted;;
  exceeded_if (exceeds (max_temporary_bytes b) (temporary_bytes_used b + t))
    temporary_bytes_exhausted;;
  modify (charge r v t).

(** [remaining_seconds]: a checkpoint, then the clock read again. *)
Definition remaining_seconds (e e' : env)
  : stm KnowledgeReadBudget budget_error (option pyfloat) :=
  checkpoint e (PInt 0) (PInt 0) (PInt 0);;
  b ← get_state;
  match active_deadline b with
  | None => mret None
  | Some d =>
      now ← lift (now_ns e');
      let left := int_truediv (d - now) one_second_ns in
      if SFleb left (S754_zero false) then exceeded deadline_exceeded
      else mret (Some left)
  end.

Definition from_time_budget (rows vectors temporary seconds now : pyval) (has_check : bool)
  : result budget_error KnowledgeReadBudget :=
  s ← positive_seconds seconds;
  match s with
  | None => make_budget rows vectors temporary PNone PNone PNone has_check
  | Some f =>
      n ← match now with
          | PInt z => raise_if (z <? 0) InvalidClock;; Ok z
          | _ => Err InvalidClock
          end;
      ns ← seconds_to_ns f;
      make_budget rows vectors temporary (PInt (n + ns)) PNone PNone has_check
  end.

Definition allowed_fields : gset pystr := list_to_set
  [py "max_rows"; py "rows"; py "max_vectors"; py "vectors"; py "max_temporary_bytes";
   py "temporary_bytes"; py "deadline_ns"; py "deadline_monotonic_ns";
   py "deadline_seconds"; py "time_budget_seconds"].

Fixpoint first_of (m : gmap pystr pyval) (names : list pystr) : pyval :=
  match names with
  | [] => PNone
  | n :: names' => match m !! n with Some v => v | None => first_of m names' end
  end.

Definition from_mapping (value : option (gmap pystr pyval)) (now : pyval) (has_check : bool)
  : result budget_error KnowledgeReadBudget :=
  match value with
  | None => make_budget PNone PNone PNone PNone PNone PNone has_check
  | Some m =>
      raise_if (negb (bool_decide (dom m ∖ allowed_fields = ∅))) UnsupportedFields;;
      let rows := first_of m [py "max_rows"; py "rows"] in
      let vectors := first_of m [py "max_vectors"; py "vectors"] in
      let temporary := first_of m [py "max_temporary_bytes"; py "temporary_bytes"] in
      match first_of m [py "deadline_seconds"; py "time_budget_seconds"] with
      | PNone => make_budget rows vectors temporary
                   (first_of m [py "deadline_ns"; py "deadline_monotonic_ns"]) PNone PNone
                   has_check
      | seconds => from_time_budget rows vectors temporary seconds now has_check
      end
  end.

(** ** Accounting *)

Definition within (limit : option Z) (used : Z) : Prop :=
  0 <= used ∧ match limit with Some m => used <= m | None => True end.

Record within_limits (b : KnowledgeReadBudget) : Prop := {
  rows_within : within (max_rows b) (rows_used b);
  vectors_within : within (max_vectors b) (vectors_used b);
  temporary_within : within (max_temporary_bytes b) (temporary_bytes_used b);
}.

Definition same_limits (b b' : KnowledgeReadBudget) : Prop :=
  max_rows b' = max_rows b ∧ max_vectors b' = max_vectors b ∧
  max_temporary_bytes b' = max_temporary_bytes b ∧ deadline_ns b' = deadline_ns b ∧
  deadline_seconds b' = deadline_seconds b ∧
  has_cancellation_check b' = has_cancellation_check b.

Definition same_usage (b b' : KnowledgeReadBudget) : Prop :=
  rows_used b' = rows_used b ∧ vectors_used b' = vectors_used b ∧
  temporary_bytes_used b' = temporary_bytes_used b.

Lemma charge_amount_ok label v z : charge_amount label v = Ok z → v = PInt z ∧ 0 <= z.
Proof. destruct v; cbn; try done. intros H. inv_ok. bool_prop. by split. Qed.

Lemma bind_relative_deadline_usage now b b' r :
  bind_relative_deadline now b = (b', r) → same_limits b b' ∧ same_usage b b' ∧
  checkpoints b' = checkpoints b.
Proof.
  unfold bind_relative_deadline, same_limits, same_usage.
  unfold mbind, stm_bind, get_state, lift, modify, mret, stm_ret.
  intros H. repeat (case_match; simplify_eq/=; try done).
Qed.

(** One checkpoint either charges exactly its arguments, within every limit,
    or charges nothing. *)
Lemma checkpoint_cases e rows vectors temporary b b' res :
  checkpoint e rows vectors temporary b = (b', res) →
  same_limits b b' ∧
  match res with
  | Ok _ => ∃ r v t, rows = PInt r ∧ vectors = PInt v ∧ temporary = PInt t ∧
      0 <= r ∧ 0 <= v ∧ 0 <= t ∧
      rows_used b' = rows_used b + r ∧ vectors_used b' = vectors_used b + v ∧
      temporary_bytes_used b' = temporary_bytes_used b + t ∧
      exceeds (max_rows b) (rows_used b + r) = false ∧
      exceeds (max_vectors b) (vectors_used b + v) = false ∧
      exceeds (max_temporary_bytes b) (temporary_bytes_used b + t) = false ∧
      checkpoints b' = checkpoints b + 1
  | Err _ => same_usage b b'
  end.
Proof.
  unfold checkpoint. unfold mbind, stm_bind, lift, get_state, modify, exceeded_if, throw_if.
  intros H.
  destruct (charge_amount "rows" rows) as [r|] eqn:Hr; [|by simplify_eq].
  destruct (charge_amount "vectors" vectors) as [v|] eqn:Hv; [|by simplify_eq].
  destruct (charge_amount "temporary_bytes" temporary) as [t|] eqn:Ht; [|by simplify_eq].
  apply charge_amount_ok in Hr as [-> Hr], Hv as [-> Hv], Ht as [-> Ht].
  destruct (is_cancelled _ _); cbn [raise_if] in H; [by simplify_eq|].
  destruct (now_ns e) as [now|]; [|by simplify_eq].
  destruct (bind_relative_deadline now (count_checkpoint b)) as [b1 r1] eqn:Hb1.
  apply bind_relative_deadline_usage in Hb1 as ((?&?&?&?&?&?)&(?&?&?)&?).
  cbn [count_checkpoint max_rows max_vectors max_temporary_bytes deadline_ns
       deadline_seconds has_cancellation_check rows_used vectors_used
       temporary_bytes_used checkpoints] in *.
  destruct r1; [|simplify_eq; unfold same_limits, same_usage; naive_solver].
  do 4 (match type of H with
        | context [raise_if ?c ?x] =>
            destruct (raise_if c x) as [[]|] eqn:?;
            [|simplify_eq; unfold same_limits, same_usage; naive_solver]
        end).
  simplify_eq. repeat match goal with Hq : raise_if _ _ = Ok _ |- _ => apply raise_if_ok in Hq end.
  split; [unfold same_limits; naive_solver|].
  exists r, v, t. cbn. by repeat split; congruence || done.
Qed.

(** A sequence of checkpoints by one caller; a failed one does not end it. *)
Definition call : Type := env * (pyval * pyval * pyval).

Fixpoint run (calls : list call) (b : KnowledgeReadBudget)
  : KnowledgeReadBudget * list (result budget_error unit) :=
  match calls with
  | [] => (b, [])
  | (e, (r, v, t)) :: calls' =>
      let '(b1, res) := checkpoint e r v t b in
      let '(b2, rs) := run calls' b1 in (b2, res :: rs)
  end.

(** The amounts of the calls that returned, by a projection of their arguments. *)
Definition accepted (amount : pyval * pyval * pyval → pyval) (calls : list call)
    (rs : list (result budget_error unit)) : Z :=
  foldr Z.add 0
    (zip_with (λ c res, match res, amount c.2 with Ok _, PInt z => z | _, _ => 0 end) calls rs).

Lemma within_charge limit used z :
  within limit used → 0 <= z → exceeds limit (used + z) = false → within limit (used + z).
Proof.
  unfold within, exceeds. intros [Hu Hl] Hz He. destruct limit; bool_prop; split; lia || done.
Qed.

(** C28: over any sequence of checkpoints, failed ones included, the counters
    equal what the successful calls charged and never pass a limit. *)
Theorem read_budget_never_overspent (calls : list call) (b b' : KnowledgeReadBudget) rs :
  within_limits b → run calls b = (b', rs) →
  within_limits b' ∧ same_limits b b' ∧
  rows_used b' = rows_used b + accepted (λ a, a.1.1) calls rs ∧
  vectors_used b' = vectors_used b + accepted (λ a, a.1.2) calls rs ∧
  temporary_bytes_used b' = temporary_bytes_used b + accepted (λ a, a.2) calls rs.
Proof.
  revert b b' rs. induction calls as [|[e [[r v] t]] calls IH]; intros b b' rs Hw Hrun.
  { simplify_eq/=. unfold accepted, same_limits. simpl. repeat split; try lia; apply Hw. }
  cbn [run] in Hrun. destruct (checkpoint e r v t b) as [b1 res] eqn:Hc.
  destruct (run calls b1) as [b2 rs'] eqn:Hr. simplify_eq.
  apply checkpoint_cases in Hc as [Hs Hres]. destruct Hw as [Hwr Hwv Hwt].
  destruct Hs as (Hm1&Hm2&Hm3&Hm4&Hm5&Hm6).
  assert (within_limits b1 ∧
    rows_used b1 = rows_used b + match res, r with Ok _, PInt z => z | _, _ => 0 end ∧
    vectors_used b1 = vectors_used b + match res, v with Ok _, PInt z => z | _, _ => 0 end ∧
    temporary_bytes_used b1 = temporary_bytes_used b +
      match res, t with Ok _, PInt z => z | _, _ => 0 end) as (Hw1&E1&E2&E3).
  { destruct res as [u|er].
    - destruct Hres as (r'&v'&t'&->&->&->&?&?&?&Hru&Hvu&Htu&?&?&?&_).
      split; [|done]. constructor; rewrite ?Hm1, ?Hm2, ?Hm3, ?Hru, ?Hvu, ?Htu;
        by apply within_charge.
    - destruct Hres as (Hru&Hvu&Htu).
      split; [constructor; rewrite ?Hm1, ?Hm2, ?Hm3, ?Hru, ?Hvu, ?Htu; done|].
      rewrite Hru, Hvu, Htu. lia. }
  specialize (IH _ _ _ Hw1 Hr) as (Hw2&Hs2&F1&F2&F3). split; [done|].
  split; [unfold same_limits in *; naive_solver congruence|].
  unfold accepted in *. cbn. rewrite F1, F2, F3, E1, E2, E3. lia.
Qed.

Definition demo_env (now : Z) : env :=
  {| cancel_outcome := CheckReturned PNone; clock := PInt now |}.
Definition demo_budget : KnowledgeReadBudget :=
  {| max_rows := Some 10; max_vectors := None; max_temporary_bytes := Some 100;
     deadline_ns := Some 50; deadline_seconds := None; has_cancellation_check := true;
     rows_used := 0; vectors_used := 0; temporary_bytes_used := 0; checkpoints := 0;
     relative_deadline_ns := None |}.
Definition demo_calls : list call :=
  [(demo_env 1, (PInt 6, PInt 3, PInt 40)); (demo_env 2, (PInt 6, PInt 0, PInt 0));
   (demo_env 3, (PInt 4, PInt 2, PInt 60)); (demo_env 51, (PInt 0, PInt 0, PInt 0))].

Lemma read_budget_never_overspent_witness :
  rows_used (run demo_calls demo_budget).1 = 10 ∧
  within_limits (run demo_calls demo_budget).1.
Proof.
  destruct (read_budget_never_overspent demo_calls demo_budget
              (run demo_calls demo_budget).1 (run demo_calls demo_budget).2)
    as (Hw&_&Hr&_).
  - constructor; vm_compute; split; discriminate || exact I.
  - apply surjective_pairing.
  - split; [|exact Hw]. rewrite Hr. vm_compute. reflexivity.
Defined.

(** Without a pending relative deadline a checkpoint returns exactly when
    nothing objects. *)
Definition on_time (b : KnowledgeReadBudget) (now : Z) : Prop :=
  match active_deadline b with Some d => now <= d | None => True end.

(** With integer charges, a valid clock and no unresolved relative deadline,
    a checkpoint is admitted exactly when the caller has not cancelled, the
    deadline has not passed and every counter stays within its limit; the
    refusals are tried in that order. *)
Theorem checkpoint_admits_iff e b r v t now :
  0 <= r → 0 <= v → 0 <= t → clock e = PInt now → 0 <= now → deadline_seconds b = None →
  is_ok (checkpoint e (PInt r) (PInt v) (PInt t) b).2 = true ↔
  is_cancelled b e = false ∧ on_time b now ∧
  exceeds (max_rows b) (rows_used b + r) = false ∧
  exceeds (max_vectors b) (vectors_used b + v) = false ∧
  exceeds (max_temporary_bytes b) (temporary_bytes_used b + t) = false.
Proof.
  intros Hr Hv Ht Hclk Hnow Hsec. unfold checkpoint.
  unfold mbind, stm_bind, lift, get_state, modify, exceeded_if, throw_if.
  unfold charge_amount. rewrite !(proj2 (Z.ltb_ge _ _)) by done. cbn [raise_if].
  unfold mbind, result_bind. unfold now_ns. rewrite Hclk.
  rewrite (proj2 (Z.ltb_ge _ _)) by done. cbn [raise_if].
  change (is_cancelled (count_checkpoint b) e) with (is_cancelled b e).
  destruct (is_cancelled b e); cbn [raise_if mbind result_bind]; [by split; [|intros [? _]]|].
  assert (bind_relative_deadline now (count_checkpoint b) = (count_checkpoint b, Ok tt)) as ->.
  { unfold bind_relative_deadline, mbind, stm_bind, get_state. cbn.
    rewrite Hsec. by destruct (relative_deadline_ns b). }
  unfold on_time. change (active_deadline (count_checkpoint b)) with (active_deadline b).
  cbn [count_checkpoint max_rows max_vectors max_temporary_bytes rows_used vectors_used
       temporary_bytes_used].
  destruct (active_deadline b) as [d|]; [destruct (d <? now) eqn:Hd|]; bool_prop;
    cbn [raise_if]; try (split; [done|intros (_&?&_); lia]);
    destruct (exceeds (max_rows b) _), (exceeds (max_vectors b) _),
      (exceeds (max_temporary_bytes b) _); cbn; naive_solver.
Qed.

Lemma checkpoint_admits_iff_witness :
  is_ok (checkpoint (demo_env 50) (PInt 10) (PInt 0) (PInt 100) demo_budget).2 = true.
Proof.
  apply (checkpoint_admits_iff (demo_env 50) demo_budget 10 0 100 50);
    first [reflexivity | lia | idtac].
  vm_compute. repeat split; discriminate.
Defined.
