(* ===== verification/WorkBudget.v ===== *)
(** * Semantic work budgets (neocortex/semantic/semantic_work_budget.py)

    The admission and deadline budget one Semantic index invocation shares
    between its producers: item and job allowances, the sticky truncation
    reason, cooperative cancellation and the registered resource closers. *)

From S2P Require Import Prelude.

Inductive work_error : Type :=
| NotPositiveInteger (name : string)
| DeadlineNotFinite
| FloatOverflow
| NotBoolean (name : string)
| TimeBudgetInvalid
| BlankReason
| KeyboardInterrupt
| CallbackRaised
| SemanticIndexDeadlineExceeded
| RequestedNotPositive
| NegativeJobCount
| JobsExceedMaximum
| NegativeReboundCount
| RefundWithoutAdmission
| CloserRaised (closer : nat).

(** An absolute deadline as it was given, [int] or [float]. *)
Inductive deadline_value : Type := DInt (z : Z) | DFloat (f : pyfloat).

(** [clock >= deadline] (exact against an [int]) and [deadline - clock]. *)
Definition reached (now : pyfloat) (d : deadline_value) : bool :=
  match d with DInt z => float_ge_int now z | DFloat f => SFleb f now end.
Definition time_left (d : deadline_value) (now : pyfloat) : pyfloat :=
  match d with DInt z => fsub (float_of_int z) now | DFloat f => fsub f now end.

Record SemanticWorkBudget : Type := {
  max_items : option Z;
  max_new_jobs : option Z;
  deadline : option deadline_value;
  has_cancellation_check : bool;
  preserve_existing_generations : bool;
  retry_recoverable_errors : bool;
  items_admitted : Z;
  new_jobs_admitted : Z;
  rebound_members : Z;
  truncation_reason : option pystr;
  resource_closers : list nat;
}.

(** One observation of the injected clock and of the cancellation callback. *)
Inductive cancellation_outcome : Type := CheckRaised | CheckReturned (v : pyval).
Record env : Type := { cancel_outcome : cancellation_outcome; clock : pyfloat }.

Abbreviation M A := (stm SemanticWorkBudget work_error A).

Definition positive_or_none (name : string) (v : pyval) : result work_error (option Z) :=
  match v with
  | PNone => Ok None
  | PInt z => raise_if (z <? 1) (NotPositiveInteger name);; Ok (Some z)
  | _ => Err (NotPositiveInteger name)
  end.

(** [float(z)] raises [OverflowError] beyond the double range. *)
Definition float_of_pyint (z : Z) : result work_error pyfloat :=
  raise_if (negb (is_finite (float_of_int z))) FloatOverflow;; Ok (float_of_int z).

Definition finite_deadline (v : pyval) : result work_error (option deadline_value) :=
  match v with
  | PNone => Ok None
  | PInt z => float_of_pyint z;; Ok (Some (DInt z))
  | PFloat f => raise_if (negb (is_finite f)) DeadlineNotFinite;; Ok (Some (DFloat f))
  | _ => Err DeadlineNotFinite
  end.

Definition boolean (name : string) (v : pyval) : result work_error bool :=
  match v with PBool b => Ok b | _ => Err (NotBoolean name) end.

Definition make_work_budget (items jobs dl preserve retry : pyval) (has_check : bool)
  : result work_error SemanticWorkBudget :=
  items' ← positive_or_none "max_items" items;
  jobs' ← positive_or_none "max_new_jobs" jobs;
  dl' ← finite_deadline dl;
  preserve' ← boolean "preserve_existing_generations" preserve;
  retry' ← boolean "retry_recoverable_errors" retry;
  Ok {| max_items := items'; max_new_jobs := jobs'; deadline := dl';
        has_cancellation_check := has_check;
        preserve_existing_generations := preserve'; retry_recoverable_errors := retry';
        items_admitted := 0; new_jobs_admitted := 0; rebound_members := 0;
        truncation_reason := None; resource_closers := [] |}.

Definition from_time_budget (items jobs seconds preserve retry : pyval) (now : pyfloat)
    (has_check : bool) : result work_error SemanticWorkBudget :=
  let absolute f :=
    raise_if (negb (is_finite f) || SFleb f (S754_zero false)) TimeBudgetInvalid;;
    Ok (PFloat (fadd now f)) in
  dl ← match seconds with
       | PNone => Ok PNone
       | PInt z => f ← float_of_pyint z; absolute f
       | PFloat f => absolute f
       | _ => Err TimeBudgetInvalid
       end;
  make_work_budget items jobs dl preserve retry has_check.

Definition unlimited_semantic_work_budget : result work_error SemanticWorkBudget :=
  make_work_budget PNone PNone PNone (PBool false) (PBool false) false.

Definition truncated (b : SemanticWorkBudget) : bool :=
  bool_decide (is_Some (truncation_reason b)).

Definition with_counters (items jobs rebound : Z) (reason : option pystr)
    (closers : list nat) (b : SemanticWorkBudget) : SemanticWorkBudget :=
  {| max_items := max_items b; max_new_jobs := max_new_jobs b; deadline := deadline b;
     has_cancellation_check := has_cancellation_check b;
     preserve_existing_generations := preserve_existing_generations b;
     retry_recoverable_errors := retry_recoverable_errors b;
     items_admitted := items; new_jobs_admitted := jobs; rebound_members := rebound;
     truncation_reason := reason; resource_closers := closers |}.

Definition set_items (z : Z) (b : SemanticWorkBudget) : SemanticWorkBudget :=
  with_counters z (new_jobs_admitted b) (rebound_members b) (truncation_reason b)
    (resource_closers b) b.
Definition set_jobs (z : Z) (b : SemanticWorkBudget) : SemanticWorkBudget :=
  with_counters (items_admitted b) z (rebound_members b) (truncation_reason b)
    (resource_closers b) b.
Definition set_rebound (z : Z) (b : SemanticWorkBudget) : SemanticWorkBudget :=
  with_counters (items_admitted b) (new_jobs_admitted b) z (truncation_reason b)
    (resource_closers b) b.
Definition set_reason (r : option pystr) (b : SemanticWorkBudget) : SemanticWorkBudget :=
  with_counters (items_admitted b) (new_jobs_admitted b) (rebound_members b) r
    (resource_closers b) b.
Definition set_closers (cs : list nat) (b : SemanticWorkBudget) : SemanticWorkBudget :=
  with_counters (items_admitted b) (new_jobs_admitted b) (rebound_members b)
    (truncation_reason b) cs b.

Definition mark_truncated (reason : pystr) : M unit :=
  throw_if (bool_decide (strip reason = [])) BlankReason;;
  b ← get_state;
  match truncation_reason b with
  | None => put_state (set_reason (Some reason) b)
  | Some _ => mret tt
  end.

Definition check_cancellation (e : env) : M unit :=
  b ← get_state;
  if has_cancellation_check b then
    match cancel_outcome e with
    | CheckRaised => throw CallbackRaised
    | CheckReturned (PBool true) =>
        mark_truncated (py "cancelled");; throw KeyboardInterrupt
    | CheckReturned _ => mret tt
    end
  else mret tt.

(** [self._clock() >= self.deadline] *)
Definition deadline_expired (e : env) : M bool :=
  check_cancellation e;;
  b ← get_state;
  match deadline b with
  | None => mret false
  | Some d =>
      if reached (clock e) d then mark_truncated (py "time_budget");; mret true
      else mret false
  end.

Definition remaining_seconds (e : env) : M (option pyfloat) :=
  check_cancellation e;;
  b ← get_state;
  match deadline b with
  | None => mret None
  | Some d =>
      let left := time_left d (clock e) in
      if SFleb left (S754_zero false) then
        mark_truncated (py "time_budget");; throw SemanticIndexDeadlineExceeded
      else mret (Some left)
  end.

(** [checkpoint]: the cancellation callback is asked again inside
    [remaining_seconds]. *)
Definition checkpoint (e e' : env) : M unit :=
  check_cancellation e;;
  b ← get_state;
  match deadline b with
  | None => mret tt
  | Some _ => remaining_seconds e';; mret tt
  end.

Definition try_admit_item (e : env) : M bool :=
  b ← get_state;
  if truncated b then mret false else
  expired ← deadline_expired e;
  if (expired : bool) then mret false else
  b ← get_state;
  match max_items b with
  | Some m =>
      if m <=? items_admitted b then mark_truncated (py "max_items");; mret false
      else put_state (set_items (items_admitted b + 1) b);; mret true
  | None => put_state (set_items (items_admitted b + 1) b);; mret true
  end.

Definition new_job_allowance (e : env) (requested : Z) : M Z :=
  throw_if (requested <? 1) RequestedNotPositive;;
  expired ← deadline_expired e;
  if (expired : bool) then mret 0 else
  b ← get_state;
  match max_new_jobs b with
  | None => mret requested
  | Some m => mret (Z.min requested (Z.max 0 (m - new_jobs_admitted b)))
  end.

Definition record_new_jobs (count : Z) : M unit :=
  throw_if (count <? 0) NegativeJobCount;;
  b ← get_state;
  throw_if (match max_new_jobs b with
            | Some m => m <? new_jobs_admitted b + count
            | None => false
            end) JobsExceedMaximum;;
  put_state (set_jobs (new_jobs_admitted b + count) b).

Definition record_rebound_members (count : Z) : M unit :=
  throw_if (count <? 0) NegativeReboundCount;;
  modify (λ b, set_rebound (rebound_members b + count) b).

Definition mark_job_limit : M unit := mark_truncated (py "max_new_jobs").

Definition refund_replayed_item : M unit :=
  b ← get_state;
  throw_if (items_admitted b <? 1) RefundWithoutAdmission;;
  put_state (set_items (items_admitted b - 1) b).

Definition register_resource_closer (closer : nat) : M unit :=
  modify (λ b, set_closers (resource_closers b ++ [closer]) b).

(** Calls every closer once, last registered first; the first exception in that
    order is raised after all have run. [fails] says which closers raise; the
    list is the trace of the calls. *)
Fixpoint run_closers (fails : nat → bool) (cs : list nat) (first : option nat)
  : list nat * option nat :=
  match cs with
  | [] => ([], first)
  | c :: cs' =>
      let first' := match first with
                    | None => if fails c then Some c else None
                    | Some _ => first
                    end in
      let '(trace, res) := run_closers fails cs' first' in (c :: trace, res)
  end.

Definition close_registered_resources (fails : nat → bool) (b : SemanticWorkBudget)
  : SemanticWorkBudget * list nat * result work_error unit :=
  let '(trace, first) := run_closers fails (reverse (resource_closers b)) None in
  (set_closers [] b, trace,
   match first with Some c => Err (CloserRaised c) | None => Ok tt end).

(** ** The operations as one step *)

Inductive op : Type :=
| TryAdmit (e : env)
| JobAllowance (e : env) (requested : Z)
| RecordJobs (count : Z)
| RecordRebound (count : Z)
| MarkJobLimit
| MarkTruncated (reason : pystr)
| Refund
| DeadlineExpired (e : env)
| Checkpoint (e e' : env)
| RegisterCloser (closer : nat).

Definition exec (o : op) (b : SemanticWorkBudget) : SemanticWorkBudget :=
  match o with
  | TryAdmit e => (try_admit_item e b).1
  | JobAllowance e n => (new_job_allowance e n b).1
  | RecordJobs n => (record_new_jobs n b).1
  | RecordRebound n => (record_rebound_members n b).1
  | MarkJobLimit => (mark_job_limit b).1
  | MarkTruncated r => (mark_truncated r b).1
  | Refund => (refund_replayed_item b).1
  | DeadlineExpired e => (deadline_expired e b).1
  | Checkpoint e e' => (checkpoint e e' b).1
  | RegisterCloser c => (register_resource_closer c b).1
  end.

Definition at_most (limit : option Z) (z : Z) : Prop :=
  0 <= z ∧ match limit with Some m => z <= m | None => True end.

Record budget_inv (b : SemanticWorkBudget) : Prop := {
  items_inv : at_most (max_items b) (items_admitted b);
  jobs_inv : at_most (max_new_jobs b) (new_jobs_admitted b);
  rebound_inv : 0 <= rebound_members b;
}.

(** ** Every operation respects the budget *)

(** What no operation undoes: the configured limits, a recorded truncation
    reason, and the counters' bounds. *)
Record grows (b b' : SemanticWorkBudget) : Prop := {
  grows_limits : max_items b' = max_items b ∧ max_new_jobs b' = max_new_jobs b ∧
    deadline b' = deadline b ∧ has_cancellation_check b' = has_cancellation_check b;
  grows_reason : is_Some (truncation_reason b) → truncation_reason b' = truncation_reason b;
  grows_inv : budget_inv b → budget_inv b';
}.

#[export] Instance grows_preorder : PreOrder grows.
Proof.
  split.
  - intros b. by split.
  - intros b1 b2 b3 [(?&?&?&?) Hr1 Hi1] [(?&?&?&?) Hr2 Hi2]. split.
    + repeat split; congruence.
    + intros Hs. rewrite <- (Hr1 Hs). apply Hr2. by rewrite Hr1.
    + auto.
Qed.

Lemma grows_set_reason r b : truncation_reason b = None → grows b (set_reason r b).
Proof.
  intros Hn. split; [done|rewrite Hn; by intros [? ?]|].
  intros [? ? ?]. by split.
Qed.

Lemma grows_set_items z b :
  at_most (max_items b) z → grows b (set_items z b).
Proof. intros Hz. split; [done|done|]. intros [? ? ?]. by split. Qed.

Lemma grows_set_items_inv z b :
  (budget_inv b → at_most (max_items b) z) → grows b (set_items z b).
Proof. intros Hz. split; [done|done|]. intros Hi. destruct (Hi) as [? ? ?]. split; simpl; auto. Qed.

Lemma grows_set_jobs_inv z b :
  (budget_inv b → at_most (max_new_jobs b) z) → grows b (set_jobs z b).
Proof. intros Hz. split; [done|done|]. intros Hi. destruct (Hi) as [? ? ?]. split; simpl; auto. Qed.

Lemma grows_set_rebound z b :
  (budget_inv b → 0 <= z) → grows b (set_rebound z b).
Proof. intros Hz. split; [done|done|]. intros Hi. destruct (Hi) as [? ? ?]. split; simpl; auto. Qed.

Lemma grows_set_closers cs b : grows b (set_closers cs b).
Proof. split; [done|done|]. intros [? ? ?]. by split. Qed.

#[export] Hint Resolve grows_set_reason grows_set_closers : stm.

Lemma mark_truncated_grows r b : yields grows (mark_truncated r) b.
Proof. unfold mark_truncated. repeat stm_step. Qed.
#[export] Hint Resolve mark_truncated_grows : stm.

Lemma check_cancellation_grows e b : yields grows (check_cancellation e) b.
Proof. unfold check_cancellation. repeat stm_step. Qed.
#[export] Hint Resolve check_cancellation_grows : stm.

Lemma deadline_expired_grows e b : yields grows (deadline_expired e) b.
Proof. unfold deadline_expired. repeat stm_step. Qed.
#[export] Hint Resolve deadline_expired_grows : stm.

Lemma remaining_seconds_grows e b : yields grows (remaining_seconds e) b.
Proof. unfold remaining_seconds. repeat stm_step. Qed.
#[export] Hint Resolve remaining_seconds_grows : stm.

Lemma try_admit_item_grows e b : yields grows (try_admit_item e) b.
Proof.
  unfold try_admit_item. repeat stm_step.
  - apply grows_set_items_inv. intros [[? _] _ _]. bool_prop.
    match goal with H : max_items _ = _ |- _ => rewrite H end. split; lia.
  - apply grows_set_items_inv. intros [[? _] _ _].
    match goal with H : max_items _ = _ |- _ => rewrite H end. split; [lia|done].
Qed.

Lemma new_job_allowance_grows e n b : yields grows (new_job_allowance e n) b.
Proof. unfold new_job_allowance. repeat stm_step. Qed.

Lemma record_new_jobs_grows n b : yields grows (record_new_jobs n) b.
Proof.
  unfold record_new_jobs. repeat stm_step. apply yields_put, grows_set_jobs_inv.
  intros [_ [? Hj] _]. bool_prop.
  destruct (max_new_jobs b); bool_prop; split; try done; lia.
Qed.

Lemma record_rebound_grows n b : yields grows (record_rebound_members n) b.
Proof.
  unfold record_rebound_members. repeat stm_step. apply yields_modify, grows_set_rebound.
  intros [_ _ ?]. bool_prop. lia.
Qed.

Lemma refund_grows b : yields grows refund_replayed_item b.
Proof.
  unfold refund_replayed_item. repeat stm_step. apply yields_put, grows_set_items_inv.
  intros [[? Hi] _ _]. bool_prop. destruct (max_items b); split; try done; lia.
Qed.
#[export] Hint Resolve try_admit_item_grows new_job_allowance_grows record_new_jobs_grows
  record_rebound_grows refund_grows : stm.

Lemma exec_grows o b : grows b (exec o b).
Proof.
  destruct o; simpl;
    first [ eapply (mark_truncated_grows (py "max_new_jobs"))
          | eapply mark_truncated_grows | eapply try_admit_item_grows
          | eapply new_job_allowance_grows | eapply record_new_jobs_grows
          | eapply record_rebound_grows | eapply refund_grows
          | eapply deadline_expired_grows | idtac ].
  - unfold checkpoint. change (yields grows (checkpoint e e') b). unfold checkpoint.
    repeat stm_step.
  - apply (grows_set_closers _ b).
Qed.

Lemma run_grows ops b : grows b (foldl (λ b o, exec o b) b ops).
Proof.
  induction ops as [|o ops IH] using rev_ind; [done|].
  rewrite foldl_app. etrans; [exact IH|]. apply exec_grows.
Qed.

Lemma fresh_budget items jobs dl preserve retry hc b :
  make_work_budget items jobs dl preserve retry hc = Ok b →
  budget_inv b ∧ truncation_reason b = None ∧ resource_closers b = [].
Proof.
  unfold make_work_budget. intros H. inv_ok.
  assert (∀ n v o, positive_or_none n v = Ok o → at_most o 0) as Hp.
  { unfold positive_or_none. intros n [] o Ho; inv_ok; bool_prop; split; try done; lia. }
  split; [split; simpl; eauto; lia|done].
Qed.

(** A constructed Semantic work budget keeps its counters within the
    configured allowances through every sequence of operations, failing ones
    included, and no operation changes a limit or replaces a recorded
    truncation reason. *)
Theorem work_budget_bounded items jobs dl preserve retry hc b before after :
  make_work_budget items jobs dl preserve retry hc = Ok b →
  let b1 := foldl (λ b o, exec o b) b before in
  let b2 := foldl (λ b o, exec o b) b1 after in
  at_most (max_items b) (items_admitted b2) ∧
  at_most (max_new_jobs b) (new_jobs_admitted b2) ∧
  (truncated b1 = true →
     truncation_reason b2 = truncation_reason b1 ∧
     ∀ e, try_admit_item e b2 = (b2, Ok false)).
Proof.
  intros Hm b1 b2. destruct (fresh_budget _ _ _ _ _ _ _ Hm) as (Hi&_&_).
  pose proof (run_grows before b) as [(Hl1&Hl2&_) _ Hinv1].
  pose proof (run_grows after b1) as [(Hl3&Hl4&_) Hr2 Hinv2].
  destruct (Hinv2 (Hinv1 Hi)) as [Hit Hjo _].
  fold b1 in Hl1, Hl2, Hl3, Hl4. fold b2 in Hl3, Hl4, Hit, Hjo.
  rewrite Hl3, Hl1 in Hit. rewrite Hl4, Hl2 in Hjo. split; [done|]. split; [done|].
  unfold truncated. intros Ht%bool_decide_eq_true. specialize (Hr2 Ht). fold b2 in Hr2.
  split; [done|]. intros e. unfold try_admit_item. rewrite stm_bind_eq. simpl.
  unfold truncated. rewrite bool_decide_eq_true_2; [done|]. by rewrite Hr2.
Qed.

Lemma work_budget_bounded_witness :
  ∃ b, make_work_budget (PInt 1) (PInt 2) PNone (PBool false) (PBool false) false = Ok b ∧
    let e := {| cancel_outcome := CheckReturned PNone; clock := S754_zero false |} in
    let b1 := foldl (λ b o, exec o b) b [TryAdmit e; TryAdmit e] in
    truncation_reason b1 = Some (py "max_items") ∧
    try_admit_item e (foldl (λ b o, exec o b) b1 [Refund]) =
      (foldl (λ b o, exec o b) b1 [Refund], Ok false).
Proof.
  eexists. split; [reflexivity|]. split; [reflexivity|].
  apply (work_budget_bounded (PInt 1) (PInt 2) PNone (PBool false) (PBool false) false _
    [TryAdmit _; TryAdmit _] [Refund] eq_refl). reflexivity.
Defined.

(** How one observation of the callback and of the clock decides a call that
    polls the deadline; [None] lets it go on. *)
Definition stop_outcome (e : env) (b : SemanticWorkBudget)
  : option (option pystr * option work_error) :=
  match has_cancellation_check b, cancel_outcome e with
  | true, CheckRaised => Some (None, Some CallbackRaised)
  | true, CheckReturned (PBool true) => Some (Some (py "cancelled"), Some KeyboardInterrupt)
  | _, _ => match deadline b with
            | Some d => if reached (clock e) d then Some (Some (py "time_budget"), None)
                        else None
            | None => None
            end
  end.

Definition first_reason (r : option pystr) (b : SemanticWorkBudget) : SemanticWorkBudget :=
  match truncation_reason b with Some _ => b | None => set_reason r b end.

Lemma mark_truncated_eq r b :
  strip r ≠ [] → mark_truncated r b = (first_reason (Some r) b, Ok tt).
Proof.
  intros Hr. unfold mark_truncated, first_reason, throw_if. rewrite stm_bind_eq.
  rewrite bool_decide_eq_false_2 by done. simpl. rewrite stm_bind_eq. simpl.
  by destruct (truncation_reason b).
Qed.

Lemma set_reason_id b : set_reason (truncation_reason b) b = b.
Proof. by destruct b. Qed.

Lemma deadline_expired_eq e b :
  deadline_expired e b =
    match stop_outcome e b with
    | None => (b, Ok false)
    | Some (None, err) => (b, match err with Some x => Err x | None => Ok true end)
    | Some (Some r, err) =>
        (first_reason (Some r) b, match err with Some x => Err x | None => Ok true end)
    end.
Proof.
  assert (strip (py "cancelled") ≠ [] ∧ strip (py "time_budget") ≠ []) as [Hc Ht]
    by by vm_compute.
  unfold deadline_expired, check_cancellation, stop_outcome.
  repeat rewrite stm_bind_eq. unfold get_state. simpl.
  destruct (has_cancellation_check b); [destruct (cancel_outcome e) as [|[| [] | | | | | ]]|];
    simpl; repeat rewrite stm_bind_eq; simpl; try done;
    rewrite ?(mark_truncated_eq _ _ Hc); simpl; try done;
    destruct (deadline b); try done; destruct (reached (clock e) _); try done;
    rewrite stm_bind_eq, (mark_truncated_eq _ _ Ht); done.
Qed.

(** An item is admitted exactly when the invocation is not truncated, is
    neither cancelled nor past its deadline and has item allowance left; the
    admission then changes nothing but the item counter. *)
Theorem admission_decision e b b' :
  try_admit_item e b = (b', Ok true) ↔
  truncation_reason b = None ∧ stop_outcome e b = None ∧
  (∀ m, max_items b = Some m → items_admitted b < m) ∧
  b' = set_items (items_admitted b + 1) b.
Proof.
  assert (strip (py "max_items") ≠ []) as Hm by by vm_compute.
  unfold try_admit_item. rewrite stm_bind_eq. unfold get_state at 1. simpl.
  unfold truncated. destruct (truncation_reason b) eqn:Hr.
  { rewrite bool_decide_eq_true_2 by eauto. split; [done|]. intros (?&_). done. }
  rewrite bool_decide_eq_false_2 by by intros [? ?].
  rewrite stm_bind_eq, deadline_expired_eq.
  destruct (stop_outcome e b) as [[[r|] [err|]]|] eqn:Hs; simpl;
    try (split; [done|intros (?&?&?); done]).
  rewrite get_bind. destruct (max_items b) as [m|] eqn:Hmax.
  - destruct (m <=? items_admitted b) eqn:Hle; bool_prop.
    + rewrite stm_bind_eq, (mark_truncated_eq _ _ Hm).
      split; [done|]. intros (_&_&Hlt&_). specialize (Hlt m eq_refl). lia.
    + rewrite put_bind. split; [intros [= <-]|intros (_&_&_&->); done].
      repeat split. intros ? [= ->]. done.
  - rewrite put_bind. split; [intros [= <-]|intros (_&_&_&->); done]. done.
Qed.

(** What [new_job_allowance] grants may be recorded: the grant is between
    zero and the request, and recording any part of it succeeds and adds
    exactly that part to the job counter. *)
Theorem allowance_can_be_recorded e requested b b' granted count :
  budget_inv b → new_job_allowance e requested b = (b', Ok granted) → 0 <= count <= granted →
  granted <= requested ∧
  record_new_jobs count b' = (set_jobs (new_jobs_admitted b + count) b', Ok tt).
Proof.
  intros [_ [Hj Hmax] _]. unfold new_job_allowance, throw_if, raise_if.
  rewrite stm_bind_eq. destruct (requested <? 1) eqn:Hq; [done|]. bool_prop.
  rewrite stm_bind_eq, deadline_expired_eq. unfold record_new_jobs, throw_if.
  assert (∀ r, max_new_jobs (first_reason r b) = max_new_jobs b ∧
               new_jobs_admitted (first_reason r b) = new_jobs_admitted b) as Hf.
  { intros r. unfold first_reason. by destruct (truncation_reason b). }
  assert (∀ c b1, new_jobs_admitted b1 = new_jobs_admitted b →
    0 <= c → (∀ m, max_new_jobs b1 = Some m → new_jobs_admitted b + c <= m) →
    (throw_if (c <? 0) NegativeJobCount;;
     b ← get_state;
     throw_if (match max_new_jobs b with
               | Some m => m <? new_jobs_admitted b + c
               | None => false end) JobsExceedMaximum;;
     put_state (set_jobs (new_jobs_admitted b + c) b)) b1 =
    (set_jobs (new_jobs_admitted b + c) b1, Ok tt)) as Hrec.
  { intros c b1 Heq Hc Hm. rewrite stm_bind_eq. unfold throw_if.
    assert ((c <? 0) = false) as -> by lia. simpl. rewrite stm_bind_eq. simpl.
    rewrite stm_bind_eq, Heq. destruct (max_new_jobs b1) as [m|]; simpl; [|done].
    specialize (Hm m eq_refl). by assert ((m <? new_jobs_admitted b + c) = false) as -> by lia. }
  destruct (stop_outcome e b) as [[[r|] [err|]]|] eqn:Hs; simpl; try done.
  - intros [= <- <-] Hc. split; [lia|]. apply Hrec; [apply Hf|lia|].
    intros m Hm. rewrite (proj1 (Hf _)) in Hm. rewrite Hm in Hmax. lia.
  - intros [= <- <-] Hc. split; [lia|]. apply Hrec; [done|lia|].
    intros m Hm. rewrite Hm in Hmax. lia.
  - rewrite get_bind.
    destruct (max_new_jobs b) as [m|] eqn:Hm; unfold mret, stm_ret; intros [= <- <-] Hc;
      (split; [lia|]); apply Hrec; try done; try lia.
    all: intros m' Hm'; rewrite Hm in Hm'; by simplify_eq; lia.
Qed.

Lemma allowance_can_be_recorded_witness :
  ∃ b, make_work_budget PNone (PInt 5) PNone (PBool false) (PBool false) false = Ok b ∧
    5 <= 9 ∧ record_new_jobs 5 b = (set_jobs (new_jobs_admitted b + 5) b, Ok tt).
Proof.
  eexists. split; [reflexivity|].
  apply (allowance_can_be_recorded
    {| cancel_outcome := CheckReturned PNone; clock := S754_zero false |} 9 _ _ 5 5).
  - split; simpl; repeat split; lia.
  - reflexivity.
  - lia.
Defined.

Lemma run_closers_spec fails cs first :
  run_closers fails cs first =
    (cs, match first with Some c => Some c | None => List.find fails cs end).
Proof.
  revert first. induction cs as [|c cs IH]; intros first; simpl; [by destruct first|].
  rewrite IH. destruct first; [done|]. by destruct (fails c).
Qed.

(** Closing the registered resources calls every closer exactly once in
    the reverse of the registration order, even when some raise, empties the
    registry first, so a second close calls nothing, and raises the first
    error met in that order. *)
Theorem closers_run_once fails b :
  ∃ b' r, close_registered_resources fails b = (b', reverse (resource_closers b), r) ∧
    close_registered_resources fails b' = (b', [], Ok tt) ∧
    r = match List.find fails (reverse (resource_closers b)) with
        | Some c => Err (CloserRaised c)
        | None => Ok tt
        end.
Proof.
  unfold close_registered_resources. rewrite run_closers_spec.
  eexists _, _. split; [reflexivity|]. by split.
Qed.
