(* ===== verification/RunIds.v ===== *)
(** * Framework run identifiers (neocortex/persistence/framework_run_ids.py)

    The read-only allocator of run identifiers: the durable floor, the visible
    run ledger and the columns that may outlive a run row.  The SQLite engine
    is outside the repository: a [connection] holds what its queries return,
    and the aggregate query is a parameter with its documented behaviour as a
    hypothesis. *)

From S2P Require Import Prelude.

Definition MAX_SQLITE_INT : Z := 9223372036854775807.

Definition REFERENCE_SPECS : list (pystr * pystr) :=
  [(py "file_actions", py "run_id");
   (py "content_type_cache", py "last_seen_run_id");
   (py "findings", py "last_seen_run_id");
   (py "findings", py "resolved_run_id");
   (py "initial_runs", py "source_run_id");
   (py "route_runs", py "source_run_id");
   (py "route_phase_runs", py "source_run_id")].

Inductive SchemaErrorCause : Type :=
| InvalidIdentifier | AttachedUnreadable | AttachedPresent | SchemaInvalid
| FloorUnreadable | FloorNotUnique | FloorMalformed | FloorOutOfRange
| RunsUnreadable | RunsMalformed
| ReferencesUnreadable (table column : pystr)
| ReferenceNotInteger (table column : pystr).

(** [IntDigits] is the bare [ValueError] of [int()] on an oversized numeral. *)
Inductive FrameworkRunIdError : Type :=
| FrameworkRunIdSchemaError (cause : SchemaErrorCause)
| FrameworkRunIdOverflowError
| IntDigits.

(** The non-NULL cells a [SELECT] yields, and whether stepping the cursor
    ends in [sqlite3.Error]. *)
Record column_scan : Type := { cells : list pyval; scan_failed : bool }.

(** What one read snapshot answers; [None] is [sqlite3.Error].  The column
    [initial_runs.run_id] is the INTEGER PRIMARY KEY, so its cells are integers. *)
Record connection : Type := {
  database_list : option (list pystr);
  schema_valid : bool;
  floor_rows : option (list pyval);
  run_ids : option (list Z);
  reference_column : pystr → pystr → option column_scan;
}.

Definition schema_error {A} (c : SchemaErrorCause) : result FrameworkRunIdError A :=
  Err (FrameworkRunIdSchemaError c).

(** Doubles every quotation mark. *)
Definition double_quotes (s : pystr) : pystr :=
  s ≫= λ c, if c =? 34 then [34; 34] else [c].

Definition quote_identifier (s : pystr) : result FrameworkRunIdError pystr :=
  raise_if (bool_decide (s = []) || bool_decide (0 ∈ s))
    (FrameworkRunIdSchemaError InvalidIdentifier);;
  Ok (34 :: double_quotes s ++ [34]).

Definition validate_read_connection (c : connection) : result FrameworkRunIdError unit :=
  names ← or_raise (database_list c) (FrameworkRunIdSchemaError AttachedUnreadable);
  raise_if (bool_decide (filter (λ n, n ≠ py "main" ∧ n ≠ py "temp") names ≠ []))
    (FrameworkRunIdSchemaError AttachedPresent);;
  raise_if (negb (schema_valid c)) (FrameworkRunIdSchemaError SchemaInvalid).

(** [int(value)] for the text of an ASCII decimal numeral. *)
Definition floor_value (v : pyval) : result FrameworkRunIdError Z :=
  match v with
  | PStr s =>
      raise_if (negb (is_ascii s) || bool_decide (s = []) || negb (forallb is_digit s))
        (FrameworkRunIdSchemaError FloorMalformed);;
      raise_if (INT_MAX_STR_DIGITS <? zlen s) IntDigits;;
      let parsed := int_dec s in
      raise_if ((parsed <? 0) || (MAX_SQLITE_INT <=? parsed))
        (FrameworkRunIdSchemaError FloorOutOfRange);;
      Ok parsed
  | _ => schema_error FloorMalformed
  end.

Definition read_floor (c : connection) : result FrameworkRunIdError (option Z) :=
  rows ← or_raise (floor_rows c) (FrameworkRunIdSchemaError FloorUnreadable);
  match rows with
  | [] => Ok None
  | [v] => Some <$> floor_value v
  | _ => schema_error FloorNotUnique
  end.

Definition read_framework_run_id_floor (c : connection)
  : result FrameworkRunIdError (option Z) :=
  validate_read_connection c;; read_floor c.

(** One reference value folded into the running maximum. *)
Definition fold_reference (table column : pystr) (highest : option Z) (v : pyval)
  : result FrameworkRunIdError (option Z) :=
  match v with
  | PInt z =>
      raise_if (z <? 0) (FrameworkRunIdSchemaError (ReferenceNotInteger table column));;
      Ok (if (z =? 0) then highest
          else match highest with
               | Some h => if h <? z then Some z else highest
               | None => Some z
               end)
  | _ => schema_error (ReferenceNotInteger table column)
  end.

Fixpoint fold_column (table column : pystr) (highest : option Z) (vs : list pyval)
  : result FrameworkRunIdError (option Z) :=
  match vs with
  | [] => Ok highest
  | v :: vs' => h ← fold_reference table column highest v; fold_column table column h vs'
  end.

Fixpoint referenced_max (c : connection) (highest : option Z) (specs : list (pystr * pystr))
  : result FrameworkRunIdError (option Z) :=
  match specs with
  | [] => Ok highest
  | (table, column) :: specs' =>
      quote_identifier column;;
      quote_identifier table;;
      scan ← or_raise (reference_column c table column)
               (FrameworkRunIdSchemaError (ReferencesUnreadable table column));
      h ← fold_column table column highest (cells scan);
      raise_if (scan_failed scan)
        (FrameworkRunIdSchemaError (ReferencesUnreadable table column));;
      referenced_max c h specs'
  end.

Definition all_referenced_max (c : connection) : result FrameworkRunIdError (option Z) :=
  referenced_max c None REFERENCE_SPECS.

(** [max((v for v in values if v is not None), default=0)] *)
Definition max_present (values : list (option Z)) : Z :=
  match omap id values with
  | [] => 0
  | v :: vs => foldl Z.max v vs
  end.

Section allocator.
(** [SELECT MIN(run_id), MAX(run_id)] over a column of integers. *)
Variable sql_min_max : list Z → pyval * pyval.

Definition read_max_run_id (c : connection) : result FrameworkRunIdError (option Z) :=
  rows ← or_raise (run_ids c) (FrameworkRunIdSchemaError RunsUnreadable);
  match sql_min_max rows with
  | (PNone, PNone) => Ok None
  | (PInt minimum, PInt maximum) =>
      raise_if (minimum <? 0) (FrameworkRunIdSchemaError RunsMalformed);;
      Ok (Some maximum)
  | _ => schema_error RunsMalformed
  end.

Definition framework_next_run_id (c : connection) : result FrameworkRunIdError Z :=
  validate_read_connection c;;
  floor ← read_floor c;
  max_run ← read_max_run_id c;
  referenced_max ← all_referenced_max c;
  let current := max_present [floor; max_run; referenced_max] in
  raise_if (MAX_SQLITE_INT - 1 <=? current) FrameworkRunIdOverflowError;;
  Ok (current + 1).

(** ** What the allocator knows *)

(** The aggregates are the attained bounds of the column, NULL on no rows. *)
Hypothesis aggregates : ∀ ids : list Z,
  match sql_min_max ids with
  | (PNone, PNone) => ids = []
  | (PInt lo, PInt hi) => lo ∈ ids ∧ hi ∈ ids ∧ ∀ z, z ∈ ids → lo <= z <= hi
  | _ => False
  end.

(** Every identifier the owner still holds: the floor, the visible runs and
    the scalar references. *)
Definition retained (c : connection) (z : Z) : Prop :=
  (∃ s, floor_rows c = Some [PStr s] ∧ z = int_dec s) ∨
  (∃ rows, run_ids c = Some rows ∧ z ∈ rows) ∨
  (∃ table column scan, (table, column) ∈ REFERENCE_SPECS ∧
     reference_column c table column = Some scan ∧ PInt z ∈ cells scan).

(** [o] is the greatest of the values in [P], [None] when there is none but
    zero. *)
Definition greatest (P : Z → Prop) (o : option Z) : Prop :=
  (∀ z, P z → z = 0 ∨ ∃ h, o = Some h ∧ z <= h) ∧ (∀ h, o = Some h → P h ∧ 0 <= h).

Lemma fold_column_greatest table column vs : ∀ highest (P : Z → Prop) o,
  greatest P highest → fold_column table column highest vs = Ok o →
  greatest (λ z, P z ∨ PInt z ∈ vs) o.
Proof.
  induction vs as [|v vs IH]; intros highest P o [Hup Hin]; cbn [fold_column].
  { intros [= <-]. split; [|naive_solver]. intros z [Hz|Hz%elem_of_nil]; [auto|done]. }
  intros (h&Hv&Hrest)%bind_ok.
  assert (greatest (λ z, P z ∨ PInt z = v) h) as Hg.
  { unfold fold_reference in Hv. destruct v as [| |z| | | |]; try done. inv_ok. bool_prop.
    split.
    - intros y [Hy|[= ->]]; case_match eqn:Hz; bool_prop.
      + destruct (Hup y Hy) as [?|(h&->&?)]; eauto.
      + destruct (Hup y Hy) as [?|(h&->&?)]; [eauto|]. right.
        destruct (h <? z) eqn:?; bool_prop; eexists; (split; [done|lia]).
      + auto.
      + right. destruct highest as [h|]; [|eexists; split; [done|lia]].
        destruct (h <? z) eqn:?; bool_prop; eexists; (split; [done|lia]).
    - intros h. case_match eqn:Hz; bool_prop.
      + intros Hh. destruct (Hin h Hh). auto.
      + destruct highest as [h'|]; [destruct (h' <? z) eqn:?; bool_prop|];
          intros [= <-]; [auto| |auto]. destruct (Hin h' eq_refl). auto. }
  destruct (IH _ _ _ Hg Hrest) as [Hup' Hin']. split.
  - intros z Hz. apply Hup'. rewrite elem_of_cons in Hz. tauto.
  - intros y Hy. destruct (Hin' y Hy) as [HP ?]. split; [|done].
    rewrite elem_of_cons. tauto.
Qed.

Lemma referenced_max_greatest c specs : ∀ highest (P : Z → Prop) o,
  greatest P highest → referenced_max c highest specs = Ok o →
  greatest (λ z, P z ∨ ∃ table column scan, (table, column) ∈ specs ∧
     reference_column c table column = Some scan ∧ PInt z ∈ cells scan) o.
Proof.
  induction specs as [|[table column] specs IH]; intros highest P o Hg; cbn [referenced_max].
  { intros [= <-]. destruct Hg as [Hup Hin]. split; [|naive_solver].
    intros z [Hz|(?&?&?&?%elem_of_nil&_)]; [auto|done]. }
  intros (_&_&(_&_&(scan&Hscan%or_raise_ok&(h&Hcol&(_&_&Hrest)%bind_ok)%bind_ok)%bind_ok)
    %bind_ok)%bind_ok.
  pose proof (IH _ _ _ (fold_column_greatest _ _ _ _ _ _ Hg Hcol) Hrest) as [Hup Hin].
  split.
  - intros z Hz. apply Hup. destruct Hz as [Hz|(t&cn&sc&[[= -> ->]|Hs]%elem_of_cons&Hc&Hz)];
      [auto| |eauto 8]. rewrite Hscan in Hc. injection Hc as <-. auto.
  - intros y Hy. destruct (Hin y Hy) as [[[HP|Hz]|(t&cn&sc&Hs&Hc&Hz)] ?]; (split; [|done]);
      [auto| |]; right; eexists _, _, _; (split; [|split]); rewrite ?elem_of_cons; eauto.
Qed.

Lemma read_floor_greatest c o :
  read_floor c = Ok o → greatest (λ z, ∃ s, floor_rows c = Some [PStr s] ∧ z = int_dec s) o.
Proof.
  unfold read_floor. intros (rows&Hrows%or_raise_ok&H)%bind_ok. rewrite Hrows.
  destruct rows as [|v [|? ?]]; try done.
  { injection H as <-. split; [intros ? (?&?&?)|]; done. }
  apply fmap_ok in H as (z&Hv&->). destruct v; try done.
  unfold floor_value in Hv. inv_ok. bool_prop. split.
  - intros ? (?&[= <-]&->). right. eexists; split; [done|lia].
  - intros ? [= <-]. split; [eauto|lia].
Qed.

Lemma read_max_run_id_greatest c o :
  read_max_run_id c = Ok o → greatest (λ z, ∃ rows, run_ids c = Some rows ∧ z ∈ rows) o.
Proof.
  unfold read_max_run_id. intros (rows&Hrows%or_raise_ok&H)%bind_ok. rewrite Hrows.
  specialize (aggregates rows). destruct (sql_min_max rows) as [[] []]; try done; inv_ok.
  - split; [intros ? (?&[= <-]&?%elem_of_nil)|]; done.
  - destruct aggregates as (Hlo&Hhi&Hb). bool_prop. split.
    + intros z' (?&[= <-]&Hz). right. eexists; split; [done|]. by apply Hb.
    + intros ? [= <-]. split; [eauto|]. apply Hb in Hhi. lia.
Qed.

Lemma max_present_spec os :
  (∀ h, Some h ∈ os → h <= max_present os) ∧
  (max_present os = 0 ∧ (∀ h, Some h ∉ os) ∨ Some (max_present os) ∈ os).
Proof.
  assert (∀ h, h ∈ omap id os ↔ Some h ∈ os) as Hin.
  { intros h. rewrite list_elem_of_omap. split; [intros (?&?&Hh)|eauto].
    unfold id in Hh. by subst. }
  unfold max_present. destruct (omap id os) as [|v vs].
  - split; [intros h Hh%Hin; by apply elem_of_nil in Hh|].
    left. split; [done|]. intros h Hh%Hin. by apply elem_of_nil in Hh.
  - destruct (foldl_max_spec vs v) as [Hup Hmem].
    split; [intros h Hh%Hin; auto|]. right. by apply Hin.
Qed.

Lemma max_present_greatest (P1 P2 P3 : Z → Prop) o1 o2 o3 :
  greatest P1 o1 → greatest P2 o2 → greatest P3 o3 →
  let m := max_present [o1; o2; o3] in
  0 <= m ∧ (∀ z, P1 z ∨ P2 z ∨ P3 z → z <= m) ∧ (m = 0 ∨ P1 m ∨ P2 m ∨ P3 m).
Proof.
  intros [U1 I1] [U2 I2] [U3 I3] m.
  destruct (max_present_spec [o1; o2; o3]) as [Hup Hin]. fold m in Hup, Hin.
  assert (∀ h, Some h ∈ [o1; o2; o3] → 0 <= h ∧ (P1 h ∨ P2 h ∨ P3 h)) as Hnn.
  { intros h. rewrite !elem_of_cons, elem_of_nil.
    intros [Hh|[Hh|[Hh|[]]]]; symmetry in Hh;
      [apply I1 in Hh|apply I2 in Hh|apply I3 in Hh]; tauto. }
  assert (0 <= m) by (destruct Hin as [[-> _]|Hm]; [done|by apply Hnn in Hm as [? _]]).
  split; [done|]. split.
  - assert (∀ h z, Some h ∈ [o1; o2; o3] → z <= h → z <= m) as Hle
      by (intros h z Hh%Hup ?; lia).
    intros z Hz. destruct Hz as [Hz|[Hz|Hz]];
      [apply U1 in Hz|apply U2 in Hz|apply U3 in Hz]; destruct Hz as [->|(h&->&?)]; try done;
      (eapply Hle; [|done]); rewrite !elem_of_cons; auto.
  - destruct Hin as [[-> _]|Hm]; [auto|]. apply Hnn in Hm. tauto.
Qed.

(** Only the final comparison reports exhaustion. *)
Definition not_overflow {A} (r : result FrameworkRunIdError A) : Prop :=
  r ≠ Err FrameworkRunIdOverflowError.

Lemma not_overflow_bind {A B} (r : result FrameworkRunIdError A)
    (f : A → result FrameworkRunIdError B) :
  not_overflow r → (∀ a, r = Ok a → not_overflow (f a)) → not_overflow (r ≫= f).
Proof. unfold not_overflow. intros Hr Hf [?|(a&?&?)]%bind_err; [done|by eapply Hf]. Qed.

Lemma not_overflow_raise b c : not_overflow (raise_if b (FrameworkRunIdSchemaError c)).
Proof. by destruct b. Qed.

Lemma not_overflow_or_raise {A} (o : option A) c :
  not_overflow (or_raise o (FrameworkRunIdSchemaError c)).
Proof. by destruct o. Qed.

Lemma not_overflow_fmap {A B} (f : A → B) (r : result FrameworkRunIdError A) :
  not_overflow r → not_overflow (f <$> r).
Proof. destruct r; unfold not_overflow; naive_solver. Qed.

Create HintDb no_overflow discriminated.
#[local] Hint Resolve not_overflow_raise not_overflow_or_raise not_overflow_fmap : no_overflow.
#[local] Hint Extern 0 (not_overflow (Ok _)) => discriminate : no_overflow.
#[local] Hint Extern 0 (not_overflow (schema_error _)) => discriminate : no_overflow.

Ltac no_overflow :=
  repeat (apply not_overflow_bind; [|intros ? _]); repeat case_match; try done;
  auto with no_overflow.

Lemma fold_column_not_overflow table column vs : ∀ h, not_overflow (fold_column table column h vs).
Proof.
  induction vs as [|v vs IH]; intros h; [done|].
  apply not_overflow_bind; [|by intros ? _]. destruct v; cbn [fold_reference]; no_overflow.
Qed.

Lemma quote_identifier_not_overflow s : not_overflow (quote_identifier s).
Proof. unfold quote_identifier. no_overflow. Qed.
#[local] Hint Resolve fold_column_not_overflow quote_identifier_not_overflow : no_overflow.

Lemma referenced_max_not_overflow c specs : ∀ h, not_overflow (referenced_max c h specs).
Proof.
  induction specs as [|[t cl] specs IH]; intros h; [done|]. cbn [referenced_max].
  no_overflow.
Qed.

Lemma floor_value_not_overflow v : not_overflow (floor_value v).
Proof.
  destruct v; try done. cbn [floor_value].
  apply not_overflow_bind; [auto with no_overflow|intros ? _].
  apply not_overflow_bind; [by destruct (_ <? _)|intros ? _]. no_overflow.
Qed.
#[local] Hint Resolve floor_value_not_overflow : no_overflow.

Lemma reads_not_overflow c :
  not_overflow (validate_read_connection c) ∧ not_overflow (read_floor c) ∧
  not_overflow (read_max_run_id c).
Proof.
  unfold validate_read_connection, read_floor, read_max_run_id.
  split; [|split]; do 2 no_overflow.
Qed.

Lemma allocation_reads c (r : result FrameworkRunIdError Z) :
  framework_next_run_id c = r → not_overflow r ∧ (∀ n, r ≠ Ok n) ∨
  ∃ m, 0 <= m ∧ (∀ z, retained c z → z <= m) ∧ (m = 0 ∨ retained c m) ∧
       r = if MAX_SQLITE_INT - 1 <=? m then Err FrameworkRunIdOverflowError else Ok (m + 1).
Proof.
  destruct (reads_not_overflow c) as (Nv&Nf&Nm).
  pose proof (referenced_max_not_overflow c REFERENCE_SPECS None) as Nr.
  intros <-. unfold framework_next_run_id.
  destruct (validate_read_connection c) as [[]|]; [|left; split; [intros [= ->]; by apply Nv|done]].
  destruct (read_floor c) as [fl|] eqn:Hf; [|left; split; [intros [= ->]; by apply Nf|done]].
  destruct (read_max_run_id c) as [mx|] eqn:Hm; [|left; split; [intros [= ->]; by apply Nm|done]].
  fold (all_referenced_max c) in Nr.
  destruct (all_referenced_max c) as [rf|] eqn:Hr; [|left; split; [intros [= ->]; by apply Nr|done]].
  right. exists (max_present [fl; mx; rf]).
  apply read_floor_greatest in Hf. apply read_max_run_id_greatest in Hm.
  apply (referenced_max_greatest _ _ _ (λ _, False)) in Hr; [|by split].
  destruct (max_present_greatest _ _ _ _ _ _ Hf Hm Hr) as (H0&Hup&Hin). unfold retained.
  split; [done|]. split; [intros z Hz; apply Hup; tauto|]. split; [tauto|].
  cbn. by destruct (MAX_SQLITE_INT - 1 <=? _).
Qed.

(** An allocated run identifier is exactly one more than the greatest
    identifier the owner retains anywhere (floor, ledger or scalar reference,
    1 when there is none), hence fresh and a positive SQLite integer; the
    allocator reports exhaustion only when a retained identifier is at least
    2^63 - 2. *)
Theorem next_run_id_exact c :
  match framework_next_run_id c with
  | Ok n => (∀ z, retained c z → z < n) ∧ (n = 1 ∨ retained c (n - 1)) ∧
            1 <= n < MAX_SQLITE_INT
  | Err FrameworkRunIdOverflowError => ∃ z, retained c z ∧ MAX_SQLITE_INT - 1 <= z
  | Err _ => True
  end.
Proof.
  destruct (allocation_reads c _ eq_refl) as [[Hn Hok]|(m&H0&Hup&Hin&->)].
  { destruct (framework_next_run_id c) as [n|[]]; try done; by destruct (Hok n). }
  destruct (MAX_SQLITE_INT - 1 <=? m) eqn:Hle; bool_prop.
  - destruct Hin as [->|?]; [done|eauto].
  - rewrite Z.add_simpl_r. split; [intros z Hz%Hup; lia|]. split; [|lia].
    destruct Hin as [->|?]; auto.
Qed.
End allocator.

(** A concrete aggregate and owner. *)
Definition scan_min_max (ids : list Z) : pyval * pyval :=
  match ids with
  | [] => (PNone, PNone)
  | z :: zs => (PInt (foldl Z.min z zs), PInt (foldl Z.max z zs))
  end.

Lemma scan_min_max_aggregates ids :
  match scan_min_max ids with
  | (PNone, PNone) => ids = []
  | (PInt lo, PInt hi) => lo ∈ ids ∧ hi ∈ ids ∧ ∀ z, z ∈ ids → lo <= z <= hi
  | _ => False
  end.
Proof.
  destruct ids as [|z zs]; [done|]. cbn [scan_min_max].
  induction zs as [|y zs (IHl&IHh&IHb)] using rev_ind.
  { set_solver by lia. }
  rewrite !foldl_app. cbn [foldl].
  assert (∀ x, x ∈ z :: zs ++ [y] ↔ x ∈ z :: zs ∨ x = y) as Hin by set_solver.
  rewrite !Hin. split; [|split].
  - destruct (Z.min_spec (foldl Z.min z zs) y) as [[_ ->]|[_ ->]]; auto.
  - destruct (Z.max_spec (foldl Z.max z zs) y) as [[_ ->]|[_ ->]]; auto.
  - intros x [Hx%IHb| ->]%Hin; lia.
Qed.

Definition owner_with_runs (ids : list Z) (floor : pystr) : connection :=
  {| database_list := Some [py "main"]; schema_valid := true;
     floor_rows := Some [PStr floor]; run_ids := Some ids;
     reference_column := λ table column,
       Some {| cells := if decide (table = py "findings") then [PInt 0; PInt 41] else [];
               scan_failed := false |} |}.

Lemma next_run_id_exact_witness :
  framework_next_run_id scan_min_max (owner_with_runs [3; 7; 5] (py "12")) = Ok 42 ∧
  (∀ z, retained (owner_with_runs [3; 7; 5] (py "12")) z → z < 42).
Proof.
  split; [by vm_compute|].
  exact (proj1 (next_run_id_exact scan_min_max scan_min_max_aggregates
    (owner_with_runs [3; 7; 5] (py "12")))).
Defined.

(** The allocator stops one identifier early: with [2^63 - 2] as the greatest
    retained identifier, [2^63 - 1] is a free SQLite integer, yet exhaustion is
    reported. *)
Lemma last_identifier_refused :
  framework_next_run_id scan_min_max (owner_with_runs [MAX_SQLITE_INT - 1] (py "0")) =
    Err FrameworkRunIdOverflowError ∧
  framework_next_run_id scan_min_max (owner_with_runs [MAX_SQLITE_INT - 2] (py "0")) =
    Ok (MAX_SQLITE_INT - 1).
Proof. by vm_compute. Qed.

(** A floor of more than 4300 digits escapes the module's own error type. *)
Lemma oversized_floor_escapes :
  read_framework_run_id_floor (owner_with_runs [] (replicate 4301 49)) = Err IntDigits.
Proof. by vm_compute. Qed.
