(* ===== verification/PngProbe.v ===== *)
(** * PNG structure probe (neocortex/capabilities/formats/image/png.py)

    The bounded probe that gives independent corruption evidence for one PNG:
    chunk headers, lengths, CRC-32 values and the critical chunk order, without
    decoding pixels. *)

From S2P Require Import Prelude.

(** ** Contract *)

Definition PNG_SIGNATURE : list byte := z2b <$> [137; 80; 78; 71; 13; 10; 26; 10].
Definition PNG_READ_CHUNK_BYTES : Z := 64 * 1024.
Definition MAX_PNG_PROBE_BYTES : Z := 512 * 1024 * 1024.
Definition MAX_PNG_CHUNKS : Z := 1000000.

Inductive PngProbeStatus : Type := valid | corrupt | inconclusive.

Inductive reason : Type :=
| probe_byte_limit | probe_chunk_limit | invalid_signature
| truncated_chunk_header | invalid_chunk_type | invalid_chunk_length
| truncated_chunk_data | truncated_chunk_crc | crc32_mismatch
| ihdr_not_first | duplicate_ihdr | invalid_ihdr
| invalid_iend_length | trailing_bytes_after_iend
| missing_ihdr | missing_idat | missing_iend
| structure_and_crc_valid.

Record PngProbeResult : Type := {
  status : PngProbeStatus;
  reason_code : reason;
  result_bytes : Z;
  result_chunks : Z;
  result_width : option Z;
  result_height : option Z;
}.

Definition deterministic_corruption (r : PngProbeResult) : bool :=
  match status r with corrupt => true | _ => false end.

Record PngProbeState : Type := {
  bytes_checked : Z;
  chunks_checked : Z;
  width : option Z;
  height : option Z;
  saw_ihdr : bool;
  saw_idat : bool;
  saw_iend : bool;
}.

Definition fresh_state : PngProbeState :=
  {| bytes_checked := 0; chunks_checked := 0; width := None; height := None;
     saw_ihdr := false; saw_idat := false; saw_iend := false |}.

Record PngChunk : Type := {
  kind : list byte;
  chunk_length : Z;
  ihdr_payload : option (list byte);
}.

Definition IHDR : list byte := z2b <$> [73; 72; 68; 82].
Definition IDAT : list byte := z2b <$> [73; 68; 65; 84].
Definition IEND : list byte := z2b <$> [73; 69; 78; 68].

(** A probe step works on the unread bytes of the file and the probe state, and
    leaves the probe early with a result. *)
Record cursor : Type := { stream : list byte; state : PngProbeState }.

Abbreviation M A := (stm cursor PngProbeResult A).

Definition get_probe : M PngProbeState := c ← get_state; mret (state c).

Definition set_probe (s : PngProbeState) : M unit :=
  modify (λ c, {| stream := stream c; state := s |}).

Definition plus_bytes (n : Z) (s : PngProbeState) : PngProbeState :=
  {| bytes_checked := bytes_checked s + n; chunks_checked := chunks_checked s;
     width := width s; height := height s; saw_ihdr := saw_ihdr s;
     saw_idat := saw_idat s; saw_iend := saw_iend s |}.

Definition plus_chunk (s : PngProbeState) : PngProbeState :=
  {| bytes_checked := bytes_checked s; chunks_checked := chunks_checked s + 1;
     width := width s; height := height s; saw_ihdr := saw_ihdr s;
     saw_idat := saw_idat s; saw_iend := saw_iend s |}.

Definition add_bytes (n : Z) : M unit := s ← get_probe; set_probe (plus_bytes n s).
Definition add_chunk : M unit := s ← get_probe; set_probe (plus_chunk s).

(** [stream.read(n)] on a regular file is short only at its end. *)
Definition read (n : Z) : M (list byte) :=
  c ← get_state;
  put_state {| stream := drop (Z.to_nat n) (stream c); state := state c |};;
  mret (take (Z.to_nat n) (stream c)).

Definition read_exact (n : Z) : M (option (list byte)) :=
  payload ← read n;
  mret (if zlen payload =? n then Some payload else None).

Definition probe_result (s : PngProbeState) (st : PngProbeStatus) (r : reason)
    (include_dimensions : bool) : PngProbeResult :=
  {| status := st; reason_code := r; result_bytes := bytes_checked s;
     result_chunks := chunks_checked s;
     result_width := if include_dimensions then width s else None;
     result_height := if include_dimensions then height s else None |}.

(** [return _probe_result(state, "corrupt", reason)] *)
Definition corrupt_now {A} (r : reason) : M A :=
  s ← get_probe; throw (probe_result s corrupt r true).

Definition corrupt_without_dimensions {A} (r : reason) : M A :=
  s ← get_probe; throw (probe_result s corrupt r false).

Definition legal_depths (color_type : Z) : list Z :=
  if color_type =? 0 then [1; 2; 4; 8; 16]
  else if color_type =? 2 then [8; 16]
  else if color_type =? 3 then [1; 2; 4; 8]
  else if color_type =? 4 then [8; 16]
  else if color_type =? 6 then [8; 16]
  else [].

Definition valid_ihdr (payload : list byte) : option (Z * Z) :=
  if negb (length payload =? 13)%nat then None else
  let w := be_int (take 4 payload) in
  let h := be_int (take 4 (drop 4 payload)) in
  match b2z <$> drop 8 payload with
  | [bit_depth; color_type; compression; filtering; interlace] =>
      if (w <? 1) || (h <? 1) || negb (bool_decide (bit_depth ∈ legal_depths color_type)) ||
         negb (compression =? 0) || negb (filtering =? 0) ||
         negb ((interlace =? 0) || (interlace =? 1))
      then None else Some (w, h)
  | _ => None
  end.

Definition is_letter (b : byte) : bool :=
  ((65 <=? b2z b) && (b2z b <=? 90)) || ((97 <=? b2z b) && (b2z b <=? 122)).

Definition read_png_chunk_header (file_size : Z) : M (Z * list byte) :=
  header ← read_exact 8;
  match header with
  | None => corrupt_now truncated_chunk_header
  | Some h =>
      add_bytes 8;;
      let len := be_int (take 4 h) in
      let chunk_type := drop 4 h in
      if negb (forallb is_letter chunk_type) then corrupt_now invalid_chunk_type
      else
        s ← get_probe;
        if file_size - bytes_checked s - 4 <? len then corrupt_now invalid_chunk_length
        else mret (len, chunk_type)
  end.

(** The [while remaining] loop; [None] is a loop that ran out of fuel. *)
Fixpoint payload_loop (fuel : nat) (remaining checksum : Z) (ihdr : option (list byte))
  : M (option (Z * option (list byte))) :=
  if remaining =? 0 then mret (Some (checksum, ihdr)) else
  match fuel with
  | O => mret None
  | S fuel' =>
      block ← read (Z.min remaining PNG_READ_CHUNK_BYTES);
      match block with
      | [] => corrupt_now truncated_chunk_data
      | _ =>
          add_bytes (zlen block);;
          payload_loop fuel' (remaining - zlen block) (crc32_from checksum block)
            ((λ p, p ++ block) <$> ihdr)
      end
  end.

(** Every pass reads at least one byte of what is left of the file. *)
Definition read_png_chunk_payload (chunk_type : list byte) (len : Z)
  : M (option (Z * option (list byte))) :=
  c ← get_state;
  payload_loop (S (length (stream c))) len (crc32 chunk_type)
    (if decide (chunk_type = IHDR) then Some [] else None).

Definition read_png_chunk (file_size : Z) : M (option PngChunk) :=
  '(len, chunk_type) ← read_png_chunk_header file_size;
  payload ← read_png_chunk_payload chunk_type len;
  match payload with
  | None => mret None
  | Some (checksum, ihdr) =>
      stored_crc ← read_exact 4;
      match stored_crc with
      | None => corrupt_now truncated_chunk_crc
      | Some crc =>
          add_bytes 4;;
          add_chunk;;
          if negb (be_int crc =? Z.land checksum CRC_MASK) then corrupt_now crc32_mismatch
          else mret (Some {| kind := chunk_type; chunk_length := len; ihdr_payload := ihdr |})
      end
  end.

Definition record_png_chunk (chunk : PngChunk) (file_size : Z) : M unit :=
  s ← get_probe;
  if (chunks_checked s =? 1) && negb (bool_decide (kind chunk = IHDR))
  then corrupt_without_dimensions ihdr_not_first
  else if decide (kind chunk = IHDR) then
    match saw_ihdr s, ihdr_payload chunk with
    | false, Some payload =>
        match valid_ihdr payload with
        | None => corrupt_without_dimensions invalid_ihdr
        | Some (w, h) =>
            set_probe {| bytes_checked := bytes_checked s; chunks_checked := chunks_checked s;
                         width := Some w; height := Some h; saw_ihdr := true;
                         saw_idat := saw_idat s; saw_iend := saw_iend s |}
        end
    | _, _ => corrupt_without_dimensions duplicate_ihdr
    end
  else if decide (kind chunk = IDAT) then
    set_probe {| bytes_checked := bytes_checked s; chunks_checked := chunks_checked s;
                 width := width s; height := height s; saw_ihdr := saw_ihdr s;
                 saw_idat := true; saw_iend := saw_iend s |}
  else if decide (kind chunk = IEND) then
    if negb (chunk_length chunk =? 0) then corrupt_now invalid_iend_length
    else
      set_probe {| bytes_checked := bytes_checked s; chunks_checked := chunks_checked s;
                   width := width s; height := height s; saw_ihdr := saw_ihdr s;
                   saw_idat := saw_idat s; saw_iend := true |};;
      if negb (bytes_checked s =? file_size) then corrupt_now trailing_bytes_after_iend
      else mret tt
  else mret tt.

Definition complete_png_probe (s : PngProbeState) : PngProbeResult :=
  if negb (saw_ihdr s) then probe_result s corrupt missing_ihdr true
  else if negb (saw_idat s) then probe_result s corrupt missing_idat true
  else if negb (saw_iend s) then probe_result s corrupt missing_iend true
  else probe_result s valid structure_and_crc_valid true.

(** The [while state.bytes_checked < file_size] loop, [break] at IEND. *)
Fixpoint chunk_loop (fuel : nat) (file_size : Z) : M (option unit) :=
  s ← get_probe;
  if file_size <=? bytes_checked s then mret (Some tt) else
  match fuel with
  | O => mret None
  | S fuel' =>
      if MAX_PNG_CHUNKS <=? chunks_checked s
      then throw (probe_result s inconclusive probe_chunk_limit true)
      else
        chunk ← read_png_chunk file_size;
        match chunk with
        | None => mret None
        | Some ch =>
            record_png_chunk ch file_size;;
            s' ← get_probe;
            if saw_iend s' then mret (Some tt) else chunk_loop fuel' file_size
        end
  end.

Definition probe_body (file_size : Z) : M (option PngProbeResult) :=
  signature ← read_exact 8;
  add_bytes (match signature with Some s => zlen s | None => 0 end);;
  if negb (bool_decide (signature = Some PNG_SIGNATURE)) then corrupt_now invalid_signature
  else
    c ← get_state;
    finished ← chunk_loop (S (length (stream c))) file_size;
    s ← get_probe;
    mret ((λ _, complete_png_probe s) <$> finished).

(** [probe_png_structure(path)] for a file whose [stat] size is [file_size] and
    whose content is [data]; [None] would be a loop that does not end. *)
Definition probe_png_structure (file_size : Z) (data : list byte) : option PngProbeResult :=
  if MAX_PNG_PROBE_BYTES <? file_size then
    Some {| status := inconclusive; reason_code := probe_byte_limit; result_bytes := 0;
            result_chunks := 0; result_width := None; result_height := None |}
  else
    match probe_body file_size {| stream := data; state := fresh_state |} with
    | (_, Ok r) => r
    | (_, Err r) => Some r
    end.

(** ** CRC-32 is a 32-bit value and composes over concatenation *)

Definition word32 (z : Z) : Prop := 0 <= z < 2 ^ 32.

Lemma lxor_word32 a b : word32 a → word32 b → word32 (Z.lxor a b).
Proof.
  unfold word32. intros Ha Hb.
  assert (0 <= Z.lxor a b) as Hn by (rewrite Z.lxor_nonneg; lia).
  split; [done|].
  destruct (decide (Z.lxor a b = 0)) as [->|]; [done|].
  apply Z.log2_lt_pow2; [lia|].
  eapply Z.le_lt_trans; [apply Z.log2_lxor; lia|].
  apply Z.max_lub_lt.
  - destruct (decide (a = 0)) as [->|]; [done|]. apply Z.log2_lt_pow2; lia.
  - destruct (decide (b = 0)) as [->|]; [done|]. apply Z.log2_lt_pow2; lia.
Qed.

Lemma crc_bit_word32 c : word32 c → word32 (crc_bit c).
Proof.
  intros Hc. assert (word32 (Z.shiftr c 1)) as Hs.
  { rewrite Z.shiftr_div_pow2 by done. unfold word32 in *.
    split; [apply Z.div_pos; lia|]. apply Z.div_lt_upper_bound; lia. }
  unfold crc_bit. destruct (Z.odd c); [|done]. by apply lxor_word32.
Qed.

Lemma crc_bytes_word32 data : ∀ c, word32 c → word32 (foldl crc_byte c data).
Proof.
  induction data as [|b data IH]; intros c Hc; [done|]. cbn [foldl]. apply IH.
  unfold crc_byte. pose proof (b2z_bounds b).
  assert (word32 (Z.lxor c (b2z b))) as Hx by (apply lxor_word32; [done|]; unfold word32; lia).
  generalize dependent (Z.lxor c (b2z b)). generalize 8%nat. clear.
  induction n as [|n IH]; intros z Hz; [done|]. cbn. by apply crc_bit_word32, IH.
Qed.

Lemma crc32_from_word32 v data : word32 v → word32 (crc32_from v data).
Proof.
  intros Hv. unfold crc32_from.
  apply lxor_word32; [apply crc_bytes_word32, lxor_word32|]; done.
Qed.

Lemma crc32_from_app v a b : crc32_from v (a ++ b) = crc32_from (crc32_from v a) b.
Proof.
  unfold crc32_from. rewrite foldl_app, Z.lxor_assoc, Z.lxor_nilpotent, Z.lxor_0_r. done.
Qed.

Lemma crc32_from_nil v : crc32_from v [] = v.
Proof.
  unfold crc32_from. cbn [foldl]. by rewrite Z.lxor_assoc, Z.lxor_nilpotent, Z.lxor_0_r.
Qed.

Lemma crc32_app a b : crc32 (a ++ b) = crc32_from (crc32 a) b.
Proof. apply crc32_from_app. Qed.

Lemma crc32_masked data : Z.land (crc32 data) CRC_MASK = crc32 data.
Proof.
  change CRC_MASK with (Z.ones 32). rewrite Z.land_ones by done.
  apply Z.mod_small. by apply crc32_from_word32.
Qed.

(** ** What the reading steps do *)

Abbreviation at_ d s := {| stream := d; state := s |}.

Lemma plus_bytes_0 s : plus_bytes 0 s = s.
Proof. destruct s. unfold plus_bytes. cbn. by rewrite Z.add_0_r. Qed.

Lemma plus_bytes_plus a b s : plus_bytes a (plus_bytes b s) = plus_bytes (b + a) s.
Proof. unfold plus_bytes. cbn. f_equal. lia. Qed.

Lemma read_exact_eq n d s :
  read_exact n (at_ d s) =
    (at_ (drop (Z.to_nat n) d) s,
     Ok (if zlen (take (Z.to_nat n) d) =? n then Some (take (Z.to_nat n) d) else None)).
Proof. done. Qed.

Lemma add_bytes_eq n d s : add_bytes n (at_ d s) = (at_ d (plus_bytes n s), Ok tt).
Proof. done. Qed.

Lemma zlen_take n (d : list byte) : 0 <= n → zlen (take (Z.to_nat n) d) = Z.min n (zlen d).
Proof. intros Hn. rewrite length_take. lia. Qed.

(** The payload loop reads exactly [remaining] bytes, whatever the block size,
    and stops with a result when the file ends before that. *)
Lemma payload_loop_eq fuel : ∀ remaining crc ihdr d s,
  0 <= remaining → (length d < fuel)%nat →
  payload_loop fuel remaining crc ihdr (at_ d s) =
    let data := take (Z.to_nat remaining) d in
    if remaining <=? zlen d then
      (at_ (drop (Z.to_nat remaining) d) (plus_bytes remaining s),
       Ok (Some (crc32_from crc data, (λ p, p ++ data) <$> ihdr)))
    else
      let s' := plus_bytes (zlen d) s in
      (at_ [] s', Err (probe_result s' corrupt truncated_chunk_data true)).
Proof.
  induction fuel as [|fuel IH]; intros remaining crc ihdr d s Hr Hf; [lia|].
  cbn [payload_loop]. destruct (remaining =? 0) eqn:H0; bool_prop.
  { subst. change (Z.to_nat 0) with 0%nat. rewrite take_0, drop_0. cbn.
    assert ((0 <=? zlen d) = true) as -> by lia. rewrite crc32_from_nil, plus_bytes_0.
    destruct ihdr; cbn; by rewrite ?app_nil_r. }
  set (k := Z.min remaining PNG_READ_CHUNK_BYTES).
  assert (0 < k <= remaining) by (subst k; unfold PNG_READ_CHUNK_BYTES; lia).
  rewrite stm_bind_eq. cbn [read get_state]. unfold read. rewrite get_bind, put_bind.
  cbn [stream state]. unfold mret at 1, stm_ret at 1.
  destruct (take (Z.to_nat k) d) as [|b0 block'] eqn:Hb.
  { assert (d = []) as ->.
    { destruct d; [done|]. destruct (Z.to_nat k) eqn:?; [lia|done]. }
    rewrite drop_nil, take_nil. assert ((remaining <=? zlen (@nil byte)) = false) as ->
      by (apply Z.leb_gt; change (zlen (@nil byte)) with 0; lia).
    cbn. by rewrite plus_bytes_0. }
  rewrite <- Hb. assert (0 < zlen (take (Z.to_nat k) d)) as Hpos by (rewrite Hb; cbn; lia).
  rewrite zlen_take in * by lia. set (m := Z.min k (zlen d)) in *.
  assert (m <= k ∧ m <= zlen d) as Hm by (subst m; lia).
  assert (take (Z.to_nat k) d = take (Z.to_nat m) d ∧ drop (Z.to_nat k) d = drop (Z.to_nat m) d)
    as [-> ->].
  { destruct (decide (k <= zlen d)); [by replace m with k by lia|].
    split; [rewrite !take_ge by lia|rewrite !drop_ge by lia]; done. }
  rewrite stm_bind_eq, add_bytes_eq. cbv beta iota zeta.
  rewrite IH by (rewrite ?length_drop; lia). cbv zeta.
  rewrite length_drop.
  rewrite plus_bytes_plus. destruct (remaining <=? zlen d) eqn:Hle; bool_prop;
    [rewrite (proj2 (Z.leb_le _ _)) by lia|rewrite (proj2 (Z.leb_gt _ _)) by lia].
  - assert (take (Z.to_nat remaining) d =
            take (Z.to_nat m) d ++ take (Z.to_nat (remaining - m)) (drop (Z.to_nat m) d)) as ->.
    { rewrite take_drop_commute, <- (take_drop (Z.to_nat m) (take (Z.to_nat remaining) d)).
      rewrite take_take. f_equal; f_equal; [f_equal|f_equal]; lia. }
    replace (m + (remaining - m)) with remaining by lia.
    rewrite crc32_from_app, drop_drop.
    replace (Z.to_nat m + Z.to_nat (remaining - m))%nat with (Z.to_nat remaining) by lia.
    destruct ihdr; cbn; by rewrite ?app_assoc.
  - rewrite plus_bytes_plus.
    by replace (m + Z.of_nat (length d - Z.to_nat m)) with (zlen d) by lia.
Qed.

(** ** Well-formed files *)

(** A chunk is its type and its payload. *)
Definition encode_chunk (c : list byte * list byte) : list byte :=
  to_be 4 (zlen c.2) ++ c.1 ++ c.2 ++ to_be 4 (crc32 (c.1 ++ c.2)).

Definition serialize (chunks : list (list byte * list byte)) : list byte :=
  chunks ≫= encode_chunk.

#[global] Arguments encode_chunk : simpl never.
#[global] Arguments serialize : simpl never.

Definition wf_chunk (c : list byte * list byte) : Prop :=
  length c.1 = 4%nat ∧ forallb is_letter c.1 = true ∧ zlen c.2 < 2 ^ 32.

(** IHDR first and once, then chunks of other kinds with an IDAT among them,
    and an empty IEND last. *)
Definition wf_png (w h : Z) (chunks : list (list byte * list byte)) : Prop :=
  Forall wf_chunk chunks ∧
  ∃ header middle, chunks = (IHDR, header) :: middle ++ [(IEND, [])] ∧
    valid_ihdr header = Some (w, h) ∧
    Forall (λ c, c.1 ≠ IHDR ∧ c.1 ≠ IEND) middle ∧ IDAT ∈ middle.*1.

Lemma encode_chunk_length c : wf_chunk c → zlen (encode_chunk c) = 12 + zlen c.2.
Proof.
  intros (Hk&_&Hl). unfold encode_chunk. rewrite !length_app, Hk.
  rewrite (proj1 (to_be_spec 4 (zlen c.2) ltac:(lia) ltac:(lia))).
  rewrite (proj1 (to_be_spec 4 (crc32 (c.1 ++ c.2))
    ltac:(by apply crc32_from_word32) ltac:(lia))). lia.
Qed.


Lemma get_probe_bind {A} (f : PngProbeState → M A) d s :
  (get_probe ≫= f) (at_ d s) = f s (at_ d s).
Proof. done. Qed.

Lemma corrupt_now_not_ok {A} r d s c (a : A) : corrupt_now r (at_ d s) ≠ (c, Ok a).
Proof. done. Qed.

Lemma corrupt_without_not_ok {A} r d s c (a : A) :
  corrupt_without_dimensions r (at_ d s) ≠ (c, Ok a).
Proof. done. Qed.

(** An exact read of [n > 0] bytes. *)
Lemma read_exact_iff n d s c o :
  0 <= n → read_exact n (at_ d s) = (c, Ok (Some o)) ↔
  d = o ++ stream c ∧ zlen o = n ∧ state c = s.
Proof.
  intros Hn. rewrite read_exact_eq, zlen_take by done. split.
  - destruct (Z.min n (zlen d) =? n) eqn:H; [|done]. bool_prop. intros [= <- <-]. cbn.
    rewrite take_drop. split; [done|]. split; [|done]. rewrite zlen_take; lia.
  - intros (->&<-&<-). rewrite Nat2Z.id, take_app_length, drop_app_length, length_app.
    assert ((Z.min (zlen o) (Z.of_nat (length o + length (stream c))) =? zlen o) = true) as ->
      by (apply Z.eqb_eq; lia). by destruct c.
Qed.

Lemma read_header_iff f d s c len t :
  read_png_chunk_header f (at_ d s) = (c, Ok (len, t)) ↔
  d = to_be 4 len ++ t ++ stream c ∧ length t = 4%nat ∧ forallb is_letter t = true ∧
  0 <= len < 2 ^ 32 ∧ len <= f - (bytes_checked s + 8) - 4 ∧ state c = plus_bytes 8 s.
Proof.
  unfold read_png_chunk_header. rewrite stm_bind_eq.
  destruct (read_exact 8 (at_ d s)) as [[d' s'] [[h|]|e]] eqn:Hr.
  - apply read_exact_iff in Hr as (->&Hl&Hs); [|done]. cbn [stream state] in *. subst s'.
    rewrite stm_bind_eq, add_bytes_eq. cbv beta iota zeta.
    set (t' := drop 4 h). set (l' := take 4 h).
    assert (h = l' ++ t') as Hh by (symmetry; apply take_drop).
    assert (length l' = 4%nat ∧ length t' = 4%nat) as [Hl' Ht']
      by (subst l' t'; rewrite length_take, length_drop; lia).
    pose proof (be_int_bounds l') as Hb. rewrite Hl' in Hb. change (256 ^ Z.of_nat 4) with (2 ^ 32) in Hb.
    rewrite Hh at 1. clearbody t' l'. clear Hh Hl h. split.
    + destruct (forallb is_letter t') eqn:Hle; [|done]. cbn [negb].
      rewrite get_probe_bind. cbn [bytes_checked plus_bytes].
      destruct (_ <? be_int l') eqn:Hlen; [done|]. bool_prop. intros [= <- <- <-].
      cbn [stream state]. rewrite <- app_assoc. split.
      * f_equal. rewrite <- Hl'. symmetry. apply to_be_be_int. lia.
      * unfold plus_bytes in Hlen. cbn in Hlen. repeat split; try done; lia.
    + intros (Hd&Ht&Hle&Hbound&Hlen&Hs).
      rewrite <- app_assoc in Hd.
      destruct (to_be_spec 4 len ltac:(lia) ltac:(lia)) as [Hwl Hwv].
      apply app_inj_1 in Hd as [Hl1 Hd]; [|by rewrite Hl', Hwl].
      apply app_inj_1 in Hd as [-> Hd]; [|by rewrite Ht', Ht].
      rewrite Hl1, Hwv, Hle. cbn [negb]. rewrite get_probe_bind.
      assert ((f - bytes_checked (plus_bytes 8 s) - 4 <? len) = false) as ->
        by (apply Z.ltb_ge; unfold plus_bytes; cbn; lia).
      destruct c as [cd cs]. cbn in Hd, Hs. by subst.
  - split; [done|]. intros (->&Ht&_&Hb&_).
    exfalso. destruct (to_be_spec 4 len ltac:(lia) ltac:(lia)) as [Hwl Hwv].
    assert (read_exact 8 (at_ (to_be 4 len ++ t ++ stream c) s) =
            (at_ (stream c) s, Ok (Some (to_be 4 len ++ t)))) as Hc.
    { apply read_exact_iff; [done|]. cbn.
      split; [by rewrite app_assoc|]. split; [rewrite length_app; lia|done]. }
    congruence.
  - by rewrite read_exact_eq in Hr.
Qed.

(** Reading one chunk succeeds exactly on the encoding of that chunk with
    enough of the file left; the loop inside always ends. *)
Definition chunk_read (f : Z) (d : list byte) (s : PngProbeState) (c : cursor)
    (o : option PngChunk) : Prop :=
  ∃ k payload, wf_chunk (k, payload) ∧ d = encode_chunk (k, payload) ++ stream c ∧
    bytes_checked s + 12 + zlen payload <= f ∧
    state c = plus_chunk (plus_bytes (12 + zlen payload) s) ∧
    o = Some {| kind := k; chunk_length := zlen payload;
                ihdr_payload := if decide (k = IHDR) then Some payload else None |}.

Lemma read_png_chunk_sound f d s c o :
  read_png_chunk f (at_ d s) = (c, Ok o) → chunk_read f d s c o.
Proof.
  unfold read_png_chunk. rewrite stm_bind_eq.
  destruct (read_png_chunk_header f (at_ d s)) as [[d1 s1] [[len t]|]] eqn:Hh; [|done].
  apply read_header_iff in Hh as (->&Ht&Hle&Hb&Hlen&Hs). cbn [stream state] in *. subst s1.
  rewrite stm_bind_eq. unfold read_png_chunk_payload. rewrite get_bind. cbn [stream].
  rewrite payload_loop_eq by lia. cbv zeta.
  destruct (len <=? zlen d1) eqn:Hd1; [|done]. bool_prop.
  pose proof (zlen_take len d1 ltac:(lia)) as Hpl. rewrite Z.min_l in Hpl by lia.
  pose proof (take_drop (Z.to_nat len) d1) as Hd.
  set (payload := take (Z.to_nat len) d1) in *. clearbody payload.
  rewrite stm_bind_eq.
  destruct (read_exact 4 _) as [[d2 s2] [[crc|]|]] eqn:Hr; [|done|by rewrite read_exact_eq in Hr].
  apply read_exact_iff in Hr as (Hd2&Hcl&Hs2); [|done]. cbn [stream state] in *. subst s2.
  rewrite stm_bind_eq, add_bytes_eq. cbv beta iota zeta.
  rewrite <- crc32_app, crc32_masked.
  destruct (negb _) eqn:Hcrc; [done|]. bool_prop. intros [= <- <-].
  exists t, payload. cbn [stream state fst snd]. split; [split; [done|split; [done|]]; cbn; lia|].
  split; [|split; [lia|split]].
  - unfold encode_chunk. cbn [fst snd]. rewrite Hpl, <- !app_assoc, <- Hcrc. do 2 f_equal.
    replace 4%nat with (length crc) by lia. rewrite to_be_be_int by lia. congruence.
  - rewrite !plus_bytes_plus. do 2 f_equal. lia.
  - rewrite Hpl. by destruct (decide (t = IHDR)).
Qed.

Lemma read_png_chunk_complete f d s c o :
  chunk_read f d s c o → read_png_chunk f (at_ d s) = (c, Ok o).
Proof.
  intros (k&payload&(Hk&Hl&Hn)&->&Hf&Hs&->). cbn in Hk, Hl, Hn.
  unfold read_png_chunk, encode_chunk. cbn [fst snd]. rewrite stm_bind_eq.
  set (tail := to_be 4 (crc32 (k ++ payload)) ++ stream c).
  assert (∀ x, x = (to_be 4 (zlen payload) ++ k ++ payload ++
      to_be 4 (crc32 (k ++ payload))) ++ stream c →
    read_png_chunk_header f (at_ x s)
    = (at_ (payload ++ tail) (plus_bytes 8 s), Ok (zlen payload, k))) as Hhead.
  { intros x ->. apply read_header_iff. cbn [stream state]. subst tail.
    rewrite <- !app_assoc. split; [done|]. split; [done|]. split; [done|].
    split; [lia|]. split; [lia|done]. }
  rewrite (Hhead _ eq_refl).
  rewrite stm_bind_eq. unfold read_png_chunk_payload. rewrite get_bind. cbn [stream].
  rewrite payload_loop_eq by lia. cbv zeta.
  rewrite (proj2 (Z.leb_le _ _)) by (rewrite length_app; lia).
  rewrite Nat2Z.id, take_app_length, drop_app_length.
  destruct (to_be_spec 4 (crc32 (k ++ payload)) ltac:(by apply crc32_from_word32) ltac:(lia))
    as [Hcl Hcv].
  rewrite stm_bind_eq.
  assert (∀ s0, read_exact 4 (at_ tail s0) =
    (at_ (stream c) s0, Ok (Some (to_be 4 (crc32 (k ++ payload)))))) as ->.
  { intros s0. apply read_exact_iff; [done|]. cbn [stream state]. rewrite Hcl. done. }
  rewrite stm_bind_eq, add_bytes_eq. cbv beta iota zeta.
  rewrite Hcv, <- crc32_app, crc32_masked, Z.eqb_refl. cbn [negb].
  assert (plus_bytes 4 (plus_bytes (zlen payload) (plus_bytes 8 s)) =
          plus_bytes (12 + zlen payload) s) as ->.
  { rewrite !plus_bytes_plus. f_equal. lia. }
  destruct c as [cd cs]. cbn in Hs. subst cs. by destruct (decide (k = IHDR)).
Qed.

(** ** The chunk loop *)

Definition with_idat (b : bool) (s : PngProbeState) : PngProbeState :=
  {| bytes_checked := bytes_checked s; chunks_checked := chunks_checked s;
     width := width s; height := height s; saw_ihdr := saw_ihdr s;
     saw_idat := saw_idat s || b; saw_iend := saw_iend s |}.

(** The state after one chunk that is neither IHDR nor IEND. *)
Definition after_chunk (k payload : list byte) (s : PngProbeState) : PngProbeState :=
  with_idat (bool_decide (k = IDAT)) (plus_chunk (plus_bytes (12 + zlen payload) s)).

(** The state in which IEND ends the loop. *)
Definition ended (f n : Z) (idat : bool) (s : PngProbeState) : PngProbeState :=
  {| bytes_checked := f; chunks_checked := chunks_checked s + n + 1;
     width := width s; height := height s; saw_ihdr := saw_ihdr s;
     saw_idat := saw_idat s || idat; saw_iend := true |}.

Definition header_seen (s : PngProbeState) : Prop :=
  saw_ihdr s = true ∧ 1 <= chunks_checked s ∧ saw_iend s = false.

Lemma after_chunk_header_seen k p s : header_seen s → header_seen (after_chunk k p s).
Proof.
  intros (?&?&?). unfold header_seen, after_chunk, with_idat. cbn. split; [done|].
  split; [lia|done].
Qed.

Lemma kinds_differ : IHDR ≠ IDAT ∧ IHDR ≠ IEND ∧ IDAT ≠ IEND.
Proof. by vm_compute. Qed.

Lemma with_idat_false s : with_idat false s = s.
Proof. destruct s. unfold with_idat. cbn. by rewrite orb_false_r. Qed.

(** What recording a chunk does once the header has been seen. *)
Lemma record_after_header f k l o d s c :
  saw_ihdr s = true → 2 <= chunks_checked s →
  record_png_chunk {| kind := k; chunk_length := l; ihdr_payload := o |} f (at_ d s) = (c, Ok tt) ↔
  (k ≠ IHDR ∧ k ≠ IEND ∧ c = at_ d (with_idat (bool_decide (k = IDAT)) s)) ∨
  (k = IEND ∧ l = 0 ∧ bytes_checked s = f ∧
   c = at_ d {| bytes_checked := f; chunks_checked := chunks_checked s;
                width := width s; height := height s; saw_ihdr := saw_ihdr s;
                saw_idat := saw_idat s; saw_iend := true |}).
Proof.
  destruct kinds_differ as (Hne1&Hne2&Hne3). intros Hs Hc. unfold record_png_chunk.
  rewrite get_probe_bind. cbn [kind chunk_length ihdr_payload].
  rewrite (proj2 (Z.eqb_neq _ _)) by lia. cbn [andb]. rewrite Hs.
  destruct (decide (k = IHDR)) as [->|Hk].
  { split; [done|]. intros [(?&_)|(?&_)]; done. }
  destruct (decide (k = IDAT)) as [->|Hk2].
  { rewrite bool_decide_eq_true_2 by done. split.
    - intros [= <-]. left. split; [done|]. split; [done|]. unfold with_idat. cbn.
      by rewrite orb_true_r, ?Hs.
    - intros [(_&_&->)|(?&_)]; [|done]. unfold with_idat. cbn. by rewrite orb_true_r, ?Hs. }
  rewrite bool_decide_eq_false_2, with_idat_false by done.
  destruct (decide (k = IEND)) as [->|Hk3].
  - destruct (negb (l =? 0)) eqn:Hl; bool_prop.
    { split; [done|]. intros [(_&?&_)|(_&?&_)]; done. }
    rewrite stm_bind_eq. cbn [set_probe modify stream state].
    destruct (negb (bytes_checked s =? f)) eqn:Hf; bool_prop.
    { split; [done|]. intros [(_&?&_)|(_&_&?&_)]; done. }
    split; [intros [= <-]|intros [(_&?&_)|(_&_&_&->)]; [done|]].
    + right. by rewrite <- Hf.
    + by rewrite <- Hf.
  - split; [intros [= <-]; by left|]. intros [(_&_&->)|(?&_)]; done.
Qed.

Definition rest_read (f : Z) (s : PngProbeState) (d : list byte) (c : cursor)
    (middle : list (list byte * list byte)) : Prop :=
  d = serialize (middle ++ [(IEND, [])]) ++ stream c ∧
  Forall wf_chunk middle ∧ Forall (λ c, c.1 ≠ IHDR ∧ c.1 ≠ IEND) middle ∧
  bytes_checked s + zlen (serialize (middle ++ [(IEND, [])])) = f ∧
  chunks_checked s + zlen middle < MAX_PNG_CHUNKS ∧
  state c = ended f (zlen middle) (bool_decide (IDAT ∈ middle.*1)) s.

Lemma wf_iend : wf_chunk (IEND, []).
Proof. by vm_compute. Qed.

Lemma serialize_iend : serialize [(IEND, [])] = encode_chunk (IEND, []).
Proof. apply app_nil_r. Qed.

Lemma serialize_cons c cs : serialize (c :: cs) = encode_chunk c ++ serialize cs.
Proof. done. Qed.

Lemma ended_after f k p n idat s :
  ended f n idat (after_chunk k p s) =
  ended f (n + 1) (bool_decide (k = IDAT) || idat) s.
Proof.
  unfold ended, after_chunk, with_idat. cbn. rewrite orb_assoc. f_equal. lia.
Qed.

Lemma rest_read_cons f k p s d c middle :
  wf_chunk (k, p) → k ≠ IHDR → k ≠ IEND →
  rest_read f s (encode_chunk (k, p) ++ d) c ((k, p) :: middle) ↔
  rest_read f (after_chunk k p s) d c middle.
Proof.
  intros Hw H1 H2. unfold rest_read. cbn [app]. rewrite serialize_cons, <- app_assoc.
  rewrite !Forall_cons. rewrite length_app, Nat2Z.inj_add, (encode_chunk_length _ Hw).
  rewrite ended_after. cbn [fst snd after_chunk with_idat plus_chunk plus_bytes bytes_checked
    chunks_checked fmap list_fmap length].
  rewrite Nat2Z.inj_succ, <- Z.add_1_r.
  replace (bool_decide (IDAT ∈ k :: middle.*1)) with
    (bool_decide (k = IDAT) || bool_decide (IDAT ∈ middle.*1)).
  - split; intros (He&Hf&Hk&Hb&Hc&Hs).
    + refine (conj _ (conj (proj2 Hf) (conj (proj2 Hk) (conj _ (conj _ Hs))))); [|lia|lia].
      by apply app_inv_head in He.
    + refine (conj _ (conj (conj Hw Hf) (conj (conj (conj H1 H2) Hk)
        (conj _ (conj _ Hs))))); [by rewrite He|lia|lia].
  - rewrite <- bool_decide_or. apply bool_decide_ext. rewrite elem_of_cons. naive_solver.
Qed.

Lemma chunk_loop_S fuel f d s :
  chunk_loop (S fuel) f (at_ d s) =
    if f <=? bytes_checked s then (at_ d s, Ok (Some tt))
    else if MAX_PNG_CHUNKS <=? chunks_checked s
    then (at_ d s, Err (probe_result s inconclusive probe_chunk_limit true))
    else match read_png_chunk f (at_ d s) with
         | (c, Ok None) => (c, Ok None)
         | (c, Ok (Some ch)) =>
             match record_png_chunk ch f c with
             | (c', Ok _) =>
                 if saw_iend (state c') then (c', Ok (Some tt)) else chunk_loop fuel f c'
             | (c', Err e) => (c', Err e)
             end
         | (c, Err e) => (c, Err e)
         end.
Proof.
  cbn [chunk_loop]. rewrite get_probe_bind.
  destruct (f <=? bytes_checked s); [done|]. destruct (MAX_PNG_CHUNKS <=? _); [done|].
  rewrite stm_bind_eq. destruct (read_png_chunk f (at_ d s)) as [c [[ch|]|]]; try done.
  rewrite stm_bind_eq. destruct (record_png_chunk ch f c) as [[d' s'] [u|]]; [|done].
  rewrite get_probe_bind. cbn [state]. by destruct (saw_iend s').
Qed.

Lemma chunk_shortens k p (d : list byte) :
  wf_chunk (k, p) → (length d < length (encode_chunk (k, p) ++ d))%nat.
Proof.
  intros Hw. pose proof (encode_chunk_length _ Hw). rewrite length_app. lia.
Qed.

Lemma chunk_loop_sound f fuel : ∀ d s c o,
  header_seen s → (length d < fuel)%nat →
  chunk_loop fuel f (at_ d s) = (c, Ok o) →
  o = Some tt ∧ (saw_iend (state c) = true → ∃ middle, rest_read f s d c middle).
Proof.
  induction fuel as [|fuel IH]; intros d s c o Hh Hfuel; [lia|].
  rewrite chunk_loop_S. destruct (f <=? bytes_checked s) eqn:Hf; bool_prop.
  { intros [= <- <-]. split; [done|]. destruct Hh as (_&_&Hi). cbn. by rewrite Hi. }
  destruct (MAX_PNG_CHUNKS <=? chunks_checked s) eqn:Hn; bool_prop; [done|].
  destruct (read_png_chunk f (at_ d s)) as [c1 [o1|]] eqn:Hr; [|done].
  apply read_png_chunk_sound in Hr as (k&p&Hw&->&Hlen&Hs1&->).
  destruct c1 as [d1 s1]. cbn [stream state] in *. subst s1.
  pose proof (chunk_shortens k p d1 Hw). destruct (Hh) as (Hih&Hch&Hie).
  destruct (record_png_chunk _ f _) as [c2 [[]|]] eqn:Hrec; [|done].
  apply record_after_header in Hrec as [(H1&H2&->)|(->&Hl&Hb&->)]; cbn; try done; try lia.
  - rewrite Hie. intros Hrun. apply IH in Hrun as [-> Hrest];
      [|by apply (after_chunk_header_seen k p)|lia].
    split; [done|]. intros Hend. destruct (Hrest Hend) as [middle Hm].
    exists ((k, p) :: middle). by apply rest_read_cons.
  - intros [= <- <-]. split; [done|]. intros _. exists []. cbn in Hb.
    assert (p = []) as -> by (destruct p; cbn in Hl; [done|lia]).
    assert (zlen (serialize [(IEND, [])]) = 12) as Hz
      by (rewrite serialize_iend; apply (encode_chunk_length _ wf_iend)).
    unfold rest_read. cbn [app]. rewrite Hz, serialize_iend. cbn [length fmap list_fmap stream].
    rewrite bool_decide_eq_false_2 by apply not_elem_of_nil.
    refine (conj eq_refl (conj (Forall_nil_2 _) (conj (Forall_nil_2 _) (conj _ (conj _ _)))));
      [cbn in Hb; lia|lia|].
    unfold ended. cbn. by rewrite orb_false_r, Z.add_0_r.
Qed.

Lemma serialize_iend_pos middle : 12 <= zlen (serialize (middle ++ [(IEND, [])])).
Proof.
  unfold serialize. rewrite bind_app, length_app.
  fold (serialize [(IEND, [])]). rewrite serialize_iend, Nat2Z.inj_add.
  rewrite (encode_chunk_length _ wf_iend). cbn [snd length]. lia.
Qed.

Lemma rest_read_guards f s d c middle :
  rest_read f s d c middle →
  (f <=? bytes_checked s) = false ∧ (MAX_PNG_CHUNKS <=? chunks_checked s) = false.
Proof.
  intros (_&_&_&Hb&Hc&_). pose proof (serialize_iend_pos middle).
  rewrite !Z.leb_gt. lia.
Qed.

Lemma chunk_loop_complete f middle : ∀ fuel d s c,
  header_seen s → (length middle < fuel)%nat → rest_read f s d c middle →
  chunk_loop fuel f (at_ d s) = (c, Ok (Some tt)).
Proof.
  induction middle as [|[k p] middle IH]; intros [|fuel] d s c Hh Hfuel Hrest; cbn in Hfuel;
    try lia; rewrite chunk_loop_S; destruct (Hrest) as (Hd&Hf&Hk&Hb&Hc&Hs);
    destruct (rest_read_guards _ _ _ _ _ Hrest) as [-> ->]; destruct (Hh) as (Hih&Hch&Hie).
  - cbn [app] in Hd, Hb. rewrite serialize_iend in Hd, Hb.
    pose proof (encode_chunk_length _ wf_iend) as Hz. cbn [snd length] in Hz.
    change (12 + Z.of_nat 0) with 12 in Hz.
    rewrite (read_png_chunk_complete f d s (at_ (stream c) (plus_chunk (plus_bytes 12 s)))
      (Some {| kind := IEND; chunk_length := 0; ihdr_payload := None |})).
    + assert (record_png_chunk {| kind := IEND; chunk_length := 0; ihdr_payload := None |} f
        (at_ (stream c) (plus_chunk (plus_bytes 12 s))) = (c, Ok tt)) as ->; [|by rewrite Hs].
      apply record_after_header; [done|cbn; lia|]. right.
      rewrite Hz in Hb.
      split; [done|]. split; [done|]. split; [done|].
      destruct c as [cd cs]. cbn in Hs |- *. rewrite Hs. unfold ended. cbn.
      by rewrite orb_false_r, Z.add_0_r.
    + exists IEND, []. split; [apply wf_iend|]. split; [exact Hd|].
      rewrite Hz in Hb. split; [cbn; lia|]. split; [done|].
      rewrite decide_False; [done|]. apply not_eq_sym, kinds_differ.
  - cbn [app] in Hd. rewrite serialize_cons, <- app_assoc in Hd.
    apply Forall_cons in Hf as [Hw _]. apply Forall_cons in Hk as [[H1 H2] _]. cbn in H1, H2.
    set (d1 := serialize (middle ++ [(IEND, [])]) ++ stream c) in *.
    rewrite (read_png_chunk_complete f d s (at_ d1 (plus_chunk (plus_bytes (12 + zlen p) s)))
      (Some {| kind := k; chunk_length := zlen p; ihdr_payload := None |})).
    + assert (record_png_chunk {| kind := k; chunk_length := zlen p; ihdr_payload := None |} f
        (at_ d1 (plus_chunk (plus_bytes (12 + zlen p) s))) =
        (at_ d1 (after_chunk k p s), Ok tt)) as ->.
      { apply record_after_header; [done|cbn; lia|]. by left. }
      destruct (after_chunk_header_seen k p s Hh) as (_&_&Hie'). cbn [state]. rewrite Hie'.
      apply IH; [by apply after_chunk_header_seen|lia|].
      rewrite Hd in Hrest. by apply (rest_read_cons f k p s d1 c middle Hw H1 H2).
    + exists k, p. cbn [stream state]. rewrite decide_False by done. split; [done|].
      split; [done|]. split; [|done].
      cbn [app] in Hb. rewrite serialize_cons, length_app, Nat2Z.inj_add,
        (encode_chunk_length _ Hw) in Hb. cbn [snd] in Hb. lia.
Qed.

(** ** The whole probe *)

Definition with_header (w h : Z) (s : PngProbeState) : PngProbeState :=
  {| bytes_checked := bytes_checked s; chunks_checked := chunks_checked s;
     width := Some w; height := Some h; saw_ihdr := true;
     saw_idat := saw_idat s; saw_iend := saw_iend s |}.

Lemma record_first f k l o d s c :
  saw_ihdr s = false → chunks_checked s = 1 →
  record_png_chunk {| kind := k; chunk_length := l; ihdr_payload := o |} f (at_ d s) = (c, Ok tt) ↔
  ∃ p w h, k = IHDR ∧ o = Some p ∧ valid_ihdr p = Some (w, h) ∧ c = at_ d (with_header w h s).
Proof.
  intros Hs Hc. unfold record_png_chunk. rewrite get_probe_bind.
  cbn [kind chunk_length ihdr_payload]. rewrite Hc, Hs. cbn [andb Z.eqb Pos.eqb].
  destruct (decide (k = IHDR)) as [->|Hk].
  - rewrite bool_decide_eq_true_2 by done. cbn [negb].
    destruct o as [p|]; [|split; [done|naive_solver]].
    destruct (valid_ihdr p) as [[w h]|] eqn:Hv; [|split; [done|naive_solver]].
    split; [intros [= <-]|intros (p'&w'&h'&_&[= <-]&Hv'&->)].
    + exists p, w, h. unfold with_header. by rewrite Hc.
    + rewrite Hv in Hv'. injection Hv' as <- <-. unfold with_header. by rewrite Hc.
  - rewrite bool_decide_eq_false_2 by done. split; [done|naive_solver].
Qed.

Lemma record_stream ch f d s c u : record_png_chunk ch f (at_ d s) = (c, Ok u) → stream c = d.
Proof.
  unfold record_png_chunk. rewrite get_probe_bind.
  repeat (case_match; try done); try (by intros [= <-]);
    rewrite stm_bind_eq; cbn [set_probe modify stream state];
    (case_match; [done|by intros [= <-]]).
Qed.

(** Enough fuel: every pass of the loop consumes a chunk of the file. *)
Lemma chunk_loop_ends f fuel : ∀ d s c o,
  (length d < fuel)%nat → chunk_loop fuel f (at_ d s) = (c, Ok o) → o = Some tt.
Proof.
  induction fuel as [|fuel IH]; intros d s c o Hfuel; [lia|]. rewrite chunk_loop_S.
  destruct (_ <=? _); [by intros [= <- <-]|]. destruct (_ <=? _); [done|].
  destruct (read_png_chunk f (at_ d s)) as [[d1 s1] [o1|]] eqn:Hr; [|done].
  apply read_png_chunk_sound in Hr as (k&p&Hw&->&_&_&->). cbn [stream] in *.
  pose proof (chunk_shortens k p d1 Hw).
  destruct (record_png_chunk _ f (at_ d1 s1)) as [[d2 s2] [u|]] eqn:Hrec; [|done].
  apply record_stream in Hrec as Hd2. cbn in Hd2. subst d2. cbn [state].
  destruct (saw_iend s2); [by intros [= <- <-]|]. intros Hrun. eapply IH, Hrun. lia.
Qed.

(** The probe of a file whose signature has been read. *)
Definition after_signature : PngProbeState := plus_bytes 8 fresh_state.

Definition finish (f : Z) (d : list byte) : option PngProbeResult :=
  match chunk_loop (S (length d)) f (at_ d after_signature) with
  | (c, Ok o) => (λ _, complete_png_probe (state c)) <$> o
  | (_, Err r) => Some r
  end.

Lemma probe_eq f data :
  f <= MAX_PNG_PROBE_BYTES →
  probe_png_structure f data =
    if decide (take 8 data = PNG_SIGNATURE) then finish f (drop 8 data)
    else Some (probe_result
      (plus_bytes (if zlen (take 8 data) =? 8 then 8 else 0) fresh_state)
      corrupt invalid_signature true).
Proof.
  intros Hf. unfold probe_png_structure. rewrite (proj2 (Z.ltb_ge _ _)) by done.
  unfold probe_body. rewrite stm_bind_eq, read_exact_eq. change (Z.to_nat 8) with 8%nat.
  rewrite stm_bind_eq, add_bytes_eq. cbv beta iota.
  destruct (zlen (take 8 data) =? 8) eqn:Hl; bool_prop.
  - rewrite Hl. destruct (decide (take 8 data = PNG_SIGNATURE)) as [->|Hs].
    + rewrite bool_decide_eq_true_2 by done. cbn [negb]. rewrite get_bind. cbn [stream].
      rewrite stm_bind_eq. unfold finish, after_signature.
      destruct (chunk_loop _ _ _) as [[d1 s1] [o|]]; [|done]. rewrite get_probe_bind. done.
    + rewrite bool_decide_eq_false_2; [done|congruence].
  - rewrite bool_decide_eq_false_2 by done. rewrite decide_False; [done|].
    intros Hs. rewrite Hs in Hl. done.
Qed.

(** The probe always ends with a result, whatever the file holds and
    whatever size was reported for it. *)
Theorem probe_terminates f data : is_Some (probe_png_structure f data).
Proof.
  destruct (decide (f <= MAX_PNG_PROBE_BYTES)) as [Hf|Hf].
  - rewrite probe_eq by done. destruct (decide _); [|done]. unfold finish.
    destruct (chunk_loop _ _ _) as [c [o|]] eqn:Hrun; [|done].
    apply chunk_loop_ends in Hrun as ->; [done|lia].
  - unfold probe_png_structure. by rewrite (proj2 (Z.ltb_lt _ _)) by lia.
Qed.

(** The loop's first pass reads IHDR; the others are [rest_read]. *)
Definition header_read (s : PngProbeState) (header : list byte) (w h : Z) : PngProbeState :=
  with_header w h (plus_chunk (plus_bytes (12 + zlen header) s)).

(** An early result is a corruption verdict or the chunk limit. *)
Definition early_result (r : PngProbeResult) : Prop :=
  status r = corrupt ∨
  (status r = inconclusive ∧ reason_code r = probe_chunk_limit ∧
   MAX_PNG_CHUNKS <= result_chunks r).

Lemma corrupt_now_early {A} r : raises_only early_result (corrupt_now r : M A).
Proof. intros [d s] s' e [= _ <-]. by left. Qed.

Lemma corrupt_without_early {A} r : raises_only early_result (corrupt_without_dimensions r : M A).
Proof. intros [d s] s' e [= _ <-]. by left. Qed.

Lemma read_early n : raises_only early_result (read n).
Proof. by intros [d s] s' e. Qed.

Lemma add_bytes_early n : raises_only early_result (add_bytes n).
Proof. by intros [d s] s' e. Qed.

Lemma add_chunk_early : raises_only early_result add_chunk.
Proof. by intros [d s] s' e. Qed.

Lemma get_probe_early : raises_only early_result get_probe.
Proof. by intros [d s] s' e. Qed.

Lemma set_probe_early s0 : raises_only early_result (set_probe s0).
Proof. by intros [d s] s' e. Qed.

#[local] Hint Resolve corrupt_now_early corrupt_without_early read_early add_bytes_early
  add_chunk_early get_probe_early set_probe_early : stm.

Ltac early :=
  repeat first
    [ solve [eauto with stm]
    | lazymatch goal with
      | |- raises_only _ (_ ≫= _) => apply raises_bind; [|intros ?]
      | |- raises_only _ (match ?x with _ => _ end) => destruct x
      end ].

Lemma read_png_chunk_early f : raises_only early_result (read_png_chunk f).
Proof.
  assert (∀ n, raises_only early_result (read_exact n)) as He.
  { intros n. unfold read_exact. early. }
  assert (∀ fuel len crc o, raises_only early_result (payload_loop fuel len crc o)) as Hp.
  { induction fuel as [|fuel IH]; intros len crc o; cbn [payload_loop]; early. }
  assert (raises_only early_result (read_png_chunk_header f)) as Hh.
  { unfold read_png_chunk_header. early. }
  assert (∀ k len, raises_only early_result (read_png_chunk_payload k len)) as Hq.
  { intros k len. unfold read_png_chunk_payload. early. }
  unfold read_png_chunk. early.
Qed.

Lemma record_png_chunk_early ch f : raises_only early_result (record_png_chunk ch f).
Proof. unfold record_png_chunk. early. Qed.

Lemma chunk_loop_early f fuel : ∀ d s c r,
  chunk_loop fuel f (at_ d s) = (c, Err r) → early_result r.
Proof.
  induction fuel as [|fuel IH]; intros d s c r.
  { cbn [chunk_loop]. rewrite get_probe_bind. by destruct (_ <=? _). }
  rewrite chunk_loop_S. destruct (_ <=? _); [done|].
  destruct (MAX_PNG_CHUNKS <=? _) eqn:Hn; bool_prop; [intros [= _ <-]; by right|].
  destruct (read_png_chunk f (at_ d s)) as [c1 [[ch|]|e]] eqn:Hr; [|done|].
  - destruct (record_png_chunk ch f c1) as [[d2 s2] [u|e]] eqn:Hrec.
    + destruct (saw_iend _); [done|]. apply IH.
    + intros [= _ <-]. by eapply record_png_chunk_early.
  - intros [= _ <-]. by eapply read_png_chunk_early.
Qed.

Lemma finish_valid f d r :
  finish f d = Some r → status r = valid →
  ∃ header w h d1 c middle, valid_ihdr header = Some (w, h) ∧ wf_chunk (IHDR, header) ∧
    d = encode_chunk (IHDR, header) ++ d1 ∧
    rest_read f (header_read after_signature header w h) d1 c middle ∧
    r = complete_png_probe (state c).
Proof.
  unfold finish. destruct (chunk_loop _ _ _) as [c [o|r']] eqn:Hrun.
  - apply chunk_loop_ends in Hrun as Ho; [|lia]. subst o. cbn. intros [= <-] Hv.
    assert (saw_ihdr (state c) = true ∧ saw_iend (state c) = true) as [Hih Hie].
    { unfold complete_png_probe in Hv. by destruct (saw_ihdr _), (saw_idat _), (saw_iend _). }
    rewrite chunk_loop_S in Hrun. destruct (_ <=? _).
    { injection Hrun as <-. done. }
    destruct (_ <=? _); [done|].
    destruct (read_png_chunk f _) as [[d1 s1] [o1|]] eqn:Hr; [|done].
    apply read_png_chunk_sound in Hr as (k&p&Hw&->&_&Hs1&->). cbn [stream state] in *. subst s1.
    pose proof (chunk_shortens k p d1 Hw).
    destruct (record_png_chunk _ f _) as [c2 [[]|]] eqn:Hrec; [|done].
    apply record_first in Hrec as (p'&w&h&->&Hp&Hv'&->); [|done|done].
    rewrite decide_True in Hp by done. injection Hp as <-. cbn [state] in Hrun.
    apply chunk_loop_sound in Hrun as [_ Hrest]; [|done|lia].
    destruct (Hrest Hie) as [middle Hm]. by exists p, w, h, d1, c, middle.
  - intros [= <-] Hv. apply chunk_loop_early in Hrun as [|[]]; congruence.
Qed.

Lemma serialize_app l1 l2 : serialize (l1 ++ l2) = serialize l1 ++ serialize l2.
Proof. apply bind_app. Qed.

Lemma serialize_length_ge l : Forall wf_chunk l → (length l <= length (serialize l))%nat.
Proof.
  induction 1 as [|x l Hx _ IH]; [done|]. rewrite serialize_cons, length_app.
  pose proof (encode_chunk_length x Hx). cbn [length]. lia.
Qed.

Lemma finish_complete f header w h d1 c middle :
  valid_ihdr header = Some (w, h) → wf_chunk (IHDR, header) →
  rest_read f (header_read after_signature header w h) d1 c middle →
  finish f (encode_chunk (IHDR, header) ++ d1) = Some (complete_png_probe (state c)).
Proof.
  intros Hv Hw Hrest. unfold finish. rewrite chunk_loop_S.
  destruct (Hrest) as (Hd&_&_&Hb&Hc&_). pose proof (serialize_iend_pos middle).
  cbn [header_read with_header plus_chunk plus_bytes after_signature fresh_state
    bytes_checked chunks_checked] in Hb, Hc.
  change (bytes_checked after_signature) with 8. change (chunks_checked after_signature) with 0.
  rewrite (proj2 (Z.leb_gt _ _)) by (pose proof (b2z_bounds x00); lia).
  assert ((MAX_PNG_CHUNKS <=? 0) = false) as -> by done.
  set (s1 := plus_chunk (plus_bytes (12 + zlen header) after_signature)).
  rewrite (read_png_chunk_complete f _ _ (at_ d1 s1)
    (Some {| kind := IHDR; chunk_length := zlen header; ihdr_payload := Some header |})).
  - assert (record_png_chunk {| kind := IHDR; chunk_length := zlen header;
      ihdr_payload := Some header |} f (at_ d1 s1) = (at_ d1 (with_header w h s1), Ok tt)) as ->.
    { apply record_first; [done|done|]. by exists header, w, h. }
    cbn [state]. change (saw_iend (with_header w h s1)) with false. cbv iota.
    rewrite (chunk_loop_complete f middle _ d1 _ c); [done|done| |exact Hrest].
    subst d1. rewrite serialize_app, !length_app.
    destruct Hrest as (_&Hwm&_). pose proof (serialize_length_ge middle Hwm).
    pose proof (encode_chunk_length _ Hw). lia.
  - exists IHDR, header. cbn [stream state]. rewrite decide_True by done.
    split; [done|]. split; [done|]. split; [|done].
    change (bytes_checked after_signature) with 8. lia.
Qed.

(** A file is a well-formed PNG of size [f] when it starts with the signature
    and a well-formed chunk sequence that ends at offset [f]. *)
Definition png_file (f : Z) (data : list byte) (w h : Z)
    (chunks : list (list byte * list byte)) : Prop :=
  wf_png w h chunks ∧
  ∃ rest, data = PNG_SIGNATURE ++ serialize chunks ++ rest ∧
    zlen (PNG_SIGNATURE ++ serialize chunks) = f.

Definition valid_result (f n w h : Z) : PngProbeResult :=
  {| status := valid; reason_code := structure_and_crc_valid; result_bytes := f;
     result_chunks := n; result_width := Some w; result_height := Some h |}.

Lemma png_file_rest_read f data w h chunks :
  (png_file f data w h chunks ∧ zlen chunks <= MAX_PNG_CHUNKS) ↔
  ∃ header middle d1 c, chunks = (IHDR, header) :: middle ++ [(IEND, [])] ∧
    take 8 data = PNG_SIGNATURE ∧ drop 8 data = encode_chunk (IHDR, header) ++ d1 ∧
    valid_ihdr header = Some (w, h) ∧ wf_chunk (IHDR, header) ∧
    rest_read f (header_read after_signature header w h) d1 c middle ∧
    saw_idat (state c) = true.
Proof.
  assert (length PNG_SIGNATURE = 8%nat) as Hsig by done.
  split.
  - intros [[[Hwf (header&middle&->&Hv&Hk&Hidat)] (rest&->&Hf)] Hn].
    apply Forall_cons in Hwf as [Hwh Hwm]. apply Forall_app in Hwm as [Hwm _].
    rewrite serialize_cons in *. rewrite <- app_assoc.
    exists header, middle, (serialize (middle ++ [(IEND, [])]) ++ rest),
      (at_ rest (ended f (zlen middle) true (header_read after_signature header w h))).
    rewrite take_app_le, drop_app_ge, take_ge, Hsig by (rewrite Hsig; lia).
    rewrite !length_app, Nat2Z.inj_add, Nat2Z.inj_add, (encode_chunk_length _ Hwh) in Hf.
    cbn [length snd] in Hn, Hf. rewrite length_app in Hn. cbn [length] in Hn.
    change (8 - 8)%nat with 0%nat. rewrite drop_0.
    repeat (refine (conj _ _); [done|]). refine (conj _ _); [|done].
    refine (conj eq_refl (conj Hwm (conj Hk (conj _ (conj _ _))))).
    + cbn [header_read with_header plus_chunk plus_bytes after_signature fresh_state
        bytes_checked]. lia.
    + cbn [header_read with_header plus_chunk plus_bytes after_signature fresh_state
        chunks_checked]. lia.
    + cbn [state]. by rewrite bool_decide_eq_true_2.
  - intros (header&middle&d1&c&->&Ht&Hd&Hv&Hw&(->&Hwm&Hk&Hb&Hc&Hs)&Hi).
    rewrite Hs in Hi. cbn in Hi. apply bool_decide_eq_true in Hi.
    cbn [header_read with_header plus_chunk plus_bytes after_signature fresh_state
      bytes_checked chunks_checked] in Hb, Hc.
    split; [split; [split|]|].
    + apply Forall_cons. split; [done|]. apply Forall_app. split; [done|].
      apply Forall_singleton, wf_iend.
    + by exists header, middle.
    + exists (stream c). rewrite serialize_cons, <- app_assoc. split.
      * rewrite <- (take_drop 8 data), Ht, Hd. done.
      * rewrite !length_app, Hsig, !Nat2Z.inj_add, (encode_chunk_length _ Hw). cbn [snd]. lia.
    + cbn [length]. rewrite length_app. cbn [length]. lia.
Qed.

Lemma complete_valid f n idat s :
  header_seen s → status (complete_png_probe (ended f n idat s)) = valid →
  complete_png_probe (ended f n idat s) =
    {| status := valid; reason_code := structure_and_crc_valid; result_bytes := f;
       result_chunks := chunks_checked s + n + 1; result_width := width s;
       result_height := height s |} ∧ saw_idat (ended f n idat s) = true.
Proof.
  intros (Hh&_&_). unfold complete_png_probe. cbn [saw_ihdr saw_idat saw_iend ended].
  rewrite Hh. cbn [negb]. destruct (saw_idat s || idat); [|done]. done.
Qed.

Lemma probe_accepts f data w h chunks :
  f <= MAX_PNG_PROBE_BYTES → zlen chunks <= MAX_PNG_CHUNKS → png_file f data w h chunks →
  probe_png_structure f data = Some (valid_result f (zlen chunks) w h).
Proof.
  intros Hf Hn Hpf.
  destruct (proj1 (png_file_rest_read f data w h chunks) (conj Hpf Hn))
    as (header&middle&d1&c&->&Ht&Hd&Hv&Hw&Hr&Hi).
  rewrite probe_eq, decide_True, Hd, (finish_complete f header w h d1 c middle) by done.
  destruct Hr as (_&_&_&_&_&Hs). rewrite Hs in *. unfold complete_png_probe.
  rewrite Hi. cbn [saw_ihdr saw_iend ended header_read with_header negb].
  unfold valid_result, probe_result. cbn. rewrite length_app. cbn [length].
  do 2 f_equal. lia.
Qed.

(** C27: The probe answers [valid] with dimensions [w] and [h] exactly on the
    files whose first [f] bytes are the serialization of a well-formed chunk
    sequence (IHDR first and once with legal parameters, an IDAT, an empty
    IEND last, every length and CRC-32 right) within the byte and chunk
    limits; its counters are then the file size and the number of chunks. *)
Theorem valid_iff_well_formed f data w h n :
  probe_png_structure f data = Some (valid_result f n w h) ↔
  f <= MAX_PNG_PROBE_BYTES ∧ n <= MAX_PNG_CHUNKS ∧
  ∃ chunks, png_file f data w h chunks ∧ zlen chunks = n.
Proof.
  split.
  - intros Hp. assert (f <= MAX_PNG_PROBE_BYTES) as Hf.
    { destruct (decide (f <= MAX_PNG_PROBE_BYTES)) as [|Hf]; [done|].
      unfold probe_png_structure in Hp. by rewrite (proj2 (Z.ltb_lt _ _)) in Hp by lia. }
    rewrite probe_eq in Hp by done. destruct (decide _) as [Ht|]; [|done].
    destruct (finish_valid _ _ _ Hp eq_refl) as (header&w'&h'&d1&c&middle&Hv&Hw&Hd&Hr&Hres).
    destruct (Hr) as (_&_&_&_&_&Hs). rewrite Hs in Hres.
    destruct (complete_valid f (zlen middle) (bool_decide (IDAT ∈ middle.*1))
      (header_read after_signature header w' h')) as [Hc Hi];
      [done|by rewrite <- Hres|]. rewrite Hc in Hres. injection Hres as -> -> ->.
    destruct (proj2 (png_file_rest_read f data w' h'
      ((IHDR, header) :: middle ++ [(IEND, [])]))) as [Hpf Hn].
    { exists header, middle, d1, c. rewrite Hs. done. }
    assert (zlen ((IHDR, header) :: middle ++ [(IEND, [])]) = 2 + zlen middle) as Hz
      by (cbn [length]; rewrite length_app; cbn [length]; lia).
    change (chunks_checked (header_read after_signature header w' h')) with 1.
    split; [done|]. split; [lia|]. eexists. split; [exact Hpf|]. lia.
  - intros (Hf&Hn&chunks&Hpf&<-). by apply probe_accepts.
Qed.

(** The verdicts are evidence: [corrupt] is never given to a file that
    holds a well-formed PNG within the limits, and [inconclusive] is given only
    past the byte limit or at the chunk limit. *)
Theorem verdicts_are_evidence f data r :
  probe_png_structure f data = Some r →
  (deterministic_corruption r = true →
     ∀ w h chunks, zlen chunks <= MAX_PNG_CHUNKS → ¬ png_file f data w h chunks) ∧
  (status r = inconclusive → MAX_PNG_PROBE_BYTES < f ∨ MAX_PNG_CHUNKS <= result_chunks r).
Proof.
  intros Hp. destruct (decide (f <= MAX_PNG_PROBE_BYTES)) as [Hf|Hf].
  - split.
    + intros Hc w h chunks Hn Hpf.
      rewrite (probe_accepts f data w h chunks Hf Hn Hpf) in Hp. by injection Hp as <-.
    + rewrite probe_eq in Hp by done. intros Hs. right. destruct (decide _);
        [|injection Hp as <-; done].
      unfold finish in Hp. destruct (chunk_loop _ _ _) as [c [o|r']] eqn:Hrun.
      * exfalso. destruct o; [|done]. injection Hp as <-. revert Hs. unfold complete_png_probe.
        by destruct (saw_ihdr _), (saw_idat _), (saw_iend _).
      * injection Hp as <-. apply chunk_loop_early in Hrun as [|[]]; [congruence|tauto].
  - split; [|left; lia]. unfold probe_png_structure in Hp.
    rewrite (proj2 (Z.ltb_lt _ _)) in Hp by lia. by injection Hp as <-.
Qed.

(** A 1x1 grey PNG, its probe, and the probe of a copy with a flipped bit. *)
Definition tiny_chunks : list (list byte * list byte) :=
  [(IHDR, z2b <$> [0; 0; 0; 1; 0; 0; 0; 1; 8; 0; 0; 0; 0]);
   (IDAT, z2b <$> [120; 156; 99; 96; 0; 0; 0; 2; 0; 1]); (IEND, [])].

Definition tiny_png : list byte := PNG_SIGNATURE ++ serialize tiny_chunks.

Example tiny_png_valid :
  probe_png_structure (zlen tiny_png) tiny_png = Some (valid_result (zlen tiny_png) 3 1 1).
Proof. by vm_compute. Qed.

Lemma verdicts_are_evidence_witness :
  let damaged := <[30%nat := x01]> tiny_png in
  (∃ r, probe_png_structure (zlen damaged) damaged = Some r ∧
        reason_code r = crc32_mismatch) ∧
  ∀ w h chunks, zlen chunks <= MAX_PNG_CHUNKS → ¬ png_file (zlen damaged) damaged w h chunks.
Proof.
  intros damaged. split.
  - eexists. split; [vm_compute; reflexivity|reflexivity].
  - eapply verdicts_are_evidence; [vm_compute; reflexivity|reflexivity].
Defined.
