(* ===== verification/IoIdentity.v ===== *)
(** * I/O device identities (neocortex/runtime/control/io_identity.py)

    The canonical key of an observed I/O device and the normalization of the
    per-device limits: two spellings of one kernel device share one budget. *)

From S2P Require Import Prelude.

(** A device value: [None], a [bool], an [int], or the [str()] of anything else. *)
Inductive device_value : Type :=
| DNone
| DBool (b : bool)
| DInt (z : Z)
| DText (s : pystr).

(** [ValueError] of a negative number, [int()]'s digit limit, and the refusal
    of conflicting aliases. *)
Inductive device_error : Type :=
| NegativeDevice
| DeviceDigits
| ConflictingAliases (key : pystr) (previous value : Z).

Definition dev_prefix : pystr := py "dev:".

Definition device_key (n : Z) : pystr := dev_prefix ++ hex_text n.

(** [raw.isdecimal()] text through [int(raw, 10)]. *)
Definition int_of_decimal (s : pystr) : result device_error Z :=
  raise_if (INT_MAX_STR_DIGITS <? zlen s) DeviceDigits;;
  Ok (value 10 ((λ c, default 0 (decimal_digit c)) <$> s)).

Definition hex_token (raw : pystr) : pystr :=
  let token := strip (drop 4 raw) in
  if starts_with (py "0x") (ascii_lower <$> token) then drop 2 token else token.

Definition canonical_text (s : pystr) : result device_error (option pystr) :=
  let raw := strip s in
  if bool_decide (raw = []) then Ok None
  else if starts_with dev_prefix (ascii_lower <$> raw) then
    let token := hex_token raw in
    if negb (bool_decide (token = [])) && forallb is_hex_char token
    then Ok (Some (device_key (int_hex token)))
    else Ok (Some raw)
  else if is_decimal raw then
    n ← int_of_decimal raw; Ok (Some (device_key n))
  else Ok (Some raw).

Definition canonical_io_device (v : device_value) : result device_error (option pystr) :=
  match v with
  | DNone => Ok None
  | DBool b => Ok (Some (if b then py "True" else py "False"))
  | DInt z => raise_if (z <? 0) NegativeDevice;; Ok (Some (device_key z))
  | DText s => canonical_text s
  end.

Definition default_device : pystr := py "default".

(** [canonical_io_device(value) or "default"] *)
Definition io_device_key (v : device_value) : result device_error pystr :=
  o ← canonical_io_device v;
  Ok (match o with
      | Some k => if bool_decide (k = []) then default_device else k
      | None => default_device
      end).

(** The loop over [configured.items()]. *)
Fixpoint normalize_items (normalized : gmap pystr Z) (items : list (device_value * Z))
  : result device_error (gmap pystr Z) :=
  match items with
  | [] => Ok normalized
  | (raw_key, v) :: items' =>
      key ← io_device_key raw_key;
      match normalized !! key with
      | Some previous =>
          raise_if (negb (previous =? v)) (ConflictingAliases key previous v);;
          normalize_items (<[key := v]> normalized) items'
      | None => normalize_items (<[key := v]> normalized) items'
      end
  end.

Definition normalize_io_device_slots (configured : option (list (device_value * Z)))
  : result device_error (option (gmap pystr Z)) :=
  match configured with
  | None => Ok None
  | Some items => Some <$> normalize_items ∅ items
  end.

(** ** Stripping *)

Definition no_edge_space (s : pystr) : Prop := strip s = s.

Lemma drop_space_suffix s : ∃ p, s = p ++ drop_space s ∧ Forall (λ c, is_space c = true) p.
Proof.
  induction s as [|c s (p&Hp&Hf)]; [by exists []|]. cbn.
  destruct (is_space c) eqn:Hc; [|by exists []].
  exists (c :: p). split; [by rewrite Hp at 1|by constructor].
Qed.

Lemma drop_space_head s : drop_space s = [] ∨ ∃ c s', drop_space s = c :: s' ∧ is_space c = false.
Proof.
  induction s as [|c s IH]; [by left|]. cbn. destruct (is_space c) eqn:Hc; [done|].
  right. by exists c, s.
Qed.

Lemma drop_space_id s : (∀ c s', s = c :: s' → is_space c = false) → drop_space s = s.
Proof. destruct s as [|c s]; [done|]. intros H. cbn. by rewrite (H c s eq_refl). Qed.

Lemma drop_space_idemp s : drop_space (drop_space s) = drop_space s.
Proof.
  destruct (drop_space_head s) as [->|(c&s'&->&Hc)]; [done|]. cbn. by rewrite Hc.
Qed.

(** Stripping the front keeps the back stripped. *)
Lemma drop_space_reverse s :
  drop_space s = s → drop_space (reverse (drop_space (reverse s))) = reverse (drop_space (reverse s)).
Proof.
  intros Hs. destruct (drop_space_suffix (reverse s)) as (p&Hp&_).
  apply drop_space_id. intros c s' Heq.
  assert (s = reverse (drop_space (reverse s)) ++ reverse p) as Hsp.
  { rewrite <- reverse_app, <- Hp. by rewrite reverse_involutive. }
  rewrite Heq in Hsp. cbn in Hsp. rewrite Hsp in Hs. cbn in Hs.
  destruct (is_space c) eqn:Hc; [|done].
  destruct (drop_space_suffix (s' ++ reverse p)) as (q&Hq&_).
  rewrite Hs in Hq. apply (f_equal length) in Hq.
  repeat (rewrite length_app in Hq || cbn [length] in Hq). lia.
Qed.

Lemma strip_idemp s : strip (strip s) = strip s.
Proof.
  unfold strip. rewrite (drop_space_reverse (drop_space s)) by apply drop_space_idemp.
  by rewrite reverse_involutive, drop_space_idemp.
Qed.

Lemma strip_no_space s : Forall (λ c, is_space c = false) s → strip s = s.
Proof.
  intros Hs. assert (∀ t, Forall (λ c, is_space c = false) t → drop_space t = t) as Hid.
  { intros t Ht. apply drop_space_id. intros c t' ->. by apply Forall_cons in Ht as [? _]. }
  unfold strip. rewrite (Hid s Hs), (Hid (reverse s)), reverse_involutive; [done|].
  by apply Forall_reverse.
Qed.

(** ** Canonical keys are fixed points *)

Lemma lower_hex c : 48 <= c <= 57 ∨ 97 <= c <= 102 → is_space c = false ∧ ascii_lower c = c ∧ c ≠ 120.
Proof.
  intros Hc. unfold is_space, ascii_lower. split; [|split].
  - rewrite !orb_false_iff, !andb_false_iff, !Z.eqb_neq, !Z.leb_gt. lia.
  - destruct (_ && _) eqn:H; [|done]. bool_prop. lia.
  - lia.
Qed.

Lemma canonical_device_key n : 0 <= n → canonical_text (device_key n) = Ok (Some (device_key n)).
Proof.
  intros Hn. destruct (hex_text_spec n Hn) as (Hv&Hne&Hf).
  assert (Forall (λ c, is_space c = false) (hex_text n)) as Hns.
  { eapply Forall_impl; [exact Hf|]. intros c [_ Hc]. by apply lower_hex. }
  unfold canonical_text, device_key, hex_token.
  rewrite (strip_no_space (dev_prefix ++ hex_text n))
    by (apply Forall_app; split; [by repeat constructor|done]).
  rewrite bool_decide_eq_false_2 by done.
  assert (starts_with dev_prefix (ascii_lower <$> dev_prefix ++ hex_text n) = true) as ->.
  { unfold starts_with. apply bool_decide_eq_true. rewrite fmap_app. by rewrite take_app_length'. }
  rewrite drop_app_length' by done. rewrite strip_no_space by done.
  assert (starts_with (py "0x") (ascii_lower <$> hex_text n) = false) as ->.
  { unfold starts_with. apply bool_decide_eq_false. destruct (hex_text n) as [|c1 [|c2 t]]; [done..|].
    apply Forall_cons in Hf as [_ Hf]. apply Forall_cons in Hf as [[_ Hc2] _].
    cbn. destruct (lower_hex c2 Hc2) as (_&->&Hx). intros [= _ ?]. done. }
  rewrite bool_decide_eq_false_2 by done.
  assert (forallb is_hex_char (hex_text n) = true) as ->.
  { apply forallb_forall. intros c Hc%list_elem_of_In. rewrite Forall_forall in Hf.
    by apply Hf. }
  cbn [negb andb]. by rewrite Hv.
Qed.

Lemma int_hex_nonneg token : forallb is_hex_char token = true → 0 <= int_hex token.
Proof.
  intros Ht. unfold int_hex. apply (value_bounds 16); [lia|]. apply Forall_fmap.
  apply Forall_forall. intros c Hc. cbn. rewrite forallb_forall in Ht.
  specialize (Ht c (proj1 (list_elem_of_In _ _) Hc)). revert Ht.
  unfold is_hex_char, hex_digit, is_digit.
  repeat match goal with |- context [?a <=? ?b] => destruct (Z.leb_spec a b) end; cbn; try done; lia.
Qed.

Lemma decimal_digit_bounds c d : decimal_digit c = Some d → 0 <= d < 10.
Proof.
  unfold decimal_digit. intros (z&Hz&Hd)%fmap_Some. subst.
  apply List.find_some in Hz as [_ Hz]. bool_prop. lia.
Qed.

Lemma int_of_decimal_nonneg s n : int_of_decimal s = Ok n → 0 <= n.
Proof.
  unfold int_of_decimal. intros H. inv_ok. apply (value_bounds 10); [lia|]. apply Forall_fmap.
  apply Forall_true. intros c. unfold compose.
  destruct (decimal_digit c) as [d|] eqn:Hc; [by apply decimal_digit_bounds in Hc|done].
Qed.

(** A canonical key is a fixed point. *)
Lemma canonical_fixed v k :
  canonical_io_device v = Ok (Some k) → canonical_io_device (DText k) = Ok (Some k).
Proof.
  cbn. destruct v as [|b|z|s]; cbn; intros H.
  - done.
  - destruct b; by injection H as <-.
  - inv_ok. bool_prop. by apply canonical_device_key.
  - unfold canonical_text in H. destruct (bool_decide (strip s = [])) eqn:Hne; [done|].
    destruct (starts_with dev_prefix (ascii_lower <$> strip s)) eqn:Hdev.
    + destruct (negb _ && _) eqn:Htok.
      * injection H as <-. bool_prop. by apply canonical_device_key, int_hex_nonneg.
      * injection H as <-. unfold canonical_text. by rewrite strip_idemp, Hne, Hdev, Htok.
    + destruct (is_decimal (strip s)) eqn:Hdec.
      * inv_ok. apply canonical_device_key. by eapply int_of_decimal_nonneg.
      * injection H as <-. unfold canonical_text. by rewrite strip_idemp, Hne, Hdev, Hdec.
Qed.

(** A canonical device key is a fixed point: presenting the key an
    admission stored back to the canonicalizer, as the scheduler does, gives
    the same key, for every accepted spelling of a device. *)
Theorem canonical_io_device_idempotent v k :
  canonical_io_device v = Ok (Some k) → canonical_io_device (DText k) = Ok (Some k).
Proof. apply canonical_fixed. Qed.

Lemma canonical_io_device_idempotent_witness :
  canonical_io_device (DText (py " dev:0x801 ")) = Ok (Some (py "dev:801")) ∧
  canonical_io_device (DText (py "dev:801")) = Ok (Some (py "dev:801")).
Proof.
  split; [by vm_compute|].
  apply (canonical_io_device_idempotent (DText (py " dev:0x801 "))). by vm_compute.
Defined.

(** The decimal, hexadecimal and numeric spellings of one [st_dev] agree. *)
Example one_device_three_spellings :
  canonical_io_device (DText (py "2049")) = Ok (Some (py "dev:801")) ∧
  canonical_io_device (DText (py "DEV:0X801")) = Ok (Some (py "dev:801")) ∧
  canonical_io_device (DInt 2049) = Ok (Some (py "dev:801")).
Proof. by vm_compute. Qed.

(** ** Normalized limits *)

Lemma normalize_items_spec items : ∀ m0 m,
  normalize_items m0 items = Ok m →
  (∀ k v, m0 !! k = Some v → m !! k = Some v) ∧
  (∀ d v, (d, v) ∈ items → ∃ k, io_device_key d = Ok k ∧ m !! k = Some v) ∧
  (∀ k v, m !! k = Some v → m0 !! k = Some v ∨ ∃ d, (d, v) ∈ items ∧ io_device_key d = Ok k).
Proof.
  induction items as [|[d v] items IH]; intros m0 m; cbn [normalize_items].
  { intros [= <-]. split; [done|]. split; [by intros ? ? ?%elem_of_nil|auto]. }
  intros (key&Hkey&H)%bind_ok.
  assert ((m0 !! key = None ∨ m0 !! key = Some v) ∧
          normalize_items (<[key:=v]> m0) items = Ok m) as [Hold Hrec].
  { destruct (m0 !! key) as [previous|]; [|auto].
    apply bind_ok in H as (?&Hp%raise_if_ok&?). bool_prop. subst. auto. }
  destruct (IH _ _ Hrec) as (Hkeep&Hall&Hfrom).
  assert (m !! key = Some v) as Hmk by (apply Hkeep, lookup_insert_eq).
  split; [|split].
  - intros k w Hk. destruct (decide (k = key)) as [->|Hne].
    + destruct Hold as [Hold|Hold]; congruence.
    + apply Hkeep. by rewrite lookup_insert_ne.
  - intros d' w [[= -> ->]|Hin]%elem_of_cons; [by exists key|by apply Hall].
  - intros k w [Hk|(d'&Hin&Hk)]%Hfrom; [|right; exists d'; split; [by apply list_elem_of_further|done]].
    destruct (decide (k = key)) as [->|Hne].
    + rewrite lookup_insert_eq in Hk. injection Hk as <-. right.
      exists d. split; [apply list_elem_of_here|done].
    + rewrite lookup_insert_ne in Hk by done. by left.
Qed.

(** Normalizing the per-device I/O limits keeps exactly the configured
    limits under canonical keys: each configured spelling finds its own limit
    under its key, no other limit appears, and two spellings of one device
    with different limits are never merged. *)
Theorem normalized_slots_exact items m :
  normalize_io_device_slots (Some items) = Ok (Some m) →
  (∀ d v, (d, v) ∈ items → ∃ k, io_device_key d = Ok k ∧ m !! k = Some v) ∧
  (∀ k v, m !! k = Some v → ∃ d, (d, v) ∈ items ∧ io_device_key d = Ok k) ∧
  (∀ d1 v1 d2 v2, (d1, v1) ∈ items → (d2, v2) ∈ items →
     io_device_key d1 = io_device_key d2 → v1 = v2).
Proof.
  cbn. intros (m'&Hm&Heq)%fmap_ok. injection Heq as <-.
  destruct (normalize_items_spec _ _ _ Hm) as (_&Hall&Hfrom).
  split; [done|]. split.
  - intros k v [Hk|?]%Hfrom; [by rewrite lookup_empty in Hk|done].
  - intros d1 v1 d2 v2 (k1&Hk1&H1)%Hall (k2&Hk2&H2)%Hall Hkk. congruence.
Qed.

Lemma normalized_slots_exact_witness :
  ∃ m, normalize_io_device_slots
         (Some [(DText (py "2049"), 2); (DText (py "dev:801"), 2); (DNone, 5)]) = Ok (Some m) ∧
       ∃ k, io_device_key (DInt 2049) = Ok k ∧ m !! k = Some 2.
Proof.
  eexists. split; [vm_compute; reflexivity|].
  apply (proj1 (normalized_slots_exact
    [(DText (py "2049"), 2); (DText (py "dev:801"), 2); (DNone, 5)] _ eq_refl) (DText (py "2049")) 2).
  apply list_elem_of_here.
Defined.
