(* ===== verification/ResourceModel.v ===== *)
(** * The coordinator's records (neocortex/runtime/control/resource_models.py)

    The data the global resource coordinator owns.  Requests are shared mutable
    objects: the queues, the active reservations and the leases hold the same
    request, so requests live in a store [c_requests] and are named by their
    identity [rid] (Python's [id(request)]).  The eight counters that the
    coordinator and each route's metrics both keep form one [Usage] record, the
    six maxima both keep one [Peaks] record. *)

From S2P Require Import Prelude IoIdentity.

Definition MIB : Z := 1024 * 1024.
Definition GIB : Z := 1024 * MIB.

(** The identity of a request object; a process is its PID and start time. *)
Abbreviation rid := positive.
Abbreviation process_identity := (Z * Z)%type.

Record Usage : Type := {
  u_reserved : Z;
  u_resident : Z;
  u_transient : Z;
  u_temp : Z;
  u_cpu : Z;
  u_native : Z;
  u_active : Z;
  u_execution : Z;
}.

#[export] Instance Usage_eta : Eta Usage := λ r,
  {| u_reserved := u_reserved r; u_resident := u_resident r; u_transient := u_transient
     r; u_temp := u_temp r; u_cpu := u_cpu r; u_native := u_native r; u_active :=
     u_active r; u_execution := u_execution r |}.

(** The historical maxima of the first six counters. *)
Record Peaks : Type := {
  p_reserved : Z;
  p_cpu : Z;
  p_resident : Z;
  p_transient : Z;
  p_temp : Z;
  p_native : Z;
}.

#[export] Instance Peaks_eta : Eta Peaks := λ r,
  {| p_reserved := p_reserved r; p_cpu := p_cpu r; p_resident := p_resident r;
     p_transient := p_transient r; p_temp := p_temp r; p_native := p_native r |}.

(** [_MutableRouteMetrics] *)
Record Metrics : Type := {
  m_admissions : Z;
  m_waits : Z;
  m_wait_seconds : pyfloat;
  m_wait_ns : Z;
  m_usage : Usage;
  m_peaks : Peaks;
  m_phases : gmap pystr Z;
  m_io : Z;
  m_peak_io : Z;
  m_gpu : Z;
  m_peak_gpu : Z;
}.

#[export] Instance Metrics_eta : Eta Metrics := λ r,
  {| m_admissions := m_admissions r; m_waits := m_waits r; m_wait_seconds :=
     m_wait_seconds r; m_wait_ns := m_wait_ns r; m_usage := m_usage r; m_peaks :=
     m_peaks r; m_phases := m_phases r; m_io := m_io r; m_peak_io := m_peak_io r; m_gpu
     := m_gpu r; m_peak_gpu := m_peak_gpu r |}.

(** [_Request]: one queued or admitted lease. *)
Record Request : Type := {
  r_route : pystr;
  r_memory : Z;
  r_cpu : Z;
  r_enqueued_ns : Z;
  r_resident : Z;
  r_transient : Z;
  r_temp : Z;
  r_native : Z;
  r_phase : option pystr;
  r_resident_key : option pystr;
  r_resident_charge : Z;
  r_waited : bool;
  r_queued : bool;
  r_admitted : bool;
  r_released : bool;
  r_wait_accounted : bool;
  r_io : Z;
  r_io_device : option pystr;
  r_gpu : Z;
  r_gpu_device : option pystr;
  r_execution_active : bool;
  r_processes : gset process_identity;
  r_temp_materialized : Z;
  r_temp_file : option (Z * Z);
  r_draining_from : option rid;
  r_renewing_from : option rid;
  r_adaptive : bool;
  r_native_limit : option Z;
}.

#[export] Instance Request_eta : Eta Request := λ r,
  {| r_route := r_route r; r_memory := r_memory r; r_cpu := r_cpu r; r_enqueued_ns :=
     r_enqueued_ns r; r_resident := r_resident r; r_transient := r_transient r; r_temp
     := r_temp r; r_native := r_native r; r_phase := r_phase r; r_resident_key :=
     r_resident_key r; r_resident_charge := r_resident_charge r; r_waited := r_waited r;
     r_queued := r_queued r; r_admitted := r_admitted r; r_released := r_released r;
     r_wait_accounted := r_wait_accounted r; r_io := r_io r; r_io_device := r_io_device
     r; r_gpu := r_gpu r; r_gpu_device := r_gpu_device r; r_execution_active :=
     r_execution_active r; r_processes := r_processes r; r_temp_materialized :=
     r_temp_materialized r; r_temp_file := r_temp_file r; r_draining_from :=
     r_draining_from r; r_renewing_from := r_renewing_from r; r_adaptive := r_adaptive
     r; r_native_limit := r_native_limit r |}.

(** The limits the admission decisions read. *)
Record GlobalResourceLimits : Type := {
  l_memory_budget : option Z;
  l_min_free_memory : option Z;
  l_min_free_commit : option Z;
  l_cpu_slots : option Z;
  l_max_cpu_load : pyfloat;
  l_wait_timeout : option pyfloat;
  l_poll_interval : pyfloat;
  l_native_slots : option Z;
  l_cpu_hysteresis : pyfloat;
  l_memory_hysteresis : option Z;
  l_sample_interval : pyfloat;
  l_temp_budget : option Z;
  l_pressure_high : pyfloat;
  l_pressure_recovery : pyfloat;
  l_io_slots : option Z;
  l_io_pressure_high : pyfloat;
  l_io_pressure_recovery : pyfloat;
}.

#[export] Instance GlobalResourceLimits_eta : Eta GlobalResourceLimits := λ r,
  {| l_memory_budget := l_memory_budget r; l_min_free_memory := l_min_free_memory r;
     l_min_free_commit := l_min_free_commit r; l_cpu_slots := l_cpu_slots r;
     l_max_cpu_load := l_max_cpu_load r; l_wait_timeout := l_wait_timeout r;
     l_poll_interval := l_poll_interval r; l_native_slots := l_native_slots r;
     l_cpu_hysteresis := l_cpu_hysteresis r; l_memory_hysteresis := l_memory_hysteresis
     r; l_sample_interval := l_sample_interval r; l_temp_budget := l_temp_budget r;
     l_pressure_high := l_pressure_high r; l_pressure_recovery := l_pressure_recovery r;
     l_io_slots := l_io_slots r; l_io_pressure_high := l_io_pressure_high r;
     l_io_pressure_recovery := l_io_pressure_recovery r |}.

(** [GlobalResourceCoordinator]: its configuration, its live observations and
    its ledger. *)
Record Coordinator : Type := {
  c_limits : GlobalResourceLimits;
  c_route_budgets : gmap pystr Z;
  c_io_device_slots : gmap pystr Z;
  c_gpu_capacity : gmap pystr Z;
  c_auto_memory : bool;
  c_auto_cpu : bool;
  c_auto_native : bool;
  c_memory_budget : Z;
  c_min_free_memory : Z;
  c_min_free_commit : Z;
  c_cpu_slots : Z;
  c_native_slots : Z;
  c_temp_budget : Z;
  c_memory_hysteresis : Z;
  c_route_order : list pystr;
  c_queues : gmap pystr (list rid);
  c_metrics : gmap pystr Metrics;
  c_last_granted : Z;
  c_usage : Usage;
  c_peaks : Peaks;
  c_peak_active : Z;
  c_claims : gmap (pystr * pystr) (gmap rid Z);
  c_active : list rid;
  c_io_in_use : gmap pystr Z;
  c_gpu_in_use : gmap pystr Z;
  c_peak_io : Z;
  c_peak_gpu : Z;
  c_last_cpu_capacity : Z;
  c_last_memory_budget : Z;
  c_memory_pressure : bool;
  c_cpu_pressure : bool;
  c_io_pressure : bool;
  c_process_memory : gmap process_identity Z;
  c_materialized_credit : Z;
  c_gpu_available : gmap pystr (option Z * pyfloat);
  c_gpu_probed : gset pystr;
  c_gpu_materialized : gmap pystr (gmap process_identity Z);
  c_requests : gmap rid Request;
}.

#[export] Instance Coordinator_eta : Eta Coordinator := λ r,
  {| c_limits := c_limits r; c_route_budgets := c_route_budgets r; c_io_device_slots :=
     c_io_device_slots r; c_gpu_capacity := c_gpu_capacity r; c_auto_memory :=
     c_auto_memory r; c_auto_cpu := c_auto_cpu r; c_auto_native := c_auto_native r;
     c_memory_budget := c_memory_budget r; c_min_free_memory := c_min_free_memory r;
     c_min_free_commit := c_min_free_commit r; c_cpu_slots := c_cpu_slots r;
     c_native_slots := c_native_slots r; c_temp_budget := c_temp_budget r;
     c_memory_hysteresis := c_memory_hysteresis r; c_route_order := c_route_order r;
     c_queues := c_queues r; c_metrics := c_metrics r; c_last_granted := c_last_granted
     r; c_usage := c_usage r; c_peaks := c_peaks r; c_peak_active := c_peak_active r;
     c_claims := c_claims r; c_active := c_active r; c_io_in_use := c_io_in_use r;
     c_gpu_in_use := c_gpu_in_use r; c_peak_io := c_peak_io r; c_peak_gpu := c_peak_gpu
     r; c_last_cpu_capacity := c_last_cpu_capacity r; c_last_memory_budget :=
     c_last_memory_budget r; c_memory_pressure := c_memory_pressure r; c_cpu_pressure :=
     c_cpu_pressure r; c_io_pressure := c_io_pressure r; c_process_memory :=
     c_process_memory r; c_materialized_credit := c_materialized_credit r;
     c_gpu_available := c_gpu_available r; c_gpu_probed := c_gpu_probed r;
     c_gpu_materialized := c_gpu_materialized r; c_requests := c_requests r |}.

Definition no_usage : Usage :=
  {| u_reserved := 0; u_resident := 0; u_transient := 0; u_temp := 0; u_cpu := 0;
     u_native := 0; u_active := 0; u_execution := 0 |}.

Definition no_peaks : Peaks :=
  {| p_reserved := 0; p_cpu := 0; p_resident := 0; p_transient := 0; p_temp := 0;
     p_native := 0 |}.

(** [_MutableRouteMetrics()] *)
Definition fresh_metrics : Metrics :=
  {| m_admissions := 0; m_waits := 0; m_wait_seconds := S754_zero false; m_wait_ns := 0;
     m_usage := no_usage; m_peaks := no_peaks; m_phases := ∅; m_io := 0; m_peak_io := 0;
     m_gpu := 0; m_peak_gpu := 0 |}.

Definition usage_add (u v : Usage) : Usage :=
  {| u_reserved := u_reserved u + u_reserved v; u_resident := u_resident u + u_resident v;
     u_transient := u_transient u + u_transient v; u_temp := u_temp u + u_temp v;
     u_cpu := u_cpu u + u_cpu v; u_native := u_native u + u_native v;
     u_active := u_active u + u_active v; u_execution := u_execution u + u_execution v |}.

Definition usage_sub (u v : Usage) : Usage :=
  {| u_reserved := u_reserved u - u_reserved v; u_resident := u_resident u - u_resident v;
     u_transient := u_transient u - u_transient v; u_temp := u_temp u - u_temp v;
     u_cpu := u_cpu u - u_cpu v; u_native := u_native u - u_native v;
     u_active := u_active u - u_active v; u_execution := u_execution u - u_execution v |}.

(** [peak = max(peak, current)] for the six maxima. *)
Definition raise_peaks (p : Peaks) (u : Usage) : Peaks :=
  {| p_reserved := Z.max (p_reserved p) (u_reserved u); p_cpu := Z.max (p_cpu p) (u_cpu u);
     p_resident := Z.max (p_resident p) (u_resident u);
     p_transient := Z.max (p_transient p) (u_transient u);
     p_temp := Z.max (p_temp p) (u_temp u); p_native := Z.max (p_native p) (u_native u) |}.

#[export] Instance Request_inhabited : Inhabited Request := populate
  {| r_route := []; r_memory := 0; r_cpu := 0; r_enqueued_ns := 0; r_resident := 0;
     r_transient := 0; r_temp := 0; r_native := 0; r_phase := None; r_resident_key := None;
     r_resident_charge := 0; r_waited := false; r_queued := false; r_admitted := false;
     r_released := false; r_wait_accounted := false; r_io := 0; r_io_device := None;
     r_gpu := 0; r_gpu_device := None; r_execution_active := false; r_processes := ∅;
     r_temp_materialized := 0; r_temp_file := None; r_draining_from := None;
     r_renewing_from := None; r_adaptive := false; r_native_limit := None |}.

#[export] Instance Metrics_inhabited : Inhabited Metrics := populate fresh_metrics.

(** ** Access to the shared objects *)

Definition request (c : Coordinator) (i : rid) : Request := c_requests c !!! i.
Definition route_metrics (c : Coordinator) (n : pystr) : Metrics := c_metrics c !!! n.
Definition queue (c : Coordinator) (n : pystr) : list rid := default [] (c_queues c !! n).

(** Mutations of one request and of one route's metrics. *)
Definition on_request (i : rid) (f : Request → Request) : Coordinator → Coordinator :=
  upd c_requests (alter f i).
Definition on_metrics (n : pystr) (f : Metrics → Metrics) : Coordinator → Coordinator :=
  upd c_metrics (alter f n).

(** [device or "default"] *)
Definition device_or_default (d : option pystr) : pystr :=
  match d with
  | Some k => if bool_decide (k = []) then default_device else k
  | None => default_device
  end.

(** [d[k] = d.get(k, 0) + n] and [d[k] -= n] on a counter dictionary. *)
Definition count_up (k : pystr) (n : Z) (m : gmap pystr Z) : gmap pystr Z :=
  <[k := default 0 (m !! k) + n]> m.

(** The invariants and the ledger's algebra. *)
Lemma usage_eq u v :
  u_reserved u = u_reserved v → u_resident u = u_resident v → u_transient u = u_transient v →
  u_temp u = u_temp v → u_cpu u = u_cpu v → u_native u = u_native v →
  u_active u = u_active v → u_execution u = u_execution v → u = v.
Proof. destruct u, v; cbn; congruence. Qed.

(** Coordinators with the same fields are equal. *)
Lemma Coordinator_eq a b :
  c_limits a = c_limits b → c_route_budgets a = c_route_budgets b → c_io_device_slots a
  = c_io_device_slots b → c_gpu_capacity a = c_gpu_capacity b → c_auto_memory a =
  c_auto_memory b → c_auto_cpu a = c_auto_cpu b → c_auto_native a = c_auto_native b →
  c_memory_budget a = c_memory_budget b → c_min_free_memory a = c_min_free_memory b →
  c_min_free_commit a = c_min_free_commit b → c_cpu_slots a = c_cpu_slots b →
  c_native_slots a = c_native_slots b → c_temp_budget a = c_temp_budget b →
  c_memory_hysteresis a = c_memory_hysteresis b → c_route_order a = c_route_order b →
  c_queues a = c_queues b → c_metrics a = c_metrics b → c_last_granted a =
  c_last_granted b → c_usage a = c_usage b → c_peaks a = c_peaks b → c_peak_active a =
  c_peak_active b → c_claims a = c_claims b → c_active a = c_active b → c_io_in_use a =
  c_io_in_use b → c_gpu_in_use a = c_gpu_in_use b → c_peak_io a = c_peak_io b →
  c_peak_gpu a = c_peak_gpu b → c_last_cpu_capacity a = c_last_cpu_capacity b →
  c_last_memory_budget a = c_last_memory_budget b → c_memory_pressure a =
  c_memory_pressure b → c_cpu_pressure a = c_cpu_pressure b → c_io_pressure a =
  c_io_pressure b → c_process_memory a = c_process_memory b → c_materialized_credit a =
  c_materialized_credit b → c_gpu_available a = c_gpu_available b → c_gpu_probed a =
  c_gpu_probed b → c_gpu_materialized a = c_gpu_materialized b → c_requests a =
  c_requests b → a = b.
Proof. destruct a, b. cbn. intros. by subst. Qed.
