(* ===== verification/ResourceLedger.v ===== *)
(** * The resource ledger (neocortex/runtime/control/global_resources.py,
      neocortex/runtime/control/resource_grants.py)

    The state transitions of the global resource coordinator on its ledger:
    grant with its rollback, release, release of execution, queue removal,
    shrinking and resizing of a lease.  The ledger invariant says that every
    counter, global or of one route, is the sum over the live leases. *)

From S2P Require Import Prelude IoIdentity ResourceModel.

(** ** Shared residency *)

(** [max(claims.values(), default=0)] *)
Definition claims_max (claims : gmap rid Z) : Z := max_default (snd <$> map_to_list claims).

Definition claims_of (c : Coordinator) (k : pystr * pystr) : gmap rid Z :=
  default ∅ (c_claims c !! k).

Definition claim_key (r : Request) : option (pystr * pystr) :=
  (λ k, (r_route r, k)) <$> r_resident_key r.

Definition resident_charge_for_request (c : Coordinator) (r : Request) : Z :=
  match claim_key r with
  | Some k => if r_resident r <=? 0 then r_resident r
              else Z.max 0 (r_resident r - claims_max (claims_of c k))
  | None => r_resident r
  end.

(** ** Measured credit *)

(** The loop over the live leases: each observed process is credited to the
    first lease that registered it, at most up to that lease's charge. *)
Fixpoint credit_fold (observed : gmap process_identity Z) (charge : Request → Z)
    (rs : list Request) (seen : gset process_identity) : Z :=
  match rs with
  | [] => 0
  | r :: rs' =>
      let fresh := (r_processes r ∖ seen) ∩ dom observed in
      let own := sum_with (λ i, Z.max 0 (observed !!! i)) (elements fresh) in
      Z.min (charge r) own + credit_fold observed charge rs' (seen ∪ fresh)
  end.

Definition active_requests (c : Coordinator) : list Request := request c <$> c_active c.

Definition materialized_credit (c : Coordinator) : Z :=
  Z.min (u_reserved (c_usage c)) (credit_fold (c_process_memory c) r_memory (active_requests c) ∅).

(** The credit is also kept for the summary. *)
Definition note_materialized_credit (c : Coordinator) : Coordinator :=
  upd c_materialized_credit (λ _, materialized_credit c) c.

Definition gpu_materialized_credit (c : Coordinator) (device : pystr) : Z :=
  Z.min (default 0 (c_gpu_in_use c !! device))
    (credit_fold (default ∅ (c_gpu_materialized c !! device)) r_gpu
       (filter (λ r, device_or_default (r_gpu_device r) = device) (active_requests c)) ∅).

(** ** Operations *)

(** A reading of the injected clock; [None] is an exception it raises. *)
Abbreviation clock := (option pyfloat).

Inductive ledger_error : Type :=
| ClockRaised
| ClockNotFinite
| EmptyQueue
| MissingDevice
| LeaseReleased
| CannotGrow
| NegativeSize
| NotRegularFile
| DescriptorChanged
| FileAlreadyLeased
| TempBudgetExceeded
| InsufficientDisk.

Abbreviation M A := (stm Coordinator ledger_error A).

Definition read_clock (k : clock) : M pyfloat := lift (or_raise k ClockRaised).

Definition nanoseconds (f : pyfloat) : result ledger_error Z :=
  or_raise (float_trunc (fmul f (float_of_int 1000000000))) ClockNotFinite.

(** [_record_wait_locked(request, self._clock())]: the argument reads the clock,
    and the body reads it again. *)
Definition record_wait (i : rid) (k1 k2 : clock) : M unit :=
  read_clock k1;;
  c ← get_state;
  let r := request c i in
  when (r_waited r && negb (r_wait_accounted r)) (
    now ← read_clock k2;
    ns ← lift (nanoseconds now);
    let elapsed := Z.max 0 (ns - r_enqueued_ns r) in
    modify (on_metrics (r_route r) (λ m,
      upd m_wait_ns (Z.add elapsed)
        (upd m_wait_seconds (λ w, fadd w (int_truediv elapsed 1000000000)) m)));;
    modify (on_request i (upd r_wait_accounted (λ _, true)))).

(** Removes the first occurrence of the request from its queue. *)
Fixpoint remove_first (i : rid) (q : list rid) : list rid :=
  match q with
  | [] => []
  | j :: q' => if decide (j = i) then q' else j :: remove_first i q'
  end.

Definition discard_queued_request (i : rid) (k1 k2 : clock) : M unit :=
  c ← get_state;
  let r := request c i in
  when (r_queued r) (
    modify (upd c_queues (alter (remove_first i) (r_route r)));;
    modify (on_request i (upd r_queued (λ _, false)));;
    record_wait i k1 k2).

(** What admitting [r] with the given resident charge adds to the counters;
    execution is counted separately. *)
Definition demand (r : Request) : Usage :=
  {| u_reserved := r_memory r; u_resident := r_resident_charge r;
     u_transient := r_transient r; u_temp := r_temp r; u_cpu := r_cpu r;
     u_native := r_native r; u_active := 1; u_execution := 0 |}.

Definition one_execution : Usage := upd u_execution (λ _, 1) no_usage.

Definition admit_metrics (r : Request) (m : Metrics) : Metrics :=
  let m1 := upd m_usage (λ u, usage_add u (demand r)) (upd m_admissions (Z.add 1) m) in
  let m2 := match r_phase r with
            | Some p => upd m_phases (count_up p 1) m1
            | None => m1
            end in
  upd m_peaks (λ p, raise_peaks p (m_usage m2)) m2.

Definition dict_values (m : gmap pystr Z) : Z := map_sum (λ _ v, v) m.

Definition pop_left (n : pystr) : M unit :=
  c ← get_state;
  match queue c n with
  | [] => throw EmptyQueue
  | _ :: q => modify (upd c_queues (<[n := q]>))
  end.

Definition add_io (r : Request) (c : Coordinator) : Coordinator :=
  let d := device_or_default (r_io_device r) in
  let c1 := on_metrics (r_route r) (λ m,
              let m1 := upd m_io (Z.add (r_io r)) m in
              upd m_peak_io (λ p, Z.max p (m_io m1)) m1)
            (upd c_io_in_use (count_up d (r_io r)) c) in
  upd c_peak_io (λ p, Z.max p (dict_values (c_io_in_use c1))) c1.

Definition add_gpu (r : Request) (c : Coordinator) : Coordinator :=
  let d := device_or_default (r_gpu_device r) in
  let c1 := on_metrics (r_route r) (λ m,
              let m1 := upd m_gpu (Z.add (r_gpu r)) m in
              upd m_peak_gpu (λ p, Z.max p (m_gpu m1)) m1)
            (upd c_gpu_in_use (count_up d (r_gpu r)) c) in
  upd c_peak_gpu (λ p, Z.max p (dict_values (c_gpu_in_use c1))) c1.

Definition needs_execution (r : Request) : bool :=
  negb (r_cpu r =? 0) || negb (r_native r =? 0) || negb (r_io r =? 0).

Definition add_active (i : rid) (active : list rid) : list rid :=
  if decide (i ∈ active) then active else active ++ [i].

(** The charges of the [try] block up to the wait accounting. *)
Definition charge_request (i : rid) (c : Coordinator) : Coordinator :=
  let charge := resident_charge_for_request c (request c i) in
  let c1 := on_request i (λ r, upd r_memory (λ _, charge + r_transient r)
                                 (upd r_resident_charge (λ _, charge) r)) c in
  let r := request c1 i in
  let c2 := upd c_usage (λ u, usage_add u (demand r)) c1 in
  let c3 := match claim_key r with
            | Some k => upd c_claims (<[k := <[i := r_resident r]> (claims_of c2 k)]>) c2
            | None => c2
            end in
  on_metrics (r_route r) (admit_metrics r) c3.

(** The rest of the [try] block. *)
Definition activate_request (i : rid) (c : Coordinator) : Coordinator :=
  let c1 := upd c_peak_active (λ p, Z.max p (u_active (c_usage c)))
              (upd c_peaks (λ p, raise_peaks p (c_usage c)) c) in
  let c2 := on_request i (λ r, upd r_execution_active (λ _, needs_execution r)
              (upd r_released (λ _, false) (upd r_admitted (λ _, true) r))) c1 in
  let c3 := upd c_active (add_active i) c2 in
  let r := request c3 i in
  let c4 := if r_execution_active r
            then on_metrics (r_route r) (upd m_usage (λ u, usage_add u one_execution))
                   (upd c_usage (λ u, usage_add u one_execution) c3)
            else c3 in
  let c5 := if r_io r =? 0 then c4 else add_io r c4 in
  if r_gpu r =? 0 then c5 else add_gpu r c5.

Definition grant_body (i : rid) (route_index : Z) (k1 k2 : clock) : M unit :=
  c ← get_state;
  pop_left (r_route (request c i));;
  modify (on_request i (upd r_queued (λ _, false)));;
  modify (upd c_last_granted (λ _, route_index));;
  modify (charge_request i);;
  when (r_waited (request c i)) (record_wait i k1 k2);;
  modify (activate_request i).

(** The [except BaseException] block: every saved field is put back, the
    request leaves the active reservations and stays out of its queue. *)
Definition rollback_metrics (saved m : Metrics) : Metrics :=
  {| m_admissions := m_admissions saved; m_waits := m_waits m;
     m_wait_seconds := m_wait_seconds saved; m_wait_ns := m_wait_ns saved;
     m_usage := m_usage saved; m_peaks := m_peaks saved; m_phases := m_phases saved;
     m_io := m_io saved; m_peak_io := m_peak_io saved;
     m_gpu := m_gpu saved; m_peak_gpu := m_peak_gpu saved |}.

Definition rollback_request (saved r : Request) : Request :=
  upd r_execution_active (λ _, false)
    (upd r_wait_accounted (λ _, r_wait_accounted saved)
       (upd r_memory (λ _, r_memory saved)
          (upd r_resident_charge (λ _, r_resident_charge saved)
             (upd r_queued (λ _, false)
                (upd r_admitted (λ _, false) (upd r_released (λ _, false) r)))))).

Definition restore_claim (k : option (pystr * pystr)) (saved c : Coordinator) : Coordinator :=
  match k with
  | Some k => upd c_claims (λ m, match c_claims saved !! k with
                                 | Some claims => <[k := claims]> m
                                 | None => delete k m
                                 end) c
  | None => c
  end.

Definition rollback_grant (i : rid) (saved c : Coordinator) : Coordinator :=
  let r0 := request saved i in
  let c1 := upd c_io_in_use (λ _, c_io_in_use saved)
             (upd c_gpu_in_use (λ _, c_gpu_in_use saved)
             (upd c_usage (λ _, c_usage saved)
             (upd c_last_granted (λ _, c_last_granted saved)
             (upd c_peaks (λ _, c_peaks saved)
             (upd c_peak_active (λ _, c_peak_active saved)
             (upd c_peak_io (λ _, c_peak_io saved)
             (upd c_peak_gpu (λ _, c_peak_gpu saved) c))))))) in
  let c2 := upd c_active (filter (λ j, j ≠ i)) c1 in
  let c3 := on_metrics (r_route r0) (rollback_metrics (route_metrics saved (r_route r0))) c2 in
  on_request i (rollback_request r0) (restore_claim (claim_key r0) saved c3).

(** [_grant_request_locked] *)
Definition grant_request (i : rid) (route_index : Z) (k1 k2 : clock) : M unit :=
  saved ← get_state;
  on_error (grant_body i route_index k1 k2) (rollback_grant i saved).

(** [d[k] -= n]; a missing key raises. *)
Definition count_down (k : pystr) (n : Z) (m : gmap pystr Z)
  : result ledger_error (gmap pystr Z) :=
  v ← or_raise (m !! k) MissingDevice; Ok (<[k := v - n]> m).

(** Drops the lease's residency claim; the residency it releases is what the
    largest claim under its key loses. *)
Definition drop_claim (i : rid) (c : Coordinator) : Coordinator * Z :=
  let r := request c i in
  match claim_key r with
  | Some k =>
      match c_claims c !! k with
      | Some claims =>
          let rest := delete i claims in
          let c' := if decide (rest = ∅) then upd c_claims (delete k) c
                    else upd c_claims (<[k := rest]>) c in
          (c', Z.max 0 (claims_max claims - claims_max rest))
      | None => (c, r_resident_charge r)
      end
  | None => (c, r_resident_charge r)
  end.

Definition released_demand (r : Request) (resident_released : Z) : Usage :=
  {| u_reserved := resident_released + r_transient r; u_resident := resident_released;
     u_transient := r_transient r; u_temp := r_temp r; u_cpu := r_cpu r;
     u_native := r_native r; u_active := 1;
     u_execution := if r_execution_active r then 1 else 0 |}.

Definition release_io (r : Request) : M unit :=
  when (negb (r_io r =? 0)) (
    c ← get_state;
    m ← lift (count_down (device_or_default (r_io_device r)) (r_io r) (c_io_in_use c));
    modify (λ c, on_metrics (r_route r) (upd m_io (λ z, z - r_io r))
                   (upd c_io_in_use (λ _, m) c))).

Definition release_gpu (r : Request) : M unit :=
  when (negb (r_gpu r =? 0)) (
    c ← get_state;
    m ← lift (count_down (device_or_default (r_gpu_device r)) (r_gpu r) (c_gpu_in_use c));
    modify (λ c, on_metrics (r_route r) (upd m_gpu (λ z, z - r_gpu r))
                   (upd c_gpu_in_use (λ _, m) c))).

Definition release_body (i : rid) (resident_released : Z) : M unit :=
  c ← get_state;
  let r := request c i in
  let d := released_demand r resident_released in
  modify (λ c, on_metrics (r_route r) (upd m_usage (λ u, usage_sub u d))
                 (upd c_usage (λ u, usage_sub u d) c));;
  modify (on_request i (upd r_execution_active (λ _, false)));;
  release_io r;;
  release_gpu r.

(** The [except] block of the release; the claims are put back too. *)
Definition rollback_release (i : rid) (saved c : Coordinator) : Coordinator :=
  let r0 := request saved i in
  let c1 := upd c_io_in_use (λ _, c_io_in_use saved)
             (upd c_gpu_in_use (λ _, c_gpu_in_use saved)
             (upd c_usage (λ _, c_usage saved) c)) in
  let m0 := route_metrics saved (r_route r0) in
  let c2 := on_metrics (r_route r0) (λ m,
              upd m_usage (λ _, m_usage m0) (upd m_io (λ _, m_io m0)
                (upd m_gpu (λ _, m_gpu m0) m))) c1 in
  on_request i (upd r_execution_active (λ _, r_execution_active r0))
    (restore_claim (claim_key r0) saved c2).

(** [_release_admission_locked] *)
Definition release_admission (i : rid) : M unit :=
  saved ← get_state;
  let r := request saved i in
  when (r_admitted r && negb (r_released r)) (
    let '(c1, resident_released) := drop_claim i saved in
    on_error (put_state c1;; release_body i resident_released) (rollback_release i saved);;
    modify (on_request i (λ r, upd r_released (λ _, true) (upd r_admitted (λ _, false) r)));;
    modify (upd c_active (filter (λ j, j ≠ i)))).

(** [_release_execution] *)
Definition execution_demand (r : Request) : Usage :=
  upd u_execution (λ _, 1) (upd u_native (λ _, r_native r) (upd u_cpu (λ _, r_cpu r) no_usage)).

Definition release_execution (i : rid) : M unit :=
  c ← get_state;
  let r := request c i in
  when (r_admitted r && negb (r_released r) && r_execution_active r) (
    modify (upd c_usage (λ u, usage_sub u (upd u_execution (λ _, 0) (execution_demand r))));;
    modify (on_metrics (r_route r) (upd m_usage (λ u,
      usage_sub u (upd u_execution (λ _, 0) (execution_demand r)))));;
    release_io r;;
    modify (on_request i (λ r, upd r_execution_active (λ _, false)
      (upd r_io (λ _, 0) (upd r_native (λ _, 0) (upd r_cpu (λ _, 0) r)))));;
    modify (upd c_usage (λ u, usage_sub u one_execution));;
    modify (on_metrics (r_route r) (upd m_usage (λ u, usage_sub u one_execution)))).

(** [_cleanup_request]; the exceptions it meets are attached to the primary
    one by the caller. *)
Definition cleanup_request (i : rid) (k1 k2 : clock) : M unit :=
  c ← get_state;
  let r := request c i in
  if r_queued r then discard_queued_request i k1 k2
  else when (r_admitted r && negb (r_released r)) (release_admission i).

(** [ResourceGrant.shrink_transient_bytes] *)
Definition shrink_transient_bytes (i : rid) (amount : Z) : M unit :=
  c ← get_state;
  let r := request c i in
  throw_if (negb (r_admitted r) || r_released r) LeaseReleased;;
  throw_if ((amount <? 0) || (r_transient r <? amount)) CannotGrow;;
  let released := r_transient r - amount in
  let d := upd u_transient (λ _, released) (upd u_reserved (λ _, released) no_usage) in
  modify (on_request i (λ r, upd r_memory (λ m, m - released) (upd r_transient (λ _, amount) r)));;
  modify (upd c_usage (λ u, usage_sub u d));;
  modify (on_metrics (r_route r) (upd m_usage (λ u, usage_sub u d)));;
  modify note_materialized_credit.

(** What the kernel says of the owned descriptor, when one is passed, and of
    the free space of its filesystem (of the directory otherwise). *)
Record temp_file : Type := { tf_regular : bool; tf_identity : Z * Z; tf_size : Z }.
Record temp_env : Type := { te_file : option temp_file; te_free : Z }.

Definition others (c : Coordinator) (i : rid) : list Request :=
  request c <$> filter (λ j, j ≠ i) (c_active c).

Definition pending_temp (rs : list Request) : Z :=
  sum_with (λ r, Z.max 0 (r_temp r - r_temp_materialized r)) rs.

Definition file_is_leased (c : Coordinator) (i : rid) (identity : Z * Z) : bool :=
  existsb (λ r, negb (r_temp r =? 0) && bool_decide (r_temp_file r = Some identity)) (others c i).

(** The materialized bytes and the identity the descriptor vouches for. *)
Definition observe_temp_file (i : rid) (e : temp_env) : M (Z * option (Z * Z)) :=
  c ← get_state;
  let r := request c i in
  match te_file e with
  | None => mret (0, None)
  | Some f =>
      throw_if (negb (tf_regular f)) NotRegularFile;;
      throw_if (match r_temp_file r with
                | Some old => negb (bool_decide (old = tf_identity f))
                | None => false
                end) DescriptorChanged;;
      throw_if (file_is_leased c i (tf_identity f)) FileAlreadyLeased;;
      mret (Z.min (r_temp r) (Z.max 0 (tf_size f)), Some (tf_identity f))
  end.

(** [ResourceGrant.resize_temp_bytes] *)
Definition resize_temp_bytes (i : rid) (amount : Z) (e : temp_env) : M unit :=
  throw_if (amount <? 0) NegativeSize;;
  c ← get_state;
  let r := request c i in
  throw_if (negb (r_admitted r) || r_released r) LeaseReleased;;
  '(materialized, identity) ← observe_temp_file i e;
  let delta := amount - r_temp r in
  let future := u_temp (c_usage c) + delta in
  when (0 <? delta) (
    throw_if (match l_temp_budget (c_limits c) with Some b => b <? future | None => false end)
      TempBudgetExceeded;;
    throw_if (te_free e <? Z.max 0 (amount - materialized) + pending_temp (others c i))
      InsufficientDisk;;
    when (negb (bool_decide (is_Some (l_temp_budget (c_limits c)))))
      (modify (upd c_temp_budget (λ _,
         sum_with r_temp_materialized (others c i) + materialized + te_free e))));;
  modify (on_request i (λ r,
    upd r_temp (λ _, amount)
      (upd r_temp_file (λ _, if amount =? 0 then None else identity)
         (upd r_temp_materialized (λ _, Z.min amount materialized) r))));;
  modify (upd c_usage (upd u_temp (λ _, future)));;
  modify (upd c_peaks (upd p_temp (λ p, Z.max p future)));;
  modify (on_metrics (r_route r) (λ m,
    let m1 := upd m_usage (upd u_temp (Z.add delta)) m in
    upd m_peaks (upd p_temp (λ p, Z.max p (u_temp (m_usage m1)))) m1)).

(** [register_process], once the process tree has been verified. *)
Definition register_process (i : rid) (p : process_identity) : M unit :=
  c ← get_state;
  let r := request c i in
  throw_if (negb (r_admitted r) || r_released r) LeaseReleased;;
  modify (on_request i (upd r_processes (union {[p]}))).

(** [register_route]; the name has been stripped and is not empty. *)
Definition register_route (n : pystr) (c : Coordinator) : Coordinator :=
  match c_queues c !! n with
  | Some _ => c
  | None => upd c_metrics (<[n := fresh_metrics]>)
              (upd c_queues (<[n := []]>) (upd c_route_order (λ o, o ++ [n]) c))
  end.

(** Joining a queue in [admission_scope]: at its tail, or at its head for a
    renewal or a drain. *)
Definition enqueue (i : rid) (r : Request) (front : bool) (c : Coordinator) : Coordinator :=
  upd c_requests (<[i := upd r_queued (λ _, true) r]>)
    (upd c_queues (alter (λ q, if front then i :: q else q ++ [i]) (r_route r)) c).

(** The first time a queued request is not served, [admission_scope] marks it
    and counts one wait of its route. *)
Definition mark_waited (i : rid) : M unit :=
  c ← get_state;
  let r := request c i in
  when (negb (r_waited r)) (
    modify (on_request i (upd r_waited (λ _, true)));;
    modify (on_metrics (r_route r) (upd m_waits (Z.add 1)))).
