(* ===== verification/ResourceInit.v ===== *)
(** * Building a coordinator (GlobalResourceCoordinator.__init__)

    The configuration the constructor accepts, the limits it derives from the
    memory of the machine and the empty ledger it starts from. *)

From S2P Require Import Prelude IoIdentity ResourceModel ResourceLedger.

(** [adaptive_memory_headroom] and [adaptive_memory_budget] *)
Definition adaptive_memory_headroom (total_physical : option Z) : Z :=
  match total_physical with
  | Some t => if t <=? 0 then 64 * MIB else Z.max 1 (Z.min (512 * MIB) (t / 32))
  | None => 64 * MIB
  end.

Definition adaptive_memory_budget (total_physical : option Z) : Z :=
  match total_physical with
  | Some t => if t <=? 0 then GIB else Z.max 1 (t - adaptive_memory_headroom (Some t))
  | None => GIB
  end.

(** [adaptive_cpu_slots] on what the processor probe returned. *)
Definition adaptive_cpu_slots (probed : Z) : Z := Z.max 1 probed.

Inductive init_error : Type :=
| RoutesNotUnique
| DeviceSlots (e : device_error)
| WaitTimeoutNegative
| PollIntervalNotPositive
| SampleIntervalNotPositive
| CpuLoadOutOfRange
| CpuHysteresisNegative
| MemoryPressureThresholds
| MemoryHysteresisNegative
| NativeSlotsNotPositive
| TempBudgetNotPositive
| IoSlotsNotPositive
| DeviceSlotsNotPositive
| GpuMemoryNotPositive
| IoPressureThresholds
| RouteBudgetName
| RouteBudgetValue
| RouteBudgetDuplicate
| MemoryBudgetNotPositive
| HeadroomNegative
| CpuSlotsNotPositive.

Definition fzero : pyfloat := S754_zero false.
Definition fltb (a b : pyfloat) : bool := SFltb a b.
Definition fleb (a b : pyfloat) : bool := SFleb a b.

Definition below_one (o : option Z) : bool :=
  match o with Some z => z <? 1 | None => false end.

Definition any_below_one (m : gmap pystr Z) : bool :=
  existsb (λ z, z <? 1) (snd <$> map_to_list m).

(** The checks on the scalar limits, in the order the constructor makes them. *)
Definition check_limits (l : GlobalResourceLimits) (io_slots gpu_memory : gmap pystr Z)
  : result init_error unit :=
  raise_if (match l_wait_timeout l with Some t => fltb t fzero | None => false end)
    WaitTimeoutNegative;;
  raise_if (fleb (l_poll_interval l) fzero) PollIntervalNotPositive;;
  raise_if (fleb (l_sample_interval l) fzero) SampleIntervalNotPositive;;
  raise_if (negb (fltb fzero (l_max_cpu_load l) && fleb (l_max_cpu_load l) (float_of_int 100)))
    CpuLoadOutOfRange;;
  raise_if (fltb (l_cpu_hysteresis l) fzero) CpuHysteresisNegative;;
  raise_if (negb (fleb fzero (l_pressure_recovery l) &&
                  fleb (l_pressure_recovery l) (l_pressure_high l))) MemoryPressureThresholds;;
  raise_if (match l_memory_hysteresis l with Some z => z <? 0 | None => false end)
    MemoryHysteresisNegative;;
  raise_if (below_one (l_native_slots l)) NativeSlotsNotPositive;;
  raise_if (below_one (l_temp_budget l)) TempBudgetNotPositive;;
  raise_if (below_one (l_io_slots l)) IoSlotsNotPositive;;
  raise_if (any_below_one io_slots) DeviceSlotsNotPositive;;
  raise_if (any_below_one gpu_memory) GpuMemoryNotPositive;;
  raise_if (negb (fleb fzero (l_io_pressure_recovery l) &&
                  fleb (l_io_pressure_recovery l) (l_io_pressure_high l))) IoPressureThresholds.

(** The loop over [route_memory_budgets]. *)
Fixpoint route_budgets (seen : gmap pystr Z) (items : list (pyval * pyval))
  : result init_error (gmap pystr Z) :=
  match items with
  | [] => Ok seen
  | (name, budget) :: rest =>
      n ← match name with
          | PStr s => if bool_decide (strip s = []) then Err RouteBudgetName else Ok (strip s)
          | _ => Err RouteBudgetName
          end;
      b ← match budget with
          | PInt z => if z <? 1 then Err RouteBudgetValue else Ok z
          | _ => Err RouteBudgetValue
          end;
      match seen !! n with
      | Some _ => Err RouteBudgetDuplicate
      | None => route_budgets (<[n := b]> seen) rest
      end
  end.

(** What the constructor reads from the machine: the physical memory of the
    first sample, the processors and the free space of the temporary
    directory. *)
Record machine : Type := {
  mc_total_physical : option Z;
  mc_cpus : Z;
  mc_disk_free : Z;
}.

Definition per_route {A} (order : list pystr) (a : A) : gmap pystr A :=
  list_to_map ((λ n, (n, a)) <$> order).

Definition or_else (o : option Z) (z : Z) : Z := default z o.

(** The ledger of a new coordinator: nothing queued, nothing charged. *)
Definition new_coordinator (order : list pystr) (l : GlobalResourceLimits)
    (budgets io_slots gpu_memory : gmap pystr Z) (mc : machine) : Coordinator :=
  let headroom := adaptive_memory_headroom (mc_total_physical mc) in
  let memory := or_else (l_memory_budget l) (adaptive_memory_budget (mc_total_physical mc)) in
  let cpus := or_else (l_cpu_slots l) (adaptive_cpu_slots (mc_cpus mc)) in
  {| c_limits := l; c_route_budgets := budgets; c_io_device_slots := io_slots;
     c_gpu_capacity := gpu_memory;
     c_auto_memory := negb (bool_decide (is_Some (l_memory_budget l)));
     c_auto_cpu := negb (bool_decide (is_Some (l_cpu_slots l)));
     c_auto_native := negb (bool_decide (is_Some (l_native_slots l)));
     c_memory_budget := memory;
     c_min_free_memory := or_else (l_min_free_memory l) headroom;
     c_min_free_commit := or_else (l_min_free_commit l) headroom;
     c_cpu_slots := cpus;
     c_native_slots := or_else (l_native_slots l) cpus;
     c_temp_budget := or_else (l_temp_budget l) (mc_disk_free mc);
     c_memory_hysteresis := or_else (l_memory_hysteresis l)
                              (Z.max 1 (Z.min (256 * MIB) (headroom / 10)));
     c_route_order := order; c_queues := per_route order []; c_metrics := per_route order fresh_metrics;
     c_last_granted := -1; c_usage := no_usage; c_peaks := no_peaks; c_peak_active := 0;
     c_claims := ∅; c_active := []; c_io_in_use := ∅; c_gpu_in_use := ∅; c_peak_io := 0;
     c_peak_gpu := 0; c_last_cpu_capacity := cpus; c_last_memory_budget := memory;
     c_memory_pressure := false; c_cpu_pressure := false; c_io_pressure := false;
     c_process_memory := ∅; c_materialized_credit := 0; c_gpu_available := ∅; c_gpu_probed := ∅;
     c_gpu_materialized := ∅; c_requests := ∅ |}.

Definition init_coordinator (order : list pystr) (l : GlobalResourceLimits)
    (io_device_slots : option (list (device_value * Z))) (gpu_memory : option (gmap pystr Z))
    (route_memory_budgets : option (list (pyval * pyval))) (mc : machine)
  : result init_error Coordinator :=
  raise_if (bool_decide (order = []) || negb (bool_decide (NoDup order))) RoutesNotUnique;;
  slots ← match normalize_io_device_slots io_device_slots with
          | Ok slots => Ok (default ∅ slots)
          | Err e => Err (DeviceSlots e)
          end;
  let gpu := default ∅ gpu_memory in
  check_limits l slots gpu;;
  budgets ← route_budgets ∅ (default [] route_memory_budgets);
  let c := new_coordinator order l budgets slots gpu mc in
  raise_if (c_memory_budget c <? 1) MemoryBudgetNotPositive;;
  raise_if ((c_min_free_memory c <? 0) || (c_min_free_commit c <? 0)) HeadroomNegative;;
  raise_if (c_cpu_slots c <? 1) CpuSlotsNotPositive;;
  Ok c.

(** ** What the constructor guarantees *)

Lemma per_route_lookup {A} order (a : A) n :
  per_route order a !! n = if decide (n ∈ order) then Some a else None.
Proof.
  unfold per_route. destruct (decide (n ∈ order)) as [Hn|Hn].
  - induction order as [|m order IH]; [by apply elem_of_nil in Hn|]. cbn.
    destruct (decide (n = m)) as [->|Hne]; [by rewrite lookup_insert_eq|].
    rewrite lookup_insert_ne by done. apply IH. set_solver.
  - apply not_elem_of_list_to_map_1. intros ([m v]&Hm&Hin)%list_elem_of_fmap. cbn in Hm. subst m.
    apply list_elem_of_fmap in Hin as (k&[= -> ->]&Hk). done.
Qed.

Lemma route_budgets_positive items : ∀ seen m,
  route_budgets seen items = Ok m → map_Forall (λ n b, strip n = n ∧ n ≠ [] ∧ 1 <= b) seen →
  map_Forall (λ n b, strip n = n ∧ n ≠ [] ∧ 1 <= b) m.
Proof.
  induction items as [|[name budget] items IH]; cbn [route_budgets]; intros seen m H Hs;
    [by injection H as <-|].
  inv_ok. destruct name as [| | | |s| |]; try discriminate. case_bool_decide as Hn; [discriminate|].
  destruct budget as [| |z| | | |]; try discriminate. destruct (z <? 1) eqn:Hz; [discriminate|].
  inv_ok. destruct (seen !! _); [discriminate|]. eapply IH; [done|].
  apply map_Forall_insert_2; [|done]. bool_prop. split; [apply strip_idemp|]. split; [done|lia].
Qed.

Lemma any_below_one_false m : any_below_one m = false → map_Forall (λ _ z, 1 <= z) m.
Proof.
  unfold any_below_one. intros H n z Hz.
  assert (z <? 1 = false) as Hlt; [|bool_prop; lia].
  destruct (z <? 1) eqn:Hlt; [|done]. rewrite <- H. symmetry. apply existsb_exists. exists z.
  split; [|done]. apply list_elem_of_In, list_elem_of_fmap. exists (n, z).
  split; [done|]. by apply elem_of_map_to_list.
Qed.

(** Every budget of a coordinator that was built is usable. *)
Record usable (c : Coordinator) : Prop := {
  us_routes : c_route_order c ≠ [] ∧ NoDup (c_route_order c);
  us_memory : 1 <= c_memory_budget c;
  us_cpu : 1 <= c_cpu_slots c;
  us_native : 1 <= c_native_slots c;
  us_headroom : 0 <= c_min_free_memory c ∧ 0 <= c_min_free_commit c;
  us_hysteresis : 0 <= c_memory_hysteresis c;
  us_route_budgets : map_Forall (λ n b, strip n = n ∧ n ≠ [] ∧ 1 <= b) (c_route_budgets c);
  us_devices : map_Forall (λ _ z, 1 <= z) (c_io_device_slots c);
  us_gpus : map_Forall (λ _ z, 1 <= z) (c_gpu_capacity c);
}.

Lemma init_coordinator_ok order l dev gpu budgets mc c :
  init_coordinator order l dev gpu budgets mc = Ok c →
  usable c ∧ ∃ b s g, c = new_coordinator order l b s g mc.
Proof.
  unfold init_coordinator, check_limits. intros H. cbv zeta in H. inv_ok.
  split; [|by do 3 eexists].
  repeat match goal with
  | H : _ || _ = false |- _ => apply orb_false_iff in H as [? ?]
  | H : (_ <? _) = false |- _ => apply Z.ltb_ge in H
  | H : negb _ = false |- _ => apply negb_false_iff in H
  end.
  split.
  - cbn. by apply bool_decide_eq_false in H; apply bool_decide_eq_true in H19.
  - done.
  - done.
  - cbn in *. unfold or_else, below_one in *. destruct (l_native_slots l); cbn; bool_prop; lia.
  - done.
  - cbn. unfold or_else. destruct (l_memory_hysteresis l); cbn; bool_prop; lia.
  - cbn. eapply route_budgets_positive; [done|]. apply map_Forall_empty.
  - by apply any_below_one_false.
  - by apply any_below_one_false.
Qed.

(** ** A concrete coordinator *)

(** The defaults of [GlobalResourceLimits] with an explicit memory budget. *)
Definition sample_limits : GlobalResourceLimits :=
  {| l_memory_budget := Some 1000; l_min_free_memory := Some 10; l_min_free_commit := Some 10;
     l_cpu_slots := Some 4; l_max_cpu_load := float_of_int 90; l_wait_timeout := None;
     l_poll_interval := float_of_int 1; l_native_slots := None;
     l_cpu_hysteresis := float_of_int 5; l_memory_hysteresis := None;
     l_sample_interval := float_of_int 1; l_temp_budget := Some 500;
     l_pressure_high := float_of_int 10; l_pressure_recovery := float_of_int 5;
     l_io_slots := None; l_io_pressure_high := float_of_int 20;
     l_io_pressure_recovery := float_of_int 10 |}.

Definition sample_machine : machine :=
  {| mc_total_physical := Some (16 * GIB); mc_cpus := 8; mc_disk_free := GIB |}.

Definition sample_routes : list pystr := [py "pdf"; py "docx"].

Definition sample_coordinator : Coordinator :=
  new_coordinator sample_routes sample_limits ∅ ∅ ∅ sample_machine.

Lemma sample_init :
  init_coordinator sample_routes sample_limits None None None sample_machine =
    Ok sample_coordinator.
Proof. by vm_compute. Qed.

(** A request of the first route: 100 shared resident and 50 transient bytes,
    one CPU slot, one I/O slot. *)
Definition sample_request : Request :=
  {| r_route := py "pdf"; r_memory := 150; r_cpu := 1; r_enqueued_ns := 0; r_resident := 100;
     r_transient := 50; r_temp := 20; r_native := 1; r_phase := Some (py "read");
     r_resident_key := Some (py "model"); r_resident_charge := 0; r_waited := false;
     r_queued := false; r_admitted := false; r_released := false; r_wait_accounted := false;
     r_io := 1; r_io_device := Some (py "dev:801"); r_gpu := 0; r_gpu_device := None;
     r_execution_active := false; r_processes := ∅; r_temp_materialized := 0;
     r_temp_file := None; r_draining_from := None; r_renewing_from := None; r_adaptive := false;
     r_native_limit := None |}.

(** The same request after it had to wait. *)
Definition sample_waiting : Request := upd r_waited (λ _, true) sample_request.
