(* ===== verification/ResourceSchedule.v ===== *)
(** * Scheduling predicates (neocortex/runtime/control/resource_scheduling.py)

    Which queued request fits the live capacity, which route is served next,
    and how many workers a route may plan.  The predicates run under the
    coordinator's lock on one observation of the system. *)

From S2P Require Import Prelude IoIdentity ResourceModel ResourceLedger ResourceInit.

(** One observation: the free physical memory and commit, the effective CPU
    slots, and what each call reads of the temporary filesystem and of the
    monotonic clock. *)
Record selection : Type := {
  se_physical : option Z;
  se_commit : option Z;
  se_cpu : Z;
  se_disk_free : rid → Z;
  se_now : rid → pyfloat;
}.

Abbreviation S A := (stm Coordinator device_error A).

Definition device_text (d : option pystr) : device_value :=
  match d with Some s => DText s | None => DNone end.

(** [_io_capacity] *)
Definition io_capacity (c : Coordinator) (device : pystr) : result device_error Z :=
  k ← io_device_key (DText device);
  Ok (match c_io_device_slots c !! k with
      | Some configured => Z.max 1 configured
      | None => match l_io_slots (c_limits c) with
                | Some slots => Z.max 1 slots
                | None => Z.max 1 (c_last_cpu_capacity c)
                end
      end).

(** [_gpu_available_locked]: a cached reading, unless it is older than four
    sampling intervals (at least two seconds). *)
Definition gpu_available (c : Coordinator) (device : pystr) (now : pyfloat) : option Z :=
  match c_gpu_available c !! device with
  | None => None
  | Some (value, at_) =>
      let four := fmul (l_sample_interval (c_limits c)) (float_of_int 4) in
      let two := float_of_int 2 in
      let ttl := if fltb two four then four else two in
      if fltb ttl (fsub now at_) then None else value
  end.

Definition is_draining (r : Request) : bool := bool_decide (is_Some (r_draining_from r)).

(** The lease a drain finalizes is still live. *)
Definition drain_source_live (c : Coordinator) (r : Request) : bool :=
  match r_draining_from r with
  | Some j => bool_decide (j ∈ c_active c)
  | None => true
  end.

Definition uses_execution (r : Request) : bool :=
  (0 <? r_cpu r) || (0 <? r_native r) || (0 <? r_io r).

Definition under_pressure (c : Coordinator) : bool :=
  c_memory_pressure c || c_cpu_pressure c || c_io_pressure c.

Definition finalizer_running (c : Coordinator) : bool :=
  existsb (λ r, is_draining r && r_execution_active r) (active_requests c).

Definition over (bound : option Z) (z : Z) : bool :=
  match bound with Some b => b <? z | None => false end.

(** The memory a grant of [r] would reserve, globally and for its route. *)
Definition future_memory (c : Coordinator) (r : Request) : Z :=
  u_reserved (c_usage c) + resident_charge_for_request c r + r_transient r.

Definition route_future_memory (c : Coordinator) (r : Request) : Z :=
  u_reserved (m_usage (route_metrics c (r_route r))) + resident_charge_for_request c r + r_transient r.

Definition memory_fits (c : Coordinator) (r : Request) : bool :=
  (future_memory c r <=? c_last_memory_budget c) &&
  negb (over (c_route_budgets c !! r_route r) (route_future_memory c r)) &&
  negb (c_memory_pressure c || (c_cpu_pressure c && uses_execution r)).

(** The CPU slots the request is measured against: a drain under pressure may
    always use one. *)
Definition cpu_allowance (c : Coordinator) (r : Request) (slots : Z) : Z :=
  if is_draining r && under_pressure c then Z.max 1 slots else slots.

Definition width_fits (c : Coordinator) (r : Request) (slots : Z) : bool :=
  (u_cpu (c_usage c) + r_cpu r <=? slots) &&
  (u_native (c_usage c) + r_native r <=? Z.min (c_native_slots c) slots).

Definition temp_fits (c : Coordinator) (r : Request) (free : Z) : bool :=
  (r_temp r + u_temp (c_usage c) <=? c_temp_budget c) &&
  ((r_temp r =? 0) || (pending_temp (active_requests c) + r_temp r <=? free)).

Definition io_fits (c : Coordinator) (r : Request) (device : pystr) : result device_error bool :=
  if r_io r =? 0 then Ok true
  else if c_io_pressure c && negb (is_draining r) then Ok false
  else capacity ← io_capacity c device;
       Ok (default 0 (c_io_in_use c !! device) + r_io r <=? capacity).

Definition gpu_fits (c : Coordinator) (r : Request) (now : pyfloat) : bool :=
  if r_gpu r =? 0 then true
  else
    let device := device_or_default (r_gpu_device r) in
    let used := default 0 (c_gpu_in_use c !! device) in
    (used + r_gpu r <=? default 0 (c_gpu_capacity c !! device)) &&
    (if decide (device ∈ c_gpu_probed c)
     then match gpu_available c device now with
          | None => false
          | Some available =>
              used - gpu_materialized_credit c device + r_gpu r <=? available
          end
     else true).

Definition headroom_fits (c : Coordinator) (r : Request) (e : selection) : bool :=
  let incremental := Z.max 0 (future_memory c r - materialized_credit c) in
  match se_physical e with
  | Some a => c_min_free_memory c + incremental <=? a
  | None => true
  end &&
  match se_commit e with
  | Some a => c_min_free_commit c + incremental <=? a
  | None => true
  end.

(** [fits].  Reading the materialized credit also caches it. *)
Definition fits (e : selection) (i : rid) : S bool :=
  c ← get_state;
  let r := request c i in
  let draining := is_draining r in
  if negb (drain_source_live c r) then mret false
  else if negb draining && negb (memory_fits c r) then mret false
  else if draining && under_pressure c && finalizer_running c then mret false
  else if negb (width_fits c r (cpu_allowance c r (se_cpu e))) then mret false
  else if negb (temp_fits c r (se_disk_free e i)) then mret false
  else
    device ← lift (io_device_key (device_text (r_io_device r)));
    io_ok ← lift (io_fits c r device);
    if negb io_ok then mret false
    else if negb (gpu_fits c r (se_now e i)) then mret false
    else if draining then mret true
    else modify note_materialized_credit;; mret (headroom_fits c r e).

(** ** The next route *)

(** The routes in the order they are served: from the one after the last
    granted. *)
Definition ordered_routes (c : Coordinator) : list pystr :=
  let n := zlen (c_route_order c) in
  (λ offset, c_route_order c !!! Z.to_nat ((c_last_granted c + Z.of_nat offset) mod n))
    <$> seq 1 (length (c_route_order c)).

Definition queue_head (c : Coordinator) (n : pystr) : option rid := head (queue c n).

(** The width an adaptive request runs with is chosen now. *)
Definition adapt_width (c : Coordinator) (slots : Z) (r : Request) : Request :=
  if r_adaptive r then
    let available := Z.min (slots - u_cpu (c_usage c))
                       (Z.min (c_native_slots c) slots - u_native (c_usage c)) in
    let available := match r_native_limit r with
                     | Some limit => Z.min available limit
                     | None => available
                     end in
    let width := Z.max 1 available in
    upd r_cpu (λ _, width) (upd r_native (λ _, width) r)
  else r.

Fixpoint adapt_heads (slots : Z) (routes : list pystr) (c : Coordinator) : Coordinator :=
  match routes with
  | [] => c
  | n :: rest =>
      adapt_heads slots rest
        (match queue_head c n with
         | Some i => on_request i (adapt_width c slots) c
         | None => c
         end)
  end.

Fixpoint fitting_routes (e : selection) (routes : list pystr) : S (list pystr) :=
  match routes with
  | [] => mret []
  | n :: rest =>
      c ← get_state;
      ok ← match queue_head c n with
           | Some i => fits e i
           | None => mret false
           end;
      more ← fitting_routes e rest;
      mret (if (ok : bool) then n :: more else more)
  end.

Definition head_draining (c : Coordinator) (n : pystr) : bool :=
  match queue_head c n with Some i => is_draining (request c i) | None => false end.

Definition no_cpu (c : Coordinator) (n : pystr) : bool :=
  u_cpu (m_usage (route_metrics c n)) =? 0.

Definition choose_route (c : Coordinator) (fitting : list pystr) : option pystr :=
  match List.find (head_draining c) fitting with
  | Some n => Some n
  | None => match List.find (no_cpu c) fitting with
            | Some n => Some n
            | None => head fitting
            end
  end.

(** [next_route] *)
Definition next_route (e : selection) : S (option pystr) :=
  c ← get_state;
  let routes := ordered_routes c in
  modify (adapt_heads (se_cpu e) routes);;
  fitting ← fitting_routes e routes;
  c' ← get_state;
  mret (choose_route c' fitting).

(** ** Planning workers *)

Inductive plan_error : Type :=
| MaxWorkersNotPositive
| DemandNegative
| OverMemoryCapacity
| OverRouteBudget
| GpuDemand
| OverGpuCapacity
| LoadNotFinite.

Definition at_most (bound : option Z) (z : Z) : Z :=
  match bound with Some b => Z.min z b | None => z end.

(** The memory left for one more set of workers of the route. *)
Definition plan_memory (c : Coordinator) (e : selection) (route_budget : option Z) (own : Usage)
    (reusable : Z) : Z :=
  let remaining := c_last_memory_budget c - u_reserved (c_usage c) + u_transient own + reusable in
  let remaining := match route_budget with
                   | Some b => Z.min remaining (b - u_reserved own + u_transient own + reusable)
                   | None => remaining
                   end in
  let unmaterialized := u_reserved (c_usage c) - materialized_credit c - u_transient own - reusable in
  let remaining := at_most ((λ a, a - c_min_free_memory c - unmaterialized) <$> se_physical e) remaining in
  at_most ((λ a, a - c_min_free_commit c - unmaterialized) <$> se_commit e) remaining.

(** [worker_capacity], on the observation [e] it has just taken. *)
Definition worker_capacity (route : option pystr) (max_workers : option Z)
    (estimated native reusable : Z) (e : selection) : stm Coordinator plan_error Z :=
  throw_if (match max_workers with Some m => m <? 1 | None => false end) MaxWorkersNotPositive;;
  throw_if ((estimated <? 0) || (native <? 0) || (reusable <? 0)) DemandNegative;;
  c ← get_state;
  throw_if (c_last_memory_budget c <? estimated) OverMemoryCapacity;;
  let route_budget := route ≫= λ n, c_route_budgets c !! n in
  throw_if (over route_budget estimated) OverRouteBudget;;
  if c_memory_pressure c || c_cpu_pressure c then mret 0
  else
    let own := match route ≫= λ n, c_metrics c !! n with
               | Some m => m_usage m
               | None => no_usage
               end in
    let reusable_residence := match route ≫= λ n, c_metrics c !! n with
                              | Some m => Z.min (u_resident (m_usage m)) reusable
                              | None => 0
                              end in
    let slots := Z.max 0 (se_cpu e - u_cpu (c_usage c) + u_cpu own) in
    let slots :=
      if native =? 0 then slots
      else let available := Z.min (c_native_slots c) (se_cpu e) - u_native (c_usage c) + u_native own in
           Z.min slots (Z.max 0 (available / native)) in
    when (negb (estimated =? 0)) (modify note_materialized_credit);;
    let slots :=
      if estimated =? 0 then slots
      else Z.min slots
             (Z.max 0 (plan_memory c e route_budget own reusable_residence / estimated)) in
    mret (Z.max 0 (at_most max_workers slots)).

(** [gpu_worker_capacity], once the device has been sampled. *)
Definition gpu_worker_capacity (route device : pystr) (estimated reusable : Z) (now : pyfloat)
    (c : Coordinator) : result plan_error Z :=
  raise_if ((estimated <=? 0) || (reusable <? 0)) GpuDemand;;
  let configured := default 0 (c_gpu_capacity c !! device) in
  raise_if (configured <? estimated) OverGpuCapacity;;
  let own := sum_with r_gpu
    (filter (λ r, r_route r = route ∧ device_or_default (r_gpu_device r) = device)
       (active_requests c)) in
  let credit := Z.min own reusable in
  let reserved := default 0 (c_gpu_in_use c !! device) in
  let remaining := configured - reserved + credit in
  if decide (device ∈ c_gpu_probed c)
  then match gpu_available c device now with
       | None => Ok 0
       | Some available =>
           let pending := reserved - gpu_materialized_credit c device in
           Ok (Z.max 0 (Z.min remaining (available - pending + credit) / estimated))
       end
  else Ok (Z.max 0 (remaining / estimated)).

(** [_effective_cpu_capacity] *)
Definition effective_cpu_capacity (c : Coordinator) (load : option pyfloat) (cpu_slots : option Z)
  : result plan_error Z :=
  let available := match cpu_slots with Some s => Z.max 1 s | None => c_cpu_slots c end in
  match load with
  | None => Ok available
  | Some l =>
      let gap := fsub (l_max_cpu_load (c_limits c)) l in
      let remaining := if fltb fzero gap then gap else fzero in
      capacity ← or_raise
        (float_ceil (fdiv (fmul (float_of_int available) remaining) (l_max_cpu_load (c_limits c))))
        LoadNotFinite;
      Ok (Z.max 1 (Z.min available capacity))
  end.

(** [route_memory_budget_bytes], after the observation it makes. *)
Definition route_memory_budget (c : Coordinator) (n : pystr) : Z :=
  Z.min (c_last_memory_budget c) (default (c_last_memory_budget c) (c_route_budgets c !! n)).

(** ** What a selection guarantees *)

(** The two states differ at most in the cached credit. *)
Definition recredited (c c' : Coordinator) : Prop := ∃ z, c' = upd c_materialized_credit (λ _, z) c.

Lemma recredited_refl c : recredited c c.
Proof. exists (c_materialized_credit c). by destruct c. Qed.

Lemma recredited_trans c1 c2 c3 : recredited c1 c2 → recredited c2 c3 → recredited c1 c3.
Proof. intros [z1 ->] [z2 ->]. by exists z2. Qed.

Definition fits_value (e : selection) (i : rid) (c : Coordinator) : result device_error bool :=
  (fits e i c).2.

Lemma fits_eq e i c :
  ∃ c', fits e i c = (c', fits_value e i c) ∧ recredited c c'.
Proof.
  unfold fits_value. destruct (fits e i c) as [c' res] eqn:E. exists c'. split; [done|].
  revert E. unfold fits. rewrite get_bind.
  assert (∀ r : result device_error bool, (c, r) = (c', res) → recredited c c') as Hc
    by (intros r [= -> _]; apply recredited_refl).
  destruct (negb _); [apply Hc|]. destruct (negb _ && _); [apply Hc|].
  destruct (_ && _ && _); [apply Hc|]. destruct (negb _); [apply Hc|].
  destruct (negb (temp_fits _ _ _)); [apply Hc|]. rewrite lift_bind.
  destruct (io_device_key _) as [d|err]; [|apply Hc]. rewrite lift_bind.
  destruct (io_fits _ _ _) as [b|err]; [|apply Hc]. destruct (negb b); [apply Hc|].
  destruct (negb _); [apply Hc|]. destruct (is_draining _); [apply Hc|].
  rewrite modify_bind. intros [= <- _]. by eexists.
Qed.

Lemma fits_value_recredited e i c c' : recredited c c' → fits_value e i c' = fits_value e i c.
Proof.
  intros [z ->]. unfold fits_value, fits. rewrite !get_bind.
  set (c1 := upd c_materialized_credit _ c).
  change (request c1 i) with (request c i). set (r := request c i).
  change (drain_source_live c1 r) with (drain_source_live c r).
  destruct (negb (drain_source_live c r)); [done|].
  change (memory_fits c1 r) with (memory_fits c r). destruct (negb (is_draining r) && _); [done|].
  change (under_pressure c1) with (under_pressure c).
  change (finalizer_running c1) with (finalizer_running c).
  destruct (_ && _ && _); [done|].
  change (width_fits c1 r (cpu_allowance c1 r (se_cpu e))) with
    (width_fits c r (cpu_allowance c r (se_cpu e))). destruct (negb (width_fits _ _ _)); [done|].
  change (temp_fits c1 r (se_disk_free e i)) with (temp_fits c r (se_disk_free e i)).
  destruct (negb (temp_fits _ _ _)); [done|]. rewrite !lift_bind.
  destruct (io_device_key _) as [d|err]; [|done]. rewrite !lift_bind.
  change (io_fits c1 r d) with (io_fits c r d).
  destruct (io_fits c r d) as [[]|err]; cbn [negb]; [|done|done].
  change (gpu_fits c1 r (se_now e i)) with (gpu_fits c r (se_now e i)).
  destruct (negb (gpu_fits _ _ _)); [done|]. by destruct (is_draining r).
Qed.

(** What a fitting request satisfies. *)
Record admissible (e : selection) (c : Coordinator) (i : rid) : Prop := {
  ad_source : drain_source_live c (request c i) = true;
  ad_memory : is_draining (request c i) = false → memory_fits c (request c i) = true;
  ad_finalizer : is_draining (request c i) = true → under_pressure c = true →
    finalizer_running c = false;
  ad_width : width_fits c (request c i) (cpu_allowance c (request c i) (se_cpu e)) = true;
  ad_temp : temp_fits c (request c i) (se_disk_free e i) = true;
  ad_io : ∃ d, io_device_key (device_text (r_io_device (request c i))) = Ok d ∧
    io_fits c (request c i) d = Ok true;
  ad_gpu : gpu_fits c (request c i) (se_now e i) = true;
  ad_headroom : is_draining (request c i) = false → headroom_fits c (request c i) e = true;
}.

Lemma fits_value_admissible e i c : fits_value e i c = Ok true ↔ admissible e c i.
Proof.
  unfold fits_value, fits. rewrite get_bind. split.
  - destruct (drain_source_live _ _) eqn:H1; cbn [negb]; [|done].
    destruct (negb _ && _) eqn:H2; [done|]. destruct (_ && _ && _) eqn:H3; [done|].
    destruct (width_fits _ _ _) eqn:H4; cbn [negb]; [|done].
    destruct (temp_fits _ _ _) eqn:H5; cbn [negb]; [|done]. rewrite lift_bind.
    destruct (io_device_key _) as [d|err] eqn:H6; [|done]. rewrite lift_bind.
    destruct (io_fits _ _ _) as [[]|err] eqn:H7; cbn [negb]; [|done|done].
    destruct (gpu_fits _ _ _) eqn:H8; cbn [negb]; [|done]. intros H9.
    split; try done; try (by eexists).
    + intros Hd. rewrite Hd in H2. by apply negb_false_iff in H2.
    + intros Hd Hp. by rewrite Hd, Hp in H3.
    + intros Hd. rewrite Hd in H9. cbn in H9. by injection H9.
  - intros [H1 H2 H3 H4 H5 (d&H6&H7) H8 H9]. rewrite H1. cbn [negb].
    destruct (is_draining (request c i)) eqn:Hd; cbn [negb andb].
    + destruct (under_pressure c) eqn:Hp; cbn [andb]; [rewrite H3 by done|];
        rewrite H4, H5; cbn [negb]; rewrite lift_bind, H6, lift_bind, H7; cbn [negb];
        rewrite H8; done.
    + rewrite H2 by done. cbn [negb]. rewrite H4, H5. cbn [negb].
      rewrite lift_bind, H6, lift_bind, H7. cbn [negb]. rewrite H8. cbn [negb].
      rewrite modify_bind. rewrite H9 by done. done.
Qed.

(** The head of a route's queue fits. *)
Definition serves (e : selection) (c : Coordinator) (n : pystr) : Prop :=
  ∃ i, queue_head c n = Some i ∧ admissible e c i.

Lemma recredited_queue c c' : recredited c c' → ∀ n, queue_head c' n = queue_head c n.
Proof. by intros [z ->] n. Qed.

Definition serves_b (e : selection) (c : Coordinator) (n : pystr) : bool :=
  match queue_head c n with
  | Some i => match fits_value e i c with Ok b => b | Err _ => false end
  | None => false
  end.

Lemma serves_b_spec e c n : serves_b e c n = true ↔ serves e c n.
Proof.
  unfold serves_b, serves. destruct (queue_head c n) as [i|]; [|split; [done|naive_solver]].
  split.
  - intros H. exists i. split; [done|]. apply fits_value_admissible.
    destruct (fits_value e i c) as [[]|]; done.
  - intros (j&[= <-]&Ha%fits_value_admissible). by rewrite Ha.
Qed.

Lemma serves_b_recredited e c c' n : recredited c c' → serves_b e c' n = serves_b e c n.
Proof.
  intros R. unfold serves_b. rewrite (recredited_queue _ _ R).
  destruct (queue_head c n); [|done]. by rewrite (fits_value_recredited e _ _ _ R).
Qed.

Lemma fitting_routes_spec e routes : ∀ c c' l,
  fitting_routes e routes c = (c', Ok l) →
  recredited c c' ∧ l = List.filter (serves_b e c) routes.
Proof.
  induction routes as [|m routes IH]; intros c c' l; cbn [fitting_routes List.filter].
  { intros [= <- <-]. split; [apply recredited_refl|done]. }
  rewrite get_bind. intros (c1&ok&E1&E2)%stm_bind_ok.
  apply stm_bind_ok in E2 as (c2&more&E2&E3). injection E3 as <- <-.
  assert (recredited c c1 ∧ ok = serves_b e c m) as [R1 ->].
  { unfold serves_b. destruct (queue_head c m) as [i|].
    - destruct (fits_eq e i c) as (c3&E&R). rewrite E in E1. injection E1 as <- Hv.
      by rewrite Hv.
    - injection E1 as <- <-. split; [apply recredited_refl|done]. }
  destruct (IH _ _ _ E2) as [R2 ->]. split; [by eapply recredited_trans|].
  rewrite (List.filter_ext (serves_b e c1) (serves_b e c)); [done|].
  intros n. by apply serves_b_recredited.
Qed.

Lemma next_route_eq e c c' o :
  next_route e c = (c', Ok o) →
  let c1 := adapt_heads (se_cpu e) (ordered_routes c) c in
  recredited c1 c' ∧
  o = choose_route c1 (List.filter (serves_b e c1) (ordered_routes c)).
Proof.
  unfold next_route. rewrite get_bind, modify_bind.
  intros (c2&l&E&E2)%stm_bind_ok. apply fitting_routes_spec in E as [R ->].
  rewrite get_bind in E2. injection E2 as <- <-. split; [done|].
  destruct R as [z ->]. reflexivity.
Qed.

(** Serving starts after the last granted route and visits every route. *)
Lemma ordered_routes_elem c n : n ∈ ordered_routes c ↔ n ∈ c_route_order c.
Proof.
  unfold ordered_routes. set (order := c_route_order c). rewrite list_elem_of_fmap. split.
  - intros (k&->&Hk%elem_of_seq).
    assert (0 <= (c_last_granted c + Z.of_nat k) mod zlen order < zlen order)
      by (apply Z.mod_pos_bound; lia).
    apply list_elem_of_lookup_total_2. lia.
  - intros Hn. apply list_elem_of_lookup in Hn as [j Hj].
    pose proof (lookup_lt_Some _ _ _ Hj) as Hlt.
    set (d := (Z.of_nat j - c_last_granted c - 1) mod zlen order).
    assert (0 <= d < zlen order) by (apply Z.mod_pos_bound; lia).
    exists (Z.to_nat (d + 1)). split; [|apply elem_of_seq; lia].
    rewrite Z2Nat.id by lia. subst d.
    replace (c_last_granted c + ((Z.of_nat j - c_last_granted c - 1) mod zlen order + 1)) with
      (c_last_granted c + 1 + (Z.of_nat j - c_last_granted c - 1) mod zlen order) by lia.
    rewrite Z.add_mod_idemp_r by lia.
    replace (c_last_granted c + 1 + (Z.of_nat j - c_last_granted c - 1)) with (Z.of_nat j) by lia.
    rewrite Z.mod_small, Nat2Z.id by lia. symmetry. by apply list_lookup_total_correct.
Qed.

(** [n] is the first route of [l] that [p] holds for. *)
Definition first_in (l : list pystr) (p : pystr → Prop) (n : pystr) : Prop :=
  ∃ l1 l2, l = l1 ++ n :: l2 ∧ p n ∧ ∀ m, m ∈ l1 → ¬ p m.

Lemma find_filter_first (p q : pystr → bool) l n :
  List.find p (List.filter q l) = Some n → first_in l (λ m, q m = true ∧ p m = true) n.
Proof.
  induction l as [|m l IH]; [done|]. cbn [List.filter].
  assert (List.find p (List.filter q l) = Some n → ¬ (q m = true ∧ p m = true) →
    first_in (m :: l) (λ m, q m = true ∧ p m = true) n) as Hskip.
  { intros Hf Hm. destruct (IH Hf) as (l1&l2&->&Hn&Hno). exists (m :: l1), l2.
    split; [done|]. split; [done|]. intros k [->|Hk]%elem_of_cons; [done|by apply Hno]. }
  destruct (q m) eqn:Hq; [|intros Hf; apply Hskip; naive_solver]. cbn [List.find].
  destruct (p m) eqn:Hp; [|intros Hf; apply Hskip; naive_solver].
  intros [= <-]. exists [], l. split; [done|]. split; [done|]. intros k Hk.
  by apply elem_of_nil in Hk.
Qed.

Lemma find_filter_none (p q : pystr → bool) l :
  List.find p (List.filter q l) = None → ∀ m, m ∈ l → q m = true → p m = false.
Proof.
  intros Hf m Hm Hq. eapply List.find_none; [exact Hf|].
  apply List.filter_In. split; [by apply list_elem_of_In|done].
Qed.

(** C34: the route served next.  If some queued head fits, one is served, and
    [None] means that none fits; a head that drains a live lease goes first,
    then a route that holds no CPU, and within a class the first one after the
    route granted last. *)
Theorem next_route_policy e c c' o :
  next_route e c = (c', Ok o) →
  let c1 := adapt_heads (se_cpu e) (ordered_routes c) c in
  let class n := if existsb (λ m, serves_b e c1 m && head_draining c1 m) (ordered_routes c)
                 then head_draining c1 n
                 else if existsb (λ m, serves_b e c1 m && no_cpu c1 m) (ordered_routes c)
                      then no_cpu c1 n else true in
  match o with
  | Some n => n ∈ c_route_order c ∧
              first_in (ordered_routes c) (λ m, serves e c1 m ∧ class m = true) n
  | None => ∀ n, n ∈ c_route_order c → ¬ serves e c1 n
  end.
Proof.
  intros [R Ho]%next_route_eq c1. cbv zeta in Ho. fold c1 in Ho.
  set (routes := ordered_routes c) in *. clearbody c1.
  assert (∀ p l, List.find p (List.filter (serves_b e c1) l) = None →
    existsb (λ m, serves_b e c1 m && p m) l = false) as Hnone.
  { intros p l Hf. apply not_true_iff_false. intros (m&Hm&Hp)%existsb_exists.
    apply andb_true_iff in Hp as [Hq Hp]. apply list_elem_of_In in Hm.
    by rewrite (find_filter_none _ _ _ Hf m Hm Hq) in Hp. }
  assert (∀ p l n, List.find p (List.filter (serves_b e c1) l) = Some n →
    existsb (λ m, serves_b e c1 m && p m) l = true) as Hsome.
  { intros p l n Hf. apply List.find_some in Hf as [Hin Hp].
    apply List.filter_In in Hin as [Hin Hq]. apply existsb_exists. exists n. by rewrite Hq, Hp. }
  assert (∀ p n, first_in routes (λ m, serves_b e c1 m = true ∧ p m = true) n →
    n ∈ c_route_order c ∧ first_in routes (λ m, serves e c1 m ∧ p m = true) n) as Hfirst.
  { intros p n (l1&l2&Hl&[Hs Hp]&Hno). split.
    - apply ordered_routes_elem. fold routes. rewrite Hl. set_solver.
    - exists l1, l2. rewrite <- serves_b_spec. split; [done|]. split; [done|].
      intros m Hm. rewrite <- serves_b_spec. by apply Hno. }
  unfold choose_route in Ho. set (fitting := List.filter (serves_b e c1) routes) in *.
  destruct (List.find (head_draining c1) fitting) as [n|] eqn:Hd.
  { subst o. cbv zeta. rewrite (Hsome _ routes _ Hd). by apply Hfirst, find_filter_first. }
  destruct (List.find (no_cpu c1) fitting) as [n|] eqn:Hc.
  { subst o. cbv zeta. rewrite (Hnone _ routes Hd), (Hsome _ routes _ Hc). by apply Hfirst, find_filter_first. }
  subst o. cbv zeta. rewrite (Hnone _ routes Hd), (Hnone _ routes Hc).
  assert (∀ l : list pystr, head l = List.find (λ _, true) l) as -> by (by intros []).
  destruct (List.find (λ _, true) fitting) as [n|] eqn:Hh; [by apply Hfirst, find_filter_first|].
  intros n Hn%ordered_routes_elem Hs%serves_b_spec.
  by pose proof (find_filter_none _ _ _ Hh n Hn Hs).
Qed.
