(* ===== verification/ResourceObserve.v ===== *)
(** * Observing the machine (neocortex/runtime/control/resource_observation.py)

    One observation turns a sample of the system into the live capacity of the
    coordinator: the memory budget, the CPU capacity and the three pressure
    latches.  Existing leases are never revoked: an observation moves no counter
    of the ledger. *)

From S2P Require Import Prelude IoIdentity ResourceModel ResourceLedger ResourceInit.
From S2P Require Import ResourceSchedule.

(** [MemorySnapshot] *)
Record Snapshot : Type := {
  sn_physical : option Z;
  sn_commit : option Z;
  sn_total : option Z;
  sn_total_commit : option Z;
}.

(** [ResourceSample], as the pressure update reads it. *)
Record Sample : Type := {
  sa_physical : option Z;
  sa_commit : option Z;
  sa_total : option Z;
  sa_total_commit : option Z;
  sa_cpu_load : option pyfloat;
  sa_some_percent : option pyfloat;
  sa_full_percent : option pyfloat;
  sa_some_total : option Z;
  sa_full_total : option Z;
  sa_external_cores : option pyfloat;
  sa_cpu_capacity : option pyfloat;
  sa_io_some : option pyfloat;
  sa_io_full : option pyfloat;
}.

(** The telemetry the coordinator keeps beside its ledger, and how it was
    configured to observe. *)
Record Observer : Type := {
  o_default_cpu_probe : bool;
  o_resource_probe : bool;
  o_min_memory : option Z;
  o_min_commit : option Z;
  o_max_cpu_load : option pyfloat;
  o_min_effective : Z;
  o_last_cpu_load : option pyfloat;
  o_last_effective : Z;
  o_last_external : option pyfloat;
  o_previous : Sample;
  o_memory_delta : option Z;
  o_commit_delta : option Z;
  o_samples : Z;
  o_events : Z;
  o_pressure_value : option pyfloat;
  o_pressure_delta : option pyfloat;
  o_total_delta : option Z;
  o_from_psi : bool;
  o_last_sample_at : option pyfloat;
}.

#[export] Instance Observer_eta : Eta Observer := λ o,
  {| o_default_cpu_probe := o_default_cpu_probe o; o_resource_probe := o_resource_probe o;
     o_min_memory := o_min_memory o; o_min_commit := o_min_commit o;
     o_max_cpu_load := o_max_cpu_load o; o_min_effective := o_min_effective o;
     o_last_cpu_load := o_last_cpu_load o; o_last_effective := o_last_effective o;
     o_last_external := o_last_external o; o_previous := o_previous o;
     o_memory_delta := o_memory_delta o; o_commit_delta := o_commit_delta o;
     o_samples := o_samples o; o_events := o_events o; o_pressure_value := o_pressure_value o;
     o_pressure_delta := o_pressure_delta o; o_total_delta := o_total_delta o;
     o_from_psi := o_from_psi o; o_last_sample_at := o_last_sample_at o |}.

(** [memory_snapshot_from_resource_sample] *)
Definition snapshot_of_sample (s : option Sample) : option Snapshot :=
  match s with
  | Some s =>
      match sa_physical s, sa_commit s, sa_total s, sa_total_commit s with
      | None, None, None, None => None
      | p, q, t, u => Some {| sn_physical := p; sn_commit := q; sn_total := t; sn_total_commit := u |}
      end
  | None => None
  end.

(** Python's [max] of a sequence, [None] when it is empty: the first of the
    largest values. *)
Definition fmax_default (l : list pyfloat) : option pyfloat :=
  match l with
  | [] => None
  | x :: l' => Some (foldl (λ a b, if fltb a b then b else a) x l')
  end.

Definition finite_values (l : list (option pyfloat)) : list pyfloat :=
  List.filter is_finite (omap id l).

Definition option_sub (a b : option Z) : option Z := x ← a; y ← b; Some (x - y).
Definition option_fsub (a b : option pyfloat) : option pyfloat := x ← a; y ← b; Some (fsub x y).
Definition option_zmax (a b : option Z) : option Z :=
  match a, b with Some x, Some y => Some (Z.max x y) | Some x, None => Some x | None, o => o end.
Definition option_min (a : option Z) (b : option Z) : option Z :=
  match b with
  | None => a
  | Some y => match a with None => Some y | Some x => Some (Z.min x y) end
  end.

(** The sample the update keeps as the previous one. *)
Definition current_sample (sn : Snapshot) (s : option Sample) (load : option pyfloat) : Sample :=
  {| sa_physical := sn_physical sn; sa_commit := sn_commit sn; sa_total := sn_total sn;
     sa_total_commit := sn_total_commit sn; sa_cpu_load := load;
     sa_some_percent := s ≫= sa_some_percent; sa_full_percent := s ≫= sa_full_percent;
     sa_some_total := s ≫= sa_some_total; sa_full_total := s ≫= sa_full_total;
     sa_external_cores := s ≫= sa_external_cores; sa_cpu_capacity := s ≫= sa_cpu_capacity;
     sa_io_some := s ≫= sa_io_some; sa_io_full := s ≫= sa_io_full |}.

Definition sample_pressure (s : Sample) : option pyfloat :=
  fmax_default (finite_values [sa_some_percent s; sa_full_percent s]).

(** The telemetry part of [update_pressure_locked]. *)
Definition note_sample (cur : Sample) (o : Observer) : Observer :=
  let prev := o_previous o in
  upd o_samples (Z.add 1)
    (upd o_previous (λ _, cur)
    (upd o_pressure_value (λ _, sample_pressure cur)
    (upd o_total_delta (λ _, option_sub (option_zmax (sa_some_total cur) (sa_full_total cur))
                               (option_zmax (sa_some_total prev) (sa_full_total prev)))
    (upd o_pressure_delta (λ _, option_fsub (sample_pressure cur) (sample_pressure prev))
    (upd o_commit_delta (λ _, option_sub (sa_commit cur) (sa_commit prev))
    (upd o_memory_delta (λ _, option_sub (sa_physical cur) (sa_physical prev)) o)))))).

(** Memory the live leases may still materialize. *)
Definition outstanding_growth (c : Coordinator) : Z :=
  Z.max 0 (u_reserved (c_usage c) - materialized_credit c).

Definition memory_low (c : Coordinator) (sn : Snapshot) : bool :=
  let growth := outstanding_growth c in
  match sn_physical sn with Some a => a <? c_min_free_memory c + growth | None => false end ||
  match sn_commit sn with Some a => a <? c_min_free_commit c + growth | None => false end.

Definition memory_recovered (c : Coordinator) (sn : Snapshot) : bool :=
  let growth := outstanding_growth c in
  match sn_physical sn with
  | Some a => c_min_free_memory c + growth + c_memory_hysteresis c <=? a
  | None => true
  end &&
  match sn_commit sn with
  | Some a => c_min_free_commit c + growth + c_memory_hysteresis c <=? a
  | None => true
  end.

Definition psi_high (c : Coordinator) (v : option pyfloat) : bool :=
  match v with Some v => fleb (l_pressure_high (c_limits c)) v | None => false end.

Definition psi_recovered (c : Coordinator) (v : option pyfloat) : bool :=
  match v with Some v => fleb v (l_pressure_recovery (c_limits c)) | None => true end.

Definition latch_memory (sn : Snapshot) (v : option pyfloat) (st : Coordinator * Observer)
  : Coordinator * Observer :=
  let '(c, o) := st in
  if c_memory_pressure c then
    if memory_recovered c sn && psi_recovered c v
    then (upd c_memory_pressure (λ _, false) c, upd o_events (Z.add 1) (upd o_from_psi (λ _, false) o))
    else (c, o)
  else if memory_low c sn || psi_high c v
  then (upd c_memory_pressure (λ _, true) c,
        upd o_events (Z.add 1) (upd o_from_psi (λ _, psi_high c v) o))
  else (c, o).

Definition set_cpu_pressure (b : bool) (st : Coordinator * Observer) : Coordinator * Observer :=
  (upd c_cpu_pressure (λ _, b) st.1, upd o_events (Z.add 1) st.2).

Definition latch_cpu (load : option pyfloat) (explicit : bool) (st : Coordinator * Observer)
  : Coordinator * Observer :=
  let c := st.1 in
  let high := match load with Some l => fleb (l_max_cpu_load (c_limits c)) l | None => false end in
  let low := match load with
             | Some l => fleb l (fsub (l_max_cpu_load (c_limits c)) (l_cpu_hysteresis (c_limits c)))
             | None => false
             end in
  if explicit && high then
    if negb (c_cpu_pressure c) then set_cpu_pressure true st else st
  else if explicit && c_cpu_pressure c && low then set_cpu_pressure false st
  else st.

Definition latch_io (cur : Sample) (st : Coordinator * Observer) : Coordinator * Observer :=
  let c := st.1 in
  match fmax_default (omap id [sa_io_some cur; sa_io_full cur]) with
  | None => st
  | Some v =>
      let b := if c_io_pressure c then fltb (l_io_pressure_recovery (c_limits c)) v
               else fleb (l_io_pressure_high (c_limits c)) v in
      (upd c_io_pressure (λ _, b) c, st.2)
  end.

(** [update_pressure_locked] *)
Definition update_pressure (sn : Snapshot) (s : option Sample) (load : option pyfloat)
    (explicit : bool) (st : Coordinator * Observer) : Coordinator * Observer :=
  let cur := current_sample sn s load in
  let st1 := (note_materialized_credit st.1, note_sample cur st.2) in
  latch_io cur (latch_cpu load explicit (latch_memory sn (sample_pressure cur) st1)).

(** What one observation reads: the sample, the fallback snapshot, the clock,
    the CPU load probe and the CPU count probe ([None]: the probe raised). *)
Record reading : Type := {
  rd_sample : option Sample;
  rd_fallback : Snapshot;
  rd_now : pyfloat;
  rd_load : option pyfloat;
  rd_cpus : option Z;
}.

Definition clamp_load (l : option pyfloat) : option pyfloat :=
  match l with
  | Some l => if is_finite l
              then let top := float_of_int 100 in
                   let low := if fltb l top then l else top in
                   Some (if fltb fzero low then low else fzero)
              else None
  | None => None
  end.

(** The CPU load of the observation, and when the probe was last asked. *)
Definition observed_load (rd : reading) (c : Coordinator) (o : Observer)
  : option pyfloat * option pyfloat :=
  match rd_sample rd ≫= sa_cpu_load with
  | Some l => (Some l, o_last_sample_at o)
  | None =>
      let due := negb (o_default_cpu_probe o) ||
                 match o_last_sample_at o with
                 | None => true
                 | Some t => fleb (l_sample_interval (c_limits c)) (fsub (rd_now rd) t)
                 end in
      if due then (rd_load rd, Some (rd_now rd)) else (o_last_cpu_load o, o_last_sample_at o)
  end.

Definition fmax_seen (seen : option pyfloat) (l : pyfloat) : pyfloat :=
  match seen with Some m => if fltb m l then l else m | None => l end.

Definition detected_cpus (rd : reading) (c : Coordinator) : Z :=
  match rd_sample rd ≫= sa_cpu_capacity with
  | Some f => match float_ceil f with Some z => Z.max 1 z | None => c_last_cpu_capacity c end
  | None => match rd_cpus rd with Some z => Z.max 1 z | None => c_last_cpu_capacity c end
  end.

Definition effective_budget (c : Coordinator) (sn : Snapshot) : Z :=
  if c_auto_memory c then adaptive_memory_budget (sn_total sn) else c_memory_budget c.

Definition finite_nonneg (f : pyfloat) : bool := is_finite f && fleb fzero f.

(** [float * hysteresis / 100] and the two thresholds of the external load. *)
Definition saturated_cores (available : pyfloat) : bool :=
  fleb available (fdiv (float_of_int 1) (float_of_int 100)).

Definition recovered_cores (c : Coordinator) (capacity available : pyfloat) : bool :=
  let relative := fdiv (fmul capacity (l_cpu_hysteresis (c_limits c))) (float_of_int 100) in
  let least := fdiv (float_of_int 1) (float_of_int 20) in
  fleb (if fltb least relative then relative else least) available.

(** The share of the capacity that the rest of the machine leaves, and the CPU
    latch it drives. *)
Definition competition (s : option Sample) (capacity slots : Z) (explicit : bool)
    (st : Coordinator * Observer) : option (Coordinator * Observer * Z) :=
  let '(c, o) := st in
  let external := match s ≫= sa_external_cores with
                  | Some x => if finite_nonneg x then Some x else None
                  | None => None
                  end in
  match external with
  | Some x =>
      let cap := match s ≫= sa_cpu_capacity with
                 | Some f => if fltb f (float_of_int capacity) then f else float_of_int capacity
                 | None => float_of_int capacity
                 end in
      let gap := fsub cap x in
      let available := if fltb fzero gap then gap else fzero in
      cores ← float_ceil available;
      let o1 := upd o_last_external (λ _, Some x) o in
      let st1 := if saturated_cores available && negb (c_cpu_pressure c)
                 then set_cpu_pressure true (c, o1)
                 else if recovered_cores c cap available && c_cpu_pressure c && negb explicit
                 then set_cpu_pressure false (c, o1)
                 else (c, o1) in
      Some (st1, Z.min slots (Z.max 0 cores))
  | None =>
      Some ((c, o), if bool_decide (is_Some (o_last_external o)) && negb explicit
                    then Z.min slots (o_last_effective o) else slots)
  end.

(** [observe_live_resources]: the snapshot, the effective CPU slots and the new
    state; [None] where the arithmetic raises. *)
Definition observe (rd : reading) (st : Coordinator * Observer)
  : option (Coordinator * Observer * (Snapshot * Z)) :=
  let '(c, o) := st in
  let sample := rd_sample rd in
  let sn := default (rd_fallback rd) (snapshot_of_sample sample) in
  let '(raw, sampled_at) := observed_load rd c o in
  let load := clamp_load raw in
  let capacity := if c_auto_cpu c then detected_cpus rd c
                  else Z.min (c_cpu_slots c) (detected_cpus rd c) in
  let explicit := negb (o_default_cpu_probe o) ||
                  (o_resource_probe o && bool_decide (is_Some (sample ≫= sa_cpu_load))) in
  let o1 := upd o_last_sample_at (λ _, sampled_at)
              (upd o_max_cpu_load (λ m, match load with Some l => Some (fmax_seen m l) | None => m end)
              (upd o_min_commit (λ m, option_min m (sn_commit sn))
              (upd o_min_memory (λ m, option_min m (sn_physical sn)) o))) in
  let c1 := upd c_last_cpu_capacity (λ _, capacity)
              (upd c_native_slots (λ n, if c_auto_native c then capacity else n)
              (upd c_last_memory_budget (λ _, effective_budget c sn) c)) in
  let '(c2, o2) := update_pressure sn sample load explicit (c1, o1) in
  match effective_cpu_capacity c2 (if explicit then load else None) (Some capacity) with
  | Err _ => None
  | Ok slots =>
      '((c3, o3), slots) ← competition sample capacity slots explicit (c2, o2);
      let slots := if bool_decide (load = None) && c_cpu_pressure c3
                   then Z.min slots (Z.max 1 (o_last_effective o3)) else slots in
      let o4 := upd o_last_effective (λ _, slots)
                  (upd o_last_cpu_load (λ _, load)
                  (upd o_min_effective (Z.min slots) o3)) in
      Some ((c3, o4), (sn, slots))
  end.

(** ** The latches have hysteresis *)

(** The order of floats: a value above a bound is not at or below a smaller
    one. *)
Lemma float_bands a b v : fltb a b = true → fleb b v = true → fleb v a = false.
Proof.
  unfold fltb, fleb, SFltb, SFleb, SFcompare.
  destruct a as [[]|[]| |[] ma ea], b as [[]|[]| |[] mb eb], v as [[]|[]| |[] mv ev]; try done;
    repeat match goal with
    | |- context [Z.compare ?x ?y] => destruct (Z.compare_spec x y)
    | |- context [Pos.compare ?x ?y] => destruct (Pos.compare_spec x y)
    | |- context [Pos.compare_cont Eq ?x ?y] => change (Pos.compare_cont Eq x y) with (Pos.compare x y)
    end; cbn; try done; try lia.
Qed.

Definition next_memory (c : Coordinator) (sn : Snapshot) (v : option pyfloat) : bool :=
  if c_memory_pressure c then negb (memory_recovered c sn && psi_recovered c v)
  else memory_low c sn || psi_high c v.

Definition next_cpu (c : Coordinator) (load : option pyfloat) (explicit : bool) : bool :=
  let top := l_max_cpu_load (c_limits c) in
  let high := match load with Some l => fleb top l | None => false end in
  let low := match load with
             | Some l => fleb l (fsub top (l_cpu_hysteresis (c_limits c)))
             | None => false
             end in
  if explicit then high || (c_cpu_pressure c && negb low) else c_cpu_pressure c.

Definition next_io (c : Coordinator) (v : option pyfloat) : bool :=
  match v with
  | Some v => if c_io_pressure c then fltb (l_io_pressure_recovery (c_limits c)) v
              else fleb (l_io_pressure_high (c_limits c)) v
  | None => c_io_pressure c
  end.

Definition with_pressure (m p i : bool) (c : Coordinator) : Coordinator :=
  upd c_io_pressure (λ _, i) (upd c_cpu_pressure (λ _, p) (upd c_memory_pressure (λ _, m) c)).

Lemma latch_memory_eq sn v c o :
  (latch_memory sn v (c, o)).1 = upd c_memory_pressure (λ _, next_memory c sn v) c.
Proof.
  unfold latch_memory, next_memory. destruct (c_memory_pressure c) eqn:H.
  - destruct (_ && _); [done|]. cbn. by rewrite <- H; destruct c.
  - destruct (_ || _); [done|]. cbn. by rewrite <- H; destruct c.
Qed.

Lemma latch_cpu_eq load explicit st :
  (latch_cpu load explicit st).1 = upd c_cpu_pressure (λ _, next_cpu st.1 load explicit) st.1.
Proof.
  destruct st as [c o]. unfold latch_cpu, next_cpu. cbn [fst].
  assert (∀ b, c_cpu_pressure c = b → c = upd c_cpu_pressure (λ _, b) c) as Hid
    by (intros b <-; by destruct c).
  destruct explicit; cbn [andb]; [|by apply Hid].
  destruct (match load with Some l => fleb _ l | None => false end); cbn [orb].
  - destruct (c_cpu_pressure c) eqn:H; [by apply Hid|done].
  - destruct (c_cpu_pressure c) eqn:H; cbn [andb]; [|by apply Hid].
    destruct (match load with Some l => fleb l _ | None => false end); [done|by apply Hid].
Qed.

Lemma latch_io_eq cur st :
  (latch_io cur st).1 =
    upd c_io_pressure (λ _, next_io st.1 (fmax_default (omap id [sa_io_some cur; sa_io_full cur]))) st.1.
Proof.
  destruct st as [c o]. unfold latch_io, next_io. cbn [fst].
  destruct (fmax_default _); [done|]. by destruct c.
Qed.

Definition io_value (s : option Sample) : option pyfloat :=
  fmax_default (omap id [s ≫= sa_io_some; s ≫= sa_io_full]).

Definition psi_value (s : option Sample) : option pyfloat :=
  fmax_default (finite_values [s ≫= sa_some_percent; s ≫= sa_full_percent]).

Lemma update_pressure_eq sn s load explicit c o :
  (update_pressure sn s load explicit (c, o)).1 =
    with_pressure (next_memory c sn (psi_value s)) (next_cpu c load explicit) (next_io c (io_value s))
      (note_materialized_credit c).
Proof.
  unfold update_pressure. cbn [fst snd]. rewrite latch_io_eq, latch_cpu_eq, latch_memory_eq.
  reflexivity.
Qed.

(** The thresholds the hysteresis needs: the recovery thresholds are below the
    high ones. *)
Record separated (c : Coordinator) : Prop := {
  sep_memory : fltb (l_pressure_recovery (c_limits c)) (l_pressure_high (c_limits c)) = true;
  sep_io : fltb (l_io_pressure_recovery (c_limits c)) (l_io_pressure_high (c_limits c)) = true;
  sep_hysteresis : 0 <= c_memory_hysteresis c;
}.

Lemma memory_bands c sn :
  0 <= c_memory_hysteresis c → memory_low c sn = true → memory_recovered c sn = false.
Proof.
  intros Hh. unfold memory_low, memory_recovered.
  destruct (sn_physical sn) as [p|], (sn_commit sn) as [q|]; cbn; intros Hl; try discriminate;
    rewrite ?orb_false_r, ?andb_true_r in *;
    try apply andb_false_iff; rewrite ?Z.leb_gt; bool_prop; lia.
Qed.

Lemma next_memory_stable c sn v :
  separated c → next_memory (upd c_memory_pressure (λ _, next_memory c sn v) c) sn v = next_memory c sn v.
Proof.
  intros [Hm _ Hh]. unfold next_memory at 1.
  change (memory_recovered (upd c_memory_pressure _ c) sn) with (memory_recovered c sn).
  change (psi_recovered (upd c_memory_pressure _ c) v) with (psi_recovered c v).
  change (memory_low (upd c_memory_pressure _ c) sn) with (memory_low c sn).
  change (psi_high (upd c_memory_pressure _ c) v) with (psi_high c v).
  change (c_memory_pressure (upd c_memory_pressure _ c)) with (next_memory c sn v).
  unfold next_memory. destruct (c_memory_pressure c).
  - destruct (memory_recovered c sn && psi_recovered c v) eqn:Hr; cbn [negb]; [|done].
    apply andb_true_iff in Hr as [Hr Hp].
    destruct (memory_low c sn) eqn:Hl; [by rewrite memory_bands in Hr|].
    destruct (psi_high c v) eqn:Hpsi; [|done]. unfold psi_high, psi_recovered in *.
    destruct v as [v|]; [|done]. by rewrite (float_bands _ _ _ Hm Hpsi) in Hp.
  - destruct (memory_low c sn) eqn:Hl; cbn [orb].
    + by rewrite memory_bands.
    + destruct (psi_high c v) eqn:Hpsi; [|done]. unfold psi_high, psi_recovered in *.
      destruct v as [v|]; [|done]. rewrite (float_bands _ _ _ Hm Hpsi).
      by rewrite andb_false_r.
Qed.

Lemma float_not_below a b v : fltb a b = true → fleb b v = true → fltb a v = true.
Proof.
  unfold fltb, fleb, SFltb, SFleb, SFcompare.
  destruct a as [[]|[]| |[] ma ea], b as [[]|[]| |[] mb eb], v as [[]|[]| |[] mv ev]; try done;
    repeat match goal with
    | |- context [Z.compare ?x ?y] => destruct (Z.compare_spec x y)
    | |- context [Pos.compare_cont Eq ?x ?y] => change (Pos.compare_cont Eq x y) with (Pos.compare x y)
    | |- context [Pos.compare ?x ?y] => destruct (Pos.compare_spec x y)
    end; cbn; try done; try lia.
Qed.

Lemma next_io_stable c v :
  separated c → next_io (upd c_io_pressure (λ _, next_io c v) c) v = next_io c v.
Proof.
  intros [_ Hi _]. destruct v as [v|]; [|done]. unfold next_io. cbn.
  destruct (c_io_pressure c).
  - destruct (fltb _ v) eqn:Hr; [done|].
    destruct (fleb (l_io_pressure_high _) v) eqn:Hh; [|done].
    by rewrite (float_not_below _ _ _ Hi Hh) in Hr.
  - destruct (fleb _ v) eqn:Hh; [|done]. by apply (float_not_below _ _ _ Hi Hh).
Qed.

Lemma next_cpu_stable c load explicit :
  next_cpu (upd c_cpu_pressure (λ _, next_cpu c load explicit) c) load explicit = next_cpu c load explicit.
Proof.
  unfold next_cpu. cbn. destruct explicit; [|done]. destruct load as [l|]; cbn [orb].
  - destruct (fleb _ l); [done|]. destruct (c_cpu_pressure c); cbn; [|done].
    by destruct (fleb l _).
  - by destruct (c_cpu_pressure c).
Qed.

(** The pressure latches do not oscillate: when the recovery thresholds are
    below the high ones, observing the same sample again changes none of the
    three latches. *)
Theorem pressure_latches_stable sn s load explicit c o :
  separated c →
  let st := update_pressure sn s load explicit (c, o) in
  let st' := update_pressure sn s load explicit st in
  c_memory_pressure st'.1 = c_memory_pressure st.1 ∧
  c_cpu_pressure st'.1 = c_cpu_pressure st.1 ∧ c_io_pressure st'.1 = c_io_pressure st.1.
Proof.
  intros Sep st st'. pose proof (update_pressure_eq sn s load explicit c o) as E1.
  fold st in E1. destruct st as [c1 o1] eqn:Est. cbn [fst] in E1.
  pose proof (update_pressure_eq sn s load explicit c1 o1) as E2. fold st' in E2.
  rewrite E2, E1. split; [|split].
  - exact (next_memory_stable c sn (psi_value s) Sep).
  - exact (next_cpu_stable c load explicit).
  - exact (next_io_stable c (io_value s) Sep).
Qed.

(** The constructor also accepts equal thresholds.  A reading exactly at such a
    threshold toggles the latch at every observation. *)
Lemma equal_thresholds_oscillate c v :
  fleb v v = true → l_io_pressure_recovery (c_limits c) = v → l_io_pressure_high (c_limits c) = v →
  next_io c (Some v) = negb (c_io_pressure c).
Proof.
  intros Hv Hr Hh. unfold next_io. rewrite Hr, Hh, Hv.
  destruct (c_io_pressure c); [|done]. cbn. destruct (fltb v v) eqn:Hlt; [|done].
  by rewrite (float_bands v v v Hlt Hv) in Hv.
Qed.

(** ** What an observation may change *)

(** Everything but the live capacity and the pressure latches. *)
Record same_ledger (c c' : Coordinator) : Prop := {
  se_limits : c_limits c' = c_limits c;
  se_order : c_route_order c' = c_route_order c;
  se_queues : c_queues c' = c_queues c;
  se_metrics : c_metrics c' = c_metrics c;
  se_usage : c_usage c' = c_usage c;
  se_claims : c_claims c' = c_claims c;
  se_active : c_active c' = c_active c;
  se_io : c_io_in_use c' = c_io_in_use c;
  se_gpu : c_gpu_in_use c' = c_gpu_in_use c;
  se_requests : c_requests c' = c_requests c;
}.

Lemma update_pressure_effective sn s load explicit st :
  o_last_effective (update_pressure sn s load explicit st).2 = o_last_effective st.2.
Proof.
  assert (∀ cur st, (latch_io cur st).2 = st.2) as H1
    by (intros cur [c o]; unfold latch_io; by destruct (fmax_default _)).
  assert (∀ l x st, o_last_effective (latch_cpu l x st).2 = o_last_effective st.2) as H2.
  { intros l x [c o]. unfold latch_cpu. destruct (x && _); [by destruct (negb _)|].
    by destruct (_ && _). }
  assert (∀ n v st, o_last_effective (latch_memory n v st).2 = o_last_effective st.2) as H3.
  { intros n v [c o]. unfold latch_memory. destruct (c_memory_pressure c).
    - by destruct (_ && _).
    - by destruct (_ || _). }
  unfold update_pressure. by rewrite H1, H2, H3.
Qed.

Lemma detected_cpus_positive rd c : 1 <= c_last_cpu_capacity c → 1 <= detected_cpus rd c.
Proof.
  intros H. unfold detected_cpus. destruct (rd_sample rd ≫= sa_cpu_capacity) as [f|].
  - destruct (float_ceil f); lia.
  - destruct (rd_cpus rd); lia.
Qed.

Lemma effective_cpu_bounds c load n slots :
  1 <= n → effective_cpu_capacity c load (Some n) = Ok slots → 1 <= slots <= n.
Proof.
  intros Hn. unfold effective_cpu_capacity. destruct load; intros H; inv_ok; lia.
Qed.

#[export] Instance same_ledger_preorder : PreOrder same_ledger.
Proof.
  split; [by split|]. intros c1 c2 c3 [] []. split; congruence.
Qed.

Lemma competition_facts s capacity slots explicit c o c' o' slots' :
  competition s capacity slots explicit (c, o) = Some ((c', o'), slots') →
  0 <= slots → 0 <= o_last_effective o →
  same_ledger c c' ∧ c_last_cpu_capacity c' = c_last_cpu_capacity c ∧
  c_last_memory_budget c' = c_last_memory_budget c ∧ 0 <= slots' <= slots ∧
  o_last_effective o' = o_last_effective o.
Proof.
  intros E Hs Ho. unfold competition in E.
  destruct (match s ≫= sa_external_cores with Some x => _ | None => None end) as [x|].
  - cbv zeta in E. destruct (float_ceil _) as [cores|]; [|discriminate]. cbn [mbind option_bind] in E.
    apply Some_inj, pair_equal_spec in E as [E <-].
    destruct (saturated_cores _ && _); [|destruct (_ && _ && _)]; injection E as <- <-;
      (split; [by split|]); (split; [done|]); (split; [done|]); (split; [lia|done]).
  - apply Some_inj, pair_equal_spec in E as [E <-]. injection E as <- <-.
    split; [by split|]. destruct (_ && _); (split; [done|]); (split; [done|]); (split; [lia|done]).
Qed.

(** The capacity an observation publishes. *)
Definition observed_capacity (rd : reading) (c : Coordinator) : Z :=
  if c_auto_cpu c then detected_cpus rd c else Z.min (c_cpu_slots c) (detected_cpus rd c).

(** An observation moves no counter. *)
Lemma latches_same sn s load explicit c o :
  same_ledger c (update_pressure sn s load explicit (c, o)).1.
Proof. rewrite update_pressure_eq. by split. Qed.

Lemma competition_same s capacity slots explicit c o c' o' slots' :
  competition s capacity slots explicit (c, o) = Some ((c', o'), slots') → same_ledger c c'.
Proof.
  intros E. unfold competition in E.
  destruct (match s ≫= sa_external_cores with Some x => _ | None => None end) as [x|].
  - cbv zeta in E. destruct (float_ceil _) as [cores|]; [|discriminate]. cbn [mbind option_bind] in E.
    apply Some_inj, pair_equal_spec in E as [E <-].
    destruct (saturated_cores _ && _); [|destruct (_ && _ && _)]; injection E as <- <-; by split.
  - apply Some_inj, pair_equal_spec in E as [E <-]. by injection E as <- <-.
Qed.

Lemma observe_same_ledger rd c o c' o' sn slots :
  observe rd (c, o) = Some ((c', o'), (sn, slots)) → same_ledger c c'.
Proof.
  intros E. unfold observe in E. destruct (observed_load rd c o) as [raw sampled_at].
  set (sn0 := default _ _) in E. set (load := clamp_load raw) in E. set (explicit := negb _ || _) in E.
  set (c1 := upd c_last_cpu_capacity _ _) in E. set (o1 := upd o_last_sample_at _ _) in E.
  assert (same_ledger c c1) as S1 by by split.
  pose proof (latches_same sn0 (rd_sample rd) load explicit c1 o1) as S2.
  destruct (update_pressure _ _ _ _ _) as [c2 o2]. cbn [fst] in S2.
  destruct (effective_cpu_capacity _ _ _) as [slots0|]; [|discriminate].
  destruct (competition _ _ _ _ _) as [[[c3 o3] slots1]|] eqn:Hc; [|discriminate].
  cbn [mbind option_bind] in E. apply Some_inj, pair_equal_spec in E as [E1 _].
  injection E1 as <- _. apply competition_same in Hc. by do 2 (etrans; [eassumption|]).
Qed.

(** An observation revokes nothing and never grants more than the machine
    has.  It leaves the ledger as it is, publishes the detected capacity, which
    an explicit CPU limit only lowers, and an effective number of slots between
    zero and that capacity. *)
Theorem observation_is_bounded rd c o c' o' sn slots :
  observe rd (c, o) = Some ((c', o'), (sn, slots)) →
  1 <= c_last_cpu_capacity c → 1 <= c_cpu_slots c → 0 <= o_last_effective o →
  same_ledger c c' ∧ c_last_cpu_capacity c' = observed_capacity rd c ∧
  1 <= c_last_cpu_capacity c' ∧ 0 <= slots <= c_last_cpu_capacity c' ∧
  (c_auto_cpu c = false → slots <= c_cpu_slots c) ∧
  c_last_memory_budget c' = effective_budget c sn ∧ o_last_effective o' = slots.
Proof.
  intros E Hcap Hcpu Hlast. pose proof (detected_cpus_positive rd c Hcap) as Hdet.
  unfold observe in E. destruct (observed_load rd c o) as [raw sampled_at].
  fold (observed_capacity rd c) in E.
  assert (1 <= observed_capacity rd c ∧ (c_auto_cpu c = false → observed_capacity rd c <= c_cpu_slots c))
    as [Hpos Hceil].
  { unfold observed_capacity. destruct (c_auto_cpu c); lia. }
  set (capacity := observed_capacity rd c) in *. clearbody capacity.
  set (sn0 := default _ _) in E. set (load := clamp_load raw) in E.
  set (explicit := negb _ || _) in E. clearbody explicit load.
  set (c1 := upd c_last_cpu_capacity _ _) in E. set (o1 := upd o_last_sample_at _ _) in E.
  pose proof (update_pressure_eq sn0 (rd_sample rd) load explicit c1 o1) as Hu.
  pose proof (update_pressure_effective sn0 (rd_sample rd) load explicit (c1, o1)) as Ho.
  assert (o_last_effective o1 = o_last_effective o) as Ho1 by done.
  destruct (update_pressure sn0 (rd_sample rd) load explicit (c1, o1)) as [c2 o2].
  cbn [fst snd] in Hu, Ho.
  assert (same_ledger c c2 ∧ c_last_cpu_capacity c2 = capacity ∧
    c_last_memory_budget c2 = effective_budget c sn0) as (S2&K2&B2) by (rewrite Hu; done).
  clear Hu. destruct (effective_cpu_capacity c2 _ _) as [slots0|] eqn:He; [|discriminate].
  apply effective_cpu_bounds in He; [|done].
  destruct (competition _ _ _ _ _) as [[[c3 o3] slots1]|] eqn:Hc; [|discriminate].
  cbn [mbind option_bind] in E. apply Some_inj, pair_equal_spec in E as [E1 E2].
  injection E1 as <- <-. injection E2 as <- <-.
  apply competition_facts in Hc as (S3&K3&B3&Hs1&Ho3); [|lia|by rewrite Ho].
  rewrite K3, B3, K2, B2. split; [by etrans|]. split; [done|]. split; [done|].
  destruct (bool_decide (load = None) && c_cpu_pressure c3);
    (split; [lia|]); (split; [intros Ha; specialize (Hceil Ha); lia|done]).
Qed.

(** ** An observation *)

Definition no_sample : Sample :=
  {| sa_physical := None; sa_commit := None; sa_total := None; sa_total_commit := None;
     sa_cpu_load := None; sa_some_percent := None; sa_full_percent := None; sa_some_total := None;
     sa_full_total := None; sa_external_cores := None; sa_cpu_capacity := None;
     sa_io_some := None; sa_io_full := None |}.

Definition sample_observer : Observer :=
  {| o_default_cpu_probe := true; o_resource_probe := true; o_min_memory := None;
     o_min_commit := None; o_max_cpu_load := None; o_min_effective := 4;
     o_last_cpu_load := None; o_last_effective := 4; o_last_external := None;
     o_previous := no_sample; o_memory_delta := None; o_commit_delta := None; o_samples := 0;
     o_events := 0; o_pressure_value := None; o_pressure_delta := None; o_total_delta := None;
     o_from_psi := false; o_last_sample_at := None |}.

Definition low_memory : Snapshot :=
  {| sn_physical := Some 5; sn_commit := None; sn_total := None; sn_total_commit := None |}.

Lemma sample_separated : separated sample_coordinator.
Proof. by split; vm_compute. Qed.

(** Free memory below the headroom latches the memory pressure, and the same
    sample leaves it latched. *)
Lemma pressure_latches_stable_witness :
  let st := update_pressure low_memory None None true (sample_coordinator, sample_observer) in
  c_memory_pressure st.1 = true ∧
  c_memory_pressure (update_pressure low_memory None None true st).1 = true.
Proof.
  set (st := update_pressure _ _ _ _ _). cbv zeta.
  assert (c_memory_pressure st.1 = true) as H by by vm_compute.
  split; [exact H|]. rewrite <- H.
  exact (proj1 (pressure_latches_stable low_memory None None true sample_coordinator
    sample_observer sample_separated)).
Defined.

(** Half of the four slots are taken by the rest of the machine. *)
Definition busy_machine : reading :=
  {| rd_sample := Some {| sa_physical := Some 10000; sa_commit := None; sa_total := Some 20000;
       sa_total_commit := None; sa_cpu_load := None; sa_some_percent := None;
       sa_full_percent := None; sa_some_total := None; sa_full_total := None;
       sa_external_cores := Some (float_of_int 2); sa_cpu_capacity := Some (float_of_int 8);
       sa_io_some := None; sa_io_full := None |};
     rd_fallback := low_memory; rd_now := fzero; rd_load := None; rd_cpus := Some 8 |}.

Lemma busy_machine_slots :
  option_map (λ p, p.2.2) (observe busy_machine (sample_coordinator, sample_observer)) = Some 2.
Proof. by vm_compute. Qed.

Lemma observation_is_bounded_witness : ∃ c' o' sn,
  observe busy_machine (sample_coordinator, sample_observer) = Some ((c', o'), (sn, 2)) ∧
  0 <= 2 <= c_last_cpu_capacity c'.
Proof.
  destruct (observe busy_machine (sample_coordinator, sample_observer))
    as [[[c' o'] [sn slots]]|] eqn:E; [|by pose proof busy_machine_slots as H; rewrite E in H].
  pose proof busy_machine_slots as H. rewrite E in H. cbn in H. injection H as ->.
  exists c', o', sn. split; [done|].
  destruct (observation_is_bounded busy_machine sample_coordinator sample_observer c' o' sn 2 E)
    as (_&_&_&Hb&_); [by vm_compute|by vm_compute|by vm_compute|]. exact Hb.
Defined.
