(* ===== verification/LedgerInvariant.v ===== *)
(** * The ledger invariant of the resource coordinator

    Every counter the coordinator keeps, globally and per route, is the sum of
    the demands of the live leases; shared residency counts the largest claim
    under each key once.  Each transition of ResourceLedger keeps this. *)

From S2P Require Import Prelude IoIdentity ResourceModel ResourceLedger.

(** ** Totals over the live leases *)

Definition usage_total (g : rid → Usage) (l : list rid) : Usage :=
  {| u_reserved := sum_with (λ i, u_reserved (g i)) l;
     u_resident := sum_with (λ i, u_resident (g i)) l;
     u_transient := sum_with (λ i, u_transient (g i)) l;
     u_temp := sum_with (λ i, u_temp (g i)) l;
     u_cpu := sum_with (λ i, u_cpu (g i)) l;
     u_native := sum_with (λ i, u_native (g i)) l;
     u_active := sum_with (λ i, u_active (g i)) l;
     u_execution := sum_with (λ i, u_execution (g i)) l |}.

(** [None] is the whole coordinator, [Some n] the route [n]. *)
Definition in_scope (s : option pystr) (n : pystr) : bool :=
  match s with Some m => bool_decide (n = m) | None => true end.

(** The part of a lease's demand that is its own: residency under a key is
    shared and counted by [shared_resident]. *)
Definition own_resident (r : Request) : Z :=
  match r_resident_key r with Some _ => 0 | None => r_resident_charge r end.

Definition share (r : Request) : Usage :=
  {| u_reserved := own_resident r + r_transient r; u_resident := own_resident r;
     u_transient := r_transient r; u_temp := r_temp r; u_cpu := r_cpu r;
     u_native := r_native r; u_active := 1;
     u_execution := if r_execution_active r then 1 else 0 |}.

Definition scoped_share (s : option pystr) (r : Request) : Usage :=
  if in_scope s (r_route r) then share r else no_usage.

Definition shared_resident (s : option pystr) (claims : gmap (pystr * pystr) (gmap rid Z)) : Z :=
  map_sum (λ k m, if in_scope s k.1 then claims_max m else 0) claims.

Definition resident_usage (z : Z) : Usage :=
  upd u_reserved (λ _, z) (upd u_resident (λ _, z) no_usage).

Definition tally (s : option pystr) (c : Coordinator) : Usage :=
  usage_add (usage_total (λ i, scoped_share s (request c i)) (c_active c))
    (resident_usage (shared_resident s (c_claims c))).

Definition scoped (s : option pystr) (f : Request → Z) (r : Request) : Z :=
  if in_scope s (r_route r) then f r else 0.

Definition scope_sum (s : option pystr) (f : Request → Z) (c : Coordinator) : Z :=
  sum_with (λ i, scoped s f (request c i)) (c_active c).

Definition on_io (d : pystr) (r : Request) : Z :=
  if bool_decide (device_or_default (r_io_device r) = d) then r_io r else 0.
Definition on_gpu (d : pystr) (r : Request) : Z :=
  if bool_decide (device_or_default (r_gpu_device r) = d) then r_gpu r else 0.

Record lease_wf (r : Request) : Prop := {
  lw_resident : 0 <= r_resident r;
  lw_charge : 0 <= r_resident_charge r;
  lw_transient : 0 <= r_transient r;
  lw_temp : 0 <= r_temp r;
  lw_cpu : 0 <= r_cpu r;
  lw_native : 0 <= r_native r;
  lw_io : 0 <= r_io r;
  lw_gpu : 0 <= r_gpu r;
}.

Record live (c : Coordinator) (i : rid) : Prop := {
  live_stored : is_Some (c_requests c !! i);
  live_route : is_Some (c_metrics c !! r_route (request c i));
  live_admitted : r_admitted (request c i) = true;
  live_held : r_released (request c i) = false;
  live_unqueued : r_queued (request c i) = false;
  live_wf : lease_wf (request c i);
  live_execution : r_execution_active (request c i) = needs_execution (request c i);
}.

Record waiting (c : Coordinator) (n : pystr) (i : rid) : Prop := {
  waiting_stored : is_Some (c_requests c !! i);
  waiting_route : r_route (request c i) = n;
  waiting_metrics : is_Some (c_metrics c !! n);
  waiting_queued : r_queued (request c i) = true;
  waiting_unadmitted : r_admitted (request c i) = false;
  waiting_wf : lease_wf (request c i);
}.

Record ledger_inv (c : Coordinator) : Prop := {
  li_nodup : NoDup (c_active c);
  li_live : ∀ i, i ∈ c_active c → live c i;
  li_complete : ∀ i, r_admitted (request c i) = true → r_released (request c i) = false →
                i ∈ c_active c;
  li_usage : c_usage c = tally None c;
  li_routes : ∀ n, is_Some (c_metrics c !! n) →
    m_usage (route_metrics c n) = tally (Some n) c ∧
    m_io (route_metrics c n) = scope_sum (Some n) r_io c ∧
    m_gpu (route_metrics c n) = scope_sum (Some n) r_gpu c;
  li_io : ∀ d, default 0 (c_io_in_use c !! d) = scope_sum None (on_io d) c;
  li_gpu : ∀ d, default 0 (c_gpu_in_use c !! d) = scope_sum None (on_gpu d) c;
  li_claims : ∀ k claims, c_claims c !! k = Some claims → claims ≠ ∅ ∧
    ∀ i v, claims !! i = Some v →
      i ∈ c_active c ∧ claim_key (request c i) = Some k ∧ r_resident (request c i) = v;
  li_claimed : ∀ i k, i ∈ c_active c → claim_key (request c i) = Some k →
    claims_of c k !! i = Some (r_resident (request c i));
  li_queued : ∀ n i, i ∈ queue c n → waiting c n i;
  li_queue_nodup : ∀ n, NoDup (queue c n);
}.

(** ** Algebra of the totals *)

Ltac usage := apply usage_eq; cbn; lia.

(** Proves an equation of usages from its instance [Hp p] for each field [p]. *)
Ltac by_field Hp :=
  apply usage_eq; cbn [usage_total usage_add usage_sub u_reserved u_resident u_transient
    u_temp u_cpu u_native u_active u_execution];
  first [exact (Hp u_reserved)|exact (Hp u_resident)|exact (Hp u_transient)|exact (Hp u_temp)
        |exact (Hp u_cpu)|exact (Hp u_native)|exact (Hp u_active)|exact (Hp u_execution)].

Lemma usage_add_assoc u v w : usage_add (usage_add u v) w = usage_add u (usage_add v w).
Proof. usage. Qed.

Lemma usage_sub_zero u : usage_sub u no_usage = u.
Proof. usage. Qed.

Lemma usage_total_app g l1 l2 :
  usage_total g (l1 ++ l2) = usage_add (usage_total g l1) (usage_total g l2).
Proof. apply usage_eq; cbn; apply sum_with_app. Qed.

Lemma usage_total_ext g h l : (∀ i, i ∈ l → g i = h i) → usage_total g l = usage_total h l.
Proof.
  intros H. unfold usage_total. f_equal; apply sum_with_ext; intros x Hx; by rewrite (H x Hx).
Qed.

Lemma usage_total_one g i : usage_total g [i] = g i.
Proof. usage. Qed.

Lemma usage_total_update g h l i :
  NoDup l → i ∈ l → (∀ j, j ∈ l → j ≠ i → g j = h j) →
  usage_total h l = usage_add (usage_total g l) (usage_sub (h i) (g i)).
Proof.
  intros Hl Hi H.
  assert (∀ p : Usage → Z, sum_with (λ j, p (h j)) l =
            sum_with (λ j, p (g j)) l + (p (h i) - p (g i))) as Hp.
  { intros p. apply (sum_with_update (λ j, p (g j)) (λ j, p (h j)) l i Hl Hi).
    intros j Hj Hne. by rewrite (H j Hj Hne). }
  by_field Hp.
Qed.

Lemma usage_total_remove g l i :
  NoDup l → i ∈ l →
  usage_total g (filter (λ j, j ≠ i) l) = usage_sub (usage_total g l) (g i).
Proof.
  intros Hl Hi.
  assert (∀ p : Usage → Z, sum_with (λ j, p (g j)) (filter (λ j, j ≠ i) l) =
            sum_with (λ j, p (g j)) l - p (g i)) as Hp
    by (intros p; exact (sum_with_filter_ne (λ j, p (g j)) l i Hl Hi)).
  by_field Hp.
Qed.

(** ** Maxima of the claims *)

Lemma claims_max_spec m :
  (∀ i v, m !! i = Some v → v <= claims_max m) ∧
  (m = ∅ ∧ claims_max m = 0 ∨ ∃ i, m !! i = Some (claims_max m)).
Proof.
  unfold claims_max, max_default. destruct (snd <$> map_to_list m) as [|v vs] eqn:Hm.
  - assert (m = ∅) as ->.
    { apply map_to_list_empty_iff. by apply fmap_nil_inv in Hm. }
    split; [intros i v Hi; by rewrite lookup_empty in Hi|]. by left.
  - destruct (foldl_max_spec vs v) as [Hup Hin]. rewrite <- Hm in Hup, Hin. split.
    + intros i w Hw. apply Hup. apply list_elem_of_fmap. exists (i, w). split; [done|].
      by apply elem_of_map_to_list.
    + right. apply list_elem_of_fmap in Hin as ([i w]&Hw&Hi). exists i. rewrite Hw.
      by apply elem_of_map_to_list in Hi.
Qed.

Lemma claims_max_nonneg m : (∀ i v, m !! i = Some v → 0 <= v) → 0 <= claims_max m.
Proof.
  intros H. destruct (claims_max_spec m) as [_ [[_ ->]|[i Hi]]]; [done|by apply H in Hi].
Qed.

(** A new claim raises the maximum by exactly its charge. *)
Lemma claims_max_insert m i v :
  (∀ j w, m !! j = Some w → 0 <= w) → m !! i = None → 0 <= v →
  claims_max (<[i:=v]> m) = claims_max m + Z.max 0 (v - claims_max m).
Proof.
  intros Hm Hi Hv. destruct (claims_max_spec m) as [Hup Hin].
  destruct (claims_max_spec (<[i:=v]> m)) as [Hup' Hin'].
  pose proof (claims_max_nonneg m Hm).
  assert (v <= claims_max (<[i:=v]> m)) by (apply (Hup' i); apply lookup_insert_eq).
  assert (claims_max m <= claims_max (<[i:=v]> m)).
  { destruct Hin as [[-> ->]|[j Hj]]; [lia|]. apply (Hup' j).
    rewrite lookup_insert_ne; [done|congruence]. }
  destruct Hin' as [[He _]|[j Hj]]; [by apply insert_non_empty in He|].
  destruct (decide (j = i)) as [->|Hne].
  - rewrite lookup_insert_eq in Hj. injection Hj as Hj. lia.
  - rewrite lookup_insert_ne in Hj by done. apply Hup in Hj. lia.
Qed.

Lemma claims_max_delete m i :
  (∀ j w, m !! j = Some w → 0 <= w) → claims_max (delete i m) <= claims_max m.
Proof.
  intros Hm. destruct (claims_max_spec m) as [Hup _].
  destruct (claims_max_spec (delete i m)) as [_ [[_ ->]|[j Hj]]].
  - by apply claims_max_nonneg.
  - apply lookup_delete_Some in Hj as [_ Hj]. by apply Hup in Hj.
Qed.

Lemma claims_max_empty : claims_max ∅ = 0.
Proof. done. Qed.

(** ** One step on one lease

    Every transition touches one request [i]: the totals change by what [i]
    contributes after it, less what it contributed before. *)

Definition part (f : Request → Z) (c : Coordinator) (i : rid) : Z :=
  if decide (i ∈ c_active c) then f (request c i) else 0.

Definition part_usage (s : option pystr) (c : Coordinator) (i : rid) : Usage :=
  if decide (i ∈ c_active c) then scoped_share s (request c i) else no_usage.

Definition usage_change (s : option pystr) (c c' : Coordinator) (i : rid) : Usage :=
  usage_add (usage_sub (part_usage s c' i) (part_usage s c i))
    (resident_usage (shared_resident s (c_claims c') - shared_resident s (c_claims c))).

Record touches (c c' : Coordinator) (i : rid) : Prop := {
  t_nodup : NoDup (c_active c');
  t_active : ∀ j, j ≠ i → j ∈ c_active c' ↔ j ∈ c_active c;
  t_requests : ∀ j, j ≠ i → c_requests c' !! j = c_requests c !! j;
  t_metrics : ∀ n, is_Some (c_metrics c' !! n) ↔ is_Some (c_metrics c !! n);
}.

Lemma touches_request c c' i j : touches c c' i → j ≠ i → request c' j = request c j.
Proof.
  intros Ht Hj. unfold request. by rewrite !lookup_total_alt, (t_requests _ _ _ Ht).
Qed.

Lemma sum_step c c' i (f : Request → Z) :
  NoDup (c_active c) → touches c c' i →
  sum_with (λ j, f (request c' j)) (c_active c') =
    sum_with (λ j, f (request c j)) (c_active c) + part f c' i - part f c i.
Proof.
  intros Hnd Ht.
  assert (∀ c0, NoDup (c_active c0) →
    sum_with (λ j, f (request c0 j)) (c_active c0) =
    sum_with (λ j, f (request c0 j)) (filter (λ j, j ≠ i) (c_active c0)) + part f c0 i) as Hsplit.
  { intros c0 H0. unfold part. destruct (decide (i ∈ c_active c0)) as [Hi|Hi].
    - rewrite (sum_with_filter_ne (λ j, f (request c0 j)) _ i) by done. lia.
    - rewrite filter_ne_id by done. lia. }
  rewrite (Hsplit c Hnd), (Hsplit c' (t_nodup _ _ _ Ht)).
  assert (filter (λ j, j ≠ i) (c_active c') ≡ₚ filter (λ j, j ≠ i) (c_active c)) as Hp.
  { apply NoDup_Permutation; [apply NoDup_filter, Ht|by apply NoDup_filter|].
    intros j. rewrite !list_elem_of_filter. split; intros [Hj Hin]; split; try done;
      by apply (t_active _ _ _ Ht j Hj). }
  rewrite (sum_with_perm _ _ _ Hp).
  rewrite (sum_with_ext (λ j, f (request c' j)) (λ j, f (request c j))); [lia|].
  intros j [Hj _]%list_elem_of_filter. by rewrite (touches_request c c' i j).
Qed.

Lemma scope_sum_step s f c c' i :
  NoDup (c_active c) → touches c c' i →
  scope_sum s f c' = scope_sum s f c + part (scoped s f) c' i - part (scoped s f) c i.
Proof. intros Hnd Ht. apply (sum_step c c' i (scoped s f) Hnd Ht). Qed.

Lemma part_field (p : Usage → Z) s c i :
  p no_usage = 0 → part (λ r, p (scoped_share s r)) c i = p (part_usage s c i).
Proof. intros H. unfold part, part_usage. by destruct (decide _). Qed.

Lemma tally_step s c c' i :
  NoDup (c_active c) → touches c c' i →
  tally s c' = usage_add (tally s c) (usage_change s c c' i).
Proof.
  intros Hnd Ht. unfold tally, usage_change.
  assert (∀ p : Usage → Z, p no_usage = 0 →
    sum_with (λ j, p (scoped_share s (request c' j))) (c_active c') =
    sum_with (λ j, p (scoped_share s (request c j))) (c_active c) +
    p (part_usage s c' i) - p (part_usage s c i)) as Hp.
  { intros p Hp0. rewrite <- !(part_field p) by done.
    apply (sum_step c c' i (λ r, p (scoped_share s r)) Hnd Ht). }
  apply usage_eq; cbn [usage_total usage_add usage_sub resident_usage upd no_usage u_reserved
    u_resident u_transient u_temp u_cpu u_native u_active u_execution];
    rewrite Hp by done; cbn; lia.
Qed.

(** The obligations of a transition on request [i]. *)
Record ledger_step (c c' : Coordinator) (i : rid) : Prop := {
  st_touches : touches c c' i;
  st_live : i ∈ c_active c' → live c' i;
  st_complete : r_admitted (request c' i) = true → r_released (request c' i) = false →
                i ∈ c_active c';
  st_usage : c_usage c' = usage_add (c_usage c) (usage_change None c c' i);
  st_routes : ∀ n, is_Some (c_metrics c !! n) →
    m_usage (route_metrics c' n) =
      usage_add (m_usage (route_metrics c n)) (usage_change (Some n) c c' i) ∧
    m_io (route_metrics c' n) = m_io (route_metrics c n) +
      part (scoped (Some n) r_io) c' i - part (scoped (Some n) r_io) c i ∧
    m_gpu (route_metrics c' n) = m_gpu (route_metrics c n) +
      part (scoped (Some n) r_gpu) c' i - part (scoped (Some n) r_gpu) c i;
  st_io : ∀ d, default 0 (c_io_in_use c' !! d) = default 0 (c_io_in_use c !! d) +
    part (on_io d) c' i - part (on_io d) c i;
  st_gpu : ∀ d, default 0 (c_gpu_in_use c' !! d) = default 0 (c_gpu_in_use c !! d) +
    part (on_gpu d) c' i - part (on_gpu d) c i;
  st_claims : ∀ k claims, c_claims c' !! k = Some claims → claims ≠ ∅ ∧
    ∀ j v, claims !! j = Some v →
      j ∈ c_active c' ∧ claim_key (request c' j) = Some k ∧ r_resident (request c' j) = v;
  st_claimed : ∀ j k, j ∈ c_active c' → claim_key (request c' j) = Some k →
    claims_of c' k !! j = Some (r_resident (request c' j));
  st_queued : ∀ n j, j ∈ queue c' n → waiting c' n j;
  st_queue_nodup : ∀ n, NoDup (queue c' n);
}.

Lemma live_other c c' i j : touches c c' i → j ≠ i → live c j → live c' j.
Proof.
  intros Ht Hj [Hs Hr Ha Hh Hq Hw He]. split;
    rewrite ?(touches_request c c' i j Ht Hj); try done.
  - by rewrite (t_requests _ _ _ Ht).
  - by apply (t_metrics _ _ _ Ht).
Qed.

Lemma ledger_step_inv c c' i : ledger_inv c → ledger_step c c' i → ledger_inv c'.
Proof.
  intros I S. pose proof (st_touches _ _ _ S) as Ht. pose proof (li_nodup _ I) as Hnd. split.
  - apply Ht.
  - intros j Hj. destruct (decide (j = i)) as [->|Hne]; [by apply (st_live _ _ _ S)|].
    eapply live_other; [exact Ht|done|]. apply (li_live _ I). by apply (t_active _ _ _ Ht).
  - intros j. destruct (decide (j = i)) as [->|Hne]; [apply (st_complete _ _ _ S)|].
    rewrite (touches_request c c' i j Ht Hne), (t_active _ _ _ Ht j Hne). apply (li_complete _ I).
  - rewrite (st_usage _ _ _ S), (li_usage _ I). symmetry. by apply tally_step.
  - intros n Hn%(t_metrics _ _ _ Ht). destruct (st_routes _ _ _ S n Hn) as (->&->&->).
    destruct (li_routes _ I n Hn) as (->&->&->).
    by rewrite (tally_step _ c c' i), !(scope_sum_step _ _ c c' i).
  - intros d. rewrite (st_io _ _ _ S), (li_io _ I). symmetry.
    exact (scope_sum_step None (on_io d) c c' i Hnd Ht).
  - intros d. rewrite (st_gpu _ _ _ S), (li_gpu _ I). symmetry.
    exact (scope_sum_step None (on_gpu d) c c' i Hnd Ht).
  - apply (st_claims _ _ _ S).
  - apply (st_claimed _ _ _ S).
  - apply (st_queued _ _ _ S).
  - apply (st_queue_nodup _ _ _ S).
Qed.

(** ** Reading back the elementary updates *)

Section readback.
Implicit Types (c : Coordinator).

Lemma request_on_request c i g j :
  is_Some (c_requests c !! i) →
  request (on_request i g c) j = if decide (j = i) then g (request c i) else request c j.
Proof.
  intros [r Hr]. unfold request, on_request. cbn. rewrite !lookup_total_alt.
  destruct (decide (j = i)) as [->|Hne].
  - by rewrite lookup_alter_eq, Hr.
  - by rewrite lookup_alter_ne.
Qed.

Lemma stored_on_request c i g j :
  is_Some (c_requests (on_request i g c) !! j) ↔ is_Some (c_requests c !! j).
Proof. apply lookup_alter_is_Some. Qed.

Lemma requests_on_request c i g j :
  j ≠ i → c_requests (on_request i g c) !! j = c_requests c !! j.
Proof. intros H. unfold on_request. cbn. by rewrite lookup_alter_ne. Qed.

Lemma route_metrics_on c n g m :
  is_Some (c_metrics c !! m) →
  route_metrics (on_metrics n g c) m =
    if decide (m = n) then g (route_metrics c m) else route_metrics c m.
Proof.
  intros [x Hx]. unfold route_metrics, on_metrics. cbn. rewrite !lookup_total_alt.
  destruct (decide (m = n)) as [->|Hne].
  - by rewrite lookup_alter_eq, Hx.
  - by rewrite lookup_alter_ne.
Qed.

Lemma metrics_on c n g m :
  is_Some (c_metrics (on_metrics n g c) !! m) ↔ is_Some (c_metrics c !! m).
Proof. apply lookup_alter_is_Some. Qed.
End readback.

(** The parts of the coordinator the invariant reads, as [c'] has them. *)
Record frame (c c' : Coordinator) (i : rid) (r' : Request) : Prop := {
  f_stored : ∀ j, is_Some (c_requests c' !! j) ↔ is_Some (c_requests c !! j);
  f_others : ∀ j, j ≠ i → c_requests c' !! j = c_requests c !! j;
  f_request : request c' i = r';
  f_metrics : ∀ n, is_Some (c_metrics c' !! n) ↔ is_Some (c_metrics c !! n);
}.

Lemma frame_trans c1 c2 c3 i r2 r3 : frame c1 c2 i r2 → frame c2 c3 i r3 → frame c1 c3 i r3.
Proof.
  intros [A1 B1 C1 D1] [A2 B2 C2 D2]. split; [intros j; by rewrite A2|
    intros j Hj; by rewrite B2, B1|done|intros n; by rewrite D2].
Qed.

Lemma frame_on_request c i g :
  is_Some (c_requests c !! i) → frame c (on_request i g c) i (g (request c i)).
Proof.
  intros Hi. split; [apply stored_on_request|apply requests_on_request| |done].
  rewrite request_on_request by done. by rewrite decide_True.
Qed.

Lemma frame_on_metrics c n g i : frame c (on_metrics n g c) i (request c i).
Proof. split; [done|done|done|apply metrics_on]. Qed.

(** ** Charging and activating a request *)

Definition charge_record (charge : Z) (r : Request) : Request :=
  upd r_memory (λ _, charge + r_transient r) (upd r_resident_charge (λ _, charge) r).

Definition charged (c : Coordinator) (i : rid) : Request :=
  charge_record (resident_charge_for_request c (request c i)) (request c i).

Record charge_facts (c c' : Coordinator) (i : rid) : Prop := {
  cf_frame : frame c c' i (charged c i);
  cf_active : c_active c' = c_active c;
  cf_queues : c_queues c' = c_queues c;
  cf_io : c_io_in_use c' = c_io_in_use c;
  cf_gpu : c_gpu_in_use c' = c_gpu_in_use c;
  cf_usage : c_usage c' = usage_add (c_usage c) (demand (charged c i));
  cf_claims : c_claims c' = match claim_key (request c i) with
    | Some k => <[k := <[i := r_resident (request c i)]> (claims_of c k)]> (c_claims c)
    | None => c_claims c
    end;
  cf_routes : ∀ n, is_Some (c_metrics c !! n) → route_metrics c' n =
    if decide (n = r_route (request c i))
    then admit_metrics (charged c i) (route_metrics c n) else route_metrics c n;
}.

Lemma charge_request_facts c i :
  is_Some (c_requests c !! i) → charge_facts c (charge_request i c) i.
Proof.
  intros Hi. unfold charge_request.
  set (c1 := on_request i _ c).
  assert (request c1 i = charged c i) as Hr.
  { subst c1. rewrite request_on_request by done. by rewrite decide_True. }
  rewrite Hr. change (claim_key (charged c i)) with (claim_key (request c i)).
  change (r_route (charged c i)) with (r_route (request c i)).
  assert (frame c c1 i (charged c i)) as Hf.
  { pose proof (frame_on_request c i (λ r, upd r_memory
      (λ _, resident_charge_for_request c (request c i) + r_transient r)
      (upd r_resident_charge (λ _, resident_charge_for_request c (request c i)) r)) Hi) as Hf.
    exact Hf. }
  destruct Hf as [F1 F2 F3 F4].
  destruct (claim_key (request c i)) as [k|] eqn:Hk;
    (split; try done; [|by rewrite Hk|intros n Hn; by rewrite route_metrics_on]);
    (split; try done; intros n; by rewrite metrics_on).
Qed.

Definition activated (r : Request) : Request :=
  upd r_execution_active (λ _, needs_execution r)
    (upd r_released (λ _, false) (upd r_admitted (λ _, true) r)).

Definition execution_of (r : Request) : Usage :=
  if needs_execution r then one_execution else no_usage.

Record activate_facts (c c' : Coordinator) (i : rid) : Prop := {
  af_frame : frame c c' i (activated (request c i));
  af_active : c_active c' = add_active i (c_active c);
  af_queues : c_queues c' = c_queues c;
  af_claims : c_claims c' = c_claims c;
  af_usage : c_usage c' = usage_add (c_usage c) (execution_of (request c i));
  af_routes : ∀ n, is_Some (c_metrics c !! n) →
    let here := bool_decide (n = r_route (request c i)) in
    m_usage (route_metrics c' n) = usage_add (m_usage (route_metrics c n))
      (if here then execution_of (request c i) else no_usage) ∧
    m_io (route_metrics c' n) =
      m_io (route_metrics c n) + (if here then r_io (request c i) else 0) ∧
    m_gpu (route_metrics c' n) =
      m_gpu (route_metrics c n) + (if here then r_gpu (request c i) else 0);
  af_io : ∀ d, default 0 (c_io_in_use c' !! d) =
    default 0 (c_io_in_use c !! d) + on_io d (request c i);
  af_gpu : ∀ d, default 0 (c_gpu_in_use c' !! d) =
    default 0 (c_gpu_in_use c !! d) + on_gpu d (request c i);
}.

Lemma count_up_lookup k n m d :
  default 0 (count_up k n m !! d) = default 0 (m !! d) + if bool_decide (k = d) then n else 0.
Proof.
  unfold count_up. destruct (decide (k = d)) as [->|Hne].
  - rewrite lookup_insert_eq, bool_decide_eq_true_2 by done. done.
  - rewrite lookup_insert_ne, bool_decide_eq_false_2 by done. lia.
Qed.

Lemma usage_add_zero u : usage_add u no_usage = u.
Proof. usage. Qed.

(** What one of the conditional accounting blocks changes. *)
Record block_facts (c c' : Coordinator) (i : rid) (r' : Request) (n0 : pystr) (du : Usage)
    (dio dgpu : Z) : Prop := {
  bf_frame : frame c c' i r';
  bf_active : c_active c' = c_active c;
  bf_queues : c_queues c' = c_queues c;
  bf_claims : c_claims c' = c_claims c;
  bf_usage : c_usage c' = usage_add (c_usage c) du;
  bf_routes : ∀ n, is_Some (c_metrics c !! n) →
    let here := bool_decide (n = n0) in
    m_usage (route_metrics c' n) =
      usage_add (m_usage (route_metrics c n)) (if here then du else no_usage) ∧
    m_io (route_metrics c' n) = m_io (route_metrics c n) + (if here then dio else 0) ∧
    m_gpu (route_metrics c' n) = m_gpu (route_metrics c n) + (if here then dgpu else 0);
}.

Lemma block_metrics c c1 i n0 g du dio dgpu :
  c_requests c1 = c_requests c → c_metrics c1 = c_metrics c → c_active c1 = c_active c →
  c_queues c1 = c_queues c → c_claims c1 = c_claims c →
  c_usage c1 = usage_add (c_usage c) du →
  (∀ m, m_usage (g m) = usage_add (m_usage m) du ∧ m_io (g m) = m_io m + dio ∧
        m_gpu (g m) = m_gpu m + dgpu) →
  block_facts c (on_metrics n0 g c1) i (request c i) n0 du dio dgpu.
Proof.
  intros H1 H2 H3 H4 H5 H6 Hg. split; try done.
  - split.
    + intros j. cbn. by rewrite H1.
    + intros j _. cbn. by rewrite H1.
    + unfold request. cbn. by rewrite H1.
    + intros n. rewrite metrics_on. by rewrite H2.
  - intros n Hn here. rewrite route_metrics_on by by rewrite H2.
    assert (route_metrics c1 n = route_metrics c n) as -> by (unfold route_metrics; by rewrite H2).
    subst here. destruct (decide (n = n0)) as [->|Hne].
    + rewrite bool_decide_eq_true_2 by done. apply Hg.
    + rewrite bool_decide_eq_false_2 by done. rewrite usage_add_zero. split; [done|lia].
Qed.

Lemma block_refl c i n0 : block_facts c c i (request c i) n0 no_usage 0 0.
Proof.
  split; try done.
  - by rewrite usage_add_zero.
  - intros n Hn here. destruct here; rewrite usage_add_zero, !Z.add_0_r; done.
Qed.

Lemma execution_block c i r :
  block_facts c
    (if needs_execution r
     then on_metrics (r_route r) (upd m_usage (λ u, usage_add u one_execution))
            (upd c_usage (λ u, usage_add u one_execution) c)
     else c) i (request c i) (r_route r) (execution_of r) 0 0.
Proof.
  unfold execution_of. destruct (needs_execution r); [|apply block_refl].
  apply block_metrics; try done. intros m. cbn. by rewrite !Z.add_0_r.
Qed.

Lemma block_peak_io c c' i r n0 du a b g :
  block_facts c c' i r n0 du a b → block_facts c (upd c_peak_io g c') i r n0 du a b.
Proof. intros [[S O R D] A Q C U M]. by split. Qed.

Lemma block_peak_gpu c c' i r n0 du a b g :
  block_facts c c' i r n0 du a b → block_facts c (upd c_peak_gpu g c') i r n0 du a b.
Proof. intros [[S O R D] A Q C U M]. by split. Qed.

Lemma io_block c i r :
  let c' := if r_io r =? 0 then c else add_io r c in
  block_facts c c' i (request c i) (r_route r) no_usage (r_io r) 0 ∧
  c_gpu_in_use c' = c_gpu_in_use c ∧
  ∀ d, default 0 (c_io_in_use c' !! d) = default 0 (c_io_in_use c !! d) + on_io d r.
Proof.
  destruct (r_io r =? 0) eqn:H0; bool_prop; cbv zeta.
  - rewrite H0. split; [apply block_refl|]. split; [done|].
    intros d. unfold on_io. rewrite H0. destruct (bool_decide _); lia.
  - split; [|split; [done|]].
    + unfold add_io. apply block_peak_io, block_metrics; try done.
      * cbn. by rewrite usage_add_zero.
      * intros m. cbn. rewrite usage_add_zero. split; [done|lia].
    + intros d. unfold add_io. cbn. apply count_up_lookup.
Qed.

Lemma gpu_block c i r :
  let c' := if r_gpu r =? 0 then c else add_gpu r c in
  block_facts c c' i (request c i) (r_route r) no_usage 0 (r_gpu r) ∧
  c_io_in_use c' = c_io_in_use c ∧
  ∀ d, default 0 (c_gpu_in_use c' !! d) = default 0 (c_gpu_in_use c !! d) + on_gpu d r.
Proof.
  destruct (r_gpu r =? 0) eqn:H0; bool_prop; cbv zeta.
  - rewrite H0. split; [apply block_refl|]. split; [done|].
    intros d. unfold on_gpu. rewrite H0. destruct (bool_decide _); lia.
  - split; [|split; [done|]].
    + unfold add_gpu. apply block_peak_gpu, block_metrics; try done.
      * cbn. by rewrite usage_add_zero.
      * intros m. cbn. rewrite usage_add_zero. split; [done|lia].
    + intros d. unfold add_gpu. cbn. apply count_up_lookup.
Qed.

Lemma block_trans c1 c2 c3 i r2 r3 n0 u1 u2 a1 a2 b1 b2 :
  block_facts c1 c2 i r2 n0 u1 a1 b1 → block_facts c2 c3 i r3 n0 u2 a2 b2 →
  block_facts c1 c3 i r3 n0 (usage_add u1 u2) (a1 + a2) (b1 + b2).
Proof.
  intros [F1 A1 Q1 C1 U1 R1] [F2 A2 Q2 C2 U2 R2]. split; try congruence.
  - by eapply frame_trans.
  - rewrite U2, U1. usage.
  - intros n Hn here. destruct (R2 n) as (->&->&->); [by apply (f_metrics _ _ _ _ F1)|].
    destruct (R1 n Hn) as (->&->&->). subst here. destruct (bool_decide _).
    + split; [usage|lia].
    + rewrite !usage_add_zero. split; [done|lia].
Qed.

(** Mutating the request itself moves no counter. *)
Lemma block_on_request c i g n0 :
  is_Some (c_requests c !! i) →
  block_facts c (on_request i g c) i (g (request c i)) n0 no_usage 0 0.
Proof.
  intros Hi. split; try done.
  - by apply frame_on_request.
  - by rewrite usage_add_zero.
  - intros n Hn here. change (route_metrics (on_request i g c) n) with (route_metrics c n).
    destruct here; rewrite usage_add_zero, !Z.add_0_r; done.
Qed.

Lemma activate_request_facts c i :
  is_Some (c_requests c !! i) → activate_facts c (activate_request i c) i.
Proof.
  intros Hi. unfold activate_request.
  set (r := request c i).
  set (c1 := upd c_peak_active _ (upd c_peaks _ c)).
  set (c3 := upd c_active (add_active i) _).
  assert (frame c c3 i (activated r)) as F3.
  { pose proof (frame_on_request c1 i (λ r, upd r_execution_active (λ _, needs_execution r)
      (upd r_released (λ _, false) (upd r_admitted (λ _, true) r))) Hi) as [S O R D].
    split; [exact S|exact O|exact R|exact D]. }
  assert (request c3 i = activated r) as Hr3 by apply F3. cbv zeta. rewrite Hr3.
  pose proof (execution_block c3 i (activated r)) as B4.
  change (needs_execution (activated r)) with (needs_execution r) in B4.
  change (r_execution_active (activated r)) with (needs_execution r).
  set (c4 := if needs_execution r then _ else _) in *.
  destruct (io_block c4 i (activated r)) as (B5&G5&I5).
  set (c5 := if r_io (activated r) =? 0 then c4 else _) in *.
  destruct (gpu_block c5 i (activated r)) as (B6&I6&G6).
  set (c6 := if r_gpu (activated r) =? 0 then c5 else _) in *.
  pose proof (block_trans _ _ _ _ _ _ _ _ _ _ _ _ _
    (block_trans _ _ _ _ _ _ _ _ _ _ _ _ _ B4 B5) B6) as [F A Q C U R].
  assert (request c5 i = activated r) as Hr5.
  { destruct B5 as [[_ _ -> _] _ _ _ _ _], B4 as [[_ _ -> _] _ _ _ _ _]. exact Hr3. }
  rewrite !usage_add_zero, ?Hr5 in *.
  assert (c_io_in_use c4 = c_io_in_use c ∧ c_gpu_in_use c4 = c_gpu_in_use c) as [Hio Hgpu]
    by (subst c4; by destruct (needs_execution r)).
  split; [by eapply frame_trans|exact A|exact Q|exact C|exact U| | |].
  - intros n Hn. destruct (R n) as (HU&HI&HG); [exact Hn|].
    change (route_metrics c3 n) with (route_metrics c n) in *. split; [exact HU|].
    split; [etrans; [exact HI|]|etrans; [exact HG|]]; cbn; subst r;
      destruct (bool_decide _); cbn; lia.
  - intros d. rewrite I6, I5, Hio. done.
  - intros d. rewrite G6, G5, Hgpu. done.
Qed.
