(* ===== verification/GrantInvariant.v ===== *)
(** * Granting a request

    A successful grant is one step of the ledger invariant; a grant that fails
    puts the ledger back as it was and only takes the request off its queue. *)

From S2P Require Import Prelude IoIdentity ResourceModel ResourceLedger LedgerInvariant.

(** ** Residency under a key *)

Lemma claims_of_lookup c k j v :
  claims_of c k !! j = Some v ↔ ∃ m, c_claims c !! k = Some m ∧ m !! j = Some v.
Proof.
  unfold claims_of. destruct (c_claims c !! k) as [m|]; cbn; [naive_solver|].
  rewrite lookup_empty. naive_solver.
Qed.

Lemma claims_nonneg c : ledger_inv c →
  ∀ k j v, claims_of c k !! j = Some v → 0 <= v.
Proof.
  intros I k j v (claims&Hk&Hj)%claims_of_lookup.
  destruct (li_claims _ I k claims Hk) as [_ Hc]. destruct (Hc j v Hj) as (Ha&_&<-).
  apply (live_wf _ _ (li_live _ I j Ha)).
Qed.

Lemma shared_insert s c k m :
  shared_resident s (<[k:=m]> (c_claims c)) =
  shared_resident s (c_claims c) +
    (if in_scope s k.1 then claims_max m - claims_max (claims_of c k) else 0).
Proof.
  unfold shared_resident. rewrite map_sum_insert. unfold claims_of.
  destruct (c_claims c !! k); cbn; destruct (in_scope s k.1); rewrite ?claims_max_empty; lia.
Qed.

Lemma unclaimed c i k : ledger_inv c → i ∉ c_active c → claims_of c k !! i = None.
Proof.
  intros I Hi. destruct (claims_of c k !! i) as [v|] eqn:Hv; [|done]. exfalso. apply Hi.
  apply claims_of_lookup in Hv as (m&Hk&Hv).
  by apply (proj2 (li_claims _ I k m Hk)) in Hv as [? _].
Qed.

(** The claim charges exactly what it adds to the largest claim. *)
Lemma charge_is_growth c i k :
  ledger_inv c → i ∉ c_active c → claim_key (request c i) = Some k →
  0 <= r_resident (request c i) →
  claims_max (<[i := r_resident (request c i)]> (claims_of c k)) =
    claims_max (claims_of c k) + resident_charge_for_request c (request c i) ∧
  0 <= resident_charge_for_request c (request c i).
Proof.
  intros I Hi Hk Hr. pose proof (claims_nonneg c I k) as Hn.
  rewrite claims_max_insert by eauto using unclaimed.
  pose proof (claims_max_nonneg _ Hn).
  unfold resident_charge_for_request. rewrite Hk.
  destruct (r_resident (request c i) <=? 0) eqn:H0; bool_prop; lia.
Qed.

(** ** The wait record *)

Definition wait_metrics (elapsed : Z) (m : Metrics) : Metrics :=
  upd m_wait_ns (Z.add elapsed)
    (upd m_wait_seconds (λ w, fadd w (int_truediv elapsed 1000000000)) m).

Definition waited_state (i : rid) (elapsed : Z) (c : Coordinator) : Coordinator :=
  on_request i (upd r_wait_accounted (λ _, true))
    (on_metrics (r_route (request c i)) (wait_metrics elapsed) c).

Lemma record_wait_cases i k1 k2 c c' r :
  record_wait i k1 k2 c = (c', r) →
  c' = c ∨ (∃ e, c' = waited_state i e c) ∧ r = Ok tt.
Proof.
  unfold record_wait, read_clock. rewrite stm_bind_eq.
  destruct k1 as [f1|]; cbn; [|intros [= <- _]; by left]. rewrite get_bind.
  unfold when. destruct (_ && _); [|intros [= <- _]; by left].
  destruct k2 as [f2|]; cbn; [|intros [= <- _]; by left].
  rewrite lift_bind. destruct (nanoseconds f2); [|intros [= <- _]; by left].
  intros [= <- <-]. right. split; [|done]. eexists. reflexivity.
Qed.

Lemma wait_frame i e c :
  is_Some (c_requests c !! i) →
  frame c (waited_state i e c) i (upd r_wait_accounted (λ _, true) (request c i)).
Proof.
  intros Hi. unfold waited_state. eapply frame_trans; [apply frame_on_metrics|].
  apply (frame_on_request (on_metrics (r_route (request c i)) (wait_metrics e) c) i
    (upd r_wait_accounted (λ _, true)) Hi).
Qed.

(** The optional wait record of a grant, as one step that keeps the ledger. *)
Record wait_facts (c c' : Coordinator) (i : rid) : Prop := {
  wf_frame : ∃ b, frame c c' i (upd r_wait_accounted (λ _, b) (request c i));
  wf_active : c_active c' = c_active c;
  wf_queues : c_queues c' = c_queues c;
  wf_claims : c_claims c' = c_claims c;
  wf_usage : c_usage c' = c_usage c;
  wf_io : c_io_in_use c' = c_io_in_use c;
  wf_gpu : c_gpu_in_use c' = c_gpu_in_use c;
  wf_routes : ∀ n, is_Some (c_metrics c !! n) →
    m_usage (route_metrics c' n) = m_usage (route_metrics c n) ∧
    m_io (route_metrics c' n) = m_io (route_metrics c n) ∧
    m_gpu (route_metrics c' n) = m_gpu (route_metrics c n);
}.

Lemma wait_facts_refl c i : wait_facts c c i.
Proof.
  split; try done. exists (r_wait_accounted (request c i)).
  split; try done. by destruct (request c i).
Qed.

Lemma waited_state_facts i e c :
  is_Some (c_requests c !! i) → wait_facts c (waited_state i e c) i.
Proof.
  intros Hi. split; try done; [eexists; by apply wait_frame|].
  intros n Hn.
  assert (route_metrics (waited_state i e c) n =
    route_metrics (on_metrics (r_route (request c i)) (wait_metrics e) c) n) as -> by done.
  rewrite route_metrics_on by done. by destruct (decide _).
Qed.

(** ** The successful grant *)

(** The state after the request has left its queue. *)
Definition dequeued (i : rid) (idx : Z) (q : list rid) (c : Coordinator) : Coordinator :=
  upd c_last_granted (λ _, idx)
    (on_request i (upd r_queued (λ _, false))
       (upd c_queues (<[r_route (request c i) := q]>) c)).

Lemma grant_body_eq i idx k1 k2 c q :
  queue c (r_route (request c i)) = i :: q →
  grant_body i idx k1 k2 c =
    (when (r_waited (request c i)) (record_wait i k1 k2);; modify (activate_request i))
      (charge_request i (dequeued i idx q c)).
Proof.
  intros Hq. unfold grant_body, pop_left. rewrite get_bind, bind_assoc, get_bind, Hq.
  rewrite !modify_bind. reflexivity.
Qed.

Lemma waiting_inactive c n i : ledger_inv c → waiting c n i → i ∉ c_active c.
Proof.
  intros I W Hi. pose proof (live_admitted _ _ (li_live _ I i Hi)) as Ha.
  by rewrite (waiting_unadmitted _ _ _ W) in Ha.
Qed.

Lemma queue_insert c n q m :
  queue (upd c_queues (<[n:=q]>) c) m = if decide (m = n) then q else queue c m.
Proof.
  unfold queue. cbn. destruct (decide (m = n)) as [->|Hne].
  - by rewrite lookup_insert_eq.
  - by rewrite lookup_insert_ne.
Qed.

(** What is left in the queues once the head of one of them is taken off. *)
Lemma pop_queue c i q n j :
  ledger_inv c → queue c (r_route (request c i)) = i :: q →
  j ∈ (if decide (n = r_route (request c i)) then q else queue c n) →
  j ≠ i ∧ j ∈ queue c n.
Proof.
  intros I Hq Hj. pose proof (li_queue_nodup _ I (r_route (request c i))) as Hnd.
  rewrite Hq in Hnd. apply NoDup_cons in Hnd as [Hni _].
  destruct (decide (n = _)) as [->|Hne].
  - split; [congruence|]. rewrite Hq. by apply list_elem_of_further.
  - split; [|done]. intros ->. apply Hne. apply (li_queued _ I) in Hj.
    symmetry. apply (waiting_route _ _ _ Hj).
Qed.

Lemma pop_queue_nodup c i q n :
  ledger_inv c → queue c (r_route (request c i)) = i :: q →
  NoDup (if decide (n = r_route (request c i)) then q else queue c n).
Proof.
  intros I Hq. destruct (decide _); [|apply (li_queue_nodup _ I)].
  pose proof (li_queue_nodup _ I (r_route (request c i))) as Hnd. rewrite Hq in Hnd.
  by apply NoDup_cons in Hnd as [_ ?].
Qed.

Lemma dequeued_frame i idx q c :
  is_Some (c_requests c !! i) →
  frame c (dequeued i idx q c) i (upd r_queued (λ _, false) (request c i)).
Proof.
  intros Hi. unfold dequeued.
  destruct (frame_on_request (upd c_queues (<[r_route (request c i) := q]>) c) i
    (upd r_queued (λ _, false)) Hi) as [S O R D].
  split; [exact S|exact O|exact R|exact D].
Qed.

(** The granted request: charged, marked and with its wait accounted or not. *)
Definition grant_record (charge : Z) (b : bool) (r : Request) : Request :=
  activated (upd r_wait_accounted (λ _, b) (upd r_queued (λ _, false) (charge_record charge r))).

Definition granted (c : Coordinator) (i : rid) (b : bool) : Request :=
  grant_record (resident_charge_for_request c (request c i)) b (request c i).

Section grant_record_fields.
Variables (charge : Z) (b : bool) (r : Request).
Lemma grant_record_route : r_route (grant_record charge b r) = r_route r.
Proof. done. Qed.
Lemma grant_record_key : r_resident_key (grant_record charge b r) = r_resident_key r.
Proof. done. Qed.
Lemma grant_record_claim_key : claim_key (grant_record charge b r) = claim_key r.
Proof. done. Qed.
Lemma grant_record_resident : r_resident (grant_record charge b r) = r_resident r.
Proof. done. Qed.
Lemma grant_record_charge : r_resident_charge (grant_record charge b r) = charge.
Proof. done. Qed.
Lemma grant_record_io : r_io (grant_record charge b r) = r_io r.
Proof. done. Qed.
Lemma grant_record_gpu : r_gpu (grant_record charge b r) = r_gpu r.
Proof. done. Qed.
Lemma grant_record_on_io d : on_io d (grant_record charge b r) = on_io d r.
Proof. done. Qed.
Lemma grant_record_on_gpu d : on_gpu d (grant_record charge b r) = on_gpu d r.
Proof. done. Qed.
Lemma grant_record_admitted :
  r_admitted (grant_record charge b r) = true ∧ r_released (grant_record charge b r) = false ∧
  r_queued (grant_record charge b r) = false ∧
  r_execution_active (grant_record charge b r) = needs_execution (grant_record charge b r).
Proof. done. Qed.
Lemma grant_record_wf : lease_wf r → 0 <= charge → lease_wf (grant_record charge b r).
Proof. intros [] Hc. by split. Qed.
End grant_record_fields.

Lemma grant_record_share charge b r z :
  own_resident (grant_record charge b r) + z = charge →
  usage_add (share (grant_record charge b r)) (resident_usage z) =
  usage_add (demand (charge_record charge r)) (execution_of r).
Proof.
  unfold share. generalize (own_resident (grant_record charge b r)). intros own Hz.
  assert (r_execution_active (grant_record charge b r) = needs_execution r) as -> by done.
  unfold execution_of. destruct r; cbn [grant_record charge_record activated].
  destruct (needs_execution _); apply usage_eq; cbn; lia.
Qed.

(** Everything the ledger shows after a successful grant. *)
Record grant_facts (c c' : Coordinator) (i : rid) (q : list rid) (b : bool) : Prop := {
  gf_frame : frame c c' i (granted c i b);
  gf_active : c_active c' = add_active i (c_active c);
  gf_queue : ∀ n, queue c' n = if decide (n = r_route (request c i)) then q else queue c n;
  gf_claims : c_claims c' = match claim_key (request c i) with
    | Some k => <[k := <[i := r_resident (request c i)]> (claims_of c k)]> (c_claims c)
    | None => c_claims c
    end;
  gf_usage : c_usage c' = usage_add (usage_add (c_usage c) (demand (charged c i)))
                            (execution_of (request c i));
  gf_routes : ∀ n, is_Some (c_metrics c !! n) →
    let here := bool_decide (n = r_route (request c i)) in
    m_usage (route_metrics c' n) = usage_add (m_usage (route_metrics c n))
      (if here then usage_add (demand (charged c i)) (execution_of (request c i)) else no_usage) ∧
    m_io (route_metrics c' n) =
      m_io (route_metrics c n) + (if here then r_io (request c i) else 0) ∧
    m_gpu (route_metrics c' n) =
      m_gpu (route_metrics c n) + (if here then r_gpu (request c i) else 0);
  gf_io : ∀ d, default 0 (c_io_in_use c' !! d) =
    default 0 (c_io_in_use c !! d) + on_io d (request c i);
  gf_gpu : ∀ d, default 0 (c_gpu_in_use c' !! d) =
    default 0 (c_gpu_in_use c !! d) + on_gpu d (request c i);
}.

Lemma admit_metrics_counts r m :
  m_usage (admit_metrics r m) = usage_add (m_usage m) (demand r) ∧
  m_io (admit_metrics r m) = m_io m ∧ m_gpu (admit_metrics r m) = m_gpu m.
Proof. unfold admit_metrics. by destruct (r_phase r). Qed.

Lemma grant_facts_compose c i idx q c3 :
  is_Some (c_requests c !! i) →
  wait_facts (charge_request i (dequeued i idx q c)) c3 i →
  ∃ b, grant_facts c (activate_request i c3) i q b.
Proof.
  intros Hi W. set (c1 := dequeued i idx q c) in *.
  pose proof (dequeued_frame i idx q c Hi) as F1. fold c1 in F1.
  assert (is_Some (c_requests c1 !! i)) as H1 by by apply (f_stored _ _ _ _ F1).
  assert (request c1 i = upd r_queued (λ _, false) (request c i)) as Hr1 by apply F1.
  assert (charged c1 i = upd r_queued (λ _, false) (charged c i)) as Hch.
  { unfold charged. rewrite Hr1. done. }
  pose proof (charge_request_facts c1 i H1) as [F2 A2 Q2 I2 G2 U2 C2 R2].
  set (c2 := charge_request i c1) in *. destruct W as [[b F3] A3 Q3 C3 U3 I3 G3 R3].
  assert (is_Some (c_requests c3 !! i)) as H3
    by (apply (f_stored _ _ _ _ F3), (f_stored _ _ _ _ F2), H1).
  pose proof (activate_request_facts c3 i H3) as [F4 A4 Q4 C4 U4 R4 I4 G4].
  rewrite Hch, ?Hr1 in *.
  assert (request c2 i = upd r_queued (λ _, false) (charged c i)) as Hr2 by apply F2.
  rewrite Hr2 in F3.
  assert (request c3 i = upd r_wait_accounted (λ _, b)
    (upd r_queued (λ _, false) (charged c i))) as Hr3 by apply F3.
  rewrite Hr3 in *. exists b. split.
  - exact (frame_trans _ _ _ _ _ _ F1 (frame_trans _ _ _ _ _ _ F2 (frame_trans _ _ _ _ _ _ F3 F4))).
  - rewrite A4, A3, A2. done.
  - intros n. unfold queue at 1. rewrite Q4, Q3, Q2. apply (queue_insert c).
  - rewrite C4, C3, C2. done.
  - rewrite U4, U3, U2. done.
  - intros n Hn here. destruct (R4 n) as (->&->&->).
    { by apply (f_metrics _ _ _ _ F3), (f_metrics _ _ _ _ F2), (f_metrics _ _ _ _ F1). }
    destruct (R3 n) as (->&->&->).
    { by apply (f_metrics _ _ _ _ F2), (f_metrics _ _ _ _ F1). }
    rewrite (R2 n) by by apply (f_metrics _ _ _ _ F1). subst here.
    change (route_metrics c1 n) with (route_metrics c n). 
    change (r_route (upd r_queued (λ _, false) (request c i))) with (r_route (request c i)).
    destruct (decide (n = r_route (request c i))) as [Hn'|Hn'].
    + destruct (admit_metrics_counts (upd r_queued (λ _, false) (charged c i)) (route_metrics c n))
        as (->&->&->).
      rewrite !bool_decide_eq_true_2 by done. split; [apply usage_add_assoc|done].
    + rewrite !bool_decide_eq_false_2 by done. done.
  - intros d. rewrite I4, I3, I2. done.
  - intros d. rewrite G4, G3, G2. done.
Qed.

Lemma touches_of_frame c c' i r :
  frame c c' i r → NoDup (c_active c') → (∀ j, j ≠ i → j ∈ c_active c' ↔ j ∈ c_active c) →
  touches c c' i.
Proof. intros [S O R D] Hn Ha. by split. Qed.

Lemma waiting_other c c' i n j :
  touches c c' i → j ≠ i → waiting c n j → waiting c' n j.
Proof.
  intros Ht Hj [S R M Q A W]. split; rewrite ?(touches_request c c' i j Ht Hj); try done.
  - by rewrite (t_requests _ _ _ Ht).
  - by apply (t_metrics _ _ _ Ht).
Qed.

Section grant_step.
Variables (c c' : Coordinator) (i : rid) (q : list rid) (b : bool).
Hypothesis I : ledger_inv c.
Hypothesis W : waiting c (r_route (request c i)) i.
Hypothesis Hq : queue c (r_route (request c i)) = i :: q.
Hypothesis G : grant_facts c c' i q b.

Let inactive : i ∉ c_active c := waiting_inactive c _ i I W.

Lemma granted_active : c_active c' = c_active c ++ [i].
Proof. rewrite (gf_active _ _ _ _ _ G). unfold add_active. by rewrite decide_False. Qed.

Lemma grant_touches : touches c c' i.
Proof.
  eapply touches_of_frame; [apply G| |]; rewrite granted_active.
  - apply NoDup_app. split; [apply (li_nodup _ I)|]. split; [|apply NoDup_singleton].
    intros j Hj ->%list_elem_of_singleton. done.
  - intros j Hj. rewrite elem_of_app, list_elem_of_singleton. naive_solver.
Qed.

Lemma granted_charge_nonneg : 0 <= resident_charge_for_request c (request c i).
Proof.
  pose proof (waiting_wf _ _ _ W) as L.
  destruct (claim_key (request c i)) as [k|] eqn:Hk.
  - by apply (charge_is_growth c i k I inactive Hk), L.
  - unfold resident_charge_for_request. rewrite Hk. apply L.
Qed.

Lemma granted_live : live c' i.
Proof.
  pose proof (gf_frame _ _ _ _ _ G) as [S O R D]. unfold granted in R.
  destruct (grant_record_admitted (resident_charge_for_request c (request c i)) b (request c i))
    as (Ha&Hh&Hu&He).
  split; rewrite ?R; try assumption.
  - apply S, W.
  - rewrite grant_record_route. apply D. apply (waiting_metrics _ _ _ W).
  - apply grant_record_wf; [apply (waiting_wf _ _ _ W)|apply granted_charge_nonneg].
Qed.

Lemma shared_growth s :
  shared_resident s (c_claims c') - shared_resident s (c_claims c) =
    match r_resident_key (request c i) with
    | Some _ => if in_scope s (r_route (request c i))
                then resident_charge_for_request c (request c i) else 0
    | None => 0
    end.
Proof.
  rewrite (gf_claims _ _ _ _ _ G). destruct (claim_key (request c i)) as [k|] eqn:Hk.
  - rewrite shared_insert.
    destruct (charge_is_growth c i k I inactive Hk) as [-> _]; [apply (waiting_wf _ _ _ W)|].
    unfold claim_key in Hk. destruct (r_resident_key (request c i)) as [k'|]; [|done].
    injection Hk as <-. cbn [fst]. destruct (in_scope s _); lia.
  - unfold claim_key in Hk. destruct (r_resident_key (request c i)); [done|lia].
Qed.

(** What the new lease adds to the totals is what the grant charged. *)
Lemma granted_change s :
  usage_change s c c' i =
    if in_scope s (r_route (request c i))
    then usage_add (demand (charged c i)) (execution_of (request c i)) else no_usage.
Proof.
  unfold usage_change, part_usage. rewrite granted_active, decide_True by set_solver.
  rewrite decide_False by exact inactive.
  rewrite (f_request _ _ _ _ (gf_frame _ _ _ _ _ G)), shared_growth.
  unfold scoped_share, granted. rewrite grant_record_route, usage_sub_zero.
  pose proof (grant_record_key (resident_charge_for_request c (request c i)) b (request c i)) as Hk.
  pose proof (grant_record_charge (resident_charge_for_request c (request c i)) b (request c i)) as Hc.
  destruct (in_scope s (r_route (request c i))).
  - apply grant_record_share. unfold own_resident. rewrite Hk, Hc.
    destruct (r_resident_key (request c i)); lia.
  - by destruct (r_resident_key (request c i)).
Qed.

Lemma granted_part f :
  part f c' i - part f c i = f (granted c i b).
Proof.
  unfold part. rewrite granted_active, decide_True by set_solver.
  rewrite decide_False by exact inactive.
  rewrite (f_request _ _ _ _ (gf_frame _ _ _ _ _ G)). lia.
Qed.

Lemma granted_claims k claims :
  c_claims c' !! k = Some claims → claims ≠ ∅ ∧
    ∀ j v, claims !! j = Some v →
      j ∈ c_active c' ∧ claim_key (request c' j) = Some k ∧ r_resident (request c' j) = v.
Proof.
  pose proof grant_touches as T. pose proof (gf_frame _ _ _ _ _ G) as [_ _ R _].
  assert (∀ m, c_claims c !! k = Some m → m ≠ ∅ ∧ ∀ j v, m !! j = Some v →
      j ∈ c_active c' ∧ claim_key (request c' j) = Some k ∧ r_resident (request c' j) = v) as Hold.
  { intros m Hm. destruct (li_claims _ I k m Hm) as [Hne Hm']. split; [done|].
    intros j v Hj. destruct (Hm' j v Hj) as (Ha&Hk&Hv).
    assert (j ≠ i) as Hji by (intros ->; by apply inactive).
    rewrite (touches_request c c' i j T Hji). split; [|done]. by apply (t_active _ _ _ T). }
  rewrite (gf_claims _ _ _ _ _ G). destruct (claim_key (request c i)) as [k0|] eqn:Hk0;
    [|apply Hold].
  destruct (decide (k = k0)) as [->|Hne]; [|rewrite lookup_insert_ne by done; apply Hold].
  rewrite lookup_insert_eq. intros [= <-]. split; [apply insert_non_empty|].
  intros j v Hj. destruct (decide (j = i)) as [->|Hji].
  - rewrite lookup_insert_eq in Hj. injection Hj as <-. rewrite granted_active, R.
    unfold granted. rewrite grant_record_claim_key, grant_record_resident. set_solver.
  - rewrite lookup_insert_ne in Hj by done. apply claims_of_lookup in Hj as (m&Hm&Hj).
    by apply (proj2 (Hold m Hm)).
Qed.

Lemma granted_claimed j k :
  j ∈ c_active c' → claim_key (request c' j) = Some k →
  claims_of c' k !! j = Some (r_resident (request c' j)).
Proof.
  pose proof grant_touches as T. pose proof (gf_frame _ _ _ _ _ G) as [_ _ R _].
  intros Ha Hk. unfold claims_of. rewrite (gf_claims _ _ _ _ _ G).
  destruct (decide (j = i)) as [->|Hji].
  - rewrite R in Hk |- *. unfold granted in *.
    rewrite grant_record_claim_key in Hk. rewrite grant_record_resident, Hk.
    rewrite lookup_insert_eq. cbn. by rewrite lookup_insert_eq.
  - rewrite (touches_request c c' i j T Hji) in *. apply (t_active _ _ _ T j Hji) in Ha.
    pose proof (li_claimed _ I j k Ha Hk) as Hj. unfold claims_of in Hj.
    destruct (claim_key (request c i)) as [k0|]; [|done].
    destruct (decide (k = k0)) as [->|Hne]; [|by rewrite lookup_insert_ne].
    rewrite lookup_insert_eq. cbn. by rewrite lookup_insert_ne.
Qed.

Lemma granted_queued n j : j ∈ queue c' n → waiting c' n j.
Proof.
  rewrite (gf_queue _ _ _ _ _ G). intros Hj.
  destruct (pop_queue c i q n j I Hq Hj) as [Hji Hin].
  eapply waiting_other; [apply grant_touches|done|]. by apply (li_queued _ I).
Qed.

Lemma grant_ledger_step : ledger_step c c' i.
Proof.
  pose proof (gf_frame _ _ _ _ _ G) as [_ _ R _]. split.
  - apply grant_touches.
  - intros _. apply granted_live.
  - intros _ _. rewrite granted_active. set_solver.
  - rewrite (gf_usage _ _ _ _ _ G), granted_change. cbn [in_scope]. apply usage_add_assoc.
  - intros n Hn. destruct (gf_routes _ _ _ _ _ G n Hn) as (->&->&->).
    rewrite granted_change. rewrite <- !Z.add_sub_assoc, !granted_part. unfold scoped, granted.
    rewrite grant_record_route, grant_record_io, grant_record_gpu. cbn [in_scope].
    rewrite (bool_decide_ext (r_route (request c i) = n) (n = r_route (request c i))) by done.
    done.
  - intros d. rewrite (gf_io _ _ _ _ _ G), <- Z.add_sub_assoc, granted_part. unfold granted.
    by rewrite grant_record_on_io.
  - intros d. rewrite (gf_gpu _ _ _ _ _ G), <- Z.add_sub_assoc, granted_part. unfold granted.
    by rewrite grant_record_on_gpu.
  - apply granted_claims.
  - apply granted_claimed.
  - apply granted_queued.
  - intros n. rewrite (gf_queue _ _ _ _ _ G). by apply pop_queue_nodup.
Qed.
End grant_step.

Lemma grant_success c c' i idx k1 k2 q :
  ledger_inv c → queue c (r_route (request c i)) = i :: q →
  grant_request i idx k1 k2 c = (c', Ok tt) → ∃ b, grant_facts c c' i q b.
Proof.
  intros I Hq. assert (waiting c (r_route (request c i)) i) as W.
  { apply (li_queued _ I). rewrite Hq. apply list_elem_of_here. }
  unfold grant_request. rewrite get_bind. intros Hg%on_error_ok. revert Hg.
  rewrite (grant_body_eq i idx k1 k2 c q Hq).
  pose proof (dequeued_frame i idx q c (waiting_stored _ _ _ W)) as F1.
  pose proof (proj2 (f_stored _ _ _ _ F1 i) (waiting_stored _ _ _ W)) as H1.
  pose proof (cf_frame _ _ _ (charge_request_facts (dequeued i idx q c) i H1)) as F2.
  pose proof (proj2 (f_stored _ _ _ _ F2 i) H1) as H2.
  set (c2 := charge_request i (dequeued i idx q c)) in *.
  intros (c3&[]&Hw&[-> _]%modify_ok)%stm_bind_ok.
  apply (grant_facts_compose c i idx q c3); [apply W|]. unfold when in Hw.
  destruct (r_waited (request c i)); [|injection Hw as <-; apply wait_facts_refl].
  apply record_wait_cases in Hw as [->|[[e ->] _]]; [apply wait_facts_refl|].
  by apply waited_state_facts.
Qed.

Lemma grant_keeps_ledger c c' i idx k1 k2 q :
  ledger_inv c → queue c (r_route (request c i)) = i :: q →
  grant_request i idx k1 k2 c = (c', Ok tt) → ledger_inv c'.
Proof.
  intros I Hq Hg. destruct (grant_success c c' i idx k1 k2 q I Hq Hg) as [b G].
  eapply ledger_step_inv; [exact I|]. eapply (grant_ledger_step c c' i q b I); [|exact Hq|exact G].
  apply (li_queued _ I). rewrite Hq. apply list_elem_of_here.
Qed.

(** ** The failed grant *)

(** What a failed grant leaves: the request off its queue, neither admitted
    nor released, and nothing else changed. *)
Definition refused (r : Request) : Request :=
  upd r_execution_active (λ _, false)
    (upd r_queued (λ _, false) (upd r_admitted (λ _, false) (upd r_released (λ _, false) r))).

Definition after_refusal (i : rid) (q : list rid) (c : Coordinator) : Coordinator :=
  upd c_requests (<[i := refused (request c i)]>)
    (upd c_queues (<[r_route (request c i) := q]>) c).

Lemma rollback_metrics_id m m' :
  m_waits m' = m_waits m → rollback_metrics m m' = m.
Proof. destruct m, m'. cbn. by intros ->. Qed.

Lemma rollback_request_charged charge r :
  rollback_request r (charge_record charge (upd r_queued (λ _, false) r)) = refused r.
Proof. by destruct r. Qed.

Lemma refused_insert c (i : rid) r : is_Some (c_requests c !! i) →
  ∀ f, f (request c i) = r → alter f i (c_requests c) = <[i := r]> (c_requests c).
Proof.
  intros [x Hx] f Hf. apply map_eq. intros j. destruct (decide (j = i)) as [->|Hne].
  - rewrite lookup_alter_eq, lookup_insert_eq, Hx. cbn. unfold request in Hf.
    by rewrite lookup_total_alt, Hx in Hf; cbn in Hf; rewrite Hf.
  - by rewrite lookup_alter_ne, lookup_insert_ne.
Qed.

Lemma restore_claim_charged c k m :
  (match c_claims c !! k with
   | Some claims => <[k := claims]> (<[k := m]> (c_claims c))
   | None => delete k (<[k := m]> (c_claims c))
   end) = c_claims c.
Proof.
  destruct (c_claims c !! k) as [claims|] eqn:Hk.
  - by rewrite insert_insert_eq, insert_id.
  - rewrite delete_insert_eq. by apply delete_id.
Qed.

Lemma alter_alter_id {K V} `{Countable K} (m : gmap K V) k (f g : V → V) :
  (∀ v, m !! k = Some v → g (f v) = v) → alter g k (alter f k m) = m.
Proof.
  intros Hfg. apply map_eq. intros j. destruct (decide (j = k)) as [->|Hne].
  - rewrite !lookup_alter_eq. destruct (m !! k) as [v|] eqn:Hv; cbn; [|done].
    by rewrite (Hfg v eq_refl).
  - by rewrite !lookup_alter_ne.
Qed.

(** Charging a request changes these four fields only. *)
Definition overlay (us : Usage) (ms : gmap pystr Metrics)
    (cs : gmap (pystr * pystr) (gmap rid Z)) (rs : gmap rid Request) (c : Coordinator)
  : Coordinator :=
  upd c_usage (λ _, us) (upd c_metrics (λ _, ms) (upd c_claims (λ _, cs)
    (upd c_requests (λ _, rs) c))).

Lemma charge_overlay i c : let c' := charge_request i c in
  c' = overlay (c_usage c') (c_metrics c') (c_claims c') (c_requests c') c.
Proof.
  unfold charge_request, overlay. set (c1 := on_request i _ c). cbv zeta.
  by destruct (claim_key (request c1 i)).
Qed.

Lemma rollback_overlay i idx q c us ms cs rs :
  let c2 := overlay us ms cs rs (dequeued i idx q c) in
  i ∉ c_active c →
  rollback_grant i c c2 =
    upd c_requests (λ _, alter (rollback_request (request c i)) i rs)
      (upd c_claims (λ _, match claim_key (request c i) with
                          | Some k => match c_claims c !! k with
                                      | Some claims => <[k := claims]> cs
                                      | None => delete k cs
                                      end
                          | None => cs
                          end)
        (upd c_metrics (λ _, alter
           (rollback_metrics (route_metrics c (r_route (request c i)))) (r_route (request c i)) ms)
          (upd c_queues (<[r_route (request c i) := q]>) c))).
Proof.
  intros c2 Ha. unfold rollback_grant, restore_claim.
  destruct (claim_key (request c i)) as [k|]; apply Coordinator_eq; try reflexivity;
    by apply filter_ne_id.
Qed.

Lemma charge_requests c i : c_requests (charge_request i c) =
  alter (charge_record (resident_charge_for_request c (request c i))) i (c_requests c).
Proof.
  unfold charge_request. set (c1 := on_request i _ c). by destruct (claim_key (request c1 i)).
Qed.

Lemma charge_metrics c i : is_Some (c_requests c !! i) → c_metrics (charge_request i c) =
  alter (admit_metrics (charged c i)) (r_route (request c i)) (c_metrics c).
Proof.
  intros Hi. unfold charge_request. set (c1 := on_request i _ c).
  assert (request c1 i = charged c i) as ->.
  { subst c1. rewrite request_on_request by done. by rewrite decide_True. }
  change (r_route (charged c i)) with (r_route (request c i)).
  by destruct (claim_key (charged c i)).
Qed.

Lemma rollback_charged c i idx q :
  is_Some (c_requests c !! i) → i ∉ c_active c →
  rollback_grant i c (charge_request i (dequeued i idx q c)) = after_refusal i q c.
Proof.
  intros Hi Ha. set (c1 := dequeued i idx q c).
  pose proof (dequeued_frame i idx q c Hi) as F1. fold c1 in F1.
  pose proof (proj2 (f_stored _ _ _ _ F1 i) Hi) as H1.
  pose proof (cf_claims _ _ _ (charge_request_facts c1 i H1)) as C2.
  pose proof (f_request _ _ _ _ F1) as Hr1. rewrite Hr1 in C2.
  rewrite (charge_overlay i c1). subst c1. rewrite rollback_overlay by done.
  set (c1 := dequeued i idx q c) in *.
  unfold after_refusal. apply Coordinator_eq; try reflexivity.
  - change (alter (rollback_metrics (route_metrics c (r_route (request c i))))
      (r_route (request c i)) (c_metrics (charge_request i c1)) = c_metrics c).
    rewrite charge_metrics, Hr1 by done. apply alter_alter_id. intros m Hm.
    change (c_metrics c !! r_route (request c i) = Some m) in Hm.
    assert (route_metrics c (r_route (request c i)) = m) as ->.
    { unfold route_metrics. by rewrite lookup_total_alt, Hm. }
    apply rollback_metrics_id. unfold admit_metrics. by destruct (r_phase _).
  - change (match claim_key (request c i) with
      | Some k => match c_claims c !! k with
                  | Some claims => <[k := claims]> (c_claims (charge_request i c1))
                  | None => delete k (c_claims (charge_request i c1))
                  end
      | None => c_claims (charge_request i c1) end = c_claims c).
    rewrite C2. change (claim_key (upd r_queued _ (request c i))) with (claim_key (request c i)).
    destruct (claim_key (request c i)) as [k|]; [|done].
    exact (restore_claim_charged c k _).
  - change (alter (rollback_request (request c i)) i (c_requests (charge_request i c1)) =
      <[i := refused (request c i)]> (c_requests c)).
    rewrite charge_requests.
    change (c_requests c1) with (alter (upd r_queued (λ _, false)) i (c_requests c)).
    apply map_eq. intros j. destruct (decide (j = i)) as [->|Hne];
      [|by rewrite !lookup_alter_ne, lookup_insert_ne].
    rewrite !lookup_alter_eq, lookup_insert_eq. destruct Hi as [r Hr]. rewrite Hr.
    assert (request c i = r) as -> by (unfold request; by rewrite lookup_total_alt, Hr).
    cbn [fmap option_fmap option_map]. by rewrite rollback_request_charged.
Qed.

(** A refused request leaves a ledger that differs only in its queue. *)
Lemma grant_failure c c' i idx k1 k2 q e :
  ledger_inv c → queue c (r_route (request c i)) = i :: q →
  grant_request i idx k1 k2 c = (c', Err e) → c' = after_refusal i q c.
Proof.
  intros I Hq. assert (waiting c (r_route (request c i)) i) as W.
  { apply (li_queued _ I). rewrite Hq. apply list_elem_of_here. }
  unfold grant_request. rewrite get_bind. intros (c1&Hb&->)%on_error_err. revert Hb.
  rewrite (grant_body_eq i idx k1 k2 c q Hq).
  intros [Hw|(c2&[]&_&Hm)]%stm_bind_err; [|by apply modify_ok in Hm as [_ ?]].
  unfold when in Hw. destruct (r_waited (request c i)); [|discriminate Hw].
  apply record_wait_cases in Hw as [->|[_ ?]]; [|done].
  apply rollback_charged; [apply W|]. by eapply waiting_inactive.
Qed.

Lemma refusal_step c i q :
  ledger_inv c → queue c (r_route (request c i)) = i :: q → ledger_step c (after_refusal i q c) i.
Proof.
  intros I Hq. assert (waiting c (r_route (request c i)) i) as W.
  { apply (li_queued _ I). rewrite Hq. apply list_elem_of_here. }
  pose proof (waiting_inactive _ _ _ I W) as Ha. set (c' := after_refusal i q c).
  assert (touches c c' i) as T.
  { split; try done; [apply (li_nodup _ I)|]. intros j Hj. cbn. by rewrite lookup_insert_ne. }
  assert (request c' i = refused (request c i)) as Hr.
  { unfold request at 1. cbn. by rewrite lookup_total_insert_eq. }
  assert (∀ f, part f c' i = 0 ∧ part f c i = 0) as Hp.
  { intros f. unfold part. change (c_active c') with (c_active c).
    by rewrite !decide_False by done. }
  assert (∀ s, usage_change s c c' i = no_usage) as Hu.
  { intros s. unfold usage_change, part_usage. change (c_active c') with (c_active c).
    rewrite !decide_False by done. change (c_claims c') with (c_claims c).
    rewrite Z.sub_diag. usage. }
  split.
  - done.
  - done.
  - by rewrite Hr.
  - by rewrite Hu, usage_add_zero.
  - intros n Hn. rewrite Hu, usage_add_zero, !(proj1 (Hp _)), !(proj2 (Hp _)).
    change (route_metrics c' n) with (route_metrics c n). split; [done|lia].
  - intros d. destruct (Hp (on_io d)) as [-> ->]. change (c_io_in_use c') with (c_io_in_use c). lia.
  - intros d. destruct (Hp (on_gpu d)) as [-> ->]. change (c_gpu_in_use c') with (c_gpu_in_use c).
    lia.
  - intros k claims Hk. destruct (li_claims _ I k claims Hk) as [Hne Hc]. split; [done|].
    intros j v Hj. destruct (Hc j v Hj) as (Hja&Hjk&Hjv).
    rewrite (touches_request c c' i j T) by (intros ->; by apply Ha). done.
  - intros j k Hj Hk. assert (j ≠ i) as Hji by (intros ->; by apply Ha).
    rewrite (touches_request c c' i j T Hji) in *. by apply (li_claimed _ I).
  - intros n j Hj.
    change (queue c' n) with (queue (upd c_queues (<[r_route (request c i) := q]>) c) n) in Hj.
    rewrite queue_insert in Hj. destruct (pop_queue c i q n j I Hq Hj) as [Hji Hin].
    eapply waiting_other; [exact T|done|]. by apply (li_queued _ I).
  - intros n.
    change (queue c' n) with (queue (upd c_queues (<[r_route (request c i) := q]>) c) n).
    rewrite queue_insert. by apply pop_queue_nodup.
Qed.

Lemma failed_grant_keeps_ledger c c' i idx k1 k2 q e :
  ledger_inv c → queue c (r_route (request c i)) = i :: q →
  grant_request i idx k1 k2 c = (c', Err e) → ledger_inv c'.
Proof.
  intros I Hq Hg. rewrite (grant_failure _ _ _ _ _ _ _ _ I Hq Hg).
  eapply ledger_step_inv; [exact I|]. by apply refusal_step.
Qed.
