(* ===== verification/LeaseInvariant.v ===== *)
(** * Live leases and their release

    The transitions of an admitted lease: giving back its execution, shrinking
    its transient memory, resizing its temporary bytes, registering a process,
    and its release.  A release always succeeds on a live lease, because the
    ledger holds every amount that it gives back. *)

From S2P Require Import Prelude IoIdentity ResourceModel ResourceLedger LedgerInvariant.
From S2P Require Import GrantInvariant.

(** ** Amounts given back *)

Definition usage_neg (u : Usage) : Usage := usage_sub no_usage u.

Lemma usage_add_neg u v : usage_add u (usage_neg v) = usage_sub u v.
Proof. usage. Qed.

Lemma live_inactive_queue c i n : ledger_inv c → i ∈ c_active c → i ∉ queue c n.
Proof. intros I Hi Hq. by eapply (waiting_inactive c n i I); [apply (li_queued _ I)|]. Qed.

(** A live lease's use of a device is on that device's counter. *)
Lemma io_key c i : ledger_inv c → i ∈ c_active c → r_io (request c i) ≠ 0 →
  is_Some (c_io_in_use c !! device_or_default (r_io_device (request c i))).
Proof.
  intros I Hi Hio. set (d := device_or_default _).
  destruct (c_io_in_use c !! d) as [v|] eqn:Hv; [by eexists|exfalso].
  pose proof (li_io _ I d) as Hs. rewrite Hv in Hs. cbn in Hs.
  assert (∀ j, j ∈ c_active c → 0 <= scoped None (on_io d) (request c j)) as Hn.
  { intros j Hj. unfold scoped, on_io. cbn. pose proof (lw_io _ (live_wf _ _ (li_live _ I j Hj))).
    destruct (bool_decide _); lia. }
  pose proof (sum_with_ge _ _ i Hn Hi) as Hge. cbv beta in Hge.
  unfold scope_sum in Hs. rewrite <- Hs in Hge. unfold scoped, on_io in Hge. cbn in Hge.
  rewrite bool_decide_eq_true_2 in Hge by done.
  pose proof (lw_io _ (live_wf _ _ (li_live _ I i Hi))). lia.
Qed.

Lemma gpu_key c i : ledger_inv c → i ∈ c_active c → r_gpu (request c i) ≠ 0 →
  is_Some (c_gpu_in_use c !! device_or_default (r_gpu_device (request c i))).
Proof.
  intros I Hi Hio. set (d := device_or_default _).
  destruct (c_gpu_in_use c !! d) as [v|] eqn:Hv; [by eexists|exfalso].
  pose proof (li_gpu _ I d) as Hs. rewrite Hv in Hs. cbn in Hs.
  assert (∀ j, j ∈ c_active c → 0 <= scoped None (on_gpu d) (request c j)) as Hn.
  { intros j Hj. unfold scoped, on_gpu. cbn. pose proof (lw_gpu _ (live_wf _ _ (li_live _ I j Hj))).
    destruct (bool_decide _); lia. }
  pose proof (sum_with_ge _ _ i Hn Hi) as Hge. cbv beta in Hge.
  unfold scope_sum in Hs. rewrite <- Hs in Hge. unfold scoped, on_gpu in Hge. cbn in Hge.
  rewrite bool_decide_eq_true_2 in Hge by done.
  pose proof (lw_gpu _ (live_wf _ _ (li_live _ I i Hi))). lia.
Qed.

Lemma count_down_lookup (k d : pystr) (n v : Z) (m : gmap pystr Z) :
  m !! k = Some v →
  default 0 (<[k := v - n]> m !! d) = default 0 (m !! d) - if bool_decide (k = d) then n else 0.
Proof.
  intros Hv. destruct (decide (k = d)) as [->|Hne].
  - by rewrite lookup_insert_eq, Hv, bool_decide_eq_true_2.
  - rewrite lookup_insert_ne, bool_decide_eq_false_2 by done. lia.
Qed.

Lemma release_io_block c i r :
  (r_io r ≠ 0 → is_Some (c_io_in_use c !! device_or_default (r_io_device r))) →
  ∃ c', release_io r c = (c', Ok tt) ∧
    block_facts c c' i (request c i) (r_route r) no_usage (- r_io r) 0 ∧
    c_gpu_in_use c' = c_gpu_in_use c ∧
    ∀ d, default 0 (c_io_in_use c' !! d) = default 0 (c_io_in_use c !! d) - on_io d r.
Proof.
  intros Hk. unfold release_io, when. destruct (r_io r =? 0) eqn:H0; bool_prop; cbn [negb].
  - exists c. rewrite H0. split; [done|]. split; [apply block_refl|]. split; [done|].
    intros d. unfold on_io. rewrite H0. destruct (bool_decide _); lia.
  - destruct (Hk H0) as [v Hv]. rewrite get_bind, lift_bind. unfold count_down. rewrite Hv. cbn.
    eexists. split; [reflexivity|]. split; [|split; [done|]].
    + apply block_metrics; try done; [cbn; by rewrite usage_add_zero|].
      intros m. cbn. rewrite usage_add_zero. split; [done|lia].
    + intros d. cbn. by apply count_down_lookup.
Qed.

Lemma release_gpu_block c i r :
  (r_gpu r ≠ 0 → is_Some (c_gpu_in_use c !! device_or_default (r_gpu_device r))) →
  ∃ c', release_gpu r c = (c', Ok tt) ∧
    block_facts c c' i (request c i) (r_route r) no_usage 0 (- r_gpu r) ∧
    c_io_in_use c' = c_io_in_use c ∧
    ∀ d, default 0 (c_gpu_in_use c' !! d) = default 0 (c_gpu_in_use c !! d) - on_gpu d r.
Proof.
  intros Hk. unfold release_gpu, when. destruct (r_gpu r =? 0) eqn:H0; bool_prop; cbn [negb].
  - exists c. rewrite H0. split; [done|]. split; [apply block_refl|]. split; [done|].
    intros d. unfold on_gpu. rewrite H0. destruct (bool_decide _); lia.
  - destruct (Hk H0) as [v Hv]. rewrite get_bind, lift_bind. unfold count_down. rewrite Hv. cbn.
    eexists. split; [reflexivity|]. split; [|split; [done|]].
    + apply block_metrics; try done; [cbn; by rewrite usage_add_zero|].
      intros m. cbn. rewrite usage_add_zero. split; [done|lia].
    + intros d. cbn. by apply count_down_lookup.
Qed.

Lemma usage_block c i n0 d :
  block_facts c
    (on_metrics n0 (upd m_usage (λ u, usage_sub u d)) (upd c_usage (λ u, usage_sub u d) c))
    i (request c i) n0 (usage_neg d) 0 0.
Proof.
  apply block_metrics; try done.
  intros m. cbn. rewrite usage_add_neg. split; [done|lia].
Qed.

(** ** A change of one live lease in place *)

Record same_lease (r r' : Request) : Prop := {
  sl_route : r_route r' = r_route r;
  sl_key : r_resident_key r' = r_resident_key r;
  sl_resident : r_resident r' = r_resident r;
  sl_admitted : r_admitted r' = r_admitted r;
  sl_released : r_released r' = r_released r;
  sl_queued : r_queued r' = r_queued r;
}.

Section lease_update.
Variables (c c' : Coordinator) (i : rid) (r' : Request) (du : Usage) (dio dgpu : Z).
Let r := request c i.
Hypothesis I : ledger_inv c.
Hypothesis Hi : i ∈ c_active c.
Hypothesis B : block_facts c c' i r' (r_route r) du dio dgpu.
Hypothesis Same : same_lease r r'.
Hypothesis Wf : lease_wf r'.
Hypothesis Exec : r_execution_active r' = needs_execution r'.
Hypothesis Hshare : share r' = usage_add (share r) du.
Hypothesis Hio : r_io r' = r_io r + dio.
Hypothesis Hgpu : r_gpu r' = r_gpu r + dgpu.
Hypothesis Dio : ∀ d, default 0 (c_io_in_use c' !! d) =
  default 0 (c_io_in_use c !! d) + on_io d r' - on_io d r.
Hypothesis Dgpu : ∀ d, default 0 (c_gpu_in_use c' !! d) =
  default 0 (c_gpu_in_use c !! d) + on_gpu d r' - on_gpu d r.

Lemma update_touches : touches c c' i.
Proof.
  eapply touches_of_frame; [apply B| |]; rewrite (bf_active _ _ _ _ _ _ _ _ B);
    [apply (li_nodup _ I)|done].
Qed.

Lemma update_request j : j ∈ c_active c → same_lease (request c j) (request c' j).
Proof.
  intros Hj. destruct (decide (j = i)) as [->|Hne].
  - by rewrite (f_request _ _ _ _ (bf_frame _ _ _ _ _ _ _ _ B)).
  - rewrite (touches_request c c' i j update_touches Hne). by split.
Qed.

Lemma same_claim_key r1 r2 : same_lease r1 r2 → claim_key r2 = claim_key r1.
Proof. intros S. unfold claim_key. by rewrite (sl_route _ _ S), (sl_key _ _ S). Qed.

Lemma update_change s :
  usage_change s c c' i = if in_scope s (r_route r) then du else no_usage.
Proof.
  unfold usage_change, part_usage, scoped_share.
  rewrite (bf_active _ _ _ _ _ _ _ _ B), decide_True by exact Hi.
  rewrite decide_True by exact Hi.
  rewrite (f_request _ _ _ _ (bf_frame _ _ _ _ _ _ _ _ B)), (bf_claims _ _ _ _ _ _ _ _ B).
  rewrite (sl_route _ _ Same), Z.sub_diag. fold r. destruct (in_scope s (r_route r)); [|usage].
  rewrite Hshare. fold r. generalize (share r). intros u. usage.
Qed.

Lemma update_part f : part f c' i - part f c i = f r' - f r.
Proof.
  unfold part. rewrite (bf_active _ _ _ _ _ _ _ _ B), decide_True by exact Hi.
  rewrite decide_True by exact Hi.
  by rewrite (f_request _ _ _ _ (bf_frame _ _ _ _ _ _ _ _ B)).
Qed.

Lemma update_live : live c' i.
Proof.
  pose proof (li_live _ I i Hi) as L. destruct (bf_frame _ _ _ _ _ _ _ _ B) as [S O R D].
  split; rewrite ?R; try done.
  - by apply S, L.
  - rewrite (sl_route _ _ Same). apply D, L.
  - rewrite (sl_admitted _ _ Same). apply L.
  - rewrite (sl_released _ _ Same). apply L.
  - rewrite (sl_queued _ _ Same). apply L.
Qed.

Lemma lease_update_step : ledger_step c c' i.
Proof.
  pose proof update_touches as T. pose proof (bf_active _ _ _ _ _ _ _ _ B) as HA.
  pose proof (bf_claims _ _ _ _ _ _ _ _ B) as HC. split.
  - done.
  - intros _. apply update_live.
  - intros _ _. by rewrite HA.
  - rewrite update_change. cbn. apply (bf_usage _ _ _ _ _ _ _ _ B).
  - intros n Hn. destruct (bf_routes _ _ _ _ _ _ _ _ B n Hn) as (->&->&->).
    rewrite update_change, <- !Z.add_sub_assoc, !update_part. unfold scoped.
    rewrite (sl_route _ _ Same). cbn [in_scope].
    rewrite (bool_decide_ext (r_route r = n) (n = r_route r)) by done.
    destruct (bool_decide _); [split; [done|lia]|]. split; [done|lia].
  - intros d. rewrite Dio, <- !Z.add_sub_assoc, update_part. done.
  - intros d. rewrite Dgpu, <- !Z.add_sub_assoc, update_part. done.
  - rewrite HC, HA. intros k claims Hk. destruct (li_claims _ I k claims Hk) as [Hne Hc].
    split; [done|]. intros j v Hj. destruct (Hc j v Hj) as (Ha&Hck&Hv).
    pose proof (update_request j Ha) as S. by rewrite (same_claim_key _ _ S), (sl_resident _ _ S).
  - intros j k. rewrite HA. unfold claims_of. rewrite HC. intros Ha.
    pose proof (update_request j Ha) as S. rewrite (same_claim_key _ _ S), (sl_resident _ _ S).
    by apply (li_claimed _ I).
  - unfold queue. rewrite (bf_queues _ _ _ _ _ _ _ _ B). intros n j Hj.
    eapply waiting_other; [exact T| |by apply (li_queued _ I)].
    intros ->. by apply (live_inactive_queue c i n I Hi).
  - intros n. unfold queue. rewrite (bf_queues _ _ _ _ _ _ _ _ B). apply (li_queue_nodup _ I).
Qed.
End lease_update.

(** ** The transitions of a live lease *)

Lemma leased c i : ledger_inv c →
  r_admitted (request c i) && negb (r_released (request c i)) = true ↔ i ∈ c_active c.
Proof.
  intros I. rewrite andb_true_iff, negb_true_iff. split.
  - intros [Ha Hr]. by apply (li_complete _ I).
  - intros Hi. pose proof (li_live _ I i Hi) as L. split; apply L.
Qed.

Definition idle_execution (r : Request) : Request :=
  upd r_execution_active (λ _, false)
    (upd r_io (λ _, 0) (upd r_native (λ _, 0) (upd r_cpu (λ _, 0) r))).

Lemma idle_execution_share r :
  r_execution_active r = true →
  share (idle_execution r) = usage_add (share r) (usage_neg (execution_demand r)).
Proof. intros H. unfold share, own_resident. rewrite H. destruct r; cbn. usage. Qed.

(** Releasing the execution of a live lease succeeds; what remains charged is
    the lease without CPU, native and I/O slots. *)
Lemma release_execution_step c i :
  ledger_inv c → i ∈ c_active c →
  ∃ c', release_execution i c = (c', Ok tt) ∧
    (c' = c ∧ r_execution_active (request c i) = false ∨
     request c' i = idle_execution (request c i) ∧ ledger_step c c' i).
Proof.
  intros I Hi. pose proof (li_live _ I i Hi) as L. pose proof (live_stored _ _ L) as S.
  unfold release_execution. rewrite get_bind, (proj2 (leased c i I) Hi). cbn [andb].
  destruct (r_execution_active (request c i)) eqn:He; unfold when at 1; [|by eexists; split; [|left]].
  rewrite !modify_bind. set (r := request c i) in *.
  set (d := upd u_execution (λ _, 0) (execution_demand r)).
  pose proof (usage_block c i (r_route r) d) as B1. set (c1 := on_metrics _ _ _) in B1 at 1 |- *.
  change (on_metrics _ _ _) with c1.
  destruct (release_io_block c1 i r) as (c2&Hio&B2&G2&D2); [exact (io_key c i I Hi)|].
  rewrite stm_bind_eq, Hio, !modify_bind.
  assert (is_Some (c_requests c2 !! i)) as S2
    by (apply (f_stored _ _ _ _ (bf_frame _ _ _ _ _ _ _ _ B2)),
          (f_stored _ _ _ _ (bf_frame _ _ _ _ _ _ _ _ B1)), S).
  pose proof (block_on_request c2 i idle_execution (r_route r) S2) as B3.
  set (c3 := on_request i idle_execution c2) in *.
  pose proof (usage_block c3 i (r_route r) one_execution) as B4.
  assert (request c2 i = r) as R2 by (etrans; [apply B2|apply B1]).
  rewrite R2 in B3. assert (request c3 i = idle_execution r) as R3 by apply B3. rewrite R3 in B4.
  set (c4 := on_metrics _ _ _) in B4.
  exists c4. split; [done|]. right. split; [apply B4|].
  pose proof (block_trans _ _ _ _ _ _ _ _ _ _ _ _ _ (block_trans _ _ _ _ _ _ _ _ _ _ _ _ _
    (block_trans _ _ _ _ _ _ _ _ _ _ _ _ _ B1 B2) B3) B4) as B.
  eapply lease_update_step; [done|done|exact B| | | | | | | |].
  - by split.
  - pose proof (live_wf _ _ L) as []. by split.
  - by destruct r.
  - rewrite idle_execution_share by done. fold r. generalize (share r). intros u.
    subst d. unfold execution_demand. usage.
  - change (0 = r_io r + (0 + - r_io r + 0 + 0)). lia.
  - change (r_gpu r = r_gpu r + (0 + 0 + 0 + 0)). lia.
  - intros dev. change (c_io_in_use c4) with (c_io_in_use c2). rewrite D2.
    assert (on_io dev (idle_execution r) = 0) as -> by (unfold on_io; by destruct (bool_decide _)).
    change (c_io_in_use c1) with (c_io_in_use c). fold r. lia.
  - intros dev. change (c_gpu_in_use c4) with (c_gpu_in_use c2). rewrite G2.
    change (on_gpu dev (idle_execution r)) with (on_gpu dev r).
    change (c_gpu_in_use c1) with (c_gpu_in_use c). fold r. lia.
Qed.

(** States that agree on what the invariant reads. *)
Record agrees (c1 c2 : Coordinator) : Prop := {
  ag_requests : c_requests c2 = c_requests c1;
  ag_metrics : c_metrics c2 = c_metrics c1;
  ag_active : c_active c2 = c_active c1;
  ag_queues : c_queues c2 = c_queues c1;
  ag_claims : c_claims c2 = c_claims c1;
  ag_usage : c_usage c2 = c_usage c1;
}.

Lemma block_agrees c c1 c2 i r' n0 du a b :
  agrees c1 c2 → block_facts c c1 i r' n0 du a b → block_facts c c2 i r' n0 du a b.
Proof.
  intros [R M A Q C U] [[S O R' D] A1 Q1 C1 U1 M1]. unfold request, route_metrics in *.
  split; [split|..]; unfold request, route_metrics; rewrite ?R, ?M, ?A, ?Q, ?C, ?U; done.
Qed.

Definition shrink_by (released amount : Z) (r : Request) : Request :=
  upd r_memory (λ m, m - released) (upd r_transient (λ _, amount) r).

Definition shrunk (amount : Z) (r : Request) : Request :=
  shrink_by (r_transient r - amount) amount r.

Definition transient_given_back (amount : Z) (r : Request) : Usage :=
  let released := r_transient r - amount in
  upd u_transient (λ _, released) (upd u_reserved (λ _, released) no_usage).

Lemma shrunk_share amount r :
  share (shrunk amount r) = usage_add (share r) (usage_neg (transient_given_back amount r)).
Proof. unfold share, own_resident, transient_given_back. destruct r; cbn. usage. Qed.

(** Shrinking a live lease's transient memory either refuses and changes
    nothing, or gives back exactly the difference. *)
Lemma shrink_step c c' i amount res :
  ledger_inv c → shrink_transient_bytes i amount c = (c', res) →
  c' = c ∧ res ≠ Ok tt ∨
  res = Ok tt ∧ i ∈ c_active c ∧ 0 <= amount <= r_transient (request c i) ∧
    request c' i = shrunk amount (request c i) ∧ ledger_step c c' i.
Proof.
  intros I. unfold shrink_transient_bytes. rewrite get_bind, !throw_if_bind.
  set (r := request c i). destruct (negb (r_admitted r) || r_released r) eqn:Hl.
  { by intros [= <- <-]; left. }
  assert (i ∈ c_active c) as Hi.
  { apply (leased c i I). fold r. apply orb_false_iff in Hl as [Ha ->].
    apply negb_false_iff in Ha. by rewrite Ha. }
  destruct ((amount <? 0) || (r_transient r <? amount)) eqn:Hb; [by intros [= <- <-]; left|].
  apply orb_false_iff in Hb as [H1 H2]. bool_prop.
  rewrite !modify_bind. intros [Hc' ->]%modify_ok. right.
  pose proof (li_live _ I i Hi) as L.
  pose proof (block_on_request c i (shrink_by (r_transient r - amount) amount) (r_route r)
    (live_stored _ _ L)) as B1.
  set (c1 := on_request i (shrink_by _ _) c) in B1.
  assert (request c1 i = shrunk amount r) as R1 by apply B1.
  pose proof (usage_block c1 i (r_route r) (transient_given_back amount r)) as B2.
  rewrite R1 in B2. set (c2 := on_metrics _ _ _) in B2.
  pose proof (block_trans _ _ _ _ _ _ _ _ _ _ _ _ _ B1 B2) as B.
  apply (block_agrees _ _ (note_materialized_credit c2)) in B; [|done].
  assert (c' = note_materialized_credit c2) as -> by exact Hc'.
  split; [done|]. split; [done|]. split; [lia|]. split; [apply B|].
  eapply lease_update_step; [done|done|exact B| | | | | | | |].
  - by split.
  - pose proof (live_wf _ _ L) as []. by split.
  - apply L.
  - fold r. rewrite shrunk_share. generalize (share r). intros u. usage.
  - change (r_io r = r_io r + (0 + 0)). lia.
  - change (r_gpu r = r_gpu r + (0 + 0)). lia.
  - intros d. change (on_io d (shrunk amount r)) with (on_io d r).
    change (c_io_in_use (note_materialized_credit c2)) with (c_io_in_use c). fold r. lia.
  - intros d. change (on_gpu d (shrunk amount r)) with (on_gpu d r).
    change (c_gpu_in_use (note_materialized_credit c2)) with (c_gpu_in_use c). fold r. lia.
Qed.

(** Registering a process with a lease. *)
Lemma register_process_step c c' i p res :
  ledger_inv c → register_process i p c = (c', res) →
  c' = c ∧ res ≠ Ok tt ∨ res = Ok tt ∧ i ∈ c_active c ∧ ledger_step c c' i.
Proof.
  intros I. unfold register_process. rewrite get_bind, throw_if_bind.
  destruct (negb (r_admitted (request c i)) || r_released (request c i)) eqn:Hl.
  { by intros [= <- <-]; left. }
  assert (i ∈ c_active c) as Hi.
  { apply (leased c i I). apply orb_false_iff in Hl as [Ha ->].
    apply negb_false_iff in Ha. by rewrite Ha. }
  intros [-> ->]%modify_ok. right. split; [done|]. split; [done|].
  pose proof (li_live _ I i Hi) as L.
  pose proof (block_on_request c i (upd r_processes (union {[p]})) (r_route (request c i))
    (live_stored _ _ L)) as B.
  set (c1 := on_request i _ c) in *.
  eapply lease_update_step; [done|done|exact B| | | | | | | |].
  - by split.
  - pose proof (live_wf _ _ L) as []. by split.
  - apply L.
  - by rewrite usage_add_zero.
  - symmetry. apply Z.add_0_r.
  - symmetry. apply Z.add_0_r.
  - intros d. change (on_io d (upd r_processes _ (request c i))) with (on_io d (request c i)).
    change (c_io_in_use c1) with (c_io_in_use c). lia.
  - intros d. change (on_gpu d (upd r_processes _ (request c i))) with (on_gpu d (request c i)).
    change (c_gpu_in_use c1) with (c_gpu_in_use c). lia.
Qed.

(** ** Resizing the temporary bytes of a lease *)

Lemma observe_temp_file_state i e c : ∃ r, observe_temp_file i e c = (c, r).
Proof.
  unfold observe_temp_file. rewrite get_bind. destruct (te_file e) as [f|]; [|by eexists].
  rewrite !throw_if_bind. repeat case_match; by eexists.
Qed.

Definition resized (amount materialized : Z) (identity : option (Z * Z)) (r : Request) : Request :=
  upd r_temp (λ _, amount)
    (upd r_temp_file (λ _, if amount =? 0 then None else identity)
       (upd r_temp_materialized (λ _, Z.min amount materialized) r)).

(** The checks of a growing resize and the recomputed budget. *)
Definition check_growth (c0 : Coordinator) (i : rid) (amount materialized : Z) (e : temp_env)
  : M unit :=
  let delta := amount - r_temp (request c0 i) in
  when (0 <? delta) (
    throw_if (match l_temp_budget (c_limits c0) with
              | Some b => b <? u_temp (c_usage c0) + delta
              | None => false
              end) TempBudgetExceeded;;
    throw_if (te_free e <? Z.max 0 (amount - materialized) + pending_temp (others c0 i))
      InsufficientDisk;;
    when (negb (bool_decide (is_Some (l_temp_budget (c_limits c0)))))
      (modify (upd c_temp_budget (λ _,
         sum_with r_temp_materialized (others c0 i) + materialized + te_free e)))).

Definition set_temp (i : rid) (amount materialized : Z) (identity : option (Z * Z))
    (future delta : Z) (n : pystr) (c : Coordinator) : Coordinator :=
  on_metrics n (λ m,
    let m1 := upd m_usage (upd u_temp (Z.add delta)) m in
    upd m_peaks (upd p_temp (λ p, Z.max p (u_temp (m_usage m1)))) m1)
    (upd c_peaks (upd p_temp (λ p, Z.max p future))
      (upd c_usage (upd u_temp (λ _, future))
         (on_request i (resized amount materialized identity) c))).

Lemma resize_eq i amount e c : 
  resize_temp_bytes i amount e c =
  if amount <? 0 then (c, Err NegativeSize)
  else if negb (r_admitted (request c i)) || r_released (request c i) then (c, Err LeaseReleased)
  else match (observe_temp_file i e c).2 with
       | Err x => (c, Err x)
       | Ok (materialized, identity) =>
           let delta := amount - r_temp (request c i) in
           match check_growth c i amount materialized e c with
           | (c1, Err x) => (c1, Err x)
           | (c1, Ok _) => (set_temp i amount materialized identity (u_temp (c_usage c) + delta)
                              delta (r_route (request c i)) c1, Ok tt)
           end
       end.
Proof.
  unfold resize_temp_bytes. rewrite throw_if_bind. destruct (amount <? 0); [done|].
  rewrite get_bind, throw_if_bind. destruct (negb _ || _); [done|].
  destruct (observe_temp_file_state i e c) as [r Hr]. rewrite stm_bind_eq, Hr.
  cbn [snd]. destruct r as [[materialized identity]|x]; [|done].
  rewrite stm_bind_eq. fold (check_growth c i amount materialized e).
  destruct (check_growth c i amount materialized e c) as [c1 [[]|x]]; [|done].
  by rewrite !modify_bind.
Qed.

Lemma check_growth_state c i amount materialized e c1 res :
  check_growth c i amount materialized e c = (c1, res) →
  (res ≠ Ok tt → c1 = c) ∧ ∃ b, c1 = upd c_temp_budget (λ _, b) c.
Proof.
  assert (c = upd c_temp_budget (λ _, c_temp_budget c) c) as Hid by (by destruct c).
  unfold check_growth. cbv zeta. destruct (0 <? _); cbn [when]; [|by intros [= <- <-]; eauto].
  rewrite !throw_if_bind. destruct (match l_temp_budget _ with Some _ => _ | None => _ end);
    [by intros [= <- <-]; eauto|].
  destruct (te_free e <? _); [by intros [= <- <-]; eauto|].
  destruct (bool_decide _); cbn [negb when]; intros [= <- <-]; (split; [done|eauto]).
Qed.

Definition temp_change (delta : Z) : Usage := upd u_temp (λ _, delta) no_usage.

Lemma resized_share amount materialized identity r :
  share (resized amount materialized identity r) =
  usage_add (share r) (temp_change (amount - r_temp r)).
Proof. unfold share, own_resident. destruct r; cbn. usage. Qed.

Lemma set_temp_block c i amount materialized identity :
  is_Some (c_requests c !! i) →
  let delta := amount - r_temp (request c i) in
  let c' := set_temp i amount materialized identity (u_temp (c_usage c) + delta) delta
              (r_route (request c i)) c in
  block_facts c c' i (resized amount materialized identity (request c i))
    (r_route (request c i)) (temp_change delta) 0 0.
Proof.
  intros Hi delta c'.
  pose proof (block_on_request c i (resized amount materialized identity) (r_route (request c i)) Hi)
    as B1. set (c1 := on_request i _ c) in B1.
  assert (request c1 i = resized amount materialized identity (request c i)) as R1 by apply B1.
  set (c2 := upd c_peaks (upd p_temp (λ p, Z.max p (u_temp (c_usage c) + delta)))
      (upd c_usage (upd u_temp (λ _, u_temp (c_usage c) + delta)) c1)).
  assert (block_facts c1 c' i (request c1 i) (r_route (request c i)) (temp_change delta) 0 0) as B2.
  { apply (block_metrics c1 c2 i (r_route (request c i))); try done; [unfold temp_change; usage|].
    intros m. split; [unfold temp_change; usage|]. cbn. lia. }
  rewrite R1 in B2.
  pose proof (block_trans _ _ _ _ _ _ _ _ _ _ _ _ _ B1 B2) as [F A Q C U R].
  split; [exact F|exact A|exact Q|exact C| |].
  - rewrite U. unfold temp_change. usage.
  - intros n Hn. destruct (R n Hn) as (->&->&->). destruct (bool_decide _); [|done].
    split; [unfold temp_change; usage|done].
Qed.

Lemma resize_step c c' i amount e res :
  ledger_inv c → resize_temp_bytes i amount e c = (c', res) →
  c' = c ∧ res ≠ Ok tt ∨
  res = Ok tt ∧ i ∈ c_active c ∧ r_temp (request c' i) = amount ∧ ledger_step c c' i.
Proof.
  intros I. rewrite resize_eq. destruct (amount <? 0) eqn:H0; [by intros [= <- <-]; left|].
  destruct (negb (r_admitted (request c i)) || r_released (request c i)) eqn:Hl.
  { by intros [= <- <-]; left. }
  assert (i ∈ c_active c) as Hi.
  { apply (leased c i I). apply orb_false_iff in Hl as [Ha ->].
    apply negb_false_iff in Ha. by rewrite Ha. }
  destruct (observe_temp_file i e c).2 as [[materialized identity]|x];
    [|by intros [= <- <-]; left].
  cbv zeta. destruct (check_growth c i amount materialized e c) as [c1 [[]|x]] eqn:Hc;
    apply check_growth_state in Hc as [Hsame [b ->]].
  2: { intros [= <- <-]. left. split; [by apply Hsame|done]. }
  intros [Hc' <-]%pair_equal_spec. right. split; [done|]. split; [done|]. bool_prop.
  pose proof (li_live _ I i Hi) as L.
  pose proof (set_temp_block (upd c_temp_budget (λ _, b) c) i amount materialized identity
    (live_stored _ _ L)) as B.
  assert (block_facts c c' i (resized amount materialized identity (request c i))
    (r_route (request c i)) (temp_change (amount - r_temp (request c i))) 0 0) as B'.
  { rewrite <- Hc'. destruct B as [[S O R D] A Q C U M]. by split. }
  split; [by rewrite (f_request _ _ _ _ (bf_frame _ _ _ _ _ _ _ _ B'))|].
  assert (c_io_in_use c' = c_io_in_use c ∧ c_gpu_in_use c' = c_gpu_in_use c) as [EI EG]
    by (rewrite <- Hc'; done).
  eapply lease_update_step; [done|done|exact B'| | | | | | | |].
  - by split.
  - pose proof (live_wf _ _ L) as []. by split.
  - apply L.
  - apply resized_share.
  - symmetry. apply Z.add_0_r.
  - symmetry. apply Z.add_0_r.
  - intros d. change (on_io d (resized _ _ _ _)) with (on_io d (request c i)). rewrite EI. lia.
  - intros d. change (on_gpu d (resized _ _ _ _)) with (on_gpu d (request c i)). rewrite EG. lia.
Qed.
