(* ===== verification/ReleaseInvariant.v ===== *)
(** * Releasing a lease, and the lease's life outside the active set

    Releasing a live lease never fails and is one step of the ledger invariant;
    releasing anything else changes nothing.  Joining and leaving a queue and
    registering a route move no counter. *)

From S2P Require Import Prelude IoIdentity ResourceModel ResourceLedger LedgerInvariant.
From S2P Require Import GrantInvariant LeaseInvariant.

(** ** Dropping the residency claim *)

Definition dropped_claims (c : Coordinator) (i : rid) : gmap (pystr * pystr) (gmap rid Z) :=
  match claim_key (request c i) with
  | Some k => let rest := delete i (claims_of c k) in
              if decide (rest = ∅) then delete k (c_claims c) else <[k := rest]> (c_claims c)
  | None => c_claims c
  end.

Definition resident_released (c : Coordinator) (i : rid) : Z :=
  match claim_key (request c i) with
  | Some k => claims_max (claims_of c k) - claims_max (delete i (claims_of c k))
  | None => r_resident_charge (request c i)
  end.

Section drop.
Variables (c : Coordinator) (i : rid).
Hypothesis I : ledger_inv c.
Hypothesis Hi : i ∈ c_active c.

Lemma drop_claim_eq :
  drop_claim i c = (upd c_claims (λ _, dropped_claims c i) c, resident_released c i).
Proof.
  unfold drop_claim, dropped_claims, resident_released.
  destruct (claim_key (request c i)) as [k|] eqn:Hk; [|by destruct c].
  pose proof (li_claimed _ I i k Hi Hk) as Hc. apply claims_of_lookup in Hc as (m&Hm&Hc).
  pose proof (claims_nonneg c I k) as Hn. unfold claims_of in *. rewrite Hm in *. cbn in *.
  pose proof (claims_max_delete m i Hn). rewrite Z.max_r by lia.
  by destruct (decide (delete i m = ∅)).
Qed.

Lemma resident_released_nonneg : 0 <= resident_released c i.
Proof.
  unfold resident_released. destruct (claim_key (request c i)) as [k|].
  - pose proof (claims_max_delete (claims_of c k) i (claims_nonneg c I k)). lia.
  - apply (live_wf _ _ (li_live _ I i Hi)).
Qed.

Lemma dropped_shared s :
  shared_resident s (dropped_claims c i) =
  shared_resident s (c_claims c) -
    match r_resident_key (request c i) with
    | Some _ => if in_scope s (r_route (request c i)) then resident_released c i else 0
    | None => 0
    end.
Proof.
  unfold dropped_claims, resident_released.
  destruct (claim_key (request c i)) as [k|] eqn:Hk.
  - assert (is_Some (r_resident_key (request c i)) ∧ k.1 = r_route (request c i)) as [[x Hx] Hr].
    { unfold claim_key in Hk. destruct (r_resident_key _) as [x|]; [|done]. by injection Hk as <-. }
    rewrite Hx, <- Hr.
    destruct (decide (delete i (claims_of c k) = ∅)) as [He|He].
    + rewrite He. unfold shared_resident. rewrite map_sum_delete. unfold claims_of.
      destruct (c_claims c !! k); cbn; destruct (in_scope s k.1); rewrite ?claims_max_empty; lia.
    + rewrite shared_insert. destruct (in_scope s k.1); lia.
  - unfold claim_key in Hk. destruct (r_resident_key (request c i)); [done|lia].
Qed.

Lemma dropped_lookup k m :
  dropped_claims c i !! k = Some m → m ≠ ∅ ∧ ∀ j v, m !! j = Some v →
    j ≠ i ∧ claims_of c k !! j = Some v.
Proof.
  assert (∀ k m, c_claims c !! k = Some m → claim_key (request c i) ≠ Some k → m ≠ ∅ ∧
    ∀ j v, m !! j = Some v → j ≠ i ∧ claims_of c k !! j = Some v) as Hold.
  { intros k' m' Hm Hne. destruct (li_claims _ I k' m' Hm) as [H0 H1]. split; [done|].
    intros j v Hj. split; [intros ->; by apply H1 in Hj as (_&?&_)|].
    unfold claims_of. by rewrite Hm. }
  unfold dropped_claims. destruct (claim_key (request c i)) as [k0|] eqn:Hk0;
    [|intros Hm; by apply Hold].
  destruct (decide (delete i (claims_of c k0) = ∅)) as [He|He].
  - intros [Hne Hm]%lookup_delete_Some. apply Hold; [done|congruence].
  - destruct (decide (k = k0)) as [->|Hne].
    + rewrite lookup_insert_eq. intros [= <-]. split; [done|].
      by intros j v [? Hj]%lookup_delete_Some.
    + rewrite lookup_insert_ne by done. intros Hm. apply Hold; [done|congruence].
Qed.

Lemma dropped_others k j :
  j ≠ i → default ∅ (dropped_claims c i !! k) !! j = claims_of c k !! j.
Proof.
  intros Hj. unfold dropped_claims. destruct (claim_key (request c i)) as [k0|]; [|done].
  destruct (decide (delete i (claims_of c k0) = ∅)) as [He|He];
    (destruct (decide (k = k0)) as [->|Hne]; [|by rewrite ?lookup_delete_ne, ?lookup_insert_ne]).
  - rewrite lookup_delete_eq. cbn. rewrite lookup_empty.
    apply (f_equal (.!! j)) in He. by rewrite lookup_delete_ne, lookup_empty in He.
  - rewrite lookup_insert_eq. cbn. by rewrite lookup_delete_ne.
Qed.
End drop.

(** ** The release *)

Definition released (r : Request) : Request :=
  upd r_released (λ _, true) (upd r_admitted (λ _, false) (upd r_execution_active (λ _, false) r)).

(** Everything the ledger shows after the release of a live lease. *)
Record release_facts (c c' : Coordinator) (i : rid) : Prop := {
  rf_frame : frame c c' i (released (request c i));
  rf_active : c_active c' = filter (λ j, j ≠ i) (c_active c);
  rf_queues : c_queues c' = c_queues c;
  rf_claims : c_claims c' = dropped_claims c i;
  rf_usage : c_usage c' = usage_sub (c_usage c)
                            (released_demand (request c i) (resident_released c i));
  rf_routes : ∀ n, is_Some (c_metrics c !! n) →
    let here := bool_decide (n = r_route (request c i)) in
    m_usage (route_metrics c' n) = usage_sub (m_usage (route_metrics c n))
      (if here then released_demand (request c i) (resident_released c i) else no_usage) ∧
    m_io (route_metrics c' n) =
      m_io (route_metrics c n) - (if here then r_io (request c i) else 0) ∧
    m_gpu (route_metrics c' n) =
      m_gpu (route_metrics c n) - (if here then r_gpu (request c i) else 0);
  rf_io : ∀ d, default 0 (c_io_in_use c' !! d) =
    default 0 (c_io_in_use c !! d) - on_io d (request c i);
  rf_gpu : ∀ d, default 0 (c_gpu_in_use c' !! d) =
    default 0 (c_gpu_in_use c !! d) - on_gpu d (request c i);
}.

(** The body of the release on a ledger that holds what the lease uses. *)
Lemma release_body_block c i res :
  let r := request c i in
  is_Some (c_requests c !! i) →
  (r_io r ≠ 0 → is_Some (c_io_in_use c !! device_or_default (r_io_device r))) →
  (r_gpu r ≠ 0 → is_Some (c_gpu_in_use c !! device_or_default (r_gpu_device r))) →
  ∃ c', release_body i res c = (c', Ok tt) ∧
    block_facts c c' i (upd r_execution_active (λ _, false) r) (r_route r)
      (usage_neg (released_demand r res)) (- r_io r) (- r_gpu r) ∧
    (∀ d, default 0 (c_io_in_use c' !! d) = default 0 (c_io_in_use c !! d) - on_io d r) ∧
    (∀ d, default 0 (c_gpu_in_use c' !! d) = default 0 (c_gpu_in_use c !! d) - on_gpu d r).
Proof.
  intros r S Hio Hgpu. unfold release_body. rewrite get_bind, !modify_bind. fold r.
  pose proof (usage_block c i (r_route r) (released_demand r res)) as B1.
  set (c1 := on_metrics _ _ _) in *.
  pose proof (block_on_request c1 i (upd r_execution_active (λ _, false)) (r_route r) S) as B2.
  assert (request c1 i = r) as R1 by apply B1. rewrite R1 in B2.
  set (c2 := on_request i _ c1) in *.
  destruct (release_io_block c2 i r) as (c3&E3&B3&G3&D3); [exact Hio|].
  rewrite stm_bind_eq, E3.
  destruct (release_gpu_block c3 i r) as (c4&E4&B4&G4&D4).
  { rewrite G3. exact Hgpu. }
  exists c4. split; [exact E4|].
  assert (request c2 i = upd r_execution_active (λ _, false) r) as R2 by apply B2.
  assert (request c3 i = upd r_execution_active (λ _, false) r) as R3
    by (etrans; [apply B3|exact R2]).
  rewrite R3 in B4.
  pose proof (block_trans _ _ _ _ _ _ _ _ _ _ _ _ _ (block_trans _ _ _ _ _ _ _ _ _ _ _ _ _
    (block_trans _ _ _ _ _ _ _ _ _ _ _ _ _ B1 B2) B3) B4) as [F A Q C U R].
  split; [|split].
  - split; [exact F|exact A|exact Q|exact C| |].
    + rewrite U. usage.
    + intros n Hn. destruct (R n Hn) as (->&->&->). destruct (bool_decide _).
      * split; [usage|lia].
      * split; [done|lia].
  - intros d. rewrite G4. apply D3.
  - intros d. rewrite D4, G3. done.
Qed.

Lemma release_success c i :
  ledger_inv c → i ∈ c_active c →
  ∃ c', release_admission i c = (c', Ok tt) ∧ release_facts c c' i.
Proof.
  intros I Hi. pose proof (live_stored _ _ (li_live _ I i Hi)) as S.
  unfold release_admission. rewrite get_bind, (proj2 (leased c i I) Hi). cbn [when].
  rewrite drop_claim_eq by done. set (c1 := upd c_claims _ c).
  destruct (release_body_block c1 i (resident_released c i) S (io_key c i I Hi) (gpu_key c i I Hi))
    as (c2&E&B&D&G).
  unfold on_error. rewrite stm_bind_eq, put_bind, E, !modify_bind.
  eexists. split; [reflexivity|].
  change (request c1 i) with (request c i) in *. destruct B as [F A Q C U R].
  assert (is_Some (c_requests c2 !! i)) as S2 by (by apply (f_stored _ _ _ _ F)).
  pose proof (frame_on_request c2 i (λ r, upd r_released (λ _, true) (upd r_admitted (λ _, false) r))
    S2) as F2. rewrite (f_request _ _ _ _ F) in F2.
  split.
  - destruct (frame_trans _ _ _ _ _ _ F F2) as [F3 F4 F5 F6].
    split; [exact F3|exact F4|exact F5|exact F6].
  - change (filter (λ j, j ≠ i) (c_active c2) = filter (λ j, j ≠ i) (c_active c)).
    rewrite A. done.
  - exact Q.
  - exact C.
  - etrans; [exact U|]. apply usage_add_neg.
  - intros n Hn. destruct (R n Hn) as (HU&HI&HG). cbv zeta in *.
    split; [etrans; [exact HU|]|split; [etrans; [exact HI|]|etrans; [exact HG|]]];
      destruct (bool_decide _); cbn -[Z.add Z.sub]; try lia.
    + apply usage_add_neg.
    + by rewrite usage_add_zero, usage_sub_zero.
    + change (m_io (route_metrics c1 n)) with (m_io (route_metrics c n)). lia.
    + change (m_io (route_metrics c1 n)) with (m_io (route_metrics c n)). lia.
    + change (m_gpu (route_metrics c1 n)) with (m_gpu (route_metrics c n)). lia.
    + change (m_gpu (route_metrics c1 n)) with (m_gpu (route_metrics c n)). lia.
  - exact D.
  - exact G.
Qed.

Section release_step.
Variables (c c' : Coordinator) (i : rid).
Hypothesis I : ledger_inv c.
Hypothesis Hi : i ∈ c_active c.
Hypothesis G : release_facts c c' i.

Lemma released_touches : touches c c' i.
Proof.
  eapply touches_of_frame; [apply G| |]; rewrite (rf_active _ _ _ G).
  - apply NoDup_filter, (li_nodup _ I).
  - intros j Hj. rewrite list_elem_of_filter. naive_solver.
Qed.

Lemma released_inactive : i ∉ c_active c'.
Proof. rewrite (rf_active _ _ _ G), list_elem_of_filter. naive_solver. Qed.

Lemma released_share r z :
  own_resident r + z = resident_released c i →
  released_demand r (resident_released c i) = usage_add (share r) (resident_usage z).
Proof. intros <-. unfold share. generalize (own_resident r). intros o. unfold released_demand. usage. Qed.

Lemma released_change s :
  usage_change s c c' i =
    if in_scope s (r_route (request c i))
    then usage_neg (released_demand (request c i) (resident_released c i)) else no_usage.
Proof.
  unfold usage_change, part_usage. rewrite (decide_False _ _ released_inactive).
  rewrite (decide_True _ _ Hi), (rf_claims _ _ _ G), dropped_shared. unfold scoped_share.
  destruct (in_scope s (r_route (request c i))) eqn:Hs.
  - set (z := match r_resident_key (request c i) with Some _ => resident_released c i | None => 0 end).
    rewrite (released_share (request c i) z).
    + subst z. generalize (share (request c i)). intros u.
      destruct (r_resident_key (request c i)); usage.
    + subst z. unfold own_resident, resident_released, claim_key.
      destruct (r_resident_key (request c i)); cbn; lia.
  - destruct (r_resident_key (request c i)); usage.
Qed.

Lemma released_part f : part f c' i - part f c i = - f (request c i).
Proof.
  unfold part. rewrite (decide_False _ _ released_inactive), (decide_True _ _ Hi). lia.
Qed.

Lemma release_ledger_step : ledger_step c c' i.
Proof.
  pose proof released_touches as T. pose proof (rf_frame _ _ _ G) as [_ _ R _].
  assert (∀ j, j ∈ c_active c' → j ≠ i ∧ j ∈ c_active c) as Hother.
  { intros j. rewrite (rf_active _ _ _ G), list_elem_of_filter. done. }
  split.
  - done.
  - intros Ha. by apply released_inactive in Ha.
  - by rewrite R.
  - rewrite released_change. cbn [in_scope]. rewrite usage_add_neg. apply G.
  - intros n Hn. destruct (rf_routes _ _ _ G n Hn) as (->&->&->).
    rewrite released_change, <- !Z.add_sub_assoc, !released_part. unfold scoped. cbn [in_scope].
    rewrite (bool_decide_ext (r_route (request c i) = n) (n = r_route (request c i))) by done.
    destruct (bool_decide _); [|rewrite usage_sub_zero, usage_add_zero; split; [done|lia]].
    rewrite usage_add_neg. split; [done|lia].
  - intros d. rewrite (rf_io _ _ _ G), <- Z.add_sub_assoc, released_part. lia.
  - intros d. rewrite (rf_gpu _ _ _ G), <- Z.add_sub_assoc, released_part. lia.
  - rewrite (rf_claims _ _ _ G). intros k m Hm.
    destruct (dropped_lookup c i I k m Hm) as [Hne Hin]. split; [done|].
    intros j v Hj. destruct (Hin j v Hj) as [Hji Hc].
    apply claims_of_lookup in Hc as (m0&Hm0&Hv).
    destruct (proj2 (li_claims _ I k m0 Hm0) j v Hv) as (Ha&Hk&Hr).
    rewrite (touches_request c c' i j T Hji). split; [|done]. by apply (t_active _ _ _ T).
  - intros j k Ha Hk. destruct (Hother j Ha) as [Hji Hja].
    rewrite (touches_request c c' i j T Hji) in *. unfold claims_of. rewrite (rf_claims _ _ _ G).
    rewrite dropped_others by done. by apply (li_claimed _ I).
  - intros n j. unfold queue. rewrite (rf_queues _ _ _ G). intros Hj.
    eapply waiting_other; [exact T| |by apply (li_queued _ I)].
    intros ->. by apply (live_inactive_queue c i n I Hi).
  - intros n. unfold queue. rewrite (rf_queues _ _ _ G). apply (li_queue_nodup _ I).
Qed.
End release_step.

(** Releasing what is not a live lease changes nothing. *)
Lemma release_inactive c i :
  ledger_inv c → i ∉ c_active c → release_admission i c = (c, Ok tt).
Proof.
  intros I Hi. unfold release_admission. rewrite get_bind.
  destruct (r_admitted (request c i) && negb (r_released (request c i))) eqn:Hl; [|done].
  by apply (leased c i I) in Hl.
Qed.

Lemma release_keeps_ledger c c' i res :
  ledger_inv c → release_admission i c = (c', res) →
  res = Ok tt ∧ ledger_inv c' ∧ i ∉ c_active c' ∧ (i ∉ c_active c → c' = c).
Proof.
  intros I E. destruct (decide (i ∈ c_active c)) as [Hi|Hi].
  - destruct (release_success c i I Hi) as (c1&E1&G). rewrite E1 in E. injection E as <- <-.
    split; [done|]. split; [|split; [by apply (released_inactive c c1 i G)|done]].
    eapply ledger_step_inv; [exact I|by eapply release_ledger_step].
  - rewrite release_inactive in E by done. injection E as <- <-. done.
Qed.

(** ** Requests outside the active set *)

(** A change that moves no counter and touches only a request that is not
    live. *)
Record idle (c c' : Coordinator) (i : rid) : Prop := {
  id_requests : ∀ j, j ≠ i → c_requests c' !! j = c_requests c !! j;
  id_metrics : ∀ n, is_Some (c_metrics c' !! n) ↔ is_Some (c_metrics c !! n);
  id_routes : ∀ n, is_Some (c_metrics c !! n) →
    m_usage (route_metrics c' n) = m_usage (route_metrics c n) ∧
    m_io (route_metrics c' n) = m_io (route_metrics c n) ∧
    m_gpu (route_metrics c' n) = m_gpu (route_metrics c n);
  id_active : c_active c' = c_active c;
  id_claims : c_claims c' = c_claims c;
  id_usage : c_usage c' = c_usage c;
  id_io : c_io_in_use c' = c_io_in_use c;
  id_gpu : c_gpu_in_use c' = c_gpu_in_use c;
}.

Lemma idle_step c c' i :
  ledger_inv c → i ∉ c_active c → idle c c' i →
  (r_admitted (request c' i) = true → r_released (request c' i) = true) →
  (∀ n j, j ∈ queue c' n → j ≠ i ∧ j ∈ queue c n ∨ j = i ∧ waiting c' n i) →
  (∀ n, NoDup (queue c' n)) →
  ledger_step c c' i.
Proof.
  intros I Hi [O M R A C U IO GP] Had Hq Hnd.
  assert (touches c c' i) as T by (split; [rewrite A; apply (li_nodup _ I)|by rewrite A|done|done]).
  assert (∀ f, part f c' i = 0 ∧ part f c i = 0) as Hp.
  { intros f. unfold part. rewrite A, !(decide_False _ _ Hi). done. }
  assert (∀ s, usage_change s c c' i = no_usage) as Hu.
  { intros s. unfold usage_change, part_usage. rewrite A, C, !(decide_False _ _ Hi), Z.sub_diag.
    usage. }
  assert (∀ j, j ∈ c_active c → j ≠ i) as Hji by (intros j Hj ->; done).
  split.
  - done.
  - by rewrite A.
  - intros Ha Hr. rewrite (Had Ha) in Hr. done.
  - by rewrite Hu, usage_add_zero, U.
  - intros n Hn. destruct (R n Hn) as (->&->&->).
    rewrite Hu, usage_add_zero, !(proj1 (Hp _)), !(proj2 (Hp _)). split; [done|lia].
  - intros d. destruct (Hp (on_io d)) as [-> ->]. rewrite IO. lia.
  - intros d. destruct (Hp (on_gpu d)) as [-> ->]. rewrite GP. lia.
  - rewrite A, C. intros k claims Hk. destruct (li_claims _ I k claims Hk) as [Hne Hc].
    split; [done|]. intros j v Hj. destruct (Hc j v Hj) as (Hja&?&?).
    by rewrite (touches_request c c' i j T (Hji j Hja)).
  - unfold claims_of. rewrite A, C. intros j k Hj.
    rewrite (touches_request c c' i j T (Hji j Hj)). by apply (li_claimed _ I).
  - intros n j Hj. destruct (Hq n j Hj) as [[Hne Hin]|[-> W]]; [|done].
    eapply waiting_other; [exact T|done|]. by apply (li_queued _ I).
  - done.
Qed.

Lemma idle_refl c i : idle c c i.
Proof. by split. Qed.

Lemma idle_trans c1 c2 c3 i : idle c1 c2 i → idle c2 c3 i → idle c1 c3 i.
Proof.
  intros [O1 M1 R1 A1 C1 U1 I1 G1] [O2 M2 R2 A2 C2 U2 I2 G2]. split; try congruence.
  - intros j Hj. by rewrite O2, O1.
  - intros n. by rewrite M2, M1.
  - intros n Hn. destruct (R2 n) as (->&->&->); [by apply M1|]. by apply R1.
Qed.

Lemma waited_idle i e c : idle c (waited_state i e c) i.
Proof.
  split; try done.
  - intros j Hj. cbn. by rewrite lookup_alter_ne.
  - intros n. apply (metrics_on c).
  - intros n Hn.
    change (route_metrics (waited_state i e c) n) with
      (route_metrics (on_metrics (r_route (request c i)) (wait_metrics e) c) n).
    rewrite route_metrics_on by done. by destruct (decide _).
Qed.

Lemma remove_first_spec (i : rid) q : NoDup q → remove_first i q = filter (λ j, j ≠ i) q.
Proof.
  induction 1 as [|j q Hj Hq IH]; [done|]. cbn [remove_first]. rewrite filter_cons.
  destruct (decide (j = i)) as [->|Hne].
  - rewrite decide_False by naive_solver. by rewrite filter_ne_id.
  - rewrite decide_True by done. by rewrite IH.
Qed.

Definition off_queue (c : Coordinator) (i : rid) : Coordinator :=
  on_request i (upd r_queued (λ _, false))
    (upd c_queues (alter (remove_first i) (r_route (request c i))) c).

Lemma queue_off c i n :
  ledger_inv c → queue (off_queue c i) n =
    if decide (n = r_route (request c i)) then filter (λ j, j ≠ i) (queue c n) else queue c n.
Proof.
  intros I. unfold queue, off_queue. cbn. destruct (decide (n = _)) as [->|Hne].
  - rewrite lookup_alter_eq. pose proof (li_queue_nodup _ I (r_route (request c i))) as Hnd.
    unfold queue in Hnd. destruct (c_queues c !! _) as [q|]; cbn in *; [|done].
    by apply remove_first_spec.
  - by rewrite lookup_alter_ne.
Qed.

Lemma same_flags c (i : rid) c' g :
  c_requests c' = alter g i (c_requests c) →
  (∀ r, r_admitted (g r) = r_admitted r ∧ r_released (g r) = r_released r) →
  r_admitted (request c' i) = r_admitted (request c i) ∧
  r_released (request c' i) = r_released (request c i).
Proof.
  intros E Hg. unfold request. rewrite !lookup_total_alt, E, lookup_alter_eq.
  destruct (c_requests c !! i); cbn; [apply Hg|done].
Qed.

(** Discarding a queued request: it leaves its queue and nothing else moves. *)
Lemma discard_step c c' i k1 k2 res :
  ledger_inv c → discard_queued_request i k1 k2 c = (c', res) →
  c' = c ∨ ledger_step c c' i ∧ (∀ n, i ∉ queue c' n).
Proof.
  intros I. unfold discard_queued_request. rewrite get_bind. unfold when.
  destruct (r_queued (request c i)) eqn:Hqd; [|intros [= <- _]; by left].
  rewrite !modify_bind. intros Hw. right.
  change (record_wait i k1 k2 (off_queue c i) = (c', res)) in Hw.
  assert (i ∉ c_active c) as Hi.
  { intros Hi. pose proof (live_unqueued _ _ (li_live _ I i Hi)). congruence. }
  assert (idle c (off_queue c i) i) as D1.
  { split; try done. intros j Hj. cbn. by rewrite lookup_alter_ne. }
  assert (idle c c' i ∧ (∀ n, queue c' n = queue (off_queue c i) n) ∧
    r_admitted (request c' i) = r_admitted (request c i) ∧
    r_released (request c' i) = r_released (request c i)) as (D&Q&HA&HR).
  { pose proof (same_flags c i (off_queue c i) (upd r_queued (λ _, false)) eq_refl) as Hoff.
    apply record_wait_cases in Hw as [->|[[e ->] _]].
    - split; [exact D1|]. split; [done|]. by apply Hoff.
    - split; [eapply idle_trans; [exact D1|apply waited_idle]|]. split; [done|].
      destruct (same_flags (off_queue c i) i (waited_state i e (off_queue c i))
        (upd r_wait_accounted (λ _, true)) eq_refl) as [-> ->]; [done|]. by apply Hoff. }
  assert (∀ n, i ∉ queue c' n) as Hout.
  { intros n. rewrite Q, queue_off by done. destruct (decide _) as [->|Hne].
    - rewrite list_elem_of_filter. naive_solver.
    - intros Hin. apply (li_queued _ I), waiting_route in Hin. congruence. }
  split; [|done]. eapply idle_step; [done|done|done| | |].
  - rewrite HA, HR. intros Ha. destruct (r_released (request c i)) eqn:Hr; [done|].
    by pose proof (li_complete _ I i Ha Hr).
  - intros n j Hj. left. split; [intros ->; by apply Hout in Hj|].
    rewrite Q, queue_off in Hj by done. destruct (decide _); [|done].
    by apply list_elem_of_filter in Hj as [_ ?].
  - intros n. rewrite Q, queue_off by done. pose proof (li_queue_nodup _ I n).
    destruct (decide _); [by apply NoDup_filter|done].
Qed.

(** A request as [admission_scope] builds it, before it joins a queue. *)
Record new_request (r : Request) : Prop := {
  nr_wf : lease_wf r;
  nr_unadmitted : r_admitted r = false;
  nr_held : r_released r = false;
}.

Lemma enqueue_step c i r front :
  ledger_inv c → c_requests c !! i = None → new_request r →
  is_Some (c_queues c !! r_route r) → is_Some (c_metrics c !! r_route r) →
  ledger_step c (enqueue i r front c) i ∧ i ∈ queue (enqueue i r front c) (r_route r).
Proof.
  intros I Hfresh [Hwf Ha Hr] [q Hq] Hm. set (c' := enqueue i r front c).
  assert (i ∉ c_active c) as Hi.
  { intros Hi. destruct (live_stored _ _ (li_live _ I i Hi)). congruence. }
  assert (∀ n, i ∉ queue c n) as Hout.
  { intros n Hin. destruct (waiting_stored _ _ _ (li_queued _ I n i Hin)). congruence. }
  assert (request c' i = upd r_queued (λ _, true) r) as R.
  { unfold request. cbn. by rewrite lookup_total_insert_eq. }
  assert (∀ n, queue c' n = if decide (n = r_route r)
    then if front then i :: queue c n else queue c n ++ [i] else queue c n) as Q.
  { intros n. unfold queue. cbn. destruct (decide (n = r_route r)) as [->|Hne].
    - rewrite lookup_alter_eq, Hq. by destruct front.
    - by rewrite lookup_alter_ne. }
  split.
  - eapply idle_step; [done|done| | | |].
    + split; try done. intros j Hj. cbn. by rewrite lookup_insert_ne.
    + rewrite R. cbn. congruence.
    + intros n j. rewrite Q. destruct (decide (n = r_route r)) as [->|Hne].
      * intros Hj. destruct (decide (j = i)) as [->|Hji].
        -- right. split; [done|]. split; rewrite ?R; try done.
           { cbn. rewrite lookup_insert_eq. by eexists. }
           destruct Hwf. by split.
        -- left. split; [done|]. destruct front; set_solver.
      * intros Hj. left. split; [|done]. intros ->. by apply Hout in Hj.
    + intros n. rewrite Q. pose proof (li_queue_nodup _ I n) as Hnd.
      destruct (decide _); [|done]. destruct front.
      * by apply NoDup_cons.
      * apply NoDup_app. split; [done|]. split; [|apply NoDup_singleton].
        intros j Hj ->%list_elem_of_singleton. by apply Hout in Hj.
  - rewrite Q, decide_True by done. destruct front; set_solver.
Qed.
