(* ===== verification/LedgerSafety.v ===== *)
(** * Safety of the resource ledger

    The coordinator as a state machine: one step per operation of its public
    surface.  Every reachable state satisfies the ledger invariant, so the
    counters are exact at every moment, none is ever negative, and nothing is
    leaked once every lease has been released. *)

From S2P Require Import Prelude IoIdentity ResourceModel ResourceLedger ResourceInit.
From S2P Require Import ResourceSchedule ResourceObserve LedgerInvariant GrantInvariant.
From S2P Require Import LeaseInvariant ReleaseInvariant.

(** ** The tables of routes *)

(** The queues and the metrics of the registered routes, and only of those. *)
Record tables (c : Coordinator) : Prop := {
  tb_queues : ∀ n, is_Some (c_queues c !! n) ↔ n ∈ c_route_order c;
  tb_metrics : ∀ n, is_Some (c_metrics c !! n) ↔ n ∈ c_route_order c;
  tb_nodup : NoDup (c_route_order c);
}.

Record same_tables (c c' : Coordinator) : Prop := {
  tt_order : c_route_order c' = c_route_order c;
  tt_queues : ∀ n, is_Some (c_queues c' !! n) ↔ is_Some (c_queues c !! n);
  tt_metrics : ∀ n, is_Some (c_metrics c' !! n) ↔ is_Some (c_metrics c !! n);
}.

#[export] Instance same_tables_preorder : PreOrder same_tables.
Proof.
  split; [by split|]. intros c1 c2 c3 [O1 Q1 M1] [O2 Q2 M2].
  split; [congruence|intros n; by rewrite Q2|intros n; by rewrite M2].
Qed.

Lemma tables_kept c c' : tables c → same_tables c c' → tables c'.
Proof.
  intros [Q M N] [O TQ TM]. split; [intros n; rewrite TQ, O; apply Q|
    intros n; rewrite TM, O; apply M|by rewrite O].
Qed.

Lemma yields_on_error {S E A} (R : relation S) `{!PreOrder R} (m : stm S E A) h s :
  yields R m s → (∀ s1, R s1 (h s1)) → yields R (on_error m h) s.
Proof.
  unfold yields, on_error. intros Hm Hh. destruct (m s) as [s1 [a|e]]; cbn in *; [done|].
  etrans; [exact Hm|apply Hh].
Qed.

Lemma same_on_metrics n g c : same_tables c (on_metrics n g c).
Proof. split; [done|done|]. intros m. apply metrics_on. Qed.

Lemma same_on_request i g c : same_tables c (on_request i g c).
Proof. by split. Qed.

Lemma same_last g c : same_tables c (upd c_last_granted g c).
Proof. by split. Qed.

Lemma same_alter_queues n g c : same_tables c (upd c_queues (alter g n) c).
Proof. split; [done| |done]. intros m. apply lookup_alter_is_Some. Qed.

Lemma same_when b (m : M unit) c :
  (b = true → yields same_tables m c) → yields same_tables (when b m) c.
Proof. unfold when. destruct b; [by intros H; apply H|]. intros _. by split. Qed.

Lemma same_lift {A} (r : result ledger_error A) c : yields same_tables (lift r : M A) c.
Proof. by split. Qed.

(** The elementary updates, whatever they are composed with. *)
Lemma same_upto c c1 c2 :
  same_tables c c1 → c_route_order c2 = c_route_order c1 → c_queues c2 = c_queues c1 →
  c_metrics c2 = c_metrics c1 → same_tables c c2.
Proof. intros [O Q MM] E1 E2 E3. split; [congruence|by rewrite E2|by rewrite E3]. Qed.

Create HintDb tables discriminated.

Ltac same_step :=
  first
    [ solve [auto with tables nocore]
    | solve [by split]
    | apply same_lift
    | apply same_when; intros ?
    | lazymatch goal with
      | |- yields _ (get_state ≫= _) _ => apply yields_get
      | |- yields _ (throw_if _ _ ≫= _) _ => apply yields_throw_if; [tc_solve|intros ?]
      | |- yields _ (_ ≫= _) _ => apply yields_bind; [tc_solve| |intros ? ?]
      | |- yields _ (modify _) _ => apply yields_modify
      | |- same_tables _ (on_metrics _ _ _) => etrans; [|apply same_on_metrics]
      | |- same_tables _ (on_request _ _ _) => etrans; [|by split]
      | |- same_tables _ (upd c_queues (alter _ _) _) => etrans; [|apply same_alter_queues]
      end ].

Lemma record_wait_tables i k1 k2 c : yields same_tables (record_wait i k1 k2) c.
Proof. unfold record_wait, read_clock. repeat same_step. Qed.
#[export] Hint Resolve record_wait_tables : tables.

Lemma discard_tables i k1 k2 c : yields same_tables (discard_queued_request i k1 k2) c.
Proof. unfold discard_queued_request. repeat same_step. Qed.

Lemma release_io_tables r c : yields same_tables (release_io r) c.
Proof. unfold release_io. repeat same_step. Qed.
#[export] Hint Resolve release_io_tables : tables.

Lemma release_gpu_tables r c : yields same_tables (release_gpu r) c.
Proof. unfold release_gpu. repeat same_step. Qed.

Lemma release_execution_tables i c : yields same_tables (release_execution i) c.
Proof. unfold release_execution. repeat same_step. Qed.

Lemma restore_claim_tables k saved c : same_tables c (restore_claim k saved c).
Proof. unfold restore_claim. destruct k; by split. Qed.

Lemma pop_left_tables n c : yields same_tables (pop_left n) c.
Proof.
  unfold pop_left. apply yields_get. destruct (queue c n) as [|j q] eqn:Hq; [by split|].
  apply yields_modify. split; [done| |done]. intros m. cbn.
  destruct (decide (m = n)) as [->|Hne]; [|by rewrite lookup_insert_ne].
  rewrite lookup_insert_eq. unfold queue in Hq. split; [|by eexists].
  intros _. by destruct (c_queues c !! n).
Qed.

Lemma charge_tables i c : same_tables c (charge_request i c).
Proof.
  unfold charge_request. set (c1 := on_request i _ c).
  etrans; [|apply same_on_metrics]. destruct (claim_key (request c1 i)); by split.
Qed.

Lemma add_io_tables r c : same_tables c (add_io r c).
Proof.
  unfold add_io. set (c1 := on_metrics _ _ _).
  apply (same_upto c c1); try reflexivity. subst c1. etrans; [|apply same_on_metrics]. by split.
Qed.

Lemma add_gpu_tables r c : same_tables c (add_gpu r c).
Proof.
  unfold add_gpu. set (c1 := on_metrics _ _ _).
  apply (same_upto c c1); try reflexivity. subst c1. etrans; [|apply same_on_metrics]. by split.
Qed.

Lemma activate_tables i c : same_tables c (activate_request i c).
Proof.
  unfold activate_request. set (c3 := upd c_active (add_active i) _).
  assert (same_tables c c3) as H3 by by split.
  set (c4 := if r_execution_active (request c3 i) then _ else _).
  assert (same_tables c c4) as H4.
  { subst c4. destruct (r_execution_active _); [|done].
    etrans; [exact H3|]. etrans; [|apply same_on_metrics]. by split. }
  cbv zeta. set (c5 := if r_io (request c3 i) =? 0 then c4 else _).
  assert (same_tables c c5) as H5.
  { subst c5. destruct (r_io (request c3 i) =? 0); [done|]. etrans; [exact H4|apply add_io_tables]. }
  clearbody c5. destruct (r_gpu (request c3 i) =? 0); [exact H5|]. etrans; [exact H5|apply add_gpu_tables].
Qed.

Lemma grant_tables i idx k1 k2 c : yields same_tables (grant_request i idx k1 k2) c.
Proof.
  unfold grant_request. apply yields_get. apply yields_on_error; [tc_solve| |].
  - unfold grant_body. apply yields_get.
    apply yields_bind; [tc_solve|apply pop_left_tables|intros _ _].
    apply yields_bind; [tc_solve|apply yields_modify, same_on_request|intros _ _].
    apply yields_bind; [tc_solve|apply yields_modify, same_last|intros _ _].
    apply yields_bind; [tc_solve|apply yields_modify, charge_tables|intros _ _].
    apply yields_bind; [tc_solve|apply same_when; intros _; apply record_wait_tables|intros _ _].
    apply yields_modify, activate_tables.
  - intros s1. unfold rollback_grant.
    etrans; [|apply same_on_request]. etrans; [|apply restore_claim_tables].
    etrans; [|apply same_on_metrics]. by split.
Qed.

Lemma release_tables i c : yields same_tables (release_admission i) c.
Proof.
  unfold release_admission. apply yields_get. apply same_when. intros _.
  assert (same_tables c (drop_claim i c).1) as Hd.
  { unfold drop_claim. destruct (claim_key _); [|by split]. destruct (c_claims c !! _); [|by split].
    cbn. destruct (decide _); by split. }
  destruct (drop_claim i c) as [c1 res].
  apply yields_bind; [tc_solve| |intros _ _; apply yields_bind; [tc_solve|apply yields_modify, same_on_request|intros _ _; by split]].
  apply yields_on_error; [tc_solve| |].
  - apply yields_bind; [tc_solve|exact Hd|intros _ _]. unfold release_body.
    apply yields_get. apply yields_bind; [tc_solve| |intros _ _].
    { apply yields_modify. etrans; [|apply same_on_metrics]. by split. }
    apply yields_bind; [tc_solve|apply yields_modify, same_on_request|intros _ _].
    apply yields_bind; [tc_solve|apply release_io_tables|intros _ _]. apply release_gpu_tables.
  - intros s1. unfold rollback_release.
    etrans; [|apply same_on_request]. etrans; [|apply restore_claim_tables].
    etrans; [|apply same_on_metrics]. by split.
Qed.

Lemma cleanup_tables i k1 k2 c : yields same_tables (cleanup_request i k1 k2) c.
Proof.
  unfold cleanup_request. apply yields_get. destruct (r_queued _); [apply discard_tables|].
  apply same_when. intros _. apply release_tables.
Qed.

Lemma shrink_tables i a c : yields same_tables (shrink_transient_bytes i a) c.
Proof. unfold shrink_transient_bytes. repeat same_step. Qed.

Lemma register_process_tables i p c : yields same_tables (register_process i p) c.
Proof. unfold register_process. repeat same_step. Qed.

Lemma resize_tables i a e c : yields same_tables (resize_temp_bytes i a e) c.
Proof.
  unfold yields. rewrite resize_eq. destruct (a <? 0); [by split|].
  destruct (negb _ || _); [by split|].
  destruct (observe_temp_file i e c).2 as [[m d]|x]; [|by split]. cbv zeta.
  destruct (check_growth c i a m e c) as [c1 [[]|x]] eqn:Hc;
    apply check_growth_state in Hc as [_ [b ->]]; [|by split].
  unfold set_temp. etrans; [|apply same_on_metrics]. by split.
Qed.

Lemma enqueue_tables i r front c : same_tables c (enqueue i r front c).
Proof.
  exact (same_upto c _ (enqueue i r front c)
    (same_alter_queues (r_route r) (λ q, if front then i :: q else q ++ [i]) c)
    eq_refl eq_refl eq_refl).
Qed.

(** A scope without a live lease has nothing on its counters. *)
Lemma empty_scope c s : ledger_inv c →
  (∀ i, i ∈ c_active c → in_scope s (r_route (request c i)) = false) →
  no_usage = tally s c ∧ ∀ f, 0 = scope_sum s f c.
Proof.
  intros I Hout.
  assert (∀ i, i ∈ c_active c → scoped_share s (request c i) = no_usage) as Hsh.
  { intros i Hi. unfold scoped_share. by rewrite (Hout i Hi). }
  assert (shared_resident s (c_claims c) = 0) as Hcl.
  { apply map_sum_zero. intros k m Hm. destruct (in_scope s k.1) eqn:Hs; [|done].
    destruct (li_claims _ I k m Hm) as [Hne Hin].
    destruct (map_choose m Hne) as (j&v&Hj). destruct (Hin j v Hj) as (Ha&Hk&_).
    apply Hout in Ha. unfold claim_key in Hk. destruct (r_resident_key _); [|done].
    injection Hk as <-. cbn in Hs. congruence. }
  split.
  - unfold tally. rewrite Hcl, (usage_total_ext _ (λ _, no_usage)) by done.
    assert (∀ p : Usage → Z, p no_usage = 0 → sum_with (λ _ : rid, p no_usage) (c_active c) = 0) as Hz
      by (intros p Hp; by apply sum_with_zero).
    apply usage_eq; cbn [usage_add usage_total resident_usage no_usage upd u_reserved u_resident
      u_transient u_temp u_cpu u_native u_active u_execution];
      rewrite sum_with_zero by done; done.
  - intros f. symmetry. apply sum_with_zero. intros i Hi. unfold scoped. by rewrite (Hout i Hi).
Qed.

(** ** Observation and selection *)

Section same_ledger.
Variables (c c' : Coordinator).
Hypothesis E : same_ledger c c'.

Lemma same_request i : request c' i = request c i.
Proof. unfold request. by rewrite (se_requests _ _ E). Qed.

Lemma same_route_metrics n : route_metrics c' n = route_metrics c n.
Proof. unfold route_metrics. by rewrite (se_metrics _ _ E). Qed.

Lemma same_tally s : tally s c' = tally s c.
Proof.
  unfold tally. rewrite (se_active _ _ E), (se_claims _ _ E). f_equal.
  apply usage_total_ext. intros i _. by rewrite same_request.
Qed.

Lemma same_scope_sum s f : scope_sum s f c' = scope_sum s f c.
Proof.
  unfold scope_sum. rewrite (se_active _ _ E). apply sum_with_ext. intros i _.
  by rewrite same_request.
Qed.

Lemma same_ledger_tables : tables c → tables c'.
Proof.
  intros [TQ TM TN]. destruct E as [_ O Q M _ _ _ _ _ _]. split; rewrite ?Q, ?M, ?O; done.
Qed.

Lemma same_ledger_inv : ledger_inv c → ledger_inv c'.
Proof.
  intros I. destruct E as [_ O Q M U C A IO G R].
  split; unfold claims_of, queue; rewrite ?Q, ?M, ?U, ?C, ?A, ?IO, ?G.
  - apply I.
  - intros i Hi. destruct (li_live _ I i Hi). split; rewrite ?R, ?M, ?same_request; done.
  - intros i. rewrite same_request. apply (li_complete _ I).
  - rewrite same_tally. apply I.
  - intros n Hn. rewrite same_route_metrics, same_tally, !same_scope_sum. by apply (li_routes _ I).
  - intros d. rewrite same_scope_sum. apply I.
  - intros d. rewrite same_scope_sum. apply I.
  - intros k m Hm. destruct (li_claims _ I k m Hm) as [Hne Hin]. split; [done|].
    intros j v Hj. rewrite same_request. by apply Hin.
  - intros i k. rewrite same_request. apply (li_claimed _ I).
  - intros n i Hi. destruct (li_queued _ I n i Hi). split; rewrite ?R, ?M, ?same_request; done.
  - apply I.
Qed.
End same_ledger.

Lemma recredited_same c c' : recredited c c' → same_ledger c c'.
Proof. intros [z ->]. by split. Qed.

(** A change of a queued request that leaves its identity and its flags. *)
Lemma queued_update_step c c' i g :
  ledger_inv c → i ∈ queue c (r_route (request c i)) →
  (∀ r, r_route (g r) = r_route r ∧ r_queued (g r) = r_queued r ∧
        r_admitted (g r) = r_admitted r ∧ r_released (g r) = r_released r) →
  lease_wf (g (request c i)) →
  c_requests c' = alter g i (c_requests c) → idle c c' i → c_queues c' = c_queues c →
  ledger_step c c' i.
Proof.
  intros I Hq Hg Hwf Hr Hidle Hqs. pose proof (li_queued _ I _ _ Hq) as W.
  pose proof (waiting_inactive _ _ _ I W) as Hi.
  assert (request c' i = g (request c i)) as R.
  { destruct (waiting_stored _ _ _ W) as [r Hri]. unfold request.
    by rewrite !lookup_total_alt, Hr, lookup_alter_eq, Hri. }
  destruct (Hg (request c i)) as (G1&G2&G3&G4).
  assert (∀ n, queue c' n = queue c n) as Hqe by (intros n; unfold queue; by rewrite Hqs).
  eapply idle_step; [done|done|done| | |].
  - rewrite R, G3, G4, (waiting_unadmitted _ _ _ W). done.
  - intros n j. rewrite Hqe. intros Hj. destruct (decide (j = i)) as [->|Hne]; [|by left].
    right. split; [done|]. destruct (li_queued _ I _ _ Hj) as [S Rt M Q A L].
    split; rewrite ?R, ?G1, ?G2, ?G3; try done.
    + rewrite Hr. by apply lookup_alter_is_Some.
    + by apply (id_metrics _ _ _ Hidle).
  - intros n. rewrite Hqe. apply I.
Qed.

Lemma adapt_width_wf c slots r : lease_wf r → lease_wf (adapt_width c slots r).
Proof.
  intros []. unfold adapt_width. destruct (r_adaptive r); [|by split].
  split; try done; cbn; lia.
Qed.

Lemma adapt_heads_keeps slots routes : ∀ c,
  ledger_inv c → ledger_inv (adapt_heads slots routes c) ∧
  same_tables c (adapt_heads slots routes c) ∧
  ∃ rs, adapt_heads slots routes c = upd c_requests (λ _, rs) c.
Proof.
  induction routes as [|n routes IH]; intros c I; cbn [adapt_heads].
  { split; [done|]. split; [done|]. exists (c_requests c). by destruct c. }
  destruct (queue_head c n) as [i|] eqn:Hh; [|by apply IH].
  set (c1 := on_request i (adapt_width c slots) c).
  assert (i ∈ queue c (r_route (request c i))) as Hq.
  { unfold queue_head in Hh. destruct (queue c n) as [|j q] eqn:Hqn; [done|].
    injection Hh as ->. assert (i ∈ queue c n) as Hin by (rewrite Hqn; apply list_elem_of_here).
    by rewrite (waiting_route _ _ _ (li_queued _ I _ _ Hin)). }
  assert (ledger_inv c1) as I1.
  { eapply ledger_step_inv; [exact I|].
    apply (queued_update_step c c1 i (adapt_width c slots)); try done.
    - intros r. unfold adapt_width. by destruct (r_adaptive r).
    - apply adapt_width_wf. apply (waiting_wf _ _ _ (li_queued _ I _ _ Hq)).
    - split; try done. intros j Hj. cbn. by rewrite lookup_alter_ne. }
  destruct (IH c1 I1) as (I2&T2&rs&E). split; [done|]. split.
  - etrans; [apply (same_on_request i (adapt_width c slots))|exact T2].
  - exists rs. rewrite E. done.
Qed.

Lemma fitting_routes_recredited e routes : ∀ c, recredited c (fitting_routes e routes c).1.
Proof.
  induction routes as [|n routes IH]; intros c; cbn [fitting_routes]; [apply recredited_refl|].
  rewrite get_bind, stm_bind_eq.
  assert (∃ c1 r, match queue_head c n with Some i => fits e i | None => mret false end c = (c1, r) ∧
    recredited c c1) as (c1&r&->&R1).
  { destruct (queue_head c n) as [i|].
    - destruct (fits_eq e i c) as (c1&->&R). by do 2 eexists.
    - do 2 eexists. split; [done|apply recredited_refl]. }
  destruct r as [ok|err]; [|done]. rewrite stm_bind_eq. specialize (IH c1).
  destruct (fitting_routes e routes c1) as [c2 [more|err]]; by eapply recredited_trans.
Qed.

(** A selection only narrows or widens queued adaptive requests. *)
Lemma next_route_keeps e c :
  ledger_inv c → ledger_inv (next_route e c).1 ∧ same_tables c (next_route e c).1 ∧
  ∃ rs, same_ledger (upd c_requests (λ _, rs) c) (next_route e c).1.
Proof.
  intros I. unfold next_route. rewrite get_bind, modify_bind, stm_bind_eq.
  destruct (adapt_heads_keeps (se_cpu e) (ordered_routes c) c I) as (I1&T1&rs&E1).
  set (c1 := adapt_heads _ _ c) in *.
  pose proof (fitting_routes_recredited e (ordered_routes c) c1) as R.
  destruct (fitting_routes e (ordered_routes c) c1) as [c2 res]. cbn [fst] in R.
  assert ((match res with
           | Ok fitting => (get_state ≫= λ c', mret (choose_route c' fitting)) c2
           | Err err => (c2, Err err)
           end : Coordinator * result device_error (option pystr)).1 = c2) as -> by by destruct res.
  pose proof (recredited_same _ _ R) as S. split; [|split].
  - by apply (same_ledger_inv c1 c2 S).
  - etrans; [exact T1|]. destruct R as [z ->]. by split.
  - exists rs. by rewrite <- E1.
Qed.

(** ** The state machine *)

Inductive operation : Type :=
| RegisterRoute (n : pystr)
| Enqueue (i : rid) (r : Request) (front : bool)
| Grant (i : rid) (route_index : Z) (k1 k2 : clock)
| Cleanup (i : rid) (k1 k2 : clock)
| ReleaseExecution (i : rid)
| Shrink (i : rid) (amount : Z)
| ResizeTemp (i : rid) (amount : Z) (e : temp_env)
| RegisterProcess (i : rid) (p : process_identity)
| Observe (rd : reading) (o : Observer)
| Select (e : selection)
| MarkWaited (i : rid).

Definition perform (o : operation) : M unit :=
  match o with
  | RegisterRoute n => modify (register_route n)
  | Enqueue i r front => modify (enqueue i r front)
  | Grant i idx k1 k2 => grant_request i idx k1 k2
  | Cleanup i k1 k2 => cleanup_request i k1 k2
  | ReleaseExecution i => release_execution i
  | Shrink i amount => shrink_transient_bytes i amount
  | ResizeTemp i amount e => resize_temp_bytes i amount e
  | RegisterProcess i p => register_process i p
  | Observe rd o => modify (λ c, match observe rd (c, o) with Some ((c', _), _) => c' | None => c end)
  | Select e => modify (λ c, (next_route e c).1)
  | MarkWaited i => mark_waited i
  end.

(** What the callers of the operation guarantee: a new request is a new object
    of a registered route, the request to grant heads its queue and the one that
    waits is in it. *)
Definition allowed (c : Coordinator) (o : operation) : Prop :=
  match o with
  | Enqueue i r _ => c_requests c !! i = None ∧ new_request r ∧ r_route r ∈ c_route_order c
  | Grant i _ _ _ => head (queue c (r_route (request c i))) = Some i
  | MarkWaited i => i ∈ queue c (r_route (request c i))
  | _ => True
  end.

Inductive reachable (c0 : Coordinator) : Coordinator → Prop :=
| reach_start : reachable c0 c0
| reach_step c o : reachable c0 c → allowed c o → reachable c0 (perform o c).1.

Lemma register_route_ledger n c : tables c → ledger_inv c →
  tables (register_route n c) ∧ ledger_inv (register_route n c).
Proof.
  intros [TQ TM TN] I. unfold register_route. destruct (c_queues c !! n) as [q|] eqn:Hq; [done|].
  assert (n ∉ c_route_order c) as Hn by (rewrite <- TQ, Hq; by intros [? ?]).
  assert (c_metrics c !! n = None) as Hm.
  { destruct (c_metrics c !! n) eqn:Hm; [|done]. exfalso. apply Hn, TM. by rewrite Hm. }
  set (c' := upd c_metrics _ _).
  assert (∀ m, m ≠ n → route_metrics c' m = route_metrics c m) as Hrm.
  { intros m Hne. unfold route_metrics. cbn. by rewrite lookup_total_insert_ne. }
  assert (∀ m, queue c' m = queue c m) as Hqe.
  { intros m. unfold queue. cbn. destruct (decide (m = n)) as [->|Hne].
    - by rewrite lookup_insert_eq, Hq.
    - by rewrite lookup_insert_ne. }
  assert (∀ i, i ∈ c_active c → in_scope (Some n) (r_route (request c i)) = false) as Hout.
  { intros i Hi. cbn. apply bool_decide_eq_false_2. intros He.
    destruct (live_route _ _ (li_live _ I i Hi)). congruence. }
  split.
  - split.
    + intros m. cbn. rewrite elem_of_app, list_elem_of_singleton, <- TQ.
      destruct (decide (m = n)) as [->|Hne]; [rewrite lookup_insert_eq|rewrite lookup_insert_ne by done];
        naive_solver.
    + intros m. cbn. rewrite elem_of_app, list_elem_of_singleton, <- TM.
      destruct (decide (m = n)) as [->|Hne]; [rewrite lookup_insert_eq|rewrite lookup_insert_ne by done];
        naive_solver.
    + cbn. apply NoDup_app. split; [done|]. split; [|apply NoDup_singleton].
      by intros m Hmo ->%list_elem_of_singleton.
  - split; try apply I.
    + intros i Hi. destruct (li_live _ I i Hi) as [S R A Hh Hu Hw He].
      split; try done. cbn. rewrite lookup_insert_ne; [done|].
      intros Heq. pose proof (Hout i Hi) as Ho. cbn in Ho. by rewrite bool_decide_eq_true_2 in Ho.
    + intros m Hms. destruct (decide (m = n)) as [->|Hne].
      * assert (route_metrics c' n = fresh_metrics) as ->.
        { unfold route_metrics. cbn. by rewrite lookup_total_insert_eq. }
        destruct (empty_scope c (Some n) I Hout) as [Hu Hf]. split; [exact Hu|split; apply Hf].
      * rewrite Hrm by done. apply (li_routes _ I). cbn in Hms. by rewrite lookup_insert_ne in Hms.
    + intros m i. rewrite Hqe. intros [S R M' Q A W]%(li_queued _ I). split; try done.
      cbn. rewrite lookup_insert_is_Some. destruct (decide (n = m)); [by left|by right].
    + intros m. rewrite Hqe. apply I.
Qed.

(** The whole invariant: exact counters, and one queue and one set of metrics
    per registered route. *)
Definition coherent (c : Coordinator) : Prop := tables c ∧ ledger_inv c.

Lemma new_coordinator_coherent order l b s g mc :
  NoDup order → coherent (new_coordinator order l b s g mc).
Proof.
  intros Hnd. set (c := new_coordinator order l b s g mc).
  assert (∀ i, request c i = inhabitant) as Hreq by done.
  assert (∀ n, is_Some (c_metrics c !! n) → route_metrics c n = fresh_metrics) as Hm.
  { intros n [m Hn]. unfold route_metrics. rewrite lookup_total_alt, Hn. cbn in *.
    rewrite per_route_lookup in Hn. destruct (decide _); [by injection Hn as <-|done]. }
  assert (∀ n, queue c n = []) as Hq.
  { intros n. unfold queue. cbn. rewrite per_route_lookup. by destruct (decide _). }
  split.
  - split; [| |done]; intros n; cbn; rewrite per_route_lookup; destruct (decide (n ∈ order));
      split; try done; by intros [? ?].
  - split; try done.
    + apply NoDup_nil_2.
    + intros i Hi. by apply elem_of_nil in Hi.
    + intros n Hn. by rewrite (Hm n Hn).
    + intros n i Hi. rewrite Hq in Hi. by apply elem_of_nil in Hi.
    + intros n. rewrite Hq. apply NoDup_nil_2.
Qed.

Lemma cleanup_keeps_ledger c c' i k1 k2 res :
  ledger_inv c → cleanup_request i k1 k2 c = (c', res) → ledger_inv c'.
Proof.
  intros I. unfold cleanup_request. rewrite get_bind.
  destruct (r_queued (request c i)).
  - intros [->|[S _]]%discard_step; [done| |done]. by eapply ledger_step_inv.
  - unfold when. destruct (_ && _); [|by intros [= <- _]].
    intros (_&I'&_)%release_keeps_ledger; done.
Qed.

Lemma observe_same rd o c :
  same_ledger c (match observe rd (c, o) with Some ((c', _), _) => c' | None => c end).
Proof.
  destruct (observe rd (c, o)) as [[[c' o'] [sn slots]]|] eqn:E; [|done].
  by eapply observe_same_ledger.
Qed.

Lemma mark_waited_facts i c : i ∈ queue c (r_route (request c i)) → ledger_inv c →
  ledger_inv (mark_waited i c).1 ∧ same_tables c (mark_waited i c).1.
Proof.
  intros Hq I. unfold mark_waited. rewrite get_bind. unfold when.
  destruct (negb _); [|done]. rewrite modify_bind. cbn [fst modify].
  set (c' := on_metrics _ _ _). split.
  - eapply ledger_step_inv; [exact I|].
    apply (queued_update_step c c' i (upd r_waited (λ _, true))); try done.
    + pose proof (waiting_wf _ _ _ (li_queued _ I _ _ Hq)) as []. by split.
    + split; try done.
      * intros j Hj. cbn. by rewrite lookup_alter_ne.
      * intros n. apply (metrics_on (on_request i (upd r_waited (λ _, true)) c)).
      * intros n Hn. subst c'. rewrite route_metrics_on by done. by destruct (decide _).
  - etrans; [apply (same_on_request i (upd r_waited (λ _, true)))|apply same_on_metrics].
Qed.

Lemma perform_coherent c o : coherent c → allowed c o → coherent (perform o c).1.
Proof.
  intros [T I] A. split.
  - destruct o; cbn [perform].
    1: by apply register_route_ledger.
    all: eapply tables_kept; [exact T|].
    + apply enqueue_tables.
    + apply grant_tables.
    + apply cleanup_tables.
    + apply release_execution_tables.
    + apply shrink_tables.
    + apply resize_tables.
    + apply register_process_tables.
    + destruct (observe_same rd o c) as [_ O Q MM _ _ _ _ _ _].
      cbn [fst modify]. split; [done|by rewrite Q|by rewrite MM].
    + cbn [fst modify]. by apply next_route_keeps.
    + by apply mark_waited_facts.
  - destruct (perform o c) as [c' res] eqn:E. cbn [fst]. destruct o; cbn [perform allowed] in *.
    + apply modify_ok in E as [-> _]. by apply register_route_ledger.
    + apply modify_ok in E as [-> _]. destruct A as (Hf&Hn&Hr).
      eapply ledger_step_inv; [exact I|]. apply enqueue_step; try done; by apply T.
    + destruct (queue c (r_route (request c i))) as [|j q] eqn:Hq; [done|]. injection A as ->.
      destruct res as [[]|e]; [by eapply grant_keeps_ledger|by eapply failed_grant_keeps_ledger].
    + by eapply cleanup_keeps_ledger.
    + destruct (decide (i ∈ c_active c)) as [Hi|Hi].
      * destruct (release_execution_step c i I Hi) as (c1&E1&Hs). rewrite E1 in E.
        injection E as <- <-. destruct Hs as [[-> _]|[_ Hs]]; [done|]. by eapply ledger_step_inv.
      * unfold release_execution in E. rewrite get_bind in E.
        destruct (r_admitted (request c i) && negb (r_released (request c i))) eqn:Hl;
          [by apply (leased c i I) in Hl|]. cbn [andb when] in E. by injection E as <- _.
    + apply shrink_step in E as [[-> _]|(_&_&_&_&Hs)]; [done| |done]. by eapply ledger_step_inv.
    + apply resize_step in E as [[-> _]|(_&_&_&Hs)]; [done| |done]. by eapply ledger_step_inv.
    + apply register_process_step in E as [[-> _]|(_&_&Hs)]; [done| |done].
      by eapply ledger_step_inv.
    + apply modify_ok in E as [-> _]. eapply same_ledger_inv; [apply observe_same|done].
    + apply modify_ok in E as [-> _]. by apply next_route_keeps.
    + pose proof (proj1 (mark_waited_facts i c A I)) as H. by rewrite E in H.
Qed.

Lemma reachable_coherent c0 c : coherent c0 → reachable c0 c → coherent c.
Proof. induction 2; [done|]. by apply perform_coherent. Qed.

(** The runs of a coordinator that was built from a configuration. *)
Definition run_of (c : Coordinator) : Prop :=
  ∃ order l dev gpu budgets mc c0,
    init_coordinator order l dev gpu budgets mc = Ok c0 ∧ reachable c0 c.

Lemma run_coherent c : run_of c → coherent c.
Proof.
  intros (order&l&dev&gpu&budgets&mc&c0&[U (b&s&g&->)]%init_coordinator_ok&R).
  eapply reachable_coherent; [|exact R]. apply new_coordinator_coherent. apply U.
Qed.

Definition usage_nonneg (u : Usage) : Prop :=
  0 <= u_reserved u ∧ 0 <= u_resident u ∧ 0 <= u_transient u ∧ 0 <= u_temp u ∧
  0 <= u_cpu u ∧ 0 <= u_native u ∧ 0 <= u_active u ∧ 0 <= u_execution u.

Lemma shared_nonneg c s : ledger_inv c → 0 <= shared_resident s (c_claims c).
Proof.
  intros I. apply map_sum_nonneg. intros k m Hm. destruct (in_scope s k.1); [|done].
  apply claims_max_nonneg. intros i v Hi. apply (claims_nonneg c I k i).
  unfold claims_of. by rewrite Hm.
Qed.

Lemma scoped_share_nonneg c s i : ledger_inv c → i ∈ c_active c →
  usage_nonneg (scoped_share s (request c i)).
Proof.
  intros I Hi. destruct (live_wf _ _ (li_live _ I i Hi)).
  unfold scoped_share. destruct (in_scope s _); [|done].
  unfold share, own_resident, usage_nonneg. cbn.
  destruct (r_resident_key _), (r_execution_active _); lia.
Qed.

Lemma tally_nonneg c s : ledger_inv c → usage_nonneg (tally s c).
Proof.
  intros I. pose proof (shared_nonneg c s I).
  assert (∀ p : Usage → Z, (∀ u, usage_nonneg u → 0 <= p u) →
    0 <= sum_with (λ i, p (scoped_share s (request c i))) (c_active c)) as Hs.
  { intros p Hp. apply sum_with_nonneg. intros i Hi. by apply Hp, scoped_share_nonneg. }
  unfold usage_nonneg, tally.
  cbn [usage_add usage_total resident_usage no_usage upd u_reserved u_resident
      u_transient u_temp u_cpu u_native u_active u_execution].
  split_and!; apply Z.add_nonneg_nonneg; try done;
    first [apply (Hs u_reserved)|apply (Hs u_resident)|apply (Hs u_transient)|apply (Hs u_temp)
          |apply (Hs u_cpu)|apply (Hs u_native)|apply (Hs u_active)|apply (Hs u_execution)];
    by intros u (?&?&?&?&?&?&?&?).
Qed.

Lemma claims_empty c : ledger_inv c → c_active c = [] → c_claims c = ∅.
Proof.
  intros I Ha. apply map_empty. intros k. destruct (c_claims c !! k) as [m|] eqn:Hk; [|done].
  destruct (li_claims _ I k m Hk) as [Hne Hin]. destruct (map_choose m Hne) as (j&v&Hj).
  destruct (Hin j v Hj) as [Hja _]. rewrite Ha in Hja. by apply elem_of_nil in Hja.
Qed.

(** C1: at every moment of every run, whatever sequence of registrations,
    enqueues, grants (completed or failed), releases, resizes and failures led
    there, each counter of the coordinator and of each route is exactly the sum
    over the live leases. *)
Theorem ledger_always_exact c : run_of c → coherent c.
Proof. apply run_coherent. Qed.

(** C19: no counter is ever negative, and once no lease is live nothing is left
    on any counter, of the coordinator, of a route or of a device, and no
    residency claim remains. *)
Theorem nothing_leaks c :
  run_of c →
  usage_nonneg (c_usage c) ∧
  (∀ n, n ∈ c_route_order c → usage_nonneg (m_usage (route_metrics c n))) ∧
  (c_active c = [] →
     c_usage c = no_usage ∧ c_claims c = ∅ ∧
     (∀ n, n ∈ c_route_order c → m_usage (route_metrics c n) = no_usage ∧
        m_io (route_metrics c n) = 0 ∧ m_gpu (route_metrics c n) = 0) ∧
     ∀ d, default 0 (c_io_in_use c !! d) = 0 ∧ default 0 (c_gpu_in_use c !! d) = 0).
Proof.
  intros [T I]%run_coherent. split; [rewrite (li_usage _ I); by apply tally_nonneg|]. split.
  - intros n Hn%(tb_metrics _ T). destruct (li_routes _ I n Hn) as (->&_). by apply tally_nonneg.
  - intros Ha. assert (∀ s i, i ∈ c_active c → in_scope s (r_route (request c i)) = false) as Hno
      by (intros s i Hi; rewrite Ha in Hi; by apply elem_of_nil in Hi).
    split; [|split; [by apply claims_empty|split]].
    + rewrite (li_usage _ I). symmetry. by apply (empty_scope c None I (Hno _)).
    + intros n Hn%(tb_metrics _ T). destruct (li_routes _ I n Hn) as (->&->&->).
      destruct (empty_scope c (Some n) I (Hno _)) as [<- Hf]. by rewrite <- !Hf.
    + intros d. rewrite (li_io _ I), (li_gpu _ I).
      destruct (empty_scope c None I (Hno _)) as [_ Hf]. by rewrite <- !Hf.
Qed.

(** Cleaning up a live lease always succeeds, takes exactly its demand off
    the counters, and doing it again changes nothing. *)
Theorem release_once c i k1 k2 :
  run_of c → i ∈ c_active c →
  ∃ c', cleanup_request i k1 k2 c = (c', Ok tt) ∧
    c_active c' = filter (λ j, j ≠ i) (c_active c) ∧
    c_usage c' = usage_sub (c_usage c) (released_demand (request c i) (resident_released c i)) ∧
    cleanup_request i k1 k2 c' = (c', Ok tt).
Proof.
  intros [T I]%run_coherent Hi. destruct (release_success c i I Hi) as (c'&E&G). exists c'.
  pose proof (f_request _ _ _ _ (rf_frame _ _ _ G)) as R.
  pose proof (live_unqueued _ _ (li_live _ I i Hi)) as Hq.
  unfold cleanup_request. rewrite !get_bind, R. unfold released at 1. cbn [r_queued upd].
  rewrite Hq, (proj2 (leased c i I) Hi). split; [exact E|]. split; [apply G|]. split; [apply G|].
  done.
Qed.

(** C36: a grant that raises, wherever its clock fails, leaves every counter,
    metric, claim, peak and lease as they were; only the request has left its
    queue and holds nothing. *)
Theorem failed_grant_restores c c' i q idx k1 k2 e :
  run_of c → queue c (r_route (request c i)) = i :: q →
  grant_request i idx k1 k2 c = (c', Err e) →
  c' = after_refusal i q c ∧ c_usage c' = c_usage c ∧ c_metrics c' = c_metrics c ∧
  c_claims c' = c_claims c ∧ c_active c' = c_active c ∧ c_peaks c' = c_peaks c ∧
  c_last_granted c' = c_last_granted c ∧
  r_admitted (request c' i) = false ∧ i ∉ queue c' (r_route (request c i)).
Proof.
  intros [T I]%run_coherent Hq E. pose proof (grant_failure c c' i idx k1 k2 q e I Hq E) as ->.
  repeat (split; [done|]). split.
  - unfold request at 1. cbn. by rewrite lookup_total_insert_eq.
  - change (queue (after_refusal i q c) (r_route (request c i))) with
      (queue (upd c_queues (<[r_route (request c i) := q]>) c) (r_route (request c i))).
    rewrite queue_insert, decide_True by done. pose proof (li_queue_nodup _ I (r_route (request c i))) as Hn.
    rewrite Hq in Hn. by apply NoDup_cons in Hn as [? _].
Qed.

(** ** A run *)

Definition queued_run (r : Request) : Coordinator :=
  (perform (Enqueue 1%positive r false) sample_coordinator).1.

Definition granted_run : Coordinator :=
  (perform (Grant 1%positive 0 (Some fzero) (Some fzero)) (queued_run sample_request)).1.

Lemma sample_request_new : new_request sample_request ∧ new_request sample_waiting.
Proof. split; split; done. Qed.

Lemma queued_run_of r : new_request r → r_route r = py "pdf" → run_of (queued_run r).
Proof.
  intros Hn Hr. exists sample_routes, sample_limits, None, None, None, sample_machine.
  exists sample_coordinator. split; [apply sample_init|]. apply reach_step; [apply reach_start|].
  split; [by vm_compute|]. split; [done|]. rewrite Hr. apply list_elem_of_here.
Qed.

Lemma granted_run_of : run_of granted_run.
Proof.
  destruct (queued_run_of sample_request) as (o&l&d&g&b&mc&c0&H&R);
    [apply sample_request_new|done|].
  exists o, l, d, g, b, mc, c0. split; [done|]. apply reach_step; [done|]. by vm_compute.
Qed.

Lemma granted_run_active : 1%positive ∈ c_active granted_run.
Proof.
  assert (c_active granted_run = [1%positive]) as -> by by vm_compute.
  apply list_elem_of_here.
Qed.

Lemma ledger_always_exact_witness :
  u_reserved (c_usage granted_run) = 150 ∧ coherent granted_run.
Proof. split; [by vm_compute|]. exact (ledger_always_exact granted_run granted_run_of). Defined.

Lemma nothing_leaks_witness :
  c_active granted_run = [1%positive] ∧ usage_nonneg (c_usage granted_run).
Proof.
  split; [by vm_compute|]. exact (proj1 (nothing_leaks granted_run granted_run_of)).
Defined.

Lemma release_once_witness : ∃ c',
  cleanup_request 1 None None granted_run = (c', Ok tt) ∧
  cleanup_request 1 None None c' = (c', Ok tt).
Proof.
  destruct (release_once granted_run 1%positive None None granted_run_of granted_run_active)
    as (c'&H1&_&_&H2).
  by exists c'.
Defined.

(** The clock fails while the wait of the granted request is recorded. *)
Lemma failed_grant_restores_witness :
  let c := queued_run sample_waiting in
  let failed := grant_request 1%positive 0 None None c in
  failed.2 = Err ClockRaised ∧ c_usage failed.1 = c_usage c.
Proof.
  set (c := queued_run sample_waiting). cbv zeta.
  assert ((grant_request 1%positive 0 None None c).2 = Err ClockRaised) as Hf by by vm_compute.
  split; [exact Hf|].
  destruct (failed_grant_restores c _ 1%positive [] 0 None None ClockRaised
    (queued_run_of sample_waiting (proj2 sample_request_new) eq_refl)
    ltac:(by vm_compute) (run_result _ _ _ Hf)) as (_&Hu&_).
  exact Hu.
Defined.
