(* ===== verification/ScheduleSafety.v ===== *)
(** * Selected grants stay within the live budgets

    The request that [next_route] selects and [_grant_request_locked] admits
    keeps every counter within the budget it was measured against; workers are
    planned within what is left. *)

From S2P Require Import Prelude IoIdentity ResourceModel ResourceLedger ResourceInit.
From S2P Require Import ResourceSchedule ResourceObserve LedgerInvariant GrantInvariant.
From S2P Require Import LeaseInvariant ReleaseInvariant LedgerSafety.

(** The route chosen is one whose head fits. *)
Lemma next_route_serves e c c' n :
  next_route e c = (c', Ok (Some n)) → serves e c' n.
Proof.
  intros E. pose proof (next_route_eq e c c' (Some n) E) as [R Ho]. cbv zeta in *.
  set (c1 := adapt_heads _ _ c) in *.
  assert (n ∈ List.filter (serves_b e c1) (ordered_routes c)) as Hin.
  { apply list_elem_of_In. unfold choose_route in Ho.
    destruct (List.find (head_draining c1) _) as [m|] eqn:H1.
    { injection Ho as ->. by apply List.find_some in H1 as [? _]. }
    destruct (List.find (no_cpu c1) _) as [m|] eqn:H2.
    { injection Ho as ->. by apply List.find_some in H2 as [? _]. }
    destruct (List.filter (serves_b e c1) (ordered_routes c)) as [|m l]; [done|].
    injection Ho as ->. by left. }
  apply list_elem_of_In, List.filter_In in Hin as [_ Hs].
  apply serves_b_spec. by rewrite (serves_b_recredited e c1).
Qed.

Lemma next_route_coherent e c c' o : coherent c → next_route e c = (c', o) → coherent c'.
Proof.
  intros [T I] E. destruct (next_route_keeps e c I) as (I'&T'&_). rewrite E in I', T'.
  split; [by eapply tables_kept|done].
Qed.

Lemma grant_head c i n :
  ledger_inv c → queue_head c n = Some i → r_route (request c i) = n ∧
  ∃ q, queue c (r_route (request c i)) = i :: q.
Proof.
  intros I Hh. unfold queue_head in Hh. destruct (queue c n) as [|j q] eqn:Hq; [done|].
  injection Hh as ->. assert (i ∈ queue c n) as Hin by (rewrite Hq; apply list_elem_of_here).
  pose proof (waiting_route _ _ _ (li_queued _ I n i Hin)) as Hr. split; [done|].
  exists q. by rewrite Hr.
Qed.

(** C2: the end-to-end safety of admission.  When the route selected by one
    observation has its head granted, and that head is not a drain, the
    reserved memory, the route's own memory budget, the CPU slots, the native
    threads, the temporary bytes, the device I/O slots and the GPU memory are
    all within the capacity of that observation, and no memory pressure was
    latched. *)
Theorem granted_within_budgets e c c1 n i idx k1 k2 c2 :
  run_of c → next_route e c = (c1, Ok (Some n)) → queue_head c1 n = Some i →
  grant_request i idx k1 k2 c1 = (c2, Ok tt) →
  let r := request c1 i in
  is_draining r = false →
  c_memory_pressure c1 = false ∧
  u_reserved (c_usage c2) <= c_last_memory_budget c1 ∧
  (∀ b, c_route_budgets c1 !! n = Some b → u_reserved (m_usage (route_metrics c2 n)) <= b) ∧
  u_cpu (c_usage c2) <= se_cpu e ∧
  u_native (c_usage c2) <= Z.min (c_native_slots c1) (se_cpu e) ∧
  u_temp (c_usage c2) <= c_temp_budget c1 ∧
  (r_gpu r ≠ 0 → let d := device_or_default (r_gpu_device r) in
     default 0 (c_gpu_in_use c2 !! d) <= default 0 (c_gpu_capacity c1 !! d)) ∧
  (r_io r ≠ 0 → let d := device_or_default (r_io_device r) in
     io_device_key (device_text (r_io_device r)) = Ok d →
     ∃ capacity, io_capacity c1 d = Ok capacity ∧ default 0 (c_io_in_use c2 !! d) <= capacity).
Proof.
  intros Hrun%run_coherent Hsel Hh Hg r Hd.
  pose proof (next_route_coherent e c c1 _ Hrun Hsel) as [T I].
  destruct (next_route_serves _ _ _ _ Hsel) as (j&Hj&A). rewrite Hh in Hj. injection Hj as <-.
  destruct (grant_head c1 i n I Hh) as [Hn [q Hq]].
  destruct (grant_success _ _ _ _ _ _ _ I Hq Hg) as [b G].
  pose proof (ad_memory _ _ _ A Hd) as Hm. pose proof (ad_width _ _ _ A) as Hw.
  pose proof (ad_temp _ _ _ A) as Ht. fold r in Hm, Hw, Ht.
  unfold memory_fits, future_memory, route_future_memory in Hm.
  apply andb_true_iff in Hm as [Hm Hp]. apply andb_true_iff in Hm as [Hm Hb].
  apply negb_true_iff, orb_false_iff in Hp as [Hp _]. apply Z.leb_le in Hm.
  apply negb_true_iff in Hb. unfold width_fits, cpu_allowance in Hw.
  rewrite Hd in Hw. cbn [andb] in Hw. apply andb_true_iff in Hw as [Hc Hnat].
  apply Z.leb_le in Hc, Hnat. unfold temp_fits in Ht. apply andb_true_iff in Ht as [Ht _].
  apply Z.leb_le in Ht.
  assert (∀ p : Usage → Z, p (c_usage c2) = p (usage_add (usage_add (c_usage c1)
    (demand (charged c1 i))) (execution_of r))) as HU by (intros p; by rewrite (gf_usage _ _ _ _ _ G)).
  assert (execution_of r = no_usage ∨ execution_of r = one_execution) as He
    by (unfold execution_of; destruct (needs_execution r); auto).
  split; [done|].
  assert (∀ u, u_reserved (usage_add (usage_add u (demand (charged c1 i))) (execution_of r)) =
    u_reserved u + resident_charge_for_request c1 r + r_transient r) as Hres.
  { intros u. destruct He as [-> | ->]; cbn; fold r; lia. }
  split; [rewrite HU, Hres; exact Hm|]. split.
  { intros x Hx. rewrite <- Hn in *.
    assert (is_Some (c_metrics c1 !! r_route (request c1 i))) as Hmet.
    { apply (waiting_metrics c1 _ i), (li_queued _ I). rewrite Hq. apply list_elem_of_here. }
    destruct (gf_routes _ _ _ _ _ G _ Hmet) as (->&_). rewrite bool_decide_eq_true_2 by done.
    rewrite <- usage_add_assoc. fold r. rewrite Hres. fold r in Hx. rewrite Hx in Hb. cbn in Hb.
    apply Z.ltb_ge in Hb. fold r in Hb. exact Hb. }
  split; [rewrite HU; destruct He as [-> | ->]; cbn; fold r; lia|].
  split; [rewrite HU; destruct He as [-> | ->]; cbn; fold r; lia|].
  split; [rewrite HU; destruct He as [-> | ->]; cbn; fold r; lia|]. split.
  - intros Hgpu d. rewrite (gf_gpu _ _ _ _ _ G). fold r. unfold on_gpu.
    rewrite bool_decide_eq_true_2 by done. pose proof (ad_gpu _ _ _ A) as Hf. fold r in Hf.
    unfold gpu_fits in Hf. rewrite (proj2 (Z.eqb_neq _ _) Hgpu) in Hf.
    apply andb_true_iff in Hf as [Hf _]. by apply Z.leb_le in Hf.
  - intros Hio d Hk. rewrite (gf_io _ _ _ _ _ G). fold r. unfold on_io.
    rewrite bool_decide_eq_true_2 by done. destruct (ad_io _ _ _ A) as (d'&Hk'&Hf). fold r in Hk', Hf.
    rewrite Hk in Hk'. injection Hk' as <-. unfold io_fits in Hf.
    rewrite (proj2 (Z.eqb_neq _ _) Hio) in Hf. destruct (_ && _); [discriminate|]. inv_ok.
    eexists. split; [done|]. by apply Z.leb_le.
Qed.

(** ** Worker plans *)

Lemma at_most_le b z : at_most b z <= z.
Proof. destruct b; cbn; lia. Qed.

(** A worker plan stays within the memory and the threads that are left.
    It is never negative nor above the requested maximum, zero under memory or
    CPU pressure, fits the CPU capacity the route has or could take, and its
    memory fits what the budget leaves besides the work of other routes. *)
Theorem worker_plan_is_affordable route max_workers estimated native reusable e c c' w :
  worker_capacity route max_workers estimated native reusable e c = (c', Ok w) →
  let own := match route ≫= λ n, c_metrics c !! n with Some m => m_usage m | None => no_usage end in
  let shared := match route ≫= λ n, c_metrics c !! n with
                | Some m => Z.min (u_resident (m_usage m)) reusable | None => 0 end in
  0 <= w ∧ (∀ m, max_workers = Some m → w <= m) ∧
  (c_memory_pressure c || c_cpu_pressure c = true → w = 0) ∧
  w <= Z.max 0 (se_cpu e - u_cpu (c_usage c) + u_cpu own) ∧
  (w * native <= Z.max 0 (Z.min (c_native_slots c) (se_cpu e) - u_native (c_usage c) + u_native own)) ∧
  (w * estimated <= Z.max 0 (c_last_memory_budget c - u_reserved (c_usage c) + u_transient own + shared)) ∧
  (∀ n b, route = Some n → c_route_budgets c !! n = Some b → estimated <= b ∧
     w * estimated <= Z.max 0 (b - u_reserved own + u_transient own + shared)).
Proof.
  unfold worker_capacity. rewrite !throw_if_bind.
  destruct (match max_workers with Some m => m <? 1 | None => false end) eqn:H1; [done|].
  destruct ((estimated <? 0) || (native <? 0) || (reusable <? 0)) eqn:H2; [done|].
  apply orb_false_iff in H2 as [H2 Hr]. apply orb_false_iff in H2 as [He Hn].
  apply Z.ltb_ge in He, Hn, Hr.
  rewrite get_bind, !throw_if_bind.
  destruct (c_last_memory_budget c <? estimated) eqn:H3; [done|].
  destruct (over (route ≫= λ n, c_route_budgets c !! n) estimated) eqn:H4; [done|].
  set (own := match route ≫= λ n, c_metrics c !! n with Some m => m_usage m | None => no_usage end).
  set (shared := match route ≫= λ n, c_metrics c !! n with
    | Some m => Z.min (u_resident (m_usage m)) reusable | None => 0 end).
  assert (∀ n b, route = Some n → c_route_budgets c !! n = Some b → estimated <= b) as Hb.
  { intros n b -> Hb. cbn in H4. rewrite Hb in H4. by apply Z.ltb_ge in H4. }
  assert (∀ m, max_workers = Some m → 1 <= m) as Hmax.
  { intros m ->. by apply Z.ltb_ge in H1. }
  destruct (c_memory_pressure c || c_cpu_pressure c) eqn:Hp.
  { intros [= <- <-]. split; [done|]. split; [intros m Hm; specialize (Hmax m Hm); lia|].
    split; [done|]. split; [lia|]. split; [lia|]. split; [lia|].
    intros n b Hrt Hrb. split; [by eapply Hb|lia]. }
  rewrite stm_bind_eq.
  intros E.
  assert (w = Z.max 0 (at_most max_workers
     (let slots := if native =? 0 then Z.max 0 (se_cpu e - u_cpu (c_usage c) + u_cpu own)
        else Z.min (Z.max 0 (se_cpu e - u_cpu (c_usage c) + u_cpu own))
          (Z.max 0 ((Z.min (c_native_slots c) (se_cpu e) - u_native (c_usage c) + u_native own) / native)) in
      if estimated =? 0 then slots
      else Z.min slots (Z.max 0
        (plan_memory c e (route ≫= λ n, c_route_budgets c !! n) own shared / estimated))))) as Hw.
  { unfold when in E. destruct (negb (estimated =? 0)); by injection E. }
  clear E. cbv zeta in Hw.
  assert (∀ x y, 0 < y → Z.max 0 (x / y) * y <= Z.max 0 x) as Hdiv.
  { intros x y Hy. pose proof (Z.mul_div_le x y Hy).
    destruct (Z.max_spec 0 (x / y)) as [[? ->]|[? ->]]; [|lia].
    assert (0 <= x); [|nia]. apply Z.lt_le_incl. nia. }
  set (cpu := Z.max 0 (se_cpu e - u_cpu (c_usage c) + u_cpu own)) in *.
  set (nat_left := Z.min (c_native_slots c) (se_cpu e) - u_native (c_usage c) + u_native own) in *.
  set (mem := plan_memory c e (route ≫= λ n, c_route_budgets c !! n) own shared) in *.
  assert (0 <= w ∧ w <= cpu ∧ (0 < native → w <= Z.max 0 (nat_left / native)) ∧
    (0 < estimated → w <= Z.max 0 (mem / estimated))) as (Hw0&Hcpu&Hnat&Hmem).
  { rewrite Hw. assert (0 <= cpu) by lia.
    pose proof (at_most_le max_workers) as Hle.
    destruct (native =? 0) eqn:Hn0, (estimated =? 0) eqn:He0; bool_prop;
      match goal with |- context [at_most max_workers ?x] => pose proof (Hle x) end;
      split_and!; intros; lia. }
  split; [done|]. split.
  { intros m Hm. specialize (Hmax m Hm). rewrite Hw, Hm. cbn [at_most].
    apply Z.max_lub; [lia|apply Z.le_min_r]. }
  split; [done|]. split; [done|]. split.
  { destruct (decide (native = 0)) as [->|]; [lia|]. specialize (Hdiv nat_left native). nia. }
  assert (0 < estimated → w * estimated <= Z.max 0 mem) as Hwm.
  { intros Hpos. specialize (Hdiv mem estimated Hpos). specialize (Hmem Hpos). nia. }
  assert (mem <= c_last_memory_budget c - u_reserved (c_usage c) + u_transient own + shared ∧
    ∀ n b, route = Some n → c_route_budgets c !! n = Some b →
      mem <= b - u_reserved own + u_transient own + shared) as [Hmg Hmr].
  { subst mem. unfold plan_memory.
    match goal with |- context [at_most ?b1 (at_most ?b2 ?x)] =>
      pose proof (at_most_le b1 (at_most b2 x)); pose proof (at_most_le b2 x) end.
    split.
    - destruct (route ≫= λ n, c_route_budgets c !! n); lia.
    - intros n b -> Hrb. cbn in *. rewrite Hrb in *. lia. }
  split.
  { destruct (decide (estimated = 0)) as [->|]; [lia|]. specialize (Hwm ltac:(lia)). lia. }
  intros n b Hrt Hrb. split; [by eapply Hb|]. specialize (Hmr n b Hrt Hrb).
  destruct (decide (estimated = 0)) as [->|]; [lia|]. specialize (Hwm ltac:(lia)). lia.
Qed.

(** ** A selection and a plan *)

Definition sample_selection : selection :=
  {| se_physical := Some 10000; se_commit := None; se_cpu := 4; se_disk_free := λ _, GIB;
     se_now := λ _, fzero |}.

Definition selected_run : Coordinator :=
  (next_route sample_selection (queued_run sample_request)).1.

Lemma sample_selected :
  next_route sample_selection (queued_run sample_request) = (selected_run, Ok (Some (py "pdf"))).
Proof.
  assert ((next_route sample_selection (queued_run sample_request)).2 = Ok (Some (py "pdf"))) as H
    by by vm_compute.
  unfold selected_run. exact (run_result _ _ _ H).
Qed.

Lemma sample_granted :
  grant_request 1 0 (Some fzero) (Some fzero) selected_run =
    ((grant_request 1 0 (Some fzero) (Some fzero) selected_run).1, Ok tt).
Proof.
  assert ((grant_request 1 0 (Some fzero) (Some fzero) selected_run).2 = Ok tt) as H by by vm_compute.
  exact (run_result _ _ _ H).
Qed.

Lemma next_route_policy_witness :
  next_route sample_selection (queued_run sample_request) = (selected_run, Ok (Some (py "pdf"))) ∧
  py "pdf" ∈ c_route_order (queued_run sample_request).
Proof.
  split; [exact sample_selected|].
  exact (proj1 (next_route_policy sample_selection (queued_run sample_request) selected_run
    (Some (py "pdf")) sample_selected)).
Defined.

Lemma granted_within_budgets_witness :
  u_reserved (c_usage (grant_request 1 0 (Some fzero) (Some fzero) selected_run).1) <= 1000.
Proof.
  assert (c_last_memory_budget selected_run = 1000) as <- by by vm_compute.
  destruct (granted_within_budgets sample_selection (queued_run sample_request) selected_run
    (py "pdf") 1%positive 0 (Some fzero) (Some fzero) _
    (queued_run_of sample_request (proj1 sample_request_new) eq_refl) sample_selected
    ltac:(by vm_compute) sample_granted ltac:(by vm_compute)) as (_&Hm&_).
  exact Hm.
Defined.

(** Three workers of 250 bytes fit beside the granted lease, whose transient
    bytes the plan may replace. *)
Definition sample_plan : stm Coordinator plan_error Z :=
  worker_capacity (Some (py "pdf")) (Some 9) 250 1 0 sample_selection.

Lemma sample_planned : (sample_plan granted_run).2 = Ok 3.
Proof. by vm_compute. Qed.

Lemma worker_plan_is_affordable_witness : (sample_plan granted_run).2 = Ok 3 ∧ 3 <= 9.
Proof.
  split; [exact sample_planned|].
  exact (proj1 (proj2 (worker_plan_is_affordable (Some (py "pdf")) (Some 9) 250 1 0
    sample_selection granted_run (sample_plan granted_run).1 3
    (run_result sample_plan granted_run _ sample_planned))) 9 eq_refl).
Defined.
