(* ===== verification/ResourceAdmission.v ===== *)
(** * Building an admission request (neocortex/runtime/control/resource_admission.py)

    The demand a caller declares is normalized, checked against the absolute
    ceilings of the coordinator and turned into a request, which then joins the
    queue of its route.  Every request that is built satisfies what the ledger
    assumes of a request that joins a queue. *)

From S2P Require Import Prelude IoIdentity ResourceModel ResourceLedger ResourceInit.
From S2P Require Import ResourceSchedule LedgerInvariant ReleaseInvariant LedgerSafety.

(** The arguments of [admission_scope], once [int] has converted the amounts. *)
Record demand_args : Type := {
  da_route : pystr;
  da_memory : option Z;
  da_cpu : Z;
  da_resident : Z;
  da_transient : option Z;
  da_temp : Z;
  da_native : Z;
  da_phase : option pystr;
  da_resident_key : option pystr;
  da_io : Z;
  da_io_device : device_value;
  da_gpu : Z;
  da_gpu_device : option pystr;
  da_draining : option rid;
  da_renewing : option rid;
  da_adaptive : bool;
  da_native_limit : option Z;
}.

Inductive admission_error : Type :=
| RouteNotCoordinated
| MemoryNegative
| ComponentNegative
| TransientNegative
| AggregateMismatch
| DeviceInvalid (e : device_error)
| RenewalGrows
| CpuNegative
| OverMemoryBudget
| OverRouteMemory
| OverCpuSlots
| OverNativeThreads
| OverTempBudget
| OverIoSlots
| OverGpuMemory
| EmptyPhase
| EmptyResidentKey
| ClockInvalid
| RenewalWithoutLease
| DrainGrows.

Abbreviation AM A := (stm Coordinator admission_error A).

Definition from_device {A} (r : result device_error A) : AM A :=
  lift (match r with Ok a => Ok a | Err e => Err (DeviceInvalid e) end).

(** Whether the caller declared components beside or instead of the aggregate. *)
Definition component_mode (a : demand_args) : bool :=
  (0 <? da_resident a) || (0 <? da_temp a) || (0 <? da_native a) ||
  bool_decide (is_Some (da_transient a)) || bool_decide (is_Some (da_phase a)) ||
  bool_decide (is_Some (da_resident_key a)).

(** The resident, transient and temporary bytes that are charged. *)
Definition charged_components (a : demand_args) : result admission_error (Z * Z * Z) :=
  let aggregate := default 0 (da_memory a) in
  if negb (component_mode a) then Ok (0, Z.max 1 aggregate, 0)
  else
    let transient := default (Z.max 0 (aggregate - da_resident a - da_temp a)) (da_transient a) in
    let total := da_resident a + transient + da_temp a in
    raise_if (negb (aggregate =? 0) && negb (aggregate =? total)) AggregateMismatch;;
    Ok (da_resident a, transient, da_temp a).

(** [str(text).strip()], which must not be empty when it is given. *)
Definition stripped (o : option pystr) (e : admission_error)
  : result admission_error (option pystr) :=
  match o with
  | None => Ok None
  | Some s => if bool_decide (strip s = []) then Err e else Ok (Some (strip s))
  end.

Definition check_amounts (a : demand_args) : result admission_error unit :=
  raise_if (default 0 (da_memory a) <? 0) MemoryNegative;;
  raise_if (Z.min (Z.min (Z.min (Z.min (da_resident a) (da_temp a)) (da_native a)) (da_io a))
              (da_gpu a) <? 0) ComponentNegative;;
  raise_if (match da_transient a with Some t => t <? 0 | None => false end) TransientNegative.

Definition renewing (a : demand_args) : bool := bool_decide (is_Some (da_renewing a)).

(** The absolute ceilings; a renewal may keep a width that an automatic limit
    no longer grants. *)
Definition check_ceilings (a : demand_args) (memory : Z) (c : Coordinator)
  : result admission_error unit :=
  let memory_ceiling := if c_auto_memory c then c_last_memory_budget c else c_memory_budget c in
  let cpu_ceiling := if c_auto_cpu c then c_last_cpu_capacity c else c_cpu_slots c in
  raise_if (memory_ceiling <? memory) OverMemoryBudget;;
  raise_if (over (c_route_budgets c !! da_route a) memory) OverRouteMemory;;
  raise_if ((cpu_ceiling <? da_cpu a) && (negb (renewing a) || negb (c_auto_cpu c))) OverCpuSlots;;
  raise_if ((c_native_slots c <? da_native a) && (negb (renewing a) || negb (c_auto_native c)))
    OverNativeThreads.

Definition refresh_temp_budget (temp free : Z) (c : Coordinator) : Coordinator :=
  if negb (temp =? 0) && negb (bool_decide (is_Some (l_temp_budget (c_limits c))))
  then upd c_temp_budget (λ _, free + sum_with r_temp_materialized (active_requests c)) c
  else c.

Definition build_request (a : demand_args) (resident transient temp : Z) (device : option pystr)
    (phase key : option pystr) (enqueued_ns : Z) : Request :=
  {| r_route := da_route a; r_memory := resident + transient; r_cpu := da_cpu a;
     r_enqueued_ns := enqueued_ns; r_resident := resident; r_transient := transient;
     r_temp := temp; r_native := da_native a; r_phase := phase; r_resident_key := key;
     r_resident_charge := 0; r_waited := false; r_queued := false; r_admitted := false;
     r_released := false; r_wait_accounted := false; r_io := da_io a; r_io_device := device;
     r_gpu := da_gpu a; r_gpu_device := da_gpu_device a; r_execution_active := false;
     r_processes := ∅; r_temp_materialized := 0; r_temp_file := None;
     r_draining_from := da_draining a; r_renewing_from := da_renewing a;
     r_adaptive := da_adaptive a; r_native_limit := da_native_limit a |}.

(** [admission_scope] up to the request: [observe] is the observation it makes
    when a limit is automatic, [free] the free space of the temporary
    directory. *)
Definition prepare_request (a : demand_args) (observe : Coordinator → Coordinator) (free : Z)
    (started : pyfloat) : AM Request :=
  c ← get_state;
  throw_if (negb (bool_decide (is_Some (c_queues c !! da_route a)))) RouteNotCoordinated;;
  lift (check_amounts a);;
  '(resident, transient, temp) ← lift (charged_components a);
  let memory := resident + transient in
  device ← from_device (canonical_io_device (da_io_device a));
  throw_if (renewing a && (negb (memory =? 0) || negb (temp =? 0) || negb (da_gpu a =? 0) ||
              bool_decide (is_Some (da_draining a)) || da_adaptive a)) RenewalGrows;;
  throw_if (da_cpu a <? 0) CpuNegative;;
  (if c_auto_memory c || c_auto_cpu c then modify observe else mret tt);;
  c1 ← get_state;
  lift (check_ceilings a memory c1);;
  modify (refresh_temp_budget temp free);;
  c2 ← get_state;
  throw_if (c_temp_budget c2 <? temp) OverTempBudget;;
  key ← from_device (io_device_key (device_text device));
  capacity ← from_device (io_capacity c2 key);
  throw_if (capacity <? da_io a) OverIoSlots;;
  throw_if (default 0 (c_gpu_capacity c2 !! device_or_default (da_gpu_device a)) <? da_gpu a)
    OverGpuMemory;;
  phase ← lift (stripped (da_phase a) EmptyPhase);
  resident_key ← lift (stripped (da_resident_key a) EmptyResidentKey);
  ns ← lift (or_raise (float_trunc (fmul started (float_of_int 1000000000))) ClockInvalid);
  mret (build_request a resident transient temp device phase resident_key ns).

(** Joining the queue: a drain or a renewal of a live lease of the same route
    goes to its head. *)
Definition live_source (c : Coordinator) (r : Request) (j : rid) : bool :=
  bool_decide (j ∈ c_active c) && bool_decide (r_route (request c j) = r_route r).

Definition join_queue (i : rid) (r : Request) : AM unit :=
  c ← get_state;
  throw_if (match r_renewing_from r with Some j => negb (live_source c r j) | None => false end)
    RenewalWithoutLease;;
  throw_if (match r_draining_from r with
            | Some j => negb (live_source c r j) || negb (r_memory r =? 0) || negb (r_temp r =? 0) ||
                        negb (r_gpu r =? 0) || (1 <? Z.max (Z.max (r_cpu r) (r_native r)) (r_io r))
            | None => false
            end) DrainGrows;;
  modify (enqueue i r (bool_decide (is_Some (r_draining_from r)) ||
                       bool_decide (is_Some (r_renewing_from r)))).

(** ** What admission builds *)

Lemma check_amounts_ok a :
  check_amounts a = Ok tt →
  0 <= default 0 (da_memory a) ∧ 0 <= da_resident a ∧ 0 <= da_temp a ∧ 0 <= da_native a ∧
  0 <= da_io a ∧ 0 <= da_gpu a ∧ ∀ t, da_transient a = Some t → 0 <= t.
Proof.
  unfold check_amounts. intros H. apply bind_ok in H as ([]&H1%raise_if_ok&H).
  apply bind_ok in H as ([]&H2%raise_if_ok&H3%raise_if_ok). apply Z.ltb_ge in H1, H2.
  split; [done|]. repeat (split; [lia|]). intros t Ht. rewrite Ht in H3. by apply Z.ltb_ge in H3.
Qed.

#[export] Instance Ok_inj {E A} : Inj (=) (=) (@Ok E A).
Proof. by intros x y [= ->]. Qed.

Lemma charged_components_ok a r t p :
  check_amounts a = Ok tt → charged_components a = Ok (r, t, p) → 0 <= r ∧ 0 <= t ∧ 0 <= p.
Proof.
  intros H1 H2. destruct (check_amounts_ok a H1) as (_&Hr&Hp&_&_&_&Ht).
  unfold charged_components in H2. destruct (negb (component_mode a)).
  { apply (inj Ok) in H2. injection H2 as <- <- <-. lia. }
  apply bind_ok in H2 as ([]&_&H2). apply (inj Ok) in H2. injection H2 as <- <- <-.
  split; [done|]. split; [|done]. destruct (da_transient a) as [t|]; cbn; [by apply Ht|lia].
Qed.

Lemma canonical_key_default v o :
  canonical_io_device v = Ok o → io_device_key (device_text o) = Ok (device_or_default o).
Proof.
  intros H. destruct o as [k|]; [|done]. unfold io_device_key, device_text.
  by rewrite (canonical_fixed v k H).
Qed.

(** The ceilings an admitted demand respects, in the state it was checked in. *)
Record within_ceilings (a : demand_args) (r : Request) (c : Coordinator) : Prop := {
  wc_memory : r_memory r <= (if c_auto_memory c then c_last_memory_budget c else c_memory_budget c);
  wc_route : ∀ b, c_route_budgets c !! r_route r = Some b → r_memory r <= b;
  wc_cpu : r_cpu r <= (if c_auto_cpu c then c_last_cpu_capacity c else c_cpu_slots c) ∨
           is_Some (da_renewing a) ∧ c_auto_cpu c = true;
  wc_native : r_native r <= c_native_slots c ∨ is_Some (da_renewing a) ∧ c_auto_native c = true;
  wc_temp : r_temp r <= c_temp_budget c;
  wc_io : ∃ n, io_capacity c (device_or_default (r_io_device r)) = Ok n ∧ r_io r <= n;
  wc_gpu : r_gpu r <= default 0 (c_gpu_capacity c !! device_or_default (r_gpu_device r));
}.

Lemma check_ceilings_ok a memory c :
  check_ceilings a memory c = Ok tt →
  memory <= (if c_auto_memory c then c_last_memory_budget c else c_memory_budget c) ∧
  (∀ b, c_route_budgets c !! da_route a = Some b → memory <= b) ∧
  (da_cpu a <= (if c_auto_cpu c then c_last_cpu_capacity c else c_cpu_slots c) ∨
     is_Some (da_renewing a) ∧ c_auto_cpu c = true) ∧
  (da_native a <= c_native_slots c ∨ is_Some (da_renewing a) ∧ c_auto_native c = true).
Proof.
  assert (∀ x y auto, (x <? y) && (negb (renewing a) || negb auto) = false →
    y <= x ∨ is_Some (da_renewing a) ∧ auto = true) as Hw.
  { intros x y auto H. apply andb_false_iff in H as [H%Z.ltb_ge|H]; [by left|right].
    apply orb_false_iff in H as [H%negb_false_iff H'%negb_false_iff].
    by apply bool_decide_eq_true in H. }
  unfold check_ceilings. intros H. apply bind_ok in H as ([]&H1%raise_if_ok&H).
  apply bind_ok in H as ([]&H2%raise_if_ok&H).
  apply bind_ok in H as ([]&H3%raise_if_ok&H4%raise_if_ok).
  split; [by apply Z.ltb_ge in H1|]. split; [|split; by apply Hw].
  intros b Hb. rewrite Hb in H2. by apply Z.ltb_ge in H2.
Qed.

(** C40: every request that admission builds is well formed and within the
    ceilings: no amount is negative, the memory charged is exactly the resident
    plus the transient bytes, the route is registered, the device key is
    canonical, a renewal or drain is recorded as such, and the memory (also that
    of the route), the temporary space, the I/O slots and the GPU memory fit
    their budgets.  The CPU and the native slots fit theirs too, except for a
    renewal where that limit is automatic, which is not held to it. *)
Theorem prepared_request_well_formed a observe free started c c' r :
  prepare_request a observe free started c = (c', Ok r) →
  new_request r ∧ is_Some (c_queues c !! r_route r) ∧
  r_memory r = r_resident r + r_transient r ∧
  io_device_key (device_text (r_io_device r)) = Ok (device_or_default (r_io_device r)) ∧
  r_draining_from r = da_draining a ∧ r_renewing_from r = da_renewing a ∧
  within_ceilings a r c'.
Proof.
  unfold prepare_request. rewrite get_bind, throw_if_bind.
  destruct (bool_decide (is_Some (c_queues c !! da_route a))) eqn:Hroute; cbn [negb]; [|done].
  apply bool_decide_eq_true in Hroute. rewrite lift_bind.
  destruct (check_amounts a) as [[]|] eqn:Ham; [|done]. rewrite lift_bind.
  destruct (charged_components a) as [[[resident transient] temp]|] eqn:Hcc; [|done].
  destruct (charged_components_ok a _ _ _ Ham Hcc) as (Hr&Ht&Hp).
  unfold from_device. rewrite lift_bind.
  destruct (canonical_io_device (da_io_device a)) as [device|] eqn:Hdev; [|done].
  rewrite throw_if_bind. destruct (renewing a && _) eqn:Hren; [done|].
  rewrite throw_if_bind. destruct (da_cpu a <? 0) eqn:Hcpu; [done|].
  rewrite stm_bind_eq.
  destruct ((if c_auto_memory c || c_auto_cpu c then modify observe else mret tt) c)
    as [c1 [[]|]] eqn:Hobs; [|done].
  rewrite get_bind, lift_bind.
  destruct (check_ceilings a (resident + transient) c1) as [[]|] eqn:Hceil; [|done].
  rewrite modify_bind, get_bind, throw_if_bind. set (c2 := refresh_temp_budget temp free c1).
  destruct (c_temp_budget c2 <? temp) eqn:Htemp; [done|].
  rewrite (canonical_key_default _ _ Hdev), lift_bind, lift_bind.
  destruct (io_capacity c2 (device_or_default device)) as [n|] eqn:Hn; [|done].
  rewrite throw_if_bind. destruct (n <? da_io a) eqn:Hio; [done|].
  rewrite throw_if_bind. destruct (_ <? da_gpu a) eqn:Hgpu; [done|].
  rewrite lift_bind. destruct (stripped (da_phase a) _) as [phase|]; [|done].
  rewrite lift_bind. destruct (stripped (da_resident_key a) _) as [key|]; [|done].
  rewrite lift_bind. destruct (or_raise _ _) as [ns|]; [|done]. intros [= <- <-].
  destruct (check_amounts_ok a Ham) as (_&_&_&Hnat&Hio0&Hgpu0&_).
  destruct (check_ceilings_ok _ _ _ Hceil) as (M&B&C&N).
  assert (c_auto_memory c2 = c_auto_memory c1 ∧ c_last_memory_budget c2 = c_last_memory_budget c1 ∧
    c_memory_budget c2 = c_memory_budget c1 ∧ c_route_budgets c2 = c_route_budgets c1 ∧
    c_auto_cpu c2 = c_auto_cpu c1 ∧ c_last_cpu_capacity c2 = c_last_cpu_capacity c1 ∧
    c_cpu_slots c2 = c_cpu_slots c1 ∧ c_native_slots c2 = c_native_slots c1 ∧
    c_auto_native c2 = c_auto_native c1) as (E1&E2&E3&E4&E5&E6&E7&E8&E9).
  { subst c2. unfold refresh_temp_budget. destruct (negb (temp =? 0) && _); split_and!; reflexivity. }
  apply Z.ltb_ge in Htemp, Hio, Hgpu, Hcpu.
  split; [by split|]. split; [done|]. split; [done|].
  split; [by apply (canonical_key_default _ _ Hdev)|]. split; [done|]. split; [done|].
  split; [| | | |done|by exists n|done]; cbn; rewrite ?E1, ?E2, ?E3, ?E4, ?E5, ?E6, ?E7, ?E8, ?E9;
    assumption.
Qed.

(** Joining the queue keeps the ledger coherent, and a drain that joins
    claims no memory, temporary space or GPU, at most one slot of each kind, and
    finalizes a live lease of its own route, ahead of the queued work. *)
Theorem joining_is_safe i r c c' :
  coherent c → c_requests c !! i = None → new_request r → is_Some (c_queues c !! r_route r) →
  join_queue i r c = (c', Ok tt) →
  coherent c' ∧ i ∈ queue c' (r_route r) ∧
  ∀ j, r_draining_from r = Some j →
    j ∈ c_active c ∧ r_route (request c j) = r_route r ∧ r_memory r = 0 ∧ r_temp r = 0 ∧
    r_gpu r = 0 ∧ r_cpu r <= 1 ∧ r_native r <= 1 ∧ r_io r <= 1 ∧ queue_head c' (r_route r) = Some i.
Proof.
  intros [T I] Hfresh Hnew Hq. unfold join_queue. rewrite get_bind, !throw_if_bind.
  destruct (match r_renewing_from r with Some j => _ | None => _ end); [done|].
  destruct (match r_draining_from r with Some j => _ | None => _ end) eqn:Hd; [done|].
  intros [-> _]%modify_ok. set (front := _ || _).
  pose proof (proj1 (tb_queues _ T _) Hq) as Ho.
  destruct (enqueue_step c i r front I Hfresh Hnew Hq) as [S Hin]; [by apply (tb_metrics _ T)|].
  split; [split; [eapply tables_kept; [exact T|apply enqueue_tables]|by eapply ledger_step_inv]|].
  split; [done|]. intros j Hj. rewrite Hj in Hd.
  repeat (apply orb_false_iff in Hd as [Hd ?]). bool_prop.
  apply andb_true_iff in Hd as [Ha Hr]. apply bool_decide_eq_true in Ha, Hr.
  repeat (split; [done || lia|]).
  assert (front = true) as ->.
  { subst front. rewrite Hj. by rewrite bool_decide_eq_true_2 by by eexists. }
  unfold queue_head, queue. cbn. rewrite lookup_alter_eq. destruct Hq as [q ->]. done.
Qed.

(** ** An admission *)

Definition sample_demand : demand_args :=
  {| da_route := py "pdf"; da_memory := None; da_cpu := 1; da_resident := 100;
     da_transient := Some 50; da_temp := 20; da_native := 1; da_phase := Some (py " read ");
     da_resident_key := Some (py "model"); da_io := 1; da_io_device := DText (py "2049");
     da_gpu := 0; da_gpu_device := None; da_draining := None; da_renewing := None;
     da_adaptive := false; da_native_limit := None |}.

Definition sample_prepared : AM Request :=
  prepare_request sample_demand (λ c, c) GIB (float_of_int 0).

Lemma sample_prepares : (sample_prepared sample_coordinator).2 = Ok sample_request.
Proof. by vm_compute. Qed.

Lemma prepared_request_well_formed_witness :
  (sample_prepared sample_coordinator).2 = Ok sample_request ∧ new_request sample_request.
Proof.
  split; [exact sample_prepares|].
  exact (proj1 (prepared_request_well_formed sample_demand (λ c, c) GIB (float_of_int 0)
    sample_coordinator _ sample_request (run_result sample_prepared sample_coordinator _ sample_prepares))).
Defined.

Lemma sample_joins : (join_queue 1 sample_request sample_coordinator).2 = Ok tt.
Proof. by vm_compute. Qed.

Lemma joining_is_safe_witness :
  coherent (join_queue 1 sample_request sample_coordinator).1 ∧
  1%positive ∈ queue (join_queue 1 sample_request sample_coordinator).1 (py "pdf").
Proof.
  destruct (joining_is_safe 1 sample_request sample_coordinator
    (join_queue 1 sample_request sample_coordinator).1) as (H1&H2&_).
  - apply new_coordinator_coherent. apply (bool_decide_eq_true (NoDup sample_routes)).
    by vm_compute.
  - by vm_compute.
  - apply sample_request_new.
  - exists []. by vm_compute.
  - exact (run_result (join_queue 1 sample_request) sample_coordinator _ sample_joins).
  - split; [exact H1|exact H2].
Defined.
