(* ===== verification/ZipStructure.v ===== *)
(** * ZIP structure preflight (neocortex/platform/zip_safety.py)

    The bounded validation of the end record, of the ZIP64 records and of every
    central directory entry against its local header, before any member is
    materialized.  A source is the list of its bytes: every read of the code
    seeks first, and [inspect_zip_stream] restores the position it found. *)

From S2P Require Import Prelude.

(** ** Bounds *)

Definition EOCD_SIGNATURE : list byte := z2b <$> [80; 75; 5; 6].
Definition ZIP64_EOCD_SIGNATURE : list byte := z2b <$> [80; 75; 6; 6].
Definition ZIP64_LOCATOR_SIGNATURE : list byte := z2b <$> [80; 75; 6; 7].
Definition LOCAL_FILE_SIGNATURE : list byte := z2b <$> [80; 75; 3; 4].
Definition CENTRAL_SIGNATURE : list byte := z2b <$> [80; 75; 1; 2].
Definition EOCD_FIXED_BYTES : Z := 22.
Definition MAX_ZIP_COMMENT_BYTES : Z := 65535.
Definition ZIP64_LOCATOR_BYTES : Z := 20.
Definition ZIP64_EOCD_MIN_BYTES : Z := 56.
Definition DEFAULT_MAX_CENTRAL_DIRECTORY_BYTES : Z := 32 * 1024 * 1024.
Definition LOCAL_FILE_BYTES : Z := 30.
Definition CENTRAL_DIRECTORY_BYTES : Z := 46.
Definition ZIP64_EXTRA_FIELD_ID : Z := 1.
Definition NO32 : Z := 4294967295.
Definition NO16 : Z := 65535.

(** The refusals, in the order the source makes them; [OutOfFuel] is a loop
    that did not end, which [inspection_terminates] excludes. *)
Inductive zip_error : Type :=
| FileSizeNegative | MaxMembersNotPositive | MaxDirectoryNotPositive
| FileTooSmall | TruncatedMetadata | EndRecordNotFound | EndRecordNotAtEnd | MultiDisk
| LocatorMissing | Zip64RecordOutside | Zip64RecordInvalid | Zip64RecordNotAdjacent
| CountsInconsistent | SizesInconsistent | OffsetsInconsistent
| TooManyMembers | DirectoryTooLarge | DirectoryOutside | DirectoryNotAtEnd
| TruncatedCentralRecord | CentralSignature | CentralRecordBeyond | MoreThanDeclared
| NameNotDecodable | NameHasNul
| TruncatedExtraHeader | ExtraBeyondRecord | DuplicateZip64Extra | MissingZip64Extra
| TruncatedZip64Extra | MultiDiskMember
| LocalHeaderOutside | TruncatedLocalHeader | LocalSignature | LocalHeaderInDirectory
| PayloadOutside | CompressedDisagree | UncompressedDisagree | PayloadBeyondFile
| SharedLocalHeader | DirectoryLength | CountDisagrees
| OutOfFuel.

Abbreviation R A := (result zip_error A).

(** ** Reading fields *)

(** The little-endian field of [w] bytes at [off]. *)
Definition field (bs : list byte) (off w : nat) : Z := le_int (take w (drop off bs)).

Definition signature (bs : list byte) : list byte := take 4 bs.

Record Eocd : Type := {
  e_disk : Z; e_central_disk : Z; e_disk_members : Z; e_members : Z;
  e_central_size : Z; e_central_offset : Z; e_comment : Z;
}.

(** [_EOCD = Struct("<4s4H2IH")], without the signature. *)
Definition unpack_eocd (bs : list byte) : Eocd :=
  {| e_disk := field bs 4 2; e_central_disk := field bs 6 2; e_disk_members := field bs 8 2;
     e_members := field bs 10 2; e_central_size := field bs 12 4;
     e_central_offset := field bs 16 4; e_comment := field bs 20 2 |}.

Record Zip64Record : Type := {
  z_signature : list byte; z_size : Z; z_disk : Z; z_central_disk : Z;
  z_disk_members : Z; z_members : Z; z_central_size : Z; z_central_offset : Z;
}.

(** [_ZIP64_EOCD = Struct("<4sQ2H2I4Q")] *)
Definition unpack_zip64 (bs : list byte) : Zip64Record :=
  {| z_signature := signature bs; z_size := field bs 4 8; z_disk := field bs 16 4;
     z_central_disk := field bs 20 4; z_disk_members := field bs 24 8;
     z_members := field bs 32 8; z_central_size := field bs 40 8;
     z_central_offset := field bs 48 8 |}.

Record Central : Type := {
  cd_signature : list byte; cd_flags : Z; cd_compression : Z; cd_crc32 : Z;
  cd_compressed : Z; cd_uncompressed : Z; cd_name : Z; cd_extra : Z; cd_comment : Z;
  cd_disk : Z; cd_local_offset : Z;
}.

(** [_CENTRAL_DIRECTORY = Struct("<4s6H3I5H2I")] *)
Definition unpack_central (bs : list byte) : Central :=
  {| cd_signature := signature bs; cd_flags := field bs 8 2; cd_compression := field bs 10 2;
     cd_crc32 := field bs 16 4; cd_compressed := field bs 20 4; cd_uncompressed := field bs 24 4;
     cd_name := field bs 28 2; cd_extra := field bs 30 2; cd_comment := field bs 32 2;
     cd_disk := field bs 34 2; cd_local_offset := field bs 42 4 |}.

Record Local : Type := {
  lf_signature : list byte; lf_flags : Z; lf_compression : Z; lf_compressed : Z;
  lf_uncompressed : Z; lf_name : Z; lf_extra : Z;
}.

(** [_LOCAL_FILE = Struct("<4s5H3I2H")] *)
Definition unpack_local (bs : list byte) : Local :=
  {| lf_signature := signature bs; lf_flags := field bs 6 2; lf_compression := field bs 8 2;
     lf_compressed := field bs 18 4; lf_uncompressed := field bs 22 4;
     lf_name := field bs 26 2; lf_extra := field bs 28 2 |}.

Definition read_exact (source : list byte) (offset len : Z) : R (list byte) :=
  let payload := take (Z.to_nat len) (drop (Z.to_nat offset) source) in
  raise_if (negb (zlen payload =? len)) TruncatedMetadata;;
  Ok payload.

(** ** Member names *)

(** The upper half of code page 437. *)
Definition CP437_HIGH : list Z :=
  [199; 252; 233; 226; 228; 224; 229; 231; 234; 235; 232; 239; 238; 236; 196; 197; 201; 230; 198;
   244; 246; 242; 251; 249; 255; 214; 220; 162; 163; 165; 8359; 402; 225; 237; 243; 250; 241; 209;
   170; 186; 191; 8976; 172; 189; 188; 161; 171; 187; 9617; 9618; 9619; 9474; 9508; 9569; 9570;
   9558; 9557; 9571; 9553; 9559; 9565; 9564; 9563; 9488; 9492; 9524; 9516; 9500; 9472; 9532; 9566;
   9567; 9562; 9556; 9577; 9574; 9568; 9552; 9580; 9575; 9576; 9572; 9573; 9561; 9560; 9554; 9555;
   9579; 9578; 9496; 9484; 9608; 9604; 9612; 9616; 9600; 945; 223; 915; 960; 931; 963; 181; 964;
   934; 920; 937; 948; 8734; 966; 949; 8745; 8801; 177; 8805; 8804; 8992; 8993; 247; 8776; 176;
   8729; 183; 8730; 8319; 178; 9632; 160].

Definition cp437_char (b : Z) : Z := if b <? 128 then b else CP437_HIGH !!! Z.to_nat (b - 128).

Definition within (lo hi b : Z) : bool := (lo <=? b) && (b <=? hi).
Definition continuation (b : Z) : bool := within 128 191 b.

(** [bytes.decode("utf-8", "strict")]: overlong forms, surrogates and code
    points past U+10FFFF are refused. *)
Fixpoint utf8_decode (bs : list Z) : option pystr :=
  match bs with
  | [] => Some []
  | b :: r1 =>
      if b <? 128 then cons b <$> utf8_decode r1
      else match r1 with
      | [] => None
      | c1 :: r2 =>
          if within 194 223 b then
            if continuation c1
            then cons ((b - 192) * 64 + (c1 - 128)) <$> utf8_decode r2 else None
          else match r2 with
          | [] => None
          | c2 :: r3 =>
              if within 224 239 b then
                if within (if b =? 224 then 160 else 128) (if b =? 237 then 159 else 191) c1 &&
                   continuation c2
                then cons ((b - 224) * 4096 + (c1 - 128) * 64 + (c2 - 128)) <$> utf8_decode r3
                else None
              else match r3 with
              | [] => None
              | c3 :: r4 =>
                  if within 240 244 b &&
                     within (if b =? 240 then 144 else 128) (if b =? 244 then 143 else 191) c1 &&
                     continuation c2 && continuation c3
                  then cons ((b - 240) * 262144 + (c1 - 128) * 4096 + (c2 - 128) * 64 + (c3 - 128))
                         <$> utf8_decode r4
                  else None
              end
          end
      end
  end.

Definition decode_name (flags : Z) (raw : list byte) : option pystr :=
  if Z.testbit flags 11 then utf8_decode (b2z <$> raw) else Some (cp437_char ∘ b2z <$> raw).

Definition ends_with_slash (name : pystr) : bool := bool_decide (last name = Some 47).

(** ** The end record *)

(** The [while True] loop: the last signature whose record and comment fit. *)
Fixpoint eocd_search (fuel : nat) (tail : list byte) (search_end : nat) : R (nat * Eocd) :=
  match fuel with
  | O => Err OutOfFuel
  | S fuel' =>
      match rfind EOCD_SIGNATURE (take search_end tail) search_end with
      | None => Err EndRecordNotFound
      | Some index =>
          let values := unpack_eocd (drop index tail) in
          if (Z.of_nat index + EOCD_FIXED_BYTES <=? zlen tail) &&
             (Z.of_nat index + EOCD_FIXED_BYTES + e_comment values <=? zlen tail)
          then Ok (index, values)
          else eocd_search fuel' tail index
      end
  end.

Definition find_eocd (source : list byte) (file_size : Z) : R (Z * Eocd) :=
  let tail_size := Z.min file_size (EOCD_FIXED_BYTES + MAX_ZIP_COMMENT_BYTES) in
  let tail_offset := file_size - tail_size in
  tail ← read_exact source tail_offset tail_size;
  '(index, values) ← eocd_search (S (length tail)) tail (length tail);
  Ok (tail_offset + Z.of_nat index, values).

(** ** ZIP64 *)

(** The record the locator names, when it is one and ends at the locator. *)
Definition located_record (source : list byte) (raw_offset locator_offset file_size : Z)
  : R (option Zip64Record) :=
  if raw_offset + ZIP64_EOCD_MIN_BYTES <=? file_size then
    candidate ← read_exact source raw_offset ZIP64_EOCD_MIN_BYTES;
    let r := unpack_zip64 candidate in
    Ok (if bool_decide (signature candidate = ZIP64_EOCD_SIGNATURE) && (44 <=? z_size r) &&
           (raw_offset + 12 + z_size r =? locator_offset)
        then Some r else None)
  else Ok None.

(** [_zip64_details] *)
Definition zip64_details (source : list byte) (eocd_offset file_size : Z)
  : R (Z * Z * Z * Z) :=
  let locator_offset := eocd_offset - ZIP64_LOCATOR_BYTES in
  raise_if (locator_offset <? 0) LocatorMissing;;
  locator ← read_exact source locator_offset ZIP64_LOCATOR_BYTES;
  raise_if (negb (bool_decide (signature locator = ZIP64_LOCATOR_SIGNATURE))) LocatorMissing;;
  raise_if (negb (field locator 4 4 =? 0) || negb (field locator 16 4 =? 1)) MultiDisk;;
  let raw_offset := field locator 8 8 in
  found ← located_record source raw_offset locator_offset file_size;
  '(record, physical) ←
    match found with
    | Some r => Ok (r, raw_offset)
    | None =>
        let physical := locator_offset - ZIP64_EOCD_MIN_BYTES in
        raise_if (physical <? 0) Zip64RecordOutside;;
        bs ← read_exact source physical ZIP64_EOCD_MIN_BYTES;
        Ok (unpack_zip64 bs, physical)
    end;
  raise_if (negb (bool_decide (z_signature record = ZIP64_EOCD_SIGNATURE)) || (z_size record <? 44))
    Zip64RecordInvalid;;
  let record_end := physical + 12 + z_size record in
  raise_if (negb (record_end =? locator_offset)) Zip64RecordNotAdjacent;;
  raise_if (negb (z_disk record =? 0) || negb (z_central_disk record =? 0) ||
            negb (z_disk_members record =? z_members record)) MultiDisk;;
  raise_if (file_size <? record_end) Zip64RecordOutside;;
  Ok (z_members record, z_central_size record, z_central_offset record, physical).

(** The walk over the extra fields: the ZIP64 value, if there is one. *)
Fixpoint extra_fields (fuel : nat) (extra : list byte) (found : option (list byte))
  : R (option (list byte)) :=
  if bool_decide (extra = []) then Ok found else
  match fuel with
  | O => Err OutOfFuel
  | S fuel' =>
      raise_if (zlen extra <? 4) TruncatedExtraHeader;;
      let len := field extra 2 2 in
      raise_if (zlen extra <? 4 + len) ExtraBeyondRecord;;
      found' ← (if field extra 0 2 =? ZIP64_EXTRA_FIELD_ID
                then raise_if (bool_decide (is_Some found)) DuplicateZip64Extra;;
                     Ok (Some (take (Z.to_nat len) (drop 4 extra)))
                else Ok found);
      extra_fields fuel' (drop (Z.to_nat (4 + len)) extra) found'
  end.

(** [take(width)] of the ZIP64 value, when the 32-bit field asks for it. *)
Definition take_wide (needed : bool) (width : nat) (old : Z) (payload : list byte)
  : R (Z * list byte) :=
  if needed then
    raise_if (zlen payload <? Z.of_nat width) TruncatedZip64Extra;;
    Ok (le_int (take width payload), drop width payload)
  else Ok (old, payload).

(** [_zip64_entry_values]: compressed and uncompressed size, local header
    offset and disk number. *)
Definition zip64_entry_values (central : Central) (extra : list byte) : R (Z * Z * Z * Z) :=
  found ← extra_fields (length extra) extra None;
  let needs_uncompressed := cd_uncompressed central =? NO32 in
  let needs_compressed := cd_compressed central =? NO32 in
  let needs_offset := cd_local_offset central =? NO32 in
  let needs_disk := cd_disk central =? NO16 in
  if negb (needs_uncompressed || needs_compressed || needs_offset || needs_disk)
  then Ok (cd_compressed central, cd_uncompressed central, cd_local_offset central, cd_disk central)
  else
    payload ← or_raise found MissingZip64Extra;
    '(uncompressed, payload) ← take_wide needs_uncompressed 8 (cd_uncompressed central) payload;
    '(compressed, payload) ← take_wide needs_compressed 8 (cd_compressed central) payload;
    '(offset, payload) ← take_wide needs_offset 8 (cd_local_offset central) payload;
    '(disk, _) ← take_wide needs_disk 4 (cd_disk central) payload;
    Ok (compressed, uncompressed, offset, disk).

(** ** Members *)

Record ZipMemberStructure : Type := {
  ordinal : Z;
  filename : pystr;
  header_offset : Z;
  payload_offset : Z;
  compressed_size : Z;
  uncompressed_size : Z;
  crc32 : Z;
  compression_method : Z;
  flags : Z;
  upper_bound : Z;
  is_directory : bool;
}.

Record ZipStructure : Type := {
  members : Z;
  central_directory_bytes : Z;
  central_directory_offset : Z;
  zip64 : bool;
  entries : list ZipMemberStructure;
}.

(** A local size of 2^32 - 1 defers to the central record. *)
Definition disagrees (size expected : Z) : bool := negb (size =? NO32) && negb (size =? expected).

(** [_validate_central_member] *)
Definition validate_central_member (source : list byte) (central : Central) (ordinal : Z)
    (name_offset : option Z) (extra_offset directory adjustment file_size : Z)
  : R ZipMemberStructure :=
  let name_offset := default (extra_offset - cd_name central) name_offset in
  raw_name ← read_exact source name_offset (cd_name central);
  name ← or_raise (decode_name (cd_flags central) raw_name) NameNotDecodable;
  raise_if (bool_decide (0 ∈ name)) NameHasNul;;
  raise_if (negb (bool_decide (cd_signature central = CENTRAL_SIGNATURE))) CentralSignature;;
  extra ← read_exact source extra_offset (cd_extra central);
  '(compressed, uncompressed, local_offset, disk) ← zip64_entry_values central extra;
  raise_if (negb (disk =? 0)) MultiDiskMember;;
  let header := local_offset + adjustment in
  raise_if ((header <? 0) || (directory <=? header)) LocalHeaderOutside;;
  raise_if (directory <? header + LOCAL_FILE_BYTES) TruncatedLocalHeader;;
  bs ← read_exact source header LOCAL_FILE_BYTES;
  let local := unpack_local bs in
  raise_if (negb (bool_decide (lf_signature local = LOCAL_FILE_SIGNATURE))) LocalSignature;;
  let payload := header + LOCAL_FILE_BYTES + lf_name local + lf_extra local in
  raise_if (directory <? payload) LocalHeaderInDirectory;;
  raise_if (directory - payload <? compressed) PayloadOutside;;
  (if negb (Z.testbit (lf_flags local) 3) then
     raise_if (disagrees (lf_compressed local) compressed) CompressedDisagree;;
     raise_if (disagrees (lf_uncompressed local) uncompressed) UncompressedDisagree
   else Ok tt);;
  raise_if (file_size <? payload + compressed) PayloadBeyondFile;;
  Ok {| ordinal := ordinal; filename := name; header_offset := header; payload_offset := payload;
        compressed_size := compressed; uncompressed_size := uncompressed;
        crc32 := cd_crc32 central; compression_method := cd_compression central;
        flags := cd_flags central; upper_bound := directory;
        is_directory := ends_with_slash name |}.

(** ** The central directory *)

(** What every record is checked against. *)
Record directory_bounds : Type := {
  b_offset : Z;
  b_end : Z;
  b_declared : Z;
  b_max_members : Z;
  b_adjustment : Z;
  b_file_size : Z;
}.

(** One pass of the [while cursor < central_end] loop: the entry of the record
    at the cursor and the length of the record. *)
Definition central_record (source : list byte) (b : directory_bounds) (cursor count : Z)
    (seen : gset Z) : R (ZipMemberStructure * Z) :=
  let remaining := b_end b - cursor in
  raise_if (remaining <? CENTRAL_DIRECTORY_BYTES) TruncatedCentralRecord;;
  bs ← read_exact source cursor CENTRAL_DIRECTORY_BYTES;
  let central := unpack_central bs in
  raise_if (negb (bool_decide (cd_signature central = CENTRAL_SIGNATURE))) CentralSignature;;
  let len := CENTRAL_DIRECTORY_BYTES + cd_name central + cd_extra central + cd_comment central in
  raise_if (remaining <? len) CentralRecordBeyond;;
  raise_if (b_max_members b <? count + 1) TooManyMembers;;
  raise_if (b_declared b <? count + 1) MoreThanDeclared;;
  entry ← validate_central_member source central count (Some (cursor + CENTRAL_DIRECTORY_BYTES))
            (cursor + CENTRAL_DIRECTORY_BYTES + cd_name central) (b_offset b) (b_adjustment b)
            (b_file_size b);
  raise_if (bool_decide (header_offset entry ∈ seen)) SharedLocalHeader;;
  Ok (entry, len).

Fixpoint central_loop (fuel : nat) (source : list byte) (b : directory_bounds)
    (cursor count : Z) (seen : gset Z) (acc : list ZipMemberStructure)
  : R (Z * Z * list ZipMemberStructure) :=
  if b_end b <=? cursor then Ok (cursor, count, acc) else
  match fuel with
  | O => Err OutOfFuel
  | S fuel' =>
      '(entry, len) ← central_record source b cursor count seen;
      central_loop fuel' source b (cursor + len) (count + 1)
        ({[header_offset entry]} ∪ seen) (acc ++ [entry])
  end.

(** [sorted(entries, key=header_offset)], stable. *)
Fixpoint insert_by_offset (e : ZipMemberStructure) (l : list ZipMemberStructure)
  : list ZipMemberStructure :=
  match l with
  | [] => [e]
  | x :: l' => if header_offset e <=? header_offset x then e :: l else x :: insert_by_offset e l'
  end.

Definition sort_by_offset (l : list ZipMemberStructure) : list ZipMemberStructure :=
  foldr insert_by_offset [] l.

(** The offset each header must not be read past: the next header, or the
    central directory after the last one. *)
Fixpoint upper_bounds (directory : Z) (l : list ZipMemberStructure) : gmap Z Z :=
  match l with
  | [] => ∅
  | e :: rest =>
      let next := match rest with e' :: _ => header_offset e' | [] => directory end in
      <[header_offset e := next]> (upper_bounds directory rest)
  end.

Definition with_upper_bound (u : Z) (e : ZipMemberStructure) : ZipMemberStructure :=
  {| ordinal := ordinal e; filename := filename e; header_offset := header_offset e;
     payload_offset := payload_offset e; compressed_size := compressed_size e;
     uncompressed_size := uncompressed_size e; crc32 := crc32 e;
     compression_method := compression_method e; flags := flags e; upper_bound := u;
     is_directory := is_directory e |}.

(** [_inspect_central_directory].  A record takes at least one byte of the
    directory, so its length is fuel enough. *)
Definition inspect_central_directory (source : list byte) (b : directory_bounds)
  : R (list ZipMemberStructure) :=
  '(cursor, count, found) ←
    central_loop (Z.to_nat (b_end b - b_offset b)) source b (b_offset b) 0 ∅ [];
  raise_if (negb (cursor =? b_end b)) DirectoryLength;;
  raise_if (negb (count =? b_declared b)) CountDisagrees;;
  let bounds := upper_bounds (b_offset b) (sort_by_offset found) in
  Ok ((λ e, with_upper_bound (bounds !!! header_offset e) e) <$> found).

(** ** Validation *)

(** A 16-bit or 32-bit field that is not the ZIP64 marker must agree with the
    ZIP64 record. *)
Definition conflicts (marker value wide : Z) : bool := negb (value =? marker) && negb (value =? wide).

Definition is_zip64 (e : Eocd) : bool :=
  (e_disk_members e =? NO16) || (e_members e =? NO16) ||
  (e_central_size e =? NO32) || (e_central_offset e =? NO32).

(** The member count, the size and the offset of the directory, and where the
    directory must end. *)
Definition directory_values (source : list byte) (eocd_offset file_size : Z) (e : Eocd)
  : R (Z * Z * Z * Z) :=
  if is_zip64 e then
    '(wide_members, wide_size, wide_offset, record_offset) ←
      zip64_details source eocd_offset file_size;
    raise_if (conflicts NO16 (e_disk_members e) wide_members) CountsInconsistent;;
    raise_if (conflicts NO16 (e_members e) wide_members) CountsInconsistent;;
    raise_if (conflicts NO32 (e_central_size e) wide_size) SizesInconsistent;;
    raise_if (conflicts NO32 (e_central_offset e) wide_offset) OffsetsInconsistent;;
    Ok (wide_members, wide_size, wide_offset, record_offset)
  else
    raise_if (negb (e_disk_members e =? e_members e)) MultiDisk;;
    Ok (e_members e, e_central_size e, e_central_offset e, eocd_offset).

(** [_inspect_zip_source] *)
Definition inspect_zip_source (source : list byte) (file_size max_members max_directory : Z)
  : R ZipStructure :=
  raise_if (file_size <? 0) FileSizeNegative;;
  raise_if (max_members <? 1) MaxMembersNotPositive;;
  raise_if (max_directory <? 1) MaxDirectoryNotPositive;;
  raise_if (file_size <? EOCD_FIXED_BYTES) FileTooSmall;;
  '(eocd_offset, e) ← find_eocd source file_size;
  raise_if (negb (eocd_offset + EOCD_FIXED_BYTES + e_comment e =? file_size)) EndRecordNotAtEnd;;
  raise_if (negb (e_disk e =? 0) || negb (e_central_disk e =? 0)) MultiDisk;;
  '(count, size, offset, expected_end) ← directory_values source eocd_offset file_size e;
  raise_if (max_members <? count) TooManyMembers;;
  raise_if (max_directory <? size) DirectoryTooLarge;;
  raise_if (expected_end <? size) DirectoryOutside;;
  let adjustment := expected_end - size - offset in
  raise_if (adjustment <? 0) DirectoryNotAtEnd;;
  let physical := offset + adjustment in
  raise_if ((physical <? 0) || (file_size <? physical + size)) DirectoryOutside;;
  found ← inspect_central_directory source
            {| b_offset := physical; b_end := physical + size; b_declared := count;
               b_max_members := max_members; b_adjustment := adjustment;
               b_file_size := file_size |};
  Ok {| members := count; central_directory_bytes := size; central_directory_offset := physical;
        zip64 := is_zip64 e; entries := found |}.

(** [inspect_zip_stream] *)
Definition inspect_zip_stream (source : list byte) (file_size max_members max_directory : Z)
  : R ZipStructure :=
  raise_if (file_size <? 0) FileSizeNegative;;
  inspect_zip_source source file_size max_members max_directory.

(** [inspect_zip_bytes] *)
Definition inspect_zip_bytes (payload : list byte) (max_members max_directory : Z)
  : R ZipStructure :=
  inspect_zip_stream payload (zlen payload) max_members max_directory.
