(* ===== verification/ZipSafety.v ===== *)
(** * What the ZIP preflight guarantees

    Every structure the preflight accepts lies inside its file: the directory,
    the headers and the payloads.  The loops end, and the end record it chooses
    is the last one that fits. *)

From Stdlib Require Import Sorting.Sorted.
From S2P Require Import Prelude ZipStructure.

(** ** Fields *)

Lemma le_int_nonneg bs : 0 <= le_int bs.
Proof. unfold le_int. apply be_int_bounds. Qed.

Lemma field_nonneg bs off w : 0 <= field bs off w.
Proof. apply le_int_nonneg. Qed.

Lemma read_exact_ok source off len bs :
  read_exact source off len = Ok bs →
  bs = take (Z.to_nat len) (drop (Z.to_nat off) source) ∧ zlen bs = len.
Proof. unfold read_exact. intros H. inv_ok. bool_prop. done. Qed.

(** ** Extra fields *)

Lemma take_wide_nonneg needed w old payload v rest :
  0 <= old → take_wide needed w old payload = Ok (v, rest) → 0 <= v.
Proof.
  unfold take_wide. destruct needed; intros Ho H; inv_ok; [apply le_int_nonneg|done].
Qed.

Lemma entry_values_nonneg central extra c u o d :
  0 <= cd_compressed central → 0 <= cd_uncompressed central →
  0 <= cd_local_offset central → 0 <= cd_disk central →
  zip64_entry_values central extra = Ok (c, u, o, d) → 0 <= c ∧ 0 <= u.
Proof.
  intros Hc Hu Ho Hd. unfold zip64_entry_values. intros (found&_&H)%bind_ok.
  destruct (negb _); [inv_ok; by split|]. apply bind_ok in H as (payload&_&H).
  apply bind_ok in H as ([u' p1]&H1&H). apply bind_ok in H as ([c' p2]&H2&H).
  apply bind_ok in H as ([o' p3]&H3&H). apply bind_ok in H as ([d' p4]&H4&H).
  injection H as <- <- <- <-.
  split; eapply take_wide_nonneg; [exact Hc|exact H2|exact Hu|exact H1].
Qed.

Lemma extra_fields_fuel fuel : ∀ extra found,
  (length extra <= fuel)%nat → extra_fields fuel extra found ≠ Err OutOfFuel.
Proof.
  induction fuel as [|fuel IH]; intros extra found Hl; cbn [extra_fields].
  - destruct extra; [done|cbn in Hl; lia].
  - destruct (bool_decide (extra = [])) eqn:He; [done|]. bool_prop.
    destruct (zlen extra <? 4) eqn:H4; [done|]. cbn [raise_if mbind result_bind].
    destruct (zlen extra <? 4 + _) eqn:Hlen; [done|]. cbn [raise_if mbind result_bind].
    bool_prop. pose proof (field_nonneg extra 2 2).
    assert (length (drop (Z.to_nat (4 + field extra 2 2)) extra) <= fuel)%nat as Hd.
    { rewrite length_drop. destruct extra; [done|cbn in *; lia]. }
    destruct (field extra 0 2 =? ZIP64_EXTRA_FIELD_ID); [|by apply IH].
    destruct (bool_decide (is_Some found)); [done|]. by apply IH.
Qed.

(** ** One member *)

(** Where an entry lies, against the directory offset and the file size. *)
Record well_placed (directory file_size : Z) (e : ZipMemberStructure) : Prop := {
  wp_header : 0 <= header_offset e;
  wp_payload : header_offset e + LOCAL_FILE_BYTES <= payload_offset e;
  wp_size : 0 <= compressed_size e ∧ 0 <= uncompressed_size e;
  wp_end : payload_offset e + compressed_size e <= directory;
  wp_file : payload_offset e + compressed_size e <= file_size;
  wp_name : 0 ∉ filename e;
  wp_directory : is_directory e = ends_with_slash (filename e);
}.

Lemma unpack_central_nonneg bs :
  let c := unpack_central bs in
  0 <= cd_compressed c ∧ 0 <= cd_uncompressed c ∧ 0 <= cd_name c ∧ 0 <= cd_extra c ∧
  0 <= cd_comment c ∧ 0 <= cd_disk c ∧ 0 <= cd_local_offset c.
Proof. cbn. repeat split; apply field_nonneg. Qed.

Lemma validated_member source bs n name_at extra_at directory adjustment file_size e :
  validate_central_member source (unpack_central bs) n name_at extra_at directory adjustment
    file_size = Ok e →
  well_placed directory file_size e ∧ ordinal e = n ∧ upper_bound e = directory.
Proof.
  destruct (unpack_central_nonneg bs) as (Hc&Hu&_&_&_&Hd&Ho).
  unfold validate_central_member. intros (raw&_&H)%bind_ok.
  apply bind_ok in H as (name&_&H). apply bind_ok in H as ([]&Hnul%raise_if_ok&H).
  apply bind_ok in H as ([]&_&H). apply bind_ok in H as (extra&_&H).
  apply bind_ok in H as ([[[c u] off] disk]&Hv&H).
  destruct (entry_values_nonneg _ _ _ _ _ _ Hc Hu Ho Hd Hv) as [Hc' Hu'].
  apply bind_ok in H as ([]&_&H). apply bind_ok in H as ([]&H1%raise_if_ok&H).
  apply bind_ok in H as ([]&H2%raise_if_ok&H). apply bind_ok in H as (local&_&H).
  apply bind_ok in H as ([]&_&H). apply bind_ok in H as ([]&H3%raise_if_ok&H).
  apply bind_ok in H as ([]&H4%raise_if_ok&H). apply bind_ok in H as ([]&_&H).
  apply bind_ok in H as ([]&H5%raise_if_ok&H). injection H as <-.
  pose proof (field_nonneg local 26 2). pose proof (field_nonneg local 28 2).
  cbn [unpack_local lf_name lf_extra] in *. unfold LOCAL_FILE_BYTES in *. bool_prop.
  split; [|done]. split; cbn; unfold LOCAL_FILE_BYTES; try done; lia.
Qed.

Lemma central_record_ok source b cursor count seen e len :
  central_record source b cursor count seen = Ok (e, len) →
  well_placed (b_offset b) (b_file_size b) e ∧ ordinal e = count ∧ header_offset e ∉ seen ∧
  CENTRAL_DIRECTORY_BYTES <= len ∧ cursor + len <= b_end b ∧
  count + 1 <= b_max_members b ∧ count + 1 <= b_declared b.
Proof.
  unfold central_record. intros ([]&H1%raise_if_ok&H)%bind_ok.
  apply bind_ok in H as (bs&_&H). apply bind_ok in H as ([]&_&H).
  destruct (unpack_central_nonneg bs) as (_&_&Hn&Hx&Hc&_&_).
  apply bind_ok in H as ([]&H2%raise_if_ok&H). apply bind_ok in H as ([]&H3%raise_if_ok&H).
  apply bind_ok in H as ([]&H4%raise_if_ok&H). apply bind_ok in H as (entry&He&H).
  apply bind_ok in H as ([]&H5%raise_if_ok&H). injection H as <- <-.
  destruct (validated_member _ _ _ _ _ _ _ _ _ He) as (W&Ho&_).
  cbn [unpack_central cd_name cd_extra cd_comment] in *. bool_prop. split_and!; try done; lia.
Qed.

(** ** The loop over the records *)

(** The entries found so far: numbered from zero, in place, with distinct
    headers. *)
Record found_so_far (b : directory_bounds) (count : Z) (seen : gset Z)
    (l : list ZipMemberStructure) : Prop := {
  fs_count : count = zlen l;
  fs_seen : ∀ h, h ∈ seen ↔ h ∈ header_offset <$> l;
  fs_nodup : NoDup (header_offset <$> l);
  fs_placed : ∀ e, e ∈ l → well_placed (b_offset b) (b_file_size b) e;
  fs_ordinal : ∀ i e, l !! i = Some e → ordinal e = Z.of_nat i;
  fs_declared : count <= Z.max 0 (b_max_members b);
}.

Lemma found_more b count seen l e :
  found_so_far b count seen l → well_placed (b_offset b) (b_file_size b) e → ordinal e = count →
  header_offset e ∉ seen → count + 1 <= b_max_members b →
  found_so_far b (count + 1) ({[header_offset e]} ∪ seen) (l ++ [e]).
Proof.
  intros [C S N P O D] W Ho Hs Hm. split.
  - rewrite length_app. cbn. lia.
  - intros h. rewrite fmap_app, elem_of_app. cbn. rewrite list_elem_of_singleton, elem_of_union, elem_of_singleton, S.
    tauto.
  - rewrite fmap_app. apply NoDup_app. split; [done|]. split; [|apply NoDup_singleton].
    intros h Hh ->%list_elem_of_singleton. by apply Hs, S.
  - intros x [Hx| ->%list_elem_of_singleton]%elem_of_app; [by apply P|done].
  - intros i x Hi. apply lookup_app_Some in Hi as [Hi|[Hl Hi]]; [by apply O|].
    apply list_lookup_singleton_Some in Hi as [Hi <-]. rewrite Ho, C. f_equal. lia.
  - lia.
Qed.

Lemma central_loop_ok source b fuel : ∀ cursor count seen acc cursor' count' found,
  found_so_far b count seen acc →
  central_loop fuel source b cursor count seen acc = Ok (cursor', count', found) →
  ∃ seen', found_so_far b count' seen' found.
Proof.
  induction fuel as [|fuel IH]; intros cursor count seen acc cursor' count' found F; cbn [central_loop].
  - destruct (b_end b <=? cursor); [|done]. intros [= <- <- <-]. by exists seen.
  - destruct (b_end b <=? cursor); [intros [= <- <- <-]; by exists seen|].
    intros ([e len]&Hr&H)%bind_ok.
    destruct (central_record_ok _ _ _ _ _ _ _ Hr) as (W&Ho&Hs&_&_&Hm&_).
    eapply IH; [|exact H]. by apply found_more.
Qed.

Lemma read_not_fuel source off len : read_exact source off len ≠ Err OutOfFuel.
Proof. unfold read_exact. apply bind_avoids; [by apply raise_avoids|done]. Qed.

#[export] Hint Resolve read_not_fuel : avoids.

Lemma take_wide_not_fuel needed w old payload : take_wide needed w old payload ≠ Err OutOfFuel.
Proof. unfold take_wide. avoid. Qed.

Lemma entry_values_not_fuel central extra : zip64_entry_values central extra ≠ Err OutOfFuel.
Proof.
  unfold zip64_entry_values. apply bind_avoids; [by apply extra_fields_fuel|intros found _].
  destruct (negb _); [done|]. apply bind_avoids; [auto with avoids|intros payload _].
  repeat (apply bind_avoids; [apply take_wide_not_fuel|intros [? ?] _]). done.
Qed.
#[export] Hint Resolve take_wide_not_fuel entry_values_not_fuel : avoids.

Lemma member_not_fuel source c n na xa d adj fs :
  validate_central_member source c n na xa d adj fs ≠ Err OutOfFuel.
Proof. unfold validate_central_member. avoid. Qed.
#[export] Hint Resolve member_not_fuel : avoids.

Lemma record_not_fuel source b cursor count seen :
  central_record source b cursor count seen ≠ Err OutOfFuel.
Proof. unfold central_record. avoid. Qed.

Lemma central_loop_fuel source b fuel : ∀ cursor count seen acc,
  b_end b - cursor <= Z.of_nat fuel →
  central_loop fuel source b cursor count seen acc ≠ Err OutOfFuel.
Proof.
  induction fuel as [|fuel IH]; intros cursor count seen acc Hf; cbn [central_loop].
  - destruct (b_end b <=? cursor) eqn:E; [done|]. bool_prop. lia.
  - destruct (b_end b <=? cursor) eqn:E; [done|]. bool_prop.
    apply bind_avoids; [apply record_not_fuel|]. intros [e len] Hr.
    destruct (central_record_ok _ _ _ _ _ _ _ Hr) as (_&_&_&Hl&_).
    apply IH. unfold CENTRAL_DIRECTORY_BYTES in Hl. lia.
Qed.

(** ** Upper bounds *)

Definition offset_le (a b : ZipMemberStructure) : Prop := header_offset a <= header_offset b.

Lemma insert_by_offset_perm e l : insert_by_offset e l ≡ₚ e :: l.
Proof.
  induction l as [|x l IH]; [done|]. cbn. destruct (_ <=? _); [done|]. rewrite IH. apply Permutation_swap.
Qed.

Lemma sort_by_offset_perm l : sort_by_offset l ≡ₚ l.
Proof. induction l as [|x l IH]; [done|]. cbn. by rewrite insert_by_offset_perm, IH. Qed.

Lemma insert_by_offset_sorted e l :
  StronglySorted offset_le l → StronglySorted offset_le (insert_by_offset e l).
Proof.
  unfold offset_le. induction 1 as [|x l Hs IH Hx]; cbn; [by repeat constructor|].
  destruct (_ <=? _) eqn:E; bool_prop.
  - constructor; [by constructor|]. constructor; [done|].
    eapply Forall_impl; [exact Hx|]. cbn. lia.
  - constructor; [done|]. rewrite insert_by_offset_perm. constructor; [lia|done].
Qed.

Lemma sort_by_offset_sorted l : StronglySorted offset_le (sort_by_offset l).
Proof. induction l; cbn; [constructor|by apply insert_by_offset_sorted]. Qed.

(** The bound of an entry: the nearest later header, or the directory. *)
Definition nearest_bound (directory : Z) (l : list ZipMemberStructure) (h u : Z) : Prop :=
  h < u <= directory ∧ (u = directory ∨ u ∈ header_offset <$> l) ∧
  ∀ h', h' ∈ header_offset <$> l → h < h' → u <= h'.

Lemma upper_bounds_spec directory l :
  StronglySorted offset_le l → NoDup (header_offset <$> l) →
  (∀ e, e ∈ l → header_offset e < directory) →
  ∀ e, e ∈ l → ∃ u, upper_bounds directory l !! header_offset e = Some u ∧
    nearest_bound directory l (header_offset e) u.
Proof.
  unfold nearest_bound. induction 1 as [|x l Hs IH Hx]; intros Hnd Hlt e He; [by apply elem_of_nil in He|].
  cbn in Hnd. apply NoDup_cons in Hnd as [Hxn Hnd]. rewrite Forall_forall in Hx.
  apply elem_of_cons in He as [->|He].
  - cbn [upper_bounds]. eexists. split; [apply lookup_insert_eq|].
    destruct l as [|y l]; cbn [fmap list_fmap].
    { split; [split; [apply Hlt; set_solver|lia]|]. split; [by left|]. intros h'. set_solver by lia. }
    assert (header_offset x <= header_offset y) by (apply Hx; set_solver).
    assert (header_offset x ≠ header_offset y) by (intros E; apply Hxn; rewrite E; set_solver).
    assert (header_offset y < directory) by (apply Hlt; set_solver).
    split; [lia|]. split; [right; set_solver|].
    intros h' [->|[->|Hh]%elem_of_cons]%elem_of_cons Hlt'; [lia|lia|].
    apply list_elem_of_fmap in Hh as (z&->&Hz). inversion Hs as [|? ? _ Hy]. rewrite Forall_forall in Hy.
    apply (Hy z Hz).
  - destruct (IH Hnd (λ e He, Hlt e (list_elem_of_further _ _ _ He)) e He) as (u&Hu&Hb&Hi&Hn).
    assert (header_offset e ≠ header_offset x) by (intros E; apply Hxn; rewrite <- E; by apply list_elem_of_fmap_2).
    exists u. cbn [upper_bounds]. rewrite lookup_insert_ne by congruence. split; [done|].
    split; [done|]. split; [destruct Hi as [->|Hi]; [by left|right; cbn; by apply list_elem_of_further]|].
    intros h' [->|Hh]%elem_of_cons Hlt'; [|by apply Hn]. specialize (Hx e He). unfold offset_le in Hx. lia.
Qed.

Lemma nearest_bound_perm directory l l' h u :
  l ≡ₚ l' → nearest_bound directory l h u → nearest_bound directory l' h u.
Proof.
  intros Hp (Hb&Hi&Hn). pose proof (fmap_Permutation header_offset _ _ Hp) as Hf.
  split; [done|]. split; [by rewrite <- Hf|]. intros h'. rewrite <- Hf. apply Hn.
Qed.

Lemma inspected_directory source b l :
  inspect_central_directory source b = Ok l →
  zlen l = b_declared b ∧ zlen l <= Z.max 0 (b_max_members b) ∧ NoDup (header_offset <$> l) ∧
  ∀ i e, l !! i = Some e →
    ordinal e = Z.of_nat i ∧ well_placed (b_offset b) (b_file_size b) e ∧
    nearest_bound (b_offset b) l (header_offset e) (upper_bound e).
Proof.
  unfold inspect_central_directory. intros ([[cursor count] found]&Hl&H)%bind_ok.
  apply central_loop_ok in Hl as (seen&[C _ N P O D]).
  2:{ split; [done|set_solver|constructor|set_solver|done|lia]. }
  inv_ok. bool_prop. set (ub := upper_bounds _ _).
  assert (∀ e, e ∈ found → header_offset e < b_offset b) as Hlt.
  { intros e [H1 H2 [H3 _] H4 _ _ _]%P. unfold LOCAL_FILE_BYTES in H2. lia. }
  assert (∀ e, e ∈ found → nearest_bound (b_offset b) found (header_offset e) (ub !!! header_offset e))
    as Hub.
  { intros e He. pose proof (sort_by_offset_perm found) as Hp.
    destruct (upper_bounds_spec (b_offset b) (sort_by_offset found) (sort_by_offset_sorted found))
      with (e := e) as (u&Hu&Hn).
    - rewrite Hp. done.
    - intros x Hx. apply Hlt. by rewrite <- Hp.
    - by rewrite Hp.
    - rewrite (lookup_total_correct _ _ _ Hu). by eapply nearest_bound_perm. }
  assert (header_offset <$> ((λ e, with_upper_bound (ub !!! header_offset e) e) <$> found) =
    header_offset <$> found) as Hh.
  { rewrite <- list_fmap_compose. done. }
  rewrite length_fmap. split; [lia|]. split; [lia|]. rewrite Hh. split; [done|].
  intros i e He. apply list_lookup_fmap_Some in He as (x&->&Hx).
  pose proof (list_elem_of_lookup_2 _ _ _ Hx) as Hin. split; [exact (O i x Hx)|].
  split; [destruct (P x Hin); split; assumption|].
  destruct (Hub x Hin) as (H1&H2&H3). split; [done|]. unfold nearest_bound. by rewrite Hh.
Qed.

(** ** The end record *)

(** A signature at [i] of the tail whose record and comment fit. *)
Record end_record_at (tail : list byte) (i : nat) : Prop := {
  er_signature : take 4 (drop i tail) = EOCD_SIGNATURE;
  er_fixed : Z.of_nat i + EOCD_FIXED_BYTES <= zlen tail;
  er_comment : Z.of_nat i + EOCD_FIXED_BYTES + e_comment (unpack_eocd (drop i tail)) <= zlen tail;
}.

Lemma signature_in_prefix (tail : list byte) (k i : nat) :
  (k <= length tail)%nat →
  take 4 (drop i (take k tail)) = EOCD_SIGNATURE ↔
  take 4 (drop i tail) = EOCD_SIGNATURE ∧ (i + 4 <= k)%nat.
Proof.
  intros Hk. rewrite skipn_firstn_comm, take_take. split.
  - intros H. assert (length (take (4 `min` (k - i)) (drop i tail)) = 4%nat) as Hl by by rewrite H.
    rewrite length_take, length_drop in Hl. split; [|lia]. by rewrite Nat.min_l in H by lia.
  - intros [H Hi]. by rewrite Nat.min_l by lia.
Qed.

(** Two signatures do not overlap. *)
Lemma signatures_apart (tail : list byte) (i j : nat) :
  take 4 (drop i tail) = EOCD_SIGNATURE → take 4 (drop j tail) = EOCD_SIGNATURE →
  (i < j)%nat → (i + 4 <= j)%nat.
Proof.
  intros Hi Hj Hlt. destruct (decide (i + 4 <= j)%nat) as [|Hn]; [done|exfalso].
  assert (take 4 (drop i tail) !! (j - i)%nat = EOCD_SIGNATURE !! 0%nat) as H.
  { rewrite <- Hj, !lookup_take_lt, !lookup_drop by lia. f_equal. lia. }
  rewrite Hi in H. assert (j - i = 1 ∨ j - i = 2 ∨ j - i = 3)%nat as [E|[E|E]] by lia;
    rewrite E in H; discriminate H.
Qed.

Lemma eocd_search_spec tail fuel : ∀ n,
  (n <= length tail)%nat → (n < fuel)%nat →
  (∀ j, end_record_at tail j → (j + 4 <= n)%nat) →
  match eocd_search fuel tail n with
  | Ok (i, e) => end_record_at tail i ∧ e = unpack_eocd (drop i tail) ∧
                 ∀ j, end_record_at tail j → (j <= i)%nat
  | Err e => e = EndRecordNotFound ∧ ∀ j, ¬ end_record_at tail j
  end.
Proof.
  induction fuel as [|fuel IH]; intros n Hn Hf Hc; [lia|]. cbn [eocd_search].
  pose proof (rfind_spec EOCD_SIGNATURE (take n tail) n) as Hr. change (length EOCD_SIGNATURE) with 4%nat in Hr.
  destruct (rfind _ _ _) as [i|].
  - destruct Hr as (Hi&Hm&Hlast). apply signature_in_prefix in Hm as [Hm Hi4]; [|done].
    assert (∀ j, end_record_at tail j → (j <= i)%nat) as Hmax.
    { intros j Hj. destruct (decide (j <= i)%nat) as [|Hne]; [done|exfalso].
      pose proof (Hc j Hj). apply (Hlast j); [lia|].
      apply signature_in_prefix; [done|]. split; [apply Hj|done]. }
    destruct (_ && _) eqn:Efit.
    + bool_prop. split; [by split|]. by split.
    + apply IH; [lia|lia|]. intros j Hj. pose proof (Hmax j Hj).
      destruct (decide (j = i)) as [->|].
      * destruct Hj as [_ H1 H2]. apply andb_false_iff in Efit as [E|E]; bool_prop; lia.
      * apply signatures_apart with tail; [apply Hj|done|lia].
  - split; [done|]. intros j Hj. pose proof (Hc j Hj). apply (Hr j); [lia|].
    apply signature_in_prefix; [done|]. split; [apply Hj|lia].
Qed.

Definition tail_size (file_size : Z) : Z := Z.min file_size (EOCD_FIXED_BYTES + MAX_ZIP_COMMENT_BYTES).

(** The window the end record is searched in. *)
Definition zip_tail (source : list byte) (file_size : Z) : list byte :=
  take (Z.to_nat (tail_size file_size)) (drop (Z.to_nat (file_size - tail_size file_size)) source).

Lemma end_record_search tail :
  match eocd_search (S (length tail)) tail (length tail) with
  | Ok (i, e) => end_record_at tail i ∧ e = unpack_eocd (drop i tail) ∧
                 ∀ j, end_record_at tail j → (j <= i)%nat
  | Err e => e = EndRecordNotFound ∧ ∀ j, ¬ end_record_at tail j
  end.
Proof.
  apply eocd_search_spec; [done|lia|]. intros j [_ H _]. unfold EOCD_FIXED_BYTES in H. lia.
Qed.

Lemma find_eocd_spec source file_size :
  match find_eocd source file_size with
  | Ok (off, e) =>
      ∃ i, off = file_size - tail_size file_size + Z.of_nat i ∧
        end_record_at (zip_tail source file_size) i ∧
        e = unpack_eocd (drop i (zip_tail source file_size)) ∧
        ∀ j, end_record_at (zip_tail source file_size) j → (j <= i)%nat
  | Err e => e = TruncatedMetadata ∧ zlen (zip_tail source file_size) ≠ tail_size file_size ∨
             e = EndRecordNotFound ∧ ∀ j, ¬ end_record_at (zip_tail source file_size) j
  end.
Proof.
  unfold find_eocd, read_exact. fold (tail_size file_size). fold (zip_tail source file_size).
  pose proof (end_record_search (zip_tail source file_size)) as H.
  destruct (zlen (zip_tail source file_size) =? tail_size file_size) eqn:E; bool_prop;
    cbn [negb raise_if mbind result_bind]; [|by left].
  destruct (eocd_search _ _ _) as [[i e]|e]; cbn [mbind result_bind].
  - destruct H as (H1&H2&H3). by exists i.
  - by right.
Qed.

(** The end record the preflight trusts is the last one that fits: it is
    found exactly when some signature of the final window is followed by a
    whole record and comment, and no later position of the window holds such a
    record. *)
Theorem end_record_is_last source file_size :
  zlen (zip_tail source file_size) = tail_size file_size →
  match find_eocd source file_size with
  | Ok (off, e) =>
      ∃ i, off = file_size - tail_size file_size + Z.of_nat i ∧
        end_record_at (zip_tail source file_size) i ∧
        e = unpack_eocd (drop i (zip_tail source file_size)) ∧
        ∀ j, end_record_at (zip_tail source file_size) j → (j <= i)%nat
  | Err e => e = EndRecordNotFound ∧ ∀ j, ¬ end_record_at (zip_tail source file_size) j
  end.
Proof.
  intros Hl. pose proof (find_eocd_spec source file_size) as H.
  destruct (find_eocd source file_size) as [[off e]|e]; [done|]. by destruct H as [[_ ?]|H].
Qed.

(** ** The whole preflight *)

Lemma zip64_details_ok source eocd_offset file_size m s o physical :
  zip64_details source eocd_offset file_size = Ok (m, s, o, physical) →
  0 <= m ∧ 0 <= s ∧ 0 <= o ∧ physical <= eocd_offset.
Proof.
  unfold zip64_details. intros ([]&_&H)%bind_ok. apply bind_ok in H as (locator&_&H).
  apply bind_ok in H as ([]&_&H). apply bind_ok in H as ([]&_&H).
  apply bind_ok in H as (found&Hf&H). apply bind_ok in H as ([r p]&Hr&H).
  apply bind_ok in H as ([]&H1%raise_if_ok&H). apply bind_ok in H as ([]&H2%raise_if_ok&H).
  apply bind_ok in H as ([]&_&H). apply bind_ok in H as ([]&_&H). injection H as <- <- <- <-.
  assert (∃ bs, r = unpack_zip64 bs) as [bs ->].
  { destruct found as [r'|].
    - injection Hr as <- <-. unfold located_record in Hf. destruct (_ <=? file_size); [|done].
      apply bind_ok in Hf as (bs&_&Hf). destruct (_ && _); by simplify_eq; exists bs.
    - inv_ok. by eexists. }
  bool_prop. unfold ZIP64_LOCATOR_BYTES in *. cbn [unpack_zip64 z_members z_central_size z_central_offset z_size] in *.
  pose proof (field_nonneg bs 32 8). pose proof (field_nonneg bs 40 8).
  pose proof (field_nonneg bs 48 8). lia.
Qed.

Lemma unpack_eocd_nonneg bs :
  let e := unpack_eocd bs in 0 <= e_members e ∧ 0 <= e_central_size e ∧ 0 <= e_central_offset e ∧
  0 <= e_comment e.
Proof. cbn. repeat split; apply field_nonneg. Qed.

Lemma directory_values_ok source eocd_offset file_size bs m s o expected :
  directory_values source eocd_offset file_size (unpack_eocd bs) = Ok (m, s, o, expected) →
  0 <= m ∧ 0 <= s ∧ 0 <= o ∧ expected <= eocd_offset.
Proof.
  unfold directory_values. destruct (is_zip64 _).
  - intros ([[[m' s'] o'] p]&Hz&H)%bind_ok. inv_ok. by eapply zip64_details_ok.
  - intros H. inv_ok. destruct (unpack_eocd_nonneg bs) as (?&?&?&_). by split_and!.
Qed.

(** A structure that lies inside a file of the given size. *)
Record contained (file_size max_members max_directory : Z) (s : ZipStructure) : Prop := {
  ct_members : members s = zlen (entries s) ∧ members s <= max_members;
  ct_bytes : 0 <= central_directory_bytes s <= max_directory;
  ct_directory : 0 <= central_directory_offset s ∧
    central_directory_offset s + central_directory_bytes s + EOCD_FIXED_BYTES <= file_size;
  ct_headers : NoDup (header_offset <$> entries s);
  ct_entries : ∀ i e, entries s !! i = Some e →
    ordinal e = Z.of_nat i ∧ well_placed (central_directory_offset s) file_size e ∧
    nearest_bound (central_directory_offset s) (entries s) (header_offset e) (upper_bound e);
}.

(** C30: every structure the preflight accepts lies inside the file.  The
    directory ends before the end record and respects the size limit; there are
    as many entries as declared and no more than allowed, numbered in order,
    with distinct headers; every header and payload precedes the directory, no
    name holds a NUL, and the recovery bound of an entry is exactly the nearest
    later header or the start of the directory. *)
Theorem accepted_zip_is_contained source file_size max_members max_directory s :
  inspect_zip_stream source file_size max_members max_directory = Ok s →
  contained file_size max_members max_directory s.
Proof.
  unfold inspect_zip_stream. intros ([]&_&H)%bind_ok. unfold inspect_zip_source in H.
  apply bind_ok in H as ([]&_&H). apply bind_ok in H as ([]&Hmax%raise_if_ok&H).
  apply bind_ok in H as ([]&_&H). apply bind_ok in H as ([]&_&H).
  apply bind_ok in H as ([off e]&Hf&H). apply bind_ok in H as ([]&Hend%raise_if_ok&H).
  apply bind_ok in H as ([]&_&H). apply bind_ok in H as ([[[m sz] o] expected]&Hd&H).
  apply bind_ok in H as ([]&H1%raise_if_ok&H). apply bind_ok in H as ([]&H2%raise_if_ok&H).
  apply bind_ok in H as ([]&H3%raise_if_ok&H). apply bind_ok in H as ([]&H4%raise_if_ok&H).
  apply bind_ok in H as ([]&H5%raise_if_ok&H). apply bind_ok in H as (found&Hi&H).
  injection H as <-. pose proof (find_eocd_spec source file_size) as Hs. rewrite Hf in Hs.
  destruct Hs as (i&->&[_ _ Hc]&->&_).
  destruct (unpack_eocd_nonneg (drop i (zip_tail source file_size))) as (_&_&_&Hcm).
  destruct (directory_values_ok _ _ _ _ _ _ _ _ Hd) as (Hm&Hsz&Ho&Hexp).
  apply inspected_directory in Hi as (Hl&Hle&Hnd&He). cbn in *. bool_prop.
  split; cbn; [lia|lia|lia|done|done].
Qed.

Lemma central_directory_fuel source b : inspect_central_directory source b ≠ Err OutOfFuel.
Proof.
  unfold inspect_central_directory. apply bind_avoids; [apply central_loop_fuel; lia|].
  intros [[cursor count] found] _. avoid.
Qed.

Lemma find_eocd_not_fuel source file_size : find_eocd source file_size ≠ Err OutOfFuel.
Proof.
  pose proof (find_eocd_spec source file_size) as H. intros E. rewrite E in H.
  by destruct H as [[? _]|[? _]].
Qed.

Lemma located_not_fuel source a b c : located_record source a b c ≠ Err OutOfFuel.
Proof. unfold located_record. avoid. Qed.
#[export] Hint Resolve located_not_fuel find_eocd_not_fuel central_directory_fuel : avoids.

Lemma zip64_details_not_fuel source a b : zip64_details source a b ≠ Err OutOfFuel.
Proof. unfold zip64_details. avoid. Qed.
#[export] Hint Resolve zip64_details_not_fuel : avoids.

Lemma directory_values_not_fuel source a b e : directory_values source a b e ≠ Err OutOfFuel.
Proof. unfold directory_values. avoid. Qed.
#[export] Hint Resolve directory_values_not_fuel : avoids.

(** The preflight always ends: the search of the end record, the walk over
    the extra fields and the loop over the directory all finish within the
    bytes they are given, whatever the file holds. *)
Theorem inspection_terminates source file_size max_members max_directory :
  inspect_zip_stream source file_size max_members max_directory ≠ Err OutOfFuel.
Proof. unfold inspect_zip_stream, inspect_zip_source. avoid. Qed.

(** A self-extracting archive of two members behind a two-byte stub. *)
Definition sample_zip : list byte := z2b <$>
  [
   35; 33; 80; 75; 3; 4; 20; 0; 0; 0; 0; 0; 0; 0; 33; 0; 172; 42; 147; 216; 2; 0; 0; 0; 2; 0;
   0; 0; 1; 0; 0; 0; 97; 104; 105; 80; 75; 3; 4; 20; 0; 0; 0; 0; 0; 0; 0; 33; 0; 0; 0; 0; 0; 0;
   0; 0; 0; 0; 0; 0; 0; 2; 0; 0; 0; 100; 47; 80; 75; 1; 2; 20; 3; 20; 0; 0; 0; 0; 0; 0; 0; 33;
   0; 172; 42; 147; 216; 2; 0; 0; 0; 2; 0; 0; 0; 1; 0; 0; 0; 0; 0; 0; 0; 0; 0; 0; 0; 128; 1; 2;
   0; 0; 0; 97; 80; 75; 1; 2; 20; 3; 20; 0; 0; 0; 0; 0; 0; 0; 33; 0; 0; 0; 0; 0; 0; 0; 0; 0; 0;
   0; 0; 0; 2; 0; 0; 0; 0; 0; 0; 0; 0; 0; 0; 0; 128; 1; 35; 0; 0; 0; 100; 47; 80; 75; 5; 6; 0;
   0; 0; 0; 2; 0; 2; 0; 95; 0; 0; 0; 67; 0; 0; 0; 0; 0
  ].

Lemma accepted_zip_is_contained_witness :
  ∃ s, inspect_zip_bytes sample_zip 10 1000 = Ok s ∧ contained (zlen sample_zip) 10 1000 s ∧
    header_offset <$> entries s = [2; 35].
Proof.
  eexists. split; [|split].
  - vm_compute. reflexivity.
  - apply (accepted_zip_is_contained sample_zip). vm_compute. reflexivity.
  - vm_compute. reflexivity.
Defined.

Lemma end_record_is_last_witness :
  zlen (zip_tail sample_zip (zlen sample_zip)) = tail_size (zlen sample_zip) ∧
  match find_eocd sample_zip (zlen sample_zip) with
  | Ok (off, e) => off = zlen sample_zip - 22 ∧ e_members e = 2
  | Err _ => False
  end ∧ ∃ i, end_record_at (zip_tail sample_zip (zlen sample_zip)) i.
Proof.
  split; [vm_compute; reflexivity|]. split; [vm_compute; split; reflexivity|].
  pose proof (end_record_is_last sample_zip (zlen sample_zip) eq_refl) as H.
  destruct (find_eocd sample_zip (zlen sample_zip)) as [[off e]|e] eqn:E.
  - destruct H as (i&_&Hi&_). by exists i.
  - vm_compute in E. discriminate E.
Defined.
