(* ===== verification/RawDeflate.v ===== *)
(** * Bounded raw-DEFLATE recovery (neocortex/platform/zip_safety.py)

    Recovering one DEFLATE member without trusting its metadata.  The decoder is
    zlib's; the model takes it as an interface and relies on what its
    documentation says of [decompress] with a limit. *)

From S2P Require Import Prelude ZipStructure ZipSafety.

(** [zlib.decompressobj]: an operation that raises [zlib.error] is [None]. *)
Class Decoder (D : Type) : Type := {
  decoder_new : D;
  decompress : D → list byte → Z → option (D * list byte);
  unconsumed_tail : D → list byte;
  unused_data : D → list byte;
  eof : D → bool;
  flush : D → Z → option (D * list byte);
}.

(** A limited call returns no more than its limit, and what it leaves unread is
    the end of what it was given. *)
Class DecoderLaws (D : Type) `{!Decoder D} : Prop := {
  decompress_limit d bs n d' out : 0 < n → decompress d bs n = Some (d', out) → zlen out <= n;
  unconsumed_suffix d bs n d' out :
    decompress d bs n = Some (d', out) → unconsumed_tail d' `suffix_of` bs;
}.

Definition RAW_DEFLATE_CHUNK_BYTES : Z := 64 * 1024.

Inductive raw_error : Type :=
| NegativeMember | BoundsNotPositive | CompressedTooLarge | BoundaryOutside | RawHeaderTruncated
| RawTruncatedMetadata | RawSignature | Encrypted | HasDataDescriptor | NotDeflate
| CrossesBoundary | CheckpointRaised | PayloadTruncated | DecoderFailed | OutputTooLarge
| NoProgress | StreamIncomplete | TrailingData | RawOutOfFuel.

Abbreviation RR A := (result raw_error A).

Record RawDeflateMember : Type := {
  rm_payload : list byte;
  rm_actual_size : Z;
  rm_actual_crc32 : Z;
}.

(** [_validate_raw_member_bounds] *)
Definition validate_raw_member_bounds
    (file_size header size upper max_compressed max_output : Z) : RR unit :=
  raise_if ((header <? 0) || (size <? 0)) NegativeMember;;
  raise_if ((max_compressed <? 1) || (max_output <? 1)) BoundsNotPositive;;
  raise_if (max_compressed <? size) CompressedTooLarge;;
  raise_if ((upper <? 0) || (file_size <? upper)) BoundaryOutside;;
  raise_if (upper - LOCAL_FILE_BYTES <? header) RawHeaderTruncated.

(** [_raw_member_payload_offset] *)
Definition raw_member_payload_offset (source : list byte) (header size upper : Z) : RR Z :=
  bs ← match read_exact source header LOCAL_FILE_BYTES with
       | Ok bs => Ok bs
       | Err _ => Err RawTruncatedMetadata
       end;
  let local := unpack_local bs in
  raise_if (negb (bool_decide (lf_signature local = LOCAL_FILE_SIGNATURE))) RawSignature;;
  raise_if (Z.testbit (lf_flags local) 0) Encrypted;;
  raise_if (Z.testbit (lf_flags local) 3) HasDataDescriptor;;
  raise_if (negb (lf_compression local =? 8)) NotDeflate;;
  let payload := header + LOCAL_FILE_BYTES + lf_name local + lf_extra local in
  raise_if ((payload <? header) || (upper <? payload + size)) CrossesBoundary;;
  Ok payload.

Section recovery.
Context {D : Type} `{!Decoder D}.

(** [_extend_raw_deflate_output] *)
Fixpoint extend_output (fuel : nat) (d : D) (pending output : list byte) (max_output : Z)
  : RR (D * list byte) :=
  if bool_decide (pending = []) then Ok (d, output) else
  match fuel with
  | O => Err RawOutOfFuel
  | S fuel' =>
      '(d', produced) ←
        or_raise (decompress d pending (max_output - zlen output + 1)) DecoderFailed;
      let output' := output ++ produced in
      raise_if (max_output <? zlen output') OutputTooLarge;;
      let rest := unconsumed_tail d' in
      raise_if (negb (bool_decide (rest = [])) && (length rest =? length pending)%nat &&
                bool_decide (produced = [])) NoProgress;;
      extend_output fuel' d' rest output' max_output
  end.

(** Each pass consumes input or produces output. *)
Definition extend_fuel (pending : list byte) (max_output : Z) : nat :=
  length pending + Z.to_nat (max_output + 1).

(** The [while remaining] loop; [checkpoint remaining] says whether the
    caller's checkpoint raises at that pass. *)
Fixpoint member_loop (fuel : nat) (checkpoint : Z → bool) (rest : list byte) (remaining : Z)
    (d : D) (output : list byte) (max_output : Z) : RR (D * list byte) :=
  if remaining =? 0 then Ok (d, output) else
  match fuel with
  | O => Err RawOutOfFuel
  | S fuel' =>
      raise_if (checkpoint remaining) CheckpointRaised;;
      let chunk := take (Z.to_nat (Z.min RAW_DEFLATE_CHUNK_BYTES remaining)) rest in
      raise_if (bool_decide (chunk = [])) PayloadTruncated;;
      '(d', output') ← extend_output (extend_fuel chunk max_output) d chunk output max_output;
      member_loop fuel' checkpoint (drop (length chunk) rest) (remaining - zlen chunk)
        d' output' max_output
  end.

(** [_decompress_raw_member] *)
Definition decompress_raw_member (source : list byte) (payload size max_output : Z)
    (checkpoint : Z → bool) : RR (list byte) :=
  '(d, output) ← member_loop (Z.to_nat size) checkpoint (drop (Z.to_nat payload) source) size
                   decoder_new [] max_output;
  '(d', flushed) ← or_raise (flush d (max_output - zlen output + 1)) DecoderFailed;
  let output' := output ++ flushed in
  raise_if (max_output <? zlen output') OutputTooLarge;;
  raise_if (negb (eof d')) StreamIncomplete;;
  raise_if (negb (bool_decide (unused_data d' = []))) TrailingData;;
  Ok output'.

(** [read_raw_deflate_member] *)
Definition read_raw_deflate_member (source : list byte)
    (file_size header size upper max_compressed max_output : Z) (checkpoint : Z → bool)
  : RR RawDeflateMember :=
  validate_raw_member_bounds file_size header size upper max_compressed max_output;;
  payload ← raw_member_payload_offset source header size upper;
  bytes ← decompress_raw_member source payload size max_output checkpoint;
  Ok {| rm_payload := bytes; rm_actual_size := zlen bytes;
        rm_actual_crc32 := Prelude.crc32 bytes |}.

(** ** Bounds *)

Lemma validated_bounds fs header size upper mc mo :
  validate_raw_member_bounds fs header size upper mc mo = Ok tt →
  0 <= header ∧ 0 <= size <= mc ∧ 1 <= mo ∧ 0 <= upper <= fs ∧ header + LOCAL_FILE_BYTES <= upper.
Proof.
  unfold validate_raw_member_bounds. intros ([]&H1%raise_if_ok&H)%bind_ok.
  apply bind_ok in H as ([]&H2%raise_if_ok&H). apply bind_ok in H as ([]&H3%raise_if_ok&H).
  apply bind_ok in H as ([]&H4%raise_if_ok&H5%raise_if_ok). bool_prop.
  unfold LOCAL_FILE_BYTES in *. lia.
Qed.

Lemma payload_offset_bounds source header size upper p :
  raw_member_payload_offset source header size upper = Ok p →
  header + LOCAL_FILE_BYTES <= p ∧ p + size <= upper.
Proof.
  unfold raw_member_payload_offset. intros (bs&_&H)%bind_ok.
  apply bind_ok in H as ([]&_&H). apply bind_ok in H as ([]&_&H).
  apply bind_ok in H as ([]&_&H). apply bind_ok in H as ([]&_&H).
  apply bind_ok in H as ([]&H1%raise_if_ok&H). injection H as <-.
  pose proof (field_nonneg bs 26 2). pose proof (field_nonneg bs 28 2).
  cbn [unpack_local lf_name lf_extra] in *. bool_prop. lia.
Qed.

Lemma extend_output_bounded fuel : ∀ d pending output max_output d' output',
  zlen output <= max_output →
  extend_output fuel d pending output max_output = Ok (d', output') →
  zlen output' <= max_output.
Proof.
  induction fuel as [|fuel IH]; intros d pending output mo d' output' Ho; cbn [extend_output];
    (case_bool_decide as Hp; [by intros [= <- <-]|]); [done|].
  clear Hp. intros ([d1 produced]&_&H)%bind_ok. apply bind_ok in H as ([]&H1%raise_if_ok&H).
  apply bind_ok in H as ([]&_&H). bool_prop. by eapply IH.
Qed.

Lemma member_loop_bounded fuel cp : ∀ rest remaining d output mo d' output',
  zlen output <= mo → member_loop fuel cp rest remaining d output mo = Ok (d', output') →
  zlen output' <= mo.
Proof.
  induction fuel as [|fuel IH]; intros rest remaining d output mo d' output' Ho; cbn [member_loop];
    (destruct (remaining =? 0); [by intros [= <- <-]|]); [done|].
  intros ([]&_&H)%bind_ok. apply bind_ok in H as ([]&_&H).
  apply bind_ok in H as ([d1 o1]&He&H). eapply IH; [|exact H]. by eapply extend_output_bounded.
Qed.

(** ** Termination *)

Lemma extend_output_fuel `{!DecoderLaws D} fuel : ∀ d pending output mo,
  0 <= mo → zlen output <= mo →
  Z.of_nat (length pending) + (mo + 1 - zlen output) <= Z.of_nat fuel →
  extend_output fuel d pending output mo ≠ Err RawOutOfFuel.
Proof.
  induction fuel as [|fuel IH]; intros d pending output mo Hm Ho Hf; cbn [extend_output];
    (case_bool_decide as Hp; [done|]).
  - destruct pending; [done|cbn in Hf; lia].
  - destruct (decompress d pending _) as [[d' produced]|] eqn:E; [|done].
    cbn [or_raise mbind result_bind].
    destruct (mo <? zlen (output ++ produced)) eqn:E1; [done|]. cbn [raise_if mbind result_bind].
    destruct (negb (bool_decide (unconsumed_tail d' = [])) && _ && _) eqn:E2; [done|].
    cbn [raise_if mbind result_bind]. apply unconsumed_suffix in E as [pre Hpre].
    bool_prop. rewrite length_app in E1. apply IH; [done|rewrite length_app; lia|].
    rewrite length_app. assert (length pending = (length pre + length (unconsumed_tail d'))%nat) as Hl
      by by rewrite Hpre at 1; rewrite length_app.
    destruct (decide (unconsumed_tail d' = [])) as [He|Hne].
    { rewrite He in *. destruct pending; [done|]. cbn in *. lia. }
    rewrite (bool_decide_eq_false_2 (unconsumed_tail d' = [])) in E2 by done. cbn [negb andb] in E2.
    apply andb_false_iff in E2 as [E2|E2].
    + apply Nat.eqb_neq in E2. lia.
    + bool_prop. destruct produced; [done|]. cbn. lia.
Qed.

Lemma member_loop_fuel `{!DecoderLaws D} fuel cp : ∀ rest remaining d output mo,
  0 <= mo → zlen output <= mo → 0 <= remaining <= Z.of_nat fuel →
  member_loop fuel cp rest remaining d output mo ≠ Err RawOutOfFuel.
Proof.
  induction fuel as [|fuel IH]; intros rest remaining d output mo Hm Ho Hf; cbn [member_loop];
    (destruct (remaining =? 0) eqn:E0; [done|]); bool_prop; [lia|].
  destruct (cp remaining); [done|]. cbn [raise_if mbind result_bind].
  set (chunk := take _ rest). case_bool_decide as Hc; [done|]. cbn [raise_if mbind result_bind].
  assert (extend_output (extend_fuel chunk mo) d chunk output mo ≠ Err RawOutOfFuel) as Hne.
  { apply extend_output_fuel; [done..|]. unfold extend_fuel. lia. }
  destruct (extend_output _ _ _ _ _) as [[d1 o1]|e] eqn:He; [|cbn; congruence].
  cbn [mbind result_bind]. apply IH; [done|by eapply extend_output_bounded|].
  assert (length chunk <= Z.to_nat (Z.min RAW_DEFLATE_CHUNK_BYTES remaining))%nat
    by (subst chunk; rewrite length_take; lia). destruct chunk; [done|]. cbn in *. lia.
Qed.

(** ** Locality *)

Lemma member_loop_local fuel cp : ∀ r1 r2 remaining d output mo,
  take (Z.to_nat remaining) r1 = take (Z.to_nat remaining) r2 → 0 <= remaining →
  member_loop fuel cp r1 remaining d output mo = member_loop fuel cp r2 remaining d output mo.
Proof.
  induction fuel as [|fuel IH]; intros r1 r2 remaining d output mo Hr Hn; [done|]. cbn [member_loop].
  destruct (remaining =? 0) eqn:E0; [done|]. bool_prop. destruct (cp remaining); [done|].
  cbn [raise_if mbind result_bind]. set (k := Z.to_nat (Z.min RAW_DEFLATE_CHUNK_BYTES remaining)).
  assert (take k r1 = take k r2) as Hk.
  { assert (take k (take (Z.to_nat remaining) r1) = take k (take (Z.to_nat remaining) r2)) as H by by rewrite Hr.
    rewrite !take_take in H. by replace (k `min` Z.to_nat remaining)%nat with k in H by lia. }
  rewrite Hk. case_bool_decide as Hc; [done|]. cbn [raise_if mbind result_bind].
  destruct (extend_output _ _ _ _ _) as [[d1 o1]|e]; [|done]. cbn [mbind result_bind].
  assert (length (take k r2) <= k)%nat as Hl by (rewrite length_take; lia).
  apply IH; [|lia].
  replace (Z.to_nat (remaining - zlen (take k r2))) with
    (Z.to_nat remaining - length (take k r2))%nat by lia.
  rewrite <- !skipn_firstn_comm. by rewrite Hr.
Qed.

Lemma read_exact_local s1 s2 off len (upper : Z) :
  take (Z.to_nat (upper - off)) (drop (Z.to_nat off) s1) =
    take (Z.to_nat (upper - off)) (drop (Z.to_nat off) s2) →
  0 <= len → off + len <= upper → read_exact s1 off len = read_exact s2 off len.
Proof.
  intros H Hl Hu. unfold read_exact.
  assert (take (Z.to_nat len) (drop (Z.to_nat off) s1) = take (Z.to_nat len) (drop (Z.to_nat off) s2)) as ->;
    [|done].
  assert (take (Z.to_nat len) (take (Z.to_nat (upper - off)) (drop (Z.to_nat off) s1)) =
    take (Z.to_nat len) (take (Z.to_nat (upper - off)) (drop (Z.to_nat off) s2))) as H' by by rewrite H.
  rewrite !take_take in H'.
  by replace (Z.to_nat len `min` Z.to_nat (upper - off))%nat with (Z.to_nat len) in H' by lia.
Qed.
End recovery.

(** ** Guarantees *)

(** The bytes of a source between two offsets. *)
Definition window (source : list byte) (from upto : Z) : list byte :=
  take (Z.to_nat (upto - from)) (drop (Z.to_nat from) source).

Section guarantees.
Context {D : Type} `{!Decoder D}.

Lemma decompress_local s1 s2 header payload size upper mo cp :
  window s1 header upper = window s2 header upper → 0 <= header <= payload → 0 <= size →
  payload + size <= upper →
  decompress_raw_member s1 payload size mo cp = decompress_raw_member s2 payload size mo cp.
Proof.
  unfold window. intros Hw Hh Hs Hu. unfold decompress_raw_member.
  rewrite (member_loop_local _ _ (drop (Z.to_nat payload) s1) (drop (Z.to_nat payload) s2)); [done| |done].
  assert (take (Z.to_nat size) (drop (Z.to_nat (payload - header)) (take (Z.to_nat (upper - header)) (drop (Z.to_nat header) s1)))
    = take (Z.to_nat size) (drop (Z.to_nat (payload - header)) (take (Z.to_nat (upper - header)) (drop (Z.to_nat header) s2))))
    as H by by rewrite Hw.
  rewrite !skipn_firstn_comm, !take_take, !drop_drop in H.
  replace (Z.to_nat size `min` (Z.to_nat (upper - header) - Z.to_nat (payload - header)))%nat
    with (Z.to_nat size) in H by lia.
  by replace (Z.to_nat header + Z.to_nat (payload - header))%nat with (Z.to_nat payload) in H by lia.
Qed.

Lemma payload_offset_local s1 s2 header size upper :
  window s1 header upper = window s2 header upper → header + LOCAL_FILE_BYTES <= upper →
  raw_member_payload_offset s1 header size upper = raw_member_payload_offset s2 header size upper.
Proof.
  intros Hw Hu. unfold raw_member_payload_offset.
  by rewrite (read_exact_local s1 s2 header LOCAL_FILE_BYTES upper Hw).
Qed.

(** Recovery is confined to its member.  The result does not depend on any
    byte outside the window between the local header and the boundary the
    caller gives, the window lies inside the file, and a recovered payload
    respects the output limit and carries its true size and CRC-32. *)
Theorem recovery_is_confined s1 s2 file_size header size upper max_compressed max_output cp :
  window s1 header upper = window s2 header upper →
  let r := read_raw_deflate_member s1 file_size header size upper max_compressed max_output cp in
  read_raw_deflate_member s2 file_size header size upper max_compressed max_output cp = r ∧
  ∀ m, r = Ok m →
    0 <= header ∧ header + LOCAL_FILE_BYTES + size <= upper ∧ upper <= file_size ∧
    size <= max_compressed ∧ zlen (rm_payload m) <= max_output ∧
    rm_actual_size m = zlen (rm_payload m) ∧ rm_actual_crc32 m = Prelude.crc32 (rm_payload m).
Proof.
  intros Hw r. subst r. unfold read_raw_deflate_member.
  destruct (validate_raw_member_bounds _ _ _ _ _ _) as [[]|] eqn:Hv; [|done].
  apply validated_bounds in Hv as (Hh&Hs&Hmo&Hup&Hhu). cbn [mbind result_bind].
  rewrite <- (payload_offset_local s1 s2) by done.
  destruct (raw_member_payload_offset s1 header size upper) as [p|] eqn:Hp; [|done].
  apply payload_offset_bounds in Hp as [Hp1 Hp2]. cbn [mbind result_bind].
  assert (0 <= header <= p) as Hhp by (unfold LOCAL_FILE_BYTES in *; lia).
  rewrite <- (decompress_local s1 s2 header p size upper) by (done || lia). split; [done|].
  intros m (bytes&Hb&Hm)%bind_ok. injection Hm as <-. cbn.
  assert (zlen bytes <= max_output).
  { unfold decompress_raw_member in Hb. apply bind_ok in Hb as ([d out]&_&Hb).
    apply bind_ok in Hb as ([d' fl]&_&Hb). inv_ok. by bool_prop. }
  split_and!; try done; lia.
Qed.

(** Recovery always ends, with a decoder that keeps its documented limits:
    each pass consumes input, produces output or is refused. *)
Theorem recovery_terminates `{!DecoderLaws D}
    source file_size header size upper max_compressed max_output cp :
  read_raw_deflate_member source file_size header size upper max_compressed max_output cp ≠
    Err RawOutOfFuel.
Proof.
  unfold read_raw_deflate_member. apply bind_avoids; [unfold validate_raw_member_bounds; avoid|].
  intros [] (_&Hs&Hmo&_)%validated_bounds. apply bind_avoids; [unfold raw_member_payload_offset; avoid|].
  intros p _. apply bind_avoids; [|intros bytes _; done]. unfold decompress_raw_member.
  apply bind_avoids; [apply member_loop_fuel; cbn; lia|]. intros [d output] _. avoid.
Qed.
End guarantees.

(** A decoder that copies its input, whose stream is always complete. *)
Module CopyDecoder.
#[export] Instance copy : Decoder (list byte) := {|
  decoder_new := [];
  decompress _ bs n := Some (drop (Z.to_nat n) bs, take (Z.to_nat n) bs);
  unconsumed_tail d := d;
  unused_data _ := [];
  eof _ := true;
  flush d _ := Some (d, []);
|}.

#[export] Instance copy_laws : DecoderLaws (list byte).
Proof.
  split; cbn.
  - intros d bs n d' out Hn [= <- <-]. rewrite length_take. lia.
  - intros d bs n d' out [= <- <-]. exists (take (Z.to_nat n) bs). by rewrite take_drop.
Qed.

(** A header with a one-byte name, four payload bytes, and a byte past them. *)
Definition member (trailer : Z) : list byte := z2b <$>
  [80; 75; 3; 4; 20; 0; 0; 0; 8; 0; 0; 0; 0; 0; 0; 0; 0; 0; 4; 0; 0; 0; 4; 0; 0; 0; 1; 0; 0; 0;
   97; 1; 2; 3; 4; trailer].

Lemma recovery_is_confined_witness :
  window (member 7) 0 35 = window (member 9) 0 35 ∧
  read_raw_deflate_member (member 9) 36 0 4 35 100 100 (λ _, false) =
    Ok {| rm_payload := z2b <$> [1; 2; 3; 4]; rm_actual_size := 4; rm_actual_crc32 := 3057449933 |}.
Proof.
  split; [reflexivity|].
  rewrite (proj1 (recovery_is_confined (member 7) (member 9) 36 0 4 35 100 100 (λ _, false) eq_refl)).
  vm_compute. reflexivity.
Defined.

Lemma recovery_terminates_witness :
  read_raw_deflate_member (member 7) 36 0 4 35 100 3 (λ _, false) = Err OutputTooLarge ∧
  read_raw_deflate_member (member 7) 36 0 4 35 100 3 (λ _, false) ≠ Err RawOutOfFuel.
Proof. split; [vm_compute; reflexivity|apply recovery_terminates]. Defined.
End CopyDecoder.
