(* ===== verification/ZipRoundtrip.v ===== *)
(** * Archives the ZIP preflight accepts

    A reference writer of plain archives (no ZIP64, no comment, optionally
    behind a self-extracting stub) and the round trip: the preflight accepts
    what the writer writes and returns exactly its members. *)

From S2P Require Import Prelude ZipStructure ZipSafety.

(** ** The writer *)

Record zip_member : Type := {
  zm_name : list byte;
  zm_payload : list byte;
  zm_flags : Z;
  zm_method : Z;
  zm_crc : Z;
  zm_size : Z;
}.

(** Consecutive little-endian fields, as [struct.pack] writes them. *)
Definition pack (l : list (nat * Z)) : list byte := mjoin ((λ '(w, z), to_le w z) <$> l).

Definition local_header (m : zip_member) : list byte :=
  LOCAL_FILE_SIGNATURE ++
  pack [(2%nat, 20); (2%nat, zm_flags m); (2%nat, zm_method m); (4%nat, 0); (4%nat, zm_crc m);
        (4%nat, zlen (zm_payload m)); (4%nat, zm_size m); (2%nat, zlen (zm_name m)); (2%nat, 0)].

Definition local_record (m : zip_member) : list byte :=
  local_header m ++ zm_name m ++ zm_payload m.

Definition central_header (m : zip_member) (off : Z) : list byte :=
  CENTRAL_SIGNATURE ++
  pack [(2%nat, 20); (2%nat, 20); (2%nat, zm_flags m); (2%nat, zm_method m); (4%nat, 0);
        (4%nat, zm_crc m); (4%nat, zlen (zm_payload m)); (4%nat, zm_size m);
        (2%nat, zlen (zm_name m)); (2%nat, 0); (2%nat, 0); (2%nat, 0); (2%nat, 0); (4%nat, 0);
        (4%nat, off)].

Definition central_entry (m : zip_member) (off : Z) : list byte := central_header m off ++ zm_name m.

Definition end_record (count size off : Z) : list byte :=
  EOCD_SIGNATURE ++
  pack [(2%nat, 0); (2%nat, 0); (2%nat, count); (2%nat, count); (4%nat, size); (4%nat, off);
        (2%nat, 0)].

Definition local_bytes (m : zip_member) : Z :=
  LOCAL_FILE_BYTES + zlen (zm_name m) + zlen (zm_payload m).

Definition locals_bytes (ms : list zip_member) : Z := sum_with local_bytes ms.

Definition locals (ms : list zip_member) : list byte := mjoin (local_record <$> ms).

Fixpoint centrals (off : Z) (ms : list zip_member) : list byte :=
  match ms with
  | [] => []
  | m :: ms' => central_entry m off ++ centrals (off + local_bytes m) ms'
  end.

Definition centrals_bytes (ms : list zip_member) : Z :=
  sum_with (λ m, CENTRAL_DIRECTORY_BYTES + zlen (zm_name m)) ms.

(** The archive; its offsets count from its own start, not from the stub's. *)
Definition write_zip (ms : list zip_member) : list byte :=
  locals ms ++ centrals 0 ms ++ end_record (zlen ms) (centrals_bytes ms) (locals_bytes ms).

(** A member that plain records can describe. *)
Record plain_member (m : zip_member) : Prop := {
  pm_name : zlen (zm_name m) < 65536;
  pm_payload : zlen (zm_payload m) < NO32;
  pm_flags : 0 <= zm_flags m < 65536;
  pm_method : 0 <= zm_method m < 65536;
  pm_crc : 0 <= zm_crc m <= NO32;
  pm_size : 0 <= zm_size m < NO32;
  pm_text : ∃ t, decode_name (zm_flags m) (zm_name m) = Some t ∧ 0 ∉ t;
}.

Definition member_text (m : zip_member) : pystr := default [] (decode_name (zm_flags m) (zm_name m)).

(** What the preflight must return: consecutive members from [off] on. *)
Definition expected_entry (n header upper : Z) (m : zip_member) : ZipMemberStructure :=
  {| ordinal := n; filename := member_text m; header_offset := header;
     payload_offset := header + LOCAL_FILE_BYTES + zlen (zm_name m);
     compressed_size := zlen (zm_payload m); uncompressed_size := zm_size m;
     crc32 := zm_crc m; compression_method := zm_method m; flags := zm_flags m;
     upper_bound := upper; is_directory := ends_with_slash (member_text m) |}.

Fixpoint expected (bound : Z → zip_member → Z) (n header : Z) (ms : list zip_member)
  : list ZipMemberStructure :=
  match ms with
  | [] => []
  | m :: ms' => expected_entry n header (bound header m) m ::
                expected bound (n + 1) (header + local_bytes m) ms'
  end.

(** ** Fields of records *)

Lemma length_to_be w n : (0 < w)%nat → 0 <= n < 256 ^ Z.of_nat w → length (to_be w n) = w.
Proof. intros. by apply to_be_spec. Qed.

Definition packable (f : nat * Z) : Prop := (0 < f.1)%nat ∧ 0 <= f.2 < 256 ^ Z.of_nat f.1.

Definition widths (l : list (nat * Z)) : nat := foldr (λ f n, (f.1 + n)%nat) 0%nat l.

Lemma length_pack l : Forall packable l → length (pack l) = widths l.
Proof.
  induction 1 as [|[w z] l [Hw Hz] _ IH]; [done|]. cbn in *.
  rewrite length_app, (proj1 (to_le_spec w z Hw Hz)). f_equal. exact IH.
Qed.

Lemma pack_app l1 l2 : pack (l1 ++ l2) = pack l1 ++ pack l2.
Proof. unfold pack. by rewrite fmap_app, join_app. Qed.

(** The [i]-th field of a packed record behind a four-byte signature. *)
Lemma record_field sig l i w z off :
  length sig = 4%nat → Forall packable l → l !! i = Some (w, z) →
  off = (4 + widths (take i l))%nat → field (sig ++ pack l) off w = z.
Proof.
  intros Hs Hl Hi ->. rewrite <- (take_drop_middle l i (w, z) Hi) in Hl |- *.
  set (l1 := take i l) in *. set (l2 := drop (S i) l) in *.
  rewrite take_app_length' by (subst l1; rewrite length_take; apply lookup_lt_Some in Hi; lia).
  apply Forall_app in Hl as [H1 [[Hw Hz] _]%Forall_cons].
  rewrite pack_app. unfold field. rewrite app_assoc, drop_app_length'
    by (rewrite length_app, Hs, (length_pack l1 H1); lia).
  destruct (to_le_spec w z Hw Hz) as [Hlen Hv].
  change (pack ((w, z) :: l2)) with (to_le w z ++ pack l2). by rewrite take_app_length'.
Qed.

Lemma read_here source pre mid post off len :
  source = pre ++ mid ++ post → off = zlen pre → len = zlen mid →
  read_exact source off len = Ok mid.
Proof.
  intros -> -> ->. unfold read_exact. rewrite !Nat2Z.id, drop_app_length, take_app_length.
  by rewrite Z.eqb_refl.
Qed.

(** Lists of fields whose widths are given and whose values are in range. *)
Ltac packables :=
  repeat (apply Forall_cons; split; [split; [cbn; lia|cbn; unfold NO32 in *; lia]|]); apply Forall_nil; exact I.

(** Finds the position of the field a record is read at. *)
Ltac record_fields Hl :=
  let rec go n :=
    first [ refine (record_field _ _ n _ _ _ _ Hl _ _); reflexivity
          | lazymatch n with 15%nat => fail | _ => let k := eval cbv in (S n) in go k end ] in
  first [ go 0%nat | reflexivity ].

Lemma local_header_spec m :
  plain_member m →
  zlen (local_header m) = LOCAL_FILE_BYTES ∧
  unpack_local (local_header m) =
    {| lf_signature := LOCAL_FILE_SIGNATURE; lf_flags := zm_flags m; lf_compression := zm_method m;
       lf_compressed := zlen (zm_payload m); lf_uncompressed := zm_size m;
       lf_name := zlen (zm_name m); lf_extra := 0 |}.
Proof.
  intros [Hn Hp Hf Hm Hc Hs _]. unfold local_header.
  match goal with |- context [pack ?l] => assert (Forall packable l) as Hl by packables end.
  split; [rewrite length_app, (length_pack _ Hl); done|].
  unfold unpack_local. f_equal; record_fields Hl.
Qed.

Lemma central_header_spec m off :
  plain_member m → 0 <= off < NO32 →
  zlen (central_header m off) = CENTRAL_DIRECTORY_BYTES ∧
  unpack_central (central_header m off) =
    {| cd_signature := CENTRAL_SIGNATURE; cd_flags := zm_flags m; cd_compression := zm_method m;
       cd_crc32 := zm_crc m; cd_compressed := zlen (zm_payload m); cd_uncompressed := zm_size m;
       cd_name := zlen (zm_name m); cd_extra := 0; cd_comment := 0; cd_disk := 0;
       cd_local_offset := off |}.
Proof.
  intros [Hn Hp Hf Hm Hc Hs _] Ho. unfold central_header.
  match goal with |- context [pack ?l] => assert (Forall packable l) as Hl by packables end.
  split; [rewrite length_app, (length_pack _ Hl); done|].
  unfold unpack_central. f_equal; record_fields Hl.
Qed.

Lemma end_record_spec count size off :
  0 <= count < 65536 → 0 <= size <= NO32 → 0 <= off <= NO32 →
  zlen (end_record count size off) = EOCD_FIXED_BYTES ∧
  unpack_eocd (end_record count size off) =
    {| e_disk := 0; e_central_disk := 0; e_disk_members := count; e_members := count;
       e_central_size := size; e_central_offset := off; e_comment := 0 |}.
Proof.
  intros Hc Hs Ho. unfold end_record.
  match goal with |- context [pack ?l] => assert (Forall packable l) as Hl by packables end.
  split; [rewrite length_app, (length_pack _ Hl); done|].
  unfold unpack_eocd. f_equal; record_fields Hl.
Qed.

(** ** Reading the archive back *)

Lemma local_bytes_pos m : LOCAL_FILE_BYTES <= local_bytes m.
Proof. unfold local_bytes. lia. Qed.

Lemma local_record_length m : plain_member m → zlen (local_record m) = local_bytes m.
Proof.
  intros Hm. unfold local_record, local_bytes. rewrite !length_app.
  destruct (local_header_spec m Hm) as [Hl _]. lia.
Qed.

Lemma locals_length ms : Forall plain_member ms → zlen (locals ms) = locals_bytes ms.
Proof.
  induction 1 as [|m ms Hm _ IH]; [done|].
  change (locals (m :: ms)) with (local_record m ++ locals ms).
  change (locals_bytes (m :: ms)) with (local_bytes m + locals_bytes ms).
  rewrite length_app. pose proof (local_record_length m Hm). lia.
Qed.

Lemma locals_nonneg ms : 0 <= locals_bytes ms.
Proof.
  apply sum_with_nonneg. intros m _. pose proof (local_bytes_pos m). unfold LOCAL_FILE_BYTES in *. lia.
Qed.

(** A record without ZIP64 markers stands for itself. *)
Lemma plain_entry_values c :
  cd_compressed c < NO32 → cd_uncompressed c < NO32 → cd_local_offset c < NO32 → cd_disk c = 0 →
  zip64_entry_values c [] = Ok (cd_compressed c, cd_uncompressed c, cd_local_offset c, cd_disk c).
Proof.
  intros H1 H2 H3 H4. unfold zip64_entry_values.
  rewrite (proj2 (Z.eqb_neq (cd_uncompressed c) _)), (proj2 (Z.eqb_neq (cd_compressed c) _)),
    (proj2 (Z.eqb_neq (cd_local_offset c) _)) by lia.
  by rewrite H4.
Qed.

Lemma member_validates source m n base off directory file_size pre post pre' post' :
  plain_member m → 0 <= off < NO32 → 0 <= base →
  source = pre ++ local_record m ++ post → zlen pre = base + off →
  source = pre' ++ zm_name m ++ post' →
  base + off + local_bytes m <= directory <= file_size →
  validate_central_member source (unpack_central (central_header m off)) n (Some (zlen pre'))
    (zlen pre' + zlen (zm_name m)) directory base file_size =
  Ok (expected_entry n (base + off) directory m).
Proof.
  intros Hm Ho Hb Hs Hpre Hs' Hd. destruct (central_header_spec m off Hm Ho) as [_ ->].
  destruct (local_header_spec m Hm) as [Hll Hlu]. pose proof Hm as [Hn Hp Hf _ _ Hsz (t&Ht&Hnul)].
  unfold validate_central_member. cbn [cd_name cd_flags cd_signature cd_extra default from_option id].
  rewrite (read_here source pre' (zm_name m) post' _ _ Hs' eq_refl eq_refl). cbn [mbind result_bind].
  rewrite Ht. cbn [or_raise mbind result_bind]. rewrite (bool_decide_eq_false_2 (0 ∈ t)) by done.
  cbn [raise_if mbind result_bind]. rewrite (bool_decide_eq_true_2 (CENTRAL_SIGNATURE = _)) by done.
  cbn [negb raise_if mbind result_bind].
  change (read_exact source _ 0) with (@Ok zip_error (list byte) []). cbn [mbind result_bind].
  rewrite plain_entry_values by (cbn; lia). unfold local_bytes, NO32 in *.
  cbn [cd_crc32 cd_compression cd_disk cd_local_offset cd_compressed cd_uncompressed mbind
       result_bind Z.eqb negb raise_if].
  rewrite (Z.add_comm off base). unfold LOCAL_FILE_BYTES in *.
  rewrite (proj2 (Z.ltb_ge _ 0)), (proj2 (Z.leb_gt _ _)), (proj2 (Z.ltb_ge _ _)) by lia.
  cbn [orb raise_if mbind result_bind].
  rewrite (read_here source pre (local_header m) ((zm_name m ++ zm_payload m) ++ post));
    [|by rewrite Hs; unfold local_record; rewrite <- !app_assoc|done|by rewrite Hll].
  cbn [mbind result_bind]. rewrite Hlu. cbn [lf_signature lf_name lf_extra lf_flags lf_compressed lf_uncompressed].
  rewrite (bool_decide_eq_true_2 (LOCAL_FILE_SIGNATURE = _)) by done. cbn [negb raise_if mbind result_bind].
  rewrite Z.add_0_r, !(proj2 (Z.ltb_ge _ _)) by lia. cbn [raise_if mbind result_bind].
  unfold disagrees. rewrite !Z.eqb_refl, !andb_false_r.
  assert ((if negb (Z.testbit (zm_flags m) 3)
           then raise_if false CompressedDisagree;; raise_if false UncompressedDisagree
           else Ok tt) = @Ok zip_error unit tt) as -> by by destruct (negb _).
  cbn [mbind result_bind]. unfold expected_entry, member_text. by rewrite Ht.
Qed.

Lemma locals_bytes_app a b : locals_bytes (a ++ b) = locals_bytes a + locals_bytes b.
Proof. apply sum_with_app. Qed.

Lemma locals_app a b : locals (a ++ b) = locals a ++ locals b.
Proof. unfold locals. by rewrite fmap_app, join_app. Qed.

Lemma centrals_app off a b : centrals off (a ++ b) = centrals off a ++ centrals (off + locals_bytes a) b.
Proof.
  revert off. induction a as [|m a IH]; intros off; cbn [app centrals]; [by rewrite Z.add_0_r|].
  change (locals_bytes (m :: a)) with (local_bytes m + locals_bytes a).
  by rewrite IH, <- app_assoc, Z.add_assoc.
Qed.

Lemma expected_app f n h a b :
  expected f n h (a ++ b) = expected f n h a ++ expected f (n + zlen a) (h + locals_bytes a) b.
Proof.
  revert n h. induction a as [|m a IH]; intros n h; cbn [app expected]; [by rewrite !Z.add_0_r|].
  rewrite IH. cbn [app]. change (locals_bytes (m :: a)) with (local_bytes m + locals_bytes a).
  do 3 f_equal; cbn [length]; lia.
Qed.

Lemma central_entry_length m off :
  plain_member m → 0 <= off < NO32 →
  zlen (central_entry m off) = CENTRAL_DIRECTORY_BYTES + zlen (zm_name m).
Proof.
  intros Hm Ho. unfold central_entry. rewrite length_app.
  destruct (central_header_spec m off Hm Ho) as [Hl _]. lia.
Qed.

Lemma centrals_length ms : ∀ off,
  Forall plain_member ms → 0 <= off → off + locals_bytes ms < NO32 →
  zlen (centrals off ms) = centrals_bytes ms.
Proof.
  induction ms as [|m ms IH]; intros off Hf Ho Hl; [done|]. apply Forall_cons in Hf as [Hm Hf].
  change (locals_bytes (m :: ms)) with (local_bytes m + locals_bytes ms) in Hl.
  change (centrals_bytes (m :: ms)) with (CENTRAL_DIRECTORY_BYTES + zlen (zm_name m) + centrals_bytes ms).
  pose proof (local_bytes_pos m). pose proof (locals_nonneg ms). unfold LOCAL_FILE_BYTES in *.
  cbn [centrals]. rewrite length_app, Nat2Z.inj_add, central_entry_length, IH by (done || lia). lia.
Qed.

Section directory.
Context (stub tail : list byte) (ms : list zip_member) (b : directory_bounds).
Context (plain : Forall plain_member ms) (small : locals_bytes ms < NO32).
Context (Hoff : b_offset b = zlen stub + locals_bytes ms) (Hadj : b_adjustment b = zlen stub).
Context (Hend : b_end b = b_offset b + centrals_bytes ms) (Hmax : zlen ms <= b_max_members b).
Context (Hdecl : zlen ms <= b_declared b) (Hsize : b_offset b <= b_file_size b).

Let source : list byte := stub ++ locals ms ++ centrals 0 ms ++ tail.
Let unbounded : Z → zip_member → Z := λ _ _, b_offset b.

(** One record of the directory. *)
Lemma record_reads done m todo seen :
  ms = done ++ m :: todo →
  (∀ h, h ∈ seen → h < zlen stub + locals_bytes done) →
  central_record source b (b_offset b + centrals_bytes done) (zlen done) seen =
    Ok (expected_entry (zlen done) (zlen stub + locals_bytes done) (b_offset b) m,
        CENTRAL_DIRECTORY_BYTES + zlen (zm_name m)).
Proof.
  intros Hms Hseen. pose proof plain as Hp. rewrite Hms in Hp. apply Forall_app in Hp as [Hd Hp].
  apply Forall_cons in Hp as [Hm Ht]. pose proof small as Hs. rewrite Hms, locals_bytes_app in Hs.
  change (locals_bytes (m :: todo)) with (local_bytes m + locals_bytes todo) in Hs.
  pose proof (locals_nonneg done). pose proof (locals_nonneg todo). pose proof (local_bytes_pos m) as Hpos.
  unfold LOCAL_FILE_BYTES in Hpos. set (off := locals_bytes done) in *.
  assert (0 <= off < NO32) as Ho by lia.
  destruct (central_header_spec m off Hm Ho) as [Hcl Hcu].
  assert (centrals_bytes ms = centrals_bytes done + (CENTRAL_DIRECTORY_BYTES + zlen (zm_name m)) + centrals_bytes todo) as Hcb.
  { rewrite Hms. unfold centrals_bytes. rewrite sum_with_app. cbn [sum_with]. lia. }
  assert (0 <= centrals_bytes todo) as Hct.
  { apply sum_with_nonneg. unfold CENTRAL_DIRECTORY_BYTES. lia. }
  assert (locals_bytes ms = off + local_bytes m + locals_bytes todo) as Hlb.
  { rewrite Hms, locals_bytes_app. unfold off. cbn [locals_bytes sum_with]. fold (locals_bytes todo). lia. }
  set (pre := stub ++ locals ms ++ centrals 0 done).
  assert (zlen pre = b_offset b + centrals_bytes done) as Hpre.
  { unfold pre. rewrite !length_app, !Nat2Z.inj_add, locals_length, (centrals_length done 0), Hoff by (done || lia). lia. }
  set (post := centrals (off + local_bytes m) todo ++ tail).
  assert (source = pre ++ central_header m off ++ zm_name m ++ post) as Hsrc.
  { unfold source, pre, post. rewrite Hms at 2. rewrite centrals_app. cbn [centrals].
    unfold central_entry. rewrite Z.add_0_l. fold off. by rewrite <- !app_assoc. }
  assert (source = (stub ++ locals done) ++ local_record m ++ (locals todo ++ centrals 0 ms ++ tail)) as Hloc.
  { unfold source. rewrite Hms at 1. rewrite locals_app.
    change (locals (m :: todo)) with (local_record m ++ locals todo). by rewrite <- !app_assoc. }
  assert (zlen (stub ++ locals done) = zlen stub + off) as Hlp
    by (rewrite length_app, Nat2Z.inj_add, locals_length; done).
  assert (zlen (pre ++ central_header m off) = b_offset b + centrals_bytes done + CENTRAL_DIRECTORY_BYTES)
    as Hname by (rewrite length_app; lia).
  unfold central_record. cbv zeta.
  rewrite (proj2 (Z.ltb_ge (b_end b - (b_offset b + centrals_bytes done)) _))
    by (rewrite Hend, Hcb; lia).
  cbn [raise_if mbind result_bind].
  rewrite (read_here source pre (central_header m off) (zm_name m ++ post) _ _ Hsrc) by done.
  cbn [mbind result_bind]. rewrite Hcu.
  cbn [cd_signature cd_name cd_extra cd_comment]. rewrite (bool_decide_eq_true_2 (CENTRAL_SIGNATURE = _)) by done.
  cbn [negb raise_if mbind result_bind]. rewrite !Z.add_0_r.
  assert (zlen ms = zlen done + 1 + zlen todo) as Hlen by (rewrite Hms, length_app; cbn; lia).
  rewrite (proj2 (Z.ltb_ge (b_end b - _) _)) by (rewrite Hend, Hcb; lia).
  rewrite (proj2 (Z.ltb_ge (b_max_members b) _)), (proj2 (Z.ltb_ge (b_declared b) _)) by lia.
  cbn [raise_if mbind result_bind]. rewrite <- Hcu, <- Hname, Hadj.
  rewrite (member_validates source m (zlen done) (zlen stub) off (b_offset b) (b_file_size b)
    (stub ++ locals done) (locals todo ++ centrals 0 ms ++ tail) (pre ++ central_header m off) post);
    [|done|done|lia|done|done|by rewrite <- app_assoc|lia].
  cbn [mbind result_bind expected_entry header_offset].
  rewrite bool_decide_eq_false_2; [done|]. intros Hin%Hseen. lia.
Qed.

Lemma directory_reads fuel : ∀ todo done seen,
  ms = done ++ todo → (length todo <= fuel)%nat →
  (∀ h, h ∈ seen → h < zlen stub + locals_bytes done) →
  central_loop fuel source b (b_offset b + centrals_bytes done) (zlen done) seen
    (expected unbounded 0 (zlen stub) done) =
  Ok (b_end b, zlen ms, expected unbounded 0 (zlen stub) ms).
Proof.
  induction fuel as [|fuel IH]; intros todo done seen Hms Hf Hseen; cbn [central_loop].
  { destruct todo; [|cbn in Hf; lia]. rewrite app_nil_r in Hms. subst done.
    by rewrite <- Hend, Z.leb_refl. }
  destruct todo as [|m todo].
  { rewrite app_nil_r in Hms. subst done. by rewrite <- Hend, Z.leb_refl. }
  assert (b_offset b + centrals_bytes done < b_end b) as Hlt.
  { rewrite Hend, Hms. unfold centrals_bytes. rewrite sum_with_app. cbn [sum_with].
    assert (0 <= sum_with (λ m, CENTRAL_DIRECTORY_BYTES + zlen (zm_name m)) todo)
      by (apply sum_with_nonneg; unfold CENTRAL_DIRECTORY_BYTES; lia).
    unfold CENTRAL_DIRECTORY_BYTES in *. lia. }
  rewrite (proj2 (Z.leb_gt _ _) Hlt), (record_reads done m todo seen Hms Hseen).
  cbn [mbind result_bind]. rewrite <- (IH todo (done ++ [m]) ({[zlen stub + locals_bytes done]} ∪ seen)).
  - rewrite expected_app, length_app. unfold centrals_bytes. rewrite sum_with_app.
    cbn [sum_with expected length expected_entry header_offset]. f_equal; lia.
  - by rewrite <- app_assoc.
  - cbn in Hf. lia.
  - intros h. rewrite locals_bytes_app, elem_of_union, elem_of_singleton.
    cbn [locals_bytes sum_with]. pose proof (local_bytes_pos m). unfold LOCAL_FILE_BYTES in *.
    intros [->|Hh%Hseen]; lia.
Qed.
End directory.

(** ** Upper bounds of consecutive members *)

Definition after_member (h : Z) (m : zip_member) : Z := h + local_bytes m.

Lemma expected_headers f ms : ∀ n h e, e ∈ expected f n h ms → h <= header_offset e.
Proof.
  induction ms as [|m ms IH]; intros n h e He; [by apply elem_of_nil in He|].
  apply elem_of_cons in He as [->|He]; [done|]. apply IH in He.
  pose proof (local_bytes_pos m). unfold LOCAL_FILE_BYTES in *. lia.
Qed.

Lemma expected_sorted f ms : ∀ n h, sort_by_offset (expected f n h ms) = expected f n h ms.
Proof.
  induction ms as [|m ms IH]; intros n h; [done|]. cbn [expected sort_by_offset foldr].
  fold (sort_by_offset (expected f (n + 1) (h + local_bytes m) ms)). rewrite IH.
  destruct ms as [|m' ms]; [done|]. cbn [expected insert_by_offset expected_entry header_offset].
  pose proof (local_bytes_pos m). unfold LOCAL_FILE_BYTES in *.
  by rewrite (proj2 (Z.leb_le _ _)) by lia.
Qed.

Lemma bounds_of_expected f ms : ∀ n h,
  (λ e, with_upper_bound
          (upper_bounds (h + locals_bytes ms) (expected f n h ms) !!! header_offset e) e)
    <$> expected f n h ms = expected after_member n h ms.
Proof.
  induction ms as [|m ms IH]; intros n h; [done|]. cbn [expected upper_bounds fmap list_fmap].
  pose proof (local_bytes_pos m). unfold LOCAL_FILE_BYTES in *.
  change (locals_bytes (m :: ms)) with (local_bytes m + locals_bytes ms). f_equal.
  - cbn [expected_entry header_offset]. rewrite lookup_total_insert_eq.
    unfold with_upper_bound, expected_entry, after_member. cbn. f_equal.
    destruct ms; [cbn; lia|done].
  - rewrite <- IH. apply list_fmap_ext. intros i e He.
    apply list_elem_of_lookup_2, expected_headers in He. cbn [expected_entry header_offset].
    rewrite lookup_total_insert_ne by lia. by rewrite Z.add_assoc.
Qed.

Lemma expected_length f n h ms : length (expected f n h ms) = length ms.
Proof. revert n h. induction ms as [|m ms IH]; intros n h; [done|]. cbn. by rewrite IH. Qed.

Lemma centrals_count ms : zlen ms <= centrals_bytes ms.
Proof.
  induction ms as [|m ms IH]; [done|].
  change (centrals_bytes (m :: ms)) with (CENTRAL_DIRECTORY_BYTES + zlen (zm_name m) + centrals_bytes ms).
  unfold CENTRAL_DIRECTORY_BYTES. cbn [length]. lia.
Qed.

Lemma directory_inspected stub tail ms b :
  Forall plain_member ms → locals_bytes ms < NO32 →
  b_offset b = zlen stub + locals_bytes ms → b_adjustment b = zlen stub →
  b_end b = b_offset b + centrals_bytes ms → zlen ms <= b_max_members b →
  b_declared b = zlen ms → b_offset b <= b_file_size b →
  inspect_central_directory (stub ++ locals ms ++ centrals 0 ms ++ tail) b =
    Ok (expected after_member 0 (zlen stub) ms).
Proof.
  intros Hp Hs Ho Ha He Hm Hd Hf. unfold inspect_central_directory. pose proof (centrals_count ms).
  assert (central_loop (Z.to_nat (b_end b - b_offset b)) (stub ++ locals ms ++ centrals 0 ms ++ tail) b
    (b_offset b + centrals_bytes []) (zlen (@nil zip_member)) ∅
    (expected (λ _ _, b_offset b) 0 (zlen stub) []) =
    Ok (b_end b, zlen ms, expected (λ _ _, b_offset b) 0 (zlen stub) ms)) as Hloop.
  { apply directory_reads with (todo := ms); try done; lia. }
  change (centrals_bytes []) with 0 in Hloop. rewrite Z.add_0_r in Hloop.
  cbn [expected length] in Hloop. change (Z.of_nat 0) with 0 in Hloop.
  rewrite Hloop. cbn [mbind result_bind]. rewrite Hd, !Z.eqb_refl. cbn [negb raise_if mbind result_bind].
  by rewrite expected_sorted, Ho, bounds_of_expected.
Qed.

(** The end record at the very end of a file is the one that is found. *)
Lemma find_last_record body count size off :
  0 <= count < 65536 → 0 <= size <= NO32 → 0 <= off <= NO32 →
  let source := body ++ end_record count size off in
  find_eocd source (zlen source) = Ok (zlen body, unpack_eocd (end_record count size off)).
Proof.
  intros Hc Hs Ho source. destruct (end_record_spec count size off Hc Hs Ho) as [Hl Hu].
  assert (zlen source = zlen body + EOCD_FIXED_BYTES) as Hlen
    by (unfold source; rewrite length_app; lia).
  set (ts := tail_size (zlen source)).
  assert (EOCD_FIXED_BYTES <= ts <= zlen source) as Hts.
  { unfold ts, tail_size, EOCD_FIXED_BYTES, MAX_ZIP_COMMENT_BYTES in *. lia. }
  set (i := Z.to_nat (ts - EOCD_FIXED_BYTES)). unfold EOCD_FIXED_BYTES in *.
  assert (drop i (zip_tail source (zlen source)) = end_record count size off) as Hd.
  { unfold zip_tail. fold ts. rewrite take_ge by (rewrite length_drop; lia). rewrite drop_drop.
    replace (Z.to_nat (zlen source - ts) + i)%nat with (length body) by (unfold i; lia).
    unfold source. apply drop_app_length. }
  assert (zlen (zip_tail source (zlen source)) = ts) as Hzl.
  { unfold zip_tail. fold ts. rewrite length_take, length_drop. lia. }
  assert (end_record_at (zip_tail source (zlen source)) i) as Hat.
  { split; unfold EOCD_FIXED_BYTES; rewrite ?Hd, ?Hu; cbn [e_comment]; try (unfold i; lia). done. }
  pose proof (find_eocd_spec source (zlen source)) as H. destruct (find_eocd _ _) as [[o e]|e].
  - destruct H as (j&->&[_ Hj _]&->&Hmax). specialize (Hmax i Hat). fold ts.
    unfold EOCD_FIXED_BYTES in *. assert (j = i) as -> by (unfold i in *; lia).
    rewrite Hd. do 2 f_equal. unfold i. lia.
  - destruct H as [[_ H]|[_ H]]; [fold ts in H; lia|by destruct (H i)].
Qed.

Lemma plain_directory_values source eocd_offset file_size count size off :
  count < NO16 → size < NO32 → off < NO32 →
  let e := {| e_disk := 0; e_central_disk := 0; e_disk_members := count; e_members := count;
              e_central_size := size; e_central_offset := off; e_comment := 0 |} in
  directory_values source eocd_offset file_size e = Ok (count, size, off, eocd_offset) ∧
  is_zip64 e = false.
Proof.
  intros Hn Hs Ho e. assert (is_zip64 e = false) as Hz.
  { unfold is_zip64. cbn. by rewrite !(proj2 (Z.eqb_neq _ _)) by lia. }
  split; [|done]. unfold directory_values. rewrite Hz. cbn [e e_disk_members e_members].
  by rewrite Z.eqb_refl.
Qed.

(** C29: what a plain writer writes, the preflight accepts and describes
    exactly: for any members that plain records can hold, behind any stub, and
    limits of the caller that admit their number and their directory, it returns every member in order with its name, its physical header and payload
    offsets, its sizes, its CRC and flags, and a recovery bound that is exactly
    the end of its payload. *)
Theorem preflight_reads_written_zip stub ms max_members max_directory :
  Forall plain_member ms → zlen ms < NO16 → locals_bytes ms < NO32 → centrals_bytes ms < NO32 →
  1 <= max_members → 1 <= max_directory →
  zlen ms <= max_members → centrals_bytes ms <= max_directory →
  inspect_zip_bytes (stub ++ write_zip ms) max_members max_directory =
  Ok {| members := zlen ms; central_directory_bytes := centrals_bytes ms;
        central_directory_offset := zlen stub + locals_bytes ms; zip64 := false;
        entries := expected after_member 0 (zlen stub) ms |}.
Proof.
  intros Hp Hn Hl Hc Hm1 Hd1 Hm Hd. pose proof (locals_nonneg ms). pose proof (centrals_count ms).
  set (tail := end_record (zlen ms) (centrals_bytes ms) (locals_bytes ms)).
  unfold write_zip. fold tail.
  assert (stub ++ locals ms ++ centrals 0 ms ++ tail = (stub ++ locals ms ++ centrals 0 ms) ++ tail) as Hsrc
    by by rewrite <- !app_assoc.
  assert (zlen ms < 65536) as Hn' by (unfold NO16 in Hn; lia).
  destruct (end_record_spec (zlen ms) (centrals_bytes ms) (locals_bytes ms)) as [Htl Htu]; [lia..|].
  fold tail in Htl, Htu.
  assert (zlen (stub ++ locals ms ++ centrals 0 ms) = zlen stub + locals_bytes ms + centrals_bytes ms) as Hbl
    by (rewrite !length_app, !Nat2Z.inj_add, locals_length, (centrals_length ms 0) by (done || lia); lia).
  pose proof (find_last_record (stub ++ locals ms ++ centrals 0 ms) (zlen ms) (centrals_bytes ms)
    (locals_bytes ms)) as Hf. cbv zeta in Hf. fold tail in Hf. rewrite <- Hsrc, Htu, Hbl in Hf.
  assert (zlen (stub ++ locals ms ++ centrals 0 ms ++ tail) =
    zlen stub + locals_bytes ms + centrals_bytes ms + EOCD_FIXED_BYTES) as Hlen
    by (rewrite Hsrc, length_app; lia).
  set (source := stub ++ locals ms ++ centrals 0 ms ++ tail) in *.
  unfold inspect_zip_bytes, inspect_zip_stream, inspect_zip_source. unfold EOCD_FIXED_BYTES in *.
  rewrite !(proj2 (Z.ltb_ge (zlen source) _)), (proj2 (Z.ltb_ge max_members 1)),
    (proj2 (Z.ltb_ge max_directory 1)) by lia.
  cbn [raise_if mbind result_bind]. rewrite Hf by lia. cbn [mbind result_bind e_comment e_disk e_central_disk].
  rewrite (proj2 (Z.eqb_eq (_ + 22 + 0) _)) by lia. cbn [negb orb Z.eqb raise_if mbind result_bind].
  destruct (plain_directory_values source (zlen stub + locals_bytes ms + centrals_bytes ms) (zlen source)
    (zlen ms) (centrals_bytes ms) (locals_bytes ms)) as [-> ->]; [done..|]. cbn [mbind result_bind].
  rewrite (proj2 (Z.ltb_ge max_members _)), (proj2 (Z.ltb_ge max_directory _)),
    (proj2 (Z.ltb_ge (_ + _) (centrals_bytes ms))) by lia.
  cbn [raise_if mbind result_bind].
  replace (zlen stub + locals_bytes ms + centrals_bytes ms - centrals_bytes ms - locals_bytes ms)
    with (zlen stub) by lia.
  rewrite (proj2 (Z.ltb_ge (zlen stub) 0)), (proj2 (Z.ltb_ge (locals_bytes ms + _) 0)),
    (proj2 (Z.ltb_ge (zlen source) _)) by lia.
  cbn [orb raise_if mbind result_bind]. rewrite (Z.add_comm (locals_bytes ms) (zlen stub)).
  rewrite (directory_inspected stub tail ms); cbn; try done; try lia.
Qed.

(** Two members behind a stub, one of them a directory. *)
Definition sample_members : list zip_member :=
  [ {| zm_name := z2b <$> [97]; zm_payload := z2b <$> [104; 105]; zm_flags := 0; zm_method := 0;
       zm_crc := 3633523372; zm_size := 2 |};
    {| zm_name := z2b <$> [100; 47]; zm_payload := []; zm_flags := 2048; zm_method := 0;
       zm_crc := 0; zm_size := 0 |} ].

Lemma preflight_reads_written_zip_witness :
  Forall plain_member sample_members ∧
  inspect_zip_bytes ((z2b <$> [35; 33]) ++ write_zip sample_members) 2 200 =
  Ok {| members := 2; central_directory_bytes := 95; central_directory_offset := 67; zip64 := false;
        entries := expected after_member 0 2 sample_members |}.
Proof.
  assert (Forall plain_member sample_members) as Hp.
  { assert (∀ t : pystr, bool_decide (0 ∈ t) = false → 0 ∉ t) as Hnul by (intros t; apply bool_decide_eq_false).
    apply Forall_cons; split; [|apply Forall_cons; split; [|apply Forall_nil; exact I]];
      (split; cbn; unfold NO32; try lia; eexists; split; [vm_compute; reflexivity|by apply Hnul]). }
  split; [exact Hp|].
  etrans; [apply (preflight_reads_written_zip (z2b <$> [35; 33]) sample_members 2 200 Hp);
    vm_compute; first [reflexivity|discriminate]|by vm_compute].
Defined.
