(* ===== verification/TextChunking.v ===== *)
(** * Bounded text chunking (neocortex/semantic/semantic_chunking.py)

    A section of text is cut into overlapping windows at natural boundaries, each
    within a character and a term limit and, with a tokenizer, within the exact
    token limit of the model.  The tokenizer, the fingerprint of a text and the
    hash of a chunk identity are parameters. *)

From S2P Require Import Prelude.

(** ** Configuration *)

Record TextChunkingConfig : Type := {
  max_chars : Z;
  max_terms : Z;
  overlap_chars : Z;
  overlap_terms : Z;
  min_natural_break_chars : Z;
  max_chunks_per_item : Z;
  algorithm_version : pystr;
  model_token_limit : option Z;
  tokenizer_signature : option pystr;
}.

Inductive config_error : Type :=
| BadMaxChars | BadMaxTerms | BadOverlapChars | BadOverlapTerms | BadNaturalBreak
| BadMaxChunks | BlankVersion | TokenContractSplit | BadTokenLimit | BlankSignature.

Definition in_range (lo z hi : Z) : bool := (lo <=? z) && (z <=? hi).

Definition blank (s : pystr) : bool := bool_decide (strip s = []).

(** [TextChunkingConfig.__post_init__]; the two last fields are untyped. *)
Definition make_config (chars terms o_chars o_terms natural chunks : Z) (version : pystr)
    (token_limit signature : pyval) : result config_error TextChunkingConfig :=
  raise_if (negb (in_range 64 chars 1000000)) BadMaxChars;;
  raise_if (negb (in_range 1 terms 100000)) BadMaxTerms;;
  raise_if (negb ((0 <=? o_chars) && (o_chars <? chars))) BadOverlapChars;;
  raise_if (negb ((0 <=? o_terms) && (o_terms <? terms))) BadOverlapTerms;;
  raise_if (negb (in_range 1 natural chars)) BadNaturalBreak;;
  raise_if (negb (in_range 1 chunks 10000000)) BadMaxChunks;;
  raise_if (blank version) BlankVersion;;
  raise_if (match token_limit, signature with
            | PNone, PNone => false
            | PNone, _ | _, PNone => true
            | _, _ => false
            end) TokenContractSplit;;
  limit ← match token_limit with
          | PNone => Ok None
          | PInt z => if in_range 1 z 1000000 then Ok (Some z) else Err BadTokenLimit
          | _ => Err BadTokenLimit
          end;
  sign ← match signature with
         | PNone => Ok None
         | PStr s => if blank s then Err BlankSignature else Ok (Some s)
         | _ => Err BlankSignature
         end;
  Ok {| max_chars := chars; max_terms := terms; overlap_chars := o_chars; overlap_terms := o_terms;
        min_natural_break_chars := natural; max_chunks_per_item := chunks;
        algorithm_version := version; model_token_limit := limit; tokenizer_signature := sign |}.

(** [TextChunkingConfig.signature] *)
Definition config_signature (c : TextChunkingConfig) : pystr :=
  algorithm_version c ++ py "|chars=" ++ dec_text (max_chars c) ++
  py "|terms=" ++ dec_text (max_terms c) ++ py "|overlap-chars=" ++ dec_text (overlap_chars c) ++
  py "|overlap-terms=" ++ dec_text (overlap_terms c) ++
  py "|natural-min=" ++ dec_text (min_natural_break_chars c) ++
  py "|max-chunks=" ++ dec_text (max_chunks_per_item c) ++
  match model_token_limit c with
  | Some n => py "|model-token-limit=" ++ dec_text n ++ py "|tokenizer=" ++
              default [] (tokenizer_signature c)
  | None => []
  end.

(** ** Text *)

(** [text[a:b]] for [0 <= a <= b]. *)
Definition slice (text : pystr) (a b : Z) : pystr := take (Z.to_nat (b - a)) (drop (Z.to_nat a) text).

Definition char_at (text : pystr) (i : Z) : option Z := text !! Z.to_nat i.

(** [text.split()] *)
Fixpoint split_words (word : pystr) (s : pystr) : list pystr :=
  match s with
  | [] => if bool_decide (word = []) then [] else [word]
  | c :: s' =>
      if is_space c
      then if bool_decide (word = []) then split_words [] s' else word :: split_words [] s'
      else split_words (word ++ [c]) s'
  end.

(** [" ".join(words)] *)
Fixpoint join_words (ws : list pystr) : pystr :=
  match ws with
  | [] => []
  | [w] => w
  | w :: ws' => w ++ 32 :: join_words ws'
  end.

Definition normalize_embedding_text (text : pystr) : pystr := join_words (split_words [] text).

(** The starts of the matches of [\S+] in a window that begins at [pos]. *)
Fixpoint term_starts (in_term : bool) (pos : Z) (w : pystr) : list Z :=
  match w with
  | [] => []
  | c :: w' =>
      if is_space c then term_starts false (pos + 1) w'
      else if in_term then term_starts true (pos + 1) w'
      else pos :: term_starts true (pos + 1) w'
  end.

Definition terms_between (text : pystr) (a b : Z) : list Z := term_starts false a (slice text a b).

(** The loop of [_term_limited_end]: the start of the first term too many. *)
Fixpoint first_excess (count limit : Z) (starts : list Z) : option Z :=
  match starts with
  | [] => None
  | p :: rest => if limit <? count + 1 then Some p else first_excess (count + 1) limit rest
  end.

Definition term_limited_end (text : pystr) (start hard_end limit : Z) : Z :=
  default hard_end (first_excess 0 limit (terms_between text start hard_end)).

Definition is_sentence_mark (c : Z) : bool :=
  bool_decide (c ∈ [46; 33; 63; 59; 58]).
(** The ideographic full stop and the full-width exclamation and question
    marks. *)
Definition is_wide_mark (c : Z) : bool := bool_decide (c ∈ [12290; 65281; 65311]).

(** Where the run of white space that starts at [pos] ends. *)
Fixpoint space_end (pos : Z) (w : pystr) : Z :=
  match w with
  | c :: w' => if is_space c then space_end (pos + 1) w' else pos
  | [] => pos
  end.

(** The end of the last match of [_SENTENCE_BREAK].  A match continues through
    white space only, so the scan may go on right after its mark. *)
Fixpoint last_sentence (pos : Z) (w : pystr) : option Z :=
  match w with
  | [] => None
  | c :: w' =>
      match last_sentence (pos + 1) w' with
      | Some e => Some e
      | None =>
          let e := space_end (pos + 1) w' in
          if is_wide_mark c then Some e
          else if is_sentence_mark c && (pos + 1 <? e) then Some e
          else None
      end
  end.

(** [window.rfind(pat)] as an offset past the match. *)
Definition rfind_end (start : Z) (pat w : pystr) : option Z :=
  (λ i, start + Z.of_nat i + zlen pat) <$> rfind pat w (length w).

Definition max_from (d : Z) (l : list Z) : Z := match l with [] => d | x :: l' => foldl Z.max x l' end.

(** [_natural_end] *)
Definition natural_end (text : pystr) (start end_ minimum_span : Z) : Z :=
  let minimum := start + minimum_span in
  if end_ <=? minimum then end_
  else
    let window := slice text start end_ in
    let candidates :=
      omap id [rfind_end start [10; 10] window; last_sentence start window;
               rfind_end start [10] window; rfind_end start [32] window] in
    max_from end_ (List.filter (λ c, (minimum <=? c) && (c <=? end_)) candidates).

(** The loops that skip white space up to [stop]. *)
Definition skip_spaces (text : pystr) (pos stop : Z) : Z := space_end pos (slice text pos stop).

(** [_next_start] *)
Definition next_start (text : pystr) (start end_ : Z) (c : TextChunkingConfig) : Z :=
  if (overlap_chars c =? 0) || (overlap_terms c =? 0) then end_
  else
    let starts := terms_between text start end_ in
    let kept := drop (length starts - Z.to_nat (overlap_terms c)) starts in
    let term_start := default end_ (head kept) in
    skip_spaces text (Z.max (Z.max (end_ - overlap_chars c) term_start) (start + 1)) end_.

(** [_window_end] *)
Definition window_end (source : pystr) (cursor : Z) (c : TextChunkingConfig) : Z :=
  let hard_end := Z.min (zlen source) (cursor + max_chars c) in
  let limited := term_limited_end source cursor hard_end (max_terms c) in
  let end_ := if limited <? zlen source
              then natural_end source cursor limited (min_natural_break_chars c) else limited in
  if cursor <? end_ then end_ else hard_end.

(** ** Exact token counts *)

Inductive chunk_error : Type :=
| BlankItem | ContractMismatch | CounterRaised | BadLimit | BadCountNumber | CountNotInteger
| CountNegative | LimitChanged | CharacterTooLong | TooManyChunks | NotEncodable
| ChunkInvalid | WindowMissing | ChunkOutOfFuel.

(** A tokenizer: the counts of the texts and its token limit, or an exception. *)
Abbreviation token_counter := (list pystr → option (list pyval * pyval)).

Fixpoint checked_counts (counts : list pyval) : result chunk_error (list Z) :=
  match counts with
  | [] => Ok []
  | PInt n :: rest =>
      raise_if (n <? 0) CountNegative;; ns ← checked_counts rest; Ok (n :: ns)
  | _ :: _ => Err CountNotInteger
  end.

(** [_exact_token_counts] *)
Definition exact_token_counts (texts : list pystr) (f : token_counter) (expected : Z)
  : result chunk_error (list Z * Z) :=
  '(counts, limit) ← or_raise (f texts) CounterRaised;
  limit ← match limit with
          | PInt n => if n <? 1 then Err BadLimit else Ok n
          | _ => Err BadLimit
          end;
  raise_if (negb (length counts =? length texts)%nat) BadCountNumber;;
  ns ← checked_counts counts;
  raise_if (negb (limit =? expected)) LimitChanged;;
  Ok (ns, limit).

(** [_exact_token_count] *)
Definition exact_token_count (text : pystr) (f : token_counter) (expected : Z)
  : result chunk_error (Z * Z) :=
  '(ns, limit) ← exact_token_counts [text] f expected;
  n ← or_raise (head ns) BadCountNumber;
  Ok (n, limit).

(** The end a rejected window is shrunk to. *)
Definition shrunk_end (text : pystr) (start end_ : Z) (c : TextChunkingConfig)
    (count limit : Z) : Z :=
  let span := end_ - start in
  let token_reserve := Z.max 4 (limit / 20) in
  let target := Z.max 1 (limit - token_reserve) in
  let proportional := Z.max 1 (span * target / Z.max 1 count) in
  let forced := Z.max 1 (span - Z.max 1 (span / 20)) in
  let next_span := Z.min (Z.min (span - 1) proportional) forced in
  let proposed := start + next_span in
  let natural := natural_end text start proposed (Z.min (min_natural_break_chars c) next_span) in
  if (start <? natural) && (natural <? end_) then natural else proposed.

(** [_fit_exact_token_budget] *)
Fixpoint fit_exact (fuel : nat) (text : pystr) (start end_ : Z) (c : TextChunkingConfig)
    (expected : Z) (f : token_counter) (initial : option Z) : result chunk_error (Z * pystr) :=
  let normalized := normalize_embedding_text (slice text start end_) in
  '(count, limit) ← match initial with
                    | Some n => Ok (n, expected)
                    | None => exact_token_count normalized f expected
                    end;
  if count <=? limit then Ok (end_, normalized)
  else
    raise_if (end_ - start <=? 1) CharacterTooLong;;
    match fuel with
    | O => Err ChunkOutOfFuel
    | S fuel' =>
        fit_exact fuel' text start (shrunk_end text start end_ c count limit) c expected f None
    end.

Definition fit_exact_token_budget (text : pystr) (start end_ : Z) (c : TextChunkingConfig)
    (expected : Z) (f : token_counter) (initial : option Z) : result chunk_error (Z * pystr) :=
  fit_exact (Z.to_nat (end_ - start)) text start end_ c expected f initial.

(** The windows [_count_window_lookahead] speculates on. *)
Fixpoint lookahead_windows (n : nat) (source : pystr) (cursor : Z) (c : TextChunkingConfig)
  : list (Z * Z) :=
  match n with
  | O => []
  | S n' =>
      if zlen source <=? cursor then []
      else
        let cursor := skip_spaces source cursor (zlen source) in
        if zlen source <=? cursor then []
        else
          let end_ := window_end source cursor c in
          (cursor, end_) ::
            (if zlen source <=? end_ then []
             else lookahead_windows n' source (next_start source cursor end_ c) c)
  end.

(** [_count_window_lookahead] *)
Definition count_window_lookahead (source : pystr) (cursor : Z) (c : TextChunkingConfig)
    (expected : Z) (f : token_counter) (max_windows : Z) : result chunk_error (gmap (Z * Z) Z) :=
  let limit := Z.max 1 (Z.min max_windows ((2 * 1024 * 1024) / max_chars c)) in
  let windows := lookahead_windows (Z.to_nat limit) source cursor c in
  '(counts, _) ← exact_token_counts
    ((λ w, normalize_embedding_text (slice source w.1 w.2)) <$> windows) f expected;
  Ok (list_to_map (zip windows counts)).

(** The window at the cursor, with the tokenizer's state: the counts computed
    ahead and how far to look ahead. *)
Definition choose_window (source : pystr) (cursor : Z) (c : TextChunkingConfig)
    (f : option token_counter) (exact : gmap (Z * Z) Z) (lookahead : Z)
  : result chunk_error (Z * pystr * gmap (Z * Z) Z * Z) :=
  let end_ := window_end source cursor c in
  match f, model_token_limit c with
  | Some f, Some expected =>
      exact1 ← match exact !! (cursor, end_) with
               | Some _ => Ok exact
               | None => count_window_lookahead source cursor c expected f lookahead
               end;
      count ← or_raise (exact1 !! (cursor, end_)) WindowMissing;
      '(end1, normalized) ← fit_exact_token_budget source cursor end_ c expected f (Some count);
      Ok (if end1 =? end_
          then (end1, normalized, delete (cursor, end_) exact1, Z.min 32 (lookahead * 2))
          else (end1, normalized, ∅, 1))
  | _, _ => Ok (end_, normalize_embedding_text (slice source cursor end_), exact, lookahead)
  end.

(** ** Chunks *)

Section chunks.
(** The fingerprint of a text and the hash of the canonical JSON of a chunk
    identity; both encode UTF-8 and raise on a lone surrogate. *)
Context {P F : Type}.

Record TextSection : Type := {
  section_kind : pystr;
  section_id : pystr;
  section_text : pystr;
  provenance : P;
}.

(** The fields of the JSON object that [_chunk_identifier] hashes. *)
Record chunk_identity : Type := {
  id_item : pystr;
  id_ordinal : Z;
  id_kind : pystr;
  id_section : pystr;
  id_start : Z;
  id_end : Z;
  id_fingerprint : F;
  id_signature : pystr;
  id_provenance : P;
}.

Record TextChunk : Type := {
  chunk_id : pystr;
  item_id : pystr;
  chunk_ordinal : Z;
  chunk_kind : pystr;
  chunk_section : pystr;
  start_char : Z;
  end_char : Z;
  chunk_text : pystr;
  chunk_fingerprint : F;
  chunking_signature : pystr;
  chunk_provenance : P;
}.

Context (fingerprint : pystr → option F) (identify : chunk_identity → option pystr).

(** The generator has yielded the chunks of its state so far. *)
Abbreviation G A := (stm (list TextChunk) chunk_error A).

(** [yield TextChunk(...)] under the cap of the item; the constructor refuses a
    chunk that is longer than its span or empty. *)
Definition emit (item : pystr) (s : TextSection) (c : TextChunkingConfig) (start end_ : Z)
    (normalized : pystr) : G unit :=
  yielded ← get_state;
  let ordinal := zlen yielded in
  throw_if (max_chunks_per_item c <=? ordinal) TooManyChunks;;
  fp ← lift (or_raise (fingerprint normalized) NotEncodable);
  identifier ← lift (or_raise (identify
    {| id_item := item; id_ordinal := ordinal; id_kind := section_kind s;
       id_section := section_id s; id_start := start; id_end := end_; id_fingerprint := fp;
       id_signature := config_signature c; id_provenance := provenance s |}) NotEncodable);
  throw_if ((start <? 0) || (end_ <=? start) || bool_decide (normalized = []) ||
            (end_ - start <? zlen normalized)) ChunkInvalid;;
  put_state (yielded ++
    [ {| chunk_id := identifier; item_id := item; chunk_ordinal := ordinal;
         chunk_kind := section_kind s; chunk_section := section_id s; start_char := start;
         end_char := end_; chunk_text := normalized; chunk_fingerprint := fp;
         chunking_signature := config_signature c; chunk_provenance := provenance s |} ]).

(** The [while cursor < len(source)] loop of one section. *)
Fixpoint section_loop (fuel : nat) (item : pystr) (s : TextSection) (c : TextChunkingConfig)
    (f : option token_counter) (cursor : Z) (exact : gmap (Z * Z) Z) (lookahead : Z) : G unit :=
  let source := section_text s in
  if zlen source <=? cursor then mret tt else
  match fuel with
  | O => throw ChunkOutOfFuel
  | S fuel' =>
      let cursor := skip_spaces source cursor (zlen source) in
      if zlen source <=? cursor then mret tt
      else
        chosen ← lift (choose_window source cursor c f exact lookahead);
        let '(end_, normalized, exact', lookahead') := chosen in
        when (negb (bool_decide (normalized = []))) (emit item s c cursor end_ normalized);;
        if zlen source <=? end_ then mret tt
        else section_loop fuel' item s c f (next_start source cursor end_ c) exact' lookahead'
  end.

Fixpoint sections_loop (item : pystr) (sections : list TextSection) (c : TextChunkingConfig)
    (f : option token_counter) : G unit :=
  match sections with
  | [] => mret tt
  | s :: rest =>
      section_loop (length (section_text s)) item s c f 0 ∅ 32;;
      sections_loop item rest c f
  end.

(** [iter_text_chunks] *)
Definition iter_text_chunks (item : pystr) (sections : list TextSection) (c : TextChunkingConfig)
    (f : option token_counter) : G unit :=
  throw_if (blank item) BlankItem;;
  throw_if (negb (Bool.eqb (bool_decide (is_Some (model_token_limit c))) (bool_decide (is_Some f))))
    ContractMismatch;;
  sections_loop item sections c f.

(** [chunk_text_sections] *)
Definition chunk_text_sections (item : pystr) (sections : list TextSection)
    (c : TextChunkingConfig) (f : option token_counter) : result chunk_error (list TextChunk) :=
  match iter_text_chunks item sections c f [] with
  | (yielded, Ok _) => Ok yielded
  | (_, Err e) => Err e
  end.
End chunks.
