(* ===== verification/ChunkWindows.v ===== *)
(** * Windows over a text

    The laws of the window selection of [TextChunking]: the words of a text, the
    term limit, natural boundaries, the shrinking of a rejected window and the
    start of the next one. *)

From S2P Require Import Prelude TextChunking.

(** ** Slices *)

Lemma slice_lookup text a b i :
  0 <= a → 0 <= i < b - a → slice text a b !! Z.to_nat i = char_at text (a + i).
Proof.
  intros Ha Hi. unfold slice, char_at. rewrite lookup_take_lt by lia. rewrite lookup_drop. f_equal. lia.
Qed.

Lemma slice_length text a b :
  0 <= a <= b → b <= zlen text → zlen (slice text a b) = b - a.
Proof. intros Ha Hb. unfold slice. rewrite length_take, length_drop. lia. Qed.

Lemma slice_length_le text a b : a <= b → zlen (slice text a b) <= b - a.
Proof. intros Ha. unfold slice. rewrite length_take. lia. Qed.

Lemma slice_split text a m b :
  0 <= a <= m → m <= b → slice text a b = slice text a m ++ slice text m b.
Proof.
  intros Ha Hm. unfold slice. replace (Z.to_nat m) with (Z.to_nat a + Z.to_nat (m - a))%nat by lia.
  rewrite <- drop_drop. rewrite <- (take_drop (Z.to_nat (m - a)) (take (Z.to_nat (b - a)) _)) at 1.
  rewrite take_take, skipn_firstn_comm. f_equal; f_equal; lia.
Qed.

Lemma char_at_bound text i ch : 0 <= i → char_at text i = Some ch → i < zlen text.
Proof. intros Hi H%lookup_lt_Some. lia. Qed.

Lemma slice_cons text a b ch :
  0 <= a < b → char_at text a = Some ch → slice text a b = ch :: slice text (a + 1) b.
Proof.
  intros Ha Hc. rewrite (slice_split text a (a + 1) b) by lia. unfold slice at 1.
  replace (Z.to_nat (a + 1 - a)) with 1%nat by lia. unfold char_at in Hc.
  by rewrite (drop_S _ ch).
Qed.

(** ** White space *)

Lemma space_end_bounds w : ∀ pos, pos <= space_end pos w <= pos + zlen w.
Proof.
  induction w as [|c w IH]; intros pos; cbn; [lia|].
  destruct (is_space c); [specialize (IH (pos + 1))|]; lia.
Qed.

Lemma space_end_spec w : ∀ pos i,
  (0 <= i < space_end pos w - pos → ∃ ch, w !! Z.to_nat i = Some ch ∧ is_space ch = true) ∧
  (i = space_end pos w - pos → i < zlen w → ∃ ch, w !! Z.to_nat i = Some ch ∧ is_space ch = false).
Proof.
  induction w as [|c w IH]; intros pos i; cbn [space_end]; [cbn; split; lia|].
  destruct (is_space c) eqn:E.
  - destruct (IH (pos + 1) (i - 1)) as [H1 H2]. pose proof (space_end_bounds w (pos + 1)). split.
    + intros Hi. destruct (decide (i = 0)) as [->|]; [by exists c|].
      replace (Z.to_nat i) with (S (Z.to_nat (i - 1))) by lia. apply H1. lia.
    + intros Hi Hl. replace (Z.to_nat i) with (S (Z.to_nat (i - 1))) by lia. cbn in Hl. apply H2; lia.
  - split; [lia|]. intros -> _. rewrite Z.sub_diag. by exists c.
Qed.

Section skip.
Context (text : pystr) (pos stop : Z) (Hpos : 0 <= pos) (Hstop : stop <= zlen text).

Lemma skip_bounds : pos <= skip_spaces text pos stop <= Z.max pos stop.
Proof using Hpos Hstop.
  unfold skip_spaces. pose proof (space_end_bounds (slice text pos stop) pos).
  destruct (decide (pos <= stop)).
  - rewrite slice_length in H by lia. lia.
  - unfold slice in *. rewrite length_take in H. lia.
Qed.

Lemma skip_skips i :
  pos <= i < skip_spaces text pos stop → ∃ ch, char_at text i = Some ch ∧ is_space ch = true.
Proof using Hpos Hstop.
  intros Hi. pose proof skip_bounds. unfold skip_spaces in *.
  destruct (space_end_spec (slice text pos stop) pos (i - pos)) as [(ch&Hc&Hs) _]; [lia|].
  rewrite slice_lookup in Hc by lia. exists ch. by replace (pos + (i - pos)) with i in Hc by lia.
Qed.

Lemma skip_stops :
  skip_spaces text pos stop < stop →
  ∃ ch, char_at text (skip_spaces text pos stop) = Some ch ∧ is_space ch = false.
Proof using Hpos Hstop.
  intros Hi. pose proof skip_bounds. unfold skip_spaces in *. set (e := space_end _ _) in *.
  destruct (space_end_spec (slice text pos stop) pos (e - pos)) as [_ (ch&Hc&Hs)]; [done| |].
  { rewrite slice_length; lia. }
  rewrite slice_lookup in Hc by lia. exists ch. by replace (pos + (e - pos)) with e in Hc by lia.
Qed.
End skip.

Lemma skip_nothing text pos stop ch :
  0 <= pos → char_at text pos = Some ch → is_space ch = false → skip_spaces text pos stop = pos.
Proof.
  intros Hp Hc Hs. unfold skip_spaces. destruct (decide (pos < stop)).
  - rewrite (slice_cons _ _ _ ch) by (done || lia). cbn. by rewrite Hs.
  - unfold slice. by replace (Z.to_nat (stop - pos)) with 0%nat by lia.
Qed.

(** ** Words *)

Definition is_word (w : pystr) : Prop := w ≠ [] ∧ Forall (λ c, is_space c = false) w.

Lemma split_words_forall s : ∀ word,
  Forall (λ c, is_space c = false) word → Forall is_word (split_words word s).
Proof.
  induction s as [|c s IH]; intros word Hw; cbn.
  - case_bool_decide; [constructor|]. by repeat constructor.
  - destruct (is_space c) eqn:E.
    + case_bool_decide; [|constructor; [done|]]; apply IH; constructor.
    + apply IH. apply Forall_app. by repeat constructor.
Qed.

Lemma split_words_word w s : ∀ word,
  Forall (λ c, is_space c = false) w → split_words word (w ++ s) = split_words (word ++ w) s.
Proof.
  induction w as [|c w IH]; intros word Hw; cbn; [by rewrite app_nil_r|].
  inversion Hw; subst. rewrite H1. rewrite IH by done. by rewrite <- app_assoc.
Qed.

Lemma split_join ws : Forall is_word ws → split_words [] (join_words ws) = ws.
Proof.
  induction 1 as [|w ws [Hne Hw] Hws IH]; [done|]. destruct ws as [|w' ws].
  - cbn. rewrite <- (app_nil_r w), split_words_word by done. cbn. rewrite app_nil_r.
    by rewrite bool_decide_eq_false_2.
  - cbn [join_words]. rewrite split_words_word by done. cbn [split_words app]. cbn [join_words] in IH.
    rewrite bool_decide_eq_false_2 by done. change (is_space 32) with true. cbn iota. by rewrite IH.
Qed.

Lemma normalize_words text :
  split_words [] (normalize_embedding_text text) = split_words [] text.
Proof. apply split_join, split_words_forall. constructor. Qed.

Lemma join_split_length s : ∀ word,
  zlen (join_words (split_words word s)) <= zlen word + zlen s.
Proof.
  induction s as [|c s IH]; intros word; cbn [split_words].
  - case_bool_decide; cbn; lia.
  - destruct (is_space c).
    + case_bool_decide; [specialize (IH []); subst; cbn in *; lia|].
      specialize (IH []). cbn [length]. remember (split_words [] s) as ws.
      destruct ws as [|w ws]; [cbn; lia|]. change (join_words (word :: w :: ws)) with
        (word ++ 32 :: join_words (w :: ws)).
      rewrite length_app. cbn [length] in *. lia.
    + specialize (IH (word ++ [c])). rewrite length_app in IH. cbn in *. lia.
Qed.

Lemma normalize_length text : zlen (normalize_embedding_text text) <= zlen text.
Proof. apply (join_split_length text []). Qed.

Lemma words_are_terms s : ∀ word pos,
  length (split_words word s) =
  ((if bool_decide (word = []) then 0 else 1) +
   length (term_starts (negb (bool_decide (word = []))) pos s))%nat.
Proof.
  induction s as [|c s IH]; intros word pos; cbn [split_words term_starts].
  - by case_bool_decide.
  - destruct (is_space c).
    + case_bool_decide; cbn [negb length]; rewrite (IH [] (pos + 1)), bool_decide_eq_true_2 by done; done.
    + rewrite (IH _ (pos + 1)), (bool_decide_eq_false_2 (word ++ [c] = [])) by (by destruct word).
      case_bool_decide; done.
Qed.

Lemma words_of_slice text a b : length (split_words [] (slice text a b)) = length (terms_between text a b).
Proof. apply (words_are_terms _ [] a). Qed.

(** ** Terms *)

Lemma term_starts_app w1 w2 : ∀ t pos, ∃ l,
  term_starts t pos (w1 ++ w2) = term_starts t pos w1 ++ l ∧
  (∀ p, p ∈ term_starts t pos w1 → pos <= p < pos + zlen w1) ∧
  (∀ p, p ∈ l → pos + zlen w1 <= p < pos + zlen (w1 ++ w2)).
Proof.
  assert (Hall : ∀ w t pos p, p ∈ term_starts t pos w → pos <= p < pos + zlen w).
  { induction w as [|c w IH]; intros t pos p; cbn; [by intros ?%elem_of_nil|].
    destruct (is_space c), t; try rewrite elem_of_cons; intros H;
      repeat destruct H as [->|H]; try apply IH in H; lia. }
  induction w1 as [|c w1 IH]; intros t pos; cbn [app term_starts].
  - exists (term_starts t pos w2). split; [done|]. split; intros p Hp; [by apply elem_of_nil in Hp|].
    apply Hall in Hp. cbn [length] in *. lia.
  - destruct (IH (negb (is_space c)) (pos + 1)) as (l&Hl&H1&H2). exists l.
    destruct (is_space c), t; cbn [negb] in *; rewrite Hl; (split; [done|]); split; intros p Hp;
      try (apply elem_of_cons in Hp as [->|Hp]); try apply H1 in Hp; try apply H2 in Hp; cbn [length app]; lia.
Qed.

Lemma terms_between_split text a m b :
  0 <= a <= m → m <= b → b <= zlen text → ∃ l,
  terms_between text a b = terms_between text a m ++ l ∧
  (∀ p, p ∈ terms_between text a m → a <= p < m) ∧ (∀ p, p ∈ l → m <= p < b).
Proof.
  intros Ha Hm Hb. unfold terms_between. rewrite (slice_split text a m b) by lia.
  destruct (term_starts_app (slice text a m) (slice text m b) false a) as (l&Hl&H1&H2).
  exists l. split; [done|]. rewrite length_app in H2.
  split; intros p Hp; [apply H1 in Hp|apply H2 in Hp]; pose proof (slice_length text a m); 
    pose proof (slice_length text m b); lia.
Qed.

Lemma terms_between_range text a b p :
  0 <= a <= b → b <= zlen text → p ∈ terms_between text a b → a <= p < b.
Proof.
  intros Ha Hb Hp. destruct (terms_between_split text a b b) as (l&_&H&_); [lia|lia|lia|]. by apply H.
Qed.

Lemma first_excess_spec starts : ∀ count limit,
  count <= limit →
  match first_excess count limit starts with
  | Some p => ∃ l1 l2, starts = l1 ++ p :: l2 ∧ count + zlen l1 = limit
  | None => count + zlen starts <= limit
  end.
Proof.
  induction starts as [|p starts IH]; intros count limit Hc; cbn [first_excess]; [cbn; lia|].
  destruct (_ <? _) eqn:E; bool_prop.
  - exists [], starts. split; [done|cbn; lia].
  - specialize (IH (count + 1) limit E). destruct (first_excess _ _ _).
    + destruct IH as (l1&l2&->&Hl). exists (p :: l1), l2. split; [done|cbn [length]; lia].
    + cbn [length]. lia.
Qed.

Lemma term_limited_spec text start hard limit ch :
  0 <= start < hard → hard <= zlen text → 1 <= limit →
  char_at text start = Some ch → is_space ch = false →
  start < term_limited_end text start hard limit <= hard ∧
  ∀ e, start <= e <= term_limited_end text start hard limit → zlen (terms_between text start e) <= limit.
Proof.
  intros Hs Hh Hl Hc Hn. unfold term_limited_end.
  pose proof (first_excess_spec (terms_between text start hard) 0 limit ltac:(lia)) as Hx.
  destruct (first_excess _ _ _) as [p|]; cbn [default from_option id].
  - destruct Hx as (l1&l2&Heq&Hlen).
    assert (Hp : start < p < hard).
    { destruct (terms_between_split text start (start + 1) hard) as (l&Hsp&_&Hr); [lia..|].
      assert (terms_between text start (start + 1) = [start]) as E1.
      { unfold terms_between. rewrite (slice_cons _ _ _ ch) by (done || lia). unfold slice.
        rewrite Z.sub_diag. cbn. by rewrite Hn. }
      rewrite E1, Heq in Hsp. destruct l1 as [|x l1]; cbn in Hlen; [lia|].
      injection Hsp as -> Hsp. assert (p ∈ l) as Hpl; [|specialize (Hr p Hpl); lia].
      rewrite <- Hsp. apply elem_of_app. right. apply list_elem_of_here. }
    split; [lia|]. intros e He.
    destruct (terms_between_split text start e hard) as (l&Hsp&Hin&_); [lia..|].
    destruct (decide (zlen (terms_between text start e) <= limit)) as [|Hlt]; [done|]. exfalso.
    assert (p ∈ terms_between text start e); [|specialize (Hin p ltac:(done)); lia].
    apply list_elem_of_lookup. exists (length l1).
    rewrite <- (lookup_app_l _ l), <- Hsp, Heq by lia. by rewrite list_lookup_middle.
  - split; [lia|]. intros e He.
    destruct (terms_between_split text start e hard) as (l&Hsp&_&_); [lia..|].
    rewrite Hsp, length_app in Hx. lia.
Qed.

Lemma normalize_visible text start end_ ch :
  0 <= start < end_ → char_at text start = Some ch → is_space ch = false →
  normalize_embedding_text (slice text start end_) ≠ [].
Proof.
  intros Hs Hc Hn Hnil. pose proof (normalize_words (slice text start end_)) as E. rewrite Hnil in E.
  apply (f_equal length) in E. rewrite words_of_slice in E. unfold terms_between in E.
  rewrite (slice_cons _ _ _ ch) in E by done. cbn in E. by rewrite Hn in E.
Qed.

(** ** Window ends *)

Lemma max_from_spec d l : max_from d l = d ∨ max_from d l ∈ l.
Proof. destruct l as [|x l]; [by left|]. right. apply foldl_max_spec. Qed.

Lemma natural_end_spec text start end_ span :
  let r := natural_end text start end_ span in r = end_ ∨ start + span <= r <= end_.
Proof.
  cbv zeta. unfold natural_end. destruct (_ <=? _); [by left|].
  match goal with |- context [max_from end_ ?l] => destruct (max_from_spec end_ l) as [->|H] end; [by left|].
  right. apply list_elem_of_In, filter_In in H as [_ H]. bool_prop. lia.
Qed.

(** What the configuration guarantees to the window selection. *)
Definition valid_config (c : TextChunkingConfig) : Prop :=
  64 <= max_chars c ∧ 1 <= max_terms c ∧ 1 <= min_natural_break_chars c ∧
  0 <= overlap_chars c ∧ 0 <= overlap_terms c.

Lemma make_config_valid chars terms oc ot natural chunks version limit sign c :
  make_config chars terms oc ot natural chunks version limit sign = Ok c → valid_config c.
Proof.
  unfold make_config, valid_config, in_range. intros H. inv_ok. cbn. bool_prop. lia.
Qed.

Lemma make_config_limit chars terms oc ot natural chunks version limit sign c n :
  make_config chars terms oc ot natural chunks version limit sign = Ok c →
  model_token_limit c = Some n → 1 <= n.
Proof.
  unfold make_config, in_range. intros H Hn. inv_ok. cbn in Hn. subst.
  destruct limit; inv_ok; try done. case_in H7; inv_ok. bool_prop. lia.
Qed.

Section window.
Context (text : pystr) (c : TextChunkingConfig) (Hc : valid_config c).

Lemma window_end_spec cursor ch :
  0 <= cursor → char_at text cursor = Some ch → is_space ch = false →
  let e := window_end text cursor c in
  cursor < e <= Z.min (zlen text) (cursor + max_chars c) ∧
  ∀ e', cursor <= e' <= e → zlen (terms_between text cursor e') <= max_terms c.
Proof using Hc.
  intros H0 Hch Hn. cbv zeta. destruct Hc as (Hmc&Hmt&Hmin&_&_).
  pose proof (char_at_bound _ _ _ H0 Hch) as Hlt.
  set (hard := Z.min (zlen text) (cursor + max_chars c)).
  destruct (term_limited_spec text cursor hard (max_terms c) ch) as [Hb Ht]; [lia..|done|done|].
  unfold window_end. fold hard. set (limited := term_limited_end _ _ _ _) in *.
  assert (Hr : cursor < (if limited <? zlen text
                         then natural_end text cursor limited (min_natural_break_chars c)
                         else limited) <= limited).
  { destruct (_ <? _); [|lia].
    destruct (natural_end_spec text cursor limited (min_natural_break_chars c)) as [->|?]; lia. }
  revert Hr. set (e := if limited <? _ then _ else _). intros Hr.
  rewrite (proj2 (Z.ltb_lt cursor e)) by lia. split; [lia|]. intros e' He'. apply Ht. lia.
Qed.

Lemma shrunk_end_spec start end_ count limit :
  1 < end_ - start →
  start < shrunk_end text start end_ c count limit < end_.
Proof using Hc.
  intros Hs. destruct Hc as (_&_&Hmin&_). unfold shrunk_end. cbv zeta.
  set (next_span := Z.min _ _).
  assert (1 <= next_span <= end_ - start - 1) by (subst next_span; lia).
  destruct (_ && _) eqn:E; bool_prop; lia.
Qed.

Lemma next_start_spec start end_ :
  0 <= start < end_ → end_ <= zlen text →
  start < next_start text start end_ c <= end_.
Proof using Hc.
  intros Hs He. destruct Hc as (_&_&_&Hoc&Hot). unfold next_start.
  destruct (_ || _) eqn:E; [lia|]. bool_prop. cbv zeta.
  set (starts := terms_between text start end_).
  assert (Ht : default end_ (head (drop (length starts - Z.to_nat (overlap_terms c)) starts)) <= end_).
  { rewrite head_lookup, lookup_drop. destruct (starts !! _) eqn:El; cbn; [|lia].
    apply list_elem_of_lookup_2, terms_between_range in El; lia. }
  match goal with |- context [skip_spaces text ?p end_] => set (pos := p) end.
  assert (start + 1 <= pos <= end_) by (subst pos; lia).
  pose proof (skip_bounds text pos end_ ltac:(lia) ltac:(lia)). lia.
Qed.
End window.
