(* ===== verification/ChunkSafety.v ===== *)
(** * What the text chunker promises

    The generator of [TextChunking] runs to its end or to a documented error,
    every chunk it yields is an exact bounded window of its section, no visible
    character is lost, and counting tokens ahead in batches changes nothing. *)

From S2P Require Import Prelude TextChunking ChunkWindows.

(** The outcomes that would be defects: fuel that runs out, a window whose
    count was not computed, a chunk its own constructor refuses. *)
Definition internal (e : chunk_error) : bool :=
  match e with ChunkInvalid | WindowMissing | ChunkOutOfFuel => true | _ => false end.

(** A tokenizer that counts each text by itself. *)
Definition counter (count : pystr → Z) (limit : Z) : token_counter :=
  λ texts, Some ((λ t, PInt (count t)) <$> texts, PInt limit).

(** ** The tokenizer *)

Lemma checked_counts_ok counts : ∀ ns,
  checked_counts counts = Ok ns → counts = PInt <$> ns ∧ Forall (λ n, 0 <= n) ns.
Proof.
  induction counts as [|v counts IH]; cbn; intros ns H; [by injection H as <-|].
  destruct v; try done. inv_ok. destruct (IH _ ltac:(done)) as [-> Hn]. bool_prop.
  csimpl. split; [done|by constructor].
Qed.

Lemma exact_token_counts_ok texts f expected ns limit :
  exact_token_counts texts f expected = Ok (ns, limit) →
  limit = expected ∧ length ns = length texts ∧ f texts = Some (PInt <$> ns, PInt expected).
Proof.
  unfold exact_token_counts. intros H. apply bind_ok in H as ([counts v]&Hf&H). inv_ok.
  destruct v; inv_ok. case_in H; inv_ok.
  destruct (checked_counts_ok _ _ H1) as [-> _]. bool_prop.
  apply Nat.eqb_eq in H0. rewrite length_fmap in H0. by subst.
Qed.

Lemma checked_counts_avoids counts e : internal e = true → checked_counts counts ≠ Err e.
Proof.
  intros He. induction counts as [|v counts IH]; cbn; [done|]. destruct v; try by destruct e.
  apply bind_avoids; [by destruct e; try discriminate; avoid|]. intros _ _.
  by apply bind_avoids.
Qed.

Lemma exact_counts_avoids texts f expected e :
  internal e = true → exact_token_counts texts f expected ≠ Err e.
Proof.
  intros He. pose proof (λ l, checked_counts_avoids l e He) as Hc. unfold exact_token_counts.
  destruct e; try discriminate; avoid; apply bind_avoids; try done; intros; avoid.
Qed.

Lemma exact_count_avoids text f expected e :
  internal e = true → exact_token_count text f expected ≠ Err e.
Proof.
  intros He. apply bind_avoids; [by apply exact_counts_avoids|]. intros [ns l] _.
  apply bind_avoids; [by destruct e; try discriminate; avoid|done].
Qed.

(** ** Fitting a window to the token limit *)

Section fit.
Context (text : pystr) (c : TextChunkingConfig) (Hc : valid_config c) (expected : Z)
  (f : token_counter).

Lemma fit_exact_ok fuel : ∀ start end_ initial e norm,
  start < end_ → fit_exact fuel text start end_ c expected f initial = Ok (e, norm) →
  start < e <= end_ ∧ norm = normalize_embedding_text (slice text start e).
Proof using Hc.
  induction fuel as [|fuel IH]; intros start end_ initial e norm Hs H; cbn [fit_exact] in H;
    apply bind_ok in H as ([n l]&_&H); cbv iota beta in H;
    (destruct (n <=? l); [injection H as <- <-; split; [lia|done]|]); inv_ok; bool_prop.
  destruct (shrunk_end_spec text c Hc start end_ n l) as [??]; [lia|].
  apply IH in H0 as [??]; [split; [lia|done]|done].
Qed.

Lemma fit_exact_avoids fuel : ∀ start end_ initial e,
  internal e = true → end_ - start <= Z.of_nat fuel + 1 →
  fit_exact fuel text start end_ c expected f initial ≠ Err e.
Proof using Hc.
  induction fuel as [|fuel IH]; intros start end_ initial e He Hf; cbn [fit_exact];
    (apply bind_avoids; [destruct initial; [done|by apply exact_count_avoids]|]);
    intros [n l] _; destruct (n <=? l); try done;
    (apply bind_avoids; [by destruct e; try discriminate; avoid|]); intros ? Hspan; inv_ok; bool_prop.
  - lia.
  - apply IH; [done|]. pose proof (shrunk_end_spec text c Hc start end_ n l). lia.
Qed.

Lemma fit_budget_avoids start end_ initial e :
  internal e = true → fit_exact_token_budget text start end_ c expected f initial ≠ Err e.
Proof using Hc. intros He. apply fit_exact_avoids; [done|lia]. Qed.

(** The batch counted at a cursor holds the window of that cursor. *)
Lemma lookahead_has_window cursor ch width m :
  0 <= cursor → char_at text cursor = Some ch → is_space ch = false →
  count_window_lookahead text cursor c expected f width = Ok m →
  is_Some (m !! (cursor, window_end text cursor c)).
Proof using.
  intros H0 Hch Hn. unfold count_window_lookahead. cbv zeta.
  set (limit := Z.max 1 _). destruct (Z.to_nat limit) as [|k] eqn:Ek; [lia|].
  pose proof (char_at_bound _ _ _ H0 Hch) as Hlt.
  cbn [lookahead_windows]. rewrite (skip_nothing _ _ _ ch) by done.
  rewrite (proj2 (Z.leb_gt _ _)) by done. cbv iota zeta. intros H.
  apply bind_ok in H as ([counts l]&Hcount&H). injection H as <-.
  apply exact_token_counts_ok in Hcount as (_&Hl&_). destruct counts as [|n counts]; [done|].
  cbn. rewrite lookup_insert_eq. eauto.
Qed.
End fit.

(** ** The window at the cursor *)

Lemma choose_window_ok source cursor c f exact width e norm exact' width' ch :
  valid_config c → 0 <= cursor → char_at source cursor = Some ch → is_space ch = false →
  choose_window source cursor c f exact width = Ok (e, norm, exact', width') →
  cursor < e <= window_end source cursor c ∧ norm = normalize_embedding_text (slice source cursor e).
Proof.
  intros Hc H0 Hch Hn. destruct (window_end_spec source c Hc cursor ch H0 Hch Hn) as [[Hlt _] _].
  unfold choose_window. cbv zeta.
  destruct f as [f|], (model_token_limit c) as [expected|];
    try (intros [= <- <- _ _]; split; [lia|done]).
  intros H. inv_ok. destruct x1 as [e1 norm1].
  apply fit_exact_ok in H2 as [Hb ->]; [|done|done].
  destruct (e1 =? _); injection H3 as <- <- _ _; split; (lia || done).
Qed.

Lemma choose_window_avoids source cursor c f exact width ch e :
  valid_config c → 0 <= cursor → char_at source cursor = Some ch → is_space ch = false →
  internal e = true → choose_window source cursor c f exact width ≠ Err e.
Proof.
  intros Hc H0 Hch Hn He. unfold choose_window. cbv zeta.
  destruct f as [f|], (model_token_limit c) as [expected|]; try done.
  apply bind_avoids.
  { destruct (exact !! _); [done|]. apply bind_avoids; [by apply exact_counts_avoids|by intros []]. }
  intros exact1 H1. assert (is_Some (exact1 !! (cursor, window_end source cursor c))) as [n Hn1].
  { destruct (exact !! _) eqn:E; [injection H1 as <-; eauto|]. by eapply lookahead_has_window. }
  rewrite Hn1. cbn. apply bind_avoids; [by apply fit_budget_avoids|]. intros [e1 norm] _. done.
Qed.

(** ** Runs of the generator *)

Section runs.
Context {P F : Type} (fingerprint : pystr → option F) (identify : @chunk_identity P F → option pystr).

Abbreviation chunks := (list (@TextChunk P F)).
Abbreviation G := (stm chunks chunk_error).

(** A chunk is an exact window of a section. *)
Record window_of (item : pystr) (c : TextChunkingConfig) (s : @TextSection P)
    (k : @TextChunk P F) : Prop := {
  window_labels : item_id k = item ∧ chunk_kind k = section_kind s ∧
    chunk_section k = section_id s ∧ chunk_provenance k = provenance s ∧
    chunking_signature k = config_signature c;
  window_range : 0 <= start_char k < end_char k ∧ end_char k <= zlen (section_text s) ∧
    end_char k - start_char k <= max_chars c;
  window_text : chunk_text k =
    normalize_embedding_text (slice (section_text s) (start_char k) (end_char k));
  window_words : zlen (split_words [] (chunk_text k)) <= max_terms c;
  window_fingerprint : fingerprint (chunk_text k) = Some (chunk_fingerprint k);
  window_id : identify {| id_item := item; id_ordinal := chunk_ordinal k;
      id_kind := section_kind s; id_section := section_id s; id_start := start_char k;
      id_end := end_char k; id_fingerprint := chunk_fingerprint k;
      id_signature := config_signature c; id_provenance := provenance s |} = Some (chunk_id k);
}.

(** [ran Q cover ys out]: the outcome [out] of a run from the chunks [ys] only
    appends chunks that satisfy [Q] at their position; when the run returned
    they satisfy [cover], and when it raised the error is a documented one. *)
Definition ran (Q : Z → @TextChunk P F → Prop) (cover : chunks → Prop) (ys : chunks)
    (out : chunks * result chunk_error unit) : Prop :=
  ∃ new, out.1 = ys ++ new ∧ (∀ i k, new !! i = Some k → Q (zlen ys + Z.of_nat i) k) ∧
    match out.2 with Ok _ => cover new | Err e => internal e = false end.

Lemma ran_bind Q (cover1 cover2 cover : chunks → Prop) (m1 : G unit) (m2 : unit → G unit) ys :
  ran Q cover1 ys (m1 ys) → (∀ ys', ran Q cover2 ys' (m2 tt ys')) →
  (∀ a b, cover1 a → cover2 b → cover (a ++ b)) → ran Q cover ys ((m1 ≫= m2) ys).
Proof.
  intros (a&Ha&HQa&Hr) H2 Hc. rewrite stm_bind_eq.
  destruct (m1 ys) as [ys1 [[]|e]]; cbn [fst snd] in *; subst ys1; [|by exists a].
  destruct (H2 (ys ++ a)) as (b&Hb&HQb&Hr2). exists (a ++ b). rewrite Hb, <- app_assoc.
  split; [done|]. split.
  - intros i k [Hi|[Hle Hi]]%lookup_app_Some; [by apply HQa|]. apply HQb in Hi.
    rewrite length_app in Hi. by replace (zlen ys + Z.of_nat i) with
      (Z.of_nat (length ys + length a) + Z.of_nat (i - length a)) by lia.
  - destruct (m2 tt (ys ++ a)).2; [by apply Hc|done].
Qed.

Lemma ran_stop Q (cover : chunks → Prop) (r : result chunk_error unit) ys :
  match r with Ok _ => cover [] | Err e => internal e = false end → ran Q cover ys (ys, r).
Proof.
  exists []. rewrite app_nil_r. split; [done|]. split; [intros i k Hk; by rewrite lookup_nil in Hk|done].
Qed.

Context (item : pystr) (c : TextChunkingConfig) (Hc : valid_config c).

Lemma emit_ran (s : @TextSection P) (start end_ : Z) (norm : pystr) ch ys :
  0 <= start → char_at (section_text s) start = Some ch → is_space ch = false →
  start < end_ <= window_end (section_text s) start c →
  norm = normalize_embedding_text (slice (section_text s) start end_) →
  ran (λ n k, chunk_ordinal k = n ∧ n < max_chunks_per_item c ∧ window_of item c s k ∧
              chunk_text k = norm)
      (λ new, ∃ k, k ∈ new ∧ start_char k = start ∧ end_char k = end_ ∧ window_of item c s k)
      ys (emit fingerprint identify item s c start end_ norm ys).
Proof using Hc.
  intros H0 Hch Hn He Hnorm. set (text := section_text s) in *.
  destruct (window_end_spec text c Hc start ch H0 Hch Hn) as [Hb Ht].
  assert (Hlen : zlen norm <= end_ - start).
  { subst norm. pose proof (normalize_length (slice text start end_)).
    pose proof (slice_length text start end_). lia. }
  assert (Hwords : zlen (split_words [] norm) <= max_terms c).
  { subst norm. rewrite normalize_words, words_of_slice. apply Ht. lia. }
  assert (Hne : norm ≠ []) by (subst norm; eapply normalize_visible; [lia|done|done]).
  unfold emit. rewrite get_bind. cbv zeta. rewrite throw_if_bind.
  destruct (max_chunks_per_item c <=? zlen ys) eqn:Ecap; [by apply ran_stop|].
  rewrite lift_bind. destruct (fingerprint norm) as [fp|] eqn:Efp; cbn [or_raise];
    [|by apply ran_stop].
  rewrite lift_bind. destruct (identify _) as [identifier|] eqn:Eid; cbn [or_raise];
    [|by apply ran_stop].
  rewrite throw_if_bind. rewrite (proj2 (Z.ltb_ge start 0)), (proj2 (Z.leb_gt end_ start)),
    (bool_decide_eq_false_2 (norm = [])), (proj2 (Z.ltb_ge (end_ - start) (zlen norm))) by (done || lia).
  cbn [orb put_state fst snd]. bool_prop.
  eexists [_]. split; [done|]. split.
  - intros i k Hi. apply list_lookup_singleton_Some in Hi as [-> <-]. cbn. rewrite Z.add_0_r.
    repeat (split; [done|]). split; [|done]. split; cbn; try done. fold text. lia.
  - eexists. split; [apply list_elem_of_here|]. cbn. repeat (split; [done|]).
    split; cbn; try done. fold text. lia.
Qed.
(** The loop of a section, for any invariant [I] of the counts computed ahead and
    any property [A] of the accepted texts that [choose_window] maintains. *)
Context (f : option token_counter) (I : pystr → gmap (Z * Z) Z → Prop) (A : pystr → Prop)
  (I_empty : ∀ source, I source ∅)
  (I_step : ∀ source cursor exact width e norm exact' width', I source exact →
     choose_window source cursor c f exact width = Ok (e, norm, exact', width') →
     A norm ∧ I source exact').

(** What holds of the chunk with ordinal [n] of a section. *)
Definition good_chunk (s : @TextSection P) (n : Z) (k : @TextChunk P F) : Prop :=
  chunk_ordinal k = n ∧ n < max_chunks_per_item c ∧ window_of item c s k ∧ A (chunk_text k).

(** Every visible character from [cursor] on lies in one of the chunks. *)
Definition covers (s : @TextSection P) (cursor : Z) (new : chunks) : Prop :=
  ∀ i ch, cursor <= i → char_at (section_text s) i = Some ch → is_space ch = false →
  ∃ k, k ∈ new ∧ window_of item c s k ∧ start_char k <= i < end_char k.

Lemma covers_end s cursor new : 0 <= cursor → zlen (section_text s) <= cursor → covers s cursor new.
Proof using. intros H0 Hl i ch Hi Hch _. apply char_at_bound in Hch; lia. Qed.

Lemma covers_skip s cursor new :
  0 <= cursor →
  covers s (skip_spaces (section_text s) cursor (zlen (section_text s))) new → covers s cursor new.
Proof using.
  intros H0 Hcov i ch Hi Hch Hn. apply Hcov with ch; [|done|done].
  destruct (decide (i < skip_spaces (section_text s) cursor (zlen (section_text s)))); [|lia].
  destruct (skip_skips (section_text s) cursor (zlen (section_text s)) H0 ltac:(lia) i)
    as (ch'&Hch'&Hs); [lia|]. rewrite Hch in Hch'. injection Hch' as <-. by rewrite Hn in Hs.
Qed.

Lemma covers_next s cursor next a b :
  (∃ k, k ∈ a ∧ start_char k = cursor ∧ next <= end_char k ∧ window_of item c s k) →
  covers s next b → covers s cursor (a ++ b).
Proof using.
  intros (k&Hk&Hst&Hen&Hw) Hb i ch Hi Hch Hn. destruct (decide (i < next)).
  - exists k. split; [apply elem_of_app; auto|]. split; [done|lia].
  - destruct (Hb i ch) as (k'&Hk'&?); [lia|done|done|]. exists k'. split; [apply elem_of_app; auto|done].
Qed.

Lemma section_loop_ran s fuel : ∀ cursor exact width ys,
  0 <= cursor → zlen (section_text s) - cursor <= Z.of_nat fuel → I (section_text s) exact →
  ran (good_chunk s) (covers s cursor) ys
    (section_loop fingerprint identify fuel item s c f cursor exact width ys).
Proof using Hc I_step.
  induction fuel as [|fuel IH]; intros cursor exact width ys H0 Hf HI; cbn [section_loop]; cbv zeta.
  { rewrite (proj2 (Z.leb_le _ _)) by lia. by apply ran_stop, covers_end; [|lia]. }
  destruct (zlen (section_text s) <=? cursor) eqn:E; bool_prop; [by apply ran_stop, covers_end|].
  pose proof (skip_bounds (section_text s) cursor (zlen (section_text s)) H0 ltac:(lia)) as Hsb.
  pose proof (skip_stops (section_text s) cursor (zlen (section_text s)) H0 ltac:(lia)) as Hss.
  pose proof (λ new, covers_skip s cursor new H0) as Hskip.
  set (start := skip_spaces _ _ _) in *.
  destruct (zlen (section_text s) <=? start) eqn:E1; bool_prop.
  { apply ran_stop, Hskip, covers_end; lia. }
  destruct Hss as (ch&Hch&Hn); [lia|]. rewrite lift_bind.
  destruct (choose_window _ _ _ _ _ _) as [[[[e norm] exact'] width']|err] eqn:Ech;
    [|apply ran_stop; destruct (internal err) eqn:Ei; [|done];
      by eapply choose_window_avoids in Ech; [| |lia| | |]].
  destruct (I_step _ _ _ _ _ _ _ _ HI Ech) as [HA HI'].
  apply choose_window_ok with (ch := ch) in Ech as [He Hnorm]; [|done|lia|done|done].
  pose proof (window_end_spec (section_text s) c Hc start ch ltac:(lia) Hch Hn) as [Hw _].
  assert (Hemit : ∀ ys', ran (good_chunk s)
    (λ new, ∃ k, k ∈ new ∧ start_char k = start ∧ end_char k = e ∧ window_of item c s k) ys'
    (when (negb (bool_decide (norm = []))) (emit fingerprint identify item s c start e norm) ys')).
  { intros ys'. rewrite bool_decide_eq_false_2 by (subst norm; eapply normalize_visible; [lia|done|done]).
    destruct (emit_ran s start e norm ch ys' ltac:(lia) Hch Hn He Hnorm) as (new&?&HQ&?).
    exists new. split; [done|]. split; [|done]. intros i k Hk.
    destruct (HQ i k Hk) as (?&?&?&Htext). unfold good_chunk. by rewrite Htext. }
  apply ran_bind with (1 := Hemit ys) (cover2 := covers s (if zlen (section_text s) <=? e then e
    else next_start (section_text s) start e c)).
  - intros ys'. destruct (zlen (section_text s) <=? e) eqn:E2; bool_prop.
    + apply ran_stop, covers_end; lia.
    + pose proof (next_start_spec (section_text s) c Hc start e). apply IH; [lia|lia|done].
  - intros a b (k&Hk&Hst&Hen&Hwo) Hb. apply Hskip. eapply covers_next; [|exact Hb].
    exists k. repeat (split; [done|]). split; [|done]. subst.
    destruct (_ <=? end_char k) eqn:E2; bool_prop; [lia|].
    pose proof (next_start_spec (section_text s) c Hc start (end_char k)). lia.
Qed.
(** The same for all the sections of an item. *)
Definition good_item_chunk (sections : list (@TextSection P)) (n : Z) (k : @TextChunk P F) : Prop :=
  chunk_ordinal k = n ∧ n < max_chunks_per_item c ∧
  ∃ s, s ∈ sections ∧ window_of item c s k ∧ A (chunk_text k).

Definition covers_all (sections : list (@TextSection P)) (new : chunks) : Prop :=
  ∀ s, s ∈ sections → covers s 0 new.

Lemma ran_weaken (Q Q' : Z → @TextChunk P F → Prop) (cover cover' : chunks → Prop) ys out :
  ran Q cover ys out → (∀ n k, Q n k → Q' n k) → (∀ new, cover new → cover' new) →
  ran Q' cover' ys out.
Proof using.
  intros (new&Hnew&HQ&Hr) H1 H2. exists new. split; [done|]. split; [by eauto|].
  destruct out.2; [by apply H2|done].
Qed.

Lemma covers_app s cursor a b : covers s cursor a ∨ covers s cursor b → covers s cursor (a ++ b).
Proof using.
  intros [H|H] i ch Hi Hch Hn; destruct (H i ch Hi Hch Hn) as (k&?&?); exists k;
    (split; [apply elem_of_app; auto|done]).
Qed.

Lemma sections_loop_ran sections : ∀ ys,
  ran (good_item_chunk sections) (covers_all sections) ys
    (sections_loop fingerprint identify item sections c f ys).
Proof using Hc I_empty I_step.
  induction sections as [|s sections IH]; intros ys; cbn [sections_loop].
  { apply ran_stop. intros s Hs. by apply elem_of_nil in Hs. }
  apply (ran_bind _ (covers s 0) (covers_all sections)).
  - eapply ran_weaken; [apply section_loop_ran; [done|lia|apply I_empty]| |done].
    intros n k (?&?&?&?). split; [done|]. split; [done|]. exists s. set_solver.
  - intros ys'. eapply ran_weaken; [apply IH| |done].
    intros n k (?&?&s'&?&?). split; [done|]. split; [done|]. exists s'. set_solver.
  - intros a b Ha Hb s' [->|Hs]%elem_of_cons; apply covers_app; [by left|right; by apply Hb].
Qed.

Lemma item_ran sections :
  ran (good_item_chunk sections) (covers_all sections) []
    (iter_text_chunks fingerprint identify item sections c f []).
Proof using Hc I_empty I_step.
  unfold iter_text_chunks. rewrite throw_if_bind. destruct (blank item); [by apply ran_stop|].
  rewrite throw_if_bind. destruct (negb _); [by apply ran_stop|]. apply sections_loop_ran.
Qed.

Lemma item_chunks sections n k :
  (iter_text_chunks fingerprint identify item sections c f []).1 !! n = Some k →
  good_item_chunk sections (Z.of_nat n) k.
Proof using Hc I_empty I_step.
  destruct (item_ran sections) as (new&->&HQ&_). apply HQ.
Qed.

Lemma chunked_sections sections ys :
  chunk_text_sections fingerprint identify item sections c f = Ok ys →
  (iter_text_chunks fingerprint identify item sections c f []).1 = ys ∧ covers_all sections ys.
Proof using Hc I_empty I_step.
  unfold chunk_text_sections. destruct (item_ran sections) as (new&Hnew&_&Hr).
  destruct (iter_text_chunks _ _ _ _ _ _ _) as [ys' [[]|e]]; [|done]. cbn in *. intros [= <-].
  subst. done.
Qed.

Lemma item_errors sections e :
  chunk_text_sections fingerprint identify item sections c f = Err e → internal e = false.
Proof using Hc I_empty I_step.
  unfold chunk_text_sections. destruct (item_ran sections) as (new&_&_&Hr).
  destruct (iter_text_chunks _ _ _ _ _ _ _) as [ys' [[]|e']]; [done|]. cbn in *. by intros [= <-].
Qed.
End runs.

(** ** Counting ahead *)

Section pointwise.
Context (c : TextChunkingConfig) (Hc : valid_config c) (count : pystr → Z) (limit : Z)
  (Hcount : ∀ t, 0 <= count t) (Hlimit : 1 <= limit) (Hsigned : model_token_limit c = Some limit).

(** The counts computed ahead are the counts of their windows. *)
Definition truthful (source : pystr) (exact : gmap (Z * Z) Z) : Prop :=
  ∀ a b n, exact !! (a, b) = Some n → n = count (normalize_embedding_text (slice source a b)).

Lemma checked_counts_map (texts : list pystr) :
  checked_counts ((λ t, PInt (count t)) <$> texts) = Ok (count <$> texts).
Proof using Hcount.
  induction texts as [|t texts IH]; [done|]. csimpl. rewrite (proj2 (Z.ltb_ge _ _) (Hcount t)).
  cbn. by rewrite IH.
Qed.

Lemma counter_counts texts :
  exact_token_counts texts (counter count limit) limit = Ok (count <$> texts, limit).
Proof using Hcount Hlimit.
  unfold exact_token_counts, counter. cbn [or_raise]. rewrite bind_ok_l. cbv iota beta.
  rewrite (proj2 (Z.ltb_ge _ _) Hlimit), bind_ok_l, length_fmap, Nat.eqb_refl. cbn [negb raise_if].
  rewrite bind_ok_l, checked_counts_map, bind_ok_l, Z.eqb_refl. done.
Qed.

Lemma counter_count text :
  exact_token_count text (counter count limit) limit = Ok (count text, limit).
Proof using Hcount Hlimit. unfold exact_token_count. by rewrite counter_counts. Qed.

Lemma lookahead_truthful source cursor width : ∃ m,
  count_window_lookahead source cursor c limit (counter count limit) width = Ok m ∧ truthful source m.
Proof using Hcount Hlimit.
  unfold count_window_lookahead. cbv zeta. rewrite counter_counts, bind_ok_l. eexists. split; [done|].
  intros a b n Hn%elem_of_list_to_map_2.
  generalize dependent (lookahead_windows (Z.to_nat (Z.max 1 (Z.min width (2 * 1024 * 1024 / max_chars c))))
    source cursor c). intros ws. induction ws as [|w ws IH]; cbn; [by intros ?%elem_of_nil|].
  intros [E|Hin]%elem_of_cons; [|by apply IH]. by injection E as <- ->.
Qed.
Abbreviation count_alone source cursor end_ :=
  (fit_exact_token_budget source cursor end_ c limit (counter count limit) None).

Lemma fit_initial fuel source start end_ :
  fit_exact fuel source start end_ c limit (counter count limit)
    (Some (count (normalize_embedding_text (slice source start end_)))) =
  fit_exact fuel source start end_ c limit (counter count limit) None.
Proof using Hcount Hlimit. destruct fuel; cbn [fit_exact]; by rewrite counter_count. Qed.

Lemma fit_accepts fuel source start : ∀ end_ e norm,
  fit_exact fuel source start end_ c limit (counter count limit) None = Ok (e, norm) →
  count norm <= limit.
Proof using Hcount Hlimit.
  induction fuel as [|fuel IH]; intros end_ e norm; cbn [fit_exact];
    rewrite counter_count, bind_ok_l; cbv iota beta; case_match eqn:E; bool_prop;
    try (by intros [= _ <-]); intros H; inv_ok. by eapply IH.
Qed.

Lemma choose_window_counted source cursor exact width ch :
  0 <= cursor → char_at source cursor = Some ch → is_space ch = false → truthful source exact →
  ∃ exact' width', truthful source exact' ∧
    choose_window source cursor c (Some (counter count limit)) exact width =
    (λ r, (r.1, r.2, exact', width')) <$> count_alone source cursor (window_end source cursor c).
Proof using Hcount Hlimit Hsigned.
  intros H0 Hch Hn HI. unfold choose_window. cbv zeta. rewrite Hsigned.
  set (end_ := window_end source cursor c).
  assert (∃ exact1, truthful source exact1 ∧ is_Some (exact1 !! (cursor, end_)) ∧
    match exact !! (cursor, end_) with
    | Some _ => Ok exact
    | None => count_window_lookahead source cursor c limit (counter count limit) width
    end = Ok exact1) as (exact1&HI1&[n Hin]&->).
  { destruct (exact !! (cursor, end_)) eqn:E; [by exists exact|].
    destruct (lookahead_truthful source cursor width) as (m&Hm&HIm). exists m. split; [done|].
    split; [|done]. by eapply lookahead_has_window. }
  rewrite bind_ok_l, Hin. cbn [or_raise]. rewrite bind_ok_l, (HI1 _ _ _ Hin).
  unfold fit_exact_token_budget. rewrite fit_initial.
  destruct (fit_exact _ _ _ _ _ _ _ _) as [[e norm]|err] eqn:Ef; cbn; [|by exists exact, width].
  destruct (e =? end_); eexists _, _; (split; [|done]); intros a b n' Hl.
  - apply lookup_delete_Some in Hl as [_ Hl]. by apply HI1.
  - by rewrite lookup_empty in Hl.
Qed.

Lemma choose_window_accepts source cursor exact width e norm exact' width' :
  truthful source exact →
  choose_window source cursor c (Some (counter count limit)) exact width = Ok (e, norm, exact', width') →
  count norm <= limit ∧ truthful source exact'.
Proof using Hcount Hlimit Hsigned.
  intros HI. unfold choose_window. cbv zeta. rewrite Hsigned. intros H. inv_ok.
  assert (HIx : truthful source x).
  { destruct (exact !! _); [by injection H as <-|].
    destruct (lookahead_truthful source cursor width) as (m&Hm&HIm). rewrite Hm in H. by injection H as <-. }
  destruct x1 as [e1 norm1]. unfold fit_exact_token_budget in *.
  rewrite (HIx _ _ _ H0), fit_initial in H1. apply fit_accepts in H1.
  destruct (e1 =? _); injection H2 as <- <- <- _; (split; [done|]); intros a b n Hl.
  - apply lookup_delete_Some in Hl as [_ Hl]. by apply HIx.
  - by rewrite lookup_empty in Hl.
Qed.

(** The chunker that counts every window alone, the reference the batched one is
    compared with. *)
Section reference.
Context {P F : Type} (fingerprint : pystr → option F) (identify : @chunk_identity P F → option pystr).
Abbreviation G := (stm (list (@TextChunk P F)) chunk_error).

Fixpoint plain_section (fuel : nat) (item : pystr) (s : @TextSection P) (cursor : Z) : G unit :=
  let source := section_text s in
  if zlen source <=? cursor then mret tt else
  match fuel with
  | O => throw ChunkOutOfFuel
  | S fuel' =>
      let start := skip_spaces source cursor (zlen source) in
      if zlen source <=? start then mret tt
      else
        chosen ← lift (count_alone source start (window_end source start c));
        when (negb (bool_decide (chosen.2 = [])))
          (emit fingerprint identify item s c start chosen.1 chosen.2);;
        if zlen source <=? chosen.1 then mret tt
        else plain_section fuel' item s (next_start source start chosen.1 c)
  end.

Fixpoint plain_sections (item : pystr) (sections : list (@TextSection P)) : G unit :=
  match sections with
  | [] => mret tt
  | s :: rest => plain_section (length (section_text s)) item s 0;; plain_sections item rest
  end.

Definition chunk_text_plainly (item : pystr) (sections : list (@TextSection P))
  : result chunk_error (list (@TextChunk P F)) :=
  if blank item then Err BlankItem
  else match plain_sections item sections [] with
       | (yielded, Ok _) => Ok yielded
       | (_, Err e) => Err e
       end.

Lemma section_loop_plain item s fuel : ∀ cursor exact width ys,
  0 <= cursor → truthful (section_text s) exact →
  section_loop fingerprint identify fuel item s c (Some (counter count limit)) cursor exact width ys =
  plain_section fuel item s cursor ys.
Proof using Hcount Hlimit Hsigned Hc.
  induction fuel as [|fuel IH]; intros cursor exact width ys H0 HI;
    cbn [section_loop plain_section]; cbv zeta; [done|].
  destruct (zlen (section_text s) <=? cursor) eqn:E; [done|]. bool_prop.
  pose proof (skip_bounds (section_text s) cursor (zlen (section_text s)) H0 ltac:(lia)) as Hsb.
  pose proof (skip_stops (section_text s) cursor (zlen (section_text s)) H0 ltac:(lia)) as Hss.
  set (start := skip_spaces _ _ _) in *.
  destruct (zlen (section_text s) <=? start) eqn:E1; [done|]. bool_prop.
  destruct Hss as (ch&Hch&Hn); [lia|].
  destruct (choose_window_counted (section_text s) start exact width ch ltac:(lia) Hch Hn HI)
    as (exact'&width'&HI'&->).
  rewrite !lift_bind.
  pose proof (window_end_spec (section_text s) c Hc start ch ltac:(lia) Hch Hn) as [Hw _].
  destruct (count_alone _ _ _) as [[e norm]|err] eqn:Ef; cbn [fmap result_fmap fst snd]; [|done].
  apply fit_exact_ok in Ef as [He _]; [|done|lia].
  rewrite !stm_bind_eq. destruct (when _ _ ys) as [ys1 [[]|err]]; [|done].
  destruct (zlen (section_text s) <=? e) eqn:E2; [done|]. bool_prop. apply IH; [|done].
  pose proof (next_start_spec (section_text s) c Hc start e). lia.
Qed.

Lemma sections_loop_plain item sections : ∀ ys,
  sections_loop fingerprint identify item sections c (Some (counter count limit)) ys =
  plain_sections item sections ys.
Proof using Hcount Hlimit Hsigned Hc.
  induction sections as [|s sections IH]; intros ys; cbn [sections_loop plain_sections]; [done|].
  rewrite !stm_bind_eq, section_loop_plain; [|lia|by intros a b n Hl; rewrite lookup_empty in Hl].
  destruct (plain_section _ _ _ _ _) as [ys1 [[]|err]]; [apply IH|done].
Qed.

End reference.
End pointwise.

(** ** Theorems *)

Section theorems.
Context {P F : Type} (fingerprint : pystr → option F) (identify : @chunk_identity P F → option pystr).
Context (chars terms o_chars o_terms natural cap : Z) (version : pystr) (token_limit signature : pyval)
  (c : TextChunkingConfig).
Abbreviation valid :=
  (make_config chars terms o_chars o_terms natural cap version token_limit signature = Ok c).

(** C35: every chunk the generator yields, whether the run ends or raises later,
    is an exact window of a section of the item: it carries the labels of the
    section, its range is inside the text, not empty and no longer than
    [max_chars], its text is the white-space-collapsed slice and has at most
    [max_terms] words, its fingerprint and identifier are those of that text and
    place, and the chunks are numbered 0, 1, 2, ... below the cap of the item. *)
Theorem chunks_are_exact_windows item sections f (n : nat) k :
  valid →
  (iter_text_chunks fingerprint identify item sections c f []).1 !! n = Some k →
  chunk_ordinal k = Z.of_nat n ∧ Z.of_nat n < max_chunks_per_item c ∧
  ∃ s, s ∈ sections ∧ window_of fingerprint identify item c s k.
Proof.
  intros Hc%make_config_valid Hk.
  destruct (item_chunks fingerprint identify item c Hc f (λ _ _, True) (λ _, True) (λ _, I)
    (λ _ _ _ _ _ _ _ _ _ _, conj I I) sections n k Hk) as (?&?&s&?&?&_). eauto.
Qed.

(** C21: chunking loses nothing: when the sections of an item have been chunked,
    every visible character of every section lies in a chunk of that section, so
    (the text of a chunk being its collapsed slice) it is in the text of a chunk. *)
Theorem chunking_loses_nothing item sections f ys s i ch :
  valid →
  chunk_text_sections fingerprint identify item sections c f = Ok ys →
  s ∈ sections → 0 <= i → char_at (section_text s) i = Some ch → is_space ch = false →
  ∃ k, k ∈ ys ∧ window_of fingerprint identify item c s k ∧ start_char k <= i < end_char k.
Proof.
  intros Hc%make_config_valid Hys Hs H0 Hch Hn.
  destruct (chunked_sections fingerprint identify item c Hc f (λ _ _, True) (λ _, True) (λ _, I)
    (λ _ _ _ _ _ _ _ _ _ _, conj I I) sections ys Hys) as [_ Hcov].
  exact (Hcov s Hs i ch H0 Hch Hn).
Qed.

(** C39: chunking always ends, whatever the text and the tokenizer: the windows
    advance and a rejected window shrinks until it is accepted or one character
    long, so the loops end within their bounds; the count of a window is always
    there when it is popped, and no chunk is refused by its own constructor. *)
Theorem chunking_always_ends item sections f e :
  valid →
  chunk_text_sections fingerprint identify item sections c f = Err e →
  e ≠ ChunkOutOfFuel ∧ e ≠ WindowMissing ∧ e ≠ ChunkInvalid.
Proof.
  intros Hc%make_config_valid He.
  pose proof (item_errors fingerprint identify item c Hc f (λ _ _, True) (λ _, True) (λ _, I)
    (λ _ _ _ _ _ _ _ _ _ _, conj I I) sections e He) as Hi. by destruct e.
Qed.

(** C33: counting tokens ahead in batches changes nothing: with a tokenizer that
    counts each text by itself, the chunker that speculates on up to 32 windows
    and discards the suffix at a rejection returns the chunks, or raises the
    error, of the plain chunker that counts one window at a time. *)
Theorem batching_changes_nothing item sections count limit :
  valid → model_token_limit c = Some limit → (∀ t, 0 <= count t) →
  chunk_text_sections fingerprint identify item sections c (Some (counter count limit)) =
  chunk_text_plainly c count limit fingerprint identify item sections.
Proof.
  intros Hmake Hsigned Hcount. pose proof (make_config_valid _ _ _ _ _ _ _ _ _ _ Hmake) as Hc.
  unfold chunk_text_sections, chunk_text_plainly, iter_text_chunks.
  rewrite throw_if_bind. destruct (blank item); [done|]. rewrite throw_if_bind, Hsigned. cbn [is_Some].
  rewrite !bool_decide_eq_true_2 by eauto. cbn [Bool.eqb negb].
  rewrite sections_loop_plain; [done|done|done| |done].
  by eapply make_config_limit.
Qed.

(** With such a tokenizer no chunk exceeds the signed token limit: nothing is
    left to be truncated by the model. *)
Theorem chunks_fit_the_tokenizer item sections count limit ys k :
  valid → model_token_limit c = Some limit → (∀ t, 0 <= count t) →
  chunk_text_sections fingerprint identify item sections c (Some (counter count limit)) = Ok ys →
  k ∈ ys → count (chunk_text k) <= limit.
Proof.
  intros Hmake Hsigned Hcount Hys Hk. pose proof (make_config_valid _ _ _ _ _ _ _ _ _ _ Hmake) as Hc.
  pose proof (make_config_limit _ _ _ _ _ _ _ _ _ _ _ Hmake Hsigned) as Hlimit.
  pose proof (choose_window_accepts c count limit Hcount Hlimit Hsigned) as Hstep.
  assert (Hempty : ∀ source, truthful count source ∅)
    by (intros source a b n Hl; by rewrite lookup_empty in Hl).
  destruct (chunked_sections fingerprint identify item c Hc _ (truthful count) (λ t, count t <= limit)
    Hempty Hstep sections ys Hys) as [Hiter _].
  apply list_elem_of_lookup in Hk as [n Hn]. rewrite <- Hiter in Hn.
  by destruct (item_chunks fingerprint identify item c Hc _ (truthful count) (λ t, count t <= limit)
    Hempty Hstep sections n k Hn) as (_&_&s&_&_&?).
Qed.
End theorems.

(** Limits whose overlap is larger than the minimal span before a natural break,
    like the default limits (256 and 160). *)
Definition wide_overlap : TextChunkingConfig :=
  {| max_chars := 64; max_terms := 20; overlap_chars := 16; overlap_terms := 6;
     min_natural_break_chars := 10; max_chunks_per_item := 100; algorithm_version := py "v2";
     model_token_limit := None; tokenizer_signature := None |}.

(** Eight words followed by a run of 90 characters without white space. *)
Definition words_then_run : @TextSection unit :=
  {| section_kind := py "page"; section_id := py "1";
     section_text := py "abcdefgh ijklmnop qrst uvwx yzab cdefgh ijklmn op " ++ repeat 97 90;
     provenance := tt |}.

(** Windows can repeat one another.  When the overlap is larger than the
    minimal span before a natural break, the window before a long unbroken run
    ends at the same last break again while its start advances by a character:
    this section of 140 characters gives chunks of the ranges below, and the
    second to the seventh lie each inside the one before. *)
Theorem overlap_repeats_windows : ∃ ys,
  chunk_text_sections (F := unit) (λ _, Some tt) (λ i, Some (dec_text (id_ordinal i))) (py "item")
    [words_then_run] wide_overlap None = Ok ys ∧
  map (λ k, (start_char k, end_char k)) ys =
    [(0, 50); (34, 50); (35, 50); (36, 50); (37, 50); (38, 50); (40, 50); (41, 105); (89, 140)].
Proof. eexists. split; vm_compute; reflexivity. Qed.

(** ** Witnesses *)

Module Sample.
Definition words_twice (t : pystr) : Z := 2 * zlen (split_words [] t).

Definition config : TextChunkingConfig :=
  {| max_chars := 64; max_terms := 4; overlap_chars := 12; overlap_terms := 2;
     min_natural_break_chars := 10; max_chunks_per_item := 50; algorithm_version := py "v2";
     model_token_limit := Some 6; tokenizer_signature := Some (py "tok") |}.

Definition page : @TextSection unit :=
  {| section_kind := py "page"; section_id := py "1";
     section_text := py "  A first line. The second one   is longer; so it is cut in three or four.";
     provenance := tt |}.

Definition digest (i : @chunk_identity unit pystr) : option pystr := Some (dec_text (id_ordinal i)).

Abbreviation made := (make_config 64 4 12 2 10 50 (py "v2") (PInt 6) (PStr (py "tok"))).
Abbreviation run := (chunk_text_sections Some digest (py "item") [page] config
  (Some (counter words_twice 6))).

Lemma words_twice_nonneg t : 0 <= words_twice t.
Proof. unfold words_twice. lia. Qed.

Lemma chunks_are_exact_windows_witness : ∃ k,
  (iter_text_chunks Some digest (py "item") [page] config (Some (counter words_twice 6)) []).1
    !! 1%nat = Some k ∧
  chunk_ordinal k = 1 ∧ 1 < 50 ∧ ∃ s, s ∈ [page] ∧ window_of Some digest (py "item") config s k.
Proof.
  eexists. split; [vm_compute; reflexivity|].
  apply (chunks_are_exact_windows Some digest 64 4 12 2 10 50 (py "v2") (PInt 6) (PStr (py "tok"))
    config (py "item") [page] (Some (counter words_twice 6)) 1); vm_compute; reflexivity.
Defined.

Lemma chunking_loses_nothing_witness : ∃ ys k,
  run = Ok ys ∧ k ∈ ys ∧ window_of Some digest (py "item") config page k ∧ start_char k <= 20 < end_char k.
Proof.
  destruct run as [ys|e] eqn:Hrun; [|exfalso; vm_compute in Hrun; discriminate Hrun].
  destruct (chunking_loses_nothing Some digest 64 4 12 2 10 50 (py "v2") (PInt 6) (PStr (py "tok"))
    config (py "item") [page] (Some (counter words_twice 6)) ys page 20 115) as (k&Hk);
    [vm_compute; reflexivity|exact Hrun|apply list_elem_of_here|lia|vm_compute; reflexivity..|].
  exists ys, k. split; [reflexivity|exact Hk].
Defined.

(** A tokenizer that rejects every window ends in the limit error. *)
Definition rejecting_run :=
  chunk_text_sections Some digest (py "item") [page] config (Some (counter (λ _, 7) 6)).

Lemma chunking_always_ends_witness :
  rejecting_run = Err CharacterTooLong ∧
  ∀ e, rejecting_run = Err e → e ≠ ChunkOutOfFuel ∧ e ≠ WindowMissing ∧ e ≠ ChunkInvalid.
Proof.
  split; [vm_compute; reflexivity|]. intros e He.
  apply (chunking_always_ends Some digest 64 4 12 2 10 50 (py "v2") (PInt 6) (PStr (py "tok"))
    config (py "item") [page] (Some (counter (λ _, 7) 6))); [vm_compute; reflexivity|exact He].
Defined.

Lemma batching_changes_nothing_witness :
  run = chunk_text_plainly config words_twice 6 Some digest (py "item") [page] ∧ is_ok run = true.
Proof.
  split; [|vm_compute; reflexivity].
  apply (batching_changes_nothing Some digest 64 4 12 2 10 50 (py "v2") (PInt 6) (PStr (py "tok")));
    [vm_compute; reflexivity|reflexivity|exact words_twice_nonneg].
Defined.

Lemma chunks_fit_the_tokenizer_witness : ∃ ys k,
  run = Ok ys ∧ ys !! 2%nat = Some k ∧ words_twice (chunk_text k) <= 6.
Proof.
  destruct run as [ys|e] eqn:Hrun; [|exfalso; vm_compute in Hrun; discriminate Hrun].
  destruct (ys !! 2%nat) as [k|] eqn:Hk;
    [|exfalso; vm_compute in Hrun; injection Hrun as <-; discriminate Hk].
  exists ys, k. split; [reflexivity|]. split; [exact Hk|].
  apply (chunks_fit_the_tokenizer Some digest 64 4 12 2 10 50 (py "v2") (PInt 6) (PStr (py "tok"))
    config (py "item") [page] words_twice 6 ys k);
    [vm_compute; reflexivity|reflexivity|exact words_twice_nonneg|exact Hrun|].
  apply list_elem_of_lookup. exists 2%nat. exact Hk.
Defined.
End Sample.
