(* ===== verification/DedupKeeper.v ===== *)
(** * Keeper preference of the duplicate planner (deduplication/planning/keeper.py)

    Which of several files with the same content is preferred as the one to keep:
    the rank of a file, the reason a rank was decisive and the factors that speak
    for a keeper, with the parts of os.path, pathlib and re they use. *)

From S2P Require Import Prelude.

(** ** Snapshots and policy (deduplication/domain) *)

Record FileSnapshot : Type := {
  path : pystr;
  volume_id : Z;
  file_id : Z;
  size : Z;
  mtime_ns : Z;
  birthtime_ns : Z;
}.

#[export] Instance FileSnapshot_eq_dec : EqDecision FileSnapshot.
Proof. solve_decision. Defined.

Definition identity (s : FileSnapshot) : Z * Z := (volume_id s, file_id s).

Record KeeperPolicy : Type := {
  explicit_keep_identities : list (Z * Z);
  preferred_roots : list pystr;
  verified_reference_identities : list (Z * Z);
  verified_reference_evidence : list ((Z * Z) * list pystr);
}.

(** ** Paths: os.path.abspath, os.path.commonpath, Path.stem *)

Definition slash : Z := 47.

(** [text.split("/")] *)
Fixpoint split_slash (word s : pystr) : list pystr :=
  match s with
  | [] => [word]
  | c :: s' => if c =? slash then word :: split_slash [] s' else split_slash (word ++ [c]) s'
  end.

(** ["/".join(parts)] *)
Fixpoint join_slash (parts : list pystr) : pystr :=
  match parts with
  | [] => []
  | [p] => p
  | p :: rest => p ++ slash :: join_slash rest
  end.

(** One component of [os.path.normpath]; [acc] is reversed. *)
Definition norm_component (rooted : bool) (acc : list pystr) (comp : pystr) : list pystr :=
  if bool_decide (comp = []) || bool_decide (comp = py ".") then acc
  else if negb (bool_decide (comp = py "..")) || (negb rooted && bool_decide (acc = [])) ||
          bool_decide (head acc = Some (py ".."))
  then comp :: acc
  else tail acc.

(** [os.path.normpath]: two leading slashes stay two. *)
Definition normpath (p : pystr) : pystr :=
  if bool_decide (p = []) then py "."
  else
    let slashes := if starts_with (py "//") p && negb (starts_with (py "///") p) then 2%nat
                   else if starts_with (py "/") p then 1%nat else 0%nat in
    let comps := reverse (foldl (norm_component (negb (bool_decide (slashes = 0%nat)))) []
                            (split_slash [] p)) in
    let text := repeat slash slashes ++ join_slash comps in
    if bool_decide (text = []) then py "." else text.

(** [os.path.abspath] in the working directory [cwd]. *)
Definition abspath (cwd p : pystr) : pystr :=
  normpath
    (if starts_with (py "/") p then p
     else if bool_decide (cwd = []) || bool_decide (last cwd = Some slash) then cwd ++ p
     else cwd ++ slash :: p).

Fixpoint common_prefix (xs ys : list pystr) : list pystr :=
  match xs, ys with
  | x :: xs', y :: ys' => if bool_decide (x = y) then x :: common_prefix xs' ys' else []
  | _, _ => []
  end.

(** [os.path.commonpath] of two absolute paths. *)
Definition commonpath (p q : pystr) : pystr :=
  let comps s := List.filter (λ c, negb (bool_decide (c = []) || bool_decide (c = py ".")))
                   (split_slash [] s) in
  slash :: join_slash (common_prefix (comps p) (comps q)).

(** [Path(p).name] and [Path(p).stem]. *)
Definition path_name (p : pystr) : pystr :=
  default [] (last (List.filter (λ c, negb (bool_decide (c = []) || bool_decide (c = py ".")))
                      (split_slash [] p))).

Definition path_stem (p : pystr) : pystr :=
  let name := path_name p in
  match rfind [46] name (length name) with
  | Some i => if (0 <? i)%nat && (i <? length name - 1)%nat then take i name else name
  | None => name
  end.

(** ** The pattern of copies *)

Definition is_decimal_char (c : Z) : bool := bool_decide (is_Some (decimal_digit c)).

(** [$]: the end, or before a last line feed. *)
Definition at_end (s : pystr) : bool := bool_decide (s = []) || bool_decide (s = [10]).

Fixpoint drop_decimals (s : pystr) : pystr :=
  match s with
  | c :: s' => if is_decimal_char c then drop_decimals s' else s
  | [] => []
  end.

(** [\d+] followed by what [k] accepts; no digit follows the digits. *)
Definition decimals_then (k : pystr → bool) (s : pystr) : bool :=
  match s with c :: s' => is_decimal_char c && k (drop_decimals s') | [] => false end.

Definition is_separator (c : Z) : bool := bool_decide (c ∈ [32; 95; 45]).

(** A letter of the pattern under IGNORECASE: its two cases and, for [i], the
    dotless and the dotted capital one. *)
Definition same_letter (l c : Z) : bool :=
  (c =? l) || (c + 32 =? l) || ((l =? 105) && ((c =? 304) || (c =? 305))).

Fixpoint after_word (word s : pystr) : option pystr :=
  match word, s with
  | [], _ => Some s
  | l :: word', c :: s' => if same_letter l c then after_word word' s' else None
  | _ :: _, [] => None
  end.

(** [_COPY_SUFFIX] matches at the start of [s]. *)
Definition copy_suffix_at (s : pystr) : bool :=
  match drop_space s with
  | 40 :: s' => decimals_then (λ t, match t with 41 :: t' => at_end t' | _ => false end) s'
  | _ => false
  end ||
  match s with
  | c :: s' =>
      is_separator c &&
      match (match after_word (py "copy") s' with
             | Some t => Some t
             | None => after_word (py "copia") s'
             end) with
      | Some t =>
          at_end t || decimals_then at_end t ||
          match t with sep :: t' => is_separator sep && decimals_then at_end t' | [] => false end
      | None => false
      end
  | [] => false
  end.

(** [_COPY_SUFFIX.search(stem)] *)
Fixpoint copy_suffix (s : pystr) : bool :=
  copy_suffix_at s || match s with _ :: s' => copy_suffix s' | [] => false end.

(** ** Ranks *)

Record KeeperRank : Type := {
  explicit_rank : Z;
  location_rank : Z;
  reference_rank : Z;
  name_rank : Z;
  identity_rank : pystr;
  path_rank : pystr;
}.

(** [f"{n:032x}"]: the sign counts for the width. *)
Definition hex32 (n : Z) : pystr :=
  if n <? 0 then 45 :: (hex_char <$> zero_pad 31 (digits 16 (- n)))
  else hex_char <$> zero_pad 32 (digits 16 n).

(** The first preferred root that contains [p], counted from [ordinal]. *)
Fixpoint location_of (cwd p : pystr) (ordinal : Z) (roots : list pystr) : Z :=
  match roots with
  | [] => ordinal
  | root :: rest =>
      let preferred := abspath cwd root in
      if bool_decide (commonpath p preferred = preferred) then ordinal
      else location_of cwd p (ordinal + 1) rest
  end.

(** [keeper_rank] *)
Definition keeper_rank (cwd : pystr) (s : FileSnapshot) (policy : KeeperPolicy) : KeeperRank :=
  {| explicit_rank := if bool_decide (identity s ∈ explicit_keep_identities policy) then 0 else 1;
     location_rank := location_of cwd (abspath cwd (path s)) 0 (preferred_roots policy);
     reference_rank :=
       if bool_decide (identity s ∈ verified_reference_identities policy) then 0 else 1;
     name_rank := if copy_suffix (path_stem (path s)) then 1 else 0;
     identity_rank := hex32 (volume_id s) ++ py ":" ++ hex32 (file_id s);
     path_rank := path s |}.

Inductive keeper_label : Type :=
| ExplicitUserDecision | PreferredLocation | VerifiedReference | CleanNameTiebreak
| StableIdentity | StablePath.

(** More than one value at a position of the ranks. *)
Definition differs {A} `{EqDecision A} (l : list A) : bool :=
  match l with [] => false | x :: l' => negb (bool_decide (Forall (λ y, y = x) l')) end.

(** [keeper_reason] *)
Definition keeper_reason (ranks : list KeeperRank) : keeper_label :=
  if differs (explicit_rank <$> ranks) then ExplicitUserDecision
  else if differs (location_rank <$> ranks) then PreferredLocation
  else if differs (reference_rank <$> ranks) then VerifiedReference
  else if differs (name_rank <$> ranks) then CleanNameTiebreak
  else if differs (identity_rank <$> ranks) then StableIdentity
  else if differs (path_rank <$> ranks) then StablePath
  else StableIdentity.

Inductive keeper_factor : Type :=
| FactorExplicit | FactorLocation | FactorReference | FactorCleanName | FactorEvidence (id : pystr).

(** [dict.fromkeys]: the first occurrence of each key, in order. *)
Fixpoint first_occurrences (seen l : list pystr) : list pystr :=
  match l with
  | [] => []
  | x :: l' => if bool_decide (x ∈ seen) then first_occurrences seen l'
               else x :: first_occurrences (x :: seen) l'
  end.

(** [keeper_factors] *)
Definition keeper_factors (cwd : pystr) (s : FileSnapshot) (policy : KeeperPolicy)
  : list keeper_factor :=
  let rank := keeper_rank cwd s policy in
  let on (b : bool) (f : keeper_factor) := if b then [f] else [] in
  let factors := on (explicit_rank rank =? 0) FactorExplicit ++
                 on (location_rank rank <? zlen (preferred_roots policy)) FactorLocation ++
                 on (reference_rank rank =? 0) FactorReference ++
                 on (name_rank rank =? 0) FactorCleanName in
  if negb (bool_decide (identity s ∈ verified_reference_identities policy)) then factors
  else
    let ids := concat (snd <$> List.filter (λ e, bool_decide (e.1 = identity s))
                                 (verified_reference_evidence policy)) in
    factors ++ (FactorEvidence <$> first_occurrences [] ids).
