(* ===== verification/DedupPlan.v ===== *)
(** * Planning of duplicate groups (deduplication/planning/pipeline.py)

    From the files with a common digest to the published plan: the separation of
    hash collisions, the groups with their proofs, the bounded batches, the checks
    of the owner of the plan.  The rows of SQLite (collision members, physical
    metadata, observed members) and the byte comparison are parameters. *)

From S2P Require Import Prelude DedupKeeper.

Definition PLAN_GROUP_BATCH_SIZE : Z := 256.
Definition PLAN_MEMBER_BATCH_SIZE : Z := 2048.
Definition PLAN_ALIAS_BATCH_SIZE : Z := 4096.
Definition MAX_REDUNDANT_MEMBERS_PER_GROUP : Z := 1024.
Definition MAX_EXACT_HASH_COLLISION_SETS : Z := 128.

(** ** Evidence (deduplication/domain) *)

Inductive ComparisonMethod : Type := Sha256Full | ByteForByte.
Inductive ComparisonResult : Type := Reference | FingerprintMatch | Equal.
Inductive VerificationMode : Type := ModeFast | ModePartial | ModeFullHash.
Inductive DedupPolicy : Type := PolicyFast | PolicyExact.
Inductive PlanCoverage : Type := CoverageComplete | CoveragePartial.
Inductive missing_check : Type :=
| ByteComparison | AliasesOutsideInventory | PathDisposability | Authorization | PhysicalReclamation.

#[export] Instance ComparisonResult_eq_dec : EqDecision ComparisonResult.
Proof. solve_decision. Defined.
#[export] Instance VerificationMode_eq_dec : EqDecision VerificationMode.
Proof. solve_decision. Defined.
#[export] Instance PlanCoverage_eq_dec : EqDecision PlanCoverage.
Proof. solve_decision. Defined.

Record DuplicateMemberProof : Type := {
  m_method : ComparisonMethod;
  m_result : ComparisonResult;
  compared_to_identity : option (Z * Z);
  comparison_bytes : option Z;
  fingerprint_computed : bool;
  m_missing : list missing_check;
  aliases : list pystr;
  alias_count : Z;
  aliases_truncated : bool;
  observed_link_count : Z;
}.

Record DuplicateGroupProof : Type := {
  requested_policy : DedupPolicy;
  g_method : ComparisonMethod;
  g_result : ComparisonResult;
  g_missing : list missing_check;
  g_reason : keeper_label;
  g_factors : list keeper_factor;
}.

Record DuplicateGroup : Type := {
  g_size : Z;
  keep : FileSnapshot;
  redundant : list FileSnapshot;
  full_fingerprint : pystr;
  verification_mode : VerificationMode;
  proof : DuplicateGroupProof;
  member_proofs : list DuplicateMemberProof;
}.

Definition group_members (g : DuplicateGroup) : list FileSnapshot := keep g :: redundant g.

(** [DuplicateGroup.reclaimable_bytes] *)
Definition reclaimable (g : DuplicateGroup) : Z := g_size g * zlen (redundant g).

(** [digest.hex()] *)
Definition bytes_hex (bs : list byte) : pystr :=
  concat ((λ b, [hex_char (b2z b / 16); hex_char (b2z b mod 16)]) <$> bs).

(** [size_is_admitted] *)
Definition size_is_admitted (size : Z) (limit : option Z) : bool :=
  match limit with None => true | Some m => size <=? m end.

(** ** State *)

Record PlanCounters : Type := {
  comparisons : Z;
  failures : Z;
  partial_count : Z;
  full_count : Z;
  hash_read_bytes : Z;
  cache_validation_reads : Z;
  cache_validation_bytes : Z;
  exact_comparison_bytes : Z;
}.

#[export] Instance PlanCounters_eta : Eta PlanCounters := λ k,
  {| comparisons := comparisons k; failures := failures k; partial_count := partial_count k;
     full_count := full_count k; hash_read_bytes := hash_read_bytes k;
     cache_validation_reads := cache_validation_reads k;
     cache_validation_bytes := cache_validation_bytes k;
     exact_comparison_bytes := exact_comparison_bytes k |}.

(** The accumulator, the counters and the collision builder of a session; [stored]
    are the groups the index holds for the scan.  The representatives and their
    redundant chunks are one list of pairs. *)
Record Planning : Type := {
  stored : list DuplicateGroup;
  batch : list DuplicateGroup;
  batch_member_count : Z;
  batch_alias_count : Z;
  group_count : Z;
  redundant_files : Z;
  reclaimable_bytes : Z;
  counters : PlanCounters;
  active_digest : option (list byte);
  sets : list (FileSnapshot * list FileSnapshot);
}.

#[export] Instance Planning_eta : Eta Planning := λ p,
  {| stored := stored p; batch := batch p; batch_member_count := batch_member_count p;
     batch_alias_count := batch_alias_count p; group_count := group_count p;
     redundant_files := redundant_files p; reclaimable_bytes := reclaimable_bytes p;
     counters := counters p; active_digest := active_digest p; sets := sets p |}.

Definition no_counters : PlanCounters :=
  {| comparisons := 0; failures := 0; partial_count := 0; full_count := 0; hash_read_bytes := 0;
     cache_validation_reads := 0; cache_validation_bytes := 0; exact_comparison_bytes := 0 |}.

Definition new_planning : Planning :=
  {| stored := []; batch := []; batch_member_count := 0; batch_alias_count := 0; group_count := 0;
     redundant_files := 0; reclaimable_bytes := 0; counters := no_counters; active_digest := None;
     sets := [] |}.

Inductive dedup_error : Type :=
| KeeperConflict (identities : list (Z * Z))
| GroupInconsistent | NotObserved | ProofCountInconsistent | ProofNotCovering | ProofMismatch
| MetadataIncomplete | MetadataCount | ComparisonAborted | CheckpointRaised
| IncompleteEvidence | MalformedPlan | CoverageInconsistent | MissingProofs.

(** The numbers of a [FingerprintReadFailure]. *)
Record ReadFailure : Type := {
  full_reads : Z;
  partial_reads : Z;
  full_read_bytes : Z;
  partial_read_bytes : Z;
  validation_read_bytes : Z;
  failed_comparison_bytes : Z;
}.

(** What a byte comparison ends with: a verdict with the bytes read, if the
    matcher reports them; a change of a file, with the reads of the failure if it
    carries them; or another exception. *)
Inductive comparison : Type :=
| Compared (equal : bool) (read : option Z)
| FileChanged (reads : option ReadFailure)
| ComparisonRaised.

(** [PlanningMemberMetadata]: alias sample, alias count, link count, computed. *)
Definition metadata_row : Type := (list pystr * Z * Z * bool)%type.

Record DedupConfig : Type := {
  exact_compare : bool;
  keeper_policy : KeeperPolicy;
  max_file_bytes : option Z;
  working_directory : pystr;
}.

Section planning.
Context (cfg : DedupConfig) (metadata : list FileSnapshot → option (list metadata_row))
  (exact_matcher : FileSnapshot → FileSnapshot → comparison) (observed : FileSnapshot → bool).

Abbreviation D := (stm Planning dedup_error).

(** ** The owner of the plan (inventory/repository_plans.py) *)

Definition expected_mode (policy : DedupPolicy) : VerificationMode :=
  match policy with PolicyExact => ModeFullHash | PolicyFast => ModeFast end.

(** The proof of the member at a position agrees with the group. *)
Definition proof_mismatch (g : DuplicateGroup) (first : bool) (m : FileSnapshot)
    (p : DuplicateMemberProof) : bool :=
  let expected := if first then Reference
                  else match expected_mode (requested_policy (proof g)) with
                       | ModeFullHash => Equal
                       | _ => FingerprintMatch
                       end in
  negb (bool_decide (m_result p = expected)) ||
  negb (bool_decide (path m ∈ aliases p)) ||
  (negb first && negb (bool_decide (compared_to_identity p = Some (identity (keep g))))) ||
  (bool_decide (m_result p = Equal) && negb (bool_decide (comparison_bytes p = Some (size m)))).

Fixpoint proofs_mismatch (g : DuplicateGroup) (first : bool) (ms : list FileSnapshot)
    (ps : list DuplicateMemberProof) : bool :=
  match ms, ps with
  | m :: ms', p :: ps' => proof_mismatch g first m p || proofs_mismatch g false ms' ps'
  | _, _ => false
  end.

Definition membership_inconsistent (g : DuplicateGroup) : bool :=
  (g_size g <=? 0) || bool_decide (redundant g = []) ||
  negb (bool_decide (Forall (λ m, size m = g_size g) (group_members g))) ||
  negb (bool_decide (NoDup (identity <$> group_members g))) ||
  negb (bool_decide (NoDup (path <$> group_members g))).

(** The checks of [store_duplicate_groups] on one group. *)
Definition check_group (g : DuplicateGroup) : result dedup_error unit :=
  raise_if (membership_inconsistent g) GroupInconsistent;;
  raise_if (negb (forallb observed (group_members g))) NotObserved;;
  raise_if (negb (bool_decide (member_proofs g = [])) &&
            negb (length (member_proofs g) =? 1 + length (redundant g))%nat) ProofCountInconsistent;;
  raise_if (negb (bool_decide (verification_mode g = expected_mode (requested_policy (proof g)))) ||
            bool_decide (member_proofs g = [])) ProofNotCovering;;
  raise_if (proofs_mismatch g true (group_members g) (member_proofs g)) ProofMismatch.

Fixpoint check_groups (gs : list DuplicateGroup) : result dedup_error unit :=
  match gs with [] => Ok tt | g :: rest => check_group g;; check_groups rest end.

(** [store_duplicate_groups]: one transaction. *)
Definition store_duplicate_groups (gs : list DuplicateGroup) : D unit :=
  lift (check_groups gs);;
  modify (upd stored (λ l, l ++ gs)).

(** ** The accumulator *)

(** [_PlanAccumulator.flush] *)
Definition flush_batch : D unit :=
  p ← get_state;
  when (negb (bool_decide (batch p = [])))
    (store_duplicate_groups (batch p);;
     modify (upd batch (λ _, []));;
     modify (upd batch_member_count (λ _, 0));;
     modify (upd batch_alias_count (λ _, 0))).

(** [_PlanAccumulator._member_proof] *)
Definition member_proof (k m : FileSnapshot) (row : metadata_row) : DuplicateMemberProof :=
  let '(names, count, links, computed) := row in
  let reference := bool_decide (identity m = identity k) in
  let exact := exact_compare cfg in
  {| m_method := if reference || negb exact then Sha256Full else ByteForByte;
     m_result := if reference then Reference else if exact then Equal else FingerprintMatch;
     compared_to_identity := if reference then None else Some (identity k);
     comparison_bytes := if exact && negb reference then Some (size m) else None;
     fingerprint_computed := computed;
     m_missing := (if negb reference && negb exact then [ByteComparison] else []) ++
                  (if count <? links then [AliasesOutsideInventory] else []);
     aliases := names;
     alias_count := count;
     aliases_truncated := zlen names <? count;
     observed_link_count := links |}.

(** The member proofs, [zip(..., strict=True)]. *)
Definition member_proofs_of (k : FileSnapshot) (ms : list FileSnapshot) (rows : list metadata_row)
  : result dedup_error (list DuplicateMemberProof) :=
  raise_if (negb (length ms =? length rows)%nat) MetadataCount;;
  Ok (zip_with (member_proof k) ms rows).

(** The identities an explicit decision selects among the members. *)
Definition selected (ms : list FileSnapshot) : list (Z * Z) :=
  List.filter (λ i, bool_decide (i ∈ explicit_keep_identities (keeper_policy cfg)))
    (identity <$> ms).

(** The group [_PlanAccumulator.store] builds. *)
Definition make_group (digest : list byte) (k : FileSnapshot) (red : list FileSnapshot)
    (proofs : list DuplicateMemberProof) : DuplicateGroup :=
  let exact := exact_compare cfg in
  let rank m := keeper_rank (working_directory cfg) m (keeper_policy cfg) in
  {| g_size := size k;
     keep := k;
     redundant := red;
     full_fingerprint := bytes_hex digest;
     verification_mode := if exact then ModeFullHash else ModeFast;
     proof :=
       {| requested_policy := if exact then PolicyExact else PolicyFast;
          g_method := if exact then ByteForByte else Sha256Full;
          g_result := if exact then Equal else FingerprintMatch;
          g_missing := (if exact then [] else [ByteComparison]) ++
                       [PathDisposability; Authorization; PhysicalReclamation];
          g_reason := keeper_reason (rank <$> k :: red);
          g_factors := keeper_factors (working_directory cfg) k (keeper_policy cfg) |};
     member_proofs := proofs |}.

Definition batch_full (p : Planning) : bool :=
  (PLAN_GROUP_BATCH_SIZE <=? zlen (batch p)) || (PLAN_MEMBER_BATCH_SIZE <=? batch_member_count p) ||
  (PLAN_ALIAS_BATCH_SIZE <=? batch_alias_count p).

(** [_PlanAccumulator.store] *)
Definition store (digest : list byte) (k : FileSnapshot) (red : list FileSnapshot) : D unit :=
  if bool_decide (red = []) then mret tt
  else
    let ms := k :: red in
    throw_if (1 <? zlen (remove_dups (selected ms))) (KeeperConflict (selected ms));;
    p ← get_state;
    when (PLAN_MEMBER_BATCH_SIZE <? batch_member_count p + zlen ms) flush_batch;;
    rows ← lift (or_raise (metadata ms) MetadataIncomplete);
    proofs ← lift (member_proofs_of k ms rows);
    let g := make_group digest k red proofs in
    let names := sum_with (λ q, zlen (aliases q)) proofs in
    p ← get_state;
    when (PLAN_ALIAS_BATCH_SIZE <? batch_alias_count p + names) flush_batch;;
    modify (upd batch (λ l, l ++ [g]));;
    modify (upd batch_member_count (Z.add (zlen ms)));;
    modify (upd batch_alias_count (Z.add names));;
    modify (upd group_count (Z.add 1));;
    modify (upd redundant_files (Z.add (zlen red)));;
    modify (upd reclaimable_bytes (Z.add (reclaimable g)));;
    p ← get_state;
    when (batch_full p) flush_batch.

(** ** The collision builder *)

Definition count_failure (k : PlanCounters) : PlanCounters := upd failures (Z.add 1) k.

(** [_record_failed_reads] *)
Definition record_failed_reads (f : option ReadFailure) (k : PlanCounters) : PlanCounters :=
  match f with
  | None => k
  | Some f =>
      upd full_count (Z.add (full_reads f))
     (upd partial_count (Z.add (partial_reads f))
     (upd hash_read_bytes (Z.add (full_read_bytes f + partial_read_bytes f))
     (upd cache_validation_reads (Z.add (if 0 <? validation_read_bytes f then 1 else 0))
     (upd cache_validation_bytes (Z.add (validation_read_bytes f))
     (upd exact_comparison_bytes (Z.add (failed_comparison_bytes f)) k)))))
  end.

(** Appends to the redundant chunk of the set at a position. *)
Definition add_redundant (position : nat) (s : FileSnapshot) (p : Planning) : Planning :=
  upd sets (alter (λ c, (c.1, c.2 ++ [s])) position) p.

(** The loop of [_place_with_representative]: [Some true] placed, [Some false]
    equal to no representative, [None] a file changed. *)
Fixpoint place_in (position : nat) (reps : list FileSnapshot) (s : FileSnapshot) : D (option bool) :=
  match reps with
  | [] => mret (Some false)
  | r :: rest =>
      modify (upd counters (upd comparisons (Z.add 1)));;
      match exact_matcher r s with
      | Compared equal read =>
          modify (upd counters (upd exact_comparison_bytes (Z.add (default 0 read))));;
          if equal then modify (add_redundant position s);; mret (Some true)
          else place_in (S position) rest s
      | FileChanged f =>
          modify (upd counters (λ k, count_failure (record_failed_reads f k)));;
          mret None
      | ComparisonRaised => throw ComparisonAborted
      end
  end.

(** [_place_with_representative] *)
Definition place_with_representative (s : FileSnapshot) : D (option bool) :=
  p ← get_state;
  if negb (exact_compare cfg) && negb (bool_decide (sets p = []))
  then modify (add_redundant 0 s);; mret (Some true)
  else place_in 0 (fst <$> sets p) s.

(** [_add_representative] *)
Definition add_representative (s : FileSnapshot) : D unit :=
  p ← get_state;
  if exact_compare cfg && (MAX_EXACT_HASH_COLLISION_SETS <=? zlen (sets p))
  then modify (upd counters count_failure)
  else modify (upd sets (λ l, l ++ [(s, [])])).

(** The loops of [_flush_complete_chunks] and [flush]: store the chunks of the
    positions that hold at least [least] members and empty them. *)
Fixpoint store_chunks (least : Z) (digest : list byte) (position : nat)
    (chunks : list (FileSnapshot * list FileSnapshot)) : D unit :=
  match chunks with
  | [] => mret tt
  | (k, red) :: rest =>
      when (least <=? zlen red)
        (store digest k red;;
         modify (upd sets (alter (λ c, (c.1, [])) position)));;
      store_chunks least digest (S position) rest
  end.

(** [_flush_complete_chunks] and [_CollisionGroupBuilder.flush] *)
Definition flush_complete_chunks : D unit :=
  p ← get_state;
  match active_digest p with
  | None => mret tt
  | Some d => store_chunks MAX_REDUNDANT_MEMBERS_PER_GROUP d 0 (sets p)
  end.

Definition flush_builder : D unit :=
  p ← get_state;
  match active_digest p with
  | None => mret tt
  | Some d => store_chunks 0 d 0 (sets p)
  end.

(** [_CollisionGroupBuilder.add] *)
Definition add (digest : list byte) (s : FileSnapshot) : D unit :=
  p ← get_state;
  when (negb (bool_decide (active_digest p = Some digest)))
    (flush_builder;;
     modify (upd active_digest (λ _, Some digest));;
     modify (upd sets (λ _, [])));;
  placement ← place_with_representative s;
  match placement with
  | None => mret tt
  | Some false => add_representative s
  | Some true => flush_complete_chunks
  end.

Fixpoint add_all (rows : list (list byte * FileSnapshot)) : D unit :=
  match rows with
  | [] => mret tt
  | (d, s) :: rest => add d s;; add_all rest
  end.

(** [_group_full_collisions]: a new builder over the rows of one size. *)
Definition group_full_collisions (rows : list (list byte * FileSnapshot)) : D unit :=
  modify (upd active_digest (λ _, None));;
  modify (upd sets (λ _, []));;
  add_all rows;;
  flush_builder.

(** ** The session *)

(** [_plan_size], after the fingerprints of the size are stored: [changed] is the
    number of failures counted while they were captured, and [None] for the rows
    means that fewer than two identities were left. *)
Definition plan_size (s : Z) (changed : Z) (rows : option (list (list byte * FileSnapshot))) : D unit :=
  if negb (size_is_admitted s (max_file_bytes cfg)) then mret tt
  else
    modify (upd counters (upd failures (Z.add changed)));;
    match rows with None => mret tt | Some rows => group_full_collisions rows end.

Fixpoint plan_sizes (sizes : list (Z * Z * option (list (list byte * FileSnapshot)))) : D unit :=
  match sizes with
  | [] => mret tt
  | (s, changed, rows) :: rest => plan_size s changed rows;; plan_sizes rest
  end.

(** [_verification_mode], [_requested_policy] and [_coverage]. *)
Definition session_mode (p : Planning) : VerificationMode :=
  if negb (failures (counters p) =? 0) then ModePartial
  else if exact_compare cfg then ModeFullHash else ModeFast.
Definition session_policy : DedupPolicy := if exact_compare cfg then PolicyExact else PolicyFast.
Definition session_coverage (p : Planning) : PlanCoverage :=
  if negb (failures (counters p) =? 0) then CoveragePartial else CoverageComplete.

Definition malformed (g : DuplicateGroup) : bool :=
  (g_size g <=? 0) || (zlen (redundant g) <? 1) ||
  negb (forallb (λ m, size m =? g_size g) (group_members g)) ||
  negb (length (remove_dups (identity <$> group_members g)) =? 1 + length (redundant g))%nat ||
  negb (forallb observed (group_members g)).

(** The checks of [complete_duplicate_plan] before it publishes; the conditions on
    columns that the insert derives from the group itself hold by construction. *)
Definition publication_checks (gs : list DuplicateGroup) (groups red bytes : Z)
    (mode : VerificationMode) (policy : DedupPolicy) (coverage : PlanCoverage)
    (compared changed : Z) : result dedup_error unit :=
  raise_if (negb (bool_decide
    ((zlen gs, sum_with (λ g, zlen (redundant g)) gs, sum_with reclaimable gs) = (groups, red, bytes))) ||
    negb (sum_with (λ g, zlen (group_members g)) gs =? groups + red)) IncompleteEvidence;;
  raise_if (existsb malformed gs) MalformedPlan;;
  raise_if ((compared <? 0) || (changed <? 0) ||
    negb (bool_decide (coverage = if negb (changed =? 0) then CoveragePartial else CoverageComplete)) ||
    negb (bool_decide (mode = if negb (changed =? 0) then ModePartial else expected_mode policy)) ||
    match policy with
    | PolicyFast => negb (compared =? 0)
    | PolicyExact => compared <? red
    end) CoverageInconsistent;;
  raise_if (existsb (λ g, bool_decide (member_proofs g = []) ||
              negb (bool_decide (verification_mode g = expected_mode policy))) gs) MissingProofs.

(** [PlanningSession.run]: plan every size, flush, validate the keeper decisions
    again, publish. *)
Definition run (sizes : list (Z * Z * option (list (list byte * FileSnapshot))))
    (validation_raises : bool) : D unit :=
  plan_sizes sizes;;
  flush_batch;;
  throw_if validation_raises CheckpointRaised;;
  p ← get_state;
  lift (publication_checks (stored p) (group_count p) (redundant_files p) (reclaimable_bytes p)
          (session_mode p) session_policy (session_coverage p)
          (comparisons (counters p)) (failures (counters p))).
End planning.
