(* ===== verification/DedupSafety.v ===== *)
(** * What a duplicate plan promises

    No member that a plan calls redundant is the keeper of a group or redundant
    twice, each was compared with its keeper, an explicitly kept file is never
    redundant, and a planned session passes the checks of the publication. *)

From Stdlib Require Import Sorting.Sorted.
From S2P Require Import Prelude DedupKeeper DedupPlan.

(** ** Groups and sets *)

Definition all_groups (p : Planning) : list DuplicateGroup := stored p ++ batch p.

Definition redundant_ids (gs : list DuplicateGroup) : list (Z * Z) :=
  concat ((λ g, identity <$> redundant g) <$> gs).

Definition chunk_ids (ss : list (FileSnapshot * list FileSnapshot)) : list (Z * Z) :=
  concat ((λ c : FileSnapshot * list FileSnapshot, map identity c.2) <$> ss).

Definition rep_ids (ss : list (FileSnapshot * list FileSnapshot)) : list (Z * Z) :=
  (λ c : FileSnapshot * list FileSnapshot, identity c.1) <$> ss.

Lemma redundant_ids_snoc gs g : redundant_ids (gs ++ [g]) = redundant_ids gs ++ (identity <$> redundant g).
Proof. unfold redundant_ids. rewrite fmap_app, concat_app. cbn. by rewrite app_nil_r. Qed.

Lemma chunk_ids_app ss ss' : chunk_ids (ss ++ ss') = chunk_ids ss ++ chunk_ids ss'.
Proof. unfold chunk_ids. by rewrite fmap_app, concat_app. Qed.

Definition cleared (c : FileSnapshot * list FileSnapshot) : FileSnapshot * list FileSnapshot := (c.1, []).
Definition extended (s : FileSnapshot) (c : FileSnapshot * list FileSnapshot)
  : FileSnapshot * list FileSnapshot := (c.1, c.2 ++ [s]).

Lemma rep_ids_alter f i ss :
  (∀ c : FileSnapshot * list FileSnapshot, (f c).1 = c.1) → rep_ids (alter f i ss) = rep_ids ss.
Proof.
  intros Hf. revert i. induction ss as [|c ss IH]; intros [|i]; cbn; [done|done| |].
  - by rewrite Hf.
  - f_equal. apply IH.
Qed.

Lemma chunk_ids_cleared ss : ∀ i k red,
  ss !! i = Some (k, red) → chunk_ids ss ≡ₚ (identity <$> red) ++ chunk_ids (alter cleared i ss).
Proof.
  induction ss as [|c ss IH]; intros [|i] k red; cbn; try done.
  - by intros [= ->].
  - intros Hi. unfold chunk_ids in *. cbn. rewrite (IH _ _ _ Hi), !app_assoc.
    by rewrite (Permutation_app_comm (map identity c.2)).
Qed.

Lemma chunk_ids_extended ss : ∀ i k red s,
  ss !! i = Some (k, red) → chunk_ids (alter (extended s) i ss) ≡ₚ identity s :: chunk_ids ss.
Proof.
  induction ss as [|c ss IH]; intros [|i] k red s; cbn; try done.
  - intros [= ->]. unfold chunk_ids. cbn. rewrite map_app, <- app_assoc. cbn. by rewrite Permutation_middle.
  - intros Hi. unfold chunk_ids in *. cbn. rewrite (IH _ _ _ s Hi). by rewrite <- Permutation_middle.
Qed.

#[local] Arguments redundant_ids : simpl never.
#[local] Arguments chunk_ids : simpl never.
#[local] Arguments rep_ids : simpl never.

Section safety.
Context (cfg : DedupConfig) (metadata : list FileSnapshot → option (list metadata_row))
  (exact_matcher : FileSnapshot → FileSnapshot → comparison) (observed : FileSnapshot → bool).

Abbreviation checked := (λ g, check_group observed g = Ok tt).

(** [quiet p0 p]: [p] has the groups, the builder and the counters of [p0]; groups
    may only have moved from the batch to the index, which checked them. *)
Definition quiet (p0 p : Planning) : Prop :=
  all_groups p = all_groups p0 ∧ sets p = sets p0 ∧ active_digest p = active_digest p0 ∧
  counters p = counters p0 ∧ group_count p = group_count p0 ∧
  redundant_files p = redundant_files p0 ∧ reclaimable_bytes p = reclaimable_bytes p0 ∧
  (Forall checked (stored p0) → Forall checked (stored p)).

Lemma quiet_refl p : quiet p p.
Proof. by repeat split. Qed.

Lemma check_groups_ok gs : check_groups observed gs = Ok tt → Forall checked gs.
Proof.
  induction gs as [|g gs IH]; cbn; [constructor|]. intros H.
  apply bind_ok in H as ([]&H1&H2). constructor; [done|by apply IH].
Qed.

Lemma flush_batch_quiet p0 :
  triple (quiet p0) (flush_batch observed) (λ _ p, quiet p0 p ∧ batch p = [])
    (λ p, all_groups p = all_groups p0).
Proof.
  intros p Hq. unfold flush_batch. rewrite get_bind. destruct (bool_decide (batch p = [])) eqn:E; cbn.
  { bool_prop. done. }
  unfold store_duplicate_groups. rewrite bind_assoc, lift_bind.
  destruct (check_groups observed (batch p)) as [[]|e] eqn:Ec; [|by destruct Hq].
  rewrite !modify_bind. cbn. destruct Hq as (Hall&Hs&Ha&Hc&Hg&Hr&Hb&Hst). split; [|done].
  unfold quiet, all_groups in *. cbn. rewrite app_nil_r. repeat (split; [done|]).
  intros H0. apply Forall_app. split; [by apply Hst|by apply check_groups_ok].
Qed.

(** ** What [store] adds *)

Definition one_explicit (ms : list FileSnapshot) : Prop :=
  zlen (remove_dups (selected cfg ms)) <= 1.

(** [p] is [p0] with the group of a set added. *)
Definition grown (digest : list byte) (k : FileSnapshot) (red : list FileSnapshot)
    (p0 p : Planning) : Prop :=
  ∃ proofs, length proofs = S (length red) ∧ one_explicit (k :: red) ∧
    all_groups p = all_groups p0 ++ [make_group cfg digest k red proofs] ∧
    sets p = sets p0 ∧ active_digest p = active_digest p0 ∧ counters p = counters p0 ∧
    group_count p = 1 + group_count p0 ∧ redundant_files p = zlen red + redundant_files p0 ∧
    reclaimable_bytes p = size k * zlen red + reclaimable_bytes p0 ∧
    (Forall checked (stored p0) → Forall checked (stored p)).

Lemma quiet_grown digest k red p0 p1 p2 :
  grown digest k red p0 p1 → quiet p1 p2 → grown digest k red p0 p2.
Proof.
  intros (proofs&Hl&H1&Hall&Hs&Ha&Hc&Hg&Hr&Hb&Hst) (Qall&Qs&Qa&Qc&Qg&Qr&Qb&Qst).
  exists proofs. rewrite Qall, Qs, Qa, Qc, Qg, Qr, Qb. repeat (split; [done|]). auto.
Qed.

(** The groups an aborted [store] may leave. *)
Definition maybe_grown (digest : list byte) (k : FileSnapshot) (red : list FileSnapshot)
    (p0 p : Planning) : Prop :=
  all_groups p = all_groups p0 ∨
  ∃ p1, grown digest k red p0 p1 ∧ all_groups p = all_groups p1.

Lemma store_spec digest k red p0 :
  red ≠ [] →
  triple (λ p, p = p0) (store cfg metadata observed digest k red)
    (λ _, grown digest k red p0) (maybe_grown digest k red p0).
Proof.
  intros Hne. unfold store. rewrite bool_decide_eq_false_2 by done.
  assert (HX : ∀ p, quiet p0 p → maybe_grown digest k red p0 p) by (intros p [H _]; by left).
  assert (Hflush : ∀ b, triple (quiet p0) (when b (flush_batch observed)) (λ _, quiet p0)
                          (maybe_grown digest k red p0)).
  { intros b p Hq. destruct b; cbn; [|done]. pose proof (flush_batch_quiet p0 p Hq) as Hf.
    destruct (flush_batch observed p) as [p' [[]|e]]; [apply Hf|by left]. }
  eapply triple_bind.
  { eapply triple_weaken; [apply (triple_throw_if _ (quiet p0)), HX|by intros p ->; apply quiet_refl|].
    intros a s Hs. exact Hs. }
  intros []. apply triple_get. intros p1 [Hq1 Hone]. eapply triple_bind.
  { eapply triple_weaken; [apply Hflush|by intros p [_ ->]|by intros a s; apply id]. }
  intros []. eapply triple_bind; [apply triple_lift, HX|]. intros rows.
  eapply triple_bind; [apply triple_lift; intros p [? _]; by apply HX|]. intros proofs. cbv zeta.
  apply triple_get. intros p2 [[Hq2 _] Hproofs]. eapply triple_bind.
  { eapply triple_weaken; [apply Hflush|by intros p [_ ->]|by intros a s; apply id]. }
  intros []. unfold member_proofs_of in Hproofs. inv_ok. bool_prop. apply Nat.eqb_eq in H.
  assert (Hlen : length (zip_with (member_proof cfg k) (k :: red) rows) = S (length red)).
  { rewrite length_zip_with. cbn [length] in *. lia. }
  intros p (Hall&Hs&Ha&Hc&Hg&Hr&Hb&Hst). rewrite !modify_bind, get_bind. cbn beta.
  match goal with |- context [when ?b (flush_batch observed) ?s] => set (p3 := s) end.
  assert (Hp3 : grown digest k red p0 p3).
  { eexists. split; [exact Hlen|]. split; [unfold one_explicit; bool_prop; lia|].
    split; [unfold all_groups in *; subst p3; cbn; by rewrite app_assoc, Hall|].
    repeat (split; [subst p3; unfold reclaimable; cbn; (done || lia || congruence)|]). exact Hst. }
  destruct (batch_full p3); cbn; [|done]. pose proof (flush_batch_quiet p3 p3 (quiet_refl p3)) as Hf.
  destruct (flush_batch observed p3) as [p4 [[]|e]].
  - eapply quiet_grown; [exact Hp3|apply Hf].
  - right. by exists p3.
Qed.
(** ** The invariant of the session *)

Section invariant.
Context (V : FileSnapshot → FileSnapshot → Prop).

Definition good_group (g : DuplicateGroup) : Prop :=
  Forall (V (keep g)) (redundant g) ∧ one_explicit (group_members g) ∧
  member_proofs g ≠ [] ∧ verification_mode g = expected_mode (session_policy cfg).

(** No redundant member is a keeper or redundant twice. *)
Record safe_groups (gs : list DuplicateGroup) : Prop := {
  safe_good : Forall good_group gs;
  safe_once : NoDup (redundant_ids gs);
  safe_keeps : ∀ g, g ∈ gs → identity (keep g) ∉ redundant_ids gs;
}.

Lemma safe_groups_prefix gs gs' : safe_groups (gs ++ gs') → safe_groups gs.
Proof.
  intros [H1 H2 H3]. unfold redundant_ids in *. rewrite fmap_app, concat_app in H2, H3.
  split; [by apply Forall_app in H1 as [? _]|by apply NoDup_app in H2 as [? _]|].
  intros g Hg Hin. apply (H3 g); apply elem_of_app; by left.
Qed.

(** The planned identities, and whether the comparisons pay for the members. *)
Definition planned (p : Planning) : list (Z * Z) :=
  redundant_ids (all_groups p) ++ chunk_ids (sets p) ++ rep_ids (sets p).

Definition paid (extra : Z) (p : Planning) : Prop :=
  if exact_compare cfg
  then redundant_files p + zlen (chunk_ids (sets p)) + extra <= comparisons (counters p)
  else comparisons (counters p) = 0.

Record inv (extra : Z) (seen : list (Z * Z)) (p : Planning) : Prop := {
  inv_good : Forall good_group (all_groups p);
  inv_once : NoDup (planned p);
  inv_keeps : ∀ g, g ∈ all_groups p →
    identity (keep g) ∉ redundant_ids (all_groups p) ++ chunk_ids (sets p);
  inv_seen : ∀ x, x ∈ planned p ++ ((λ g, identity (keep g)) <$> all_groups p) → x ∈ seen;
  inv_pairs : Forall (λ c : FileSnapshot * list FileSnapshot, Forall (V c.1) c.2) (sets p);
  inv_count : group_count p = zlen (all_groups p);
  inv_members : redundant_files p = sum_with (λ g, zlen (redundant g)) (all_groups p);
  inv_bytes : reclaimable_bytes p = sum_with reclaimable (all_groups p);
  inv_failures : 0 <= failures (counters p);
  inv_paid : paid extra p;
  inv_checked : Forall checked (stored p);
}.

Lemma inv_safe extra seen p : inv extra seen p → safe_groups (all_groups p).
Proof.
  intros []. unfold planned in *. split; [done|by apply NoDup_app in inv_once0 as [? _]|].
  intros g Hg Hin. apply (inv_keeps0 g Hg). apply elem_of_app. by left.
Qed.

Lemma inv_paid_nonneg extra seen p : inv extra seen p → 0 <= extra → 0 <= comparisons (counters p).
Proof.
  intros [] He. unfold paid in *. destruct (exact_compare cfg); [|lia].
  assert (0 <= redundant_files p); [|lia]. rewrite inv_members0. apply sum_with_nonneg. intros. lia.
Qed.

(** A step that leaves the groups and the sets alone. *)
Lemma inv_counters extra extra' seen p p' :
  inv extra seen p → quiet p (upd counters (λ _, counters p) p') →
  0 <= failures (counters p') → paid extra' p' → stored p' = stored p → inv extra' seen p'.
Proof.
  intros [] (Hall&Hs&_&_&Hg&Hr&Hb&_) Hf Hp Hst. unfold planned, all_groups in *. cbn in *.
  split; unfold planned, all_groups; rewrite ?Hall, ?Hs, ?Hg, ?Hr, ?Hb, ?Hst; done.
Qed.

Lemma inv_quiet extra seen p p' : inv extra seen p → quiet p p' → inv extra seen p'.
Proof.
  intros [] (Hall&Hs&_&Hc&Hg&Hr&Hb&Hst). unfold planned, paid in *.
  split; unfold planned, paid; rewrite ?Hall, ?Hs, ?Hg, ?Hr, ?Hb, ?Hc; try done. by apply Hst.
Qed.

(** A new member of a set. *)
Lemma inv_member extra seen p i k red s :
  inv (1 + extra) seen p → sets p !! i = Some (k, red) → identity s ∉ seen → V k s →
  inv extra (identity s :: seen) (add_redundant i s p).
Proof.
  intros [] Hi Hs HV. unfold add_redundant, planned, paid in *.
  fold (extended s). pose proof (chunk_ids_extended _ _ _ _ s Hi) as Hp.
  assert (Hplanned : redundant_ids (all_groups p) ++ chunk_ids (alter (extended s) i (sets p)) ++
      rep_ids (alter (extended s) i (sets p)) ≡ₚ identity s :: planned p).
  { rewrite Hp, rep_ids_alter by done. unfold planned. by rewrite <- app_comm_cons, <- Permutation_middle. }
  split; try done; unfold all_groups, planned, paid; cbn.
  - rewrite Hplanned. apply NoDup_cons. split; [|done]. intros Hin. apply Hs, inv_seen0.
    apply elem_of_app. by left.
  - intros g Hg. rewrite Hp, elem_of_app, elem_of_cons. intros Hin.
    specialize (inv_keeps0 g Hg). rewrite elem_of_app in inv_keeps0.
    destruct Hin as [?|[Heq|?]]; [by apply inv_keeps0; left| |by apply inv_keeps0; right].
    apply Hs. rewrite <- Heq. apply inv_seen0, elem_of_app. right.
    by apply (list_elem_of_fmap_2 (λ g, identity (keep g))).
  - intros x. rewrite Hplanned. cbn. intros [->|Hx]%elem_of_cons; [by left|right; by apply inv_seen0].
  - apply Forall_alter; [done|]. intros c Hc HF. rewrite Hi in Hc. injection Hc as <-. cbn in *.
    apply Forall_app. by repeat constructor.
  - destruct (exact_compare cfg); [|done]. rewrite Hp. cbn [length]. lia.
Qed.

(** A new representative. *)
Lemma inv_representative seen p s :
  inv 0 seen p → identity s ∉ seen → inv 0 (identity s :: seen) (upd sets (λ l, l ++ [(s, [])]) p).
Proof.
  intros [] Hs. assert (Hc : chunk_ids (sets p ++ [(s, [])]) = chunk_ids (sets p)).
  { rewrite chunk_ids_app. apply app_nil_r. }
  assert (Hplanned : redundant_ids (all_groups p) ++ chunk_ids (sets p ++ [(s, [])]) ++
      rep_ids (sets p ++ [(s, [])]) ≡ₚ identity s :: planned p).
  { rewrite Hc. unfold planned, rep_ids. rewrite fmap_app. cbn.
    rewrite !app_assoc. by rewrite <- Permutation_cons_append. }
  split; try done; unfold all_groups, planned, paid in *; cbn.
  - rewrite Hplanned. apply NoDup_cons. split; [|done]. intros Hin. apply Hs, inv_seen0.
    apply elem_of_app. by left.
  - intros g Hg. rewrite Hc. by apply inv_keeps0.
  - intros x. rewrite Hplanned. cbn. intros [->|Hx]%elem_of_cons; [by left|right; by apply inv_seen0].
  - apply Forall_app. by repeat constructor.
  - by rewrite Hc.
Qed.

(** A set whose chunk becomes a group. *)
Lemma inv_grown seen p p1 digest i k red :
  inv 0 seen p → sets p !! i = Some (k, red) → grown digest k red p p1 →
  inv 0 seen (upd sets (alter cleared i) p1) ∧ safe_groups (all_groups p1).
Proof.
  intros [] Hi (proofs&Hlen&Hone&Hall&Hs&Ha&Hc&Hg&Hr&Hb&Hst).
  set (g := make_group _ _ _ _ _) in *. pose proof (chunk_ids_cleared _ _ _ _ Hi) as Hp.
  assert (Hreds : redundant_ids (all_groups p1) = redundant_ids (all_groups p) ++ (identity <$> red)).
  { rewrite Hall. apply redundant_ids_snoc. }
  assert (Hrc : redundant_ids (all_groups p1) ++ chunk_ids (alter cleared i (sets p)) ≡ₚ
                redundant_ids (all_groups p) ++ chunk_ids (sets p)).
  { rewrite Hreds, Hp. by rewrite <- app_assoc. }
  assert (Hplanned : redundant_ids (all_groups p1) ++ chunk_ids (alter cleared i (sets p)) ++
      rep_ids (alter cleared i (sets p)) ≡ₚ planned p).
  { rewrite rep_ids_alter, app_assoc, Hrc by done. unfold planned. by rewrite app_assoc. }
  assert (Hk : identity k ∈ rep_ids (sets p)).
  { apply (list_elem_of_fmap_2 (λ c : FileSnapshot * list FileSnapshot, identity c.1) _ (k, red)).
    by eapply list_elem_of_lookup_2. }
  assert (Hkeeps : ∀ g', g' ∈ all_groups p1 →
    identity (keep g') ∉ redundant_ids (all_groups p) ++ chunk_ids (sets p)).
  { rewrite Hall. intros g' [Hg'|Hg'%list_elem_of_singleton]%elem_of_app; [by apply inv_keeps0|].
    subst g'. cbn. unfold planned in inv_once0. rewrite app_assoc in inv_once0.
    apply NoDup_app in inv_once0 as (_&Hd&_). intros Hin. by apply (Hd _ Hin). }
  assert (Hgood : Forall good_group (all_groups p1)).
  { rewrite Hall. apply Forall_app. split; [done|]. apply Forall_singleton. split.
    - rewrite Forall_forall in inv_pairs0. by apply (inv_pairs0 (k, red)), list_elem_of_lookup_2 with i.
    - split; [done|]. split; [by destruct proofs|]. cbn. unfold session_policy. by destruct (exact_compare cfg). }
  assert (Hinv : inv 0 seen (upd sets (alter cleared i) p1)).
  { split; unfold planned, paid; change (all_groups (upd sets (alter cleared i) p1)) with (all_groups p1);
      cbn; rewrite ?Hs, ?Hc, ?Hg, ?Hr, ?Hb; try done.
    - by rewrite Hplanned.
    - intros g' Hg'. rewrite Hrc. by apply Hkeeps.
    - intros x. rewrite Hplanned, Hall, fmap_app. cbn.
      intros [Hx|[Hx|Hx%list_elem_of_singleton]%elem_of_app]%elem_of_app; apply inv_seen0, elem_of_app;
        [by left|by right|left]. subst x. unfold planned. rewrite !elem_of_app. by right; right.
    - apply Forall_alter; [done|]. intros c _ _. constructor.
    - rewrite Hall, length_app. cbn. lia.
    - rewrite Hall, sum_with_app. cbn. lia.
    - rewrite Hall, sum_with_app. unfold reclaimable at 2. cbn. lia.
    - unfold paid in *. destruct (exact_compare cfg); [|done].
      rewrite Hp, length_app, length_fmap in inv_paid0. lia.
    - by apply Hst. }
  split; [done|]. split; [done| |].
  - apply inv_safe in Hinv. apply (safe_once _ Hinv).
  - intros g' Hg' Hin. apply (Hkeeps g' Hg'). rewrite <- Hrc. apply elem_of_app. by left.
Qed.

Lemma inv_mono extra seen seen' p :
  inv extra seen p → (∀ x, x ∈ seen → x ∈ seen') → inv extra seen' p.
Proof. intros [] H. split; try done. intros x Hx. by apply H, inv_seen0. Qed.

Lemma inv_reset seen p f : inv 0 seen p → inv 0 seen (upd sets (λ _, []) (upd active_digest f p)).
Proof.
  intros []. split; try done; unfold planned, paid in *; cbn.
  - apply NoDup_app in inv_once0 as (?&_&_). by rewrite app_nil_r.
  - intros g Hg Hin. apply (inv_keeps0 g Hg). rewrite app_nil_r in Hin. apply elem_of_app. by left.
  - intros x Hx. apply inv_seen0. set_solver.
  - destruct (exact_compare cfg); [|done]. change (chunk_ids []) with (@nil (Z * Z)). cbn [length]. lia.
Qed.

(** Counting a comparison, its bytes or a failure. *)
Lemma inv_counted extra seen p g extra' :
  inv extra seen p → 0 <= failures (g (counters p)) →
  (if exact_compare cfg then comparisons (counters p) + extra' <= comparisons (g (counters p)) + extra
   else comparisons (g (counters p)) = comparisons (counters p)) →
  inv extra' seen (upd counters g p).
Proof.
  intros Hinv Hf Hc. eapply (inv_counters extra); [exact Hinv| |done| |done].
  - by repeat split.
  - destruct Hinv. unfold paid in *. destruct (exact_compare cfg); cbn; lia.
Qed.

Lemma failed_counts f k :
  comparisons (count_failure (record_failed_reads f k)) = comparisons k ∧
  failures (count_failure (record_failed_reads f k)) = 1 + failures k.
Proof. by destruct f. Qed.
End invariant.

(** ** The builder *)

(** The row of [k] comes before the row of [m], with the same digest. *)
Context (R : FileSnapshot → FileSnapshot → Prop).

Definition verified (k m : FileSnapshot) : Prop :=
  R k m ∧ (exact_compare cfg = true → ∃ read, exact_matcher k m = Compared true read).

Abbreviation safe := (λ p, safe_groups verified (all_groups p)).
Abbreviation Inv := (inv verified).
Abbreviation reps p := (map fst (sets p)).

Lemma reps_alter f i ss :
  (∀ c : FileSnapshot * list FileSnapshot, (f c).1 = c.1) → map fst (alter f i ss) = map fst ss.
Proof.
  intros Hf. revert i. induction ss as [|c ss IH]; intros [|i]; cbn; [done|done| |].
  - by rewrite Hf.
  - f_equal. apply IH.
Qed.

Lemma store_chunks_safe least d seen a rs chunks : ∀ pos,
  triple (λ p, Inv 0 seen p ∧ active_digest p = a ∧ reps p = rs ∧ drop pos (sets p) = chunks)
    (store_chunks cfg metadata observed least d pos chunks)
    (λ _ p, Inv 0 seen p ∧ active_digest p = a ∧ reps p = rs) safe.
Proof.
  induction chunks as [|[k red] chunks IH]; intros pos; cbn [store_chunks].
  { by intros p (?&?&?&_). }
  apply (triple_bind _ _ (λ _ p, Inv 0 seen p ∧ active_digest p = a ∧ reps p = rs ∧
    drop (S pos) (sets p) = chunks)); [|intros []; apply IH]. intros p (Hinv&Ha&Hr&Hd).
  assert (Hi : sets p !! pos = Some (k, red)).
  { rewrite <- (Nat.add_0_r pos), <- lookup_drop. by rewrite Hd. }
  assert (Hnext : ∀ ss, drop (S pos) (alter cleared pos (sets p)) = ss → ss = chunks).
  { intros ss <-. rewrite drop_alter_lt by lia. rewrite <- Nat.add_1_r, <- drop_drop, Hd. done. }
  destruct (least <=? zlen red); cbn [when].
  2:{ split; [done|]. repeat (split; [done|]). rewrite <- Nat.add_1_r, <- drop_drop, Hd. done. }
  destruct (decide (red = [])) as [->|Hne].
  { rewrite stm_bind_eq. unfold store. rewrite bool_decide_eq_true_2 by done. cbn.
    change (λ c, (c.1, [])) with cleared.
    assert (E : alter cleared pos (sets p) = sets p).
    { apply list_eq. intros j. destruct (decide (j = pos)) as [->|].
      - by rewrite list_lookup_alter_eq, Hi.
      - by rewrite list_lookup_alter_ne. }
    rewrite E. split; [by destruct p|]. repeat (split; [done|]). rewrite <- E. by apply Hnext. }
  pose proof (store_spec d k red p Hne p eq_refl) as Hst. rewrite stm_bind_eq.
  destruct (store _ _ _ _ _ _ _) as [p1 [[]|e]].
  - destruct (inv_grown verified _ _ _ _ _ _ _ Hinv Hi Hst) as [Hinv1 _].
    destruct Hst as (?&_&_&_&Hs&Hact&_). split; [exact Hinv1|]. cbn.
    change (λ c, (c.1, [])) with cleared. rewrite Hs.
    split; [congruence|]. split; [by rewrite reps_alter|by apply Hnext].
  - destruct Hst as [E|(p2&Hg&E)]; rewrite E; [by eapply inv_safe|].
    by eapply inv_grown in Hg as [_ ?].
Qed.

Lemma flush_builder_safe seen a rs least :
  triple (λ p, Inv 0 seen p ∧ active_digest p = a ∧ reps p = rs)
    (p ← get_state;
     match active_digest p with
     | None => mret tt
     | Some d => store_chunks cfg metadata observed least d 0 (sets p)
     end)
    (λ _ p, Inv 0 seen p ∧ active_digest p = a ∧ reps p = rs) safe.
Proof.
  apply triple_get. intros p (Hinv&Ha&Hr). destruct (active_digest p) as [d|] eqn:E.
  - eapply triple_weaken; [apply store_chunks_safe| |by intros ? ?; apply id].
    intros ? [(?&?&?) ->]. done.
  - by intros ? [(?&?&?) ->].
Qed.

(** What a placement leaves. *)
Definition placed (seen : list (Z * Z)) (s : FileSnapshot) (a : option (list byte))
    (rs : list FileSnapshot) (o : option bool) (p : Planning) : Prop :=
  active_digest p = a ∧ reps p = rs ∧
  Inv 0 (match o with Some true => identity s :: seen | _ => seen end) p.

Lemma place_in_safe seen a rs s candidates : ∀ pos,
  exact_compare cfg = true → identity s ∉ seen → (∀ r, r ∈ rs → R r s) →
  triple (λ p, Inv 0 seen p ∧ active_digest p = a ∧ reps p = rs ∧ drop pos rs = candidates)
    (place_in exact_matcher pos candidates s) (placed seen s a rs) safe.
Proof.
  induction candidates as [|r rest IH]; intros pos He Hs HR; cbn [place_in].
  { by intros p (?&?&?&_). }
  intros p (Hinv&Ha&Hr&Hd). rewrite modify_bind.
  assert (Hri : rs !! pos = Some r) by (rewrite <- (Nat.add_0_r pos), <- lookup_drop; by rewrite Hd).
  assert (Hin : R r s) by (by eapply HR, list_elem_of_lookup_2).
  assert (H1 : Inv 1 seen (upd counters (upd comparisons (Z.add 1)) p)).
  { eapply inv_counted; [exact Hinv|apply Hinv|]. rewrite He. cbn. lia. }
  destruct (exact_matcher r s) as [equal read|f|] eqn:Em.
  - rewrite modify_bind. set (p1 := upd counters _ (upd counters _ p)).
    assert (H2 : ∀ extra, extra <= 1 → Inv extra seen p1).
    { intros extra Hx. eapply inv_counted; [exact H1|apply Hinv|]. rewrite He. cbn. lia. }
    destruct equal.
    + rewrite modify_bind. cbn [mret stm_ret]. rewrite <- Hr in Hri. rewrite list_lookup_fmap in Hri.
      destruct (sets p !! pos) as [[k red]|] eqn:Hi; [|done]. injection Hri as <-.
      assert (HV : verified k s) by (split; [done|eauto]).
      split; [done|]. split; [by rewrite <- Hr; apply reps_alter|].
      exact (inv_member verified 0 seen p1 pos k red s (H2 1 ltac:(lia)) Hi Hs HV).
    + apply IH; [done|done|done|]. split; [by apply H2|]. repeat (split; [done|]).
      rewrite <- Nat.add_1_r, <- drop_drop, Hd. done.
  - rewrite modify_bind. cbn [mret stm_ret]. split; [done|]. split; [done|].
    set (p1 := upd counters (upd comparisons (Z.add 1)) p) in *.
    destruct (failed_counts f (counters p1)) as [Hc Hf]. pose proof (inv_failures _ _ _ _ H1).
    eapply inv_counted; [exact H1|rewrite Hf; lia|rewrite He, Hc; lia].
  - cbn. exact (inv_safe _ _ _ _ H1).
Qed.
Lemma place_safe seen a rs s :
  identity s ∉ seen → (∀ r, r ∈ rs → R r s) →
  triple (λ p, Inv 0 seen p ∧ active_digest p = a ∧ reps p = rs)
    (place_with_representative cfg exact_matcher s) (placed seen s a rs) safe.
Proof.
  intros Hs HR. apply triple_get. intros p (Hinv&Ha&Hr).
  destruct (negb (exact_compare cfg) && _) eqn:E; bool_prop.
  - intros ? [_ ->]. rewrite modify_bind. destruct (sets p) as [|[k red] ss] eqn:Esets; [done|].
    assert (Hi : sets p !! 0%nat = Some (k, red)) by (by rewrite Esets).
    split; [done|]. split; [rewrite <- Hr, <- Esets; by apply reps_alter|].
    apply inv_member with k red; [|done|done|].
    + eapply inv_counters; [exact Hinv|by repeat split|apply Hinv| |done].
      destruct Hinv. unfold paid in *. by rewrite H in *.
    + split; [apply HR; rewrite <- Hr; apply list_elem_of_here|by rewrite H].
  - destruct (exact_compare cfg) eqn:He.
    + eapply triple_weaken; [apply place_in_safe with (rs := rs)| |by intros ? ?; apply id]; try done.
      intros ? [_ ->]. rewrite drop_0. done.
    + cbn in E. bool_prop. rewrite E. cbn. intros ? [_ ->]. done.
Qed.

Definition known (done : list (list byte * FileSnapshot)) (p : Planning) : Prop :=
  ∀ d r, active_digest p = Some d → r ∈ reps p → (d, r) ∈ done.

Lemma add_safe seen done d s :
  identity s ∉ seen → (∀ r, (d, r) ∈ done → R r s) →
  triple (λ p, Inv 0 seen p ∧ known done p) (add cfg metadata exact_matcher observed d s)
    (λ _ p, Inv 0 (identity s :: seen) p ∧ known ((d, s) :: done) p) safe.
Proof.
  intros Hs HR. apply triple_get. intros p0 [Hinv0 Hknown0].
  apply (triple_bind _ _ (λ _ p, Inv 0 seen p ∧ active_digest p = Some d ∧ known done p)).
  { apply triple_when.
    - intros _. apply (triple_bind _ _ (λ _, Inv 0 seen)).
      + eapply triple_weaken; [apply (flush_builder_safe seen (active_digest p0) (reps p0) 0)| |].
        * intros p [_ ->]. done.
        * by intros ? ? (?&_).
      + intros [] p Hinv. rewrite modify_bind. cbn. split; [by apply (inv_reset _ _ p (λ _, Some d))|].
        split; [done|]. intros ? ? _ Hr. by apply elem_of_nil in Hr.
    - intros E p [_ ->]. bool_prop. done. }
  intros []. apply (triple_bind _ _ (λ o p, ∃ rs, (∀ r, r ∈ rs → (d, r) ∈ done) ∧ placed seen s (Some d) rs o p)).
  { intros p (Hinv&Ha&Hk).
    assert (HRr : ∀ r, r ∈ reps p → R r s) by (intros r Hr; by apply HR, Hk).
    pose proof (place_safe seen (Some d) (reps p) s Hs HRr p (conj Hinv (conj Ha eq_refl))) as Hp.
    destruct (place_with_representative _ _ _ p) as [p1 [o|e]]; [|exact Hp].
    exists (reps p). split; [|exact Hp]. intros r Hr. by apply Hk. }
  assert (Hkn : ∀ p rs, active_digest p = Some d → reps p = rs → (∀ r, r ∈ rs → (d, r) ∈ done) →
    known ((d, s) :: done) p).
  { intros p rs Ha Hr Hrs d' r Hd Hin. rewrite Ha in Hd. injection Hd as <-. right. apply Hrs. by rewrite <- Hr. }
  assert (Hmono : ∀ p, Inv 0 seen p → Inv 0 (identity s :: seen) p).
  { intros p Hp. eapply inv_mono; [exact Hp|]. intros. by right. }
  intros [[]|] p (rs&Hrs&Ha&Hr&Hinv).
  - pose proof (flush_builder_safe (identity s :: seen) (Some d) rs MAX_REDUNDANT_MEMBERS_PER_GROUP p
      (conj Hinv (conj Ha Hr))) as Hf. unfold flush_complete_chunks.
    match goal with |- match ?m with _ => _ end => destruct m as [p1 [[]|e]] end; [|exact Hf].
    destruct Hf as (?&?&?). split; [done|]. by eapply Hkn.
  - unfold add_representative. rewrite get_bind. destruct (exact_compare cfg && _); cbn [modify].
    + split; [|by eapply Hkn]. apply Hmono. eapply inv_counted; [exact Hinv| |].
      * pose proof (inv_failures _ _ _ _ Hinv). cbn. lia.
      * destruct (exact_compare cfg); cbn; lia.
    + split; [by apply inv_representative|]. intros d' r Hd. cbn in Hd |- *. rewrite Ha in Hd.
      injection Hd as <-. rewrite map_app, elem_of_app, elem_of_cons. cbn.
      intros [Hin|Hin%list_elem_of_singleton]; [right; apply Hrs; by rewrite <- Hr|left; by subst].
  - split; [by apply Hmono|by eapply Hkn].
Qed.
Abbreviation ids rows := ((λ r : list byte * FileSnapshot, identity r.2) <$> rows).

Lemma add_all_safe rows : ∀ done seen,
  NoDup (ids rows ++ seen) →
  (∀ l1 d s l2, rows = l1 ++ (d, s) :: l2 → ∀ r, (d, r) ∈ done ++ l1 → R r s) →
  triple (λ p, Inv 0 seen p ∧ known done p) (add_all cfg metadata exact_matcher observed rows)
    (λ _ p, Inv 0 (ids rows ++ seen) p) safe.
Proof.
  induction rows as [|[d s] rows IH]; intros done seen Hnd HR; cbn [add_all]; [by intros p [??]|].
  csimpl in Hnd. apply NoDup_cons in Hnd as [Hs Hnd].
  eapply triple_bind; [apply add_safe with (done := done)|intros u; cbn beta].
  - intros Hin. apply Hs, elem_of_app. by right.
  - intros r Hr. apply (HR [] d s rows); [done|]. by rewrite app_nil_r.
  - eapply triple_weaken; [apply (IH ((d, s) :: done) (identity s :: seen))| |].
    + rewrite <- Permutation_middle. apply NoDup_cons. done.
    + intros l1 d' s' l2 -> r Hr. apply (HR ((d, s) :: l1) d' s' l2); [done|].
      apply elem_of_app in Hr as [[Hr|Hr]%elem_of_cons|Hr]; apply elem_of_app;
        [right; rewrite Hr; apply list_elem_of_here|by left|right; by apply list_elem_of_further].
    + done.
    + intros [] p Hp. eapply inv_mono; [exact Hp|]. cbn. intros x.
      rewrite !elem_of_cons, !elem_of_app, elem_of_cons. tauto.
Qed.

Lemma collisions_safe rows seen :
  NoDup (ids rows ++ seen) →
  (∀ l1 d s l2, rows = l1 ++ (d, s) :: l2 → ∀ r, (d, r) ∈ l1 → R r s) →
  triple (Inv 0 seen) (group_full_collisions cfg metadata exact_matcher observed rows)
    (λ _, Inv 0 (ids rows ++ seen)) safe.
Proof.
  intros Hnd HR p Hinv. unfold group_full_collisions. rewrite !modify_bind.
  pose proof (inv_reset _ _ p (λ _, None) Hinv) as Hinv1. set (p1 := upd sets _ (upd active_digest _ p)) in *.
  assert (Hk : known [] p1) by (by intros d r Hd).
  clearbody p1. clear p Hinv. pose proof (conj Hinv1 Hk) as HP. clear Hinv1 Hk.
  revert p1 HP.
  apply (triple_bind _ _ (λ _, Inv 0 (ids rows ++ seen))); [by apply add_all_safe|].
  intros [] p Hp. pose proof (flush_builder_safe _ _ _ 0 p (conj Hp (conj eq_refl eq_refl))) as Hf.
  unfold flush_builder. match goal with |- match ?m with _ => _ end => destruct m as [p1 [[]|e]] end;
    [apply Hf|exact Hf].
Qed.

Definition size_rows (e : Z * Z * option (list (list byte * FileSnapshot)))
  : list (list byte * FileSnapshot) := default [] e.2.

Lemma plan_sizes_safe sizes : ∀ seen,
  NoDup (ids (concat (size_rows <$> sizes)) ++ seen) →
  (∀ s n rows l1 d m l2, (s, n, Some rows) ∈ sizes → rows = l1 ++ (d, m) :: l2 →
     ∀ r, (d, r) ∈ l1 → R r m) →
  Forall (λ e, 0 <= e.1.2) sizes →
  triple (Inv 0 seen) (plan_sizes cfg metadata exact_matcher observed sizes)
    (λ _ p, ∃ seen', Inv 0 seen' p) safe.
Proof.
  induction sizes as [|[[s n] rows] sizes IH]; intros seen Hnd HR Hn; cbn [plan_sizes].
  { intros p Hp. by exists seen. }
  csimpl in Hnd. rewrite fmap_app, <- app_assoc in Hnd. inversion_clear Hn as [|? ? Hn0 Hn']. cbn in Hn0.
  assert (Hnd' : NoDup (ids (concat (size_rows <$> sizes)) ++ (ids (size_rows (s, n, rows)) ++ seen))).
  { rewrite app_assoc, (Permutation_app_comm (ids (concat _))), <- app_assoc. exact Hnd. }
  apply (triple_bind _ _ (λ _, Inv 0 (ids (size_rows (s, n, rows)) ++ seen))).
  - assert (Hmore : ∀ p, Inv 0 seen p → Inv 0 (ids (size_rows (s, n, rows)) ++ seen) p).
    { intros p Hp. eapply inv_mono; [exact Hp|]. intros x Hx. apply elem_of_app. by right. }
    intros p Hp. unfold plan_size. destruct (negb _); [by apply Hmore|]. rewrite modify_bind.
    assert (Hp1 : Inv 0 seen (upd counters (upd failures (Z.add n)) p)).
    { eapply inv_counted; [exact Hp| |].
      - pose proof (inv_failures _ _ _ _ Hp). cbn. lia.
      - destruct (exact_compare cfg); cbn; lia. }
    destruct rows as [rows|]; [|by apply Hmore].
    refine (collisions_safe rows seen _ _ _ Hp1).
    + cbn in Hnd. rewrite (Permutation_app_comm (ids rows)), <- app_assoc in Hnd.
      apply NoDup_app in Hnd as (_&_&Hnd). rewrite Permutation_app_comm. exact Hnd.
    + intros l1 d m l2 Hr. eapply HR; [apply list_elem_of_here|exact Hr].
  - intros []. apply IH; [done| |done]. intros s' n' rows' l1 d m l2 Hin.
    apply (HR s' n' rows'). by apply list_elem_of_further.
Qed.

Lemma new_planning_inv : Inv 0 [] new_planning.
Proof.
  split; try done; try (by constructor).
  - intros g Hg. by apply elem_of_nil in Hg.
  - unfold paid. destruct (exact_compare cfg); [|done]. by vm_compute.
Qed.
End safety.

(** ** Members and selections *)

Lemma redundant_ids_in gs g m : g ∈ gs → m ∈ redundant g → identity m ∈ redundant_ids gs.
Proof.
  intros Hg Hm. unfold redundant_ids. apply list_elem_of_In, in_concat. exists (identity <$> redundant g).
  split; apply list_elem_of_In; [by apply (list_elem_of_fmap_2 (λ g, identity <$> redundant g))|].
  by apply list_elem_of_fmap_2.
Qed.

Lemma selected_in cfg ms m :
  m ∈ ms → identity m ∈ explicit_keep_identities (keeper_policy cfg) → identity m ∈ selected cfg ms.
Proof.
  intros Hm He. apply list_elem_of_In, filter_In. split; [|by apply bool_decide_eq_true].
  apply list_elem_of_In. by apply list_elem_of_fmap_2.
Qed.

Lemma two_selected cfg ms x y :
  x ∈ selected cfg ms → y ∈ selected cfg ms → x ≠ y → 1 < zlen (remove_dups (selected cfg ms)).
Proof.
  intros Hx Hy Hne. apply elem_of_remove_dups in Hx, Hy.
  destruct (remove_dups (selected cfg ms)) as [|a [|b l]]; [by apply elem_of_nil in Hx| |cbn; lia].
  apply list_elem_of_singleton in Hx, Hy. congruence.
Qed.

Lemma sorted_before {A} (rel : A → A → Prop) l1 x y l2 :
  x ∈ l1 → StronglySorted rel (l1 ++ y :: l2) → rel x y.
Proof.
  induction l1 as [|a l1 IH]; intros Hx Hs; [by apply elem_of_nil in Hx|].
  inversion Hs as [|? ? Hs' Ha]; subst. apply elem_of_cons in Hx as [->|Hx]; [|by apply IH].
  rewrite Forall_forall in Ha. apply Ha, elem_of_app. right. apply list_elem_of_here.
Qed.

(** ** Publication *)

Lemma remove_dups_id {A} `{EqDecision A} (l : list A) : NoDup l → remove_dups l = l.
Proof.
  induction 1 as [|x l Hx Hl IH]; [done|]. cbn. destruct (decide_rel _ _ _); [done|by rewrite IH].
Qed.

Lemma checked_well_formed observed g :
  check_group observed g = Ok tt → malformed observed g = false.
Proof.
  unfold check_group, membership_inconsistent, malformed. intros H. inv_ok. bool_prop.
  rewrite remove_dups_id by done. rewrite length_fmap. cbn [length group_members].
  assert (redundant g ≠ []) by done. destruct (redundant g) as [|r red]; [done|].
  assert (E : forallb (λ m, size m =? g_size g) (group_members g) = true).
  { apply forallb_forall. intros m Hm%list_elem_of_In. rewrite Forall_forall in H7.
    by apply Z.eqb_eq, H7. }
  rewrite E, H0, (proj2 (Z.leb_gt _ _)), (proj2 (Z.ltb_ge _ _)) by (cbn [length]; lia).
  by rewrite Nat.eqb_refl.
Qed.

Lemma existsb_none {A} (f : A → bool) (l : list A) : Forall (λ x, f x = false) l → existsb f l = false.
Proof. induction 1 as [|x l Hx Hl IH]; cbn; [done|]. by rewrite Hx, IH. Qed.

Lemma members_sum gs :
  sum_with (λ g, zlen (group_members g)) gs = zlen gs + sum_with (λ g, zlen (redundant g)) gs.
Proof. induction gs as [|g gs IH]; cbn [sum_with]; [done|]. rewrite IH. cbn [group_members length]. lia. Qed.

Lemma inv_publishes cfg observed V seen p :
  inv cfg observed V 0 seen p → batch p = [] →
  publication_checks observed (stored p) (group_count p) (redundant_files p) (reclaimable_bytes p)
    (session_mode cfg p) (session_policy cfg) (session_coverage p)
    (comparisons (counters p)) (failures (counters p)) = Ok tt.
Proof.
  intros Hinv Hb. pose proof (inv_paid_nonneg _ _ _ _ _ _ Hinv ltac:(lia)) as Hc0. destruct Hinv.
  unfold all_groups, paid in *. rewrite Hb, app_nil_r in *. unfold publication_checks.
  rewrite members_sum, inv_count0, inv_members0, inv_bytes0, Z.eqb_refl.
  rewrite (bool_decide_eq_true_2 ((zlen (stored p), _, _) = _)) by done.
  cbn [negb orb raise_if]. rewrite bind_ok_l, (existsb_none (malformed observed)) by
    (eapply Forall_impl; [exact inv_checked0|]; intros g; apply checked_well_formed).
  cbn [raise_if]. rewrite bind_ok_l, (proj2 (Z.ltb_ge _ 0)), (proj2 (Z.ltb_ge (failures _) 0)) by lia.
  rewrite (bool_decide_eq_true_2 (session_coverage p = _)) by done.
  rewrite (bool_decide_eq_true_2 (session_mode cfg p = _)) by
    (unfold session_mode, session_policy; by destruct (negb _), (exact_compare cfg)).
  assert (Hpaid : match session_policy cfg with
                  | PolicyFast => negb (comparisons (counters p) =? 0)
                  | PolicyExact => comparisons (counters p) <? redundant_files p
                  end = false).
  { unfold session_policy. destruct (exact_compare cfg); [apply Z.ltb_ge; lia|].
    rewrite inv_paid0. done. }
  rewrite inv_members0 in Hpaid. rewrite Hpaid. cbn [negb orb raise_if]. rewrite bind_ok_l, existsb_none; [done|].
  eapply Forall_impl; [exact inv_good0|]. intros g (_&_&Hp&Hm). cbn beta.
  by rewrite bool_decide_eq_false_2, Hm, bool_decide_eq_true_2.
Qed.

(** ** Theorems *)

Definition size_entry : Type := (Z * Z * option (list (list byte * FileSnapshot)))%type.

(** The files that take part in a session. *)
Definition planned_files (sizes : list size_entry) : list FileSnapshot :=
  snd <$> concat (size_rows <$> sizes).

(** The rows of a session: of one size, [k] comes before [m] with the same digest. *)
Definition comes_before (sizes : list size_entry) (k m : FileSnapshot) : Prop :=
  ∃ s n rows d l1 l2, (s, n, Some rows) ∈ sizes ∧ rows = l1 ++ (d, m) :: l2 ∧ (d, k) ∈ l1.

Section theorems.
Context (cfg : DedupConfig) (metadata : list FileSnapshot → option (list metadata_row))
  (exact_matcher : FileSnapshot → FileSnapshot → comparison) (observed : FileSnapshot → bool)
  (sizes : list size_entry).

(** One row per physical file, and counts of failures. *)
Definition valid_session : Prop :=
  NoDup (identity <$> planned_files sizes) ∧ Forall (λ e : size_entry, 0 <= e.1.2) sizes.

Abbreviation V := (verified cfg exact_matcher (comes_before sizes)).

Lemma planning_safe :
  valid_session →
  triple (λ p, p = new_planning) (plan_sizes cfg metadata exact_matcher observed sizes)
    (λ _ p, ∃ seen, inv cfg observed V 0 seen p) (λ p, safe_groups cfg V (all_groups p)).
Proof.
  intros [Hnd Hn]. eapply triple_weaken; [apply (plan_sizes_safe cfg metadata exact_matcher observed
    (comes_before sizes) sizes [])| |by intros ? ?; apply id].
  - rewrite app_nil_r. unfold planned_files in Hnd. by rewrite <- list_fmap_compose in Hnd.
  - intros s n rows l1 d m l2 Hin Hr r Hl. by exists s, n, rows, d, l1, l2.
  - done.
  - intros p ->. apply new_planning_inv.
Qed.

Lemma run_safe validation :
  valid_session →
  safe_groups cfg V (stored (run cfg metadata exact_matcher observed sizes validation new_planning).1).
Proof.
  intros Hv. pose proof (planning_safe Hv _ eq_refl) as Hp. unfold run. rewrite stm_bind_eq.
  destruct (plan_sizes _ _ _ _ _ _) as [p [[]|e]]; [|by eapply safe_groups_prefix].
  destruct Hp as [seen Hinv]. pose proof (flush_batch_quiet observed p p (quiet_refl observed p)) as Hf.
  pose proof (inv_safe _ _ _ _ _ _ Hinv) as Hsafe. rewrite stm_bind_eq.
  destruct (flush_batch observed p) as [p1 [[]|e]].
  - destruct Hf as [(Hall&_) _]. rewrite <- Hall in Hsafe. apply safe_groups_prefix in Hsafe.
    rewrite throw_if_bind. by destruct validation.
  - cbn. rewrite <- Hf in Hsafe. by eapply safe_groups_prefix.
Qed.

(** C3: no copy is lost to a plan.  Whatever a session ends with, in the groups
    it stored no file that is called redundant is the keeper of any group or
    redundant in a second place, so after the removal of every redundant file
    each of them still has its keeper; and each has the digest of its keeper and,
    under the exact policy, was compared with it byte for byte and found equal. *)
Theorem no_copy_is_lost validation g m :
  valid_session →
  let p := (run cfg metadata exact_matcher observed sizes validation new_planning).1 in
  g ∈ stored p → m ∈ redundant g →
  NoDup (redundant_ids (stored p)) ∧
  (∀ g', g' ∈ stored p → identity (keep g') ≠ identity m) ∧
  comes_before sizes (keep g) m ∧
  (exact_compare cfg = true → ∃ read, exact_matcher (keep g) m = Compared true read).
Proof.
  cbv zeta. intros Hv Hg Hm. destruct (run_safe validation Hv) as [Hgood Honce Hkeeps].
  rewrite Forall_forall in Hgood. destruct (Hgood g Hg) as (HV&_). rewrite Forall_forall in HV.
  split; [done|]. split; [|by apply HV]. intros g' Hg' E. apply (Hkeeps g' Hg'). rewrite E.
  exact (redundant_ids_in _ g m Hg Hm).
Qed.

(** An explicit decision is kept.  When the rows of a digest come in the order
    of their ranks, as the query gives them, a file whose identity the policy
    explicitly keeps is never redundant in a stored group. *)
Theorem explicit_choice_is_kept validation g m :
  valid_session →
  (∀ s n rows, (s, n, Some rows) ∈ sizes →
     StronglySorted (λ r1 r2 : list byte * FileSnapshot, r1.1 = r2.1 →
       explicit_rank (keeper_rank (working_directory cfg) r1.2 (keeper_policy cfg)) <=
       explicit_rank (keeper_rank (working_directory cfg) r2.2 (keeper_policy cfg))) rows) →
  let p := (run cfg metadata exact_matcher observed sizes validation new_planning).1 in
  g ∈ stored p → m ∈ redundant g →
  identity m ∉ explicit_keep_identities (keeper_policy cfg).
Proof.
  cbv zeta. intros Hv Hsorted Hg Hm Hex. destruct (run_safe validation Hv) as [Hgood _ Hkeeps].
  rewrite Forall_forall in Hgood. destruct (Hgood g Hg) as (HV&Hone&_). rewrite Forall_forall in HV.
  destruct (HV m Hm) as [(s&n&rows&d&l1&l2&Hin&->&Hk) _].
  apply Hsorted in Hin. pose proof (sorted_before _ _ (d, keep g) (d, m) _ Hk Hin eq_refl) as Hrank.
  clear Hin. rename Hrank into Hin. cbn in Hin. rewrite (bool_decide_eq_true_2 (identity m ∈ _)) in Hin by done.
  case_bool_decide as Hkeep; [|lia].
  assert (Hne : identity (keep g) ≠ identity m).
  { intros E. apply (Hkeeps g Hg). rewrite E. exact (redundant_ids_in _ g m Hg Hm). }
  unfold one_explicit in Hone.
  pose proof (two_selected cfg (group_members g) _ _ (selected_in cfg _ _ (list_elem_of_here _ _) Hkeep)
    (selected_in cfg _ _ (list_elem_of_further _ _ _ Hm) Hex) Hne). lia.
Qed.

(** C38: what a session plans can be published: when planning and the last flush
    end normally, all the checks of the publication pass.  The totals are those of
    the stored groups, no group is malformed, the coverage and the mode are those
    of the counted failures, under the exact policy there were at least as many
    comparisons as redundant files, and every member has its proof. *)
Theorem planned_session_publishes p :
  valid_session →
  (plan_sizes cfg metadata exact_matcher observed sizes;; flush_batch observed) new_planning = (p, Ok tt) →
  publication_checks observed (stored p) (group_count p) (redundant_files p) (reclaimable_bytes p)
    (session_mode cfg p) (session_policy cfg) (session_coverage p)
    (comparisons (counters p)) (failures (counters p)) = Ok tt.
Proof.
  intros Hv. pose proof (planning_safe Hv _ eq_refl) as Hp. rewrite stm_bind_eq.
  destruct (plan_sizes _ _ _ _ _ _) as [p0 [[]|e]]; [|done]. destruct Hp as [seen Hinv]. intros Hf.
  pose proof (flush_batch_quiet observed p0 p0 (quiet_refl observed p0)) as Hq. rewrite Hf in Hq.
  destruct Hq as [Hq Hb]. apply (inv_publishes cfg observed V seen); [|done].
  by apply (inv_quiet cfg observed V 0 seen p0).
Qed.
End theorems.

(** ** Witnesses *)

(** Five files of ten bytes: two copies and a file that only shares their digest,
    and two copies of another content.  The policy keeps the second file. *)
Module FiveFiles.
Definition file (n : Z) (name : string) : FileSnapshot :=
  {| path := py name; volume_id := 1; file_id := n; size := 10; mtime_ns := 5; birthtime_ns := -1 |}.

Definition config : DedupConfig :=
  {| exact_compare := true;
     keeper_policy := {| explicit_keep_identities := [(1, 2)]; preferred_roots := [py "/home/a"];
                         verified_reference_identities := []; verified_reference_evidence := [] |};
     max_file_bytes := None; working_directory := py "/" |}.

Definition content (s : FileSnapshot) : Z := if file_id s <=? 2 then 0 else if file_id s <=? 3 then 1 else 2.
Definition matcher (l r : FileSnapshot) : comparison := Compared (content l =? content r) (Some 20).
Definition rows (ms : list FileSnapshot) : option (list metadata_row) :=
  Some ((λ m, ([path m], 1, 1, true)) <$> ms).

Definition first : list byte := [Byte.x01].
Definition second : list byte := [Byte.x02].
Definition kept : FileSnapshot := file 2 "/home/a/report copy.txt".
Definition copy : FileSnapshot := file 1 "/home/b/report.txt".

Definition sizes : list size_entry :=
  [(10, 1, Some [(first, kept); (first, copy); (first, file 3 "/home/b/other.txt");
                 (second, file 4 "/home/b/x.txt"); (second, file 5 "/home/b/x (1).txt")])].

Abbreviation session := (run config rows matcher (λ _, true) sizes false new_planning).

Definition group : DuplicateGroup :=
  make_group config first kept [copy]
    [member_proof config kept kept ([path kept], 1, 1, true);
     member_proof config kept copy ([path copy], 1, 1, true)].

Lemma sizes_valid : valid_session sizes.
Proof.
  split; [apply (bool_decide_unpack _); vm_compute; exact I|].
  apply Forall_singleton. cbn. lia.
Qed.

Lemma group_stored : group ∈ stored session.1.
Proof. apply list_elem_of_lookup_2 with 0%nat. vm_compute. reflexivity. Qed.

Lemma no_copy_is_lost_witness :
  zlen (stored session.1) = 2 ∧ NoDup (redundant_ids (stored session.1)) ∧
  (∀ g', g' ∈ stored session.1 → identity (keep g') ≠ (1, 1)) ∧
  comes_before sizes kept copy ∧ (true = true → ∃ read, matcher kept copy = Compared true read).
Proof.
  split; [vm_compute; reflexivity|].
  apply (no_copy_is_lost config rows matcher (λ _, true) sizes false group copy);
    [apply sizes_valid|apply group_stored|apply list_elem_of_here].
Defined.

Lemma explicit_choice_is_kept_witness :
  copy ∈ redundant group ∧ identity copy ∉ [(1, 2)].
Proof.
  split; [apply list_elem_of_here|].
  apply (explicit_choice_is_kept config rows matcher (λ _, true) sizes false group copy);
    [apply sizes_valid| |apply group_stored|apply list_elem_of_here].
  intros s n l Hin. apply list_elem_of_singleton in Hin. injection Hin as -> -> ->.
  repeat first [apply SSorted_nil | apply SSorted_cons | apply Forall_nil; exact I
               | apply Forall_cons; split | (intros _; vm_compute; discriminate) ].
Defined.

Lemma planned_session_publishes_witness : ∃ p,
  (plan_sizes config rows matcher (λ _, true) sizes;; flush_batch (λ _, true)) new_planning = (p, Ok tt) ∧
  publication_checks (λ _, true) (stored p) (group_count p) (redundant_files p) (reclaimable_bytes p)
    (session_mode config p) PolicyExact (session_coverage p)
    (comparisons (counters p)) (failures (counters p)) = Ok tt.
Proof.
  destruct ((plan_sizes config rows matcher (λ _, true) sizes;; flush_batch (λ _, true)) new_planning)
    as [p r] eqn:E.
  assert (Hr : r = Ok tt).
  { change r with (p, r).2. rewrite <- E. vm_compute. reflexivity. }
  subst r. exists p. split; [reflexivity|].
  apply (planned_session_publishes config rows matcher (λ _, true) sizes p); [apply sizes_valid|exact E].
Defined.
End FiveFiles.
