(* ===== verification/PyOrder.v ===== *)
(** * Orders, stable sorts, ordered dictionaries and exact float sums

    What [sorted], [min], [max], a [dict] whose order is observed and
    [math.fsum] do.  A Python comparison of two keys is a function into
    [comparison]; the class [TotalOrder] holds its laws, and the comparison of
    tuples is the lexicographic [lex].  A sort whose key may raise computes the
    keys first, in order, as [sorted] does. *)

From Stdlib Require Export Sorting.Sorted.
From stdpp Require Export sorting.
From S2P Require Import Prelude.

#[global] Open Scope Z_scope.

(** ** Comparisons *)

Class TotalOrder {A} (c : A → A → comparison) : Prop := {
  cmp_sym x y : c y x = CompOpp (c x y);
  cmp_eq_l x y z : c x y = Eq → c x z = c y z;
  cmp_lt_trans x y z : c x y = Lt → c y z = Lt → c x z = Lt
}.

(** Keys that compare equal are equal. *)
Class Discriminating {A} (c : A → A → comparison) : Prop :=
  cmp_eq x y : c x y = Eq → x = y.

#[global] Arguments cmp_sym {A} c {_} x y.
#[global] Arguments cmp_eq_l {A} c {_} x y z _.
#[global] Arguments cmp_lt_trans {A} c {_} x y z _ _.
#[global] Arguments cmp_eq {A} c {_} x y _.

(** [x <= y] *)
Definition cmp_le {A} (c : A → A → comparison) (x y : A) : Prop := c x y ≠ Gt.

#[export] Instance cmp_le_dec {A} (c : A → A → comparison) x y : Decision (cmp_le c x y).
Proof. unfold cmp_le. apply _. Defined.

(** Tuples are compared componentwise, the first difference decides. *)
Definition lex {A B} (ca : A → A → comparison) (cb : B → B → comparison)
    (x y : A * B) : comparison :=
  match ca x.1 y.1 with Eq => cb x.2 y.2 | r => r end.

Fixpoint cmp_list {A} (c : A → A → comparison) (xs ys : list A) : comparison :=
  match xs, ys with
  | [], [] => Eq
  | [], _ :: _ => Lt
  | _ :: _, [] => Gt
  | x :: xs', y :: ys' => match c x y with Eq => cmp_list c xs' ys' | r => r end
  end.

(** Strings are compared by code points. *)
Definition cmp_str : pystr → pystr → comparison := cmp_list Z.compare.

(** [False < True] *)
Definition cmp_bool (a b : bool) : comparison := Z.b2z a ?= Z.b2z b.

Section order_laws.
Context {A : Type} (c : A → A → comparison) `{!TotalOrder c}.

Lemma cmp_refl x : c x x = Eq.
Proof. pose proof (cmp_sym c x x) as H. by destruct (c x x). Qed.

Lemma cmp_eq_r x y z : c x y = Eq → c z x = c z y.
Proof.
  intros H. rewrite (cmp_sym c x z), (cmp_sym c y z). f_equal. by apply (cmp_eq_l c).
Qed.

Lemma cmp_eq_sym x y : c x y = Eq → c y x = Eq.
Proof. intros H. by rewrite (cmp_sym c x y), H. Qed.

#[export] Instance cmp_le_trans : Transitive (cmp_le c).
Proof.
  intros x y z Hxy Hyz. unfold cmp_le in *. destruct (c x y) eqn:H1; [|..|done].
  - by rewrite (cmp_eq_l c _ _ z H1).
  - destruct (c y z) eqn:H2; [|..|done].
    + by rewrite <- (cmp_eq_r _ _ x H2), H1.
    + by rewrite (cmp_lt_trans c _ _ _ H1 H2).
Qed.

#[export] Instance cmp_le_total : Total (cmp_le c).
Proof. intros x y. unfold cmp_le. rewrite (cmp_sym c x y). destruct (c x y); auto. Qed.
End order_laws.

#[export] Instance lex_order {A B} (ca : A → A → comparison) (cb : B → B → comparison)
  `{!TotalOrder ca, !TotalOrder cb} : TotalOrder (lex ca cb).
Proof.
  unfold lex. split.
  - intros x y. rewrite (cmp_sym ca x.1 y.1), (cmp_sym cb x.2 y.2). by destruct (ca x.1 y.1).
  - intros x y z. destruct (ca x.1 y.1) eqn:H; [|done..]. intros H2.
    rewrite (cmp_eq_l ca _ _ z.1 H). by rewrite (cmp_eq_l cb _ _ z.2 H2).
  - intros x y z H1 H2. destruct (ca x.1 y.1) eqn:E1; [|clear H1|done].
    + rewrite (cmp_eq_l ca _ _ z.1 E1). destruct (ca y.1 z.1); [|done..].
      by apply (cmp_lt_trans cb _ y.2).
    + destruct (ca y.1 z.1) eqn:E2; [| |done].
      * by rewrite <- (cmp_eq_r ca _ _ x.1 E2), E1.
      * by rewrite (cmp_lt_trans ca _ _ _ E1 E2).
Qed.

#[export] Instance lex_discriminating {A B} (ca : A → A → comparison)
  (cb : B → B → comparison) `{!Discriminating ca, !Discriminating cb} :
  Discriminating (lex ca cb).
Proof.
  intros [a b] [a' b']. unfold lex; cbn. destruct (ca a a') eqn:H; [|done..].
  intros H2. by rewrite (cmp_eq ca _ _ H), (cmp_eq cb _ _ H2).
Qed.

#[export] Instance Z_order : TotalOrder Z.compare.
Proof.
  split.
  - intros x y. apply Z.compare_antisym.
  - intros x y z H. by apply Z.compare_eq in H as ->.
  - intros x y z. rewrite !Z.compare_lt_iff. lia.
Qed.

#[export] Instance Z_discriminating : Discriminating Z.compare.
Proof. intros x y. apply Z.compare_eq. Qed.

#[export] Instance cmp_list_order {A} (c : A → A → comparison) `{!TotalOrder c} :
  TotalOrder (cmp_list c).
Proof.
  split.
  - intros x. induction x as [|a x IH]; intros [|b y]; cbn; [done..|].
    rewrite (cmp_sym c a b). destruct (c a b); cbn; auto.
  - intros x. induction x as [|a x IH]; intros [|b y] [|d z]; cbn; try done.
    destruct (c a b) eqn:H; [|done..]. intros H2.
    rewrite (cmp_eq_l c _ _ d H), (IH _ z H2). done.
  - intros x. induction x as [|a x IH]; intros [|b y] [|d z]; cbn; try done.
    destruct (c a b) eqn:E1; [| |done]; intros H1.
    + rewrite (cmp_eq_l c _ _ d E1). destruct (c b d); [|done..]. by apply IH.
    + destruct (c b d) eqn:E2; intros H2; [| |done].
      * by rewrite <- (cmp_eq_r c _ _ a E2), E1.
      * by rewrite (cmp_lt_trans c _ _ _ E1 E2).
Qed.

#[export] Instance cmp_list_discriminating {A} (c : A → A → comparison)
  `{!Discriminating c} : Discriminating (cmp_list c).
Proof.
  intros x. induction x as [|a x IH]; intros [|b y]; cbn; try done.
  destruct (c a b) eqn:H; [|done..]. intros H2. by rewrite (cmp_eq c _ _ H), (IH _ H2).
Qed.

#[export] Instance cmp_str_order : TotalOrder cmp_str.
Proof. unfold cmp_str. apply _. Qed.

#[export] Instance cmp_str_discriminating : Discriminating cmp_str.
Proof. unfold cmp_str. apply _. Qed.

(** A comparison through a function into an ordered type. *)
Lemma order_on {A B} (f : A → B) (c : B → B → comparison) (c' : A → A → comparison) :
  TotalOrder c → (∀ x y, c' x y = c (f x) (f y)) → TotalOrder c'.
Proof.
  intros Hc H. split; intros *; rewrite !H.
  - apply (cmp_sym c).
  - apply (cmp_eq_l c).
  - apply (cmp_lt_trans c).
Qed.

#[export] Instance cmp_bool_order : TotalOrder cmp_bool.
Proof. by apply (order_on Z.b2z Z.compare _ Z_order). Qed.

(** ** Floats

    [x < y] on two floats is [SFcompare]; it is a total order on the numbers,
    on which [-0.0] and [0.0] are equal.  [fcmp] puts NaN last: no NaN reaches a
    sort of the modelled code. *)

Definition float_key (f : pyfloat) : Z * (Z * Z) :=
  match f with
  | S754_infinity true => (-2, (0, 0))
  | S754_finite true m e => (-1, (- e, - Z.pos m))
  | S754_zero _ => (0, (0, 0))
  | S754_finite false m e => (1, (e, Z.pos m))
  | S754_infinity false => (2, (0, 0))
  | S754_nan => (3, (0, 0))
  end.

Definition fcmp (f g : pyfloat) : comparison :=
  lex Z.compare (lex Z.compare Z.compare) (float_key f) (float_key g).

#[export] Instance fcmp_order : TotalOrder fcmp.
Proof. by apply (order_on float_key (lex Z.compare (lex Z.compare Z.compare)) _ _). Qed.

Lemma fcmp_spec f g : f ≠ S754_nan → g ≠ S754_nan → SFcompare f g = Some (fcmp f g).
Proof.
  intros Hf Hg. destruct f as [s|s| |s m e], g as [s'|s'| |s' m' e']; try done;
    destruct s; try done; destruct s'; try done; cbn.
  unfold fcmp, lex; cbn. f_equal. rewrite (Z.compare_opp e e'), (Z.compare_antisym e e'). by destruct (e ?= e').
Qed.

(** ** [sorted], [min] and [max] *)

Section sort_by.
Context {A K : Type} (c : K → K → comparison) (key : A → K).

Fixpoint insert_by (x : A) (l : list A) : list A :=
  match l with
  | [] => [x]
  | y :: l' => match c (key x) (key y) with Gt => y :: insert_by x l' | _ => x :: l end
  end.

(** [sorted(l, key=key)]: stable *)
Definition sort_by (l : list A) : list A := foldr insert_by [] l.

(** [min(l, key=key)] of a nonempty sequence [x :: l]: the first least one. *)
Definition min_by (x : A) (l : list A) : A :=
  foldl (λ best y, match c (key y) (key best) with Lt => y | _ => best end) x l.

(** [max(l, key=key)] of a nonempty sequence [x :: l]: the first greatest one. *)
Definition max_by (x : A) (l : list A) : A :=
  foldl (λ best y, match c (key y) (key best) with Gt => y | _ => best end) x l.

Lemma insert_by_perm x l : insert_by x l ≡ₚ x :: l.
Proof.
  induction l as [|y l IH]; cbn; [done|]. destruct (c (key x) (key y)); [done..|].
  rewrite IH. apply Permutation_swap.
Qed.

Lemma sort_by_perm l : sort_by l ≡ₚ l.
Proof. induction l as [|x l IH]; cbn; [done|]. by rewrite insert_by_perm, IH. Qed.

Lemma min_by_elem l : ∀ x, min_by x l ∈ x :: l.
Proof.
  induction l as [|y l IH]; intros x; unfold min_by in *; cbn; [apply list_elem_of_here|].
  destruct (c (key y) (key x)); [specialize (IH x)|specialize (IH y)|specialize (IH x)];
    set_solver.
Qed.

Context `{!TotalOrder c}.

Lemma insert_by_sorted x l :
  StronglySorted (λ a b, cmp_le c (key a) (key b)) l →
  StronglySorted (λ a b, cmp_le c (key a) (key b)) (insert_by x l).
Proof.
  induction 1 as [|y l Hl IH Hy]; cbn; [by repeat constructor|].
  destruct (c (key x) (key y)) eqn:H.
  1,2: constructor; [by constructor|]; constructor; [unfold cmp_le; by rewrite H|];
    eapply Forall_impl; [exact Hy|]; intros z Hz; etrans; [|exact Hz];
    unfold cmp_le; by rewrite H.
  constructor; [done|]. rewrite insert_by_perm. constructor; [|done].
  unfold cmp_le. by rewrite (cmp_sym c), H.
Qed.

Lemma sort_by_sorted l : StronglySorted (λ a b, cmp_le c (key a) (key b)) (sort_by l).
Proof. induction l as [|x l IH]; cbn; [constructor|by apply insert_by_sorted]. Qed.

(** A sort whose keys tell its elements apart does not see their order. *)
Lemma sort_by_unique l1 l2 :
  l1 ≡ₚ l2 → (∀ x y, x ∈ l1 → y ∈ l1 → c (key x) (key y) = Eq → x = y) →
  sort_by l1 = sort_by l2.
Proof.
  intros Hp Hinj.
  apply (StronglySorted_unique_strong (λ a b, cmp_le c (key a) (key b)));
    [|apply sort_by_sorted..|by rewrite !sort_by_perm].
  intros x y Hx Hy. rewrite sort_by_perm in Hx, Hy. rewrite <- Hp in Hy. unfold cmp_le.
  intros H1 H2. apply Hinj; [done..|]. rewrite (cmp_sym c) in H2.
  by destruct (c (key x) (key y)).
Qed.
End sort_by.

(** ** Filters of sorted lists *)

Section filters.
Context {A K : Type} (c : K → K → comparison) (key : A → K) `{!TotalOrder c}
  (P : A → Prop) `{!∀ x, Decision (P x)}.

Lemma insert_by_least x l : Forall (λ y, cmp_le c (key x) (key y)) l → insert_by c key x l = x :: l.
Proof.
  destruct 1 as [|y l Hy _]; [done|]. cbn. unfold cmp_le in Hy. by destruct (c (key x) (key y)).
Qed.

Lemma forall_filter (Q : A → Prop) l : Forall Q l → Forall Q (filter P l).
Proof. rewrite !Forall_forall. intros HQ x [_ Hx]%list_elem_of_filter. by apply HQ. Qed.

Lemma filter_insert_by x l :
  StronglySorted (λ a b, cmp_le c (key a) (key b)) l →
  filter P (insert_by c key x l) = if decide (P x) then insert_by c key x (filter P l) else filter P l.
Proof.
  induction 1 as [|y l Hs IH Hy]; cbn [insert_by]; [by rewrite filter_cons|].
  destruct (c (key x) (key y)) eqn:Hc.
  3: { rewrite !filter_cons, IH. destruct (decide (P y)), (decide (P x)); cbn; by rewrite ?Hc. }
  all: rewrite (filter_cons P x); destruct (decide (P x)); [|done]; symmetry; apply insert_by_least;
    apply forall_filter; constructor; [unfold cmp_le; by rewrite Hc|];
    (eapply Forall_impl; [exact Hy|]); intros z Hz; etrans; [|exact Hz]; unfold cmp_le; by rewrite Hc.
Qed.

Lemma sort_by_filter l : filter P (sort_by c key l) = sort_by c key (filter P l).
Proof.
  induction l as [|x l IH]; [done|]. unfold sort_by in *. cbn [foldr].
  rewrite filter_insert_by by (apply (sort_by_sorted c key)). rewrite IH, filter_cons. by case_decide.
Qed.
End filters.

(** [[f(x) for x in l]], left to right, the first exception ends it. *)
Fixpoint map_result {E A B} (f : A → result E B) (l : list A) : result E (list B) :=
  match l with
  | [] => Ok []
  | x :: l' => y ← f x; ys ← map_result f l'; Ok (y :: ys)
  end.

Lemma map_result_ok {E A B} (f : A → result E B) l ys :
  map_result f l = Ok ys → Forall2 (λ x y, f x = Ok y) l ys.
Proof.
  revert ys. induction l as [|x l IH]; intros ys H; cbn in H; inv_ok; [constructor|].
  constructor; [done|by apply IH].
Qed.

(** [sorted(l, key=key)] with a key that may raise. *)
Definition sorted {E A K} (c : K → K → comparison) (key : A → result E K) (l : list A) :
    result E (list A) :=
  keys ← map_result key l; Ok (snd <$> sort_by c fst (zip keys l)).

Lemma sorted_perm {E A K} (c : K → K → comparison) (key : A → result E K) l l' :
  sorted c key l = Ok l' → l' ≡ₚ l.
Proof.
  intros H. unfold sorted in H. inv_ok.
  match goal with H : map_result _ _ = Ok _ |- _ => apply map_result_ok in H; rename H into Hk end.
  rewrite sort_by_perm. rewrite snd_zip; [done|]. by rewrite (Forall2_length _ _ _ Hk).
Qed.

Lemma sorted_spec {E A K} (c : K → K → comparison) (key : A → result E K) l l' :
  TotalOrder c → sorted c key l = Ok l' →
  StronglySorted (λ x y, ∃ kx ky, key x = Ok kx ∧ key y = Ok ky ∧ cmp_le c kx ky) l'.
Proof.
  intros Hc H. unfold sorted in H. inv_ok.
  match goal with H : map_result _ _ = Ok ?x |- _ => apply map_result_ok in H; rename H into Hk;
    rename x into ks end.
  assert (Forall (λ p, key p.2 = Ok p.1) (sort_by c fst (zip ks l))) as Hf.
  { rewrite sort_by_perm. clear -Hk. induction Hk; cbn; by constructor. }
  pose proof (sort_by_sorted c fst (zip ks l)) as Hs.
  induction Hs as [|p ps Hs IH Hp]; csimpl; [constructor|].
  inversion Hf as [|? ? H1 Hf']; subst. constructor; [by apply IH|].
  apply Forall_fmap. rewrite Forall_forall in Hp, Hf' |- *. intros q Hq. cbn.
  exists p.1, q.1. split; [done|]. split; [by apply Hf'|by apply Hp].
Qed.

(** ** A dictionary in insertion order *)

Section odict.
Context {K V : Type} `{!EqDecision K}.
Implicit Types (d : list (K * V)).

(** [d.get(k)] *)
Fixpoint dget (k : K) d : option V :=
  match d with
  | [] => None
  | (k', v) :: d' => if decide (k = k') then Some v else dget k d'
  end.

(** [d[k] = v]: in place, or at the end *)
Fixpoint dset (k : K) (v : V) d : list (K * V) :=
  match d with
  | [] => [(k, v)]
  | (k', v') :: d' => if decide (k = k') then (k', v) :: d' else (k', v') :: dset k v d'
  end.

Lemma dget_dset_eq k v d : dget k (dset k v d) = Some v.
Proof.
  induction d as [|[k' v'] d IH]; cbn; [by rewrite decide_True|].
  destruct (decide (k = k')); cbn; [by rewrite decide_True|by rewrite decide_False].
Qed.

Lemma dget_dset_ne k k2 v d : k2 ≠ k → dget k2 (dset k v d) = dget k2 d.
Proof.
  intros Hne. induction d as [|[k' v'] d IH]; cbn; [by rewrite decide_False|].
  destruct (decide (k = k')) as [<-|]; cbn; [by rewrite !decide_False by done|].
  destruct (decide (k2 = k')); [done|apply IH].
Qed.

Lemma dget_elem k v d : dget k d = Some v → (k, v) ∈ d.
Proof.
  induction d as [|[k' v'] d IH]; cbn; [done|].
  destruct (decide (k = k')) as [->|]; [intros [= ->]; apply list_elem_of_here|].
  intros H. apply list_elem_of_further. by apply IH.
Qed.

Lemma dget_None k d : dget k d = None ↔ k ∉ d.*1.
Proof.
  induction d as [|[k' v'] d IH]; csimpl; [set_solver|].
  destruct (decide (k = k')) as [->|]; set_solver.
Qed.

Lemma elem_dget k v d : NoDup d.*1 → (k, v) ∈ d → dget k d = Some v.
Proof.
  induction d as [|[k' v'] d IH]; csimpl; intros Hnd H; [by apply elem_of_nil in H|].
  apply NoDup_cons in Hnd as [Hk Hnd]. apply elem_of_cons in H as [[= -> ->]|H].
  { by rewrite decide_True. }
  rewrite decide_False; [by apply IH|]. intros ->. apply Hk.
  apply list_elem_of_fmap. by exists (k', v).
Qed.

Lemma dset_keys k v d : (dset k v d).*1 = if decide (k ∈ d.*1) then d.*1 else d.*1 ++ [k].
Proof.
  induction d as [|[k' v'] d IH]; csimpl; [done|].
  destruct (decide (k = k')) as [->|Hne]; csimpl.
  - rewrite decide_True by set_solver. done.
  - rewrite IH. destruct (decide (k ∈ d.*1)).
    + rewrite decide_True by set_solver. done.
    + rewrite decide_False by set_solver. done.
Qed.

Lemma dset_NoDup k v d : NoDup d.*1 → NoDup (dset k v d).*1.
Proof.
  intros H. rewrite dset_keys. destruct (decide (k ∈ d.*1)); [done|].
  apply NoDup_app. split; [done|]. split; [set_solver|]. apply NoDup_singleton.
Qed.

Lemma dset_elem k v d k2 v2 :
  NoDup d.*1 → (k2, v2) ∈ dset k v d → (k2 = k ∧ v2 = v) ∨ (k2 ≠ k ∧ (k2, v2) ∈ d).
Proof.
  intros Hnd H. apply elem_dget in H; [|by apply dset_NoDup].
  destruct (decide (k2 = k)) as [->|Hne].
  - rewrite dget_dset_eq in H. naive_solver.
  - rewrite dget_dset_ne in H by done. right. split; [done|by apply dget_elem].
Qed.
End odict.

(** ** [math.fsum]

    The exact sum of finite floats is a dyadic number: an integer multiple of
    the least power of two among the terms.  [fsum] rounds it once, to nearest
    even; it raises when a partial sum leaves the range of floats. *)

Definition float_exponent (f : pyfloat) : Z :=
  match f with S754_finite _ _ e => e | _ => 0 end.

Definition float_mantissa (f : pyfloat) : Z :=
  match f with S754_finite s m _ => signed s m | _ => 0 end.

Definition least_exponent (fs : list pyfloat) : Z := foldr Z.min 0 (float_exponent <$> fs).

(** The exact sum as a multiple of [2 ^ least_exponent fs]. *)
Definition exact_sum (fs : list pyfloat) : Z :=
  sum_with (λ f, float_mantissa f * 2 ^ (float_exponent f - least_exponent fs)) fs.

(** The exact sum, rounded once. *)
Definition rounded_sum (fs : list pyfloat) : pyfloat :=
  binary_normalize 53 1024 (exact_sum fs) (least_exponent fs) false.

#[export] Instance pyfloat_eq_dec : EqDecision pyfloat.
Proof. solve_decision. Defined.

Inductive fsum_error : Type := intermediate_overflow | opposite_infinities.

Definition fsum (fs : list pyfloat) : result fsum_error pyfloat :=
  if forallb is_finite fs then
    if forallb (λ n, is_finite (rounded_sum (take n fs))) (seq 1 (length fs))
    then Ok (rounded_sum fs) else Err intermediate_overflow
  else if bool_decide (S754_infinity true ∈ fs) && bool_decide (S754_infinity false ∈ fs)
  then Err opposite_infinities
  else if existsb (λ f, match f with S754_nan => true | _ => false end) fs then Ok S754_nan
  else Ok (S754_infinity (bool_decide (S754_infinity true ∈ fs))).

Lemma least_exponent_perm fs gs : fs ≡ₚ gs → least_exponent fs = least_exponent gs.
Proof. unfold least_exponent. induction 1; cbn in *; lia. Qed.

(** The rounded exact sum does not depend on the order of its terms. *)
Lemma rounded_sum_perm fs gs : fs ≡ₚ gs → rounded_sum fs = rounded_sum gs.
Proof.
  intros H. unfold rounded_sum, exact_sum. rewrite (least_exponent_perm _ _ H).
  by rewrite (sum_with_perm _ _ _ H).
Qed.

Lemma fsum_ok fs f :
  forallb is_finite fs = true → fsum fs = Ok f → f = rounded_sum fs.
Proof. intros Hf. unfold fsum. rewrite Hf. case_match; congruence. Qed.
