(* ===== verification/KnowledgeContracts.v ===== *)
(** * The contracts of the knowledge plane

    Models the immutable records of knowledge/knowledge_contracts.py and
    knowledge/knowledge_search_contracts.py that a search exchanges
    ([ResourceRef], [RevisionRef], [EvidenceRef], [RankingSignal],
    [KnowledgeHit], [KnowledgeCandidate], [ResourceDiscoverySignal]), and the
    validations that run when one is built or copied with [replace]
    (knowledge/knowledge_contract_references.py,
    knowledge/knowledge_contract_validation.py).

    A record here is the tuple of its fields; [X_post_init] is the check its
    constructor runs.  Fields typed [int] are [Z], so the tests that refuse a
    [bool] in their place never apply.  [float_repr], the shortest decimal of a
    float, is a parameter: only the length of a serialized value depends on
    it. *)

From S2P Require Import Prelude PyOrder.

(** ** Exceptions *)

Inductive KnowledgeError : Type :=
| ValueError (message : string)
| AssertionError
| ZeroDivisionError
| OverflowError
| IndexError
| CancellationRaised.

Definition value_error_if (b : bool) (message : string) : result KnowledgeError unit :=
  raise_if b (ValueError message).

(** ** Text *)

Definition blank (s : pystr) : bool := bool_decide (strip s = []).

Definition required_text (name : string) (value : pystr) : result KnowledgeError pystr :=
  let normalized := strip value in
  value_error_if (bool_decide (normalized = [])) (name +:+ " cannot be blank");;
  Ok normalized.

Definition optional_text (name : string) (value : option pystr) :
    result KnowledgeError (option pystr) :=
  value_error_if (match value with Some s => blank s | None => false end)
    (name +:+ " cannot be blank when present");;
  Ok value.

(** ** JSON values: what a query support may hold *)

Inductive json : Type :=
| JNull
| JBool (b : bool)
| JInt (z : Z)
| JFloat (f : pyfloat)
| JStr (s : pystr)
| JList (l : list json)
| JObject (fields : list (pystr * json)).

(** [mapping.get(name)] on a JSON object *)
Definition jget (name : string) (fields : list (pystr * json)) : option json :=
  dget (py name) fields.

(** [bool(value)] *)
Definition json_truthy (v : json) : bool :=
  match v with
  | JNull => false
  | JBool b => b
  | JInt z => negb (z =? 0)
  | JFloat (S754_zero _) => false
  | JFloat _ => true
  | JStr s => negb (bool_decide (s = []))
  | JList l => match l with [] => false | _ => true end
  | JObject fs => match fs with [] => false | _ => true end
  end.

(** [str(n)] *)
Definition int_text (z : Z) : pystr :=
  if z <? 0 then 45 :: dec_text (- z) else dec_text z.

Definition hex4 (u : Z) : pystr := hex_char <$> zero_pad 4 (digits 16 u).

(** A character of a JSON string, everything but printable ASCII escaped. *)
Definition json_char (c : Z) : pystr :=
  if c =? 34 then [92; 34]
  else if c =? 92 then [92; 92]
  else if c =? 10 then py "\n"
  else if c =? 13 then py "\r"
  else if c =? 9 then py "\t"
  else if c =? 12 then py "\f"
  else if c =? 8 then py "\b"
  else if (32 <=? c) && (c <=? 126) then [c]
  else if c <? 65536 then py "\u" ++ hex4 c
  else py "\u" ++ hex4 (55296 + (c - 65536) / 1024)
       ++ py "\u" ++ hex4 (56320 + (c - 65536) mod 1024).

Definition json_string (s : pystr) : pystr := [34] ++ concat (json_char <$> s) ++ [34].

Definition intersperse (separator : pystr) (parts : list pystr) : pystr :=
  match parts with
  | [] => []
  | p :: ps => p ++ concat ((λ q, separator ++ q) <$> ps)
  end.

Section contracts.
Variable float_repr : pyfloat → pystr.

(** [json.dumps(value, allow_nan=False)]; [None] where it raises. *)
Fixpoint dumps (v : json) : option pystr :=
  match v with
  | JNull => Some (py "null")
  | JBool b => Some (if b then py "true" else py "false")
  | JInt z => if 10 ^ INT_MAX_STR_DIGITS <=? Z.abs z then None else Some (int_text z)
  | JFloat f => if is_finite f then Some (float_repr f) else None
  | JStr s => Some (json_string s)
  | JList l =>
      parts ← (fix go (l : list json) : option (list pystr) :=
                 match l with
                 | [] => Some []
                 | x :: l' => p ← dumps x; ps ← go l'; Some (p :: ps)
                 end) l;
      Some (py "[" ++ intersperse (py ", ") parts ++ py "]")
  | JObject fs =>
      parts ← (fix go (fs : list (pystr * json)) : option (list pystr) :=
                 match fs with
                 | [] => Some []
                 | (k, x) :: fs' =>
                     p ← dumps x; ps ← go fs';
                     Some ((json_string k ++ py ": " ++ p) :: ps)
                 end) fs;
      Some (py "{" ++ intersperse (py ", ") parts ++ py "}")
  end.

(** ** Resources and revisions *)

Inductive ResourceDisposition : Type := CANONICAL | DUPLICATE | SUPERSEDED | DERIVED.

Inductive RevisionState : Type :=
| CURRENT | HISTORICAL | SUPERSEDED_REVISION | PARTIAL | AMBIGUOUS.

Inductive EvidenceMethod : Type :=
| STRUCTURAL | EXTRACTED | INFERRED | HUMAN_CONFIRMED | AMBIGUOUS_METHOD.

Record PhysicalIdentityRef : Type :=
  { scheme : pystr; identity_value : pystr; identity_version : Z }.

Definition validate_physical_identity_ref (c : PhysicalIdentityRef) :
    result KnowledgeError unit :=
  required_text "physical identity scheme" (scheme c);;
  required_text "physical identity value" (identity_value c);;
  value_error_if (identity_version c <? 1) "physical identity version must be positive".

Record ResourceRef : Type := {
  resource_id : pystr;
  source_kind : pystr;
  owner : pystr;
  physical_identity : option PhysicalIdentityRef;
  current_path : option pystr;
  disposition : option ResourceDisposition;
  canonical_resource_id : option pystr
}.

#[export] Instance ResourceDisposition_eq_dec : EqDecision ResourceDisposition.
Proof. solve_decision. Defined.
#[export] Instance RevisionState_eq_dec : EqDecision RevisionState.
Proof. solve_decision. Defined.
#[export] Instance EvidenceMethod_eq_dec : EqDecision EvidenceMethod.
Proof. solve_decision. Defined.
#[export] Instance PhysicalIdentityRef_eq_dec : EqDecision PhysicalIdentityRef.
Proof. solve_decision. Defined.
#[export] Instance ResourceRef_eq_dec : EqDecision ResourceRef.
Proof. solve_decision. Defined.

Definition validate_resource_ref (c : ResourceRef) : result KnowledgeError unit :=
  required_text "resource_id" (resource_id c);;
  required_text "source_kind" (source_kind c);;
  required_text "owner" (owner c);;
  optional_text "current_path" (current_path c);;
  optional_text "canonical_resource_id" (canonical_resource_id c);;
  (if bool_decide (disposition c = Some DUPLICATE)
   then _ ← required_text "canonical_resource_id" (default [] (canonical_resource_id c)); Ok tt
   else Ok tt);;
  value_error_if (bool_decide (canonical_resource_id c = Some (resource_id c)))
    "a resource cannot name itself as its canonical resource".

Record RevisionRef : Type := {
  rev_resource_id : pystr;
  revision_id : pystr;
  producer : pystr;
  processing_signature : pystr;
  rev_generation : option Z;
  state : RevisionState;
  observed_at_utc : option pystr
}.

#[export] Instance RevisionRef_eq_dec : EqDecision RevisionRef.
Proof. solve_decision. Defined.

(** A present number is at least [low]. *)
Definition below (low : Z) (n : option Z) : bool :=
  match n with Some z => z <? low | None => false end.

Definition validate_revision_ref (c : RevisionRef) : result KnowledgeError unit :=
  required_text "resource_id" (rev_resource_id c);;
  required_text "revision_id" (revision_id c);;
  required_text "producer" (producer c);;
  required_text "processing_signature" (processing_signature c);;
  optional_text "observed_at_utc" (observed_at_utc c);;
  value_error_if (below 0 (rev_generation c)) "revision generation cannot be negative".

(** ** Evidence *)

Record EvidenceRef : Type := {
  evidence_id : pystr;
  ev_resource_id : pystr;
  ev_revision_id : pystr;
  method : EvidenceMethod;
  page : option Z;
  start_line : option Z;
  end_line : option Z;
  sheet : option pystr;
  cell_range : option pystr;
  start_ms : option Z;
  end_ms : option Z;
  bounding_box : option (pyfloat * pyfloat * pyfloat * pyfloat);
  coordinate_space : option pystr;
  start_char : option Z;
  end_char : option Z;
  symbol : option pystr;
  section_kind : option pystr;
  section_id : option pystr;
  snippet : option pystr;
  extractor : option pystr;
  extractor_version : option pystr;
  ev_generation : option Z;
  identifiers : list (pystr * pystr)
}.

Definition MAX_KNOWLEDGE_SNIPPET_CHARS : Z := 4096.
Definition MAX_EVIDENCE_IDENTIFIERS : Z := 64.
Definition MAX_EVIDENCE_IDENTIFIER_COMPONENT_CHARS : Z := 512.
Definition MAX_EVIDENCE_SYMBOL_CHARS : Z := 1024.

Definition validate_evidence_optional_text (c : EvidenceRef) : result KnowledgeError unit :=
  optional_text "sheet" (sheet c);;
  optional_text "cell_range" (cell_range c);;
  optional_text "coordinate_space" (coordinate_space c);;
  optional_text "symbol" (symbol c);;
  optional_text "section_kind" (section_kind c);;
  optional_text "section_id" (section_id c);;
  optional_text "extractor" (extractor c);;
  optional_text "extractor_version" (extractor_version c);;
  Ok tt.

Definition validate_page_locator (c : EvidenceRef) : result KnowledgeError unit :=
  value_error_if (below 0 (page c)) "page cannot be negative".

Definition present {A} (o : option A) : bool := match o with Some _ => true | None => false end.

Definition validate_line_locator (c : EvidenceRef) : result KnowledgeError unit :=
  value_error_if (negb (Bool.eqb (present (start_line c)) (present (end_line c))))
    "line locator requires both start and end";;
  value_error_if
    match start_line c with
    | Some s => (s <? 1) || match end_line c with None => true | Some e => e <? s end
    | None => false
    end "line locator is invalid".

Definition validate_time_locator (c : EvidenceRef) : result KnowledgeError unit :=
  value_error_if (negb (Bool.eqb (present (start_ms c)) (present (end_ms c))))
    "time locator requires both start and end";;
  value_error_if
    match start_ms c with
    | Some s => (s <? 0) || match end_ms c with None => true | Some e => e <=? s end
    | None => false
    end "time locator is invalid".

Definition validate_character_locator (c : EvidenceRef) : result KnowledgeError unit :=
  value_error_if (negb (Bool.eqb (present (start_char c)) (present (end_char c))))
    "character locator requires both start and end";;
  value_error_if
    match start_char c with
    | Some s => (s <? 0) || match end_char c with None => true | Some e => e <=? s end
    | None => false
    end "character locator is invalid".

(** [a <= b] on floats *)
Definition fle (a b : pyfloat) : bool :=
  match SFcompare a b with Some Lt | Some Eq => true | _ => false end.

Definition validate_bounding_box (c : EvidenceRef) : result KnowledgeError unit :=
  match bounding_box c with
  | Some (left_, top, right_, bottom) =>
      value_error_if
        (negb (forallb is_finite [left_; top; right_; bottom]) ||
         (fle right_ left_ || fle bottom top)) "bounding box is invalid";;
      value_error_if (negb (present (coordinate_space c)))
        "bounding box requires a coordinate space"
  | None =>
      value_error_if (present (coordinate_space c)) "coordinate space requires a bounding box"
  end.

(** A present text has more than [limit] characters. *)
Definition longer_than (limit : Z) (s : option pystr) : bool :=
  match s with Some t => limit <? zlen t | None => false end.

Definition validate_evidence_lengths (c : EvidenceRef) : result KnowledgeError unit :=
  value_error_if (longer_than MAX_KNOWLEDGE_SNIPPET_CHARS (snippet c))
    "snippet cannot exceed 4096 characters";;
  value_error_if (longer_than MAX_EVIDENCE_SYMBOL_CHARS (symbol c))
    "symbol cannot exceed 1024 characters".

Definition validate_evidence_generation (c : EvidenceRef) : result KnowledgeError unit :=
  value_error_if (below 0 (ev_generation c)) "evidence generation cannot be negative".

Fixpoint validate_identifier_components (ids : list (pystr * pystr)) :
    result KnowledgeError unit :=
  match ids with
  | [] => Ok tt
  | (namespace, v) :: ids' =>
      required_text "identifier namespace" namespace;;
      required_text "identifier value" v;;
      value_error_if
        ((MAX_EVIDENCE_IDENTIFIER_COMPONENT_CHARS <? zlen namespace) ||
         (MAX_EVIDENCE_IDENTIFIER_COMPONENT_CHARS <? zlen v))
        "evidence identifier components cannot exceed 512 characters";;
      validate_identifier_components ids'
  end.

Definition validate_evidence_identifiers (c : EvidenceRef) : result KnowledgeError unit :=
  value_error_if (MAX_EVIDENCE_IDENTIFIERS <? zlen (identifiers c))
    "evidence cannot contain more than 64 identifiers";;
  value_error_if (negb (bool_decide (NoDup (identifiers c))))
    "evidence identifiers must be unique";;
  validate_identifier_components (identifiers c).

Definition validate_evidence_ref (c : EvidenceRef) : result KnowledgeError unit :=
  required_text "evidence_id" (evidence_id c);;
  required_text "resource_id" (ev_resource_id c);;
  required_text "revision_id" (ev_revision_id c);;
  validate_evidence_optional_text c;;
  validate_page_locator c;;
  validate_line_locator c;;
  validate_time_locator c;;
  validate_character_locator c;;
  validate_bounding_box c;;
  validate_evidence_lengths c;;
  validate_evidence_generation c;;
  validate_evidence_identifiers c.

(** ** Ranking signals *)

Record RankingSignal : Type := {
  source : pystr;
  score_kind : pystr;
  raw_score : pyfloat;
  source_rank : Z;
  model_signature : option pystr;
  sig_generation : option Z;
  contribution : option pyfloat;
  query_model_signature : option pystr;
  sig_evidence : option EvidenceRef;
  query_support : list (pystr * json)
}.

#[export] Instance RankingSignal_eta : Eta RankingSignal := λ s,
  {| source := source s; score_kind := score_kind s; raw_score := raw_score s;
     source_rank := source_rank s; model_signature := model_signature s;
     sig_generation := sig_generation s; contribution := contribution s;
     query_model_signature := query_model_signature s; sig_evidence := sig_evidence s;
     query_support := query_support s |}.

Definition not_finite (f : option pyfloat) : bool :=
  match f with Some x => negb (is_finite x) | None => false end.

Definition validate_ranking_signal (c : RankingSignal) : result KnowledgeError unit :=
  required_text "ranking source" (source c);;
  required_text "score_kind" (score_kind c);;
  optional_text "model_signature" (model_signature c);;
  optional_text "query_model_signature" (query_model_signature c);;
  value_error_if (negb (is_finite (raw_score c))) "ranking raw score must be finite";;
  value_error_if (source_rank c <? 1) "ranking source rank must be positive";;
  value_error_if (below 0 (sig_generation c)) "ranking generation cannot be negative";;
  value_error_if (not_finite (contribution c)) "ranking contribution must be finite";;
  match sig_evidence c with
  | Some e =>
      required_text "ranking evidence_id" (evidence_id e);;
      required_text "ranking revision_id" (ev_revision_id e);;
      Ok tt
  | None => Ok tt
  end;;
  serialized ← or_raise (dumps (JObject (query_support c)))
    (ValueError "ranking query support must be finite JSON");
  value_error_if (16384 <? zlen serialized) "ranking query support exceeds its JSON budget".

(** ** Hits, candidates and discoveries *)

Record KnowledgeHit : Type := {
  rank : Z;
  hit_resource : ResourceRef;
  hit_revision : RevisionRef;
  hit_evidence : EvidenceRef;
  signals : list RankingSignal;
  fused_score : pyfloat;
  hit_reasons : list pystr;
  hit_confidence : option pyfloat;
  hit_warnings : list pystr
}.

#[export] Instance KnowledgeHit_eta : Eta KnowledgeHit := λ h,
  {| rank := rank h; hit_resource := hit_resource h; hit_revision := hit_revision h;
     hit_evidence := hit_evidence h; signals := signals h; fused_score := fused_score h;
     hit_reasons := hit_reasons h; hit_confidence := hit_confidence h;
     hit_warnings := hit_warnings h |}.

(** An evidence is one of a given revision of a given resource. *)
Definition belongs_to (e : EvidenceRef) (r : ResourceRef) (v : RevisionRef) : bool :=
  bool_decide (ev_resource_id e = resource_id r) &&
  bool_decide (ev_revision_id e = revision_id v).

(** Outside [0.0 <= confidence <= 1.0]. *)
Definition invalid_confidence (f : option pyfloat) : bool :=
  match f with
  | Some x => negb (is_finite x) ||
              negb (fle (float_of_int 0) x && fle x (float_of_int 1))
  | None => false
  end.

Fixpoint each_required (name : string) (texts : list pystr) : result KnowledgeError unit :=
  match texts with
  | [] => Ok tt
  | t :: ts => required_text name t;; each_required name ts
  end.

Definition validate_knowledge_hit (c : KnowledgeHit) : result KnowledgeError unit :=
  value_error_if (rank c <? 1) "knowledge hit rank must be positive";;
  value_error_if (negb (is_finite (fused_score c))) "knowledge fused score must be finite";;
  value_error_if
    (negb (bool_decide (rev_resource_id (hit_revision c) = resource_id (hit_resource c))))
    "revision does not belong to hit resource";;
  value_error_if (negb (belongs_to (hit_evidence c) (hit_resource c) (hit_revision c)))
    "evidence does not belong to hit revision";;
  value_error_if (match signals c with [] => true | _ => false end)
    "knowledge hit requires at least one ranking signal";;
  value_error_if
    (existsb (λ s, match sig_evidence s with
                   | Some e => negb (belongs_to e (hit_resource c) (hit_revision c))
                   | None => false
                   end) (signals c))
    "ranking evidence does not belong to hit resource and revision";;
  value_error_if (match hit_reasons c with [] => true | _ => false end)
    "knowledge hit requires at least one retrieval reason";;
  each_required "retrieval reason" (hit_reasons c);;
  each_required "hit warning" (hit_warnings c);;
  value_error_if (invalid_confidence (hit_confidence c))
    "knowledge confidence must be between 0 and 1".

Record KnowledgeCandidate : Type := {
  resource : ResourceRef;
  revision : RevisionRef;
  evidence : EvidenceRef;
  signal : RankingSignal;
  reason : pystr;
  confidence : option pyfloat;
  warnings : list pystr
}.

Definition candidate_post_init (c : KnowledgeCandidate) : result KnowledgeError unit :=
  value_error_if (blank (reason c)) "candidate retrieval reason cannot be blank";;
  value_error_if (negb (bool_decide (rev_resource_id (revision c) = resource_id (resource c))))
    "candidate revision does not belong to its resource";;
  value_error_if (negb (belongs_to (evidence c) (resource c) (revision c)))
    "candidate evidence does not belong to its revision";;
  value_error_if (invalid_confidence (confidence c))
    "candidate confidence must be between 0 and 1".

Definition evidence_key (c : KnowledgeCandidate) : pystr * pystr * pystr :=
  (resource_id (resource c), revision_id (revision c), evidence_id (evidence c)).

Record ResourceDiscoverySignal : Type := {
  disc_resource : ResourceRef;
  disc_revision : RevisionRef;
  disc_signal : RankingSignal;
  disc_reason : pystr;
  fusion_weight : pyfloat;
  disc_warnings : list pystr
}.

Definition discovery_post_init (d : ResourceDiscoverySignal) : result KnowledgeError unit :=
  value_error_if (blank (disc_reason d)) "resource discovery reason cannot be blank";;
  value_error_if
    (negb (bool_decide (rev_resource_id (disc_revision d) = resource_id (disc_resource d))))
    "resource discovery revision does not belong to resource";;
  value_error_if
    (negb (is_finite (fusion_weight d)) ||
     negb (negb (fle (fusion_weight d) (float_of_int 0)) &&
           fle (fusion_weight d) (float_of_int 1)))
    "resource discovery fusion_weight must be in (0, 1]".

Definition resource_revision_key (d : ResourceDiscoverySignal) : pystr * pystr :=
  (resource_id (disc_resource d), revision_id (disc_revision d)).

End contracts.

#[global] Arguments dumps : simpl never.
#[global] Arguments required_text : simpl never.
#[global] Arguments optional_text : simpl never.
#[global] Arguments validate_ranking_signal : simpl never.
#[global] Arguments validate_knowledge_hit : simpl never.
