(* ===== verification/RankFusion.v ===== *)
(** * Reciprocal rank fusion of evidence

    Models knowledge/knowledge_search_fusion.py and the wrapper
    [fuse_evidence_rankings] of knowledge/knowledge_search.py that fixes its
    constant and its overlap test.  Several rankings of evidence candidates are
    merged: candidates of one evidence are aggregated ([collect_aggregates]),
    resource-level discoveries boost one aggregate each
    ([apply_discovery_signals]), overlapping evidence of one revision is
    clustered into one hit ([cluster_evidence]), and a bounded diverse prefix is
    returned ([apply_diversity]).

    The rankings are a list of named sequences with distinct names, a mapping in
    some iteration order.  The cancellation callback is called at most once at
    each [site] of a run, so its answers are a function of the site.
    [casefold], the Unicode case folding of a text, and [float_repr] are
    parameters. *)

From S2P Require Import Prelude PyOrder KnowledgeContracts.

Definition EvidenceKey : Type := pystr * pystr * pystr.
Definition EvidenceAliasKey : Type := pystr * pystr * pystr * option Z * pystr.

Record EvidenceAggregate : Type := {
  candidate : KnowledgeCandidate;
  contributions : list pyfloat;
  agg_signals : list RankingSignal;
  reasons : gset pystr;
  agg_warnings : gset pystr
}.

#[export] Instance EvidenceAggregate_eta : Eta EvidenceAggregate := λ a,
  {| candidate := candidate a; contributions := contributions a;
     agg_signals := agg_signals a; reasons := reasons a; agg_warnings := agg_warnings a |}.

Definition Aggregates : Type := list (EvidenceKey * EvidenceAggregate).

Definition cmp_key : EvidenceKey → EvidenceKey → comparison := lex (lex cmp_str cmp_str) cmp_str.

(** ** Options and cancellation *)

Definition validate_options (limit max_per_resource min_section_distance : Z) :
    result KnowledgeError unit :=
  value_error_if (negb ((1 <=? limit) && (limit <=? 1000)))
    "Knowledge fusion limit must be between 1 and 1000";;
  value_error_if (negb ((1 <=? max_per_resource) && (max_per_resource <=? 100)))
    "max_per_resource must be between 1 and 100";;
  value_error_if (negb ((0 <=? min_section_distance) && (min_section_distance <=? 1000000)))
    "min_section_distance is outside its supported bound".

(** Where a run may call the cancellation callback. *)
Inductive site : Type :=
| AtRanking (name : pystr)
| AtCandidate (name : pystr) (position : Z)
| AtDiscovery (position : Z)
| AtCluster (position : Z).

(** The callback, if there is one: at which sites it raises. *)
Definition callback : Type := option (site → bool).

Definition checkpoint (cancellation_check : callback) (s : site) : result KnowledgeError unit :=
  match cancellation_check with
  | Some raises => raise_if (raises s) CancellationRaised
  | None => Ok tt
  end.

Definition periodic_checkpoint (cancellation_check : callback) (position : Z) (s : site) :
    result KnowledgeError unit :=
  if position mod 128 =? 0 then checkpoint cancellation_check s else Ok tt.

(** ** Candidates *)

Definition candidate_is_visible (c : KnowledgeCandidate) (include_history : bool) : bool :=
  if bool_decide (disposition (resource c) = Some DUPLICATE) then false
  else if include_history then true
  else negb (bool_decide (disposition (resource c) = Some SUPERSEDED) ||
             (bool_decide (state (revision c) = HISTORICAL) ||
              bool_decide (state (revision c) = SUPERSEDED_REVISION))).

(** [s.split()]: [word] holds the characters of the word being read. *)
Fixpoint split_words (s word : pystr) : list pystr :=
  match s with
  | [] => if bool_decide (word = []) then [] else [reverse word]
  | c :: s' =>
      if is_space c
      then (if bool_decide (word = []) then [] else [reverse word]) ++ split_words s' []
      else split_words s' (c :: word)
  end.

(** [str(value)] of an optional text or number *)
Definition opt_str (v : option pystr) : pystr := default (py "None") v.
Definition opt_int_str (v : option Z) : pystr := default (py "None") (int_text <$> v).

(** The mapping [query_support.get("structured_support")], or the empty one. *)
Definition structured_support (support : list (pystr * json)) : list (pystr * json) :=
  match jget "structured_support" support with Some (JObject fs) => fs | _ => [] end.

(** [support.get(name) is True] *)
Definition is_true (name : string) (support : list (pystr * json)) : bool :=
  match jget name support with Some (JBool true) => true | _ => false end.

Definition coherent (s : RankingSignal) : bool :=
  is_true "coherent" (structured_support (query_support s)).

Definition hard_mismatch (s : RankingSignal) : bool :=
  match jget "status" (structured_support (query_support s)) with
  | Some (JStr v) => bool_decide (v = py "mismatch")
  | _ => false
  end || is_true "hard_mismatch" (structured_support (query_support s)).

(** The fields of a witness that must agree with the scored evidence. *)
Definition witness_fields (e : EvidenceRef) :
    (pystr * pystr * pystr * EvidenceMethod * option pystr * option pystr * option pystr) *
    list (option Z) :=
  ((evidence_id e, ev_resource_id e, ev_revision_id e, method e, section_kind e, section_id e,
    snippet e),
   [page e; start_char e; end_char e; start_line e; end_line e; start_ms e; end_ms e]).

(** [float(z)] *)
Definition to_float (z : Z) : result KnowledgeError pyfloat :=
  let f := float_of_int z in if is_finite f then Ok f else Err OverflowError.

(** [a / b] *)
Definition true_div (a b : pyfloat) : result KnowledgeError pyfloat :=
  match b with S754_zero _ => Err ZeroDivisionError | _ => Ok (fdiv a b) end.

(** [math.fsum(values)] *)
Definition math_fsum (values : list pyfloat) : result KnowledgeError pyfloat :=
  match fsum values with
  | Ok f => Ok f
  | Err intermediate_overflow => Err OverflowError
  | Err opposite_infinities => Err (ValueError "-inf + inf in fsum")
  end.

(** [math.fsum(sorted(aggregate.contributions))] *)
Definition score (a : EvidenceAggregate) : result KnowledgeError pyfloat :=
  math_fsum (sort_by fcmp id (contributions a)).

(** [float(value)] where the value is a number; a [bool] is one. *)
Definition number (v : option json) : result KnowledgeError (option pyfloat) :=
  match v with
  | Some (JBool b) => Ok (Some (float_of_int (Z.b2z b)))
  | Some (JInt z) => f ← to_float z; Ok (Some f)
  | Some (JFloat f) => Ok (Some f)
  | _ => Ok None
  end.

(** [int(value)] where the value is an integer. *)
Definition integer (v : option json) : option Z :=
  match v with
  | Some (JBool b) => Some (Z.b2z b)
  | Some (JInt z) => Some z
  | _ => None
  end.

Definition float_zero : pyfloat := S754_zero false.

(** [sorted(s)] of a set of texts *)
Definition sorted_texts (s : gset pystr) : list pystr := sort_by cmp_str id (elements s).

Section fusion.
Variable casefold : pystr → pystr.
Variable float_repr : pyfloat → pystr.
Variable cancellation_check : callback.

Definition canonical_evidence_key (c : KnowledgeCandidate)
    (snippet_aliases : gmap EvidenceAliasKey EvidenceKey) :
    EvidenceKey * gmap EvidenceAliasKey EvidenceKey :=
  let e := evidence c in
  let key := evidence_key c in
  match snippet e, section_kind e, section_id e with
  | Some (ch :: text), Some kind, Some sid =>
      let normalized_snippet :=
        casefold (intersperse (py " ") (split_words (ch :: text) [])) in
      if bool_decide (normalized_snippet = []) then (key, snippet_aliases) else
      let locator := intersperse (py "|")
        [kind; sid; opt_int_str (page e); opt_int_str (start_line e);
         opt_int_str (end_line e); opt_int_str (start_ms e); opt_int_str (end_ms e);
         opt_int_str (start_char e); opt_int_str (end_char e)] in
      let alias_key : EvidenceAliasKey :=
        (resource_id (resource c), revision_id (revision c),
         processing_signature (revision c), rev_generation (revision c),
         locator ++ py "|" ++ normalized_snippet) in
      match snippet_aliases !! alias_key with
      | Some known => (known, snippet_aliases)
      | None => (key, <[alias_key := key]> snippet_aliases)
      end
  | _, _, _ => (key, snippet_aliases)
  end.

(** ** Aggregation *)

(** [replace(signal, ...)]: a copy is validated again. *)
Definition copied_signal (s : RankingSignal) : result KnowledgeError RankingSignal :=
  validate_ranking_signal float_repr s;; Ok s.

(** One more vote for an aggregate. *)
Definition add_vote (a : EvidenceAggregate) (share : pyfloat) (s : RankingSignal)
    (why : pystr) (warns : list pystr) : EvidenceAggregate :=
  {| candidate := candidate a; contributions := contributions a ++ [share];
     agg_signals := agg_signals a ++ [s]; reasons := {[why]} ∪ reasons a;
     agg_warnings := list_to_set warns ∪ agg_warnings a |}.

Definition new_aggregate (c : KnowledgeCandidate) : EvidenceAggregate :=
  {| candidate := c; contributions := []; agg_signals := []; reasons := ∅;
     agg_warnings := ∅ |}.

Definition record_candidate (aggregates : Aggregates) (key : EvidenceKey)
    (c : KnowledgeCandidate) (ranking_name : pystr) (rrf_k : pyfloat) :
    result KnowledgeError Aggregates :=
  value_error_if
    match sig_evidence (signal c) with
    | Some w => negb (bool_decide (witness_fields w = witness_fields (evidence c)))
    | None => false
    end "one ranking signal claims a witness different from its scored evidence";;
  aggregate ←
    match dget key aggregates with
    | None => Ok (new_aggregate c)
    | Some a =>
        value_error_if
          (negb (bool_decide (resource (candidate a) = resource c)) ||
           negb (bool_decide (revision (candidate a) = revision c)))
          "one evidence identity resolved to incompatible records";;
        Ok a
    end;
  rank_float ← to_float (source_rank (signal c));
  share ← true_div (float_of_int 1) (fadd rrf_k rank_float);
  s ← copied_signal
        (upd source (λ _, ranking_name)
         (upd contribution (λ _, Some share)
          (upd sig_evidence
             (λ _, Some (default (evidence c) (sig_evidence (signal c)))) (signal c))));
  Ok (dset key (add_vote aggregate share s (reason c) (warnings c)) aggregates).

(** What the scan of the rankings accumulates. *)
Record collection : Type := {
  snippet_aliases : gmap EvidenceAliasKey EvidenceKey;
  pending : list (pystr * KnowledgeCandidate * EvidenceKey);
  structured_coherent : bool
}.

(** The loop over one ranking, from its [position]-th candidate. *)
Fixpoint scan_ranking (include_history : bool) (ranking_name : pystr)
    (candidates : list KnowledgeCandidate) (position : Z) (seen : gset EvidenceKey)
    (acc : collection) : result KnowledgeError collection :=
  match candidates with
  | [] => Ok acc
  | c :: rest =>
      periodic_checkpoint cancellation_check position (AtCandidate ranking_name position);;
      if negb (candidate_is_visible c include_history)
      then scan_ranking include_history ranking_name rest (position + 1) seen acc else
      let '(key, aliases) := canonical_evidence_key c (snippet_aliases acc) in
      if bool_decide (key ∈ seen)
      then scan_ranking include_history ranking_name rest (position + 1) seen
             {| snippet_aliases := aliases; pending := pending acc;
                structured_coherent := structured_coherent acc |}
      else scan_ranking include_history ranking_name rest (position + 1) ({[key]} ∪ seen)
             {| snippet_aliases := aliases;
                pending := pending acc ++ [(ranking_name, c, key)];
                structured_coherent := coherent (signal c) || structured_coherent acc |}
  end.

(** The loop over the rankings, in the order of their names. *)
Fixpoint scan_rankings (include_history : bool)
    (rankings : list (pystr * list KnowledgeCandidate)) (acc : collection) :
    result KnowledgeError collection :=
  match rankings with
  | [] => Ok acc
  | (ranking_name, candidates) :: rest =>
      checkpoint cancellation_check (AtRanking ranking_name);;
      value_error_if (blank ranking_name) "Knowledge ranking names cannot be blank";;
      acc' ← scan_ranking include_history ranking_name candidates 1 ∅ acc;
      scan_rankings include_history rest acc'
  end.

(** A candidate marked as a different structure is dropped once some candidate
    is a coherent witness. *)
Definition hard_negative (any_coherent : bool) (c : KnowledgeCandidate) : bool :=
  any_coherent && hard_mismatch (signal c).

(** The loop over the pending candidates. *)
Fixpoint record_pending (any_coherent : bool)
    (pending : list (pystr * KnowledgeCandidate * EvidenceKey)) (rrf_k : pyfloat)
    (aggregates : Aggregates) : result KnowledgeError Aggregates :=
  match pending with
  | [] => Ok aggregates
  | (ranking_name, c, key) :: rest =>
      if hard_negative any_coherent c
      then record_pending any_coherent rest rrf_k aggregates
      else
        aggregates' ← record_candidate aggregates key c ranking_name rrf_k;
        record_pending any_coherent rest rrf_k aggregates'
  end.

Definition collect_aggregates (rankings : list (pystr * list KnowledgeCandidate))
    (include_history : bool) (rrf_k : pyfloat) : result KnowledgeError Aggregates :=
  acc ← scan_rankings include_history (sort_by cmp_str fst rankings)
          {| snippet_aliases := ∅; pending := []; structured_coherent := false |};
  record_pending (structured_coherent acc) (pending acc) rrf_k [].

(** ** Resource discoveries *)

Definition discovery_order (d : ResourceDiscoverySignal) : pystr * Z * pystr * pystr :=
  (source (disc_signal d), source_rank (disc_signal d), resource_id (disc_resource d),
   revision_id (disc_revision d)).

(** [by_resource_revision.get(...)]: the keys of the aggregates of a revision. *)
Definition eligible_keys (aggregates : Aggregates) (rr : pystr * pystr) : list EvidenceKey :=
  (filter (λ ka : EvidenceKey * EvidenceAggregate,
             (resource_id (resource (candidate ka.2)),
              revision_id (revision (candidate ka.2))) = rr) aggregates).*1.

(** The key of the [min]: [aggregates[key]] of a key of the dictionary. *)
Definition best_order (aggregates : Aggregates) (key : EvidenceKey) :
    result KnowledgeError (pyfloat * EvidenceKey) :=
  a ← or_raise (dget key aggregates) IndexError;
  s ← score a;
  Ok (SFopp s, key).

Definition boost (aggregates : Aggregates) (d : ResourceDiscoverySignal) (rrf_k : pyfloat)
    (key : EvidenceKey) (eligible : list EvidenceKey) : result KnowledgeError Aggregates :=
  orders ← map_result (best_order aggregates) (key :: eligible);
  let best_key :=
    match orders with
    | o :: os => (min_by (lex fcmp cmp_key) id o os).2
    | [] => key
    end in
  aggregate ← or_raise (dget best_key aggregates) IndexError;
  rank_float ← to_float (source_rank (disc_signal d));
  share ← true_div (fusion_weight d) (fadd rrf_k rank_float);
  s ← copied_signal (upd contribution (λ _, Some share) (disc_signal d));
  Ok (dset best_key (add_vote aggregate share s (disc_reason d) (disc_warnings d)) aggregates).

(** The loop over the discoveries; [eligible] is computed before it. *)
Fixpoint apply_discoveries (eligible : pystr * pystr → list EvidenceKey)
    (discoveries : list ResourceDiscoverySignal) (position : Z)
    (seen : gset (pystr * pystr * pystr)) (rrf_k : pyfloat) (aggregates : Aggregates) :
    result KnowledgeError Aggregates :=
  match discoveries with
  | [] => Ok aggregates
  | d :: rest =>
      periodic_checkpoint cancellation_check position (AtDiscovery position);;
      let rr := resource_revision_key d in
      let identity := (source (disc_signal d), rr.1, rr.2) in
      if bool_decide (identity ∈ seen)
      then apply_discoveries eligible rest (position + 1) seen rrf_k aggregates
      else match eligible rr with
           | [] => apply_discoveries eligible rest (position + 1) ({[identity]} ∪ seen)
                     rrf_k aggregates
           | key :: keys =>
               aggregates' ← boost aggregates d rrf_k key keys;
               apply_discoveries eligible rest (position + 1) ({[identity]} ∪ seen)
                 rrf_k aggregates'
           end
  end.

Definition apply_discovery_signals (aggregates : Aggregates)
    (discovery_signals : list ResourceDiscoverySignal) (rrf_k : pyfloat) :
    result KnowledgeError Aggregates :=
  let ordered :=
    sort_by (lex (lex (lex cmp_str Z.compare) cmp_str) cmp_str) discovery_order
      discovery_signals in
  apply_discoveries (eligible_keys aggregates) ordered 1 ∅ rrf_k aggregates.

(** ** Clustering *)

Definition overlaps_or_too_close (selected cand : EvidenceRef) (minimum_distance : Z) :
    result KnowledgeError bool :=
  if negb (bool_decide (ev_resource_id selected = ev_resource_id cand)) ||
     negb (bool_decide (ev_revision_id selected = ev_revision_id cand)) ||
     negb (bool_decide (section_kind selected = section_kind cand)) ||
     negb (bool_decide (section_id selected = section_id cand))
  then Ok false else
  match start_char selected, start_char cand with
  | Some s1, Some s2 =>
      e1 ← or_raise (end_char selected) AssertionError;
      e2 ← or_raise (end_char cand) AssertionError;
      if (s2 <? e1) && (s1 <? e2) then Ok true else
      let gap := Z.max s2 s1 - Z.min e2 e1 in
      Ok (gap <? minimum_distance)
  | _, _ =>
      let fulltext e := bool_decide (section_kind e = Some (py "document")) &&
                        bool_decide (section_id e = Some (py "fulltext")) in
      if (fulltext selected || fulltext cand) &&
         (present (start_char selected) || present (start_char cand))
      then Ok false else Ok true
  end.

Definition structured_tier (is_coherent is_mismatch : bool) : Z :=
  if is_coherent then 0 else if is_mismatch then 2 else 1.

Definition SPAN_DEFAULT : Z := 1000000.

(** The sort key of an aggregate in [ordered_keys]. *)
Definition aggregate_order (ka : EvidenceKey * EvidenceAggregate) :
    result KnowledgeError (pyfloat * Z * pyfloat * Z * Z * EvidenceKey) :=
  let support := query_support (signal (candidate ka.2)) in
  let structured := structured_support support in
  s ← score ka.2;
  coverage ← number (jget "term_coverage" support);
  Ok (SFopp s,
      structured_tier (is_true "coherent" structured) (is_true "hard_mismatch" structured),
      default float_zero (SFopp <$> coverage),
      - Z.b2z (is_true "phrase_match" support),
      default SPAN_DEFAULT (integer (jget "minimum_span_terms" support)),
      ka.1).

Definition cmp_aggregate_order :
    pyfloat * Z * pyfloat * Z * Z * EvidenceKey → _ → comparison :=
  lex (lex (lex (lex (lex fcmp Z.compare) fcmp) Z.compare) Z.compare) cmp_key.

(** The keys in order, each with its aggregate. *)
Definition ordered_keys (aggregates : Aggregates) : result KnowledgeError Aggregates :=
  sorted cmp_aggregate_order aggregate_order aggregates.

Variable overlap_check : EvidenceRef → EvidenceRef → Z → result KnowledgeError bool.

Fixpoint find_overlap_index (prior : list nat) (selected : list KnowledgeHit)
    (c : KnowledgeCandidate) (min_section_distance : Z) :
    result KnowledgeError (option nat) :=
  match prior with
  | [] => Ok None
  | index :: rest =>
      h ← or_raise (selected !! index) IndexError;
      if negb (bool_decide (revision_id (hit_revision h) = revision_id (revision c)))
      then find_overlap_index rest selected c min_section_distance else
      overlap ← overlap_check (hit_evidence h) (evidence c) min_section_distance;
      if (overlap : bool) then Ok (Some index)
      else find_overlap_index rest selected c min_section_distance
  end.

(** [replace(hit, ...)] and [KnowledgeHit(...)]: validated. *)
Definition built_hit (h : KnowledgeHit) : result KnowledgeError KnowledgeHit :=
  validate_knowledge_hit h;; Ok h.

Definition signal_order (s : RankingSignal) : pystr * Z := (source s, source_rank s).
Definition sort_signals : list RankingSignal → list RankingSignal :=
  sort_by (lex cmp_str Z.compare) signal_order.

(** [{signal.source: signal for signal in signals}] *)
Definition by_source (ss : list RankingSignal) : list (pystr * RankingSignal) :=
  foldl (λ d s, dset (source s) s d) [] ss.

(** The best ranked signal of each source. *)
Definition keep_best (best : list (pystr * RankingSignal)) (s : RankingSignal) :
    list (pystr * RankingSignal) :=
  match dget (source s) best with
  | Some current => if source_rank s <? source_rank current then dset (source s) s best else best
  | None => dset (source s) s best
  end.

Definition signal_share (s : RankingSignal) : pyfloat := default float_zero (contribution s).

Definition merged_overlap_hit (existing_hit : KnowledgeHit) (a : EvidenceAggregate) :
    result KnowledgeError KnowledgeHit :=
  let best_signals := foldl keep_best (by_source (signals existing_hit)) (agg_signals a) in
  let merged_signals := sort_signals best_signals.*2 in
  fused ← math_fsum (signal_share <$> merged_signals);
  built_hit
    {| rank := rank existing_hit;
       hit_resource := hit_resource existing_hit;
       hit_revision := hit_revision existing_hit;
       hit_evidence := hit_evidence existing_hit;
       signals := merged_signals;
       fused_score := fused;
       hit_reasons := sorted_texts (list_to_set (hit_reasons existing_hit) ∪ reasons a);
       hit_confidence := hit_confidence existing_hit;
       hit_warnings :=
         sorted_texts (list_to_set (hit_warnings existing_hit) ∪ agg_warnings a ∪
                       {[py "overlapping_evidence_merged"]}) |}.

Definition new_hit (a : EvidenceAggregate) (rank_ : Z) : result KnowledgeError KnowledgeHit :=
  let c := candidate a in
  fused ← score a;
  built_hit
    {| rank := rank_;
       hit_resource := resource c;
       hit_revision := revision c;
       hit_evidence := evidence c;
       signals := sort_signals (agg_signals a);
       fused_score := fused;
       hit_reasons := sorted_texts (reasons a);
       hit_confidence := confidence c;
       hit_warnings := sorted_texts (agg_warnings a) |}.

(** The loop over the ordered aggregates. *)
Fixpoint cluster_loop (ordered : Aggregates) (position : Z) (min_section_distance : Z)
    (selected : list KnowledgeHit) (selected_by_resource : gmap pystr (list nat)) :
    result KnowledgeError (list KnowledgeHit) :=
  match ordered with
  | [] => Ok selected
  | (_, aggregate) :: rest =>
      periodic_checkpoint cancellation_check position (AtCluster position);;
      let c := candidate aggregate in
      let rid := resource_id (resource c) in
      let prior := default [] (selected_by_resource !! rid) in
      overlap_index ← find_overlap_index prior selected c min_section_distance;
      match overlap_index with
      | Some index =>
          existing ← or_raise (selected !! index) IndexError;
          merged ← merged_overlap_hit existing aggregate;
          cluster_loop rest (position + 1) min_section_distance (<[index := merged]> selected)
            (<[rid := prior]> selected_by_resource)
      | None =>
          hit ← new_hit aggregate (zlen selected + 1);
          cluster_loop rest (position + 1) min_section_distance (selected ++ [hit])
            (<[rid := prior ++ [length selected]]> selected_by_resource)
      end
  end.

Definition cluster_evidence (aggregates : Aggregates) (min_section_distance : Z) :
    result KnowledgeError (list KnowledgeHit) :=
  ordered ← ordered_keys aggregates;
  cluster_loop ordered 1 min_section_distance [] ∅.

(** ** Diversity *)

Definition scoped_counterevidence (h : KnowledgeHit) : bool :=
  let witnesses := filter (λ s, is_Some (sig_evidence s)) (signals h) in
  negb (bool_decide (length witnesses = 0%nat)) &&
  forallb (λ s, match jget "role_counterevidence" (query_support s) with
                | Some v => json_truthy v
                | None => false
                end) witnesses.

(** The numbers among some values. *)
Definition numbers (vs : list (option json)) : result KnowledgeError (list pyfloat) :=
  fs ← map_result number vs; Ok (omap (M:=list) id fs).

Definition hit_support_order (h : KnowledgeHit) : result KnowledgeError (Z * pyfloat * Z * Z) :=
  let signal_support := query_support <$> signals h in
  let structured_values := structured_support <$> signal_support in
  coverages ← numbers (jget "term_coverage" <$> signal_support);
  let coverage := match coverages with [] => float_zero | f :: fs => max_by fcmp id f fs end in
  let spans := omap (λ s, integer (jget "minimum_span_terms" s)) signal_support in
  Ok (structured_tier (existsb (is_true "coherent") structured_values)
        (existsb (is_true "hard_mismatch") structured_values),
      SFopp coverage,
      - Z.b2z (existsb (is_true "phrase_match") signal_support),
      match spans with [] => SPAN_DEFAULT | z :: zs => foldl Z.min z zs end).

(** The sort key of a hit. *)
Definition hit_order (h : KnowledgeHit) :
    result KnowledgeError (bool * pyfloat * (Z * pyfloat * Z * Z) * pystr * pystr * pystr) :=
  support ← hit_support_order h;
  Ok (scoped_counterevidence h, SFopp (fused_score h), support,
      resource_id (hit_resource h), revision_id (hit_revision h),
      evidence_id (hit_evidence h)).

Definition cmp_hit_order :
    bool * pyfloat * (Z * pyfloat * Z * Z) * pystr * pystr * pystr → _ → comparison :=
  lex (lex (lex (lex (lex cmp_bool fcmp)
    (lex (lex (lex Z.compare fcmp) Z.compare) Z.compare)) cmp_str) cmp_str) cmp_str.

(** The loop over the clustered hits. *)
Fixpoint diversify (clustered : list KnowledgeHit) (limit max_per_resource : Z)
    (diverse : list KnowledgeHit) (accepted_per_resource : gmap pystr Z) (omitted : Z) :
    result KnowledgeError (list KnowledgeHit * Z) :=
  match clustered with
  | [] => Ok (diverse, omitted)
  | hit :: rest =>
      let rid := resource_id (hit_resource hit) in
      let accepted := default 0 (accepted_per_resource !! rid) in
      if max_per_resource <=? accepted
      then diversify rest limit max_per_resource diverse accepted_per_resource (omitted + 1)
      else if limit <=? zlen diverse
      then diversify rest limit max_per_resource diverse accepted_per_resource (omitted + 1)
      else
        ranked ← built_hit (upd rank (λ _, zlen diverse + 1) hit);
        diversify rest limit max_per_resource (diverse ++ [ranked])
          (<[rid := accepted + 1]> accepted_per_resource) omitted
  end.

Definition apply_diversity (selected : list KnowledgeHit) (limit max_per_resource : Z) :
    result KnowledgeError (list KnowledgeHit * Z) :=
  clustered ← sorted cmp_hit_order hit_order selected;
  diversify clustered limit max_per_resource [] ∅ 0.

(** ** The fusion *)

Definition fuse_evidence_rankings (rankings : list (pystr * list KnowledgeCandidate))
    (discovery_signals : list ResourceDiscoverySignal)
    (limit max_per_resource min_section_distance : Z) (include_history : bool)
    (rrf_k : pyfloat) : result KnowledgeError (list KnowledgeHit * Z) :=
  validate_options limit max_per_resource min_section_distance;;
  aggregates ← collect_aggregates rankings include_history rrf_k;
  boosted ← apply_discovery_signals aggregates discovery_signals rrf_k;
  selected ← cluster_evidence boosted min_section_distance;
  apply_diversity selected limit max_per_resource.
End fusion.

Definition RRF_K : pyfloat := float_of_int 60.

(** The fusion as a search runs it. *)
Definition search_fusion (casefold : pystr → pystr) (float_repr : pyfloat → pystr)
    (cancellation_check : callback) (rankings : list (pystr * list KnowledgeCandidate))
    (discovery_signals : list ResourceDiscoverySignal)
    (limit max_per_resource min_section_distance : Z) (include_history : bool) :
    result KnowledgeError (list KnowledgeHit * Z) :=
  fuse_evidence_rankings casefold float_repr cancellation_check overlaps_or_too_close
    rankings discovery_signals limit max_per_resource min_section_distance include_history
    RRF_K.
