(* ===== verification/FusionLaws.v ===== *)
(** * Laws of the stages of the rank fusion

    What each stage of [RankFusion] keeps: the votes of an aggregate come from
    distinct rankings or discoveries ([aggregates_ok]), the hits of a clustering
    never overlap and carry the sum of their votes ([cluster_loop_spec]), the
    diverse prefix is bounded and greedy ([diversify_spec]). *)

From S2P Require Import Prelude PyOrder KnowledgeContracts RankFusion.

#[local] Arguments Z.modulo : simpl never.

Lemma cons_subseteq {A} (x : A) l l' : x :: l ⊆ l' → x ∈ l' ∧ l ⊆ l'.
Proof.
  intros H. split; [apply H, list_elem_of_here|]. intros y Hy. by apply H, list_elem_of_further.
Qed.

(** ** Validation of copies *)

Lemma built_hit_ok h h' : built_hit h = Ok h' → h' = h ∧ validate_knowledge_hit h = Ok tt.
Proof. unfold built_hit. intros H. inv_ok. done. Qed.

Lemma valid_hit_evidence h :
  validate_knowledge_hit h = Ok tt → belongs_to (hit_evidence h) (hit_resource h) (hit_revision h) = true.
Proof.
  unfold validate_knowledge_hit, value_error_if. intros H. inv_ok. bool_prop. done.
Qed.

Lemma belongs_to_spec e r v :
  belongs_to e r v = true ↔ ev_resource_id e = resource_id r ∧ ev_revision_id e = revision_id v.
Proof. unfold belongs_to. by rewrite andb_true_iff, !bool_decide_eq_true. Qed.

Lemma copied_signal_ok float_repr s s' :
  copied_signal float_repr s = Ok s' →
  s' = s ∧ not_finite (contribution s) = false.
Proof.
  unfold copied_signal. intros H. inv_ok. split; [done|].
  match goal with H : validate_ranking_signal _ _ = Ok _ |- _ => revert H end.
  unfold validate_ranking_signal, value_error_if. intros H. by inv_ok.
Qed.

(** ** Diversity *)

Definition same_resource (rid : pystr) (h : KnowledgeHit) : bool :=
  bool_decide (resource_id (hit_resource h) = rid).

(** How many hits of a resource a list holds. *)
Definition hits_of (rid : pystr) (hs : list KnowledgeHit) : Z :=
  sum_with (λ h, Z.b2z (same_resource rid h)) hs.

(** A hit as it was clustered, without its rank. *)
Definition unranked (h : KnowledgeHit) : KnowledgeHit := upd rank (λ _, 0) h.

Lemma hits_of_app rid hs1 hs2 : hits_of rid (hs1 ++ hs2) = hits_of rid hs1 + hits_of rid hs2.
Proof. apply sum_with_app. Qed.

Lemma hits_of_nonneg rid hs : 0 <= hits_of rid hs.
Proof. apply sum_with_nonneg. intros h _. destruct (same_resource rid h); done. Qed.

(** Accepting one hit counts it for its resource only. *)
Lemma hits_of_snoc rid hs h n :
  hits_of rid (hs ++ [upd rank (λ _, n) h]) =
  hits_of rid hs + Z.b2z (bool_decide (resource_id (hit_resource h) = rid)).
Proof. rewrite hits_of_app. unfold hits_of at 2; cbn. unfold same_resource; cbn. lia. Qed.

Section diversify.
Variables limit max_per_resource : Z.

(** What the loop has accepted when it stands before [rest]. *)
Record diversify_inv (diverse : list KnowledgeHit) (accepted : gmap pystr Z) : Prop := {
  accepted_counts rid : default 0 (accepted !! rid) = hits_of rid diverse;
  accepted_bounded rid : hits_of rid diverse <= Z.max 0 max_per_resource;
  diverse_bounded : zlen diverse <= Z.max 0 limit;
  diverse_ranked i h : diverse !! i = Some h → rank h = Z.of_nat i + 1
}.

Lemma diversify_inv_snoc diverse accepted hit :
  let rid := resource_id (hit_resource hit) in
  diversify_inv diverse accepted →
  default 0 (accepted !! rid) < max_per_resource → zlen diverse < limit →
  diversify_inv (diverse ++ [upd rank (λ _, zlen diverse + 1) hit])
    (<[rid := default 0 (accepted !! rid) + 1]> accepted).
Proof.
  intros rid [Hc Hb Hl Hr] Hcap Hlim. split.
  - intros rid'. rewrite hits_of_snoc. destruct (decide (rid' = rid)) as [->|Hne].
    + rewrite lookup_insert_eq, Hc. rewrite bool_decide_eq_true_2 by done. done.
    + rewrite lookup_insert_ne by done. rewrite Hc, bool_decide_eq_false_2 by done. cbn; lia.
  - intros rid'. rewrite hits_of_snoc. specialize (Hb rid').
    case_bool_decide as E; cbn; [|lia]. rewrite Hc in Hcap. fold rid in E. subst rid'. lia.
  - rewrite length_app; cbn. lia.
  - intros i h. intros [H|[Hi H]]%lookup_app_Some; [by apply Hr|].
    destruct (i - length diverse)%nat as [|k] eqn:E; [|done]. injection H as <-. cbn. lia.
Qed.

(** A hit that is not returned: its resource is full, or the limit was reached
    by hits that come before it. *)
Definition turned_away (clustered hits tail : list KnowledgeHit) (h : KnowledgeHit) : Prop :=
  max_per_resource <= hits_of (resource_id (hit_resource h)) hits ∨
  limit <= zlen hits ∧
  ∃ before after, clustered = before ++ h :: after ∧
    (unranked <$> tail) ⊆ (unranked <$> before).

Lemma turned_away_skip hit rest hits tail h :
  turned_away rest hits tail h → turned_away (hit :: rest) hits tail h.
Proof.
  intros [?|(Hl&b&a&->&Hsub)]; [by left|right]. split; [done|]. exists (hit :: b), a.
  split; [done|]. csimpl. intros x Hx. by apply list_elem_of_further, Hsub.
Qed.

Lemma turned_away_accept hit n rest hits tail h :
  turned_away rest hits tail h →
  turned_away (hit :: rest) hits (upd rank (λ _, n) hit :: tail) h.
Proof.
  intros [?|(Hl&b&a&->&Hsub)]; [by left|right]. split; [done|]. exists (hit :: b), a.
  split; [done|]. csimpl. intros x [->|Hx]%elem_of_cons; [apply list_elem_of_here|].
  by apply list_elem_of_further, Hsub.
Qed.

Lemma diversify_spec clustered : ∀ diverse accepted omitted hits omitted',
  diversify_inv diverse accepted →
  diversify clustered limit max_per_resource diverse accepted omitted = Ok (hits, omitted') →
  ∃ tail accepted', hits = diverse ++ tail ∧ diversify_inv hits accepted' ∧
    (unranked <$> tail) `sublist_of` (unranked <$> clustered) ∧
    omitted' + zlen tail = omitted + zlen clustered ∧ omitted <= omitted' ∧
    ∀ h, h ∈ clustered → unranked h ∈ unranked <$> tail ∨ turned_away clustered hits tail h.
Proof.
  induction clustered as [|hit rest IH]; intros diverse accepted omitted hits omitted' Hinv; cbn.
  { intros [= <- <-]. exists [], accepted. rewrite app_nil_r.
    split; [done|]. split; [done|]. split; [constructor|]. split; [cbn; lia|]. split; [lia|].
    by intros h ?%elem_of_nil. }
  destruct (max_per_resource <=? _) eqn:Hcap; [|destruct (limit <=? _) eqn:Hlim].
  1,2: intros H; apply IH in H as (tail&acc&->&Hinv'&Hsub&Hn&Hom&Hmax); [|done];
    exists tail, acc; split; [done|]; split; [done|]; split; [by constructor|];
    split; [cbn in *; lia|]; split; [lia|];
    intros h [->|Hh]%elem_of_cons;
    [right|destruct (Hmax h Hh) as [?|?]; [by left|right; by apply turned_away_skip]];
    bool_prop; rewrite ?(accepted_counts _ _ Hinv) in Hcap.
  - left. rewrite hits_of_app.
    pose proof (hits_of_nonneg (resource_id (hit_resource hit)) tail). lia.
  - right. pose proof (diverse_bounded _ _ Hinv') as Hlen. rewrite length_app in *.
    split; [lia|]. exists [], rest. split; [done|].
    assert (tail = []) as -> by (apply nil_length_inv; lia). done.
  - bool_prop. intros H. inv_ok. apply built_hit_ok in H as [-> _].
    apply IH in H0 as (tail&acc&->&Hinv'&Hsub&Hn&Hom&Hmax); [|by apply diversify_inv_snoc].
    rewrite <- app_assoc in *. eexists (_ :: tail), acc. split; [done|]. split; [done|].
    split; [by apply sublist_skip|]. split; [cbn in *; lia|]. split; [lia|].
    intros h [->|Hh]%elem_of_cons; [left; by apply list_elem_of_here|].
    destruct (Hmax h Hh) as [Ht|?]; [left; by apply list_elem_of_further|right].
    by apply turned_away_accept.
Qed.
End diversify.

(** ** Clustering *)

Section cluster.
Variables (cancellation_check : callback)
  (overlap_check : EvidenceRef → EvidenceRef → Z → result KnowledgeError bool)
  (min_section_distance : Z).

(** Two hits of one revision of one resource. *)
Definition same_revision (h1 h2 : KnowledgeHit) : Prop :=
  resource_id (hit_resource h1) = resource_id (hit_resource h2) ∧
  revision_id (hit_revision h1) = revision_id (hit_revision h2).

(** The indices of [selected_by_resource] are those of the hits, and an earlier
    hit of a revision is far from every later one. *)
Record cluster_inv (selected : list KnowledgeHit) (by_resource : gmap pystr (list nat)) :
    Prop := {
  indexed i h : selected !! i = Some h →
    i ∈ default [] (by_resource !! resource_id (hit_resource h));
  indices_valid rid i : i ∈ default [] (by_resource !! rid) →
    ∃ h, selected !! i = Some h ∧ resource_id (hit_resource h) = rid;
  apart i j h1 h2 : (i < j)%nat → selected !! i = Some h1 → selected !! j = Some h2 →
    same_revision h1 h2 →
    overlap_check (hit_evidence h1) (hit_evidence h2) min_section_distance = Ok false
}.

Lemma indices_some selected by_resource rid :
  cluster_inv selected by_resource →
  ∀ i, i ∈ default [] (by_resource !! rid) → is_Some (selected !! i).
Proof. intros [_ H _] i Hi. destruct (H rid i Hi) as (h&Hh&_). by exists h. Qed.

(** The search over the indices fails only where the overlap test does. *)
Lemma find_overlap_spec prior selected c :
  (∀ i, i ∈ prior → is_Some (selected !! i)) →
  match find_overlap_index overlap_check prior selected c min_section_distance with
  | Ok (Some i) => i ∈ prior ∧ ∃ h, selected !! i = Some h ∧
      revision_id (hit_revision h) = revision_id (revision c)
  | Ok None => ∀ i h, i ∈ prior → selected !! i = Some h →
      revision_id (hit_revision h) = revision_id (revision c) →
      overlap_check (hit_evidence h) (evidence c) min_section_distance = Ok false
  | Err e => ∃ i h, selected !! i = Some h ∧
      overlap_check (hit_evidence h) (evidence c) min_section_distance = Err e
  end.
Proof.
  induction prior as [|index rest IH]; intros Hv; cbn [find_overlap_index].
  { by intros i h ?%elem_of_nil. }
  destruct (Hv index) as [h Hh]; [apply list_elem_of_here|]. rewrite Hh. cbn.
  specialize (IH (λ i Hi, Hv i (list_elem_of_further _ _ _ Hi))).
  destruct (bool_decide (revision_id _ = _)) eqn:Hrev; bool_prop; cbn.
  - destruct (overlap_check _ _ _) as [[]|e] eqn:Hov; cbn.
    + split; [apply list_elem_of_here|]. eauto.
    + destruct (find_overlap_index _ _ _ _ _) as [[i|]|e].
      * destruct IH as [Hi ?]. split; [by apply list_elem_of_further|done].
      * intros i h' [->|Hi]%elem_of_cons; [|by apply IH]. rewrite Hh. by intros [= <-].
      * done.
    + eauto.
  - destruct (find_overlap_index _ _ _ _ _) as [[i|]|e].
    + destruct IH as [Hi ?]. split; [by apply list_elem_of_further|done].
    + intros i h' [->|Hi]%elem_of_cons; [|by apply IH]. rewrite Hh. by intros [= <-].
    + done.
Qed.

(** A merge keeps what the clustering looks at. *)
Lemma merged_hit_keeps h a h' :
  merged_overlap_hit h a = Ok h' →
  hit_resource h' = hit_resource h ∧ hit_revision h' = hit_revision h ∧
  hit_evidence h' = hit_evidence h ∧ rank h' = rank h ∧
  validate_knowledge_hit h' = Ok tt ∧
  signals h' = sort_signals (foldl keep_best (by_source (signals h)) (agg_signals a)).*2 ∧
  math_fsum (signal_share <$> signals h') = Ok (fused_score h').
Proof.
  unfold merged_overlap_hit. intros H. inv_ok.
  match goal with H : built_hit _ = Ok _ |- _ => apply built_hit_ok in H as [-> ?] end. done.
Qed.

Lemma new_hit_is a n h :
  new_hit a n = Ok h →
  hit_resource h = resource (candidate a) ∧ hit_revision h = revision (candidate a) ∧
  hit_evidence h = evidence (candidate a) ∧ rank h = n ∧
  validate_knowledge_hit h = Ok tt ∧
  signals h = sort_signals (agg_signals a) ∧ score a = Ok (fused_score h).
Proof.
  unfold new_hit. intros H. inv_ok.
  match goal with H : built_hit _ = Ok _ |- _ => apply built_hit_ok in H as [-> ?] end. done.
Qed.

Lemma cluster_inv_merge selected by_resource i h h' rid :
  cluster_inv selected by_resource → selected !! i = Some h →
  hit_resource h' = hit_resource h → hit_revision h' = hit_revision h →
  hit_evidence h' = hit_evidence h →
  cluster_inv (<[i := h']> selected)
    (<[rid := default [] (by_resource !! rid)]> by_resource).
Proof.
  intros [H1 H2 H3] Hi Hres Hrev Hev.
  assert (∀ k, default [] (<[rid:=default [] (by_resource !! rid)]> by_resource !! k) =
               default [] (by_resource !! k)) as Hk.
  { intros k. destruct (decide (rid = k)) as [->|]; [by rewrite lookup_insert_eq|].
    by rewrite lookup_insert_ne. }
  assert (∀ j g, <[i:=h']> selected !! j = Some g → ∃ g0, selected !! j = Some g0 ∧
    hit_resource g = hit_resource g0 ∧ hit_revision g = hit_revision g0 ∧
    hit_evidence g = hit_evidence g0) as Hold.
  { intros j g Hg. apply list_lookup_insert_Some in Hg as [(<-&<-&_)|[_ ?]]; eauto 10. }
  split.
  - intros j g (g0&Hg0&->&_)%Hold. rewrite Hk. by apply H1.
  - intros k j. rewrite Hk. intros (g&Hg&Hgr)%H2. destruct (decide (i = j)) as [<-|Hne].
    + exists h'. rewrite list_lookup_insert_eq by (by eapply lookup_lt_Some). split; [done|].
      rewrite Hi in Hg. injection Hg as <-. by rewrite Hres.
    + exists g. by rewrite list_lookup_insert_ne.
  - intros j1 j2 g1 g2 Hlt Hg1 Hg2. apply Hold in Hg1 as (k1&Hk1&E1&E2&->).
    apply Hold in Hg2 as (k2&Hk2&E3&E4&->).
    unfold same_revision. rewrite E1, E2, E3, E4. by apply (H3 j1 j2).
Qed.

Lemma cluster_inv_new selected by_resource a h :
  let rid := resource_id (resource (candidate a)) in
  let prior := default [] (by_resource !! rid) in
  cluster_inv selected by_resource → new_hit a (zlen selected + 1) = Ok h →
  find_overlap_index overlap_check prior selected (candidate a) min_section_distance = Ok None →
  cluster_inv (selected ++ [h]) (<[rid := prior ++ [length selected]]> by_resource).
Proof.
  intros rid prior Hinv Hnew Hfind. pose proof Hinv as [H1 H2 H3].
  apply new_hit_is in Hnew as (Hres&Hrev&Hev&_).
  pose proof (find_overlap_spec prior selected (candidate a)
    (indices_some _ _ rid Hinv)) as Hnone.
  rewrite Hfind in Hnone. split.
  - intros i g. intros [Hg|[Hi Hg]]%lookup_app_Some.
    + destruct (decide (rid = resource_id (hit_resource g))) as [E|Hne].
      * rewrite <- E, lookup_insert_eq. cbn. apply elem_of_app. left. unfold prior. rewrite E.
        by apply H1.
      * rewrite lookup_insert_ne by done. by apply H1.
    + apply list_lookup_singleton_Some in Hg as [Hz <-]. rewrite Hres. fold rid.
      rewrite lookup_insert_eq. cbn. apply elem_of_app. right. apply list_elem_of_singleton. lia.
  - intros k i. destruct (decide (rid = k)) as [<-|Hne].
    + rewrite lookup_insert_eq. cbn. intros [Hi| ->%list_elem_of_singleton]%elem_of_app.
      * destruct (H2 rid i Hi) as (g&Hg&?). exists g. split; [|done]. by apply lookup_app_l_Some.
      * exists h. rewrite list_lookup_middle by done. by rewrite Hres.
    + rewrite lookup_insert_ne by done. intros (g&Hg&?)%H2. exists g. split; [|done].
      by apply lookup_app_l_Some.
  - intros i j g1 g2 Hlt Hg1 Hg2. apply lookup_app_Some in Hg2 as [Hg2|[Hj Hg2]].
    + apply lookup_app_Some in Hg1 as [Hg1|[Hi _]]; [by apply (H3 i j)|].
      apply lookup_lt_Some in Hg2. lia.
    + apply list_lookup_singleton_Some in Hg2 as [Hz <-].
      apply lookup_app_Some in Hg1 as [Hg1|[Hi _]]; [|lia].
      intros [E1 E2]. rewrite Hev. rewrite Hres in E1. rewrite Hrev in E2.
      apply (Hnone i); [|done..]. unfold prior, rid. rewrite <- E1. by apply H1.
Qed.

(** The loop keeps the invariant, and any property of a hit that new hits have
    and merges keep. *)
Lemma cluster_loop_spec (P : KnowledgeHit → Prop) ordered :
  (∀ k a n h, (k, a) ∈ ordered → new_hit a n = Ok h → P h) →
  (∀ k a h h', (k, a) ∈ ordered → P h →
     resource_id (hit_resource h) = resource_id (resource (candidate a)) →
     revision_id (hit_revision h) = revision_id (revision (candidate a)) →
     merged_overlap_hit h a = Ok h' → P h') →
  ∀ position selected by_resource hits,
  cluster_inv selected by_resource → Forall P selected →
  cluster_loop cancellation_check overlap_check ordered position min_section_distance selected
    by_resource = Ok hits →
  Forall P hits ∧ ∃ by_resource', cluster_inv hits by_resource'.
Proof.
  induction ordered as [|[k a] rest IH]; intros Hnew Hmerge position selected by_resource hits
    Hinv HP; cbn [cluster_loop].
  { intros [= <-]. eauto. }
  cbv zeta. intros H. inv_ok.
  specialize (IH (λ k' a' n h Hin, Hnew k' a' n h (list_elem_of_further _ _ _ Hin))
                 (λ k' a' h h' Hin, Hmerge k' a' h h' (list_elem_of_further _ _ _ Hin))).
  pose proof (list_elem_of_here (k, a) rest) as Hka.
  rename select (find_overlap_index _ _ _ _ _ = _) into Hfind.
  destruct x0 as [index|]; inv_ok.
  - pose proof (find_overlap_spec _ selected (candidate a) 
      (indices_some _ _ (resource_id (resource (candidate a))) Hinv)) as Hs.
    rename select (merged_overlap_hit _ _ = _) into Hm. rename select (selected !! index = _) into Hx.
    rewrite Hfind in Hs. destruct Hs as (Hidx&h0&Hh0&Hrev).
    rewrite Hh0 in Hx. injection Hx as <-. pose proof (merged_hit_keeps _ _ _ Hm) as (?&?&?&_).
    destruct (indices_valid _ _ Hinv _ _ Hidx) as (h1&Hh1&Hr1). rewrite Hh0 in Hh1. injection Hh1 as <-.
    eapply IH; [|..|eassumption]; [by eapply cluster_inv_merge|].
    apply Forall_insert; [done|]. eapply Hmerge; [done|..|exact Hm]; [|done..].
    by eapply Forall_lookup_1.
  - eapply IH; [|..|eassumption]; [by apply cluster_inv_new|].
    apply Forall_app. split; [done|]. apply Forall_singleton. by eapply Hnew.
Qed.

Lemma cluster_inv_empty : cluster_inv [] ∅.
Proof.
  split; [done| |done]. intros rid i. rewrite lookup_empty. by intros ?%elem_of_nil.
Qed.
End cluster.

(** ** The votes of an aggregate

    A vote of a ranking is the candidate's signal under the ranking's name with
    its share [1 / (rrf_k + source_rank)]; a vote of a discovery is its signal
    with its weighted share. *)

Section votes.
Variable rrf_k : pyfloat.
(** Discoveries do not vote under the name of a ranking. *)
Variable separate : Prop.

Definition ranking_vote (name : pystr) (c : KnowledgeCandidate) : RankingSignal :=
  upd source (λ _, name)
    (upd contribution
       (λ _, Some (fdiv (float_of_int 1) (fadd rrf_k (float_of_int (source_rank (signal c))))))
       (upd sig_evidence (λ _, Some (default (evidence c) (sig_evidence (signal c))))
          (signal c))).

Definition discovery_vote (d : ResourceDiscoverySignal) : RankingSignal :=
  upd contribution
    (λ _, Some (fdiv (fusion_weight d) (fadd rrf_k (float_of_int (source_rank (disc_signal d))))))
    (disc_signal d).

Definition revision_of (c : KnowledgeCandidate) : pystr * pystr :=
  (resource_id (resource c), revision_id (revision c)).

(** One aggregate: [entries] are the recorded (ranking, candidate, key), and
    [seen] the identities of the applied discoveries [ds]. *)
Record aggregate_ok (entries : list (pystr * KnowledgeCandidate * EvidenceKey))
    (ds : list ResourceDiscoverySignal) (k : EvidenceKey) (a : EvidenceAggregate) : Prop := {
  own_candidate : ∃ name, (name, candidate a, k) ∈ entries;
  shares : contributions a = signal_share <$> agg_signals a;
  shares_finite : forallb is_finite (contributions a) = true;
  votes_known s : s ∈ agg_signals a →
    (∃ name c, (name, c, k) ∈ entries ∧ revision_of c = revision_of (candidate a) ∧
       s = ranking_vote name c) ∨
    (∃ d, d ∈ ds ∧ resource_revision_key d = revision_of (candidate a) ∧
       s = discovery_vote d);
  votes_distinct : separate → NoDup (source <$> agg_signals a)
}.

Definition aggregates_ok (entries : list (pystr * KnowledgeCandidate * EvidenceKey))
    (ds : list ResourceDiscoverySignal) (aggregates : Aggregates) : Prop :=
  NoDup aggregates.*1 ∧ ∀ k a, (k, a) ∈ aggregates → aggregate_ok entries ds k a.

(** Adding a vote of a new source to an aggregate. *)
Lemma aggregate_ok_vote entries ds k a s why warns :
  aggregate_ok entries ds k a → (separate → source s ∉ source <$> agg_signals a) →
  not_finite (contribution s) = false →
  ((∃ name c, (name, c, k) ∈ entries ∧ revision_of c = revision_of (candidate a) ∧
      s = ranking_vote name c) ∨
   (∃ d, d ∈ ds ∧ resource_revision_key d = revision_of (candidate a) ∧
      s = discovery_vote d)) →
  aggregate_ok entries ds k (add_vote a (signal_share s) s why warns).
Proof.
  intros [H1 H2 H3 H4 H5] Hs Hf Hv. split; cbn.
  - done.
  - by rewrite fmap_app, H2.
  - rewrite forallb_app, H3. cbn. unfold signal_share. destruct (contribution s); [|done].
    cbn in *. by apply negb_false_iff in Hf as ->.
  - intros s' [Hs'| ->%list_elem_of_singleton]%elem_of_app; [by apply H4|done].
  - intros Hsep. rewrite fmap_app. apply NoDup_app. split; [by apply H5|].
    split; [set_solver|]. apply NoDup_singleton.
Qed.

Lemma aggregate_ok_mono entries entries' ds ds' k a :
  entries ⊆ entries' → ds ⊆ ds' → aggregate_ok entries ds k a → aggregate_ok entries' ds' k a.
Proof.
  intros He Hd [H1 H2 H3 H4 H5]. split; [set_solver|done..| |done].
  intros s Hs. destruct (H4 s Hs) as [(name&c&Hin&?)|(d&Hin&?)].
  - left. exists name, c. split; [by apply He|done].
  - right. exists d. split; [by apply Hd|done].
Qed.

Lemma aggregates_ok_set entries ds k a aggregates :
  aggregates_ok entries ds aggregates → aggregate_ok entries ds k a →
  aggregates_ok entries ds (dset k a aggregates).
Proof.
  intros [Hnd Hall] Ha. split; [by apply dset_NoDup|]. intros k' a' Hin.
  apply dset_elem in Hin as [[-> ->]|[_ Hin]]; [done|by apply Hall|done].
Qed.

Lemma to_float_ok z f : to_float z = Ok f → f = float_of_int z.
Proof. unfold to_float. case_match; congruence. Qed.

Lemma true_div_ok a b f : true_div a b = Ok f → f = fdiv a b.
Proof. unfold true_div. case_match; congruence. Qed.

(** What tells two votes of one evidence apart: the ranking and the key. *)
Definition tag (e : pystr * KnowledgeCandidate * EvidenceKey) : pystr * EvidenceKey :=
  (e.1.1, e.2).

Lemma new_aggregate_ok entries name c key :
  (name, c, key) ∈ entries → aggregate_ok entries [] key (new_aggregate c).
Proof.
  intros H. split; cbn; [by exists name|done|done| |intros _; constructor]. by intros s ?%elem_of_nil.
Qed.

Variable float_repr : pyfloat → pystr.

Lemma record_candidate_ok entries aggregates key c name aggregates' :
  aggregates_ok entries [] aggregates → (name, key) ∉ tag <$> entries →
  record_candidate float_repr aggregates key c name rrf_k = Ok aggregates' →
  aggregates_ok (entries ++ [(name, c, key)]) [] aggregates'.
Proof.
  intros [Hnd Hall] Htag. set (entries' := entries ++ [(name, c, key)]).
  assert (entries ⊆ entries') as Hsub by set_solver.
  assert ((name, c, key) ∈ entries') as Hnew by set_solver.
  assert (aggregates_ok entries' [] aggregates) as Hok.
  { split; [done|]. intros k a Hin. eapply aggregate_ok_mono; [exact Hsub|done|by apply Hall]. }
  unfold record_candidate, value_error_if. intros H. inv_ok.
  rename select (copied_signal _ _ = _) into Hcopy.
  apply copied_signal_ok in Hcopy as [-> Hfin].
  rename select (to_float _ = _) into Hrank. apply to_float_ok in Hrank as ->.
  rename select (true_div _ _ = _) into Hshare. apply true_div_ok in Hshare as ->.
  apply aggregates_ok_set; [done|].
  apply (aggregate_ok_vote entries' [] key _ (ranking_vote name c)); [..|done|].
  - destruct (dget key aggregates) as [a|] eqn:Hget; inv_ok.
    + apply Hok. by apply dget_elem.
    + by eapply new_aggregate_ok.
  - intros _. cbn. destruct (dget key aggregates) as [a|] eqn:Hget; inv_ok; [|set_solver].
    apply dget_elem, Hall in Hget. intros (s&->&Hs)%list_elem_of_fmap.
    destruct (votes_known _ _ _ _ Hget s Hs) as [(name'&c'&Hin&_&->)|(d&Hd&_)];
      [|by apply elem_of_nil in Hd].
    apply Htag, list_elem_of_fmap. by exists (name', c', key).
  - left. exists name, c. split; [done|]. split; [|done]. unfold revision_of.
    destruct (dget key aggregates) as [a|]; inv_ok; [|done].
    bool_prop. congruence.
Qed.

Definition kept (any_coherent : bool) (e : pystr * KnowledgeCandidate * EvidenceKey) : Prop :=
  hard_negative any_coherent e.1.2 = false.

#[export] Instance kept_dec any_coherent e : Decision (kept any_coherent e).
Proof. unfold kept. apply _. Defined.

Lemma record_pending_ok any_coherent pending : ∀ entries aggregates aggregates',
  aggregates_ok entries [] aggregates →
  NoDup (tag <$> entries ++ filter (kept any_coherent) pending) →
  record_pending float_repr any_coherent pending rrf_k aggregates = Ok aggregates' →
  aggregates_ok (entries ++ filter (kept any_coherent) pending) [] aggregates'.
Proof.
  induction pending as [|[[name c] key] rest IH]; intros entries aggregates aggregates' Hok Hnd;
    cbn [record_pending].
  { intros [= <-]. by rewrite app_nil_r in *. }
  destruct (hard_negative any_coherent c) eqn:Hneg.
  { rewrite filter_cons_False in Hnd |- * by (unfold kept; cbn; congruence). by apply IH. }
  rewrite filter_cons_True in Hnd |- * by done. intros H. inv_ok.
  rewrite cons_middle, (app_assoc entries [(name, c, key)]) in Hnd |- *.
  eapply IH; [|done|eassumption]. eapply record_candidate_ok; [done| |eassumption].
  rewrite <- app_assoc, fmap_app in Hnd. apply NoDup_app in Hnd as (_&Hnd&_). cbn in Hnd.
  intros Hin. apply (Hnd _ Hin). unfold tag; cbn. set_solver.
Qed.

(** ** The votes of discoveries *)

Section discoveries.
Variables (cancellation_check : callback) (names : list pystr)
  (entries : list (pystr * KnowledgeCandidate * EvidenceKey))
  (all : list ResourceDiscoverySignal) (eligible : pystr * pystr → list EvidenceKey).
Hypothesis separate_names : separate → ∀ d, d ∈ all → source (disc_signal d) ∉ names.

(** Before the discoveries left: the eligible keys are those of aggregates of the
    revision, and a vote that is not a ranking's was applied. *)
Record discovery_inv (seen : gset (pystr * pystr * pystr)) (aggregates : Aggregates) : Prop := {
  votes_ok : aggregates_ok entries all aggregates;
  eligible_known rr k : k ∈ eligible rr →
    ∃ a, dget k aggregates = Some a ∧ revision_of (candidate a) = rr;
  applied_seen k a s : separate → (k, a) ∈ aggregates → s ∈ agg_signals a →
    source s ∈ names ∨
    (source s, (revision_of (candidate a)).1, (revision_of (candidate a)).2) ∈ seen
}.

Lemma discovery_inv_seen seen seen' aggregates :
  seen ⊆ seen' → discovery_inv seen aggregates → discovery_inv seen' aggregates.
Proof.
  intros Hs [H1 H2 H3]. split; [done|done|]. intros k a s Hsep Hin Hv.
  destruct (H3 k a s Hsep Hin Hv); [by left|right; by apply Hs].
Qed.

Lemma best_orders_keys aggregates keys orders :
  map_result (best_order aggregates) keys = Ok orders → orders.*2 = keys.
Proof.
  intros H. apply map_result_ok in H. induction H as [|k o keys orders Ho _ IH]; csimpl; [done|].
  rewrite IH. unfold best_order in Ho. by inv_ok.
Qed.

Lemma boost_ok seen aggregates d key keys aggregates' :
  let rr := resource_revision_key d in
  let identity := (source (disc_signal d), rr.1, rr.2) in
  discovery_inv seen aggregates → d ∈ all → eligible rr = key :: keys → identity ∉ seen →
  boost float_repr aggregates d rrf_k key keys = Ok aggregates' →
  discovery_inv ({[identity]} ∪ seen) aggregates'.
Proof.
  intros rr identity [Hok Hel Hap] Hd Hkeys Hseen. unfold boost. intros H. inv_ok.
  rename select (map_result _ _ = _) into Horders. apply best_orders_keys in Horders.
  destruct x as [|o os]; [done|]. injection Horders as Ho Hos.
  rename select (copied_signal _ _ = _) into Hcopy. apply copied_signal_ok in Hcopy as [-> Hfin].
  rename select (to_float _ = _) into Hr. apply to_float_ok in Hr as ->.
  rename select (true_div _ _ = _) into Hs. apply true_div_ok in Hs as ->.
  set (best := (min_by (lex fcmp cmp_key) id o os).2) in *.
  assert (best ∈ eligible rr) as Hbest.
  { rewrite Hkeys, <- Ho, <- Hos. apply (list_elem_of_fmap_2 snd (o :: os)), min_by_elem. }
  destruct (Hel rr best Hbest) as (a&Ha&Hrev).
  rename select (dget best aggregates = Some x0) into Hx. rewrite Ha in Hx. injection Hx as <-.
  pose proof (dget_elem _ _ _ Ha) as Hin. change (add_vote a _ _ _ _) with
    (add_vote a (signal_share (discovery_vote d)) (discovery_vote d) (disc_reason d)
       (disc_warnings d)).
  set (a' := add_vote _ _ _ _ _).
  assert (NoDup aggregates.*1) as Hnd by apply Hok.
  split.
  - apply aggregates_ok_set; [done|]. apply aggregate_ok_vote; [by apply Hok| |done|].
    + intros Hsep (s&Hsource&Hs)%list_elem_of_fmap. cbn in Hsource.
      destruct (Hap best a s Hsep Hin Hs) as [Hn|Hn]; rewrite <- Hsource in Hn.
      * by apply (separate_names Hsep d Hd).
      * rewrite Hrev in Hn. by apply Hseen.
    + right. by exists d.
  - intros rr' k Hk. destruct (decide (k = best)) as [->|Hne].
    + exists a'. rewrite dget_dset_eq. split; [done|]. cbn.
      destruct (Hel rr' best Hk) as (a2&Ha2&<-). rewrite Ha in Ha2. by injection Ha2 as <-.
    + rewrite dget_dset_ne by done. by apply Hel.
  - intros k a2 s Hsep H2 Hs. apply dset_elem in H2 as [[-> ->]|[_ H2]]; [| |done].
    + cbn in Hs. apply elem_of_app in Hs as [Hs| ->%list_elem_of_singleton].
      * destruct (Hap best a s Hsep Hin Hs); [by left|set_solver].
      * right. change (candidate a') with (candidate a). rewrite Hrev. apply elem_of_union_l.
        by apply elem_of_singleton.
    + destruct (Hap k a2 s Hsep H2 Hs); [by left|set_solver].
Qed.

Lemma apply_discoveries_ok ds : ∀ position seen aggregates aggregates',
  ds ⊆ all → discovery_inv seen aggregates →
  apply_discoveries float_repr cancellation_check eligible ds position seen rrf_k aggregates =
    Ok aggregates' →
  aggregates_ok entries all aggregates'.
Proof.
  induction ds as [|d ds IH]; intros position seen aggregates aggregates' Hsub Hinv;
    cbn [apply_discoveries].
  { intros [= <-]. apply Hinv. }
  apply cons_subseteq in Hsub as [Hd Hsub]. cbv zeta. intros H. inv_ok.
  destruct (bool_decide _) eqn:Hseen; bool_prop; [by eapply IH|].
  destruct (eligible (resource_revision_key d)) as [|key keys] eqn:Hkeys.
  - eapply IH; [done| |eassumption]. eapply discovery_inv_seen; [|done]. set_solver.
  - inv_ok. eapply IH; [done| |eassumption]. by eapply boost_ok.
Qed.
End discoveries.
End votes.

(** ** The scan of the rankings *)


Section scan.
Variables (casefold : pystr → pystr) (cancellation_check : callback) (include_history : bool).

(** Every pending entry is a visible candidate of its ranking, with one entry per
    ranking and key; the coherence flag tells whether one of them is coherent. *)
Record collection_ok (rankings : list (pystr * list KnowledgeCandidate)) (acc : collection) :
    Prop := {
  entries_known name c k : (name, c, k) ∈ pending acc →
    ∃ cs, (name, cs) ∈ rankings ∧ c ∈ cs ∧ candidate_is_visible c include_history = true;
  entries_distinct : NoDup (tag <$> pending acc);
  coherence_known :
    structured_coherent acc = existsb (λ e, coherent (signal e.1.2)) (pending acc)
}.

Lemma collection_ok_add rankings acc name c key aliases cs :
  collection_ok rankings acc → (name, cs) ∈ rankings → c ∈ cs →
  candidate_is_visible c include_history = true → (name, key) ∉ tag <$> pending acc →
  collection_ok rankings
    {| snippet_aliases := aliases; pending := pending acc ++ [(name, c, key)];
       structured_coherent := coherent (signal c) || structured_coherent acc |}.
Proof.
  intros [H1 H2 H3] Hcs Hc Hv Ht. split; cbn.
  - intros name' c' k'. intros [H|H]%elem_of_app; [by eapply H1|].
    apply list_elem_of_singleton in H as [= -> -> ->]. eauto.
  - rewrite fmap_app. apply NoDup_app. split; [done|]. split; [|apply NoDup_singleton].
    unfold tag at 2; cbn. set_solver.
  - rewrite existsb_app, H3. cbn. by rewrite orb_false_r, orb_comm.
Qed.

Lemma scan_ranking_ok rankings name all cs : ∀ position seen acc acc',
  (name, all) ∈ rankings → cs ⊆ all → collection_ok rankings acc →
  (∀ k, (name, k) ∈ tag <$> pending acc → k ∈ seen) →
  scan_ranking casefold cancellation_check include_history name cs position seen acc = Ok acc' →
  collection_ok rankings acc' ∧
  ∀ n k, (n, k) ∈ tag <$> pending acc' → n = name ∨ (n, k) ∈ tag <$> pending acc.
Proof.
  induction cs as [|c cs IH]; intros position seen acc acc' Hall Hsub Hok Hseen;
    cbn [scan_ranking].
  { intros [= <-]. split; [done|]. auto. }
  intros H. inv_ok. apply cons_subseteq in Hsub as [Hc Hsub].
  destruct (candidate_is_visible c include_history) eqn:Hv; cbn in *; [|by eapply IH].
  destruct (canonical_evidence_key casefold c (snippet_aliases acc)) as [key aliases].
  destruct (bool_decide (key ∈ seen)) eqn:Hin; bool_prop.
  - eapply IH in H0; [..|exact Hseen]; [done..|]. by destruct Hok.
  - apply IH in H0 as [Hok' Hnew]; [|done..| |].
    + split; [done|]. intros n k Hnk. apply Hnew in Hnk as [->|Hnk]; [by left|].
      cbn in Hnk. rewrite fmap_app in Hnk. apply elem_of_app in Hnk as [?|Hnk]; [by right|].
      apply list_elem_of_singleton in Hnk as [= -> _]. by left.
    + eapply collection_ok_add; [done..|]. intros Ht. by apply Hin, Hseen.
    + cbn. intros k. rewrite fmap_app. intros [Hk|Hk]%elem_of_app.
      * by apply elem_of_union_r, Hseen.
      * apply list_elem_of_singleton in Hk as [= ->]. by apply elem_of_union_l, elem_of_singleton.
Qed.

Lemma scan_rankings_ok rankings todo : ∀ acc acc',
  todo ⊆ rankings → NoDup todo.*1 → collection_ok rankings acc →
  (∀ n k, (n, k) ∈ tag <$> pending acc → n ∉ todo.*1) →
  scan_rankings casefold cancellation_check include_history todo acc = Ok acc' →
  collection_ok rankings acc'.
Proof.
  induction todo as [|[name cs] todo IH]; intros acc acc' Hsub Hnd Hok Hnew;
    cbn [scan_rankings].
  { by intros [= <-]. }
  unfold value_error_if. intros H. inv_ok.
  apply cons_subseteq in Hsub as [Hname Hsub].
  csimpl in *. apply NoDup_cons in Hnd as [Hn Hnd].
  rename select (scan_ranking _ _ _ _ _ _ _ _ = _) into Hscan.
  apply (scan_ranking_ok rankings name cs) in Hscan as [Hok' Hkeys]; [|done..|].
  - eapply IH; [done..| |eassumption]. intros n k Hk. apply Hkeys in Hk as [->|Hk]; [done|].
    apply Hnew in Hk. set_solver.
  - intros k Hk. apply Hnew in Hk. set_solver.
Qed.

Lemma collection_ok_empty rankings :
  collection_ok rankings
    {| snippet_aliases := ∅; pending := []; structured_coherent := false |}.
Proof. split; cbn; [by intros name c k ?%elem_of_nil|constructor|done]. Qed.
End scan.

(** ** The hits of a clustering *)

Lemma math_fsum_ok fs f :
  forallb is_finite fs = true → math_fsum fs = Ok f → f = rounded_sum fs.
Proof.
  intros Hf. unfold math_fsum. destruct (fsum fs) as [g|[]] eqn:H; intros [= <-].
  by apply fsum_ok.
Qed.

Lemma forallb_perm {A} (p : A → bool) l l' : l ≡ₚ l' → forallb p l = forallb p l'.
Proof. induction 1; cbn; [done|congruence|by destruct (p x), (p y)|congruence]. Qed.

Lemma sort_signals_perm ss : sort_signals ss ≡ₚ ss.
Proof. apply sort_by_perm. Qed.

(** A dictionary of signals by their source. *)
Definition sources_ok (d : list (pystr * RankingSignal)) : Prop :=
  NoDup d.*1 ∧ ∀ k s, (k, s) ∈ d → source s = k.

Lemma sources_ok_set d s : sources_ok d → sources_ok (dset (source s) s d).
Proof.
  intros [Hnd Hk]. split; [by apply dset_NoDup|]. intros k s' Hin.
  apply dset_elem in Hin as [[-> ->]|[_ Hin]]; [done|by apply Hk|done].
Qed.

Lemma sources_distinct d : sources_ok d → NoDup (source <$> d.*2).
Proof.
  intros [Hnd Hk]. replace (source <$> d.*2) with (d.*1); [done|].
  rewrite <- list_fmap_compose. apply list_fmap_ext. intros i [k s] Hin. cbn. symmetry.
  apply Hk. by eapply list_elem_of_lookup_2.
Qed.

(** The values of the merged dictionary come from the hit or from the aggregate. *)
Lemma by_source_ok ss : sources_ok (by_source ss) ∧ (by_source ss).*2 ⊆ ss.
Proof.
  unfold by_source. assert (∀ d base, sources_ok d → d.*2 ⊆ base →
    let r := foldl (λ d s, dset (source s) s d) d ss in sources_ok r ∧ r.*2 ⊆ base ++ ss) as H.
  { induction ss as [|s ss IH]; intros d base Hd Hb; cbn; [by rewrite app_nil_r|].
    rewrite (cons_middle s base ss), app_assoc. apply IH; [by apply sources_ok_set|].
    intros x ([k s']&->&Hin)%list_elem_of_fmap.
    apply dset_elem in Hin as [[_ ->]|[_ Hin]]; [set_solver| |apply Hd].
    apply elem_of_app. left. apply Hb, list_elem_of_fmap. by exists (k, s'). }
  apply (H [] []); [|done]. split; [constructor|]. by intros k s ?%elem_of_nil.
Qed.

Lemma keep_best_ok d s base :
  sources_ok d → d.*2 ⊆ base → s ∈ base → sources_ok (keep_best d s) ∧ (keep_best d s).*2 ⊆ base.
Proof.
  intros Hd Hb Hs. unfold keep_best.
  assert (sources_ok (dset (source s) s d) ∧ (dset (source s) s d).*2 ⊆ base) as Hset.
  { split; [by apply sources_ok_set|]. intros x ([k s']&->&Hin)%list_elem_of_fmap.
    apply dset_elem in Hin as [[_ ->]|[_ Hin]]; [done| |apply Hd].
    apply Hb, list_elem_of_fmap. by exists (k, s'). }
  destruct (dget (source s) d); [|done]. by destruct (_ <? _).
Qed.

Lemma merged_sources_ok ss ss' :
  let d := foldl keep_best (by_source ss) ss' in
  sources_ok d ∧ d.*2 ⊆ ss ++ ss'.
Proof.
  destruct (by_source_ok ss) as [Hd Hb]. cbn.
  assert (∀ d, sources_ok d → d.*2 ⊆ ss ++ ss' → ∀ todo, todo ⊆ ss' →
    sources_ok (foldl keep_best d todo) ∧ (foldl keep_best d todo).*2 ⊆ ss ++ ss') as H.
  { intros d Hd' Hb' todo. revert d Hd' Hb'.
    induction todo as [|s todo IH]; intros d Hd' Hb' Hsub; [done|].
    apply cons_subseteq in Hsub as [Hs Hsub]. cbn.
    destruct (keep_best_ok d s (ss ++ ss')) as [H1 H2]; [done..|set_solver|]. by apply IH. }
  apply H; [done|set_solver|done].
Qed.

Section hits.
Variables (rrf_k : pyfloat) (separate : Prop)
  (entries : list (pystr * KnowledgeCandidate * EvidenceKey))
  (ds : list ResourceDiscoverySignal).

Definition revision_of_hit (h : KnowledgeHit) : pystr * pystr :=
  (resource_id (hit_resource h), revision_id (hit_revision h)).

(** A hit is grounded in a recorded candidate, its signals are votes for its
    revision from distinct sources, its score is their sum. *)
Record hit_ok (h : KnowledgeHit) : Prop := {
  hit_grounded : ∃ name c k, (name, c, k) ∈ entries ∧ hit_resource h = resource c ∧
    hit_revision h = revision c ∧ hit_evidence h = evidence c;
  hit_votes s : s ∈ signals h →
    (∃ name c k, (name, c, k) ∈ entries ∧ revision_of c = revision_of_hit h ∧
       s = ranking_vote rrf_k name c) ∨
    (∃ d, d ∈ ds ∧ resource_revision_key d = revision_of_hit h ∧ s = discovery_vote rrf_k d);
  hit_distinct : separate → NoDup (source <$> signals h);
  hit_finite : forallb is_finite (signal_share <$> signals h) = true;
  hit_score : fused_score h = rounded_sum (signal_share <$> signals h);
  hit_valid : validate_knowledge_hit h = Ok tt
}.

Lemma aggregate_votes k a s :
  aggregate_ok rrf_k separate entries ds k a → s ∈ agg_signals a →
  (∃ name c k', (name, c, k') ∈ entries ∧ revision_of c = revision_of (candidate a) ∧
     s = ranking_vote rrf_k name c) ∨
  (∃ d, d ∈ ds ∧ resource_revision_key d = revision_of (candidate a) ∧ s = discovery_vote rrf_k d).
Proof.
  intros Ha Hs. destruct (votes_known _ _ _ _ _ _ Ha s Hs) as [(name&c&?&?&?)|?]; [|by right].
  left. eauto 10.
Qed.

Lemma new_hit_ok k a n h :
  aggregate_ok rrf_k separate entries ds k a → new_hit a n = Ok h → hit_ok h.
Proof.
  intros Ha H. apply new_hit_is in H as (Hres&Hrev&Hev&_&Hvalid&Hsig&Hscore).
  assert (signal_share <$> signals h ≡ₚ contributions a) as Hperm.
  { by rewrite Hsig, sort_signals_perm, (shares _ _ _ _ _ _ Ha). }
  pose proof (shares_finite _ _ _ _ _ _ Ha) as Hfin.
  destruct (own_candidate _ _ _ _ _ _ Ha) as (name&Hin). split.
  - eauto 10.
  - intros s. rewrite Hsig, sort_signals_perm. intros Hs.
    unfold revision_of_hit. rewrite Hres, Hrev. by eapply aggregate_votes.
  - intros Hsep. rewrite Hsig, sort_signals_perm. by eapply votes_distinct.
  - by rewrite (forallb_perm _ _ _ Hperm).
  - rewrite (rounded_sum_perm _ _ Hperm). unfold score in Hscore.
    apply math_fsum_ok in Hscore; [|by rewrite (forallb_perm _ _ _ (sort_by_perm fcmp id _))].
    rewrite Hscore. apply rounded_sum_perm, sort_by_perm.
  - done.
Qed.

Lemma merged_hit_ok k a h h' :
  aggregate_ok rrf_k separate entries ds k a → hit_ok h →
  resource_id (hit_resource h) = resource_id (resource (candidate a)) →
  revision_id (hit_revision h) = revision_id (revision (candidate a)) →
  merged_overlap_hit h a = Ok h' → hit_ok h'.
Proof.
  intros Ha [Hg Hv Hd Hf _ _] E1 E2 H.
  apply merged_hit_keeps in H as (Hres&Hrev&Hev&_&Hvalid&Hsig&Hscore).
  destruct (merged_sources_ok (signals h) (agg_signals a)) as [Hsources Hsub].
  assert (∀ s, s ∈ signals h' → s ∈ signals h ∨ s ∈ agg_signals a) as Hfrom.
  { intros s. rewrite Hsig, sort_signals_perm. intros Hs. by apply elem_of_app, Hsub. }
  assert (forallb is_finite (signal_share <$> signals h') = true) as Hfin.
  { apply forallb_forall. intros x Hx. apply list_elem_of_In, list_elem_of_fmap in Hx as (s&->&Hs).
    rewrite forallb_forall in Hf. pose proof (shares_finite _ _ _ _ _ _ Ha) as Hf2.
    rewrite (shares _ _ _ _ _ _ Ha), forallb_forall in Hf2.
    destruct (Hfrom s Hs); [apply Hf|apply Hf2]; apply list_elem_of_In, list_elem_of_fmap; eauto. }
  split; [by rewrite Hres, Hrev, Hev| | |done| |done].
  - intros s Hs. unfold revision_of_hit. rewrite Hres, Hrev.
    destruct (Hfrom s Hs) as [Hs'|Hs']; [by apply Hv|].
    rewrite E1, E2. by eapply aggregate_votes.
  - intros _. rewrite Hsig, sort_signals_perm. by apply sources_distinct.
  - by apply math_fsum_ok.
Qed.
End hits.
