(* ===== verification/FusionSafety.v ===== *)
(** * What the rank fusion guarantees

    The stages of [RankFusion] composed: a returned hit is grounded in a visible
    candidate, carries one vote per source and their exact sum, never overlaps
    another returned hit, and is among the best clusters the bounds allow; the
    result does not depend on the order of the mapping of rankings. *)

From S2P Require Import Prelude PyOrder KnowledgeContracts RankFusion FusionLaws.

(** ** Lists whose elements are related pairwise *)

Lemma pairwise_perm {A} (R : A → A → Prop) l l' :
  (∀ x y, R x y → R y x) → l ≡ₚ l' → StronglySorted R l → StronglySorted R l'.
Proof.
  intros Hsym. induction 1 as [|x l l' Hp IH|x y l|l1 l2 l3 _ IH1 _ IH2]; intros H; auto.
  - inversion H as [|? ? Hl Hx]; subst. constructor; [by apply IH|by rewrite <- Hp].
  - inversion H as [|? ? Hl Hy]; subst. inversion Hl as [|? ? Hl' Hx]; subst.
    inversion Hy as [|? ? Hyx Hy']; subst. repeat constructor; auto.
Qed.

Lemma pairwise_sublist {A} (R : A → A → Prop) l l' :
  l `sublist_of` l' → StronglySorted R l' → StronglySorted R l.
Proof.
  induction 1 as [|x l l' Hsub IH|x l l' Hsub IH]; intros H; [done|..].
  - inversion H as [|? ? Hl Hx]; subst. constructor; [by apply IH|].
    rewrite Forall_forall in Hx |- *. intros y Hy. by apply Hx, (sublist_subseteq _ _ Hsub).
  - inversion H; subst. by apply IH.
Qed.

Lemma pairwise_lookup {A} (R : A → A → Prop) l i j x y :
  StronglySorted R l → (i < j)%nat → l !! i = Some x → l !! j = Some y → R x y.
Proof.
  intros H. revert i j. induction H as [|z l Hl IH Hz]; intros i j Hlt Hi Hj; [done|].
  destruct j as [|j]; [lia|]. destruct i as [|i]; cbn in *.
  - injection Hi as <-. rewrite Forall_forall in Hz. apply Hz. by eapply list_elem_of_lookup_2.
  - apply (IH i j); [lia|done..].
Qed.

Lemma lookup_pairwise {A} (R : A → A → Prop) l :
  (∀ i j x y, (i < j)%nat → l !! i = Some x → l !! j = Some y → R x y) → StronglySorted R l.
Proof.
  induction l as [|x l IH]; intros H; constructor.
  - apply IH. intros i j y z Hij Hi Hj. apply (H (S i) (S j)); [lia|done..].
  - apply Forall_lookup. intros i y Hy. apply (H 0%nat (S i)); [lia|done..].
Qed.

(** ** The stages of one run *)

(** The entries that are scored: the pending ones that are not hard negatives. *)
Definition recorded (acc : collection) : list (pystr * KnowledgeCandidate * EvidenceKey) :=
  filter (kept (structured_coherent acc)) (pending acc).

(** No discovery votes under the name of a ranking. *)
Definition separate_sources (rankings : list (pystr * list KnowledgeCandidate))
    (ds : list ResourceDiscoverySignal) : Prop :=
  ∀ d, d ∈ ds → source (disc_signal d) ∉ rankings.*1.

Lemma collection_ok_perm include_history rankings rankings' acc :
  rankings ≡ₚ rankings' → collection_ok include_history rankings acc →
  collection_ok include_history rankings' acc.
Proof.
  intros Hp [H1 H2 H3]. split; [|done..]. intros name c k Hin.
  destruct (H1 name c k Hin) as (cs&?&?). exists cs. by rewrite <- Hp.
Qed.

Section stages.
Variables (casefold : pystr → pystr) (float_repr : pyfloat → pystr)
  (cancellation_check : callback)
  (overlap_check : EvidenceRef → EvidenceRef → Z → result KnowledgeError bool)
  (rankings : list (pystr * list KnowledgeCandidate)) (ds : list ResourceDiscoverySignal)
  (limit max_per_resource min_section_distance : Z) (include_history : bool)
  (rrf_k : pyfloat).
Hypothesis names_distinct : NoDup rankings.*1.

Abbreviation separate := (separate_sources rankings ds).

Lemma collect_spec aggregates :
  collect_aggregates casefold float_repr cancellation_check rankings include_history rrf_k =
    Ok aggregates →
  ∃ acc, collection_ok include_history rankings acc ∧
    ∀ (sep : Prop), aggregates_ok rrf_k sep (recorded acc) [] aggregates.
Proof.
  unfold collect_aggregates. intros H. inv_ok. rename x into acc. exists acc.
  assert (collection_ok include_history rankings acc) as Hok.
  { apply (collection_ok_perm _ (sort_by cmp_str fst rankings)); [apply sort_by_perm|].
    eapply scan_rankings_ok; [done| |apply collection_ok_empty| |eassumption].
    - by rewrite sort_by_perm.
    - by intros n k ?%elem_of_nil. }
  split; [done|]. intros sep.
  apply (record_pending_ok rrf_k sep float_repr (structured_coherent acc) (pending acc) []
    [] aggregates); [| |done].
  - split; [constructor|]. by intros k a ?%elem_of_nil.
  - cbn. eapply sublist_NoDup; [apply (entries_distinct _ _ _ Hok)|].
    apply fmap_sublist, sublist_filter.
Qed.

Lemma initial_discovery_inv entries aggregates :
  (∀ e, e ∈ entries → e.1.1 ∈ rankings.*1) →
  (∀ sep : Prop, aggregates_ok rrf_k sep entries [] aggregates) →
  discovery_inv rrf_k separate rankings.*1 entries ds (eligible_keys aggregates) ∅ aggregates.
Proof.
  intros Hnames Hok. specialize (Hok separate) as [Hnd Hall]. split.
  - split; [done|]. intros k a Hin. eapply aggregate_ok_mono; [done| |by apply Hall].
    by intros ? ?%elem_of_nil.
  - intros rr k. unfold eligible_keys. intros ([k' a]&->&Hin)%list_elem_of_fmap.
    apply list_elem_of_filter in Hin as [Hrr Hin]. exists a.
    split; [by apply elem_dget|]. exact Hrr.
  - intros k a s _ Hin Hs. left.
    destruct (votes_known _ _ _ _ _ _ (Hall k a Hin) s Hs) as [(name&c&He&_&->)|(d&Hd&_)];
      [|by apply elem_of_nil in Hd]. by apply Hnames in He.
Qed.

Lemma ordered_discoveries :
  sort_by (lex (lex (lex cmp_str Z.compare) cmp_str) cmp_str) discovery_order ds ⊆ ds.
Proof. intros d. by rewrite sort_by_perm. Qed.

Lemma discovery_spec entries aggregates boosted :
  (∀ e, e ∈ entries → e.1.1 ∈ rankings.*1) →
  (∀ sep : Prop, aggregates_ok rrf_k sep entries [] aggregates) →
  apply_discovery_signals float_repr cancellation_check aggregates ds rrf_k = Ok boosted →
  aggregates_ok rrf_k separate entries ds boosted.
Proof.
  intros Hnames Hok H.
  eapply (apply_discoveries_ok rrf_k separate _ _ rankings.*1 entries ds);
    [done|apply ordered_discoveries|by apply initial_discovery_inv|exact H].
Qed.

Lemma recorded_names acc e :
  collection_ok include_history rankings acc → e ∈ recorded acc → e.1.1 ∈ rankings.*1.
Proof.
  intros Hacc Hin. destruct e as [[name c] k]. apply list_elem_of_filter in Hin as [_ Hin].
  apply (entries_known _ _ _ Hacc) in Hin as (cs&?&_).
  cbn. apply list_elem_of_fmap. by exists (name, cs).
Qed.

(** Everything the properties below need of a run that returns. *)
Record run_facts (hits : list KnowledgeHit) (omitted : Z) : Prop := {
  run_options : 1 <= limit ∧ 1 <= max_per_resource ∧ 0 <= min_section_distance;
  run_stages : ∃ acc selected clustered by_resource,
    collection_ok include_history rankings acc ∧
    Forall (hit_ok rrf_k separate (recorded acc) ds) selected ∧
    cluster_inv overlap_check min_section_distance selected by_resource ∧
    sorted cmp_hit_order hit_order selected = Ok clustered ∧
    diversify clustered limit max_per_resource [] ∅ 0 = Ok (hits, omitted)
}.

Lemma cluster_spec entries boosted selected :
  aggregates_ok rrf_k separate entries ds boosted →
  cluster_evidence cancellation_check overlap_check boosted min_section_distance = Ok selected →
  Forall (hit_ok rrf_k separate entries ds) selected ∧
  ∃ by_resource, cluster_inv overlap_check min_section_distance selected by_resource.
Proof.
  intros [_ Hall]. unfold cluster_evidence. intros H. inv_ok.
  rename select (ordered_keys boosted = Ok _) into Hord. apply sorted_perm in Hord.
  eapply cluster_loop_spec; [| |apply cluster_inv_empty|constructor|eassumption].
  - intros k a n h Hin. apply (new_hit_ok _ _ _ _ k). apply Hall. by rewrite <- Hord.
  - intros k a h h' Hin Hh E1 E2. apply (merged_hit_ok _ _ _ _ k); [|done..].
    apply Hall. by rewrite <- Hord.
Qed.

Lemma fusion_stages hits omitted :
  fuse_evidence_rankings casefold float_repr cancellation_check overlap_check rankings ds limit
    max_per_resource min_section_distance include_history rrf_k = Ok (hits, omitted) →
  run_facts hits omitted.
Proof.
  unfold fuse_evidence_rankings, validate_options, value_error_if, apply_diversity.
  intros H. inv_ok. bool_prop. split; [done|].
  rename select (collect_aggregates _ _ _ _ _ _ = _) into Hc.
  apply collect_spec in Hc as (acc&Hacc&Hagg).
  rename select (apply_discovery_signals _ _ _ _ _ = _) into Hd.
  apply (discovery_spec (recorded acc)) in Hd; [|by intros e; apply recorded_names|done].
  rename select (cluster_evidence _ _ _ _ = _) into Hs. apply (cluster_spec (recorded acc)) in Hs
    as [Hhits [by_resource Hinv]]; [|done]. eauto 10.
Qed.
End stages.

(** ** From the clusters to the returned hits *)

Lemma unranked_fields h h0 :
  unranked h = unranked h0 →
  hit_resource h = hit_resource h0 ∧ hit_revision h = hit_revision h0 ∧
  hit_evidence h = hit_evidence h0 ∧ signals h = signals h0 ∧ fused_score h = fused_score h0.
Proof. by intros [=]. Qed.

Lemma diversify_inv_empty limit max_per_resource : diversify_inv limit max_per_resource [] ∅.
Proof. split; [done|intros rid; cbn; lia|cbn; lia|done]. Qed.

(** The returned hits are clusters, each at most once. *)
Lemma returned_from selected clustered limit max_per_resource hits omitted :
  sorted cmp_hit_order hit_order selected = Ok clustered →
  diversify clustered limit max_per_resource [] ∅ 0 = Ok (hits, omitted) →
  (unranked <$> hits) `sublist_of` (unranked <$> clustered) ∧ clustered ≡ₚ selected ∧
  ∀ h, h ∈ hits → ∃ h0, h0 ∈ selected ∧ unranked h = unranked h0.
Proof.
  intros Hs Hd. apply sorted_perm in Hs.
  apply diversify_spec in Hd as (tail&acc&->&_&Hsub&_); [|apply diversify_inv_empty].
  cbn in *. split; [done|]. split; [done|]. intros h Hh.
  assert (unranked h ∈ unranked <$> clustered) as Hin.
  { eapply sublist_subseteq; [exact Hsub|]. by apply list_elem_of_fmap_2. }
  apply list_elem_of_fmap in Hin as (h0&?&Hin). exists h0. by rewrite <- Hs.
Qed.

(** Closeness is symmetric. *)
Lemma overlap_sym a b d : overlaps_or_too_close a b d = overlaps_or_too_close b a d.
Proof.
  unfold overlaps_or_too_close.
  assert (∀ A (EqA : EqDecision A) (x y : A), bool_decide (x = y) = bool_decide (y = x)) as Hd.
  { intros A EqA x y. by apply bool_decide_ext. }
  rewrite !(Hd _ _ (ev_resource_id b)), !(Hd _ _ (ev_revision_id b)), !(Hd _ _ (section_kind b)),
    !(Hd _ _ (section_id b)).
  destruct (_ || _); [done|]. destruct (start_char a), (start_char b); cbn.
  - destruct (end_char a), (end_char b); cbn; [|done..].
    rewrite (andb_comm (_ <? _)), Z.max_comm, Z.min_comm. done.
  - by rewrite (orb_comm (_ && _) (_ && _)).
  - by rewrite (orb_comm (_ && _) (_ && _)).
  - by rewrite (orb_comm (_ && _) (_ && _)).
Qed.

(** What the constructor of an evidence guarantees of its offsets. *)
Lemma valid_offsets e :
  validate_evidence_ref e = Ok tt →
  match start_char e, end_char e with
  | Some s, Some t => s < t
  | None, None => True
  | _, _ => False
  end.
Proof.
  unfold validate_evidence_ref, validate_character_locator, value_error_if. intros H. inv_ok.
  repeat match goal with H : context [start_char] |- _ => revert H end.
  destruct (start_char e), (end_char e); cbn; intros; bool_prop; try done; lia.
Qed.

(** Two evidences that are not too close, read in characters. *)
Lemma apart_offsets a b d :
  0 <= d → validate_evidence_ref a = Ok tt → validate_evidence_ref b = Ok tt →
  overlaps_or_too_close a b d = Ok false →
  ev_resource_id a = ev_resource_id b → ev_revision_id a = ev_revision_id b →
  section_kind a = section_kind b → section_id a = section_id b →
  (∃ s1 e1 s2 e2, start_char a = Some s1 ∧ end_char a = Some e1 ∧ start_char b = Some s2 ∧
     end_char b = Some e2 ∧ (e1 + d <= s2 ∨ e2 + d <= s1)) ∨
  (section_kind a = Some (py "document") ∧ section_id a = Some (py "fulltext") ∧
   present (start_char a) ≠ present (start_char b)).
Proof.
  intros Hd Ha%valid_offsets Hb%valid_offsets Hov E1 E2 E3 E4. revert Hov.
  unfold overlaps_or_too_close. rewrite E1, E2, E3, E4, !bool_decide_eq_true_2 by done. cbn.
  destruct (start_char a) as [s1|], (end_char a) as [e1|], (start_char b) as [s2|],
    (end_char b) as [e2|]; try done; cbn.
  - intros Hov. left. exists s1, e1, s2, e2. do 4 (split; [done|]).
    destruct ((s2 <? e1) && (s1 <? e2)) eqn:Hcross; [done|].
    injection Hov as Hgap. bool_prop. apply andb_false_iff in Hcross as [H|H]; bool_prop; lia.
  - rewrite andb_true_r. case_match; [|done]. intros _. right. split_and!; [..|done].
    + rewrite orb_diag in H. bool_prop. done.
    + rewrite orb_diag in H. bool_prop. done.
  - rewrite andb_true_r. case_match; [|done]. intros _. right. split_and!; [..|done].
    + rewrite orb_diag in H. bool_prop. done.
    + rewrite orb_diag in H. bool_prop. done.
  - by rewrite andb_false_r.
Qed.

(** ** A small search

    Two rankings over one revision: the same passage found twice, once with
    offsets shifted by a few characters, and a distant passage. *)

Definition example_resource : ResourceRef :=
  {| resource_id := py "r1"; source_kind := py "file"; owner := py "inventory";
     physical_identity := None; current_path := None; disposition := Some CANONICAL;
     canonical_resource_id := None |}.

Definition example_revision : RevisionRef :=
  {| rev_resource_id := py "r1"; revision_id := py "v1"; producer := py "p";
     processing_signature := py "s"; rev_generation := Some 1; state := CURRENT;
     observed_at_utc := None |}.

Definition example_evidence (id : string) (first last : Z) : EvidenceRef :=
  {| evidence_id := py id; ev_resource_id := py "r1"; ev_revision_id := py "v1";
     method := EXTRACTED; page := None; start_line := None; end_line := None; sheet := None;
     cell_range := None; start_ms := None; end_ms := None; bounding_box := None;
     coordinate_space := None; start_char := Some first; end_char := Some last;
     symbol := None; section_kind := Some (py "document"); section_id := Some (py "fulltext");
     snippet := Some (py id); extractor := None; extractor_version := None;
     ev_generation := None; identifiers := [] |}.

Definition example_signal (source_ : string) (rank_ : Z) (support : list (pystr * json)) :
    RankingSignal :=
  {| source := py source_; score_kind := py "bm25"; raw_score := float_of_int 3;
     source_rank := rank_; model_signature := None; sig_generation := None;
     contribution := None; query_model_signature := None; sig_evidence := None;
     query_support := support |}.

Definition example_candidate (id : string) (first last rank_ : Z)
    (support : list (pystr * json)) : KnowledgeCandidate :=
  {| resource := example_resource; revision := example_revision;
     evidence := example_evidence id first last; signal := example_signal "own" rank_ support;
     reason := py "match"; confidence := None; warnings := [] |}.

Definition coherent_support : list (pystr * json) :=
  [(py "structured_support", JObject [(py "coherent", JBool true)])].

Definition mismatch_support : list (pystr * json) :=
  [(py "structured_support", JObject [(py "status", JStr (py "mismatch"))])].

Definition example_rankings : list (pystr * list KnowledgeCandidate) :=
  [(py "lexical", [example_candidate "a" 0 10 1 coherent_support;
                   example_candidate "b" 500 600 2 []]);
   (py "exact", [example_candidate "c" 5 12 1 [];
                 example_candidate "d" 900 950 2 mismatch_support])].

Definition example_discovery : ResourceDiscoverySignal :=
  {| disc_resource := example_resource; disc_revision := example_revision;
     disc_signal := example_signal "related" 1 []; disc_reason := py "neighbour";
     fusion_weight := float_of_int 1; disc_warnings := [] |}.

(** Two hits: the passages "a" and "c" merged, and "b"; "d" is a hard negative. *)
Definition example_run : result KnowledgeError (list KnowledgeHit * Z) :=
  search_fusion id (λ _, []) None example_rankings [example_discovery] 10 5 50 false.

Definition example_hits : list KnowledgeHit :=
  match example_run with Ok (hits, _) => hits | Err _ => [] end.

Lemma example_run_ok : example_run = Ok (example_hits, 0).
Proof. vm_compute. reflexivity. Qed.

Example example_evidence_ids :
  (λ h, (evidence_id (hit_evidence h), source <$> signals h)) <$> example_hits =
  [(py "a", [py "exact"; py "lexical"; py "related"]); (py "b", [py "lexical"])].
Proof. vm_compute. reflexivity. Qed.

(** ** Properties *)

(** The constructor of every candidate's evidence accepted it. *)
Definition evidence_constructed (rankings : list (pystr * list KnowledgeCandidate)) : Prop :=
  Forall (λ nc, Forall (λ c, validate_evidence_ref (evidence c) = Ok tt) nc.2) rankings.

Lemma constructed_entry include_history rankings acc name c k :
  evidence_constructed rankings → collection_ok include_history rankings acc →
  (name, c, k) ∈ pending acc → validate_evidence_ref (evidence c) = Ok tt.
Proof.
  intros Hc Hacc Hin. destruct (entries_known _ _ _ Hacc _ _ _ Hin) as (cs&Hcs&Hc'&_).
  unfold evidence_constructed in Hc. rewrite Forall_forall in Hc.
  specialize (Hc _ Hcs). rewrite Forall_forall in Hc. by apply Hc.
Qed.

(** Two hits whose evidence is far apart, in both orders. *)
Definition far (d : Z) (h1 h2 : KnowledgeHit) : Prop :=
  same_revision h1 h2 → overlaps_or_too_close (hit_evidence h1) (hit_evidence h2) d = Ok false.

Lemma far_sym d h1 h2 : far d h1 h2 → far d h2 h1.
Proof. intros H [E1 E2]. rewrite overlap_sym. by apply H. Qed.

Lemma returned_far selected by_resource clustered limit max_per_resource d hits omitted i j h1 h2 :
  cluster_inv overlaps_or_too_close d selected by_resource →
  sorted cmp_hit_order hit_order selected = Ok clustered →
  diversify clustered limit max_per_resource [] ∅ 0 = Ok (hits, omitted) →
  i ≠ j → hits !! i = Some h1 → hits !! j = Some h2 → far d h1 h2.
Proof.
  intros Hinv Hs Hd Hne Hi Hj.
  destruct (returned_from _ _ _ _ _ _ Hs Hd) as (Hsub&Hp&_).
  assert (StronglySorted (far d) (unranked <$> hits)) as Hss.
  { eapply pairwise_sublist; [exact Hsub|].
    apply (StronglySorted_fmap unranked (far d)); [done|].
    apply (pairwise_perm _ selected); [apply far_sym|done|].
    apply lookup_pairwise. intros a b x y Hab Hx Hy. exact (apart _ _ _ _ Hinv a b x y Hab Hx Hy). }
  assert ((unranked <$> hits) !! i = Some (unranked h1)) as Hi' by by rewrite list_lookup_fmap, Hi.
  assert ((unranked <$> hits) !! j = Some (unranked h2)) as Hj' by by rewrite list_lookup_fmap, Hj.
  destruct (decide (i < j)%nat) as [Hlt|Hge].
  - exact (pairwise_lookup _ _ i j _ _ Hss Hlt Hi' Hj').
  - apply far_sym. exact (pairwise_lookup _ _ j i _ _ Hss ltac:(lia) Hj' Hi').
Qed.

(** C18: no two hits of a search show the same passage: two returned hits of one
    section of one revision carry offsets at least [min_section_distance]
    characters apart, unless exactly one of them is the witness of a whole
    document, which has no offsets. *)
Theorem returned_passages_are_apart casefold float_repr check rankings ds limit
    max_per_resource min_section_distance include_history hits omitted i j h1 h2 :
  NoDup rankings.*1 → evidence_constructed rankings →
  search_fusion casefold float_repr check rankings ds limit max_per_resource
    min_section_distance include_history = Ok (hits, omitted) →
  i ≠ j → hits !! i = Some h1 → hits !! j = Some h2 →
  same_revision h1 h2 →
  section_kind (hit_evidence h1) = section_kind (hit_evidence h2) →
  section_id (hit_evidence h1) = section_id (hit_evidence h2) →
  (∃ s1 e1 s2 e2,
     start_char (hit_evidence h1) = Some s1 ∧ end_char (hit_evidence h1) = Some e1 ∧
     start_char (hit_evidence h2) = Some s2 ∧ end_char (hit_evidence h2) = Some e2 ∧
     (e1 + min_section_distance <= s2 ∨ e2 + min_section_distance <= s1)) ∨
  (section_kind (hit_evidence h1) = Some (py "document") ∧
   section_id (hit_evidence h1) = Some (py "fulltext") ∧
   present (start_char (hit_evidence h1)) ≠ present (start_char (hit_evidence h2))).
Proof.
  intros Hnd Hcon Hrun Hne Hi Hj Hsame Hk Hid. apply fusion_stages in Hrun as [(_&_&Hdist) Hst];
    [|done].
  destruct Hst as (acc&selected&clustered&by_resource&Hacc&Hsel&Hinv&Hs&Hd).
  pose proof (returned_far _ _ _ _ _ _ _ _ i j h1 h2 Hinv Hs Hd Hne Hi Hj Hsame) as Hfar.
  destruct (returned_from _ _ _ _ _ _ Hs Hd) as (_&_&Hfrom).
  assert (∀ h, h ∈ hits → validate_evidence_ref (hit_evidence h) = Ok tt ∧
    ev_resource_id (hit_evidence h) = resource_id (hit_resource h) ∧
    ev_revision_id (hit_evidence h) = revision_id (hit_revision h)) as Hev.
  { intros h (h0&Hh0&(->&->&->&_)%unranked_fields)%Hfrom.
    rewrite Forall_forall in Hsel. specialize (Hsel h0 Hh0).
    pose proof (valid_hit_evidence _ (hit_valid _ _ _ _ _ Hsel)) as Hb%belongs_to_spec.
    destruct (hit_grounded _ _ _ _ _ Hsel) as (name&c&k&Hin&_&_&E). split; [|done].
    rewrite E. apply list_elem_of_filter in Hin as [_ Hin]. by eapply constructed_entry. }
  destruct (Hev h1 (list_elem_of_lookup_2 _ _ _ Hi)) as (V1&R1&S1).
  destruct (Hev h2 (list_elem_of_lookup_2 _ _ _ Hj)) as (V2&R2&S2). destruct Hsame as [E1 E2].
  apply apart_offsets; [done..| | |done|done]; congruence.
Qed.

Lemma example_names : NoDup example_rankings.*1.
Proof. apply (bool_decide_unpack _). vm_compute. exact I. Qed.

Lemma example_constructed : evidence_constructed example_rankings.
Proof. repeat constructor. Qed.

Lemma returned_passages_are_apart_witness :
  ∃ h1 h2, example_hits !! 0%nat = Some h1 ∧ example_hits !! 1%nat = Some h2 ∧
    ((∃ s1 e1 s2 e2,
       start_char (hit_evidence h1) = Some s1 ∧ end_char (hit_evidence h1) = Some e1 ∧
       start_char (hit_evidence h2) = Some s2 ∧ end_char (hit_evidence h2) = Some e2 ∧
       (e1 + 50 <= s2 ∨ e2 + 50 <= s1)) ∨
     (section_kind (hit_evidence h1) = Some (py "document") ∧
      section_id (hit_evidence h1) = Some (py "fulltext") ∧
      present (start_char (hit_evidence h1)) ≠ present (start_char (hit_evidence h2)))).
Proof.
  destruct (example_hits !! 0%nat) as [h1|] eqn:E1; [|vm_compute in E1; discriminate].
  destruct (example_hits !! 1%nat) as [h2|] eqn:E2; [|vm_compute in E2; discriminate].
  exists h1, h2. split; [done|]. split; [done|].
  apply (returned_passages_are_apart id (λ _, []) None example_rankings [example_discovery]
    10 5 50 false example_hits 0 0 1 h1 h2 example_names example_constructed example_run_ok
    ltac:(done) E1 E2).
  all: vm_compute in E1; injection E1 as <-; vm_compute in E2; injection E2 as <-;
    vm_compute; auto.
Defined.

(** What a run says of one returned hit, whatever its rank. *)
Lemma returned_hit_ok {casefold float_repr check rankings ds limit max_per_resource
    min_section_distance include_history hits omitted} h :
  NoDup rankings.*1 →
  search_fusion casefold float_repr check rankings ds limit max_per_resource
    min_section_distance include_history = Ok (hits, omitted) →
  h ∈ hits →
  ∃ acc h0, collection_ok include_history rankings acc ∧
    (∀ h, h ∈ hits → ∃ h0, unranked h = unranked h0 ∧
       hit_ok RRF_K (separate_sources rankings ds) (recorded acc) ds h0) ∧
    unranked h = unranked h0 ∧ hit_ok RRF_K (separate_sources rankings ds) (recorded acc) ds h0.
Proof.
  intros Hnd Hrun Hh. apply fusion_stages in Hrun as [_ Hst]; [|done].
  destruct Hst as (acc&selected&clustered&by_resource&Hacc&Hsel&_&Hs&Hd).
  destruct (returned_from _ _ _ _ _ _ Hs Hd) as (_&_&Hfrom). rewrite Forall_forall in Hsel.
  assert (∀ h, h ∈ hits → ∃ h0, unranked h = unranked h0 ∧
    hit_ok RRF_K (separate_sources rankings ds) (recorded acc) ds h0) as Hall.
  { intros h' (h0&Hin&E)%Hfrom. exists h0. split; [done|by apply Hsel]. }
  exists acc. destruct (Hall h Hh) as (h0&?&?). by exists h0.
Qed.

Lemma recorded_known include_history rankings acc name c k :
  collection_ok include_history rankings acc → (name, c, k) ∈ recorded acc →
  ∃ cs, (name, cs) ∈ rankings ∧ c ∈ cs ∧ candidate_is_visible c include_history = true.
Proof.
  intros Hacc Hin. apply list_elem_of_filter in Hin as [_ Hin]. by eapply entries_known.
Qed.

(** A signal as a vote of a ranking: it repeats the candidate's rank and is worth
    [1 / (60 + rank)]. *)
Definition votes_for_ranking (rankings : list (pystr * list KnowledgeCandidate))
    (h : KnowledgeHit) (s : RankingSignal) : Prop :=
  ∃ cs c, (source s, cs) ∈ rankings ∧ c ∈ cs ∧ revision_of c = revision_of_hit h ∧
    source_rank s = source_rank (signal c) ∧
    contribution s = Some (fdiv (float_of_int 1) (fadd RRF_K (float_of_int (source_rank s)))).

(** A signal as a vote of a discovery of the hit's revision. *)
Definition votes_for_discovery (ds : list ResourceDiscoverySignal) (h : KnowledgeHit)
    (s : RankingSignal) : Prop :=
  ∃ d, d ∈ ds ∧ resource_revision_key d = revision_of_hit h ∧
    source s = source (disc_signal d) ∧ source_rank s = source_rank (disc_signal d) ∧
    contribution s = Some (fdiv (fusion_weight d) (fadd RRF_K (float_of_int (source_rank s)))).

(** C17: reciprocal rank fusion with one vote per source: the signals of a returned
    hit come from distinct sources, each is worth the reciprocal of its shifted
    rank (weighted for a discovery), and the score of the hit is their exact sum
    rounded once, whatever clusters were merged into it.  The rankings have names
    of their own, which no discovery source has ([separate_sources]). *)
Theorem one_vote_per_source casefold float_repr check rankings ds limit max_per_resource
    min_section_distance include_history hits omitted h :
  NoDup rankings.*1 → separate_sources rankings ds →
  search_fusion casefold float_repr check rankings ds limit max_per_resource
    min_section_distance include_history = Ok (hits, omitted) →
  h ∈ hits →
  NoDup (source <$> signals h) ∧
  fused_score h = rounded_sum (signal_share <$> signals h) ∧
  ∀ s, s ∈ signals h → votes_for_ranking rankings h s ∨ votes_for_discovery ds h s.
Proof.
  intros Hnd Hsep Hrun Hh. destruct (returned_hit_ok h Hnd Hrun Hh) as (acc&h0&Hacc&_&E&Hok).
  destruct (unranked_fields _ _ E) as (Er&Ev&_&Es&Ef).
  destruct Hok as [_ Hv Hd _ Hf _]. rewrite Es, Ef.
  split; [by apply Hd|]. split; [done|]. intros s Hs.
  assert (revision_of_hit h = revision_of_hit h0) as Erev
    by (unfold revision_of_hit; by rewrite Er, Ev).
  destruct (Hv s Hs) as [(name&c&k&Hin&Hc&->)|(d&Hin&Hkey&->)]; [left|right].
  - destruct (recorded_known _ _ _ _ _ _ Hacc Hin) as (cs&Hcs&Hcc&_).
    exists cs, c. by rewrite Erev.
  - exists d. by rewrite Erev.
Qed.

Lemma example_separate : separate_sources example_rankings [example_discovery].
Proof. intros d ->%list_elem_of_singleton. apply (bool_decide_unpack _). vm_compute. exact I. Qed.

Lemma one_vote_per_source_witness :
  ∃ h, h ∈ example_hits ∧ NoDup (source <$> signals h) ∧
    fused_score h = rounded_sum (signal_share <$> signals h) ∧
    ∀ s, s ∈ signals h →
      votes_for_ranking example_rankings h s ∨ votes_for_discovery [example_discovery] h s.
Proof.
  destruct (example_hits !! 0%nat) as [h|] eqn:E; [|vm_compute in E; discriminate].
  exists h. apply list_elem_of_lookup_2 in E. split; [done|].
  exact (one_vote_per_source id (λ _, []) None example_rankings [example_discovery] 10 5 50
    false example_hits 0 h example_names example_separate example_run_ok E).
Defined.

(** C25: a search returns only what a ranking found and history allows: the
    resource, the revision and the evidence of a returned hit are those of one
    candidate of one ranking, never of a discovery; the resource is no duplicate;
    and unless history was asked for neither the resource is superseded nor the
    revision historical or superseded. *)
Theorem hits_are_grounded_and_visible casefold float_repr check rankings ds limit
    max_per_resource min_section_distance include_history hits omitted h :
  NoDup rankings.*1 →
  search_fusion casefold float_repr check rankings ds limit max_per_resource
    min_section_distance include_history = Ok (hits, omitted) →
  h ∈ hits →
  (∃ name cs c, (name, cs) ∈ rankings ∧ c ∈ cs ∧ hit_resource h = resource c ∧
     hit_revision h = revision c ∧ hit_evidence h = evidence c) ∧
  disposition (hit_resource h) ≠ Some DUPLICATE ∧
  (include_history = false →
   disposition (hit_resource h) ≠ Some SUPERSEDED ∧
   state (hit_revision h) ≠ HISTORICAL ∧ state (hit_revision h) ≠ SUPERSEDED_REVISION).
Proof.
  intros Hnd Hrun Hh. destruct (returned_hit_ok h Hnd Hrun Hh) as (acc&h0&Hacc&_&E&Hok).
  destruct (unranked_fields _ _ E) as (->&->&->&_&_).
  destruct (hit_grounded _ _ _ _ _ Hok) as (name&c&k&Hin&->&->&->).
  destruct (recorded_known _ _ _ _ _ _ Hacc Hin) as (cs&Hcs&Hcc&Hvis).
  split; [by exists name, cs, c|]. revert Hvis. unfold candidate_is_visible.
  case_bool_decide; [done|]. destruct include_history; intros Hvis; [done|].
  split; [done|]. intros _. by bool_prop.
Qed.

Lemma hits_are_grounded_and_visible_witness :
  ∃ h, h ∈ example_hits ∧
    (∃ name cs c, (name, cs) ∈ example_rankings ∧ c ∈ cs ∧ hit_resource h = resource c ∧
       hit_revision h = revision c ∧ hit_evidence h = evidence c) ∧
    disposition (hit_resource h) ≠ Some DUPLICATE ∧
    (false = false →
     disposition (hit_resource h) ≠ Some SUPERSEDED ∧
     state (hit_revision h) ≠ HISTORICAL ∧ state (hit_revision h) ≠ SUPERSEDED_REVISION).
Proof.
  destruct (example_hits !! 1%nat) as [h|] eqn:E; [|vm_compute in E; discriminate].
  exists h. apply list_elem_of_lookup_2 in E. split; [done|].
  exact (hits_are_grounded_and_visible id (λ _, []) None example_rankings [example_discovery]
    10 5 50 false example_hits 0 h example_names example_run_ok E).
Defined.

(** A result never mixes a coherent witness with a hard negative: when some
    returned hit carries a coherent vote of a ranking, no returned hit carries a
    ranking's vote marked as a different structure. *)
Theorem coherent_excludes_mismatch casefold float_repr check rankings ds limit
    max_per_resource min_section_distance include_history hits omitted h1 h2 s1 s2 :
  NoDup rankings.*1 → separate_sources rankings ds →
  search_fusion casefold float_repr check rankings ds limit max_per_resource
    min_section_distance include_history = Ok (hits, omitted) →
  h1 ∈ hits → s1 ∈ signals h1 → source s1 ∈ rankings.*1 → coherent s1 = true →
  h2 ∈ hits → s2 ∈ signals h2 → source s2 ∈ rankings.*1 →
  hard_mismatch s2 = false.
Proof.
  intros Hnd Hsep Hrun Hh1 Hs1 Hn1 Hcoh Hh2 Hs2 Hn2.
  destruct (returned_hit_ok h1 Hnd Hrun Hh1) as (acc&_&Hacc&Hall&_&_).
  assert (∀ h s, h ∈ hits → s ∈ signals h → source s ∈ rankings.*1 →
    ∃ name c k, (name, c, k) ∈ recorded acc ∧ query_support s = query_support (signal c)) as Hvote.
  { intros h s Hh Hs Hn. destruct (Hall h Hh) as (h0&E&Hok).
    destruct (unranked_fields _ _ E) as (_&_&_&Es&_). rewrite Es in Hs.
    destruct (hit_votes _ _ _ _ _ Hok s Hs) as [(name&c&k&Hin&_&->)|(d&Hin&_&->)].
    - by exists name, c, k.
    - by apply Hsep in Hin. }
  destruct (Hvote h1 s1 Hh1 Hs1 Hn1) as (n1&c1&k1&Hin1&E1).
  destruct (Hvote h2 s2 Hh2 Hs2 Hn2) as (n2&c2&k2&Hin2&E2).
  assert (structured_coherent acc = true) as Hflag.
  { rewrite (coherence_known _ _ _ Hacc). apply existsb_exists.
    apply list_elem_of_filter in Hin1 as [_ Hin1]. exists (n1, c1, k1).
    split; [by apply list_elem_of_In|]. unfold coherent in *. cbn. by rewrite <- E1. }
  apply list_elem_of_filter in Hin2 as [Hk _]. unfold kept, hard_negative in Hk.
  rewrite Hflag in Hk. unfold hard_mismatch in *. rewrite E2. exact Hk.
Qed.

(** The signal [j] of the hit [i] of the example, where there is one. *)
Definition example_signal_at (i j : nat) : option RankingSignal :=
  h ← example_hits !! i; signals h !! j.

Definition coherent_at (i j : nat) : bool := default false (coherent <$> example_signal_at i j).
Definition source_at (i j : nat) : pystr := default [] (source <$> example_signal_at i j).

Lemma example_signal_of i j s :
  example_signal_at i j = Some s → ∃ h, h ∈ example_hits ∧ s ∈ signals h.
Proof.
  unfold example_signal_at. destruct (example_hits !! i) as [h|] eqn:E; [|done]. cbn. intros H.
  exists h. by split; eapply list_elem_of_lookup_2.
Qed.

Lemma coherent_excludes_mismatch_witness :
  ∃ h1 h2 s1 s2, s1 ∈ signals h1 ∧ coherent s1 = true ∧ s2 ∈ signals h2 ∧
    hard_mismatch s2 = false.
Proof.
  assert (coherent_at 0 1 = true) as C1 by (vm_compute; reflexivity).
  assert (source_at 0 1 = py "lexical") as N1 by (vm_compute; reflexivity).
  assert (source_at 1 0 = py "lexical") as N2 by (vm_compute; reflexivity).
  unfold coherent_at, source_at in *.
  destruct (example_signal_at 0 1) as [s1|] eqn:S1; [|discriminate C1].
  destruct (example_signal_at 1 0) as [s2|] eqn:S2; [|discriminate N2].
  destruct (example_signal_of _ _ _ S1) as (h1&H1&T1).
  destruct (example_signal_of _ _ _ S2) as (h2&H2&T2).
  exists h1, h2, s1, s2. split; [exact T1|]. split; [exact C1|]. split; [exact T2|].
  apply (coherent_excludes_mismatch id (λ _, []) None example_rankings [example_discovery]
    10 5 50 false example_hits 0 h1 h2 s1 s2 example_names example_separate example_run_ok
    H1 T1).
  - change (source s1 = py "lexical") in N1. rewrite N1. apply list_elem_of_here.
  - exact C1.
  - exact H2.
  - exact T2.
  - change (source s2 = py "lexical") in N2. rewrite N2. apply list_elem_of_here.
Defined.

(** The result of a fusion, its exceptions included, does not depend on the
    order in which the mapping of rankings lists its names. *)
Theorem mapping_order_is_irrelevant casefold float_repr check overlap_check rankings rankings'
    ds limit max_per_resource min_section_distance include_history rrf_k :
  NoDup rankings.*1 → rankings ≡ₚ rankings' →
  fuse_evidence_rankings casefold float_repr check overlap_check rankings ds limit
    max_per_resource min_section_distance include_history rrf_k =
  fuse_evidence_rankings casefold float_repr check overlap_check rankings' ds limit
    max_per_resource min_section_distance include_history rrf_k.
Proof.
  intros Hnd Hp. unfold fuse_evidence_rankings, collect_aggregates.
  rewrite (sort_by_unique cmp_str fst rankings rankings'); [done..|].
  intros [n1 c1] [n2 c2] H1 H2 E%(cmp_eq cmp_str). cbn in E. subst n2. f_equal.
  apply (elem_dget _ _ _ Hnd) in H1. apply (elem_dget _ _ _ Hnd) in H2. congruence.
Qed.

Lemma mapping_order_is_irrelevant_witness :
  search_fusion id (λ _, []) None (reverse example_rankings) [example_discovery] 10 5 50 false =
  Ok (example_hits, 0).
Proof.
  rewrite <- example_run_ok. symmetry.
  apply (mapping_order_is_irrelevant id (λ _, []) None overlaps_or_too_close example_rankings
    (reverse example_rankings) [example_discovery] 10 5 50 false RRF_K example_names).
  by rewrite reverse_Permutation.
Defined.

(** [h1] does not come after [h2] in the order of the diversity stage. *)
Definition hit_before (h1 h2 : KnowledgeHit) : Prop :=
  ∃ k1 k2, hit_order h1 = Ok k1 ∧ hit_order h2 = Ok k2 ∧ cmp_le cmp_hit_order k1 k2.

Lemma hit_before_unranked h1 h2 : hit_before (unranked h1) (unranked h2) ↔ hit_before h1 h2.
Proof. done. Qed.

Lemma sorted_clusters selected clustered :
  sorted cmp_hit_order hit_order selected = Ok clustered →
  StronglySorted hit_before clustered.
Proof. intros H. apply (sorted_spec cmp_hit_order hit_order) in H; [done|]. apply _. Qed.

(** C22: the diversity stage returns a bounded best prefix: at most [limit] hits, at
    most [max_per_resource] of one resource, ranked 1, 2, ... in the order of
    their keys, each cluster at most once; the omitted clusters are counted
    exactly; and a cluster that is not returned either belongs to a resource that
    is full, or was preceded by [limit] returned hits that do not come after
    it. *)
Theorem diverse_prefix_is_greedy selected limit max_per_resource hits omitted :
  1 <= limit → 1 <= max_per_resource →
  apply_diversity selected limit max_per_resource = Ok (hits, omitted) →
  zlen hits <= limit ∧ (∀ rid, hits_of rid hits <= max_per_resource) ∧
  (∀ i h, hits !! i = Some h → rank h = Z.of_nat i + 1) ∧
  StronglySorted hit_before hits ∧
  (unranked <$> hits) ⊆+ (unranked <$> selected) ∧
  0 <= omitted ∧ omitted + zlen hits = zlen selected ∧
  ∀ h, h ∈ selected → unranked h ∈ unranked <$> hits ∨
    max_per_resource <= hits_of (resource_id (hit_resource h)) hits ∨
    limit <= zlen hits ∧ ∀ h', h' ∈ hits → hit_before h' h.
Proof.
  intros Hl Hm. unfold apply_diversity. intros H. inv_ok. rename x into clustered.
  rename select (sorted _ _ _ = _) into Hs. pose proof (sorted_clusters _ _ Hs) as Hss.
  apply sorted_perm in Hs. rename select (diversify _ _ _ _ _ _ = _) into Hd.
  apply diversify_spec in Hd as (tail&acc&->&Hinv&Hsub&Hn&Hom&Hmax);
    [|apply diversify_inv_empty]. cbn [app] in *. destruct Hinv as [Hc Hb Hlen Hr].
  assert (StronglySorted hit_before (unranked <$> clustered)) as Hss'
    by (apply (StronglySorted_fmap unranked hit_before); [by intros|done]).
  split; [lia|]. split; [intros rid; specialize (Hb rid); lia|]. split; [done|].
  split; [|split; [|split; [lia|split]]].
  - apply (pairwise_sublist _ _ _ Hsub) in Hss'. clear -Hss'.
    induction tail as [|h tail IH]; csimpl in *; [constructor|].
    inversion Hss' as [|? ? Hss Hh]; subst. constructor; [by apply IH|].
    apply (Forall_fmap unranked) in Hh. eapply Forall_impl; [exact Hh|]. by intros x.
  - rewrite <- Hs. by apply sublist_submseteq.
  - rewrite <- (Permutation_length Hs). cbn in Hn. lia.
  - intros h Hh. rewrite <- Hs in Hh. destruct (Hmax h Hh) as [?|[?|(Hlim&b&a&->&Hbef)]];
      [by left|by right; left|right; right]. split; [done|]. intros h' Hh'.
    rewrite <- hit_before_unranked. rewrite fmap_app, fmap_cons in Hss'.
    apply (StronglySorted_app_1_elem_of _ _ _ _ _ Hss'); [|apply list_elem_of_here].
    by apply Hbef, list_elem_of_fmap_2.
Qed.

Lemma diverse_prefix_is_greedy_witness :
  ∃ hits, apply_diversity example_hits 1 1 = Ok (hits, 1) ∧ zlen hits <= 1.
Proof.
  destruct (apply_diversity example_hits 1 1) as [[hits om]|e] eqn:E;
    [|vm_compute in E; discriminate].
  assert (om = 1) as -> by (vm_compute in E; congruence).
  exists hits. split; [done|].
  exact (proj1 (diverse_prefix_is_greedy example_hits 1 1 hits 1 ltac:(lia) ltac:(lia) E)).
Defined.

(** ** The look-ups and assertions of the code never fail *)

(** The run did not end in a failed look-up or assertion. *)
Definition sound {A} (r : result KnowledgeError A) : Prop :=
  match r with Err IndexError | Err AssertionError => False | _ => True end.

Lemma sound_bind {A B} (r : result KnowledgeError A) (f : A → result KnowledgeError B) :
  sound r → (∀ a, r = Ok a → sound (f a)) → sound (r ≫= f).
Proof. destruct r as [a|[]]; cbn; auto. Qed.

Lemma sound_value_error_if b m : sound (value_error_if b m).
Proof. by destruct b. Qed.

Lemma sound_required_text name s : sound (required_text name s).
Proof. unfold required_text. apply sound_bind; [apply sound_value_error_if|done]. Qed.

Lemma sound_optional_text name s : sound (optional_text name s).
Proof. unfold optional_text. apply sound_bind; [apply sound_value_error_if|done]. Qed.

Lemma sound_each_required name ts : sound (each_required name ts).
Proof.
  induction ts as [|t ts IH]; cbn; [done|]. by apply sound_bind; [apply sound_required_text|].
Qed.

Create HintDb sound discriminated.
#[local] Hint Resolve sound_value_error_if sound_required_text sound_optional_text
  sound_each_required : sound.
#[local] Hint Extern 1 (sound (Ok _)) => exact I : sound.

Ltac sound :=
  repeat first
    [ solve [eauto 2 with sound]
    | apply sound_bind; [|intros ? ?]
    | match goal with |- sound (match ?x with _ => _ end) => destruct x eqn:? end ].

Lemma sound_validate_signal float_repr s : sound (validate_ranking_signal float_repr s).
Proof.
  unfold validate_ranking_signal. sound. by destruct (dumps float_repr _).
Qed.

Lemma sound_copied_signal float_repr s : sound (copied_signal float_repr s).
Proof. unfold copied_signal. apply sound_bind; [apply sound_validate_signal|done]. Qed.

Lemma sound_built_hit h : sound (built_hit h).
Proof. unfold built_hit, validate_knowledge_hit. sound. Qed.

Lemma sound_checkpoint check s : sound (checkpoint check s).
Proof. unfold checkpoint. destruct check as [f|]; [by destruct (f s)|done]. Qed.

Lemma sound_periodic check p s : sound (periodic_checkpoint check p s).
Proof. unfold periodic_checkpoint. case_match; [apply sound_checkpoint|done]. Qed.

Lemma sound_to_float z : sound (to_float z).
Proof. unfold to_float. by case_match. Qed.

Lemma sound_true_div a b : sound (true_div a b).
Proof. unfold true_div. by case_match. Qed.

Lemma sound_math_fsum fs : sound (math_fsum fs).
Proof. unfold math_fsum. by repeat case_match. Qed.

Lemma sound_number v : sound (number v).
Proof. unfold number. sound. apply sound_to_float. Qed.

Lemma sound_score a : sound (score a).
Proof. apply sound_math_fsum. Qed.

#[local] Hint Resolve sound_copied_signal sound_built_hit sound_checkpoint sound_periodic
  sound_to_float sound_true_div sound_math_fsum sound_number sound_score : sound.

Lemma sound_map_result {A B} (f : A → result KnowledgeError B) l :
  (∀ x, x ∈ l → sound (f x)) → sound (map_result f l).
Proof.
  induction l as [|x l IH]; intros Hf; cbn; [done|]. sound.
  - apply Hf, list_elem_of_here.
  - apply IH. intros y Hy. by apply Hf, list_elem_of_further.
Qed.

Lemma sound_sorted {A K} (c : K → K → comparison) (key : A → result KnowledgeError K) l :
  (∀ x, sound (key x)) → sound (sorted c key l).
Proof. intros Hk. unfold sorted. sound. by apply sound_map_result. Qed.

Lemma sound_scan_ranking casefold check ih name cs : ∀ position seen acc,
  sound (scan_ranking casefold check ih name cs position seen acc).
Proof.
  induction cs as [|c cs IH]; intros position seen acc; cbn [scan_ranking]; [done|].
  sound; apply IH.
Qed.

Lemma sound_scan_rankings casefold check ih rankings : ∀ acc,
  sound (scan_rankings casefold check ih rankings acc).
Proof.
  induction rankings as [|[name cs] rankings IH]; intros acc; cbn [scan_rankings]; [done|].
  sound. apply sound_scan_ranking.
Qed.

Lemma sound_record_candidate float_repr aggregates key c name k :
  sound (record_candidate float_repr aggregates key c name k).
Proof. unfold record_candidate. sound. Qed.

Lemma sound_record_pending float_repr coh pending k : ∀ aggregates,
  sound (record_pending float_repr coh pending k aggregates).
Proof.
  induction pending as [|[[name c] key] pending IH]; intros aggregates; cbn [record_pending];
    [done|]. sound.
Qed.

Lemma sound_boost float_repr aggregates d k key keys :
  (∀ k', k' ∈ key :: keys → is_Some (dget k' aggregates)) →
  sound (boost float_repr aggregates d k key keys).
Proof.
  intros Hel. unfold boost. apply sound_bind.
  - apply sound_map_result. intros k' [a Ha]%Hel. unfold best_order. rewrite Ha. cbn. sound.
  - intros orders Ho%best_orders_keys. apply sound_bind; [|intros a Ha; sound].
    destruct orders as [|o os]; [done|]. rewrite <- Ho in Hel. cbv zeta. csimpl in Hel.
    destruct (Hel (min_by (lex fcmp cmp_key) id o os).2) as [a ->]; [|done].
    apply (list_elem_of_fmap_2 snd (o :: os)), min_by_elem.
Qed.

Section discoveries_sound.
Variables (float_repr : pyfloat → pystr) (check : callback) (k : pyfloat)
  (names : list pystr) (entries : list (pystr * KnowledgeCandidate * EvidenceKey))
  (all : list ResourceDiscoverySignal) (separate : Prop)
  (eligible : pystr * pystr → list EvidenceKey).
Hypothesis separate_names : separate → ∀ d, d ∈ all → source (disc_signal d) ∉ names.

Lemma sound_apply_discoveries ds : ∀ position seen aggregates,
  ds ⊆ all → discovery_inv k separate names entries all eligible seen aggregates →
  sound (apply_discoveries float_repr check eligible ds position seen k aggregates).
Proof.
  induction ds as [|d ds IH]; intros position seen aggregates Hsub Hinv;
    cbn [apply_discoveries]; [done|].
  apply cons_subseteq in Hsub as [Hd Hsub]. cbv zeta. apply sound_bind; [sound|]. intros _ _.
  destruct (bool_decide _) eqn:Hseen; bool_prop; [by apply IH|].
  destruct (eligible (resource_revision_key d)) as [|key keys] eqn:Hkeys.
  - apply IH; [done|]. eapply discovery_inv_seen; [|done]. set_solver.
  - apply sound_bind.
    + apply sound_boost. intros k'. rewrite <- Hkeys.
      intros (a&Ha&_)%(eligible_known _ _ _ _ _ _ _ _ Hinv). by exists a.
    + intros aggregates' Hb. apply IH; [done|]. by eapply boost_ok.
Qed.
End discoveries_sound.

(** ** Soundness of the clustering *)

Section cluster_sound.
Variables (check : callback)
  (overlap_check : EvidenceRef → EvidenceRef → Z → result KnowledgeError bool) (d : Z)
  (good : EvidenceRef → Prop).
Hypothesis overlap_sound : ∀ a b, good a → good b → sound (overlap_check a b d).

Lemma sound_find_overlap prior selected c :
  (∀ i, i ∈ prior → is_Some (selected !! i)) → good (evidence c) →
  Forall (λ h, good (hit_evidence h)) selected →
  sound (find_overlap_index overlap_check prior selected c d).
Proof.
  intros Hp Hc Hs. pose proof (find_overlap_spec overlap_check d prior selected c Hp) as H.
  destruct (find_overlap_index _ _ _ _ _) as [o|e]; [done|].
  destruct H as (i&h&Hh&He).
  pose proof (overlap_sound (hit_evidence h) (evidence c)
    (Forall_lookup_1 _ _ _ _ Hs Hh) Hc) as Ho. rewrite He in Ho. exact Ho.
Qed.

Lemma sound_cluster_loop ordered : ∀ position selected by_resource,
  cluster_inv overlap_check d selected by_resource →
  Forall (λ h, good (hit_evidence h)) selected →
  (∀ k a, (k, a) ∈ ordered → good (evidence (candidate a))) →
  sound (cluster_loop check overlap_check ordered position d selected by_resource).
Proof.
  induction ordered as [|[k a] rest IH]; intros position selected by_resource Hinv Hsel Hgood;
    cbn [cluster_loop]; [done|].
  assert (good (evidence (candidate a))) as Ha by (eapply Hgood, list_elem_of_here).
  assert (∀ k a, (k, a) ∈ rest → good (evidence (candidate a))) as Hrest.
  { intros k' a' Hin. eapply Hgood. by apply list_elem_of_further. }
  pose proof (indices_some _ _ _ _ (resource_id (resource (candidate a))) Hinv) as Hidx.
  cbv zeta. apply sound_bind; [sound|]. intros _ _. apply sound_bind.
  { by apply sound_find_overlap. }
  intros [index|] Hfind.
  - pose proof (find_overlap_spec overlap_check d _ selected (candidate a) Hidx) as Hs.
    rewrite Hfind in Hs. destruct Hs as (Hin&h&Hh&_). rewrite Hh. cbn [or_raise mbind result_bind].
    apply sound_bind; [unfold merged_overlap_hit; cbv zeta; sound|]. intros h' Hm.
    pose proof (merged_hit_keeps _ _ _ Hm) as (?&?&Hev&_).
    apply IH; [by eapply cluster_inv_merge| |done]. apply Forall_insert; [done|]. rewrite Hev.
    exact (Forall_lookup_1 _ _ _ _ Hsel Hh).
  - apply sound_bind; [unfold new_hit; cbv zeta; sound|]. intros h Hnew.
    apply IH; [by apply cluster_inv_new| |done]. apply Forall_app. split; [done|].
    apply Forall_singleton. by apply new_hit_is in Hnew as (_&_&->&_).
Qed.
End cluster_sound.

Lemma sound_overlap a b d :
  validate_evidence_ref a = Ok tt → validate_evidence_ref b = Ok tt →
  sound (overlaps_or_too_close a b d).
Proof.
  intros Ha%valid_offsets Hb%valid_offsets. unfold overlaps_or_too_close.
  destruct (_ || _); [exact I|].
  destruct (start_char a), (end_char a), (start_char b), (end_char b); try done; cbn;
    case_match; exact I.
Qed.

Lemma sound_aggregate_order ka : sound (aggregate_order ka).
Proof. unfold aggregate_order. sound. Qed.

Lemma sound_hit_order h : sound (hit_order h).
Proof.
  unfold hit_order, hit_support_order, numbers. sound. apply sound_map_result.
  intros x _. apply sound_number.
Qed.

Lemma sound_diversify clustered limit cap : ∀ diverse accepted omitted,
  sound (diversify clustered limit cap diverse accepted omitted).
Proof.
  induction clustered as [|h clustered IH]; intros diverse accepted omitted;
    cbn [diversify]; [done|]. cbv zeta. sound.
Qed.

(** A search over candidates that their constructors accepted never ends in a
    failed assertion, a missing dictionary key or an index out of range: it
    returns its hits or raises one of the errors it documents. *)
Theorem lookups_and_assertions_hold casefold float_repr check rankings ds limit
    max_per_resource min_section_distance include_history :
  NoDup rankings.*1 → evidence_constructed rankings →
  sound (search_fusion casefold float_repr check rankings ds limit max_per_resource
    min_section_distance include_history).
Proof.
  intros Hnd Hcon. unfold search_fusion, fuse_evidence_rankings.
  apply sound_bind; [unfold validate_options; sound|]. intros _ _.
  apply sound_bind; [unfold collect_aggregates; sound;
    first [apply sound_scan_rankings|apply sound_record_pending]|].
  intros aggregates Hagg. apply collect_spec in Hagg as (acc&Hacc&Hok); [|done].
  assert (∀ e, e ∈ recorded acc → e.1.1 ∈ rankings.*1) as Hnames by (intros e; by eapply recorded_names).
  apply sound_bind.
  { unfold apply_discovery_signals. cbv zeta.
    apply (sound_apply_discoveries float_repr check RRF_K rankings.*1 (recorded acc) ds
      (separate_sources rankings ds) (eligible_keys aggregates));
      [intros H; exact H|apply ordered_discoveries|exact (initial_discovery_inv rankings ds RRF_K
        (recorded acc) aggregates Hnames Hok)]. }
  intros boosted Hb. apply (discovery_spec float_repr check rankings ds RRF_K (recorded acc)) in Hb as [_ Hb];
    [|done..].
  apply sound_bind; [|intros selected _; unfold apply_diversity; apply sound_bind;
    [apply sound_sorted, sound_hit_order|intros clustered _; apply sound_diversify]].
  unfold cluster_evidence. apply sound_bind; [apply sound_sorted, sound_aggregate_order|].
  intros ordered Hord%sorted_perm.
  apply (sound_cluster_loop check overlaps_or_too_close min_section_distance
    (λ e, validate_evidence_ref e = Ok tt)); [by intros a b; apply sound_overlap
    |apply cluster_inv_empty|constructor|].
  intros k a Hin. rewrite Hord in Hin. destruct (own_candidate _ _ _ _ _ _ (Hb k a Hin)) as [name He].
  apply list_elem_of_filter in He as [_ He]. by eapply constructed_entry.
Qed.

Lemma lookups_and_assertions_hold_witness :
  sound (search_fusion id (λ _, []) None example_rankings [example_discovery] 10 5 50 false).
Proof.
  apply (lookups_and_assertions_hold id (λ _, []) None example_rankings [example_discovery]
    10 5 50 false example_names example_constructed).
Defined.
