(* ===== verification/ContentIO.v ===== *)
(** * Reading the content of a file (deduplication/fingerprinting.py)

    The opening of a file without following links, its complete SHA-256 digest,
    the byte-for-byte comparison of two files, the observation of a digest
    (deduplication/content_observation.py) and the comparison as the planner runs
    it ([_compare_exact] of deduplication/planning/planner.py).

    The kernel is adversarial: a [FileRun] holds its answers while one file is
    open, whatever they are.  Reads may be short, may end anywhere and may never
    end; a failed system call is [None].  The state holds the descriptors that
    are open, and a close does not fail.  The SHA-256 function is a parameter.  Calls without an observer
    of reads are those that ignore [observed]. *)

From S2P Require Import Prelude DedupKeeper DedupPlan.

#[global] Open Scope Z_scope.

(** ** Stat results *)

Record os_stat : Type := {
  st_dev : Z;
  st_ino : Z;
  st_size : Z;
  st_mtime_ns : Z;
  st_ctime_ns : Z;
  st_birthtime_ns : option Z;
  st_nlink : Z;
  is_regular : bool
}.

Definition UNAVAILABLE_BIRTHTIME_NS : Z := -1.

Definition stat_birthtime_ns (st : os_stat) : Z :=
  default UNAVAILABLE_BIRTHTIME_NS (st_birthtime_ns st).

Definition stat_matches_snapshot (s : FileSnapshot) (st : os_stat) : bool :=
  let birth := stat_birthtime_ns st in
  let birthtime_matches :=
    (birth =? birthtime_ns s) ||
    ((birth =? -1) && (0 <=? birthtime_ns s) && (birthtime_ns s =? st_ctime_ns st)) in
  (st_dev st =? volume_id s) && (st_ino st =? file_id s) && (st_size st =? size s) &&
  (st_mtime_ns st =? mtime_ns s) && birthtime_matches.

(** ** The kernel's answers and the process state *)

Record FileRun : Type := {
  walk : nat → bool;                      (* does the i-th os.open succeed *)
  opened_stat : option os_stat;           (* the fstat after the opening *)
  fdopen_ok : bool;
  before_stat : option os_stat;           (* the fstat before the reads *)
  reads : nat → option (list byte);       (* the i-th readinto *)
  after_stat : option os_stat             (* the fstat after the reads *)
}.

(** [directory_descriptor] and [file_descriptor] are the local variables of
    [open_regular_descriptor]; [polls] counts the checkpoints. *)
Record OS : Type := {
  fds : gset Z;
  directory_descriptor : option Z;
  file_descriptor : option Z;
  polls : nat;
  observed_bytes : Z
}.

#[export] Instance OS_eta : Eta OS := λ o,
  {| fds := fds o; directory_descriptor := directory_descriptor o;
     file_descriptor := file_descriptor o; polls := polls o;
     observed_bytes := observed_bytes o |}.

Inductive content_error : Type :=
| FileChangedError
| OSFailed
| Cancelled
| ChunkSizeTooSmall
| WrongAlgorithm
| LoopFuelExhausted.

Abbreviation IO := (stm OS content_error).

(** [try: m except OSError as exc: raise FileChangedError(...) from exc] *)
Definition os_error_is_change {A} (m : IO A) : IO A :=
  λ s, match m s with (s', Err OSFailed) => (s', Err FileChangedError) | r => r end.

(** [try: m finally: h] *)
Definition finally {A} (m : IO A) (h : OS → OS) : IO A :=
  λ s, match m s with (s', r) => (h s', r) end.

(** A step of the kernel beside a local variable. *)
Definition on_os {A} (m : IO A) : stm (OS * Z) content_error A :=
  λ st, match m st.1 with (o, r) => ((o, st.2), r) end.

Definition os_open (succeeds : bool) : IO Z :=
  if succeeds then
    o ← get_state;
    let fd := fresh (fds o) in
    modify (upd fds (union {[fd]}));;
    mret fd
  else throw OSFailed.

Definition os_fstat (answer : option os_stat) : IO os_stat :=
  match answer with Some st => mret st | None => throw OSFailed end.

(** [_close_quietly] *)
Definition close_quietly (fd : option Z) : OS → OS :=
  match fd with Some n => upd fds (λ open, open ∖ {[n]}) | None => id end.

Definition assert_unchanged (s : FileSnapshot) (st : os_stat) : IO unit :=
  throw_if (negb (stat_matches_snapshot s st)) FileChangedError.

Section content.
Variables (sha256 : list byte → list byte) (working_directory : pystr)
  (cancelled : option (nat → bool)).

(** [if checkpoint is not None: checkpoint()]: the n-th poll of the callback. *)
Definition poll : IO unit :=
  match cancelled with
  | None => mret tt
  | Some raises =>
      o ← get_state;
      modify (upd polls S);;
      throw_if (raises (polls o)) Cancelled
  end.

(** ** Opening a regular file *)

(** [Path(native_io_path(path)).parts] *)
Definition path_parts (p : pystr) : list pystr :=
  let absolute := abspath working_directory p in
  (if starts_with (py "//") absolute then py "//" else py "/") ::
  List.filter (λ c, negb (bool_decide (c = []))) (split_slash [] absolute).

(** The loop over the directories between the root and the file. *)
Fixpoint open_directories (run : FileRun) (i : nat) (components : list pystr) : IO unit :=
  match components with
  | [] => mret tt
  | _ :: rest =>
      next_descriptor ← os_open (walk run i);
      o ← get_state;
      modify (close_quietly (directory_descriptor o));;
      modify (upd directory_descriptor (λ _, Some next_descriptor));;
      open_directories run (S i) rest
  end.

(** The body of the [try] of [_open_regular_descriptor]. *)
Definition open_walk (s : FileSnapshot) (run : FileRun) (components : list pystr) : IO Z :=
  root ← os_open (walk run 0);
  modify (upd directory_descriptor (λ _, Some root));;
  let middle := take (length components - 2) (drop 1 components) in
  open_directories run 1 middle;;
  fd ← os_open (walk run (S (length middle)));
  modify (upd file_descriptor (λ _, Some fd));;
  observed ← os_fstat (opened_stat run);
  throw_if (negb (is_regular observed)) FileChangedError;;
  assert_unchanged s observed;;
  o ← get_state;
  modify (close_quietly (directory_descriptor o));;
  modify (upd directory_descriptor (λ _, None));;
  mret fd.

(** The handler of the [try]. *)
Definition close_both (o : OS) : OS :=
  close_quietly (directory_descriptor o) (close_quietly (file_descriptor o) o).

Definition open_regular_descriptor (s : FileSnapshot) (run : FileRun) : IO Z :=
  let components := path_parts (path s) in
  throw_if (negb (bool_decide (head components = Some (py "/"))) ||
            (length components =? 1)%nat) FileChangedError;;
  modify (upd directory_descriptor (λ _, None));;
  modify (upd file_descriptor (λ _, None));;
  on_error (open_walk s run components) close_both.

(** [with _open_regular_stream(snapshot) as stream: body] *)
Definition with_stream {A} (s : FileSnapshot) (run : FileRun) (body : IO A) : IO A :=
  fd ← open_regular_descriptor s run;
  on_error (throw_if (negb (fdopen_ok run)) OSFailed) (close_quietly (Some fd));;
  finally body (close_quietly (Some fd)).

(** ** Change versions *)

Definition fingerprint_change_version (s : FileSnapshot) (run : FileRun) : IO Z :=
  fd ← open_regular_descriptor s run;
  finally (st ← os_fstat (before_stat run); mret (st_ctime_ns st)) (close_quietly (Some fd)).

Definition require_fingerprint_change_version (s : FileSnapshot) (run : FileRun) (ctime_ns : Z) :
    IO unit :=
  v ← fingerprint_change_version s run;
  throw_if (negb (v =? ctime_ns)) FileChangedError.

(** ** Buffers *)

Definition DEFAULT_IO_CHUNK_SIZE : Z := 16 * 1024 * 1024.
Definition MIN_IO_CHUNK_SIZE : Z := 64 * 1024.

Definition validated_io_chunk_size (chunk_size : Z) : IO Z :=
  throw_if (chunk_size <? MIN_IO_CHUNK_SIZE) ChunkSizeTooSmall;;
  mret chunk_size.

Definition adaptive_buffer_capacity (file_size chunk_size : Z) : Z :=
  Z.min chunk_size (Z.max 1 file_size).

(** [stream.readinto(buffer)]: the bytes it delivers fill the front of the
    buffer, the rest keeps what an earlier read left. *)
Definition readinto (run : FileRun) (i : nat) : IO (list byte) :=
  match reads run i with Some bs => mret bs | None => throw OSFailed end.

Definition fill (buffer bs : list byte) : list byte := bs ++ drop (length bs) buffer.

Definition count_bytes (n : Z) : IO unit := modify (upd observed_bytes (Z.add n)).

(** ** The complete digest *)

(** The loop of [full_fingerprint]: [data] is what the hasher was updated with. *)
Fixpoint hash_loop (fuel : nat) (s : FileSnapshot) (run : FileRun) (i : nat) (bytes_read : Z)
    (data : list byte) : IO (Z * list byte) :=
  match fuel with
  | O => throw LoopFuelExhausted
  | S fuel' =>
      poll;;
      bs ← readinto run i;
      let count := zlen bs in
      if count =? 0 then mret (bytes_read, data)
      else
        count_bytes count;;
        throw_if (size s <? bytes_read + count) FileChangedError;;
        hash_loop fuel' s run (S i) (bytes_read + count) (data ++ bs)
  end.

Definition full_fingerprint (fuel : nat) (s : FileSnapshot) (run : FileRun) (chunk_size : Z) :
    IO (list byte) :=
  validated_io_chunk_size chunk_size;;
  os_error_is_change
    (poll;;
     with_stream s run
       (before ← os_fstat (before_stat run);
        '(bytes_read, data) ← hash_loop fuel s run 0 0 [];
        throw_if (negb (bytes_read =? size s)) FileChangedError;;
        after ← os_fstat (after_stat run);
        assert_unchanged s after;;
        throw_if (negb (st_ctime_ns after =? st_ctime_ns before)) FileChangedError;;
        mret (sha256 data))).

(** ** The byte-for-byte comparison *)

(** The loop of [files_equal_exact] over the reused buffers: whether no difference
    was found, and how many bytes were compared. *)
Fixpoint equal_loop (fuel : nat) (capacity : Z) (left_run right_run : FileRun) (i : nat)
    (left_buffer right_buffer : list byte) (bytes_compared : Z) : IO (bool * Z) :=
  match fuel with
  | O => throw LoopFuelExhausted
  | S fuel' =>
      poll;;
      left_bytes ← readinto left_run i;
      right_bytes ← readinto right_run i;
      let left_count := zlen left_bytes in
      let right_count := zlen right_bytes in
      let left_buffer := fill left_buffer left_bytes in
      let right_buffer := fill right_buffer right_bytes in
      count_bytes (left_count + right_count);;
      if negb (left_count =? right_count) then mret (false, bytes_compared)
      else if left_count =? 0 then mret (true, bytes_compared)
      else
        let buffers_differ :=
          if left_count =? capacity then negb (bool_decide (left_buffer = right_buffer))
          else negb (bool_decide (take (Z.to_nat left_count) left_buffer =
                                  take (Z.to_nat right_count) right_buffer)) in
        if buffers_differ then mret (false, bytes_compared + left_count)
        else equal_loop fuel' capacity left_run right_run (S i) left_buffer right_buffer
               (bytes_compared + left_count)
  end.

Definition files_equal_exact (fuel : nat) (left right : FileSnapshot)
    (left_run right_run : FileRun) (chunk_size : Z) : IO bool :=
  validated_io_chunk_size chunk_size;;
  if negb (size left =? size right) then mret false
  else
    os_error_is_change
      (poll;;
       with_stream left left_run (with_stream right right_run
         (left_before ← os_fstat (before_stat left_run);
          right_before ← os_fstat (before_stat right_run);
          let capacity := adaptive_buffer_capacity (size left) chunk_size in
          let buffer := repeat Byte.x00 (Z.to_nat capacity) in
          '(equal, bytes_compared) ← equal_loop fuel capacity left_run right_run 0 buffer buffer 0;
          throw_if (equal && negb (bytes_compared =? size left)) FileChangedError;;
          left_after ← os_fstat (after_stat left_run);
          right_after ← os_fstat (after_stat right_run);
          assert_unchanged left left_after;;
          assert_unchanged right right_after;;
          throw_if (negb (st_ctime_ns left_after =? st_ctime_ns left_before) ||
                    negb (st_ctime_ns right_after =? st_ctime_ns right_before)) FileChangedError;;
          mret equal))).

(** ** The observation of a digest *)

Record FingerprintObservation : Type := {
  obs_snapshot : FileSnapshot;
  digest : list byte;
  full_digest : option (list byte);
  ctime_ns : Z;
  computed : bool;
  cache_hit : bool;
  obs_full_reads : Z;
  obs_partial_reads : Z;
  obs_full_read_bytes : Z;
  obs_partial_read_bytes : Z;
  obs_validation_read_bytes : Z;
  reused_full_digest : bool
}.

(** What [observe_content_fingerprint] ends with: an observation, a
    [FingerprintReadFailure] with its accounting, or another exception. *)
Inductive observation_result : Type :=
| Observed (o : FingerprintObservation)
| ReadFailed (f : ReadFailure)
| ObservationRaised (e : content_error).

(** The body of its [try]: the ctime, the digest, and whether the cached evidence
    agrees.  The second part of the state is the local [full_reads], 1 once the
    reads have begun. *)
Definition observe_body (fuel : nat) (s : FileSnapshot) (version content_run fence : FileRun)
    (cached_evidence : option (list byte * list byte)) (expected_ctime_ns : option Z) :
    stm (OS * Z) content_error (Z * list byte * bool) :=
  on_os poll;;
  ctime ← on_os (fingerprint_change_version s version);
  throw_if (match expected_ctime_ns with Some e => negb (ctime =? e) | None => false end)
    FileChangedError;;
  modify (λ st, (st.1, 1));;
  d ← on_os (full_fingerprint fuel s content_run DEFAULT_IO_CHUNK_SIZE);
  let hit := bool_decide (cached_evidence = Some (d, d)) in
  on_os (require_fingerprint_change_version s fence ctime);;
  on_os poll;;
  mret (ctime, d, hit).

Definition observe_content_fingerprint (fuel : nat) (s : FileSnapshot) (algorithm_is_full : bool)
    (version content_run fence : FileRun) (cached_evidence : option (list byte * list byte))
    (expected_ctime_ns : option Z) (os : OS) : OS * observation_result :=
  if negb algorithm_is_full then (os, ObservationRaised WrongAlgorithm) else
  let validated (bytes : Z) : Z := match cached_evidence with Some _ => bytes | None => 0 end in
  match observe_body fuel s version content_run fence cached_evidence expected_ctime_ns
          (upd observed_bytes (λ _, 0) os, 0) with
  | ((os', _), Ok (ctime, d, hit)) =>
      (os', Observed
         {| obs_snapshot := s; digest := d; full_digest := Some d; ctime_ns := ctime;
            computed := true; cache_hit := hit; obs_full_reads := 1; obs_partial_reads := 0;
            obs_full_read_bytes := observed_bytes os'; obs_partial_read_bytes := 0;
            obs_validation_read_bytes := validated (observed_bytes os');
            reused_full_digest := false |})
  | ((os', begun), Err (OSFailed | FileChangedError)) =>
      (os', ReadFailed
         {| full_reads := begun; partial_reads := 0; full_read_bytes := observed_bytes os';
            partial_read_bytes := 0; validation_read_bytes := validated (observed_bytes os');
            failed_comparison_bytes := 0 |})
  | ((os', _), Err e) => (os', ObservationRaised e)
  end.

(** ** The comparison of the planner *)

(** [_compare_exact]: a change of a file carries the bytes read until then. *)
Definition compare_exact (fuel : nat) (left right : FileSnapshot)
    (left_run right_run : FileRun) (os : OS) : OS * comparison :=
  match files_equal_exact fuel left right left_run right_run DEFAULT_IO_CHUNK_SIZE
          (upd observed_bytes (λ _, 0) os) with
  | (os', Ok equal) => (os', Compared equal (Some (observed_bytes os')))
  | (os', Err FileChangedError) =>
      (os', FileChanged (Some
         {| full_reads := 0; partial_reads := 0; full_read_bytes := 0; partial_read_bytes := 0;
            validation_read_bytes := 0; failed_comparison_bytes := observed_bytes os' |}))
  | (os', Err _) => (os', ComparisonRaised)
  end.
End content.
