(* ===== verification/ContentSafety.v ===== *)
(** * What reading content guarantees

    Whatever the kernel answers, every descriptor that was opened is closed; the
    digest of a file is computed in bounded time over exactly its recorded size;
    two files are reported equal only when the same bytes were read from both,
    and under the exact policy every redundant file of a stored group has the
    content of its keeper. *)

From S2P Require Import Prelude DedupKeeper DedupPlan DedupSafety ContentIO.

#[local] Arguments path_parts : simpl never.
#[local] Arguments stat_matches_snapshot : simpl never.

(** ** Descriptors *)

Definition opt_set (o : option Z) : gset Z := match o with Some n => {[n]} | None => ∅ end.

(** Besides [base], exactly the descriptors of the local variables are open. *)
Definition holds (base : gset Z) (d f : option Z) (o : OS) : Prop :=
  directory_descriptor o = d ∧ file_descriptor o = f ∧
  fds o = opt_set d ∪ opt_set f ∪ base ∧
  opt_set d ## base ∧ opt_set f ## base ∧ opt_set d ## opt_set f.

Definition held (base : gset Z) (o : OS) : Prop := ∃ d f, holds base d f o.

(** [m] leaves the open descriptors as they were, whether it returns or raises. *)
Definition balanced {A} (m : IO A) : Prop := ∀ o, fds (m o).1 = fds o.

Lemma balanced_bind {A B} (m : IO A) (f : A → IO B) :
  balanced m → (∀ a, balanced (f a)) → balanced (m ≫= f).
Proof.
  intros Hm Hf o. specialize (Hm o). rewrite stm_bind_eq. destruct (m o) as [o1 [a|e]]; [|done].
  by rewrite (Hf a o1).
Qed.

Lemma balanced_ret {A} (a : A) : balanced (mret a : IO A).
Proof. done. Qed.

Lemma balanced_throw {A} e : balanced (throw e : IO A).
Proof. done. Qed.

Lemma balanced_throw_if b e : balanced (throw_if b e : IO unit).
Proof. done. Qed.

Lemma balanced_fstat st : balanced (os_fstat st).
Proof. by destruct st. Qed.

Lemma balanced_readinto run i : balanced (readinto run i).
Proof. unfold readinto. by destruct (reads run i). Qed.

Lemma balanced_count n : balanced (count_bytes n).
Proof. done. Qed.

Lemma balanced_poll cancelled : balanced (poll cancelled).
Proof. destruct cancelled; [|done]. intros o. done. Qed.

Lemma balanced_os_error {A} (m : IO A) : balanced m → balanced (os_error_is_change m).
Proof. intros Hm o. specialize (Hm o). unfold os_error_is_change. by destruct (m o) as [o1 [a|[]]]. Qed.

Create HintDb balanced discriminated.
#[local] Hint Resolve balanced_ret balanced_throw balanced_throw_if balanced_fstat
  balanced_readinto balanced_count balanced_poll : balanced.

Ltac balance :=
  repeat first
    [ solve [eauto 2 with balanced]
    | match goal with
      | |- balanced (os_error_is_change _) => apply balanced_os_error
      | |- balanced (_ ≫= _) => apply balanced_bind; [|intros ?]
      | |- balanced (match ?x with _ => _ end) => destruct x
      end ].

Section descriptors.
Variables (sha256 : list byte → list byte) (working_directory : pystr)
  (cancelled : option (nat → bool)).

Abbreviation open_regular_descriptor := (open_regular_descriptor working_directory).
Abbreviation with_stream := (with_stream working_directory).

(** A successful open adds one descriptor that was not open. *)
Lemma os_open_fresh b o o' fd :
  os_open b o = (o', Ok fd) → fd ∉ fds o ∧ o' = upd fds (union {[fd]}) o.
Proof.
  unfold os_open. destruct b; [|done]. rewrite get_bind. cbv zeta. rewrite modify_bind.
  intros [= <- <-]. split; [apply is_fresh|done].
Qed.

Lemma os_open_fails b o o' e : os_open b o = (o', Err e) → o' = o.
Proof. unfold os_open. destruct b; [done|]. by intros [= <- _]. Qed.

Lemma open_directories_holds base run components : ∀ i,
  triple (λ o, ∃ d, holds base (Some d) None o) (open_directories run i components)
    (λ _ o, ∃ d, holds base (Some d) None o) (held base).
Proof.
  induction components as [|c components IH]; intros i o [d Ho]; cbn [open_directories].
  { by exists d. }
  rewrite stm_bind_eq. destruct (os_open (walk run i) o) as [o1 [next|e]] eqn:Hopen.
  - apply os_open_fresh in Hopen as [Hfresh ->]. rewrite get_bind. rewrite !modify_bind.
    apply IH. exists next. destruct Ho as (Hd&Hf&Hfds&H1&H2&H3). cbn in *. rewrite Hd. cbn.
    rewrite Hfds in *. split_and!; [done|done|cbn; set_solver|cbn; set_solver|done|set_solver].
  - apply os_open_fails in Hopen as ->. exists (Some d), None. exact Ho.
Qed.

Lemma open_walk_holds base s run components :
  triple (λ o, holds base None None o) (open_walk s run components)
    (λ fd o, fd ∉ base ∧ fds o = {[fd]} ∪ base) (held base).
Proof.
  unfold open_walk. cbv zeta.
  apply (triple_bind _ _ (λ root o, directory_descriptor o = None ∧ file_descriptor o = None ∧
    fds o = {[root]} ∪ base ∧ root ∉ base)).
  { intros o Ho. destruct (os_open _ o) as [o1 [root|e]] eqn:Hopen.
    - apply os_open_fresh in Hopen as [Hfresh ->]. destruct Ho as (Hd&Hf&Hfds&_). cbn in *.
      rewrite Hfds in *. split_and!; [done|done|set_solver|set_solver].
    - apply os_open_fails in Hopen as ->. by exists None, None. }
  intros root. apply (triple_bind _ _ (λ _ o, ∃ d, holds base (Some d) None o)).
  { apply triple_modify. intros o (Hd&Hf&Hfds&Hr). exists root.
    split_and!; [done|done|cbn; set_solver|cbn; set_solver|cbn; set_solver|cbn; set_solver]. }
  intros _. apply (triple_bind _ _ (λ _ o, ∃ d, holds base (Some d) None o)).
  { apply open_directories_holds. }
  intros _. apply (triple_bind _ _ (λ fd o, ∃ d, directory_descriptor o = Some d ∧
    file_descriptor o = None ∧ fds o = {[fd]} ∪ ({[d]} ∪ base) ∧ fd ∉ base ∧ d ∉ base ∧ fd ≠ d)).
  { intros o [d Ho]. destruct (os_open _ o) as [o1 [fd|e]] eqn:Hopen.
    - apply os_open_fresh in Hopen as [Hfresh ->]. exists d. destruct Ho as (Hd&Hf&Hfds&H1&_).
      cbn in *. rewrite Hfds in *. split_and!; [done|done|set_solver..].
    - apply os_open_fails in Hopen as ->. by exists (Some d), None. }
  intros fd. apply (triple_bind _ _ (λ _ o, ∃ d, holds base (Some d) (Some fd) o)).
  { apply triple_modify. intros o (d&Hd&Hf&Hfds&H1&H2&H3). exists d.
    split_and!; [done|done|cbn; set_solver|cbn; set_solver|cbn; set_solver|cbn; set_solver]. }
  intros _. apply (triple_bind _ _ (λ _ o, ∃ d, holds base (Some d) (Some fd) o)).
  { intros o [d Ho]. destruct (opened_stat run); cbn; [by exists d|by exists (Some d), (Some fd)]. }
  intros observed. apply (triple_bind _ _ (λ _ o, ∃ d, holds base (Some d) (Some fd) o)).
  { intros o [d Ho]. destruct (negb _); cbn; [by exists (Some d), (Some fd)|by exists d]. }
  intros _. apply (triple_bind _ _ (λ _ o, ∃ d, holds base (Some d) (Some fd) o)).
  { intros o [d Ho]. unfold assert_unchanged, throw_if. destruct (negb _); cbn;
      [by exists (Some d), (Some fd)|by exists d]. }
  intros _ o (d&Hd&Hf&Hfds&H1&H2&H3). rewrite get_bind, !modify_bind. cbn in *. rewrite Hd. cbn.
  rewrite Hfds. split; set_solver.
Qed.

(** The opening leaves exactly one new descriptor, or none when it raises. *)
Lemma open_regular_spec s run o :
  match open_regular_descriptor s run o with
  | (o', Ok fd) => fd ∉ fds o ∧ fds o' = {[fd]} ∪ fds o
  | (o', Err _) => fds o' = fds o
  end.
Proof.
  unfold ContentIO.open_regular_descriptor. cbv zeta. rewrite throw_if_bind.
  destruct (negb _ || _); [done|]. rewrite !modify_bind.
  set (o1 := upd file_descriptor _ _). unfold on_error.
  pose proof (open_walk_holds (fds o) s run (path_parts working_directory (path s)) o1) as H.
  destruct (open_walk _ _ _ o1) as [o2 [fd|e]].
  - apply H. unfold o1. cbn. split_and!; [done|done|cbn; set_solver|cbn; set_solver|cbn; set_solver|cbn; set_solver].
  - destruct H as (d&f&Hd&Hf&Hfds&H1&H2&H3).
    { unfold o1. split_and!; [done|done|cbn; set_solver|cbn; set_solver|cbn; set_solver|cbn; set_solver]. }
    unfold close_both. rewrite Hf. destruct f as [f|]; cbn in *; rewrite Hd; destruct d as [d|];
      cbn in *; rewrite Hfds; set_solver.
Qed.

Lemma finally_closes {A} (body : IO A) fd o o1 :
  balanced body → fd ∉ fds o → fds o1 = {[fd]} ∪ fds o →
  fds (finally body (close_quietly (Some fd)) o1).1 = fds o.
Proof.
  intros Hb Hfd Hfds. unfold finally. specialize (Hb o1). destruct (body o1) as [o2 r].
  cbn in *. rewrite Hb, Hfds. set_solver.
Qed.

Lemma with_stream_balanced {A} s run (body : IO A) : balanced body → balanced (with_stream s run body).
Proof.
  intros Hb o. unfold ContentIO.with_stream. rewrite stm_bind_eq.
  pose proof (open_regular_spec s run o) as H.
  destruct (open_regular_descriptor s run o) as [o1 [fd|e]]; [|done]. destruct H as [Hfd Hfds].
  rewrite stm_bind_eq. unfold on_error, throw_if. destruct (fdopen_ok run); cbn.
  - by apply finally_closes.
  - rewrite Hfds. set_solver.
Qed.

Lemma change_version_balanced s run :
  balanced (fingerprint_change_version working_directory s run).
Proof.
  intros o. unfold fingerprint_change_version. rewrite stm_bind_eq.
  pose proof (open_regular_spec s run o) as H.
  destruct (open_regular_descriptor s run o) as [o1 [fd|e]]; [|done]. destruct H as [Hfd Hfds].
  apply finally_closes; [balance|done..].
Qed.

Lemma hash_loop_balanced fuel s run : ∀ i n data,
  balanced (hash_loop cancelled fuel s run i n data).
Proof.
  induction fuel as [|fuel IH]; intros i n data; cbn [hash_loop]; cbv zeta; balance.
Qed.

Lemma equal_loop_balanced fuel capacity l r : ∀ i lb rb n,
  balanced (equal_loop cancelled fuel capacity l r i lb rb n).
Proof.
  induction fuel as [|fuel IH]; intros i lb rb n; cbn [equal_loop]; cbv zeta; balance.
Qed.

Lemma full_fingerprint_balanced fuel s run chunk_size :
  balanced (full_fingerprint sha256 working_directory cancelled fuel s run chunk_size).
Proof.
  unfold full_fingerprint, validated_io_chunk_size, assert_unchanged. balance.
  apply with_stream_balanced. balance. apply hash_loop_balanced.
Qed.

Lemma files_equal_balanced fuel l r lr rr chunk_size :
  balanced (files_equal_exact working_directory cancelled fuel l r lr rr chunk_size).
Proof.
  unfold files_equal_exact, validated_io_chunk_size, assert_unchanged. balance.
  apply with_stream_balanced, with_stream_balanced. cbv zeta. balance. apply equal_loop_balanced.
Qed.
(** The same beside the local variable of the observation. *)
Definition same_fds : relation (OS * Z) := λ st st', fds st'.1 = fds st.1.

#[local] Instance same_fds_preorder : PreOrder same_fds.
Proof. split; [done|]. intros a b c H1 H2. unfold same_fds in *. congruence. Qed.

Lemma on_os_balanced {A} (m : IO A) st : balanced m → yields same_fds (on_os m) st.
Proof.
  intros Hm. specialize (Hm st.1). unfold yields, same_fds, on_os. by destruct (m st.1).
Qed.

Lemma observe_body_balanced fuel s version content_run fence cached_evidence expected st :
  fds (observe_body sha256 working_directory cancelled fuel s version content_run fence
         cached_evidence expected st).1.1 = fds st.1.
Proof.
  change (yields same_fds (observe_body sha256 working_directory cancelled fuel s version
    content_run fence cached_evidence expected) st).
  unfold observe_body, require_fingerprint_change_version. cbv zeta.
  repeat first
    [ apply yields_bind; [apply _| |intros ? _]
    | apply on_os_balanced
    | apply full_fingerprint_balanced
    | apply change_version_balanced
    | apply balanced_bind; [|intros ?]
    | done
    | by apply balanced_poll ].
Qed.
End descriptors.

(** ** What the loops read *)

(** The bytes the reads [i], ..., [i + k - 1] deliver. *)
Definition delivered (run : FileRun) (i k : nat) : list byte :=
  concat ((λ j, default [] (reads run j)) <$> seq i k).

Lemma delivered_S run i k :
  delivered run i (S k) = default [] (reads run i) ++ delivered run (S i) k.
Proof. done. Qed.

Lemma delivered_snoc run k : delivered run 0 (S k) = delivered run 0 k ++ default [] (reads run k).
Proof.
  unfold delivered. rewrite seq_S, fmap_app, concat_app. cbn. by rewrite app_nil_r.
Qed.

(** The reads deliver a file of content [c] in order, in pieces of any length, and
    report the end only at the end. *)
Definition serves (run : FileRun) (c : list byte) : Prop :=
  ∀ k bs, reads run k = Some bs →
    (delivered run 0 k ++ bs) `prefix_of` c ∧ (bs = [] → delivered run 0 k = c).

(** Every read fills the buffer or reaches the end, as reads of local files do. *)
Definition fills (run : FileRun) (capacity : Z) (c : list byte) : Prop :=
  ∀ k bs, reads run k = Some bs →
    bs = take (Z.to_nat capacity) (drop (length (delivered run 0 k)) c).

Lemma readinto_ok run i o o' bs : readinto run i o = (o', Ok bs) → o' = o ∧ reads run i = Some bs.
Proof. unfold readinto. destruct (reads run i); [|done]. by intros [= <- <-]. Qed.

Section loops.
Variable cancelled : option (nat → bool).

Abbreviation hash_loop := (hash_loop cancelled).
Abbreviation equal_loop := (equal_loop cancelled).

Lemma poll_err o o' e : poll cancelled o = (o', Err e) → e = Cancelled.
Proof.
  unfold poll. destruct cancelled as [f|]; [|done]. rewrite get_bind, modify_bind.
  unfold throw_if, raise_if. destruct (f _); [|done]. by intros [= _ <-].
Qed.

(** A digest is computed over everything up to the first empty read. *)
Lemma hash_loop_ok fuel s run : ∀ i n data o o' total all,
  hash_loop fuel s run i n data o = (o', Ok (total, all)) →
  ∃ k, reads run (i + k) = Some [] ∧ all = data ++ delivered run i k ∧
    total = n + zlen (delivered run i k).
Proof.
  induction fuel as [|fuel IH]; intros i n data o o' total all; cbn [ContentIO.hash_loop]; [done|].
  intros (o1&[]&_&H)%stm_bind_ok. apply stm_bind_ok in H as (o2&bs&[-> Hr]%readinto_ok&H).
  cbv zeta in H. destruct (zlen bs =? 0) eqn:Hz; bool_prop.
  - injection H as _ <- <-. exists 0%nat. rewrite Nat.add_0_r.
    assert (bs = []) as -> by (apply nil_length_inv; lia).
    cbn. rewrite app_nil_r. split; [done|]. split; [done|lia].
  - apply stm_bind_ok in H as (o3&[]&_&H). rewrite throw_if_bind in H.
    destruct (size s <? _); [done|]. apply IH in H as (k&Hend&->&->). exists (S k).
    rewrite delivered_S, Hr. cbn [default from_option id]. rewrite Nat.add_succ_r, length_app, app_assoc.
    split; [done|]. split; [done|lia].
Qed.

(** It ends within the recorded size, whatever the reads deliver. *)
Lemma hash_loop_ends fuel s run : ∀ i n data o,
  0 <= n → Z.max 0 (size s) - n < Z.of_nat fuel → n <= Z.max 0 (size s) →
  (hash_loop fuel s run i n data o).2 ≠ Err LoopFuelExhausted.
Proof.
  induction fuel as [|fuel IH]; intros i n data o Hn Hfuel Hle; [lia|]. cbn [ContentIO.hash_loop].
  rewrite stm_bind_eq. destruct (poll cancelled o) as [o1 [[]|e]] eqn:Hp; [|by apply poll_err in Hp as ->].
  rewrite stm_bind_eq. unfold readinto. destruct (reads run i) as [bs|]; [|done]. cbn.
  destruct (zlen bs =? 0) eqn:Hz; bool_prop; [done|].
  unfold count_bytes. rewrite modify_bind, throw_if_bind.
  destruct (size s <? n + zlen bs) eqn:Hs; bool_prop; [done|]. apply IH; lia.
Qed.

(** Equal buffers differ after a read exactly when the reads differ. *)
Lemma fill_compare buffer bs1 bs2 :
  length bs1 = length bs2 →
  bool_decide (fill buffer bs1 = fill buffer bs2) = bool_decide (bs1 = bs2) ∧
  bool_decide (take (length bs1) (fill buffer bs1) = take (length bs2) (fill buffer bs2)) =
  bool_decide (bs1 = bs2).
Proof.
  intros Hl. unfold fill. split; apply bool_decide_ext.
  - split; [|by intros ->]. rewrite Hl. apply app_inv_tail.
  - by rewrite !take_app_length.
Qed.

(** The loop compares the two files read by read. *)
Lemma equal_loop_ok fuel capacity l r : ∀ i buffer n o o' equal total,
  equal_loop fuel capacity l r i buffer buffer n o = (o', Ok (equal, total)) →
  ∃ k bl br, delivered l i k = delivered r i k ∧
    reads l (i + k) = Some bl ∧ reads r (i + k) = Some br ∧
    if equal then bl = [] ∧ br = [] ∧ total = n + zlen (delivered l i k) else bl ≠ br.
Proof.
  induction fuel as [|fuel IH]; intros i buffer n o o' equal total; cbn [ContentIO.equal_loop]; [done|].
  intros (o1&[]&_&H)%stm_bind_ok. apply stm_bind_ok in H as (o2&bl&[-> Hl]%readinto_ok&H).
  apply stm_bind_ok in H as (o3&br&[-> Hr]%readinto_ok&H). cbv zeta in H.
  apply stm_bind_ok in H as (o4&[]&_&H).
  destruct (zlen bl =? zlen br) eqn:Hlen; cbn in H; bool_prop.
  2:{ injection H as _ <- <-. exists 0%nat, bl, br. rewrite Nat.add_0_r.
      split; [done|]. split; [done|]. split; [done|]. intros ->. done. }
  assert (length bl = length br) as Hlen' by lia.
  destruct (zlen bl =? 0) eqn:Hz; bool_prop.
  { injection H as _ <- <-. exists 0%nat, bl, br. rewrite Nat.add_0_r.
    split; [done|]. split; [done|]. split; [done|].
    split; [apply nil_length_inv; lia|]. split; [apply nil_length_inv; lia|cbn; lia]. }
  destruct (fill_compare buffer bl br Hlen') as [Hfull Hpart].
  rewrite !Nat2Z.id, Hfull, Hpart in H.
  assert ((if zlen bl =? capacity then negb (bool_decide (bl = br))
           else negb (bool_decide (bl = br))) = negb (bool_decide (bl = br))) as E by (destruct (zlen bl =? capacity); reflexivity).
  rewrite E in H. clear E. destruct (bool_decide (bl = br)) eqn:Heq; cbn in H; bool_prop.
  - subst br. apply IH in H as (k&bl'&br'&Hd&Hl'&Hr'&Hres). exists (S k), bl', br'.
    rewrite !delivered_S, Hl, Hr, Nat.add_succ_r. cbn [default from_option id].
    split; [by rewrite Hd|]. split; [done|]. split; [done|].
    destruct equal; [|done]. destruct Hres as (?&?&->). split_and!; [done|done|].
    rewrite length_app. lia.
  - injection H as _ <- <-. exists 0%nat, bl, br. rewrite Nat.add_0_r.
    done.
Qed.

(** Reading a finite file ends with it. *)
Lemma equal_loop_ends fuel capacity l r c : ∀ i lb rb n o,
  serves l c → delivered l 0 i `prefix_of` c → zlen c - zlen (delivered l 0 i) < Z.of_nat fuel →
  (equal_loop fuel capacity l r i lb rb n o).2 ≠ Err LoopFuelExhausted.
Proof.
  induction fuel as [|fuel IH]; intros i lb rb n o Hs Hpre Hfuel; cbn [ContentIO.equal_loop].
  { apply prefix_length in Hpre. lia. }
  rewrite stm_bind_eq. destruct (poll cancelled o) as [o1 [[]|e]] eqn:Hp; [|by apply poll_err in Hp as ->].
  rewrite stm_bind_eq. unfold readinto. destruct (reads l i) as [bl|] eqn:Hl; [|done]. cbn.
  rewrite stm_bind_eq. destruct (reads r i) as [br|]; [|done]. cbn.
  unfold count_bytes. rewrite modify_bind.
  destruct (negb (zlen bl =? zlen br)); [done|]. destruct (zlen bl =? 0) eqn:Hz; bool_prop; [done|].
  destruct (if zlen bl =? capacity then _ else _); [done|].
  destruct (Hs i bl Hl) as [Hpre' _].
  apply IH; rewrite ?delivered_snoc, ?Hl; cbn [default from_option id]; [done|done|].
  rewrite length_app. lia.
Qed.
End loops.

(** ** Whole operations *)

Section operations.
Variables (sha256 : list byte → list byte) (working_directory : pystr)
  (cancelled : option (nat → bool)).

Abbreviation open_regular_descriptor := (open_regular_descriptor working_directory).
Abbreviation with_stream := (with_stream working_directory).
Abbreviation full_fingerprint := (full_fingerprint sha256 working_directory cancelled).
Abbreviation files_equal_exact := (files_equal_exact working_directory cancelled).

(** No run ends because the fuel of a loop was used up. *)
Abbreviation fueled m := (raises_only (λ e, e ≠ LoopFuelExhausted) m).

Lemma fueled_throw_if b e : e ≠ LoopFuelExhausted → fueled (throw_if b e : IO unit).
Proof. intros He o o' e'. unfold throw_if. destruct b; cbn; [|done]. by intros [= _ <-]. Qed.

Lemma fueled_os_open b : fueled (os_open b).
Proof. intros o o' e. unfold os_open. destruct b; [done|]. by intros [= _ <-]. Qed.

Lemma fueled_fstat st : fueled (os_fstat st).
Proof. intros o o' e. destruct st; [done|]. by intros [= _ <-]. Qed.

Lemma fueled_poll : fueled (poll cancelled).
Proof. by intros o o' e ->%poll_err. Qed.

Lemma fueled_on_error {A} (m : IO A) h : fueled m → fueled (on_error m h).
Proof. intros Hm o o' e (o1&H&_)%on_error_err. by eapply Hm. Qed.

Lemma fueled_finally {A} (m : IO A) h : fueled m → fueled (finally m h).
Proof.
  intros Hm o o' e. unfold finally. destruct (m o) as [o1 r] eqn:H. intros [= _ ->]. by eapply Hm.
Qed.

Lemma fueled_os_error {A} (m : IO A) : fueled m → fueled (os_error_is_change m).
Proof.
  intros Hm o o' e. unfold os_error_is_change. destruct (m o) as [o1 [a|[]]] eqn:H; try done;
    intros [= _ <-]; try done. by apply Hm in H.
Qed.

Create HintDb fueled discriminated.
#[local] Hint Resolve raises_ret raises_get raises_modify fueled_os_open fueled_fstat fueled_poll
  fueled_on_error fueled_finally fueled_os_error : fueled.
#[local] Hint Extern 1 (raises_only _ (throw_if _ _)) => (apply fueled_throw_if; discriminate) : fueled.
#[local] Hint Extern 1 (raises_only _ (assert_unchanged _ _)) =>
  (unfold assert_unchanged; apply fueled_throw_if; discriminate) : fueled.

Ltac fueled :=
  repeat first
    [ solve [eauto 2 with fueled]
    | match goal with
      | |- raises_only _ (_ ≫= _) => apply raises_bind; [|intros ?]
      | |- raises_only _ (on_error _ _) => apply fueled_on_error
      | |- raises_only _ (finally _ _) => apply fueled_finally
      | |- raises_only _ (os_error_is_change _) => apply fueled_os_error
      | |- raises_only _ (match ?x with _ => _ end) => destruct x
      end ].

Lemma fueled_open_directories run components : ∀ i, fueled (open_directories run i components).
Proof. induction components as [|c cs IH]; intros i; cbn [open_directories]; fueled. Qed.

Lemma fueled_open s run : fueled (open_regular_descriptor s run).
Proof.
  unfold ContentIO.open_regular_descriptor, open_walk. cbv zeta. fueled.
  apply fueled_open_directories.
Qed.

Lemma fueled_with_stream {A} s run (body : IO A) : fueled body → fueled (with_stream s run body).
Proof.
  intros Hb. unfold ContentIO.with_stream. apply raises_bind; [apply fueled_open|intros fd]. fueled.
Qed.

(** A stream that was opened and read to the end of its body. *)
Lemma with_stream_ok {A} s run (body : IO A) o o' a :
  with_stream s run body o = (o', Ok a) → ∃ o1 o2, body o1 = (o2, Ok a).
Proof.
  unfold ContentIO.with_stream. intros (o1&fd&_&H)%stm_bind_ok.
  apply stm_bind_ok in H as (o2&[]&_&H). unfold finally in H.
  destruct (body o2) as [o3 r] eqn:Hb. injection H as _ ->. eauto.
Qed.

Lemma os_error_ok {A} (m : IO A) o o' a :
  os_error_is_change m o = (o', Ok a) → m o = (o', Ok a).
Proof. unfold os_error_is_change. destruct (m o) as [o1 [b|[]]]; try done. Qed.

(** What a returned digest is computed over. *)
Lemma full_fingerprint_ok fuel s run chunk_size o o' d :
  full_fingerprint fuel s run chunk_size o = (o', Ok d) →
  ∃ k before after, reads run k = Some [] ∧ d = sha256 (delivered run 0 k) ∧
    zlen (delivered run 0 k) = size s ∧
    before_stat run = Some before ∧ after_stat run = Some after ∧
    stat_matches_snapshot s after = true ∧ st_ctime_ns after = st_ctime_ns before.
Proof.
  unfold ContentIO.full_fingerprint. intros (o1&c&_&H)%stm_bind_ok. apply os_error_ok in H.
  apply stm_bind_ok in H as (o2&[]&_&H). apply with_stream_ok in H as (o3&o4&H).
  apply stm_bind_ok in H as (o5&before&Hb&H). apply stm_bind_ok in H as (o6&[total all]&Hl&H).
  apply hash_loop_ok in Hl as (k&Hend&->&->). cbn in Hend.
  rewrite throw_if_bind in H. destruct (negb _) eqn:Hsize; [done|]. bool_prop.
  apply stm_bind_ok in H as (o7&after&Ha&H). unfold assert_unchanged in H.
  rewrite !throw_if_bind in H. destruct (negb (stat_matches_snapshot s after)) eqn:Hm; [done|].
  destruct (negb (_ =? _)) eqn:Hc; [done|]. injection H as _ <-. bool_prop.
  destruct (before_stat run) as [b|], (after_stat run) as [a|]; try done.
  injection Hb as _ <-. injection Ha as _ <-. exists k, b, a. by split_and!.
Qed.

Lemma full_fingerprint_ends fuel s run chunk_size :
  Z.max 0 (size s) < Z.of_nat fuel → fueled (full_fingerprint fuel s run chunk_size).
Proof.
  intros Hfuel. unfold ContentIO.full_fingerprint, validated_io_chunk_size. fueled.
  apply fueled_with_stream. fueled.
  intros o o' e H ->. apply (hash_loop_ends cancelled fuel s run 0 0 [] o); [lia..|].
  by rewrite H.
Qed.

(** What a verdict of the comparison rests on. *)
Lemma files_equal_ok fuel l r lr rr chunk_size o o' equal :
  files_equal_exact fuel l r lr rr chunk_size o = (o', Ok equal) →
  (equal = false ∧ size l ≠ size r) ∨
  size l = size r ∧
  ∃ k bl br, delivered lr 0 k = delivered rr 0 k ∧
    reads lr k = Some bl ∧ reads rr k = Some br ∧
    if equal then bl = [] ∧ br = [] ∧ zlen (delivered lr 0 k) = size l else bl ≠ br.
Proof.
  unfold ContentIO.files_equal_exact. intros (o1&c&_&H)%stm_bind_ok.
  destruct (size l =? size r) eqn:Hs; cbn in H; bool_prop; [right|by injection H as _ <-; left].
  split; [done|]. apply os_error_ok in H. apply stm_bind_ok in H as (o2&[]&_&H).
  apply with_stream_ok in H as (o3&o4&H). apply with_stream_ok in H as (o5&o6&H).
  apply stm_bind_ok in H as (o7&?&_&H). apply stm_bind_ok in H as (o8&?&_&H). cbv zeta in H.
  apply stm_bind_ok in H as (o9&[eq total]&Hl&H).
  apply equal_loop_ok in Hl as (k&bl&br&Hd&Hbl&Hbr&Hres). cbn in Hbl, Hbr.
  rewrite throw_if_bind in H. destruct (eq && negb _) eqn:Hsize; [done|].
  apply stm_bind_ok in H as (o10&?&_&H). apply stm_bind_ok in H as (o11&?&_&H).
  apply stm_bind_ok in H as (o12&[]&_&H). apply stm_bind_ok in H as (o13&[]&_&H).
  rewrite throw_if_bind in H. destruct (_ || _); [done|]. injection H as _ <-.
  exists k, bl, br. split; [done|]. split; [done|]. split; [done|].
  destruct eq; [|done]. destruct Hres as (?&?&->). cbn in Hsize. bool_prop. split_and!; [done..|lia].
Qed.

Lemma files_equal_ends fuel l r lr rr chunk_size c :
  serves lr c → zlen c < Z.of_nat fuel → fueled (files_equal_exact fuel l r lr rr chunk_size).
Proof.
  intros Hs Hfuel. unfold ContentIO.files_equal_exact, validated_io_chunk_size. fueled.
  apply fueled_with_stream, fueled_with_stream. cbv zeta. fueled.
  intros o o' e H ->. eapply (equal_loop_ends cancelled fuel _ lr rr c 0); [done|apply prefix_nil|cbn; lia|].
  by rewrite H.
Qed.
End operations.

(** ** Properties *)

(** C20: every descriptor is closed: whatever the kernel answers, wherever a system
    call fails, the file changes or the run is cancelled, the observation of a
    digest and the exact comparison leave exactly the descriptors that were open
    before. *)
Theorem every_descriptor_is_closed sha256 working_directory cancelled fuel s left right
    algorithm_is_full version content_run fence cached_evidence expected_ctime_ns
    left_run right_run os :
  fds (observe_content_fingerprint sha256 working_directory cancelled fuel s algorithm_is_full
         version content_run fence cached_evidence expected_ctime_ns os).1 = fds os ∧
  fds (compare_exact working_directory cancelled fuel left right left_run right_run os).1 = fds os.
Proof.
  split.
  - unfold observe_content_fingerprint. destruct algorithm_is_full; [|done]. cbn [negb].
    cbv zeta.
    assert (∀ st, fds (observe_body sha256 working_directory cancelled fuel s version content_run
      fence cached_evidence expected_ctime_ns st).1.1 = fds st.1) as Hb.
    { apply observe_body_balanced. }
    specialize (Hb (upd observed_bytes (λ _, 0) os, 0)).
    destruct (observe_body _ _ _ _ _ _ _ _ _ _ _) as [[o n] [[[v d] hit]|[]]]; exact Hb.
  - unfold compare_exact.
    pose proof (files_equal_balanced working_directory cancelled fuel left right left_run right_run
      DEFAULT_IO_CHUNK_SIZE (upd observed_bytes (λ _, 0) os)) as H.
    destruct (files_equal_exact _ _ _ _ _ _ _ _ _) as [o [b|[]]]; exact H.
Qed.

(** A run over a file of content [c] that does not change, read in one piece. *)
Definition steady_run (st : os_stat) (c : list byte) : FileRun :=
  {| walk := λ _, true; opened_stat := Some st; fdopen_ok := true; before_stat := Some st;
     reads := λ k, Some (match k with O => c | S _ => [] end); after_stat := Some st |}.

Lemma steady_delivered st c k : delivered (steady_run st c) 0 (S k) = c.
Proof.
  induction k as [|k IH]; [apply app_nil_r|].
  rewrite delivered_snoc, IH. cbn. apply app_nil_r.
Qed.

Lemma steady_serves st c : serves (steady_run st c) c.
Proof.
  intros [|k] bs [= <-].
  - split; [done|]. by intros ->.
  - rewrite steady_delivered, app_nil_r. by split.
Qed.

Definition sample_snapshot (n : Z) : FileSnapshot :=
  {| path := py "/data/report.txt"; volume_id := 1; file_id := n; size := 3; mtime_ns := 5;
     birthtime_ns := -1 |}.

Definition sample_stat (n : Z) : os_stat :=
  {| st_dev := 1; st_ino := n; st_size := 3; st_mtime_ns := 5; st_ctime_ns := 9;
     st_birthtime_ns := None; st_nlink := 1; is_regular := true |}.

Definition sample_content : list byte := [Byte.x61; Byte.x62; Byte.x63].

Definition idle : OS :=
  {| fds := ∅; directory_descriptor := None; file_descriptor := None; polls := 0;
     observed_bytes := 0 |}.

(** A returned digest is the SHA-256 of the file: when the reads deliver the
    file in order, in pieces of any length, the digest is that of its whole
    content, which has the recorded size, the file still matches its snapshot
    after the reads and its change time did not move. *)
Theorem digest_is_of_the_content sha256 working_directory cancelled fuel s run chunk_size c os d :
  serves run c →
  (full_fingerprint sha256 working_directory cancelled fuel s run chunk_size os).2 = Ok d →
  d = sha256 c ∧ zlen c = size s ∧
  ∃ before after, before_stat run = Some before ∧ after_stat run = Some after ∧
    stat_matches_snapshot s after = true ∧ st_ctime_ns after = st_ctime_ns before.
Proof.
  intros Hs H%run_result. apply full_fingerprint_ok in H as (k&b&a&Hend&->&Hsize&?&?&?&?).
  destruct (Hs k [] Hend) as [_ Hc]. rewrite (Hc eq_refl) in *. split; [done|]. split; [done|].
  by exists b, a.
Qed.

Lemma digest_is_of_the_content_witness :
  (full_fingerprint reverse (py "/") None 5 (sample_snapshot 1)
     (steady_run (sample_stat 1) sample_content) DEFAULT_IO_CHUNK_SIZE idle).2 =
    Ok (reverse sample_content) ∧
  zlen sample_content = size (sample_snapshot 1).
Proof.
  assert ((full_fingerprint reverse (py "/") None 5 (sample_snapshot 1)
     (steady_run (sample_stat 1) sample_content) DEFAULT_IO_CHUNK_SIZE idle).2 =
    Ok (reverse sample_content)) as H by (vm_compute; reflexivity).
  split; [exact H|].
  apply (digest_is_of_the_content reverse (py "/") None 5 (sample_snapshot 1)
    (steady_run (sample_stat 1) sample_content) DEFAULT_IO_CHUNK_SIZE sample_content idle _
    (steady_serves _ _) H).
Defined.

(** Hashing always ends: even over a file that grows for ever, the loop stops
    after as many reads as the recorded size has bytes, and one more. *)
Theorem fingerprint_always_ends sha256 working_directory cancelled fuel s run chunk_size os :
  Z.max 0 (size s) < Z.of_nat fuel →
  (full_fingerprint sha256 working_directory cancelled fuel s run chunk_size os).2 ≠
    Err LoopFuelExhausted.
Proof.
  intros Hfuel H%run_result.
  exact (full_fingerprint_ends sha256 working_directory cancelled fuel s run chunk_size Hfuel
    _ _ _ H eq_refl).
Qed.

Lemma fingerprint_always_ends_witness :
  (full_fingerprint reverse (py "/") None 4 (sample_snapshot 1)
     {| walk := λ _, true; opened_stat := Some (sample_stat 1); fdopen_ok := true;
        before_stat := Some (sample_stat 1); reads := λ _, Some [Byte.x61];
        after_stat := Some (sample_stat 1) |} DEFAULT_IO_CHUNK_SIZE idle).2 ≠
    Err LoopFuelExhausted.
Proof.
  apply (fingerprint_always_ends reverse (py "/") None 4 (sample_snapshot 1)). cbn. lia.
Defined.

(** C31: the exact comparison decides the equality of two contents: over reads that
    deliver both files in order it ends; "equal" means that both files have the
    same bytes and the recorded size; and when every read fills its buffer or
    reaches the end, "different" for files of one recorded size means that their
    contents differ. *)
Theorem exact_comparison_decides working_directory cancelled fuel left right left_run right_run
    chunk_size cl cr os :
  serves left_run cl → serves right_run cr → zlen cl < Z.of_nat fuel →
  match (files_equal_exact working_directory cancelled fuel left right left_run right_run
           chunk_size os).2 with
  | Ok true => cl = cr ∧ zlen cl = size left
  | Ok false => size left = size right →
      fills left_run (adaptive_buffer_capacity (size left) chunk_size) cl →
      fills right_run (adaptive_buffer_capacity (size left) chunk_size) cr → cl ≠ cr
  | Err e => e ≠ LoopFuelExhausted
  end.
Proof.
  intros Hl Hr Hfuel.
  destruct (files_equal_exact _ _ _ _ _ _ _ _ _) as [os' [equal|e]] eqn:H; cbn.
  2:{ intros ->. exact (files_equal_ends working_directory cancelled fuel left right left_run
        right_run chunk_size cl Hl Hfuel _ _ _ H eq_refl). }
  apply files_equal_ok in H as [[-> Hne]|(Hs&k&bl&br&Hd&Hbl&Hbr&Hres)]; [done|].
  destruct equal.
  - destruct Hres as (->&->&Hsize). destruct (Hl k [] Hbl) as [_ Hcl].
    destruct (Hr k [] Hbr) as [_ Hcr]. rewrite <- (Hcl eq_refl), <- (Hcr eq_refl). by split.
  - intros _ Hfl Hfr ->. apply Hres. rewrite (Hfl k bl Hbl), (Hfr k br Hbr). by rewrite Hd.
Qed.

Lemma exact_comparison_decides_witness :
  (files_equal_exact (py "/") None 5 (sample_snapshot 1) (sample_snapshot 2)
     (steady_run (sample_stat 1) sample_content) (steady_run (sample_stat 2) sample_content)
     DEFAULT_IO_CHUNK_SIZE idle).2 = Ok true ∧
  zlen sample_content = size (sample_snapshot 1).
Proof.
  pose proof (exact_comparison_decides (py "/") None 5 (sample_snapshot 1) (sample_snapshot 2)
    (steady_run (sample_stat 1) sample_content) (steady_run (sample_stat 2) sample_content)
    65536 sample_content sample_content idle (steady_serves _ _) (steady_serves _ _)
    ltac:(cbn; lia)) as H.
  assert ((files_equal_exact (py "/") None 5 (sample_snapshot 1) (sample_snapshot 2)
     (steady_run (sample_stat 1) sample_content) (steady_run (sample_stat 2) sample_content)
     65536 idle).2 = Ok true) as E by (vm_compute; reflexivity).
  rewrite E in H. split; [vm_compute; reflexivity|apply H].
Defined.

(** ** The planning of duplicates over real contents *)

(** The exact matcher of a session: [runs l r] are the kernel's answers during the
    comparison of [l] and [r], [states l r] the process state before it. *)
Definition planner_matcher (working_directory : pystr) (cancelled : option (nat → bool))
    (fuel : nat) (runs : FileSnapshot → FileSnapshot → FileRun * FileRun)
    (states : FileSnapshot → FileSnapshot → OS) (l r : FileSnapshot) : comparison :=
  (compare_exact working_directory cancelled fuel l r (runs l r).1 (runs l r).2 (states l r)).2.

Lemma compared_equal working_directory cancelled fuel l r lr rr os n :
  (compare_exact working_directory cancelled fuel l r lr rr os).2 = Compared true n →
  ∃ os0, (files_equal_exact working_directory cancelled fuel l r lr rr DEFAULT_IO_CHUNK_SIZE os0).2 =
    Ok true.
Proof.
  unfold compare_exact. intros H. eexists.
  destruct (files_equal_exact _ _ _ _ _ _ _ _ _) as [o [b|[]]] eqn:E; try discriminate H.
  injection H as -> _. by rewrite E.
Qed.

(** C6: a session never calls a file redundant that differs from its keeper.  Under
    the exact policy, with the comparison the planner really runs, every redundant
    file of every stored group has the same bytes as the keeper of the group,
    provided that reads deliver files in order; digests, whatever they are,
    decide nothing. *)
Theorem redundant_files_equal_their_keeper cfg metadata observed sizes validation
    working_directory cancelled fuel runs states content g m :
  exact_compare cfg = true → valid_session sizes →
  (∀ l r, serves (runs l r).1 (content l) ∧ serves (runs l r).2 (content r)) →
  let matcher := planner_matcher working_directory cancelled fuel runs states in
  g ∈ stored (run cfg metadata matcher observed sizes validation new_planning).1 →
  m ∈ redundant g →
  content m = content (keep g) ∧ zlen (content m) = size (keep g).
Proof.
  cbv zeta. intros Hexact Hv Hserves Hg Hm.
  destruct (run_safe cfg metadata (planner_matcher working_directory cancelled fuel runs states)
    observed sizes validation Hv) as [Hgood _ _].
  rewrite Forall_forall in Hgood. destruct (Hgood g Hg) as (HV&_). rewrite Forall_forall in HV.
  destruct (HV m Hm) as [_ Heq]. destruct (Heq Hexact) as [n Hmatch].
  apply compared_equal in Hmatch as [os0 H%run_result].
  destruct (Hserves (keep g) m) as [Hl Hr].
  apply files_equal_ok in H as [[? _]|(Hs&k&bl&br&Hd&Hbl&Hbr&->&->&Hsize)]; [done|].
  destruct (Hl k [] Hbl) as [_ Hcl]. destruct (Hr k [] Hbr) as [_ Hcr].
  rewrite <- (Hcl eq_refl), <- (Hcr eq_refl). split; [done|]. by rewrite <- Hd.
Qed.

(** Two copies and a file that only shares their digest. *)
Module Copies.
Definition config : DedupConfig :=
  {| exact_compare := true;
     keeper_policy := {| explicit_keep_identities := []; preferred_roots := [];
                         verified_reference_identities := []; verified_reference_evidence := [] |};
     max_file_bytes := None; working_directory := py "/" |}.

Definition content (s : FileSnapshot) : list byte :=
  if file_id s <=? 2 then sample_content else reverse sample_content.
Definition runs (l r : FileSnapshot) : FileRun * FileRun :=
  (steady_run (sample_stat (file_id l)) (content l), steady_run (sample_stat (file_id r)) (content r)).
Definition rows (ms : list FileSnapshot) : option (list metadata_row) :=
  Some ((λ m, ([path m], 1, 1, true)) <$> ms).
Definition file (n : Z) (name : string) : FileSnapshot :=
  {| path := py name; volume_id := 1; file_id := n; size := 3; mtime_ns := 5; birthtime_ns := -1 |}.
Definition sizes : list size_entry :=
  [(3, 0, Some [([Byte.x01], file 1 "/a/x"); ([Byte.x01], file 2 "/a/y"); ([Byte.x01], file 3 "/a/z")])].

Abbreviation session :=
  (run config rows (planner_matcher (py "/") None 10 runs (λ _ _, idle)) (λ _, true) sizes false
     new_planning).1.

Lemma session_groups : (λ g, (keep g, redundant g)) <$> stored session = [(file 1 "/a/x", [file 2 "/a/y"])].
Proof. vm_compute. reflexivity. Qed.

Lemma copy_sizes_valid : valid_session sizes.
Proof.
  split; [apply (bool_decide_unpack _); vm_compute; exact I|]. apply Forall_singleton. cbn. lia.
Qed.

Lemma redundant_files_equal_their_keeper_witness :
  ∃ g m, g ∈ stored session ∧ m ∈ redundant g ∧
    content m = content (keep g) ∧ zlen (content m) = size (keep g).
Proof.
  pose proof session_groups as Hg.
  destruct (stored session) as [|g rest] eqn:E; [discriminate Hg|]. injection Hg as Hk Hr _.
  assert (g ∈ stored session) as Hin by (rewrite E; apply list_elem_of_here).
  assert (file 2 "/a/y" ∈ redundant g) as Hm by (rewrite Hr; apply list_elem_of_here).
  exists g, (file 2 "/a/y"). rewrite <- E. split; [exact Hin|]. split; [exact Hm|].
  pose proof (redundant_files_equal_their_keeper config rows (λ _, true) sizes false (py "/") None
    10 runs (λ _ _, idle) content g (file 2 "/a/y") eq_refl copy_sizes_valid
    (λ l r, conj (steady_serves _ _) (steady_serves _ _))) as H.
  cbv zeta in H. exact (H Hin Hm).
Defined.
End Copies.

(** ** Two behaviours of the comparison loop *)

(** Unlike the digest, the comparison does not stop at the recorded size: two files
    that keep growing alike are read for as long as they grow. *)
Lemma comparison_follows_growth run_ b fuel capacity : ∀ i buffer n o,
  (∀ k, reads run_ k = Some [b]) →
  (equal_loop None fuel capacity run_ run_ i buffer buffer n o).2 = Err LoopFuelExhausted.
Proof.
  induction fuel as [|fuel IH]; intros i buffer n o Hr; cbn [equal_loop]; [done|].
  rewrite stm_bind_eq. cbn. unfold readinto. rewrite Hr. rewrite stm_bind_eq. cbn.
  rewrite stm_bind_eq. cbn. unfold count_bytes. rewrite modify_bind.
  rewrite !bool_decide_eq_true_2 by done. change (Z.of_nat 1) with 1. cbn [negb].
  destruct (1 =? capacity); by apply IH.
Qed.

(** A short read of one file only makes two equal files different. *)
Lemma short_read_separates :
  let short := {| walk := λ _, true; opened_stat := Some (sample_stat 2); fdopen_ok := true;
                  before_stat := Some (sample_stat 2);
                  reads := λ k, Some (match k with O => [Byte.x61] | 1%nat => [Byte.x62; Byte.x63]
                                      | _ => [] end);
                  after_stat := Some (sample_stat 2) |} in
  (files_equal_exact (py "/") None 5 (sample_snapshot 1) (sample_snapshot 2)
     (steady_run (sample_stat 1) sample_content) short DEFAULT_IO_CHUNK_SIZE idle).2 = Ok false.
Proof. vm_compute. reflexivity. Qed.
