(* ===== verification/PdfRetry.v ===== *)
(** * Retries and failure taxonomy of the PDF route (runtime/control/retry_policy.py)

    The backoff, the durable retry budget, the classification of a failure into a
    diagnostic, and the SQL predicate that selects the page errors worth a retry,
    with the [LIKE] of SQLite.  [casefold], the Unicode case folding of a text, is
    a parameter; what is used of it is the class [CaseFold]. *)

From S2P Require Import Prelude.

#[global] Open Scope Z_scope.

(** ** Backoff and budget *)

Definition PDF_MAX_AUTOMATIC_RETRIES : Z := 3.
Definition TRANSIENT_RETRY_BASE_SECONDS : Z := 60 * 60.

Definition retry_delay_seconds (attempt : Z) : Z :=
  TRANSIENT_RETRY_BASE_SECONDS * Z.min 24 (2 ^ Z.max 0 (attempt - 1)).

Definition automatic_retry_due (attempt_count : Z) (next_retry_ns : option Z) (now_ns : Z)
    (max_attempts : Z) : bool :=
  if max_attempts <=? attempt_count then false
  else match next_retry_ns with None => true | Some t => t <=? now_ns end.

(** ** Diagnostics *)

Inductive recommendation : Type := Retry | KeepProtected | ManualReview | DeletionCandidate.

#[export] Instance recommendation_eq_dec : EqDecision recommendation.
Proof. solve_decision. Defined.

Record PdfFailureDiagnostic : Type := {
  d_error_type : pystr;
  d_phase : pystr;
  reason_code : pystr;
  retryable : bool;
  d_recommendation : recommendation;
  confidence : pyfloat;
  exit_code : option Z
}.

(** [needle in text] *)
Fixpoint in_text (needle text : pystr) : bool :=
  starts_with needle text || match text with [] => false | _ :: rest => in_text needle rest end.

(** [value in {literal, ...}] *)
Definition one_of (value : pystr) (literals : list string) : bool :=
  existsb (λ l, bool_decide (value = py l)) literals.

Definition STRUCTURAL_PDF_MARKERS : list string :=
  ["unexpected eof"; "no /root object"; "invalid octal"; "object is not a stream";
   "page not in document"; "cannot find page"; "consecutive page extraction failures";
   "xref not found"; "invalid xref"; "errors while decoding content stream"]%string.

Definition OCR_SCALE_MARKERS : list string :=
  ["out of memory"; "bad_alloc"; "pixdata_malloc"; "malloc ("; "3221225477"; "3221225725";
   "1073741845"; "tesseract process timeout"]%string.

Definition TRANSIENT_ERRORS : list string :=
  ["PdfChildProcessError"; "PdfChildExitError"; "PdfDocumentTimeout"; "InterruptedPdfProcessing";
   "MemoryBudgetExceeded"; "MemoryHeadroomTimeout"; "PdfResourceError"; "MemoryError";
   "PermissionError"]%string.

Section policy.
Variable casefold : pystr → pystr.

Definition any_marker (markers : list string) (text : pystr) : bool :=
  existsb (λ m, in_text (py m) text) markers.

Definition is_structural_pdf_failure (error_type error_message : pystr) : bool :=
  one_of (casefold error_type) ["pseof"; "pdfsyntaxerror"; "pdfstructurederror"]%string ||
  any_marker STRUCTURAL_PDF_MARKERS (casefold error_message).

(** [exc] is a MemoryError, or has the text [message]. *)
Definition is_ocr_scale_retryable_failure (memory_error : bool) (message : pystr) : bool :=
  memory_error || any_marker OCR_SCALE_MARKERS (casefold message).

(** The reason of a failure whose type is transient. *)
Definition transient_reason (error_type : pystr) : string :=
  if bool_decide (error_type = py "PdfDocumentTimeout") then "pdf_document_timeout"
  else if bool_decide (error_type = py "InterruptedPdfProcessing") then "pdf_interrupted_processing"
  else if one_of error_type ["PdfChildProcessError"; "PdfChildExitError"]%string
  then "pdf_child_exit" else "pdf_resource_failure".

(** A literal of two decimals. *)
Definition hundredths (n : Z) : pyfloat := int_truediv n 100.

Definition classify_pdf_failure (error_type error_message phase : pystr) (exit : option Z)
    (recovered : bool) : PdfFailureDiagnostic :=
  let message := casefold error_message in
  let typed t := bool_decide (error_type = py t) in
  let diagnostic reason retry advice conf :=
    {| d_error_type := error_type; d_phase := phase; reason_code := py reason;
       retryable := retry; d_recommendation := advice; confidence := hundredths conf;
       exit_code := exit |} in
  if typed "EncryptedPdf"%string then diagnostic "pdf_password_required"%string false KeepProtected 100
  else if recovered then diagnostic "pdf_structural_recovered"%string false ManualReview 98
  else if one_of error_type TRANSIENT_ERRORS
  then diagnostic (transient_reason error_type) true Retry 95
  else if typed "OperationalError"%string && (in_text (py "locked") message || in_text (py "busy") message)
  then diagnostic "pdf_state_contention"%string true Retry 95
  else if in_text (py "source metadata changed") message
  then diagnostic "pdf_source_changed"%string true Retry 100
  else if typed "AttributeError"%string && (in_text (py "boundedsemaphore") message &&
                                  in_text (py "has no attribute 'get'") message)
  then diagnostic "pdf_legacy_ocr_control_bug"%string true Retry 100
  else if typed "LegacyOcrControlError"%string
  then diagnostic "pdf_legacy_ocr_control_bug"%string true Retry 100
  else if typed "PdfChildReportedError"%string &&
          (starts_with (py "memoryerror:") message || starts_with (py "permissionerror:") message)
  then diagnostic "pdf_legacy_child_resource_failure"%string true Retry 98
  else if is_ocr_scale_retryable_failure false error_message
  then diagnostic "pdf_ocr_resource_failure"%string true Retry 95
  else if typed "PdfChildReportedError"%string && is_structural_pdf_failure error_type error_message
  then diagnostic "pdf_legacy_structural_retry"%string true Retry 98
  else if typed "PdfStructuralRecoveryFailed"%string
  then diagnostic "pdf_unrecoverable_structural_damage"%string false DeletionCandidate 99
  else if is_structural_pdf_failure error_type error_message
  then diagnostic "pdf_structural_damage"%string false ManualReview 98
  else diagnostic "pdf_unclassified_failure"%string false ManualReview 60.

Definition is_retryable_pdf_document_error (error_type error_message : pystr) : bool :=
  retryable (classify_pdf_failure error_type error_message (py "unknown") None false).
End policy.

(** ** The retryable page errors, in SQL *)

(** [text LIKE pattern]: [%] is any sequence, [_] any character, and ASCII letters
    match in either case. *)
Fixpoint like (pattern text : pystr) : bool :=
  match pattern with
  | [] => bool_decide (text = [])
  | p :: rest =>
      if p =? 37 then
        (fix skip (t : pystr) : bool :=
           like rest t || match t with [] => false | _ :: t' => skip t' end) text
      else match text with
           | [] => false
           | c :: t => ((p =? 95) || (ascii_lower p =? ascii_lower c)) && like rest t
           end
  end.

Definition LEGACY_SEMAPHORE_MESSAGE : string := "'BoundedSemaphore' object has no attribute 'get'".

Definition PDF_RETRYABLE_PAGE_ERROR_SQL (error_type error_message : pystr) : bool :=
  let typed t := bool_decide (error_type = py t) in
  let matches p := like (py p) error_message in
  typed "PermissionError"%string || typed "MemoryError"%string || typed "LegacyOcrControlError"%string ||
  (typed "AttributeError"%string && bool_decide (error_message = py LEGACY_SEMAPHORE_MESSAGE)) ||
  (typed "RuntimeError"%string &&
   (matches "Tesseract process timeout%"%string || matches "%malloc (% failed%"%string ||
    matches "%out of memory%"%string)) ||
  (typed "TesseractError"%string &&
   (matches "%out of memory%"%string || matches "%pixdata_malloc%"%string ||
    matches "%3221225477%"%string || matches "%3221225725%"%string ||
    matches "%1073741845%"%string)).

(** ** What is used of case folding: it goes character by character, and lowers
    ASCII letters. *)
Class CaseFold (casefold : pystr → pystr) : Prop := {
  fold_app : ∀ s t, casefold (s ++ t) = casefold s ++ casefold t;
  fold_ascii : ∀ c, 0 <= c < 128 → casefold [c] = [ascii_lower c]
}.

(** Case folding on ASCII texts. *)
Definition ascii_fold (s : pystr) : pystr := ascii_lower <$> s.

#[export] Instance ascii_fold_laws : CaseFold ascii_fold.
Proof. split; [intros; apply fmap_app|done]. Qed.

(** ** Laws *)

Lemma in_text_spec needle text :
  in_text needle text = true ↔ ∃ before after, text = before ++ needle ++ after.
Proof.
  revert text. assert (∀ text, starts_with needle text = true ↔ ∃ after, text = needle ++ after)
    as Hs.
  { intros text. unfold starts_with. rewrite bool_decide_eq_true. split.
    - intros H. exists (drop (length needle) text). rewrite <- H at 1. by rewrite take_drop.
    - intros [after ->]. by rewrite take_app_length. }
  induction text as [|c text IH]; cbn [in_text]; rewrite orb_true_iff, Hs.
  - split; [intros [[after ->]|[=]]; by exists [], after|].
    intros (before&after&E). symmetry in E. apply app_eq_nil in E as [-> E]. left. by exists after.
  - rewrite IH. split.
    + intros [[after ->]|(before&after&->)]; [by exists [], after|by exists (c :: before), after].
    + intros ([|d before]&after&E); [left; by exists after|].
      injection E as -> ->. right. by exists before, after.
Qed.

Lemma like_any pattern text :
  like (37 :: pattern) text = true ↔ ∃ before after, text = before ++ after ∧ like pattern after = true.
Proof.
  induction text as [|c text IH]; cbn [like Z.eqb Pos.eqb]; rewrite orb_true_iff.
  - split; [intros [H|[=]]; by exists [], []|].
    intros (before&after&E&H). symmetry in E. apply app_eq_nil in E as [-> ->]. by left.
  - cbn [like Z.eqb Pos.eqb] in IH. rewrite IH. split.
    + intros [H|(before&after&->&H)]; [by exists [], (c :: text)|by exists (c :: before), after].
    + intros ([|d before]&after&E&H); [left; by rewrite E|].
      injection E as -> ->. right. by exists before, after.
Qed.

(** A literal part of a pattern: ASCII, and no wildcard. *)
Definition plain (lit : pystr) : bool :=
  forallb (λ c, (0 <=? c) && (c <? 128) && negb (c =? 37) && negb (c =? 95)) lit.

Lemma like_literal lit rest text :
  plain lit = true → like (lit ++ rest) text = true →
  ∃ seen after, text = seen ++ after ∧ ascii_lower <$> seen = ascii_lower <$> lit ∧
    like rest after = true.
Proof.
  revert text. induction lit as [|p lit IH]; intros text Hp Hl; [by exists [], text|].
  cbn in Hp. apply andb_prop in Hp as [Hc Hp]. cbn [app like] in Hl.
  destruct (p =? 37) eqn:E; [apply Z.eqb_eq in E; subst p; discriminate Hc|].
  destruct (p =? 95) eqn:E'; [apply Z.eqb_eq in E'; subst p; discriminate Hc|].
  destruct text as [|c text]; [done|]. cbn [orb] in Hl. apply andb_prop in Hl as [Hcc Hl].
  destruct (IH text Hp Hl) as (seen&after&->&Hseen&Hr).
  exists (c :: seen), after. split; [done|]. split; [|done]. rewrite !fmap_cons, Hseen.
  f_equal. symmetry. by apply Z.eqb_eq.
Qed.

Section laws.
Context {casefold : pystr → pystr} `{!CaseFold casefold}.

Lemma fold_of_ascii seen :
  Forall (λ c, 0 <= ascii_lower c < 128) seen → casefold seen = ascii_lower <$> seen.
Proof.
  assert (casefold [] = []) as Hnil.
  { apply (app_inv_head (casefold [])). by rewrite <- fold_app, !app_nil_r. }
  induction 1 as [|c seen Hc _ IH]; [done|].
  change (c :: seen) with ([c] ++ seen). rewrite fold_app, IH, fold_ascii; [done|].
  unfold ascii_lower in Hc. case_match; bool_prop; lia.
Qed.

Lemma plain_lower lit seen :
  plain lit = true → ascii_lower <$> seen = ascii_lower <$> lit →
  Forall (λ c, 0 <= ascii_lower c < 128) seen.
Proof.
  intros Hp E. apply Forall_fmap with (f := ascii_lower) (P := λ c, 0 <= c < 128).
  rewrite E. apply Forall_fmap. apply Forall_forall. intros c Hc%list_elem_of_In.
  unfold plain in Hp. rewrite forallb_forall in Hp. specialize (Hp c Hc).
  unfold ascii_lower, compose. case_match; bool_prop; lia.
Qed.

(** A literal that a pattern demands is in the folded text. *)
Lemma like_in_text lit rest text :
  plain lit = true → like (37 :: lit ++ rest) text = true →
  in_text (ascii_lower <$> lit) (casefold text) = true.
Proof.
  intros Hp Hl. apply like_any in Hl as (before&text'&->&Hl).
  apply like_literal in Hl as (seen&after&->&E&_); [|done].
  apply in_text_spec. exists (casefold before), (casefold after).
  rewrite !fold_app, (fold_of_ascii seen) by (by eapply plain_lower). by rewrite E.
Qed.

Lemma like_prefix_in_text lit rest text :
  plain lit = true → like (lit ++ rest) text = true →
  in_text (ascii_lower <$> lit) (casefold text) = true.
Proof.
  intros Hp Hl. apply (like_in_text lit rest); [done|]. apply like_any. by exists [], text.
Qed.

Lemma marker_retryable message marker :
  In marker OCR_SCALE_MARKERS → in_text (py marker) (casefold message) = true →
  is_ocr_scale_retryable_failure casefold false message = true.
Proof.
  intros Hin H. unfold is_ocr_scale_retryable_failure, any_marker. cbn [orb].
  apply existsb_exists. by exists marker.
Qed.
End laws.

(** ** Properties *)

(** The backoff starts at an hour, doubles with each of the first attempts, never
    decreases and never exceeds a day. *)
Theorem retry_delays_are_bounded a b :
  3600 <= retry_delay_seconds a <= 86400 ∧
  (a <= b → retry_delay_seconds a <= retry_delay_seconds b) ∧
  (1 <= a <= 5 → retry_delay_seconds a = 3600 * 2 ^ (a - 1)).
Proof.
  assert (∀ n, 0 <= n → 1 <= 2 ^ n) as Hpow.
  { intros n Hn. change 1 with (2 ^ 0). apply Z.pow_le_mono_r; lia. }
  unfold retry_delay_seconds, TRANSIENT_RETRY_BASE_SECONDS. split; [|split].
  - specialize (Hpow (Z.max 0 (a - 1))). lia.
  - intros H. assert (2 ^ Z.max 0 (a - 1) <= 2 ^ Z.max 0 (b - 1)); [apply Z.pow_le_mono_r|]; lia.
  - intros H. assert (a = 1 ∨ a = 2 ∨ a = 3 ∨ a = 4 ∨ a = 5) as Ha by lia.
    destruct Ha as [->|[->|[->|[->| ->]]]]; reflexivity.
Qed.

(** A diagnostic never contradicts itself: exactly the retryable failures are
    recommended for a retry; a deletion is only ever recommended for a document
    whose structural recovery failed, and never when the evidence is transient (a
    changed source, an exhausted resource, a recovered document); a protected
    document is kept. *)
Theorem diagnostics_are_coherent casefold error_type message phase exit recovered :
  let d := classify_pdf_failure casefold error_type message phase exit recovered in
  (retryable d = true ↔ d_recommendation d = Retry) ∧
  (d_recommendation d = DeletionCandidate →
     error_type = py "PdfStructuralRecoveryFailed" ∧ recovered = false ∧ retryable d = false ∧
     in_text (py "source metadata changed") (casefold message) = false ∧
     is_ocr_scale_retryable_failure casefold false message = false) ∧
  (error_type = py "EncryptedPdf" → d_recommendation d = KeepProtected).
Proof.
  cbv zeta. unfold classify_pdf_failure. split; [|split].
  - repeat (case_match; [by cbn|]). by cbn.
  - repeat (case_match; [by cbn|]). case_match; [|by repeat case_match].
    intros _. cbn. bool_prop. done.
  - intros ->. by rewrite bool_decide_eq_true_2.
Qed.

Lemma transient_type_retryable casefold error_type message phase exit :
  one_of error_type TRANSIENT_ERRORS = true →
  retryable (classify_pdf_failure casefold error_type message phase exit false) = true.
Proof.
  intros H. unfold classify_pdf_failure.
  destruct (bool_decide (error_type = py "EncryptedPdf")) eqn:E.
  - apply bool_decide_eq_true in E. subst error_type. vm_compute in H. discriminate.
  - by rewrite H.
Qed.

Lemma scale_failure_retryable casefold error_type message :
  error_type ≠ py "EncryptedPdf" → is_ocr_scale_retryable_failure casefold false message = true →
  is_retryable_pdf_document_error casefold error_type message = true.
Proof.
  intros Ht Hs. unfold is_retryable_pdf_document_error, classify_pdf_failure.
  rewrite bool_decide_eq_false_2 by done. repeat (case_match; [done|]). by rewrite Hs.
Qed.

Lemma typed_failure_retryable casefold message t :
  In t (TRANSIENT_ERRORS ++ ["LegacyOcrControlError"%string]) →
  is_retryable_pdf_document_error casefold (py t) message = true.
Proof.
  intros Ht. apply in_app_iff in Ht as [Ht|[<-|[]]].
  - apply transient_type_retryable, existsb_exists. exists t. by rewrite bool_decide_eq_true_2.
  - unfold is_retryable_pdf_document_error, classify_pdf_failure.
    change (bool_decide (py "LegacyOcrControlError" = py "EncryptedPdf")) with false.
    cbn [negb]. repeat (case_match; [done|]).
    by rewrite bool_decide_eq_true_2 in * by done.
Qed.

Section sql.
Context {casefold : pystr → pystr} `{!CaseFold casefold}.

(** A pattern of the query whose literal starts with a marker of the classifier. *)
Lemma pattern_is_marker marker rest t message :
  In marker OCR_SCALE_MARKERS → t ≠ py "EncryptedPdf" →
  plain (py marker) = true → ascii_lower <$> py marker = py marker →
  like (37 :: py marker ++ rest) message = true →
  is_retryable_pdf_document_error casefold t message = true.
Proof.
  intros Hin Ht Hp E Hl. apply scale_failure_retryable; [done|].
  apply (marker_retryable _ marker); [done|]. rewrite <- E. by eapply like_in_text.
Qed.

Lemma runtime_errors_classified message :
  like (py "Tesseract process timeout%") message || like (py "%malloc (% failed%") message ||
    like (py "%out of memory%") message = true →
  is_retryable_pdf_document_error casefold (py "RuntimeError") message = true.
Proof.
  intros [[H|H]%orb_true_iff|H]%orb_true_iff.
  - apply scale_failure_retryable; [done|].
    apply (marker_retryable _ "tesseract process timeout"); [cbn; tauto|].
    by apply (like_prefix_in_text (py "Tesseract process timeout") (py "%")).
  - by apply (pattern_is_marker "malloc (" (py "% failed%")); [cbn; tauto|..].
  - by apply (pattern_is_marker "out of memory" (py "%")); [cbn; tauto|..].
Qed.

Lemma semaphore_errors_classified :
  is_retryable_pdf_document_error casefold (py "AttributeError") (py LEGACY_SEMAPHORE_MESSAGE) = true.
Proof.
  assert (casefold (py LEGACY_SEMAPHORE_MESSAGE) = py "'boundedsemaphore' object has no attribute 'get'")
    as E.
  { rewrite fold_of_ascii; [done|]. apply (bool_decide_unpack _). vm_compute. exact I. }
  unfold is_retryable_pdf_document_error, classify_pdf_failure. rewrite E.
  change (bool_decide (py "AttributeError" = py "EncryptedPdf")) with false. reflexivity.
Qed.

(** C32: the retries that the query selects are those the classifier admits: a page
    error selected by the SQL predicate is retryable for the classifier, whatever
    its message, except where the underscore of [pixdata_malloc] acts as the
    wildcard of [LIKE]. *)
Theorem sql_retries_are_classified t message :
  PDF_RETRYABLE_PAGE_ERROR_SQL t message = true →
  is_retryable_pdf_document_error casefold t message = true ∨
  t = py "TesseractError" ∧ like (py "%pixdata_malloc%") message = true ∧
    in_text (py "pixdata_malloc") (casefold message) = false.
Proof.
  unfold PDF_RETRYABLE_PAGE_ERROR_SQL. intros H.
  repeat (apply orb_true_iff in H as [H|H]);
    [| | |apply andb_prop in H as [Ht Hm]..]; bool_prop; subst.
  - left. apply typed_failure_retryable. cbn; tauto.
  - left. apply typed_failure_retryable. cbn; tauto.
  - left. apply typed_failure_retryable. cbn; tauto.
  - left. apply semaphore_errors_classified.
  - left. by apply runtime_errors_classified.
  - repeat (apply orb_true_iff in Hm as [Hm|Hm]).
    + left. by apply (pattern_is_marker "out of memory" (py "%")); [cbn; tauto|..].
    + destruct (in_text (py "pixdata_malloc") (casefold message)) eqn:E; [left|by right].
      apply scale_failure_retryable; [done|]. by apply (marker_retryable _ "pixdata_malloc"); [cbn; tauto|].
    + left. by apply (pattern_is_marker "3221225477" (py "%")); [cbn; tauto|..].
    + left. by apply (pattern_is_marker "3221225725" (py "%")); [cbn; tauto|..].
    + left. by apply (pattern_is_marker "1073741845" (py "%")); [cbn; tauto|..].
Qed.
End sql.

Lemma sql_retries_are_classified_witness :
  is_retryable_pdf_document_error ascii_fold (py "RuntimeError") (py "Malloc (64 bytes) FAILED") = true.
Proof.
  destruct (sql_retries_are_classified (casefold := ascii_fold) (py "RuntimeError")
    (py "Malloc (64 bytes) FAILED") ltac:(vm_compute; reflexivity)) as [H|[H _]];
    [exact H|vm_compute in H; discriminate H].
Defined.

(** The divergence at the underscore: the query retries a page whose failure the
    classifier leaves to a manual review. *)
Lemma underscore_is_a_wildcard :
  PDF_RETRYABLE_PAGE_ERROR_SQL (py "TesseractError") (py "pixdata-malloc fail") = true ∧
  d_recommendation (classify_pdf_failure ascii_fold (py "TesseractError") (py "pixdata-malloc fail")
                      (py "ocr") None false) = ManualReview.
Proof. split; vm_compute; reflexivity. Qed.

Lemma diagnostics_are_coherent_witness :
  d_recommendation (classify_pdf_failure ascii_fold (py "EncryptedPdf") (py "password required")
                      (py "open") None false) = KeepProtected.
Proof.
  apply (diagnostics_are_coherent ascii_fold (py "EncryptedPdf") (py "password required") (py "open")
    None false). reflexivity.
Defined.
