(* ===== verification/PdfStore.v ===== *)
(** * The store of the PDF route (capabilities/formats/pdf/pdf_route_storage.py)

    The tables of a PDF state (documents, staged pages, page errors, published
    pages, warnings) and the operations on them: the preparation of a document, the
    staging of pages and page failures, the restart of a structural recovery, the
    promotion, the record of a failure with its retry bookkeeping.

    A table is a finite map from its primary key.  The columns that hold the time
    of a write, the text digests and the OCR provenance of a page are left out, and
    so are the derived tables (full text, layouts, similarity) and the inventory of the
    files, which these operations only purge.  The compression of a page is the identity.  The clock
    [now] is an argument of the operations that schedule a retry. *)

From S2P Require Import Prelude FileIdentity DedupKeeper PdfRetry.

#[global] Open Scope Z_scope.

(** ** Rows *)

Inductive pdf_status : Type := Processing | Done | Partial | Failed | Protected.

#[export] Instance pdf_status_eq_dec : EqDecision pdf_status.
Proof. solve_decision. Defined.

Record Document : Type := {
  doc_path : pystr;
  doc_size : Z;
  doc_mtime_ns : Z;
  doc_birthtime_ns : Z;
  doc_signature : pystr;
  doc_status : pdf_status;
  page_count : option Z;
  completed_pages : Z;
  native_pages : Z;
  ocr_pages : Z;
  native_chars : Z;
  ocr_chars : Z;
  binary_digest : option pystr;
  page_start : option Z;
  page_end : option Z;
  is_partial : bool;
  page_errors_count : Z;
  metadata_json : option pystr;
  error_type : option pystr;
  error_message : option pystr;
  transient_retry_count : Z;
  next_retry_ns : option Z;
  last_seen_run_id : option Z
}.

#[export] Instance Document_eta : Eta Document := λ d,
  {| doc_path := doc_path d; doc_size := doc_size d; doc_mtime_ns := doc_mtime_ns d;
     doc_birthtime_ns := doc_birthtime_ns d; doc_signature := doc_signature d;
     doc_status := doc_status d; page_count := page_count d; completed_pages := completed_pages d;
     native_pages := native_pages d; ocr_pages := ocr_pages d; native_chars := native_chars d;
     ocr_chars := ocr_chars d; binary_digest := binary_digest d; page_start := page_start d;
     page_end := page_end d; is_partial := is_partial d; page_errors_count := page_errors_count d;
     metadata_json := metadata_json d; error_type := error_type d;
     error_message := error_message d; transient_retry_count := transient_retry_count d;
     next_retry_ns := next_retry_ns d; last_seen_run_id := last_seen_run_id d |}.

(** A page: the extractor it comes from, ["error"] for the placeholder of a page
    that failed, and its text. *)
Record Page : Type := { page_source : pystr; page_text : pystr }.

#[export] Instance Page_eq_dec : EqDecision Page.
Proof. solve_decision. Defined.

Definition is_error_page (p : Page) : bool := bool_decide (page_source p = py "error").

(** What the route hands to the review queue. *)
Inductive review : Type :=
| Publish (d : PdfFailureDiagnostic) (source_status : pdf_status)
| Reconcile (active_reason_codes : list pystr)
| Resolve (reason_code : pystr).

(** The tables, the retries claimed in this run, and the review events, the last
    one first. *)
Record PdfRoute : Type := {
  documents : gmap pystr Document;
  page_staging : gmap (pystr * pystr * Z) Page;
  pages : gmap (pystr * Z) Page;
  page_errors : gmap (pystr * pystr * Z) (pystr * pystr);
  document_warnings : gmap (pystr * pystr * pystr) (Z * list pystr);
  recoverable_retry_keys : gset pystr;
  reviews : list review
}.

#[export] Instance PdfRoute_eta : Eta PdfRoute := λ r,
  {| documents := documents r; page_staging := page_staging r; pages := pages r;
     page_errors := page_errors r; document_warnings := document_warnings r;
     recoverable_retry_keys := recoverable_retry_keys r; reviews := reviews r |}.

Inductive pdf_exception : Type :=
| CancellationRequested
| PdfDocumentTimeout (text phase : pystr)
| PdfChildProcessError (text phase : pystr) (exit : option Z)
| PdfChildReportedError (child_error_type detail phase : pystr)
| OtherError (type_name text : pystr).

Abbreviation P := (stm PdfRoute pdf_exception).

Record PdfConfig : Type := {
  apply_actions : bool;
  retry_errors : bool;
  retry_recoverable_errors : bool;
  force_incomplete_retry : bool;      (* of the selection *)
  validate_full : bool;               (* cache_validation = "full" *)
  pdfminer_fallback : bool;
  fail_fast_pages : bool;
  max_pages : option Z;
  cfg_page_start : option Z;
  cfg_page_end : option Z;
  processing_signature : pystr;
  run_id : Z
}.

Definition UNKNOWN_BIRTHTIME_NS : Z := -1.

(** [file_key(snapshot)] *)
Definition file_key (s : FileSnapshot) : pystr :=
  packed_key {| FileIdentity.volume_id := volume_id s; FileIdentity.file_id := file_id s |}.

Section store.
Variable cfg : PdfConfig.

(** ** Queries *)

Definition staged_rows (key sig : pystr) (r : PdfRoute) : gmap (pystr * pystr * Z) Page :=
  filter (λ row, row.1.1 = (key, sig)) (page_staging r).

Definition error_rows (key sig : pystr) (r : PdfRoute) : gmap (pystr * pystr * Z) (pystr * pystr) :=
  filter (λ row, row.1.1 = (key, sig)) (page_errors r).

Definition page_rows (key : pystr) (r : PdfRoute) : gmap (pystr * Z) Page :=
  filter (λ row, row.1.1 = key) (pages r).

(** [SELECT COUNT] *)
Definition count `{Countable K} {V} (rows : gmap K V) : Z := Z.of_nat (base.size rows).

Definition has_retryable_page_error (key sig : pystr) (r : PdfRoute) : bool :=
  existsb (λ row, PDF_RETRYABLE_PAGE_ERROR_SQL row.2.1 row.2.2) (map_to_list (error_rows key sig r)).

Definition staged_successes (key sig : pystr) (r : PdfRoute) : gmap (pystr * pystr * Z) Page :=
  filter (λ row, is_error_page row.2 = false) (staged_rows key sig r).

(** The stored document does not describe this file under this signature. *)
Definition source_changed (s : FileSnapshot) (old : Document) : bool :=
  negb (doc_size old =? size s) || negb (doc_mtime_ns old =? mtime_ns s) ||
  negb (doc_birthtime_ns old =? birthtime_ns s) ||
  negb (bool_decide (doc_signature old = processing_signature cfg)).

(** ** Deletions *)

Definition delete_staging (key : pystr) : PdfRoute → PdfRoute :=
  upd page_staging (filter (λ row, row.1.1.1 ≠ key)).
Definition delete_page_errors (key : pystr) : PdfRoute → PdfRoute :=
  upd page_errors (filter (λ row, row.1.1.1 ≠ key)).
Definition delete_warnings (key : pystr) : PdfRoute → PdfRoute :=
  upd document_warnings (filter (λ row, row.1.1.1 ≠ key)).
Definition delete_pages (key : pystr) : PdfRoute → PdfRoute :=
  upd pages (filter (λ row, row.1.1 ≠ key)).
Definition delete_signed_errors (key sig : pystr) : PdfRoute → PdfRoute :=
  upd page_errors (filter (λ row, row.1.1 ≠ (key, sig))).

(** [DELETE FROM page_staging WHERE file_key=? AND source='error'] *)
Definition delete_error_placeholders (key : pystr) : PdfRoute → PdfRoute :=
  upd page_staging (filter (λ row, ¬ (row.1.1.1 = key ∧ is_error_page row.2 = true))).

(** [_delete_document_cache] *)
Definition delete_document_cache (key : pystr) (r : PdfRoute) : PdfRoute :=
  delete_pages key (delete_warnings key (delete_page_errors key (delete_staging key r))).

Definition update_document (key : pystr) (f : Document → Document) : PdfRoute → PdfRoute :=
  upd documents (alter f key).

(** [SET completed_pages = (SELECT COUNT ... FROM page_staging ...)] *)
Definition recount_completed (key sig : pystr) (r : PdfRoute) : PdfRoute :=
  update_document key (upd completed_pages (λ _, count (staged_rows key sig r))) r.

(** ** Preparing a document *)

Definition RESTARTED_ERRORS : list string :=
  ["PdfDocumentTimeout"; "InterruptedPdfProcessing"; "PdfPageSequenceAborted"]%string.

(** The failed pages of an earlier attempt are discarded. *)
Definition restarts (old : Document) (retryable_page : bool) : bool :=
  bool_decide (doc_status old = Partial ∨ doc_status old = Failed) &&
  (bool_decide (doc_status old = Failed) ||
   match error_type old with Some t => one_of t RESTARTED_ERRORS | None => false end ||
   retry_errors cfg || retryable_page).

(** The keys of the other documents stored under the path of the file. *)
Definition stale_path_owners (s : FileSnapshot) (r : PdfRoute) : list pystr :=
  (map_to_list (filter (λ row, doc_path row.2 = path s ∧ row.1 ≠ file_key s) (documents r))).*1.

Definition fresh_document (s : FileSnapshot) (st : pdf_status) : Document :=
  {| doc_path := path s; doc_size := size s; doc_mtime_ns := mtime_ns s;
     doc_birthtime_ns := birthtime_ns s; doc_signature := processing_signature cfg;
     doc_status := st; page_count := None; completed_pages := 0; native_pages := 0; ocr_pages := 0;
     native_chars := 0; ocr_chars := 0; binary_digest := None; page_start := None;
     page_end := None; is_partial := false; page_errors_count := 0; metadata_json := None;
     error_type := None; error_message := None; transient_retry_count := 0;
     next_retry_ns := None; last_seen_run_id := Some (run_id cfg) |}.

(** The identity columns an upsert takes from the file. *)
Definition set_identity (s : FileSnapshot) (st : pdf_status) (d : Document) : Document :=
  upd doc_path (λ _, path s) (upd doc_size (λ _, size s) (upd doc_mtime_ns (λ _, mtime_ns s)
  (upd doc_birthtime_ns (λ _, birthtime_ns s)
  (upd doc_signature (λ _, processing_signature cfg) (upd doc_status (λ _, st)
  (upd last_seen_run_id (λ _, Some (run_id cfg)) d)))))).

Definition discard_changed_source (key : pystr) (r : PdfRoute) : PdfRoute :=
  update_document key (λ d, upd transient_retry_count (λ _, 0) (upd next_retry_ns (λ _, None) d))
    (delete_page_errors key (delete_staging key r)).

Definition discard_failed_pages (key sig : pystr) (r : PdfRoute) : PdfRoute :=
  recount_completed key sig
    (update_document key (upd page_errors_count (λ _, 0))
      (delete_signed_errors key sig (delete_error_placeholders key r))).

Definition delete_document (key : pystr) (r : PdfRoute) : PdfRoute :=
  upd documents (delete key) (delete_document_cache key r).

(** [_prepare_document] *)
Definition prepare_document (s : FileSnapshot) (pages_ : Z) (metadata : pystr) (r : PdfRoute) :
    PdfRoute :=
  let key := file_key s in
  let sig := processing_signature cfg in
  let old := documents r !! key in
  let r :=
    match old with
    | None => delete_page_errors key (delete_staging key r)
    | Some d =>
        if source_changed s d then discard_changed_source key r
        else if restarts d (has_retryable_page_error key sig r)
        then discard_failed_pages key sig r else r
    end in
  let r := foldr delete_document r (stale_path_owners s r) in
  let prepared d :=
    upd page_count (λ _, Some pages_) (upd metadata_json (λ _, Some metadata)
    (upd error_type (λ _, None) (upd error_message (λ _, None) (set_identity s Processing d)))) in
  upd documents (λ ds, <[key := prepared (default (fresh_document s Processing) (ds !! key))]> ds) r.

(** ** Staging *)

(** [_store_staging_page] *)
Definition store_staging_page (key sig : pystr) (number : Z) (source text : pystr) (r : PdfRoute) :
    PdfRoute :=
  recount_completed key sig
    (upd page_staging (insert (key, sig, number) {| page_source := source; page_text := text |}) r).

(** [_store_page_failure] *)
Definition store_page_failure (s : FileSnapshot) (number : Z) (type message : pystr) (r : PdfRoute) :
    PdfRoute :=
  let key := file_key s in
  let sig := processing_signature cfg in
  store_staging_page key sig number (py "error") []
    (upd page_errors (insert (key, sig, number) (type, message)) r).

(** [_restart_structural_recovery_attempt] *)
Definition restart_structural_recovery_attempt (s : FileSnapshot) (r : PdfRoute) : PdfRoute :=
  let key := file_key s in
  let sig := processing_signature cfg in
  let r := delete_signed_errors key sig r in
  let r := upd page_staging
             (filter (λ row, ¬ (row.1.1 = (key, sig) ∧ is_error_page row.2 = true))) r in
  recount_completed key sig (update_document key (upd page_errors_count (λ _, 0)) r).

(** ** Promotion *)

Definition nano : Z := 1000000000.

(** [time.time_ns() + retry_delay_seconds(count) * 1_000_000_000] *)
Definition retry_at (now retries : Z) : Z := now + retry_delay_seconds retries * nano.

(** The sum of a column over the staged rows of one source. *)
Definition sum_rows (select : Page → bool) (column : Page → Z)
    (rows : gmap (pystr * pystr * Z) Page) : Z :=
  sum_with (λ row, if select row.2 then column row.2 else 0) (map_to_list rows).

Definition is_ocr (p : Page) : bool := bool_decide (page_source p = py "ocr").
Definition is_native (p : Page) : bool := negb (is_ocr p) && negb (is_error_page p).
Definition chars (p : Page) : Z := zlen (page_text p).

(** The published pages of a document: its staged rows. *)
Definition published (key : pystr) (rows : gmap (pystr * pystr * Z) Page) : gmap (pystr * Z) Page :=
  list_to_map ((λ row, ((key, row.1.2), row.2)) <$> map_to_list rows).

(** [_promote_document] *)
Definition promote_document (s : FileSnapshot) (pages_ completed : Z) (metadata : pystr)
    (digest : option pystr) (st : pdf_status) (start end_ : Z) (partial : bool) (errors : Z)
    (document_error : option (pystr * pystr)) (now : Z) (r : PdfRoute) : PdfRoute :=
  let key := file_key s in
  let sig := processing_signature cfg in
  let rows := staged_rows key sig r in
  let r := upd pages (λ ps, published key rows ∪ filter (λ row, row.1.1 ≠ key) ps) r in
  let retryable_page := bool_decide (st = Partial) && has_retryable_page_error key sig r in
  let prior := match documents r !! key with Some d => transient_retry_count d | None => 0 end in
  let retries := if retryable_page then prior + 1 else 0 in
  let r := update_document key (λ d,
    {| doc_path := path s; doc_size := size s; doc_mtime_ns := mtime_ns s;
       doc_birthtime_ns := birthtime_ns s; doc_signature := doc_signature d; doc_status := st;
       page_count := Some pages_; completed_pages := completed;
       native_pages := sum_rows is_native (λ _, 1) rows; ocr_pages := sum_rows is_ocr (λ _, 1) rows;
       native_chars := sum_rows is_native chars rows; ocr_chars := sum_rows is_ocr chars rows;
       binary_digest := digest; page_start := Some start; page_end := Some end_;
       is_partial := partial; page_errors_count := errors; metadata_json := Some metadata;
       error_type := fst <$> document_error; error_message := snd <$> document_error;
       transient_retry_count := retries;
       next_retry_ns := if retryable_page then Some (retry_at now retries) else None;
       last_seen_run_id := last_seen_run_id d |}) r in
  if bool_decide (st = Done) then delete_staging key r else r.

(** ** Failures *)

(** [_store_document_warnings] *)
Definition store_document_warnings (s : FileSnapshot) (stage : pystr) (warnings : Z)
    (samples : list pystr) : PdfRoute → PdfRoute :=
  let row := (file_key s, processing_signature cfg, stage) in
  upd document_warnings (if warnings <=? 0 then delete row else insert row (warnings, samples)).

Definition path_conflict : pdf_exception :=
  OtherError (py "IntegrityError") (py "UNIQUE constraint failed: documents.path").

(** [_store_failure]: one transaction, undone when another document has the path. *)
Definition store_failure (s : FileSnapshot) (st : pdf_status) (type message : pystr)
    (transient reset_retry_count : bool) (now : Z) : P unit :=
  let key := file_key s in
  r ← get_state;
  throw_if (negb (bool_decide (stale_path_owners s r = []))) path_conflict;;
  let old := documents r !! key in
  let changed := match old with Some d => source_changed s d | None => false end in
  let prior := match old with Some d => if changed then 0 else transient_retry_count d
               | None => 0 end in
  let retries := if transient && reset_retry_count then 0 else if transient then prior + 1 else 0 in
  let next := if negb transient || reset_retry_count then None else Some (retry_at now retries) in
  when changed (modify (λ r, delete_warnings key (delete_page_errors key (delete_staging key r))));;
  let stored d :=
    upd error_type (λ _, Some type) (upd error_message (λ _, Some message)
    (upd transient_retry_count (λ _, retries) (upd next_retry_ns (λ _, next)
    (set_identity s st d)))) in
  modify (upd documents (λ ds, <[key := stored (default (fresh_document s st) (ds !! key))]> ds)).
End store.

#[global] Arguments file_key : simpl never.
#[global] Arguments source_changed : simpl never.
