(* ===== verification/PdfCache.v ===== *)
(** * Cache decisions of the PDF route (capabilities/formats/pdf/pdf_route_cache.py)

    Whether a stored document is reused or extracted again: the match of the file,
    the consistency of the stored layers, the retries that are asked for, that the
    policy demands or that the durable budget still allows, the claim of the single
    automatic retry of a run, and the pages a new attempt resumes at.

    A decision is the one the route takes: it reads through the connection of the
    coordinator and leaves the update of the hits to a later batch.  The
    fingerprint of a file is an argument, [None] when the file changed under it;
    the cancellation checkpoints inside a decision are left out. *)

From S2P Require Import Prelude FileIdentity DedupKeeper PdfRetry PdfStore.

#[global] Open Scope Z_scope.

Definition MAX_RETRY_PAGE_SET : Z := 10000.
Definition PDF_PAGE_SEQUENCE_ERROR_LIMIT : Z := 32.

Definition EXPLICIT_RECOVERABLE_DOCUMENT_ERRORS : list string := TRANSIENT_ERRORS.

Definition EXPLICIT_RECOVERABLE_PAGE_ERRORS : list string :=
  ["PermissionError"; "MemoryError"; "MemoryBudgetExceeded"; "MemoryHeadroomTimeout"]%string.

(** The columns of the cache query beside those of the document. *)
Record CacheRow : Type := {
  row_document : Document;
  persisted_page_count : Z;
  persisted_page_error_count : Z;
  row_retryable_page_error : bool;
  latest_page_error : option (pystr * pystr)
}.

Record CacheDecision : Type := {
  hit : bool;
  prior_status : option pdf_status;
  retry_pages : Z;
  dec_error_type : option pystr;
  dec_error_message : option pystr;
  dec_metadata_json : option pystr;
  page_error : option (pystr * pystr)
}.

Definition miss (prior : option pdf_status) (pages : Z) : CacheDecision :=
  {| hit := false; prior_status := prior; retry_pages := pages; dec_error_type := None;
     dec_error_message := None; dec_metadata_json := None; page_error := None |}.

Section cache.
Variables (cfg : PdfConfig) (fingerprint : FileSnapshot → bool → option pystr).

(** ** The cache query *)

(** The row of the greatest page number. *)
Definition latest_row (rows : gmap (pystr * pystr * Z) (pystr * pystr)) : option (pystr * pystr) :=
  snd <$> foldr (λ row acc, match acc with
                            | Some best => if row.1.2 <? best.1 then acc else Some (row.1.2, row.2)
                            | None => Some (row.1.2, row.2)
                            end) None (map_to_list rows).

Definition read_cache_row (key : pystr) (r : PdfRoute) : option CacheRow :=
  d ← documents r !! key;
  let errors := error_rows key (doc_signature d) r in
  Some {| row_document := d;
          persisted_page_count := count (page_rows key r);
          persisted_page_error_count := count errors;
          row_retryable_page_error := has_retryable_page_error key (doc_signature d) r;
          latest_page_error := if bool_decide (doc_status d = Partial) then latest_row errors
                               else None |}.

(** [str(row["error_type"] or "")] *)
Definition row_error_type (row : CacheRow) : pystr := default [] (error_type (row_document row)).
Definition row_error_message (row : CacheRow) : pystr := default [] (error_message (row_document row)).

Definition cached_snapshot_matches (row : CacheRow) (s : FileSnapshot) : bool :=
  negb (source_changed cfg s (row_document row)).

Definition cached_legacy_snapshot_matches (row : CacheRow) (s : FileSnapshot) : bool :=
  let d := row_document row in
  (doc_size d =? size s) && (doc_mtime_ns d =? mtime_ns s) &&
  (doc_birthtime_ns d =? UNKNOWN_BIRTHTIME_NS) &&
  bool_decide (doc_signature d = processing_signature cfg).

(** [_promote_legacy_birthtime] with the connection of the coordinator: the write
    itself is left to the batch. *)
Definition promote_legacy_birthtime (row : CacheRow) (s : FileSnapshot) : bool :=
  match binary_digest (row_document row) with
  | None | Some [] => false
  | Some legacy => match fingerprint s false with
                   | None => false
                   | Some current => bool_decide (current = legacy)
                   end
  end.

Definition cached_retry_page_count (row : CacheRow) : Z :=
  if bool_decide (doc_status (row_document row) = Partial) then persisted_page_error_count row else 0.

Definition cached_layers_are_consistent (row : CacheRow) : bool :=
  let d := row_document row in
  negb (bool_decide (doc_status d = Done ∨ doc_status d = Partial)) ||
  ((persisted_page_count row =? completed_pages d) &&
   (persisted_page_error_count row =? page_errors_count d)).

Definition file_changed_error : pdf_exception := OtherError (py "FileChangedError") [].

Definition cached_fingerprint_matches (row : CacheRow) (s : FileSnapshot) : P bool :=
  if negb (validate_full cfg) then mret true
  else
    current ← lift (or_raise (fingerprint s true) file_changed_error);
    mret (bool_decide (binary_digest (row_document row) = Some current)).

(** ** Retries *)

Definition incomplete (st : pdf_status) : bool := bool_decide (st = Failed ∨ st = Partial).

Definition cached_retry_explicitly_requested (st : pdf_status) : bool :=
  (retry_errors cfg && bool_decide (st = Failed ∨ st = Protected ∨ st = Partial)) ||
  (force_incomplete_retry cfg &&
   bool_decide (st = Failed ∨ st = Protected ∨ st = Partial ∨ st = Processing)).

Definition cached_structural_revalidation_required (st : pdf_status) (type : pystr) : bool :=
  apply_actions cfg && bool_decide (st = Failed) &&
  bool_decide (type = py "PdfStructuralRecoveryFailed").

Definition cached_page_sequence_retry_required (row : CacheRow) (st : pdf_status) (type : pystr) :
    bool :=
  bool_decide (st = Partial) &&
  (bool_decide (type = py "PdfPageSequenceAborted") ||
   (bool_decide (type = []) && (PDF_PAGE_SEQUENCE_ERROR_LIMIT <=? persisted_page_error_count row))).

(** [int(row["page_count"])] raises when the column is null. *)
Definition cached_timeout_retry_required (row : CacheRow) (st : pdf_status) (type message : pystr) :
    result pdf_exception bool :=
  if negb (incomplete st) || negb (bool_decide (type = py "PdfDocumentTimeout")) then Ok false
  else if starts_with (py "[durable-progress:") message then Ok true
  else if starts_with (py "[no-durable-progress:") message then Ok false
  else
    let completed := completed_pages (row_document row) in
    if negb (0 <? completed) then Ok false
    else
      total ← or_raise (page_count (row_document row)) (OtherError (py "TypeError") []);
      Ok (completed <? total).

Definition retry_due (row : CacheRow) (now : Z) : bool :=
  let d := row_document row in
  automatic_retry_due (transient_retry_count d) (next_retry_ns d) now PDF_MAX_AUTOMATIC_RETRIES.

Definition cached_document_automatic_retry_required (row : CacheRow) (st : pdf_status)
    (type : pystr) (now : Z) : bool :=
  incomplete st && one_of type EXPLICIT_RECOVERABLE_DOCUMENT_ERRORS && retry_due row now.

Definition cached_automatic_retry_required (row : CacheRow) (st : pdf_status) (type : pystr)
    (now : Z) : bool :=
  let due := if retry_recoverable_errors cfg then transient_retry_count (row_document row) <? 3
             else retry_due row now in
  if negb due then false
  else if bool_decide (st = Partial) && row_retryable_page_error row then
    negb (retry_recoverable_errors cfg) ||
    one_of (default [] (fst <$> latest_page_error row)) EXPLICIT_RECOVERABLE_PAGE_ERRORS
  else incomplete st && one_of type EXPLICIT_RECOVERABLE_DOCUMENT_ERRORS.

Definition cached_policy_retry_required (row : CacheRow) (st : pdf_status) (type message : pystr)
    (now : Z) : result pdf_exception bool :=
  if cached_structural_revalidation_required st type then Ok true
  else if cached_page_sequence_retry_required row st type then Ok (negb (retry_recoverable_errors cfg))
  else
    timeout ← cached_timeout_retry_required row st type message;
    if timeout : bool then
      Ok (negb (retry_recoverable_errors cfg) ||
          cached_document_automatic_retry_required row st type now)
    else Ok (cached_automatic_retry_required row st type now).

(** [_cache_hit_with_review_evidence] *)
Definition cache_hit (row : CacheRow) (pages : Z) : CacheDecision :=
  let d := row_document row in
  {| hit := true; prior_status := Some (doc_status d); retry_pages := pages;
     dec_error_type := error_type d; dec_error_message := error_message d;
     dec_metadata_json := metadata_json d; page_error := latest_page_error row |}.

Definition cached_status_decision (row : CacheRow) (pages : Z) (now : Z) :
    result pdf_exception CacheDecision :=
  let st := doc_status (row_document row) in
  if bool_decide (st = Done) then Ok (cache_hit row pages)
  else if cached_retry_explicitly_requested st then Ok (miss (Some st) pages)
  else
    retry ← cached_policy_retry_required row st (row_error_type row) (row_error_message row) now;
    if retry : bool then Ok (miss (Some st) pages)
    else if bool_decide (st = Processing) then Ok (miss (Some st) pages)
    else Ok (cache_hit row pages).

(** [_claim_recoverable_retry] *)
Definition claim_recoverable_retry (s : FileSnapshot) : P bool :=
  r ← get_state;
  if bool_decide (file_key s ∈ recoverable_retry_keys r) then mret false
  else modify (upd recoverable_retry_keys (union {[file_key s]}));; mret true.

(** The end of [_is_cache_hit], once the stored row is valid. *)
Definition settle_decision (row : CacheRow) (s : FileSnapshot) (now : Z) : P CacheDecision :=
  let st := doc_status (row_document row) in
  let pages := cached_retry_page_count row in
  let type := row_error_type row in
  decision ← lift (cached_status_decision row pages now);
  if hit decision then mret decision
  else if negb (retry_recoverable_errors cfg) && negb (retry_errors cfg) &&
          negb (force_incomplete_retry cfg) &&
          cached_document_automatic_retry_required row st type now
  then mret (cache_hit row pages)
  else if cached_automatic_retry_required row st type now then
    claimed ← claim_recoverable_retry s;
    mret (if claimed : bool then decision else cache_hit row pages)
  else mret decision.

(** [_is_cache_hit] *)
Definition is_cache_hit (s : FileSnapshot) (now : Z) : P CacheDecision :=
  r ← get_state;
  match read_cache_row (file_key s) r with
  | None => mret (miss None 0)
  | Some row =>
      let invalid := miss (Some (doc_status (row_document row))) (cached_retry_page_count row) in
      let exact := cached_snapshot_matches row s in
      if negb exact &&
         (negb (cached_legacy_snapshot_matches row s) || negb (promote_legacy_birthtime row s))
      then mret invalid
      else if negb (cached_layers_are_consistent row) then mret invalid
      else
        same ← (if exact then cached_fingerprint_matches row s else mret true);
        if negb same then mret invalid
        else settle_decision row s now
  end.

(** ** Resumption *)

Definition max_page (numbers : list Z) : option Z :=
  match numbers with [] => None | n :: rest => Some (foldl Z.max n rest) end.

(** The numbers of the failed pages, when there are some and not too many. *)
Definition failed_pages (key sig : pystr) (r : PdfRoute) : option (gset Z) :=
  let rows := error_rows key sig r in
  if (0 <? count rows) && (count rows <=? MAX_RETRY_PAGE_SET)
  then Some (list_to_set ((λ row, row.1.2) <$> map_to_list rows)) else None.

(** [_resumable_pages]: the page to start at, the only pages to extract, if not
    empty, and the OCR pages already staged. *)
Definition resumable_pages (s : FileSnapshot) (now : Z) (r : PdfRoute) : Z * gset Z * Z :=
  let key := file_key s in
  let sig := processing_signature cfg in
  let range_start := match cfg_page_start cfg with None => 0 | Some p => p - 1 end in
  match documents r !! key with
  | None => (range_start, ∅, 0)
  | Some d =>
      if source_changed cfg s d then (range_start, ∅, 0)
      else
        let prior_ocr := count (filter (λ row, is_ocr row.2 = true) (staged_rows key sig r)) in
        let automatic := has_retryable_page_error key sig r &&
          automatic_retry_due (transient_retry_count d) (next_retry_ns d) now
            PDF_MAX_AUTOMATIC_RETRIES in
        let only := if (retry_errors cfg || automatic) && incomplete (doc_status d)
                    then failed_pages key sig r else None in
        match only with
        | Some numbers => (range_start, numbers, prior_ocr)
        | None =>
            let last := max_page ((λ row, row.1.2) <$> map_to_list (staged_successes key sig r)) in
            (match last with None => range_start | Some n => n + 1 end, ∅, prior_ocr)
        end
  end.

(** [_structural_recovery_reason] *)
Definition structural_recovery_reason (s : FileSnapshot) (r : PdfRoute) : option pystr :=
  d ← documents r !! file_key s;
  if negb (bool_decide (doc_status d = Partial)) then None
  else
    let type := default [] (error_type d) in
    if bool_decide (type = py "PdfPageSequenceAborted")
    then Some (take 2000 (type ++ py ": " ++ default [] (error_message d)))
    else if bool_decide (type = []) &&
            (PDF_PAGE_SEQUENCE_ERROR_LIMIT <=? count (error_rows (file_key s) (doc_signature d) r))
    then Some (py "Legacy PdfPageSequenceAborted: retained at least " ++
               dec_text PDF_PAGE_SEQUENCE_ERROR_LIMIT ++ py " page errors")
    else None.

(** [_page_bounds]; [None] when the range starts after the last page. *)
Definition page_bounds (total : Z) : option (Z * Z) :=
  let start := match cfg_page_start cfg with None => 0 | Some p => p - 1 end in
  let end_ := match cfg_page_end cfg with None => total | Some p => Z.min total p end in
  let end_ := match max_pages cfg with None => end_ | Some m => Z.min end_ (start + m) end in
  if total <=? start then None else Some (start, end_).
End cache.
