(* ===== verification/PdfSession.v ===== *)
(** * The extraction of one document (capabilities/formats/pdf/pdf_route.py)

    The parent side of an isolated extraction: the messages of the child are
    consumed one by one, pages are staged in bounded batches, and a document ends
    completed, protected, cancelled, timed out or failed.  Around it the in-process
    extraction, the retry inside a run and the decision of the cache.

    The child is adversarial: a [stream] is any list of messages and the exception
    that ends it, if any; a cancellation between two messages is a stream that ends
    there.  The in-process engine is adversarial in the same way.  Texts of times
    and floats (timeouts, scales) only choose the stream and are left out; so are
    the disk checks, and the provenance of a page with its bytes in the size of a
    batch.  [json_limit] writes the evidence of an aborted sequence. *)

From S2P Require Import Prelude FileIdentity DedupKeeper PdfRetry PdfStore PdfCache.

#[global] Open Scope Z_scope.

Definition TEXT_BATCH_PAGES : Z := 4.
Definition PROMOTION_BATCH_BYTES : Z := 8 * 1024 * 1024.
Definition TRANSIENT_RETRIES_PER_RUN : nat := 1.

Inductive message : Type :=
| MWarnings (number : Z) (samples : list pystr)
| MRecovery (primary_error : option pystr)
| MRestart
| MProtected
| MFatal (type detail phase : pystr)
| MHeader (total start end_ : Z) (metadata : pystr)
| MPage (number : Z) (source text : pystr)
| MPageError (number : Z) (type text : pystr)
| MPageErrorLimit (number consecutive skipped : Z) (type text : pystr)
| MDone (total start end_ : Z).

Definition stream : Type := (list message * option pdf_exception)%type.

Record ErrorLimit : Type := {
  last_attempted_page : Z;
  consecutive_errors : Z;
  skipped_pages : Z;
  last_error_type : pystr;
  last_error_message : pystr
}.

(** [_IsolatedExtractionState]; [x_evidence] is the primary error of the recovery
    evidence. *)
Record Extraction : Type := {
  initial_staged_pages : Z;
  x_native : Z;
  x_ocr : Z;
  x_errors : Z;
  x_total : Z;
  x_start : Z;
  x_end : Z;
  x_metadata : pystr;
  prepared : bool;
  warning_count : Z;
  warning_samples : list pystr;
  x_evidence : option (option pystr);
  page_diagnostic : option PdfFailureDiagnostic;
  page_error_limit : option ErrorLimit;
  x_batch : list message;
  batch_bytes : Z
}.

#[export] Instance Extraction_eta : Eta Extraction := λ x,
  {| initial_staged_pages := initial_staged_pages x; x_native := x_native x; x_ocr := x_ocr x;
     x_errors := x_errors x; x_total := x_total x; x_start := x_start x; x_end := x_end x;
     x_metadata := x_metadata x; prepared := prepared x; warning_count := warning_count x;
     warning_samples := warning_samples x; x_evidence := x_evidence x;
     page_diagnostic := page_diagnostic x; page_error_limit := page_error_limit x;
     x_batch := x_batch x; batch_bytes := batch_bytes x |}.

Definition new_extraction (staged : Z) : Extraction :=
  {| initial_staged_pages := staged; x_native := 0; x_ocr := 0; x_errors := 0; x_total := 0;
     x_start := 0; x_end := 0; x_metadata := py "{}"; prepared := false; warning_count := 0;
     warning_samples := []; x_evidence := None; page_diagnostic := None; page_error_limit := None;
     x_batch := []; batch_bytes := 0 |}.

(** [reset_for_structural_recovery] *)
Definition reset_for_structural_recovery (x : Extraction) : Extraction :=
  upd x_batch (λ _, []) (upd batch_bytes (λ _, 0) (upd x_native (λ _, 0) (upd x_ocr (λ _, 0)
  (upd x_errors (λ _, 0) (upd page_diagnostic (λ _, None) (upd page_error_limit (λ _, None)
  (upd prepared (λ _, false) x))))))).

Record DocumentResult : Type := {
  result_status : pdf_status;
  result_native : Z;
  result_ocr : Z;
  result_errors : Z;
  timed_out : bool;
  result_warnings : Z;
  transient : bool;
  recycled : bool
}.

Definition result_of (st : pdf_status) : DocumentResult :=
  {| result_status := st; result_native := 0; result_ocr := 0; result_errors := 0;
     timed_out := false; result_warnings := 0; transient := false; recycled := false |}.

#[export] Instance DocumentResult_eta : Eta DocumentResult := λ d,
  {| result_status := result_status d; result_native := result_native d;
     result_ocr := result_ocr d; result_errors := result_errors d; timed_out := timed_out d;
     result_warnings := result_warnings d; transient := transient d; recycled := recycled d |}.

(** The tables and the local state of the extraction. *)
Abbreviation Session := (PdfRoute * Extraction)%type.
Abbreviation X := (stm Session pdf_exception).

Definition on_route {A} (m : P A) : X A :=
  λ st, match m st.1 with (r, a) => ((r, st.2), a) end.
Definition set_route (f : PdfRoute → PdfRoute) : X unit := modify (λ st, (f st.1, st.2)).
Definition set_local (f : Extraction → Extraction) : X unit := modify (λ st, (st.1, f st.2)).

(** The length of a text in UTF-8. *)
Definition utf8_length (text : pystr) : Z :=
  sum_with (λ c, if c <? 128 then 1 else if c <? 2048 then 2 else if c <? 65536 then 3 else 4) text.

Definition emit (e : review) : PdfRoute → PdfRoute := upd reviews (cons e).

(** [type(exc).__name__] and [str(exc)] *)
Definition exception_type (e : pdf_exception) : pystr :=
  match e with
  | CancellationRequested => py "CancellationRequested"
  | PdfDocumentTimeout _ _ => py "PdfDocumentTimeout"
  | PdfChildProcessError _ _ _ => py "PdfChildProcessError"
  | PdfChildReportedError _ _ _ => py "PdfChildReportedError"
  | OtherError t _ => t
  end.

Definition exception_text (e : pdf_exception) : pystr :=
  match e with
  | CancellationRequested => py "cancelled"
  | PdfDocumentTimeout text _ | PdfChildProcessError text _ _ | OtherError _ text => text
  | PdfChildReportedError t detail _ => t ++ py ": " ++ detail
  end.

(** [_isolated_failure_details] *)
Definition isolated_failure_details (e : pdf_exception) : pystr * pystr * pystr * option Z :=
  match e with
  | PdfChildReportedError t detail phase => (t, detail, phase, None)
  | PdfChildProcessError text phase exit => (exception_type e, text, phase, exit)
  | PdfDocumentTimeout text phase => (exception_type e, text, phase, None)
  | _ => (exception_type e, exception_text e, py "unknown", None)
  end.

Section session.
Variables (cfg : PdfConfig) (casefold : pystr → pystr) (json_limit : ErrorLimit → pystr)
  (s : FileSnapshot) (digest : option pystr) (now : Z).

Let key := file_key s.
Let sig := processing_signature cfg.

Definition successful_staged_page_count (r : PdfRoute) : Z := count (staged_successes key sig r).

(** ** Batches *)

(** [_flush_extraction_batch]: one message *)
Definition stage_message (m : message) (r : PdfRoute) : PdfRoute :=
  match m with
  | MPage number source text => store_staging_page key sig number source text r
  | MPageError number type text => store_page_failure cfg s number type text r
  | _ => r
  end.

Definition flush_extraction_batch (ms : list message) (r : PdfRoute) : PdfRoute :=
  foldl (λ r m, stage_message m r) r ms.

(** [_flush_isolated_batch] *)
Definition flush_isolated_batch (clear : bool) : X unit :=
  modify (λ st,
    match x_batch st.2 with
    | [] => st
    | ms => (flush_extraction_batch ms st.1,
             if clear then upd x_batch (λ _, []) (upd batch_bytes (λ _, 0) st.2) else st.2)
    end).

(** ** Messages *)

(** [_consume_isolated_page_message] *)
Definition consume_isolated_page_message (m : message) (x : Extraction) : Extraction :=
  match m with
  | MPage _ source text =>
      let ocr := bool_decide (source = py "ocr") in
      upd x_batch (λ b, b ++ [m]) (upd batch_bytes (Z.add (utf8_length text))
      (upd x_native (Z.add (if ocr then 0 else 1)) (upd x_ocr (Z.add (if ocr then 1 else 0)) x)))
  | MPageError _ type text =>
      upd x_batch (λ b, b ++ [m]) (upd batch_bytes (Z.add (utf8_length text))
      (upd x_errors (Z.add 1)
      (upd page_diagnostic (λ _, Some (classify_pdf_failure casefold type text
                                          (py "page_extraction") None false)) x)))
  | MPageErrorLimit number consecutive skipped type text =>
      upd page_error_limit (λ _, Some
        {| last_attempted_page := number + 1; consecutive_errors := consecutive;
           skipped_pages := skipped; last_error_type := type; last_error_message := text |})
      (upd x_end (λ e, Z.min e (number + 1))
      (upd page_diagnostic (λ _, Some (classify_pdf_failure casefold (py "PdfPageSequenceAborted")
         (dec_text consecutive ++ py " consecutive page extraction failures; last error " ++
          type ++ py ": " ++ text) (py "page_extraction") None false)) x))
  | MDone total start end_ =>
      upd x_total (λ _, total) (upd x_start (λ _, start)
      (match page_error_limit x with None => upd x_end (λ _, end_) x | Some _ => x end))
  | _ => x
  end.

(** [_handle_isolated_protected] *)
Definition handle_isolated_protected : X DocumentResult :=
  on_route (store_failure cfg s Protected (py "EncryptedPdf") (py "password required") false false now);;
  st ← get_state;
  set_route (store_document_warnings cfg s (py "extract") (warning_count st.2) (warning_samples st.2));;
  set_route (emit (Publish (classify_pdf_failure casefold (py "EncryptedPdf")
                              (py "password required") (py "open") None false) Protected));;
  mret (upd result_warnings (λ _, warning_count st.2) (result_of Protected)).

(** [_consume_isolated_message]: the result that ends the document, if any, and
    whether the batch may be flushed. *)
Definition consume_isolated_message (m : message) : X (option DocumentResult * bool) :=
  match m with
  | MWarnings number samples =>
      set_local (λ x, upd warning_count (Z.add number)
        (upd warning_samples (λ old, take 20 (first_occurrences [] (old ++ samples))) x));;
      mret (None, false)
  | MRecovery primary => set_local (upd x_evidence (λ _, Some primary));; mret (None, false)
  | MRestart =>
      set_local reset_for_structural_recovery;;
      set_route (restart_structural_recovery_attempt cfg s);;
      mret (None, false)
  | MProtected => result ← handle_isolated_protected; mret (Some result, false)
  | MFatal type detail phase => throw (PdfChildReportedError type detail phase)
  | MHeader total start end_ metadata =>
      set_local (λ x, upd x_total (λ _, total) (upd x_start (λ _, start) (upd x_end (λ _, end_)
        (upd x_metadata (λ _, metadata) x))));;
      set_route (prepare_document cfg s total metadata);;
      set_local (upd prepared (λ _, true));;
      mret (None, false)
  | _ => set_local (consume_isolated_page_message m);; mret (None, true)
  end.

Definition batch_is_full (x : Extraction) : bool :=
  (TEXT_BATCH_PAGES <=? zlen (x_batch x)) || (PROMOTION_BATCH_BYTES <=? batch_bytes x).

(** [_stream_isolated_document] *)
Fixpoint stream_isolated_document (ms : list message) (ending : option pdf_exception) :
    X (option DocumentResult) :=
  match ms with
  | [] => match ending with None => mret None | Some e => throw e end
  | m :: rest =>
      '(result, flush_eligible) ← consume_isolated_message m;
      match result with
      | Some result => mret (Some result)
      | None =>
          st ← get_state;
          when (flush_eligible && batch_is_full st.2) (flush_isolated_batch true);;
          stream_isolated_document rest ending
      end
  end.

(** ** Completion *)

(** [_reconcile_isolated_findings] *)
Definition reconcile_isolated_findings (x : Extraction) (st : pdf_status) (r : PdfRoute) : PdfRoute :=
  match x_evidence x with
  | Some primary =>
      let d := classify_pdf_failure casefold (py "PdfStructuralRecovered")
                 (default (py "recovered") primary) (py "structural_recovery") None true in
      emit (Reconcile [reason_code d]) (emit (Publish d st) r)
  | None =>
      match page_diagnostic x with
      | Some d => emit (Reconcile [reason_code d]) (emit (Publish d st) r)
      | None => emit (Reconcile []) r
      end
  end.

Definition completion_status (x : Extraction) : pdf_status :=
  if negb (x_errors x =? 0) || bool_decide (page_error_limit x ≠ None) then Partial else Done.

Definition range_is_partial (x : Extraction) : bool :=
  (0 <? x_start x) || (x_end x <? x_total x) || bool_decide (cfg_page_end cfg ≠ None) ||
  bool_decide (max_pages cfg ≠ None) || bool_decide (page_error_limit x ≠ None).

(** [_promote_isolated_document] *)
Definition promote_isolated_document (x : Extraction) (st : pdf_status) (r : PdfRoute) : PdfRoute :=
  let r := promote_document cfg s (x_total x) (Z.max 0 (x_end x - x_start x)) (x_metadata x) digest st
             (x_start x + 1) (x_end x) (range_is_partial x) (x_errors x)
             ((λ limit, (py "PdfPageSequenceAborted", take 2000 (json_limit limit))) <$>
              page_error_limit x) now r in
  store_document_warnings cfg s (py "extract") (warning_count x) (warning_samples x) r.

(** [_complete_isolated_document] *)
Definition complete_isolated_document : X DocumentResult :=
  st ← get_state;
  throw_if (negb (prepared st.2))
    (OtherError (py "RuntimeError") (py "isolated extractor produced no document header"));;
  flush_isolated_batch false;;
  let x := st.2 in
  let status := completion_status x in
  set_route (promote_isolated_document x status);;
  set_route (reconcile_isolated_findings x status);;
  mret {| result_status := status; result_native := x_native x; result_ocr := x_ocr x;
          result_errors := x_errors x; timed_out := false; result_warnings := warning_count x;
          transient := false; recycled := false |}.

(** ** Failures *)

(** [_handle_isolated_cancellation] *)
Definition handle_isolated_cancellation : X unit :=
  flush_isolated_batch true;;
  st ← get_state;
  let staged := successful_staged_page_count st.1 in
  when (0 <? staged) (on_route (store_failure cfg s Partial (py "InterruptedPdfProcessing")
    (py "[durable-progress:" ++ dec_text staged ++ py "] processing cancelled") true true now)).

(** [_handle_isolated_timeout] *)
Definition handle_isolated_timeout (text phase : pystr) : X DocumentResult :=
  flush_isolated_batch true;;
  st ← get_state;
  let current := successful_staged_page_count st.1 in
  let initial := initial_staged_pages st.2 in
  let made_progress := initial <? current in
  let stored_message :=
    (if made_progress
     then py "[durable-progress:" ++ dec_text initial ++ py "->" ++ dec_text current ++ py "] "
     else py "[no-durable-progress:" ++ dec_text current ++ py "] ") ++ text in
  let d := classify_pdf_failure casefold (py "PdfDocumentTimeout") text phase None false in
  let stored_status := if 0 <? current then Partial else Failed in
  on_route (store_failure cfg s stored_status (py "PdfDocumentTimeout") (take 2000 stored_message)
              (retryable d) made_progress now);;
  set_route (store_document_warnings cfg s (py "extract") (warning_count st.2) (warning_samples st.2));;
  set_route (emit (Publish d stored_status));;
  mret (upd timed_out (λ _, true) (upd result_warnings (λ _, warning_count st.2)
         (result_of stored_status))).

(** [_preserve_recoverable_page_diagnostic] *)
Definition preserve_recoverable_page_diagnostic (d : PdfFailureDiagnostic) (st : pdf_status) :
    PdfFailureDiagnostic :=
  if negb (bool_decide (st = Partial)) || negb (bool_decide (d_recommendation d = DeletionCandidate))
  then d
  else {| d_error_type := d_error_type d; d_phase := d_phase d;
          reason_code := py "pdf_structural_damage_with_recoverable_pages"; retryable := false;
          d_recommendation := ManualReview; confidence := confidence d; exit_code := exit_code d |}.

(** How the recycling of a file ends: it is kept (the action was refused, or it
    raised); it is in the trash and the resolution of its review raised; it is in the
    trash and resolved, and the event of it was recorded or raised. *)
Inductive recycling : Type := FileKept | ReviewFailed | Recycled (recorded : bool).

(** [_recycle_unrecoverable_pdf]: the rows of a file in the trash are deleted. *)
Definition recycle_document (outcome : recycling) : X bool :=
  match outcome with
  | FileKept => mret false
  | ReviewFailed => set_route (delete_document key);; mret false
  | Recycled recorded =>
      set_route (delete_document key);;
      set_route (emit (Resolve (py "pdf_unrecoverable_structural_damage")));;
      mret recorded
  end.

(** The guard of [_maybe_recycle_unrecoverable_pdf] *)
Definition may_recycle (type : pystr) (staged : Z) : bool :=
  bool_decide (type = py "PdfStructuralRecoveryFailed") && (staged =? 0) && apply_actions cfg &&
  pdfminer_fallback cfg.

(** [_maybe_recycle_unrecoverable_pdf] *)
Definition maybe_recycle_unrecoverable_pdf (type : pystr) (staged : Z) (outcome : recycling) : X bool :=
  if may_recycle type staged then recycle_document outcome else mret false.

(** [_handle_isolated_failure]; [recycle] is how a recycling ends, if there is one. *)
Definition handle_isolated_failure (recycle : recycling) (e : pdf_exception) : X DocumentResult :=
  flush_isolated_batch true;;
  let '(type, text, phase, exit) := isolated_failure_details e in
  let d := classify_pdf_failure casefold type text phase exit false in
  st ← get_state;
  let staged := successful_staged_page_count st.1 in
  let stored_status :=
    if bool_decide (type = py "PdfStructuralRecoveryFailed") && (0 <? staged) then Partial else Failed in
  on_route (store_failure cfg s stored_status type (take 2000 text) (retryable d) false now);;
  set_route (store_document_warnings cfg s (py "extract") (warning_count st.2) (warning_samples st.2));;
  set_route (emit (Publish (preserve_recoverable_page_diagnostic d stored_status) stored_status));;
  recycled_ ← maybe_recycle_unrecoverable_pdf type staged recycle;
  mret (upd recycled (λ _, recycled_) (upd transient (λ _, retryable d)
         (upd result_warnings (λ _, warning_count st.2) (result_of stored_status)))).

(** ** One attempt *)

(** [except Cancelled / except Timeout / except Exception]; the handlers raise what
    they raise, and a cancellation is raised again. *)
Definition handling (recycle : recycling) (m : X DocumentResult) : X DocumentResult :=
  λ st, match m st with
        | (st', Ok d) => (st', Ok d)
        | (st', Err CancellationRequested) =>
            (handle_isolated_cancellation;; throw CancellationRequested) st'
        | (st', Err (PdfDocumentTimeout text phase)) => handle_isolated_timeout text phase st'
        | (st', Err e) => handle_isolated_failure recycle e st'
        end.

(** [_process_document_isolated] *)
Definition process_document_isolated (initial_staged : Z) (source : stream) (recycle : recycling) :
    P DocumentResult :=
  λ r,
  match handling recycle
    (early ← stream_isolated_document source.1 source.2;
     match early with Some result => mret result | None => complete_isolated_document end)
    (r, new_extraction initial_staged) with
  | (st, result) => (st.1, result)
  end.
End session.
