(* ===== verification/PdfChild.v ===== *)
(** * The child of an isolated extraction (capabilities/formats/pdf/pdf_isolation.py)

    [_ChildExtractionSession]: the extraction of the pages of a range, the limit on
    consecutive page errors, and the recovery of a damaged document by a repaired
    copy and by a second extractor.  It ends as a [stream]: the messages put on the
    channel, the last of which reports a failure of the child itself.

    The extractors are third-party code: an [Engine] holds what they answer.  The
    page answers are those after the choice between native text and OCR and the
    check of the length.  Native warnings, the OCR admission and the page
    checkpoints exchange control messages that the parent consumes before the
    stream, and are left out. *)

From S2P Require Import Prelude FileIdentity DedupKeeper PdfRetry PdfStore PdfCache PdfSession.

#[global] Open Scope Z_scope.

Definition MAX_CONSECUTIVE_PAGE_ERRORS : Z := PDF_PAGE_SEQUENCE_ERROR_LIMIT.

(** An exception of the child: its type and its text. *)
Definition child_error : Type := (pystr * pystr)%type.

Inductive page_answer : Type :=
| PageText (source text : pystr)
| PageRaises (e : child_error).

Inductive open_answer : Type :=
| OpenRaises (e : child_error)
| NeedsPass
| Opened (total : Z) (metadata : pystr).

(** A document opened by PyMuPDF; [still_matches] is the check of the source after
    the extraction. *)
Record Engine : Type := {
  opening : open_answer;
  load_page : Z → page_answer;
  still_matches : bool
}.

(** The three engines of a session: the source, the copy repaired by qpdf or the
    failure to make one, and the pages pdfminer yields with the exception that
    ends them. *)
Record Engines : Type := {
  source_matches : bool;
  primary : Engine;
  repaired : child_error + Engine;
  miner_pages : list page_answer;
  miner_raises : option child_error;
  miner_metadata : pystr
}.

(** What the parent derives for the child. *)
Record Request : Type := {
  skip_before : Z;
  only_pages : gset Z;
  recovery_reason : option pystr
}.

Record Child : Type := {
  channel : list message;
  header_sent : bool;
  phase : pystr
}.

#[export] Instance Child_eta : Eta Child := λ c,
  {| channel := channel c; header_sent := header_sent c; phase := phase c |}.

Abbreviation C := (stm Child child_error).

Definition put (m : message) : C unit := modify (upd channel (λ ms, ms ++ [m])).
Definition set_phase (p : string) : C unit := modify (upd phase (λ _, py p)).

(** [f"{type(exc).__name__}: {exc}"] *)
Definition describe (e : child_error) : pystr := e.1 ++ py ": " ++ e.2.

Definition runtime_error (text : string) : child_error := (py "RuntimeError", py text).
Definition recovery_failed (text : pystr) : child_error := (py "PdfStructuralRecoveryFailed", text).

Section child.
Variables (cfg : PdfConfig) (casefold : pystr → pystr) (request : Request) (engines : Engines).

(** The page is skipped by a resumed extraction. *)
Definition skipped (number : Z) : bool :=
  (number <? skip_before request) ||
  (negb (bool_decide (only_pages request = ∅)) && negb (bool_decide (number ∈ only_pages request))).

Definition bounds_error (total : Z) : child_error :=
  (py "ValueError", py "page range starts at " ++
     dec_text (match cfg_page_start cfg with None => 1 | Some p => p end) ++
     py ", but document has " ++ dec_text total ++ py " pages").

(** [_emit_page_error]: whether the extraction stops *)
Definition emit_page_error (number end_ consecutive : Z) (e : child_error) (recovery : bool) : C bool :=
  put (MPageError number e.1 (take 2000 e.2));;
  throw_if (fail_fast_pages cfg) e;;
  if consecutive <? MAX_CONSECUTIVE_PAGE_ERRORS then mret false
  else
    throw_if (bool_decide (recovery_reason request ≠ None) || recovery)
      (py "PdfPageSequenceAborted", dec_text consecutive ++
         py " consecutive page extraction failures; last error " ++ describe e);;
    put (MPageErrorLimit number consecutive (Z.max 0 (end_ - number - 1)) e.1 (take 2000 e.2));;
    mret true.

(** [_extract_pages] over the page numbers of the range *)
Fixpoint extract_pages (engine : Engine) (end_ : Z) (recovery : bool) (consecutive : Z)
    (numbers : list Z) : C unit :=
  match numbers with
  | [] => mret tt
  | number :: rest =>
      if skipped number then extract_pages engine end_ recovery consecutive rest
      else match load_page engine number with
           | PageText source text =>
               put (MPage number source text);;
               extract_pages engine end_ recovery 0 rest
           | PageRaises e =>
               stop ← emit_page_error number end_ (consecutive + 1) e recovery;
               if stop : bool then mret tt
               else extract_pages engine end_ recovery (consecutive + 1) rest
           end
  end.

(** [range(start, end)] *)
Definition range (start end_ : Z) : list Z := seqZ start (end_ - start).

(** [extract_with_pymupdf]; [recovery] is the primary error of the evidence. *)
Definition extract_with_pymupdf (engine : Engine) (recovery : option pystr) : C unit :=
  set_phase (if recovery then "open_recovered" else "open");;
  match opening engine with
  | OpenRaises e => throw e
  | NeedsPass => put MProtected
  | Opened total metadata =>
      '(start, end_) ← lift (or_raise (page_bounds cfg total) (bounds_error total));
      (match recovery with Some p => put (MRecovery (Some p)) | None => mret tt end);;
      put (MHeader total start end_ metadata);;
      modify (upd header_sent (λ _, true));;
      set_phase "page_extraction";;
      extract_pages engine end_ (bool_decide (recovery ≠ None)) 0 (range start end_);;
      throw_if (negb (still_matches engine))
        (runtime_error "source metadata changed during PDF extraction");;
      set_phase "complete";;
      put (MDone total start end_)
  end.

(** [try: m except BaseException as exc: h(exc)] *)
Definition catch {A} (m : C A) (h : child_error → C A) : C A :=
  λ c, match m c with (c', Ok a) => (c', Ok a) | (c', Err e) => h e c' end.

(** [_primary_failure_detail] *)
Definition primary_failure_detail : C (option pystr) :=
  match recovery_reason request with
  | Some reason => mret (Some reason)
  | None =>
      catch (extract_with_pymupdf (primary engines) None;; mret None) (λ e,
        c ← get_state;
        throw_if (header_sent c) e;;
        throw_if (retryable (classify_pdf_failure casefold e.1 e.2 (phase c) None false)) e;;
        mret (Some (describe e)))
  end.

(** [_qpdf_failure_detail] *)
Definition qpdf_failure_detail (primary_detail : pystr) : C (option pystr) :=
  catch
    (set_phase "qpdf_recovery";;
     match repaired engines with
     | inl e => throw e
     | inr engine => extract_with_pymupdf engine (Some (take 1000 primary_detail));; mret None
     end)
    (λ e,
      c ← get_state;
      when (header_sent c)
        (throw_if (negb (bool_decide (e.1 = py "PdfPageSequenceAborted"))) e;;
         put MRestart;;
         modify (upd header_sent (λ _, false)));;
      throw_if (negb (pdfminer_fallback cfg))
        (recovery_failed (primary_detail ++ py "; " ++ describe e));;
      mret (Some (describe e))).

(** The loop of [_extract_with_pdfminer]: the number of pages seen. *)
Fixpoint mine_pages (range_limit : option Z) (number page_count : Z) (answers : list page_answer) :
    C Z :=
  match answers with
  | [] => match miner_raises engines with Some e => throw e | None => mret page_count end
  | answer :: rest =>
      if match range_limit with Some l => l <=? number | None => false end then mret page_count
      else if match cfg_page_start cfg with Some p => number <? p - 1 | None => false end ||
              skipped number
      then mine_pages range_limit (number + 1) (number + 1) rest
      else
        (match answer with
         | PageText _ text => put (MPage number (py "pdfminer") text)
         | PageRaises e =>
             put (MPageError number e.1 (take 2000 e.2));;
             throw_if (fail_fast_pages cfg) e
         end);;
        mine_pages range_limit (number + 1) (number + 1) rest
  end.

(** [_extract_with_pdfminer] *)
Definition extract_with_pdfminer : C (Z * Z * Z) :=
  let start := match cfg_page_start cfg with None => 0 | Some p => p - 1 end in
  put (MHeader 0 start (-1) (miner_metadata engines));;
  let range_limit :=
    match max_pages cfg with
    | None => cfg_page_end cfg
    | Some m => Some (Z.min (default (2 ^ 63 - 1) (cfg_page_end cfg)) (start + m))
    end in
  page_count ← mine_pages range_limit 0 0 (miner_pages engines);
  throw_if (page_count =? 0) (runtime_error "pdfminer produced no pages");;
  '(start, end_) ← lift (or_raise (page_bounds cfg page_count) (bounds_error page_count));
  mret (page_count, start, end_).

(** [_extract_with_pdfminer_recovery] *)
Definition extract_with_pdfminer_recovery (primary_detail qpdf_error : pystr) : C unit :=
  catch
    (set_phase "pdfminer_recovery";;
     put (MRecovery (Some (take 1000 primary_detail)));;
     '(total, start, end_) ← extract_with_pdfminer;
     set_phase "complete";;
     put (MDone total start end_))
    (λ e, throw (recovery_failed (primary_detail ++ py "; " ++ qpdf_error ++ py "; pdfminer " ++
                                  describe e))).

(** [_ChildExtractionSession.run] *)
Definition run_session : C unit :=
  throw_if (negb (source_matches engines))
    (runtime_error "source metadata changed before PDF extraction");;
  primary_detail ← primary_failure_detail;
  match primary_detail with
  | None => mret tt
  | Some primary_detail =>
      qpdf_error ← qpdf_failure_detail primary_detail;
      match qpdf_error with
      | None => mret tt
      | Some qpdf_error => extract_with_pdfminer_recovery primary_detail qpdf_error
      end
  end.

Definition new_child : Child := {| channel := []; header_sent := false; phase := py "startup" |}.

(** [_extract_child] *)
Definition extract_child : list message :=
  match run_session new_child with
  | (c, Ok _) => channel c
  | (c, Err e) => channel c ++ [MFatal e.1 (take 2000 e.2) (phase c)]
  end.
End child.
