(* ===== verification/PdfRun.v ===== *)
(** * A document in a run of the PDF route (capabilities/formats/pdf/pdf_route.py)

    The decision of the cache, the inputs of a worker, the attempts of a run, and
    the extraction inside the process with its fallback.  [clock] is the time of
    the decision and of the worker's inputs, [finish] that of the writes. *)

From S2P Require Import Prelude FileIdentity DedupKeeper PdfRetry PdfStore PdfCache PdfSession PdfChild.

#[global] Open Scope Z_scope.

Section run.
Variables (cfg : PdfConfig) (casefold : pystr → pystr) (json_limit : ErrorLimit → pystr)
  (fingerprint : FileSnapshot → bool → option pystr) (s : FileSnapshot) (digest : option pystr)
  (clock finish : Z).

Let key := file_key s.
Let sig := processing_signature cfg.

(** ** The inputs of a worker *)

(** [_PdfWorkerContext]: the staged pages at the start and what the child gets. *)
Record WorkerContext : Type := {
  ctx_staged : Z;
  ctx_request : Request
}.

(** [_isolated_extraction_config] and [_worker_context_from_connection]: a structural
    recovery starts again at the first page. *)
Definition worker_context (r : PdfRoute) : WorkerContext :=
  let '(skip, only, _) := resumable_pages cfg s clock r in
  let reason := structural_recovery_reason s r in
  {| ctx_staged := successful_staged_page_count cfg s r;
     ctx_request := match reason with
                    | Some _ => {| skip_before := 0; only_pages := ∅; recovery_reason := reason |}
                    | None => {| skip_before := skip; only_pages := only; recovery_reason := None |}
                    end |}.

(** ** The extraction inside the process *)

(** What PyMuPDF answers in the process; [PageCancelled] is a cancellation seen
    before a page. *)
Inductive local_page : Type :=
| LocalPage (source text : pystr)
| LocalRaises (e : child_error)
| LocalCancelled.

Inductive local_open : Type :=
| LocalOpenRaises (e : child_error)
| LocalNeedsPass
| LocalOpened (total : Z) (metadata : pystr).

Record LocalCounts : Type := { l_native : Z; l_ocr : Z; l_errors : Z }.

#[export] Instance LocalCounts_eta : Eta LocalCounts := λ l,
  {| l_native := l_native l; l_ocr := l_ocr l; l_errors := l_errors l |}.

Definition as_exception (e : child_error) : pdf_exception := OtherError e.1 e.2.

(** [_extract_local_pages] *)
Fixpoint extract_local_pages (request : Request) (load : Z → local_page) (numbers : list Z)
    (l : LocalCounts) : P LocalCounts :=
  match numbers with
  | [] => mret l
  | number :: rest =>
      if skipped request number then extract_local_pages request load rest l
      else match load number with
           | LocalCancelled => throw CancellationRequested
           | LocalPage source text =>
               modify (store_staging_page key sig number source text);;
               extract_local_pages request load rest
                 (if bool_decide (source = py "ocr") then upd l_ocr (Z.add 1) l
                  else upd l_native (Z.add 1) l)
           | LocalRaises e =>
               modify (store_page_failure cfg s number e.1 (take 2000 e.2));;
               throw_if (fail_fast_pages cfg) (as_exception e);;
               extract_local_pages request load rest (upd l_errors (Z.add 1) l)
           end
  end.

(** The body of the [try] of [_process_document_local], and whether the document
    was prepared: [inl] is a protected document. *)
Definition local_body (request : Request) (opening : local_open) (load : Z → local_page) :
    stm (PdfRoute * bool) pdf_exception DocumentResult :=
  let on {A} (m : P A) : stm (PdfRoute * bool) pdf_exception A :=
    λ st, match m st.1 with (r, a) => ((r, st.2), a) end in
  match opening with
  | LocalOpenRaises e => throw (as_exception e)
  | LocalNeedsPass =>
      on (store_failure cfg s Protected (py "EncryptedPdf") (py "password required") false false finish);;
      mret (result_of Protected)
  | LocalOpened total metadata =>
      '(start, end_) ← lift (or_raise (page_bounds cfg total) (as_exception (bounds_error cfg total)));
      on (modify (prepare_document cfg s total metadata));;
      modify (λ st, (st.1, true));;
      l ← on (extract_local_pages request load (range start end_) {| l_native := 0; l_ocr := 0; l_errors := 0 |});
      let status := if negb (l_errors l =? 0) then Partial else Done in
      on (modify (promote_document cfg s total (end_ - start) metadata digest status (start + 1) end_
                    ((0 <? start) || (end_ <? total)) (l_errors l) None finish));;
      on (when (bool_decide (status = Done)) (modify (emit (Reconcile []))));;
      mret {| result_status := status; result_native := l_native l; result_ocr := l_ocr l;
              result_errors := l_errors l; timed_out := false; result_warnings := 0;
              transient := false; recycled := false |}
  end.

(** [_handle_local_failure]; [fallback] is [_process_with_pdfminer]. *)
Definition handle_local_failure (fallback : P DocumentResult) (was_prepared : bool)
    (e : pdf_exception) : P DocumentResult :=
  if pdfminer_fallback cfg && negb was_prepared then
    λ r, match fallback r with
         | (r', Ok d) => (r', Ok d)
         | (r', Err CancellationRequested) => (r', Err CancellationRequested)
         | (r', Err f) =>
             let text := py "PyMuPDF " ++ exception_type e ++ py ": " ++ exception_text e ++
                         py "; pdfminer " ++ exception_type f ++ py ": " ++ exception_text f in
             (store_failure cfg s Failed (exception_type f) (take 2000 text) false false finish;;
              mret (result_of Failed)) r'
         end
  else
    let retry := is_retryable_pdf_document_error casefold (exception_type e) (exception_text e) in
    store_failure cfg s Failed (exception_type e) (take 2000 (exception_text e)) retry false finish;;
    mret (upd transient (λ _, retry) (result_of Failed)).

(** [_process_document_local] *)
Definition process_document_local (request : Request) (opening : local_open) (load : Z → local_page)
    (fallback : P DocumentResult) : P DocumentResult :=
  λ r, match local_body request opening load (r, false) with
       | ((r', _), Ok d) => (r', Ok d)
       | ((r', _), Err CancellationRequested) => (r', Err CancellationRequested)
       | ((r', was_prepared), Err e) => handle_local_failure fallback was_prepared e r'
       end.

(** ** The fallback extractor *)

Record MinerState : Type := { m_count : Z; m_processed : Z; m_errors : Z }.

(** The loop of [_process_with_pdfminer] over the yielded pages. *)
Fixpoint mine_local_pages (start : Z) (end_ : option Z) (number : Z) (answers : list local_page)
    (ending : option child_error) (m : MinerState) : P MinerState :=
  match answers with
  | [] => match ending with Some e => throw (as_exception e) | None => mret m end
  | LocalCancelled :: _ => throw CancellationRequested
  | answer :: rest =>
      let m := {| m_count := number + 1; m_processed := m_processed m; m_errors := m_errors m |} in
      if match end_ with Some e => e <=? number | None => false end then mret m
      else if number <? start then mine_local_pages start end_ (number + 1) rest ending m
      else match answer with
           | LocalRaises e =>
               modify (store_page_failure cfg s number e.1 (take 2000 e.2));;
               throw_if (fail_fast_pages cfg) (as_exception e);;
               mine_local_pages start end_ (number + 1) rest ending
                 {| m_count := number + 1; m_processed := m_processed m + 1;
                    m_errors := m_errors m + 1 |}
           | LocalPage _ text =>
               modify (store_staging_page key sig number (py "pdfminer") text);;
               mine_local_pages start end_ (number + 1) rest ending
                 {| m_count := number + 1; m_processed := m_processed m + 1; m_errors := m_errors m |}
           | LocalCancelled => throw CancellationRequested
           end
  end.

(** [_process_with_pdfminer] *)
Definition process_with_pdfminer (metadata : pystr) (answers : list local_page)
    (ending : option child_error) : P DocumentResult :=
  let start := match cfg_page_start cfg with None => 0 | Some p => p - 1 end in
  let end_ := match max_pages cfg with
              | None => cfg_page_end cfg
              | Some m => Some (Z.min (default (2 ^ 63 - 1) (cfg_page_end cfg)) (start + m))
              end in
  modify (λ r, delete_staging key (prepare_document cfg s 0 metadata r));;
  m ← mine_local_pages start end_ 0 answers ending {| m_count := 0; m_processed := 0; m_errors := 0 |};
  throw_if (m_processed m =? 0)
    (OtherError (py "RuntimeError") (py "pdfminer produced no pages in the requested range"));;
  let status := if negb (m_errors m =? 0) then Partial else Done in
  modify (promote_document cfg s (m_count m) (m_processed m) metadata digest status (start + 1)
            (start + m_processed m) ((0 <? start) || bool_decide (end_ ≠ None)) (m_errors m) None finish);;
  when (bool_decide (status = Done)) (modify (emit (Reconcile [])));;
  mret (upd result_native (λ _, m_processed m - m_errors m)
         (upd result_errors (λ _, m_errors m) (result_of status))).

(** ** The attempts of a run *)

(** The loop of [_process_document] when documents are isolated: [answers] gives the
    stream of an attempt from its inputs, [recycle] how a recycling ends. *)
Fixpoint process_document (attempts : nat) (answers : nat → WorkerContext → stream)
    (recycle : recycling) (ctx : WorkerContext) (attempt : nat) : P DocumentResult :=
  result ← process_document_isolated cfg casefold json_limit s digest finish (ctx_staged ctx)
             (answers attempt ctx) recycle;
  match attempts with
  | O => mret result
  | S attempts' =>
      if negb (transient result) then mret result
      else
        r ← get_state;
        process_document attempts' answers recycle (worker_context r) (S attempt)
  end.

(** [prepare] of [_execute_extraction] and the work of an isolated worker: [None] is
    a cache hit. *)
Definition run_document (answers : nat → WorkerContext → stream) (recycle : recycling) :
    P (option DocumentResult) :=
  decision ← is_cache_hit cfg fingerprint s clock;
  if hit decision then mret None
  else
    r ← get_state;
    result ← process_document TRANSIENT_RETRIES_PER_RUN answers recycle (worker_context r) 0;
    mret (Some result).
End run.
