(* ===== verification/PdfLaws.v ===== *)
(** * Laws of the PDF store and of a session

    What each operation of the store keeps: the identity and the retry budget of a
    document, the absence of other owners of its path, the staged rows; and what
    the stream of an extraction leaves behind, whenever its batches are flushed. *)

From S2P Require Import Prelude FileIdentity DedupKeeper PdfRetry PdfStore PdfCache PdfSession PdfChild PdfRun.

#[global] Open Scope Z_scope.

Section laws.
Context (cfg : PdfConfig) (s : FileSnapshot).

Abbreviation key := (file_key s).
Abbreviation sig := (processing_signature cfg).

(** ** Owners of the path *)

(** No other document is stored under the path of the file. *)
Definition sole_owner (r : PdfRoute) : Prop :=
  ∀ k d, documents r !! k = Some d → k ≠ key → doc_path d ≠ path s.

Lemma no_stale_owners r : stale_path_owners s r = [] ↔ sole_owner r.
Proof.
  assert (filter (λ row, doc_path row.2 = path s ∧ row.1 ≠ key) (documents r) = ∅ ↔ sole_owner r)
    as <-.
  { rewrite map_empty_filter. unfold map_Forall, sole_owner. cbn. naive_solver. }
  unfold stale_path_owners. split; [|by intros ->].
  intros H%fmap_nil_inv. by apply map_to_list_empty_iff in H.
Qed.

Lemma sole_owner_ext r r' :
  (∀ k, k ≠ key → documents r' !! k = documents r !! k) → sole_owner r → sole_owner r'.
Proof. intros He Hr k d Hd Hk. apply (Hr k d); [by rewrite <- He|done]. Qed.

(** ** Documents without a readable page *)

Definition no_success (r : PdfRoute) : Prop :=
  ∀ n p, page_staging r !! (key, sig, n) = Some p → is_error_page p = true.

Lemma no_successes r : staged_successes key sig r = ∅ ↔ no_success r.
Proof.
  unfold staged_successes, staged_rows. rewrite map_empty_filter. unfold map_Forall, no_success.
  cbn. split.
  - intros H n p Hp. destruct (is_error_page p) eqn:E; [done|].
    exfalso. apply (H (key, sig, n) p); [|done]. by apply map_lookup_filter_Some.
  - intros H [[k' s'] n] p [Hp [= -> ->]]%map_lookup_filter_Some Hf. cbn in Hf.
    by rewrite (H n p Hp) in Hf.
Qed.

(** The file was never read: no page is staged, and the document, if there is one,
    is that of the file and has recorded [c] transient failures. *)
Record unread (c : Z) (r : PdfRoute) : Prop := {
  unread_owner : sole_owner r;
  unread_pages : no_success r;
  unread_count : match documents r !! key with
                 | None => c = 0
                 | Some d => source_changed cfg s d = false ∧ transient_retry_count d = c
                 end
}.

(** An update of the document that keeps its identity and its budget. *)
Definition keeps_budget (f : Document → Document) : Prop :=
  ∀ d, source_changed cfg s (f d) = source_changed cfg s d ∧
       transient_retry_count (f d) = transient_retry_count d.

Lemma unread_update c f r : keeps_budget f → unread c r → unread c (update_document key f r).
Proof.
  intros Hf [Ho Hp Hc]. split; [|done|].
  - eapply sole_owner_ext, Ho. intros k Hk. cbn. by rewrite lookup_alter_ne.
  - cbn. rewrite lookup_alter_eq. destruct (documents r !! key) as [d|]; cbn; [|exact Hc].
    destruct (Hf d) as [-> ->]. exact Hc.
Qed.

Lemma unread_documents c r r' :
  documents r' = documents r → (no_success r → no_success r') → unread c r → unread c r'.
Proof. intros Hd Hp [Ho Hn Hc]. split; unfold sole_owner in *; rewrite ?Hd; auto. Qed.

Lemma keeps_completed n : keeps_budget (upd completed_pages (λ _, n)).
Proof. by intros []. Qed.

Lemma keeps_errors_count n : keeps_budget (upd page_errors_count (λ _, n)).
Proof. by intros []. Qed.

Lemma unread_recount c r : unread c r → unread c (recount_completed key sig r).
Proof. apply unread_update, keeps_completed. Qed.

Lemma unread_page_failure c n t m r : unread c r → unread c (store_page_failure cfg s n t m r).
Proof.
  intros H. apply unread_recount. eapply unread_documents, H; [done|].
  intros Hn n' p. cbn. rewrite lookup_insert. case_decide as E; [by intros [= <-]|apply Hn].
Qed.

Lemma no_success_filter Q `{!∀ row, Decision (Q row)} r :
  no_success r → no_success (upd page_staging (filter Q) r).
Proof. intros Hn n p [Hp _]%map_lookup_filter_Some. by eapply Hn. Qed.

Lemma unread_restart c r : unread c r → unread c (restart_structural_recovery_attempt cfg s r).
Proof.
  intros H. apply unread_recount, unread_update; [apply keeps_errors_count|].
  eapply unread_documents, H; [done|]. intros Hn. by apply no_success_filter.
Qed.

Lemma unread_discard c r : unread c r → unread c (discard_failed_pages key sig r).
Proof.
  intros H. apply unread_recount, unread_update; [apply keeps_errors_count|].
  eapply unread_documents, H; [done|]. intros Hn. by apply no_success_filter.
Qed.

Lemma set_identity_matches st d : source_changed cfg s (set_identity cfg s st d) = false.
Proof.
  destruct d. unfold source_changed. cbn. rewrite !Z.eqb_refl. by rewrite bool_decide_eq_true_2.
Qed.

Lemma fresh_matches st : source_changed cfg s (fresh_document cfg s st) = false.
Proof. unfold source_changed. cbn. rewrite !Z.eqb_refl. by rewrite bool_decide_eq_true_2. Qed.

Lemma unread_prepare c n meta r : unread c r →
  unread c (prepare_document cfg s n meta r) ∧
  documents (prepare_document cfg s n meta r) !! key ≠ None.
Proof.
  intros H. unfold prepare_document. cbv zeta.
  set (r1 := match documents r !! key with None => _ | Some d => _ end).
  assert (unread c r1) as H1.
  { subst r1. pose proof (unread_count _ _ H) as Hc. destruct (documents r !! key) as [d|] eqn:E.
    - destruct Hc as [-> _]. case_match; [by apply unread_discard|done].
    - eapply unread_documents, H; [done|]. intros Hn. by apply no_success_filter. }
  clearbody r1. rewrite (proj2 (no_stale_owners r1)) by apply H1. cbn [foldr].
  split; [|cbn; by rewrite lookup_insert_eq]. destruct H1 as [Ho Hn Hc]. split; [|done|].
  - eapply sole_owner_ext, Ho. intros k Hk. cbn. by rewrite lookup_insert_ne.
  - cbn. rewrite lookup_insert_eq. destruct (documents r1 !! key) as [d|].
    + split; [exact (set_identity_matches Processing d)|]. apply Hc.
    + split; [exact (fresh_matches Processing)|]. by cbn.
Qed.

Lemma prepare_keys n meta r :
  recoverable_retry_keys (prepare_document cfg s n meta r) = recoverable_retry_keys r.
Proof.
  assert (∀ l r0, recoverable_retry_keys (foldr delete_document r0 l) = recoverable_retry_keys r0)
    as Hfold by (by induction l as [|k l IH]; cbn).
  unfold prepare_document. cbv zeta. cbn. rewrite Hfold. by repeat case_match.
Qed.

(** ** Failures of an unread document *)

(** The stored document of the file failed with an error of type [t]. *)
Record failed_with (t : pystr) (c : Z) (r : PdfRoute) : Prop := {
  failed_unread : unread c r;
  failed_status : doc_status <$> documents r !! key = Some Failed;
  failed_type : documents r !! key ≫= error_type = Some t
}.

Lemma unread_keys c K r : unread c r → unread c (upd recoverable_retry_keys K r).
Proof. by intros []. Qed.

Lemma failed_keys t c K r : failed_with t c r → failed_with t c (upd recoverable_retry_keys K r).
Proof. intros [Hu Hs Ht]. split; [by apply unread_keys|done|done]. Qed.

Lemma unread_count_successes c r : unread c r → successful_staged_page_count cfg s r = 0.
Proof.
  intros H. unfold successful_staged_page_count. by rewrite (proj2 (no_successes r)) by apply H.
Qed.

Lemma store_failure_spec t m tr now c r : unread c r →
  ∃ r', store_failure cfg s Failed t m tr false now r = (r', Ok tt) ∧
    failed_with t (if tr then c + 1 else 0) r' ∧
    recoverable_retry_keys r' = recoverable_retry_keys r.
Proof.
  intros [Ho Hn Hc]. unfold store_failure. cbv zeta. rewrite get_bind.
  rewrite (proj2 (no_stale_owners r) Ho), throw_if_bind, bool_decide_eq_true_2 by done. cbn [negb].
  assert (match documents r !! key with Some d => source_changed cfg s d | None => false end = false)
    as Hsame by (by destruct (documents r !! key); [destruct Hc|]).
  rewrite Hsame. cbn [when]. eexists. split; [reflexivity|]. split; [|done].
  split; [split; [|done|]| |]; cbn; rewrite ?lookup_insert_eq; [| |done|done].
  - eapply sole_owner_ext, Ho. intros k Hk. cbn. by rewrite lookup_insert_ne.
  - rewrite andb_false_r. destruct (documents r !! key) as [d|]; cbn.
    + destruct Hc as [_ <-]. split; [exact (set_identity_matches Failed d)|by destruct tr].
    + subst c. split; [exact (set_identity_matches Failed (fresh_document cfg s Failed))|].
      by destruct tr.
Qed.

(** ** Streams that deliver no page *)

Definition page_free (m : message) : bool :=
  match m with MPage _ _ _ | MProtected => false | _ => true end.

Context (casefold : pystr → pystr) (json_limit : ErrorLimit → pystr) (digest : option pystr).

(** The session has read nothing, holds no page, and has claimed nothing more. *)
Definition idle (c staged : Z) (keys : gset pystr) (st : Session) : Prop :=
  unread c st.1 ∧ Forall (λ m, page_free m = true) (x_batch st.2) ∧
  initial_staged_pages st.2 = staged ∧ recoverable_retry_keys st.1 = keys.

Lemma unread_flush c keys ms r :
  Forall (λ m, page_free m = true) ms → unread c r → recoverable_retry_keys r = keys →
  unread c (flush_extraction_batch cfg s ms r) ∧
  recoverable_retry_keys (flush_extraction_batch cfg s ms r) = keys.
Proof.
  intros Hms. revert r. induction Hms as [|m ms Hm _ IH]; intros r Hr Hk; [done|].
  cbn. apply IH; destruct m; try done. by apply unread_page_failure.
Qed.

Lemma flush_idle c staged keys clear st :
  idle c staged keys st → ∃ st', flush_isolated_batch cfg s clear st = (st', Ok tt) ∧
    idle c staged keys st' ∧ warning_count st'.2 = warning_count st.2.
Proof.
  intros (Hu&Hb&Hi&Hk). unfold flush_isolated_batch. eexists. split; [reflexivity|].
  destruct (x_batch st.2) as [|m ms] eqn:E; [split; [|done]; split_and!; rewrite ?E; done|].
  destruct (unread_flush c keys (m :: ms) st.1 Hb Hu Hk) as [Hu' Hk'].
  destruct clear; (split; [|done]); split_and!; cbn; rewrite ?E; done.
Qed.

Lemma consume_idle c staged keys now m :
  page_free m = true →
  triple (idle c staged keys) (consume_isolated_message cfg casefold s now m)
    (λ res st, res.1 = None ∧ idle c staged keys st) (idle c staged keys).
Proof.
  intros Hm st Hst. destruct st as [r x], Hst as (Hu&Hb&Hi&Hk). cbn in Hu, Hb, Hi, Hk.
  destruct m; try discriminate Hm; cbn -[prepare_document restart_structural_recovery_attempt];
    (split; [done|]); split_and!; try done.
  all: first [ by apply unread_restart | by apply unread_prepare
             | exact (eq_trans (prepare_keys _ _ _) Hk) | by cbn; destruct (page_error_limit x)
             | apply Forall_app; split; [done|by apply Forall_singleton] ].
Qed.

(** A failing stream: no page, and an exception at the end. *)
Definition fails_without_pages (source : stream) : Prop :=
  Forall (λ m, page_free m = true) source.1 ∧
  ∃ e, source.2 = Some e ∧ e ≠ CancellationRequested.

Lemma consume_raises now m st st' e :
  page_free m = true →
  consume_isolated_message cfg casefold s now m st = (st', Err e) → e ≠ CancellationRequested.
Proof. intros Hm H. destruct m; try discriminate Hm; try discriminate H. by injection H as _ <-. Qed.

Lemma failing_stream c staged keys now ms e st :
  Forall (λ m, page_free m = true) ms → e ≠ CancellationRequested → idle c staged keys st →
  ∃ st' e', stream_isolated_document cfg casefold s now ms (Some e) st = (st', Err e') ∧
    e' ≠ CancellationRequested ∧ idle c staged keys st'.
Proof.
  intros Hms He. revert st. induction Hms as [|m ms Hm _ IH]; intros st Hst; [by exists st, e|].
  cbn [stream_isolated_document]. rewrite stm_bind_eq.
  pose proof (consume_idle c staged keys now m Hm st Hst) as Hc.
  destruct (consume_isolated_message cfg casefold s now m st) as [st1 [[res b]|e1]] eqn:E.
  2:{ exists st1, e1. split; [done|]. split; [|done]. by eapply consume_raises. }
  destruct Hc as [Hres Hst1]. cbn in Hres. subst res. rewrite get_bind, stm_bind_eq.
  destruct (b && batch_is_full st1.2); cbn [when]; [|by apply IH].
  destruct (flush_idle c staged keys true st1 Hst1) as (st2&->&Hst2&_). by apply IH.
Qed.

(** The failure of an attempt is recorded: it spent a retry of the budget [c], or
    its type is not one that is retried; [again] is whether the run tries again. *)
Definition spent (c : Z) (keys : gset pystr) (again : bool) (r : PdfRoute) : Prop :=
  recoverable_retry_keys r = keys ∧
  ∃ t c', failed_with t c' r ∧
    (c' = c + 1 ∨ one_of t EXPLICIT_RECOVERABLE_DOCUMENT_ERRORS = false ∧ again = false).

Lemma spent_finally c keys again r : spent c keys again r → spent c keys false r.
Proof. intros (Hk&t&c'&Hf&[->|[Ht _]]); split; try done; exists t; eauto. Qed.

Lemma spent_ext c keys again r r' :
  documents r' = documents r → page_staging r' = page_staging r →
  recoverable_retry_keys r' = recoverable_retry_keys r → spent c keys again r → spent c keys again r'.
Proof.
  intros Hd Hp Hk (Hkeys&t&c'&[Hu Hst Ht]&H). split; [by rewrite Hk|]. exists t, c'.
  split; [|done]. split; rewrite ?Hd; [|done|done]. eapply unread_documents, Hu; [done|].
  unfold no_success. by rewrite Hp.
Qed.

Lemma failure_details_unread c staged keys now recycle e st :
  apply_actions cfg = false → e ≠ CancellationRequested → 0 <= staged → idle c staged keys st →
  ∃ st' d, handling cfg casefold s now recycle (λ st, (st, Err e)) st = (st', Ok d) ∧
    spent c keys (transient d) st'.1.
Proof.
  intros Hact He Hstaged Hst. unfold handling.
  assert (∀ t m tr (r : PdfRoute), tr = true ∨ one_of t EXPLICIT_RECOVERABLE_DOCUMENT_ERRORS = false →
    unread c r → recoverable_retry_keys r = keys → ∃ r',
    store_failure cfg s Failed t m tr false now r = (r', Ok tt) ∧ spent c keys tr r') as Hstore.
  { intros t m tr r Ht Hu Hk. destruct (store_failure_spec t m tr now c r Hu) as (r'&Hr'&Hf&Hk').
    exists r'. split; [done|]. split; [by rewrite Hk'|]. exists t, (if tr then c + 1 else 0).
    split; [done|]. destruct tr; [by left|]. destruct Ht as [?|Ht]; [done|by right]. }
  destruct (flush_idle c staged keys true st Hst) as (st1&Hflush&(Hu&_&Hi&Hk)&_).
  assert (∀ t m ph ex, retryable (classify_pdf_failure casefold t m ph ex false) = true ∨
            one_of t EXPLICIT_RECOVERABLE_DOCUMENT_ERRORS = false) as Hclass.
  { intros t m ph ex. destruct (one_of t EXPLICIT_RECOVERABLE_DOCUMENT_ERRORS) eqn:E; [left|by right].
    by apply transient_type_retryable. }
  destruct e as [|text phase|text phase ex|t detail phase|t text]; [done| | | |].
  { unfold handle_isolated_timeout. rewrite stm_bind_eq, Hflush, get_bind. cbv zeta.
    rewrite (unread_count_successes c) by done. rewrite Hi.
    destruct (staged <? 0) eqn:E; [lia|]. change (0 <? 0) with false. cbv iota.
    rewrite stm_bind_eq. unfold on_route.
    match goal with |- context [store_failure _ _ _ ?t ?m _] =>
      destruct (Hstore t m _ st1.1 (Hclass t text phase None) Hu Hk) as (r'&->&Hr') end.
    eexists _, _. split; [reflexivity|by eapply spent_ext, spent_finally, Hr']. }
  all: unfold handle_isolated_failure; rewrite stm_bind_eq, Hflush; cbv beta iota zeta delta
    [isolated_failure_details]; rewrite get_bind; cbv zeta;
    rewrite (unread_count_successes c) by done; change (0 <? 0) with false;
    rewrite andb_false_r, stm_bind_eq; unfold on_route;
    match goal with |- context [store_failure _ _ _ ?t (take _ ?m) (retryable (classify_pdf_failure _ _ _ ?ph ?ex _))] =>
      destruct (Hstore t (take 2000 m) _ st1.1 (Hclass t m ph ex) Hu Hk) as (r'&->&Hr') end;
    unfold maybe_recycle_unrecoverable_pdf, may_recycle; rewrite Hact, andb_false_r; cbn [andb];
    eexists _, _; (split; [reflexivity|by eapply spent_ext, Hr']).
Qed.

Lemma failing_attempt c staged keys now source recycle r :
  apply_actions cfg = false →
  unread c r → recoverable_retry_keys r = keys → 0 <= staged → fails_without_pages source →
  ∃ r' d, process_document_isolated cfg casefold json_limit s digest now staged source recycle r =
    (r', Ok d) ∧ spent c keys (transient d) r'.
Proof.
  intros Hact Hu Hk Hs [Hms (e&He&Hce)].
  destruct (failing_stream c staged keys now source.1 e (r, new_extraction staged) Hms Hce)
    as (st&e'&Hst&Hce'&Hidle); [by split_and!|].
  destruct (failure_details_unread c staged keys now recycle e' st Hact Hce' Hs Hidle) as (st'&d&Hh&Hsp).
  exists st'.1, d. split; [|done]. unfold process_document_isolated. rewrite He.
  unfold handling in Hh |- *. rewrite stm_bind_eq, Hst. by rewrite Hh.
Qed.

Lemma failing_attempts clock now answers recycle : apply_actions cfg = false → (∀ n ctx, fails_without_pages (answers n ctx)) →
  ∀ attempts attempt ctx c keys r,
  unread c r → recoverable_retry_keys r = keys → 0 <= ctx_staged ctx →
  ∃ r' d, process_document cfg casefold json_limit s digest clock now attempts answers recycle ctx
    attempt r = (r', Ok d) ∧ recoverable_retry_keys r' = keys ∧
    ∃ t c', failed_with t c' r' ∧ (c + 1 <= c' ∨ one_of t EXPLICIT_RECOVERABLE_DOCUMENT_ERRORS = false).
Proof.
  intros Hact Ha. induction attempts as [|attempts IH]; intros attempt ctx c keys r Hu Hk Hctx;
    cbn [process_document]; rewrite stm_bind_eq;
    destruct (failing_attempt c _ keys now (answers attempt ctx) recycle r Hact Hu Hk Hctx (Ha _ _))
      as (r1&d&->&Hk1&t&c1&Hf&Hc1).
  - exists r1, d. split; [done|]. split; [done|]. exists t, c1. split; [done|].
    destruct Hc1 as [->|[? _]]; [left; lia|by right].
  - destruct (transient d) eqn:Htr; cbn [negb].
    + destruct Hc1 as [->|[_ ?]]; [|done]. rewrite get_bind.
      destruct (IH (S attempt) (worker_context cfg s clock r1) (c + 1) keys r1)
        as (r2&d2&->&Hk2&t2&c2&Hf2&Hc2); [by apply Hf|done| |].
      { unfold worker_context. destruct (resumable_pages _ _ _ _) as [[? ?] ?]. cbn.
        unfold successful_staged_page_count, count. lia. }
      exists r2, d2. split; [done|]. split; [done|]. exists t2, c2. split; [done|].
      destruct Hc2; [left; lia|by right].
    + exists r1, d. split; [done|]. split; [done|]. exists t, c1. split; [done|].
      destruct Hc1 as [->|[? _]]; [left; lia|by right].
Qed.
End laws.
