(* ===== verification/PdfPublish.v ===== *)
(** * What an extraction stages and publishes

    The pages a stream delivers, whenever its batches are flushed; the rows they
    leave in the staging table and in the errors table; the rows a promotion
    publishes, and the row of the cache query it leaves. *)

From S2P Require Import Prelude FileIdentity DedupKeeper PdfRetry PdfStore PdfCache PdfSession PdfChild PdfRun PdfLaws.

#[global] Open Scope Z_scope.

(** The page a message delivers: its number and its staged row. *)
Definition page_of (m : message) : option (Z * Page) :=
  match m with
  | MPage n source text => Some (n, {| page_source := source; page_text := text |})
  | MPageError n _ _ => Some (n, {| page_source := py "error"; page_text := [] |})
  | _ => None
  end.

Definition is_page (m : message) : bool := bool_decide (page_of m ≠ None).
Definition is_failure (m : message) : bool := match m with MPageError _ _ _ => true | _ => false end.
Definition numbers (ms : list message) : list Z := fst <$> omap page_of ms.
Definition failures (ms : list message) : Z := zlen (List.filter is_failure ms).

Section publish.
Context (cfg : PdfConfig) (s : FileSnapshot).

Abbreviation key := (file_key s).
Abbreviation sig := (processing_signature cfg).
Abbreviation staged r := (staged_rows key sig r).
Abbreviation errors r := (error_rows key sig r).
Abbreviation flush := (flush_extraction_batch cfg s).

(** ** Staging *)

Lemma staged_store n source text r :
  staged (store_staging_page key sig n source text r) =
  <[(key, sig, n) := {| page_source := source; page_text := text |}]> (staged r).
Proof. unfold staged_rows. cbn. by apply map_filter_insert_True. Qed.

Lemma staged_message m n p r : page_of m = Some (n, p) →
  staged (stage_message cfg s m r) = <[(key, sig, n) := p]> (staged r).
Proof. destruct m; intros [= <- <-]; (etrans; [apply staged_store|done]). Qed.

Lemma errors_message m n p r : page_of m = Some (n, p) →
  errors (stage_message cfg s m r) =
  (match m with MPageError _ t e => <[(key, sig, n) := (t, e)]> (errors r) | _ => errors r end).
Proof.
  destruct m as [| | | | | | |n' t e| |]; intros [= <- <-]; [done|]. unfold error_rows.
  change (page_errors (stage_message cfg s (MPageError n' t e) r))
    with (<[(key, sig, n') := (t, e)]> (page_errors r)).
  by apply map_filter_insert_True.
Qed.

Lemma numbers_cons m n p ms : page_of m = Some (n, p) → numbers (m :: ms) = n :: numbers ms.
Proof. unfold numbers. cbn [omap list_omap]. by intros ->. Qed.

Lemma numbers_skip m ms : page_of m = None → numbers (m :: ms) = numbers ms.
Proof. unfold numbers. cbn [omap list_omap]. by intros ->. Qed.

Lemma page_message m : is_page m = true → ∃ n p, page_of m = Some (n, p).
Proof.
  unfold is_page. intros H%bool_decide_eq_true. destruct (page_of m) as [[n p]|]; [by eexists _, _|done].
Qed.

Lemma flush_keeps n ms r : n ∉ numbers ms →
  staged (flush ms r) !! (key, sig, n) = staged r !! (key, sig, n).
Proof.
  revert r. induction ms as [|m ms IH]; intros r Hn; [done|]. cbn [flush_extraction_batch foldl].
  destruct (page_of m) as [[n' p]|] eqn:Hp.
  - rewrite (numbers_cons m n' p) in Hn by done. apply not_elem_of_cons in Hn as [Hne Hn].
    etrans; [by apply IH|]. rewrite (staged_message m n' p) by done.
    by rewrite lookup_insert_ne by congruence.
  - rewrite numbers_skip in Hn by done. etrans; [by apply IH|]. by destruct m.
Qed.

(** The page a message delivers is staged by its batch. *)
Lemma flush_stages ms r m n p :
  NoDup (numbers ms) → m ∈ ms → page_of m = Some (n, p) →
  staged (flush ms r) !! (key, sig, n) = Some p.
Proof.
  intros Hnd Hm Hp. revert r. induction ms as [|m' ms IH]; intros r; [by apply not_elem_of_nil in Hm|].
  cbn [flush_extraction_batch foldl]. apply elem_of_cons in Hm as [<-|Hm].
  - rewrite (numbers_cons m n p) in Hnd by done. apply NoDup_cons in Hnd as [Hn _].
    etrans; [by apply flush_keeps|]. rewrite (staged_message m n p) by done. by rewrite lookup_insert_eq.
  - apply IH; [|done]. destruct (page_of m') as [[n' p']|] eqn:Hp'.
    + rewrite (numbers_cons m' n' p') in Hnd by done. by apply NoDup_cons in Hnd as [_ ?].
    + by rewrite numbers_skip in Hnd.
Qed.

(** The rows after a batch of new pages. *)
Lemma flush_counts ms : ∀ r,
  Forall (λ m, is_page m = true) ms → NoDup (numbers ms) →
  (∀ n, n ∈ numbers ms → staged r !! (key, sig, n) = None ∧ errors r !! (key, sig, n) = None) →
  count (staged (flush ms r)) = count (staged r) + zlen ms ∧
  count (errors (flush ms r)) = count (errors r) + failures ms.
Proof.
  induction ms as [|m ms IH]; intros r Hms Hnd Hnew; [by rewrite !Z.add_0_r|].
  apply Forall_cons in Hms as [(n&p&Hp)%page_message Hms].
  rewrite (numbers_cons m n p) in Hnd, Hnew by done. apply NoDup_cons in Hnd as [Hn Hnd].
  pose proof (staged_message m n p r Hp) as Hst. pose proof (errors_message m n p r Hp) as Her.
  destruct (Hnew n) as [Hns Hne]; [left|].
  destruct (IH (stage_message cfg s m r) Hms Hnd) as [Hc He].
  { intros n' Hn'. destruct (Hnew n') as [H1 H2]; [by right|]. assert (n ≠ n') by congruence.
    rewrite Hst, Her. split; [by rewrite lookup_insert_ne by congruence|].
    destruct m; try done. by rewrite lookup_insert_ne by congruence. }
  cbn [flush_extraction_batch foldl]. split.
  - etrans; [exact Hc|]. rewrite Hst. unfold count. rewrite map_size_insert_None by done.
    cbn [length]. lia.
  - etrans; [exact He|]. rewrite Her. unfold failures, count. cbn [List.filter].
    destruct m; try discriminate Hp; cbn [is_failure]; [done|]. injection Hp as -> <-.
    rewrite map_size_insert_None by done. cbn [length]. lia.
Qed.

(** ** Streams of pages *)

Context (casefold : pystr → pystr) (json_limit : ErrorLimit → pystr) (digest : option pystr)
  (now : Z).

(** The tables once the open batch is flushed. *)
Definition settled (st : Session) : PdfRoute := flush (x_batch st.2) st.1.

(** What the pages of a stream leave of the local state, [n] of them failed. *)
Record carried (n : Z) (x x' : Extraction) : Prop := {
  carried_errors : x_errors x' = n + x_errors x;
  carried_total : x_total x' = x_total x;
  carried_start : x_start x' = x_start x;
  carried_end : x_end x' = x_end x;
  carried_metadata : x_metadata x' = x_metadata x;
  carried_prepared : prepared x' = prepared x;
  carried_limit : page_error_limit x' = page_error_limit x;
  carried_initial : initial_staged_pages x' = initial_staged_pages x
}.

Lemma carried_trans n1 n2 x1 x2 x3 : carried n1 x1 x2 → carried n2 x2 x3 → carried (n1 + n2) x1 x3.
Proof. intros [] []. split; [lia|congruence..]. Qed.

Lemma settled_flush st : ∃ st', flush_isolated_batch cfg s true st = (st', Ok tt) ∧
  st'.1 = settled st ∧ x_batch st'.2 = [] ∧ carried 0 st.2 st'.2.
Proof.
  unfold flush_isolated_batch, settled. eexists. split; [reflexivity|].
  destruct (x_batch st.2) as [|m ms] eqn:E; [by rewrite E|]. by cbn.
Qed.

Lemma settled_page m st : is_page m = true →
  ∃ st', consume_isolated_message cfg casefold s now m st = (st', Ok (None, true)) ∧
    settled st' = stage_message cfg s m (settled st) ∧
    carried (if is_failure m then 1 else 0) st.2 st'.2.
Proof.
  intros (n&p&Hp)%page_message. unfold settled.
  destruct m; try discriminate Hp; (eexists; split; [reflexivity|]); cbn;
    unfold flush_extraction_batch; (split; [by rewrite foldl_app|]); destruct st as [r []]; by split.
Qed.

Lemma failures_cons m ms : failures (m :: ms) = (if is_failure m then 1 else 0) + failures ms.
Proof. unfold failures. cbn [List.filter]. destruct (is_failure m); cbn [length]; lia. Qed.

(** The tables after a stream of pages do not depend on where its batches are flushed. *)
Lemma stream_pages body rest ending : ∀ st, Forall (λ m, is_page m = true) body →
  ∃ st', stream_isolated_document cfg casefold s now (body ++ rest) ending st =
      stream_isolated_document cfg casefold s now rest ending st' ∧
    settled st' = flush body (settled st) ∧ carried (failures body) st.2 st'.2.
Proof.
  induction body as [|m body IH]; intros st Hb; [exists st; by split_and!|].
  apply Forall_cons in Hb as [Hm Hb]. cbn [app stream_isolated_document].
  destruct (settled_page m st Hm) as (st1&Hc&Hs1&Hc1). rewrite stm_bind_eq, Hc, get_bind, stm_bind_eq.
  assert (∃ st2, when (true && batch_is_full st1.2) (flush_isolated_batch cfg s true) st1 = (st2, Ok tt) ∧
    settled st2 = settled st1 ∧ carried 0 st1.2 st2.2) as (st2&->&Hs2&Hc2).
  { destruct (true && batch_is_full st1.2); [|by exists st1].
    destruct (settled_flush st1) as (st2&?&Hr&Hx&?). exists st2. split; [done|].
    split; [|done]. unfold settled at 1. by rewrite Hx. }
  destruct (IH st2 Hb) as (st3&->&Hs3&Hc3). exists st3. split; [done|]. split.
  - rewrite Hs3, Hs2, Hs1. done.
  - rewrite failures_cons. pose proof (carried_trans _ _ _ _ _ Hc1 (carried_trans _ _ _ _ _ Hc2 Hc3)) as H.
    by rewrite Z.add_0_l in H.
Qed.

(** The rows of one document under one signature. *)
Definition signed (rows : gmap (pystr * pystr * Z) Page) : Prop :=
  ∀ k, is_Some (rows !! k) → k.1 = (key, sig).

Lemma published_keys rows : signed rows →
  NoDup (((λ row : pystr * pystr * Z * Page, ((key, row.1.2), row.2)) <$> map_to_list rows).*1).
Proof.
  intros Hk. rewrite <- list_fmap_compose. apply NoDup_fmap_2_strong; [|apply NoDup_map_to_list].
  intros [[k1 n1] p1] [[k2 n2] p2] H1%elem_of_map_to_list H2%elem_of_map_to_list [= Heq]. subst n2.
  pose proof (Hk (k1, n1) (mk_is_Some _ _ H1)) as E1. pose proof (Hk (k2, n1) (mk_is_Some _ _ H2)) as E2.
  cbn in E1, E2. congruence.
Qed.

Lemma published_lookup rows n p : signed rows →
  rows !! (key, sig, n) = Some p → published key rows !! (key, n) = Some p.
Proof.
  intros Hk Hn. apply elem_of_list_to_map_1; [by apply published_keys|].
  apply list_elem_of_fmap. exists ((key, sig, n), p). split; [done|]. by apply elem_of_map_to_list.
Qed.

Lemma published_size rows : signed rows → count (published key rows) = count rows.
Proof.
  intros Hk. unfold count, published. rewrite map_size_list_to_map by by apply published_keys.
  by rewrite length_fmap, length_map_to_list.
Qed.

Lemma staged_signed r : signed (staged r).
Proof. intros k [p [_ Hk]%map_lookup_filter_Some]. exact Hk. Qed.

Lemma published_owner rows k : is_Some (published key rows !! k) → k.1 = key.
Proof.
  intros [p Hp%elem_of_list_to_map_2]. apply list_elem_of_fmap in Hp as (row&[= -> _]&_). done.
Qed.

(** A promotion replaces the published pages by the staged ones. *)
Lemma promoted_pages r ps :
  pages r = published key (staged ps) ∪ filter (λ row, row.1.1 ≠ key) (pages ps) →
  page_rows key r = published key (staged ps).
Proof.
  intros Hr. unfold page_rows. rewrite Hr. apply map_eq. intros [k n]. rewrite map_lookup_filter.
  rewrite lookup_union. destruct (published key (staged ps) !! (k, n)) as [p|] eqn:E.
  - rewrite union_Some_l. cbn. pose proof (published_owner (staged ps) (k, n) ltac:(eauto)) as Hk.
    cbn in Hk. by rewrite option_guard_True.
  - rewrite (left_id_L None _). destruct (filter _ (pages ps) !! (k, n)) as [p|] eqn:F; [|done].
    apply map_lookup_filter_Some in F as [_ F]. cbn in F |- *. by rewrite option_guard_False.
Qed.

(** ** The tables of a new document *)

(** The document of the file is stored under the signature of the run, and nothing
    is staged for it. *)
Record clean (r : PdfRoute) : Prop := {
  clean_document : ∃ d, documents r !! key = Some d ∧ doc_signature d = sig;
  clean_staged : staged r = ∅;
  clean_errors : errors r = ∅
}.

Lemma empty_after {V} (rows rows' : gmap (pystr * pystr * Z) V) k :
  (∀ i v, rows' !! i = Some v → rows !! i = Some v) →
  filter (λ row, row.1.1 = k) rows = ∅ → filter (λ row, row.1.1 = k) rows' = ∅.
Proof. rewrite !map_empty_filter. intros Hsub H i v Hv. by apply (H i v), Hsub. Qed.

Lemma deleting_keeps_clean ks r : staged r = ∅ → errors r = ∅ →
  staged (foldr delete_document r ks) = ∅ ∧ errors (foldr delete_document r ks) = ∅.
Proof.
  intros Hs He. induction ks as [|k ks [IHs IHe]]; [done|]. cbn [foldr].
  split; [eapply empty_after, IHs|eapply empty_after, IHe];
    intros i v [Hv _]%map_lookup_filter_Some; exact Hv.
Qed.

Lemma deleted_rows {V} (rows : gmap (pystr * pystr * Z) V) :
  filter (λ row, row.1.1 = (key, sig)) (filter (λ row, row.1.1.1 ≠ key) rows) = ∅.
Proof.
  apply map_empty_filter. intros [[k s'] n] v [_ Hk]%map_lookup_filter_Some [= -> ->]. by apply Hk.
Qed.

Lemma prepare_clean total meta r : documents r !! key = None →
  clean (prepare_document cfg s total meta r).
Proof.
  intros Hd. unfold prepare_document. cbv zeta. rewrite Hd.
  set (r1 := delete_page_errors key (delete_staging key r)).
  destruct (deleting_keeps_clean (stale_path_owners s r1) r1) as [Hs He];
    [apply deleted_rows|apply deleted_rows|].
  split; [|exact Hs|exact He]. eexists. split; [cbn; by rewrite lookup_insert_eq|done].
Qed.

(** Staging keeps every column of the stored document but the number of its pages. *)
Definition ignores_pages {A} (f : Document → A) : Prop := ∀ d (g : Z → Z), f (upd completed_pages g d) = f d.

Lemma stage_keeps_document {A} (f : Document → A) m r : ignores_pages f →
  f <$> documents (stage_message cfg s m r) !! key = f <$> documents r !! key.
Proof.
  intros Hf. destruct m; try done; cbn; rewrite lookup_alter_eq; destruct (documents r !! key) as [d|];
    try done; cbn; f_equal; apply (Hf d (λ _, _)).
Qed.

Lemma flush_keeps_document {A} (f : Document → A) ms r : ignores_pages f →
  f <$> documents (flush ms r) !! key = f <$> documents r !! key.
Proof.
  intros Hf. revert r. induction ms as [|m ms IH]; intros r; [done|].
  cbn [flush_extraction_batch foldl]. etrans; [apply IH|]. by apply stage_keeps_document.
Qed.

(** The stored document is that of the file. *)
Definition current (r : PdfRoute) : Prop := source_changed cfg s <$> documents r !! key = Some false.

Lemma prepare_current total meta r : current (prepare_document cfg s total meta r).
Proof.
  unfold current. cbn. rewrite lookup_insert_eq. unfold source_changed. cbn.
  rewrite !Z.eqb_refl. by rewrite bool_decide_eq_true_2.
Qed.

Lemma store_failure_keeps_staging st t m tr reset r : current r →
  page_staging (store_failure cfg s st t m tr reset now r).1 = page_staging r.
Proof.
  unfold current, store_failure. intros Hd. rewrite get_bind, throw_if_bind. cbv zeta.
  destruct (negb _); [done|]. destruct (documents r !! key) as [d|]; [|done].
  injection Hd as ->. done.
Qed.

(** What a promotion leaves of a staged document. *)
Record promoted (x : Extraction) (st : pdf_status) (r r' : PdfRoute) : Prop := {
  promoted_document : ∃ d, documents r' !! key = Some d ∧ source_changed cfg s d = false ∧
    doc_status d = st ∧ completed_pages d = Z.max 0 (x_end x - x_start x) ∧
    page_errors_count d = x_errors x ∧ binary_digest d = digest ∧ doc_signature d = sig;
  promoted_rows : page_rows key r' = published key (staged r);
  promoted_errors : errors r' = errors r
}.

Lemma promoted_other x st r r1 r2 :
  documents r2 = documents r1 → pages r2 = pages r1 → page_errors r2 = page_errors r1 →
  promoted x st r r1 → promoted x st r r2.
Proof.
  intros Hd Hp He [H1 H2 H3]. split; [by rewrite Hd|by rewrite <- H2; unfold page_rows; rewrite Hp|].
  rewrite <- H3. unfold error_rows. by rewrite He.
Qed.

Lemma promote_spec x st r :
  doc_signature <$> documents r !! key = Some sig →
  promoted x st r (promote_isolated_document cfg json_limit s digest now x st r).
Proof.
  intros Hd. destruct (documents r !! key) as [d|] eqn:E; [|done]. injection Hd as Hd.
  unfold promote_isolated_document, store_document_warnings. cbv zeta.
  match goal with |- promoted _ _ _ (upd _ _ ?r0) => apply (promoted_other x st r r0); [done..|] end.
  unfold promote_document. cbv zeta. set (row := if bool_decide (st = Partial) && _ then _ else _).
  set (next := if bool_decide (st = Partial) && _ then _ else _).
  match goal with |- context [if _ then delete_staging _ ?r0 else _] => set (r1 := r0) end.
  assert (promoted x st r r1) as H1.
  { split; [|by apply promoted_pages|done]. subst r1. cbn. rewrite lookup_alter_eq, E. cbn.
    eexists. split; [done|]. cbn. split_and!; try done. unfold source_changed. cbn.
    rewrite !Z.eqb_refl, Hd. by rewrite bool_decide_eq_true_2. }
  case_bool_decide; [|done]. by eapply promoted_other, H1.
Qed.

(** The end of a prepared session publishes what it staged. *)
Lemma complete_spec st : prepared st.2 = true →
  doc_signature <$> documents (settled st) !! key = Some sig →
  ∃ st' d, complete_isolated_document cfg casefold json_limit s digest now st = (st', Ok d) ∧
    result_status d = completion_status st.2 ∧ result_errors d = x_errors st.2 ∧
    transient d = false ∧ promoted st.2 (completion_status st.2) (settled st) st'.1.
Proof.
  intros Hp Hd. unfold complete_isolated_document. rewrite get_bind, throw_if_bind, Hp. cbn [negb].
  eexists _, _. split; [reflexivity|]. split_and!; [done..|].
  assert (∀ x st0 r, pages (reconcile_isolated_findings casefold x st0 r) = pages r ∧
            documents (reconcile_isolated_findings casefold x st0 r) = documents r ∧
            page_errors (reconcile_isolated_findings casefold x st0 r) = page_errors r) as Hrec.
  { intros x st0 r. unfold reconcile_isolated_findings. by repeat case_match. }
  eapply promoted_other; [apply Hrec..|]. cbn. unfold flush_isolated_batch, settled in *.
  destruct (x_batch st.2) as [|m ms]; cbn; by apply promote_spec.
Qed.

(** The local state after a header. *)
Definition headed (total a b : Z) (meta : pystr) (x : Extraction) : Extraction :=
  upd prepared (λ _, true) (upd x_total (λ _, total) (upd x_start (λ _, a)
    (upd x_end (λ _, b) (upd x_metadata (λ _, meta) x)))).

Lemma stream_header total a b meta rest ending r x :
  stream_isolated_document cfg casefold s now (MHeader total a b meta :: rest) ending (r, x) =
  stream_isolated_document cfg casefold s now rest ending
    (prepare_document cfg s total meta r, headed total a b meta x).
Proof. reflexivity. Qed.

(** ** An extraction that fails *)

Lemma settled_batch clear st : ∃ st', flush_isolated_batch cfg s clear st = (st', Ok tt) ∧
  st'.1 = settled st.
Proof.
  unfold flush_isolated_batch, settled. eexists. split; [reflexivity|]. by destruct (x_batch st.2).
Qed.

(** The failure that is stored is one of those [H] is about. *)
Ltac stored H :=
  unfold on_route;
  match goal with |- context [store_failure _ _ ?st ?t ?m ?tr ?reset _ _] =>
    specialize (H st t m tr reset) end;
  destruct (store_failure _ _ _ _ _ _ _ _ _) as [? [[]|]]; exact H.

(** The type of the error that an exception is stored with. *)
Definition stored_type (e : pdf_exception) : pystr := let '(type, _, _, _) := isolated_failure_details e in type.

(** The document was recycled: none of its pages was read, and its rows are gone. *)
Definition recycled_away (recycle : recycling) (e : pdf_exception) (staged r : PdfRoute) : Prop :=
  may_recycle cfg (stored_type e) (successful_staged_page_count cfg s staged) = true ∧
  recycle ≠ FileKept ∧ documents r !! file_key s = None.

Lemma recycling_spec recycle type staged st :
  ∃ st' b, maybe_recycle_unrecoverable_pdf cfg s type staged recycle st = (st', Ok b) ∧
  (page_staging st'.1 = page_staging st.1 ∨
   may_recycle cfg type staged = true ∧ recycle ≠ FileKept ∧ documents st'.1 !! file_key s = None).
Proof.
  unfold maybe_recycle_unrecoverable_pdf, recycle_document. destruct (may_recycle _ _ _).
  2: { eexists _, _. split; [reflexivity|]. by left. }
  destruct recycle; eexists _, _; (split; [reflexivity|]); [by left|right..]; (split_and!; [done..|]);
    apply lookup_delete_eq.
Qed.

(** The end of a failure that was stored. *)
Lemma stored_failure_ends recycle type staged (f : bool → DocumentResult) w p st :
  ∃ st' d, (set_route w;; set_route p;;
      b ← maybe_recycle_unrecoverable_pdf cfg s type staged recycle; mret (f b)) st = (st', Ok d) ∧
  (page_staging (p (w st.1)) = page_staging st.1 →
   page_staging st'.1 = page_staging st.1 ∨
   may_recycle cfg type staged = true ∧ recycle ≠ FileKept ∧ documents st'.1 !! file_key s = None).
Proof.
  destruct (recycling_spec recycle type staged (p (w st.1), st.2)) as (st'&b&Hr&Hst).
  exists st', (f b). split.
  - unfold set_route. rewrite !stm_bind_eq. cbn [modify]. rewrite stm_bind_eq. cbn. by rewrite stm_bind_eq, Hr.
  - intros Hp. cbn [fst] in Hst. by rewrite Hp in Hst.
Qed.
(** A failure flushes the open batch, and keeps the staged pages or recycles. *)
Lemma failure_keeps_staging recycle e st : current (settled st) →
  let r' := (handle_isolated_failure cfg casefold s now recycle e st).1.1 in
  page_staging r' = page_staging (settled st) ∨ recycled_away recycle e (settled st) r'.
Proof.
  intros Hcur r'. subst r'. destruct (settled_batch true st) as (st1&Hf&Hs).
  unfold handle_isolated_failure, recycled_away, stored_type. rewrite stm_bind_eq, Hf.
  destruct (isolated_failure_details e) as [[[type text] phase] exit].
  rewrite get_bind, Hs. cbv zeta. rewrite stm_bind_eq. unfold on_route. rewrite Hs.
  match goal with |- context [store_failure _ _ ?status ?t ?m ?tr ?reset _ _] =>
    pose proof (store_failure_keeps_staging status t m tr reset (settled st) Hcur) as Hstore end.
  destruct (store_failure _ _ _ _ _ _ _ _ _) as [r0 [[]|]]; cbn [fst snd] in *; [|by left].
  match goal with |- context [(set_route ?w;; set_route ?p;; b ← ?m; mret (@?f b)) ?st0] =>
    destruct (stored_failure_ends recycle type (successful_staged_page_count cfg s (settled st)) f w p st0)
      as (st'&d&->&Hends) end.
  cbn [fst] in *. rewrite Hstore in Hends. by apply Hends.
Qed.

(** Whatever ends an extraction, so does its handler. *)
Lemma handlers_keep_staging recycle e st : current (settled st) →
  let r' := (handling cfg casefold s now recycle (λ st, (st, Err e)) st).1.1 in
  page_staging r' = page_staging (settled st) ∨ recycled_away recycle e (settled st) r'.
Proof.
  intros Hcur r'. subst r'. destruct (settled_batch true st) as (st1&Hf&Hs).
  assert (∀ st0 t m tr reset, page_staging (store_failure cfg s st0 t m tr reset now st1.1).1 =
    page_staging (settled st)) as Hstore.
  { intros. rewrite store_failure_keeps_staging; by rewrite Hs. }
  unfold handling. destruct e; try by apply failure_keeps_staging.
  - left. unfold handle_isolated_cancellation. rewrite bind_assoc, stm_bind_eq, Hf, bind_assoc, get_bind, stm_bind_eq.
    destruct (0 <? _); cbn [when]; [stored Hstore|cbn; by rewrite Hs].
  - left. unfold handle_isolated_timeout. rewrite stm_bind_eq, Hf, get_bind. cbv zeta. rewrite stm_bind_eq. stored Hstore.
Qed.

(** What an attempt stages, if its stream has a header and pages before it fails. *)
Lemma failed_attempt_stages total a b meta body e staged0 recycle r :
  Forall (λ m, is_page m = true) body →
  let r' := (process_document_isolated cfg casefold json_limit s digest now staged0
    (MHeader total a b meta :: body, Some e) recycle r).1 in
  let delivered := flush body (prepare_document cfg s total meta r) in
  page_staging r' = page_staging delivered ∨ recycled_away recycle e delivered r'.
Proof.
  intros Hb. unfold process_document_isolated, handling. cbn [fst snd]. rewrite stm_bind_eq, stream_header.
  set (st0 := (prepare_document cfg s total meta r, _) : Session).
  destruct (stream_pages body [] (Some e) st0 Hb) as (st1&Hst&Hset&_). rewrite app_nil_r in Hst.
  rewrite Hst. change (settled st0) with (prepare_document cfg s total meta r) in Hset.
  assert (current (settled st1)) as Hcur.
  { unfold current. rewrite Hset, flush_keeps_document by done. apply prepare_current. }
  pose proof (handlers_keep_staging recycle e st1 Hcur) as H. rewrite Hset in H. unfold handling in H.
  cbn [stream_isolated_document].
  destruct e; cbn in H |- *; match goal with |- context [let (_, _) := ?m in _] => destruct m as [[? ?] ?] end;
    exact H.
Qed.

(** A staged page that was read is counted. *)
Lemma staged_success_counts r n p :
  staged r !! (key, sig, n) = Some p → is_error_page p = false → successful_staged_page_count cfg s r ≠ 0.
Proof.
  intros Hn Hp H. unfold successful_staged_page_count, count in H.
  assert (staged_successes key sig r = ∅) as He by (apply map_size_empty_iff; lia).
  assert (staged_successes key sig r !! (key, sig, n) = Some p) as Hin
    by (unfold staged_successes; by apply map_lookup_filter_Some).
  by rewrite He, lookup_empty in Hin.
Qed.

(** ** A document whose child delivers every page *)

Context (fingerprint : FileSnapshot → bool → option pystr).

Lemma stream_done total a b st : page_error_limit st.2 = None →
  ∃ st', stream_isolated_document cfg casefold s now [MDone total a b] None st = (st', Ok None) ∧
    settled st' = settled st ∧ x_start st'.2 = a ∧ x_end st'.2 = b ∧
    x_errors st'.2 = x_errors st.2 ∧ prepared st'.2 = prepared st.2 ∧ page_error_limit st'.2 = None.
Proof.
  intros Hl. cbn [stream_isolated_document]. rewrite stm_bind_eq.
  assert (∃ st1, consume_isolated_message cfg casefold s now (MDone total a b) st = (st1, Ok (None, true)) ∧
    settled st1 = settled st ∧ x_start st1.2 = a ∧ x_end st1.2 = b ∧
    x_errors st1.2 = x_errors st.2 ∧ prepared st1.2 = prepared st.2 ∧ page_error_limit st1.2 = None)
    as (st1&->&H1&H2&H3&H4&H5&H6).
  { eexists. split; [reflexivity|]. cbn. rewrite Hl. by split_and!. }
  rewrite get_bind, stm_bind_eq. cbn [andb].
  destruct (batch_is_full st1.2); [|exists st1; by split_and!].
  destruct (settled_flush st1) as (st2&Hf&Hr&Hx&[]). exists st2. cbn [when]. rewrite Hf.
  split; [done|]. split_and!; try congruence; [|lia]. unfold settled at 1. rewrite Hx. cbn. congruence.
Qed.

(** An attempt on a new file, when the stream has a header, pages and an end. *)
Lemma delivered_attempt total a b meta body staged0 recycle r :
  documents r !! key = None → Forall (λ m, is_page m = true) body → NoDup (numbers body) →
  ∃ r' d x rows, process_document_isolated cfg casefold json_limit s digest now staged0
      (MHeader total a b meta :: body ++ [MDone total a b], None) recycle r = (r', Ok d) ∧
    result_status d = (if failures body =? 0 then Done else Partial) ∧
    result_errors d = failures body ∧ transient d = false ∧
    promoted x (result_status d) rows r' ∧ x_end x - x_start x = b - a ∧ x_errors x = failures body ∧
    count (staged rows) = zlen body ∧ count (errors rows) = failures body ∧
    (∀ m n p, m ∈ body → page_of m = Some (n, p) → staged rows !! (key, sig, n) = Some p).
Proof.
  intros Hnone Hb Hnd. unfold process_document_isolated, handling. cbn [fst snd].
  rewrite stm_bind_eq, stream_header.
  set (r0 := prepare_document cfg s total meta r).
  destruct (prepare_clean total meta r Hnone) as [(d0&Hd0&Hsig) Hst0 Her0].
  fold r0 in Hst0, Her0, Hd0.
  destruct (stream_pages body [MDone total a b] None (r0, headed total a b meta (new_extraction staged0)) Hb)
    as (st1&->&Hset&[]).
  destruct (flush_counts body r0 Hb Hnd) as [Hcs Hce].
  { intros n _. by rewrite Hst0, Her0, !lookup_empty. }
  rewrite Hst0 in Hcs. rewrite Her0 in Hce.
  destruct (stream_done total a b st1) as (st2&->&Hset2&Ha&Hb2&He&Hp&Hl); [by rewrite carried_limit0|].
  rewrite Hset in Hset2. change (settled st2 = flush body r0) in Hset2.
  destruct (complete_spec st2) as (st3&d&->&Hst&Herr&Htr&Hprom).
  - by rewrite Hp, carried_prepared0.
  - rewrite Hset2, flush_keeps_document, Hd0 by done. by rewrite <- Hsig.
  - assert (x_errors st2.2 = failures body) as Hx.
    { rewrite He, carried_errors0. apply Z.add_0_r. }
    rewrite Hset2 in Hprom. eexists _, d, st2.2, (flush body r0).
    assert (completion_status st2.2 = if failures body =? 0 then Done else Partial) as Hcs2.
    { unfold completion_status. rewrite Hx, Hl. cbn. by destruct (failures body =? 0). }
    split; [reflexivity|]. rewrite <- Hst in Hprom. split_and!; try congruence; try done.
    intros m n p. by apply flush_stages.
Qed.

(** A complete document that is stored as it was read is a hit of the cache. *)
Lemma complete_document_hits clock d r :
  documents r !! key = Some d → source_changed cfg s d = false → doc_status d = Done →
  doc_signature d = sig → count (page_rows key r) = completed_pages d →
  count (errors r) = page_errors_count d →
  (validate_full cfg = true → is_Some (binary_digest d) ∧ fingerprint s true = binary_digest d) →
  ∃ dec, is_cache_hit cfg fingerprint s clock r = (r, Ok dec) ∧ hit dec = true.
Proof.
  intros Hd Hsrc Hst Hsig Hpages Herrs Hfull. unfold is_cache_hit, read_cache_row.
  rewrite get_bind, Hd. cbn [mbind option_bind row_document]. cbv zeta.
  unfold cached_snapshot_matches, cached_layers_are_consistent. cbn [row_document persisted_page_count
    persisted_page_error_count]. rewrite Hsrc, Hst, Hsig, Hpages, Herrs, !Z.eqb_refl.
  cbn [negb andb]. cbv iota. rewrite (orb_true_r (negb _)). cbn [negb].
  match goal with |- context [(cached_fingerprint_matches cfg fingerprint ?row s ≫= _) r] =>
    assert (cached_fingerprint_matches cfg fingerprint row s r = (r, Ok true)) as Hfp end.
  { unfold cached_fingerprint_matches. destruct (validate_full cfg); [|done]. cbn [negb].
    destruct Hfull as [[dg Hdg] ->]; [done|]. cbn [row_document]. rewrite Hdg.
    cbn [or_raise]. rewrite lift_bind. by rewrite bool_decide_eq_true_2. }
  rewrite stm_bind_eq, Hfp. cbn [negb]. unfold settle_decision, cached_status_decision.
  cbn [row_document]. rewrite Hst.
  rewrite (bool_decide_eq_true_2 (Done = Done)) by done. eexists. split; [reflexivity|done].
Qed.
End publish.

(** ** What the child delivers *)

(** The message for a page of an opened document. *)
Definition delivery (engine : Engine) (n : Z) : message :=
  match load_page engine n with
  | PageText source text => MPage n source text
  | PageRaises e => MPageError n e.1 (take 2000 e.2)
  end.

Definition deliveries (engine : Engine) (numbers : list Z) : list message := delivery engine <$> numbers.

Lemma delivery_page engine n : ∃ p, page_of (delivery engine n) = Some (n, p).
Proof. unfold delivery. destruct (load_page engine n); by eexists. Qed.

Lemma deliveries_pages engine ns : Forall (λ m, is_page m = true) (deliveries engine ns).
Proof.
  apply Forall_fmap, Forall_true. intros n. unfold compose, is_page.
  destruct (delivery_page engine n) as [p ->]. done.
Qed.

Lemma deliveries_numbers engine ns : numbers (deliveries engine ns) = ns.
Proof.
  induction ns as [|n ns IH]; [done|]. destruct (delivery_page engine n) as [p Hp].
  unfold deliveries. cbn [fmap list_fmap]. rewrite (numbers_cons _ n p) by done. by f_equal.
Qed.

Lemma failures_nonneg ms : 0 <= failures ms.
Proof. unfold failures. lia. Qed.

Section child.
Context (cfg : PdfConfig) (casefold : pystr → pystr).

Lemma extract_pages_delivers request engine end_ recovery ns : ∀ consecutive c,
  fail_fast_pages cfg = false → (∀ n, n ∈ ns → skipped request n = false) →
  0 <= consecutive → consecutive + failures (deliveries engine ns) < MAX_CONSECUTIVE_PAGE_ERRORS →
  extract_pages cfg request engine end_ recovery consecutive ns c =
    (upd channel (λ ms, ms ++ deliveries engine ns) c, Ok tt).
Proof.
  induction ns as [|n ns IH]; intros consecutive c Hff Hskip Hc Hlim.
  { destruct c. unfold upd. cbn. by rewrite app_nil_r. }
  unfold deliveries in Hlim. cbn [fmap list_fmap] in Hlim. rewrite failures_cons in Hlim.
  cbn [extract_pages]. rewrite (Hskip n) by left. pose proof (failures_nonneg (deliveries engine ns)).
  unfold deliveries in *. cbn [fmap list_fmap]. unfold delivery at 1. unfold delivery at 1 in Hlim.
  destruct (load_page engine n) as [source text|e]; cbn [is_failure] in Hlim.
  - unfold put. rewrite modify_bind, IH; [|done|by intros n' Hn'; apply Hskip; right|lia|lia].
    destruct c. unfold upd. cbn. by rewrite <- app_assoc.
  - unfold emit_page_error, put. rewrite stm_bind_eq, modify_bind, throw_if_bind, Hff.
    rewrite (proj2 (Z.ltb_lt (consecutive + 1) MAX_CONSECUTIVE_PAGE_ERRORS)) by lia.
    cbn [mret stm_ret]. rewrite IH; [|done|by intros n' Hn'; apply Hskip; right|lia|lia].
    destruct c. unfold upd. cbn. by rewrite <- app_assoc.
Qed.

(** The messages of a child whose document opens and has few unreadable pages. *)
Lemma child_delivers request engines total a b meta :
  source_matches engines = true → opening (primary engines) = Opened total meta →
  still_matches (primary engines) = true → page_bounds cfg total = Some (a, b) →
  fail_fast_pages cfg = false → recovery_reason request = None →
  (∀ n, n ∈ range a b → skipped request n = false) →
  failures (deliveries (primary engines) (range a b)) < MAX_CONSECUTIVE_PAGE_ERRORS →
  extract_child cfg casefold request engines =
    MHeader total a b meta :: deliveries (primary engines) (range a b) ++ [MDone total a b].
Proof.
  intros Hsm Hop Hst Hb Hff Hreason Hskip Hlim. unfold extract_child.
  assert (∃ c, extract_with_pymupdf cfg request (primary engines) None new_child = (c, Ok tt) ∧
    channel c = MHeader total a b meta :: deliveries (primary engines) (range a b) ++ [MDone total a b])
    as (c&Hx&Hc).
  { unfold extract_with_pymupdf, set_phase, put. rewrite modify_bind, Hop, Hb. cbn [or_raise].
    rewrite lift_bind. rewrite stm_bind_eq. cbn [mret stm_ret].
    rewrite !modify_bind, stm_bind_eq, extract_pages_delivers by (done || lia).
    rewrite throw_if_bind, Hst. cbn [negb]. rewrite modify_bind. eexists. split; [reflexivity|done]. }
  unfold run_session, primary_failure_detail, catch. rewrite throw_if_bind, Hsm. cbn [negb].
  rewrite stm_bind_eq, Hreason, stm_bind_eq, Hx. cbn [mret stm_ret]. exact Hc.
Qed.
End child.
