(* ===== verification/PdfSafety.v ===== *)
(** * Properties of the PDF route

    The retry budget of a document that cannot be read is spent and never renewed;
    what an attempt delivered survives however it ends; a document that opens and
    has few unreadable pages is published page by page and, if all were read, never
    read again.  The last section evaluates the behaviours in which the route does
    not do what it means to. *)

From S2P Require Import Prelude FileIdentity DedupKeeper PdfRetry PdfStore PdfCache PdfSession PdfChild PdfRun PdfLaws PdfPublish.

#[global] Open Scope Z_scope.

(** ** The retry budget *)

(** Recoverable errors are retried automatically, and nothing else is asked for. *)
Record automatic (cfg : PdfConfig) : Prop := {
  auto_recoverable : retry_recoverable_errors cfg = true;
  auto_errors : retry_errors cfg = false;
  auto_force : force_incomplete_retry cfg = false;
  auto_actions : apply_actions cfg = false;
  auto_metadata : validate_full cfg = false
}.

Section budget.
Context (cfg : PdfConfig) (casefold : pystr → pystr) (json_limit : ErrorLimit → pystr)
  (fingerprint : FileSnapshot → bool → option pystr) (s : FileSnapshot) (digest : option pystr).

Abbreviation key := (file_key s).
Abbreviation retried t := (one_of t EXPLICIT_RECOVERABLE_DOCUMENT_ERRORS).

(** A run of the route starts with no retry claimed. *)
Definition new_run (r : PdfRoute) : PdfRoute := upd recoverable_retry_keys (λ _, ∅) r.

(** One run on the file: the times of the decision and of the writes, and what the
    child answers in each attempt. *)
Definition route_run : Type := (Z * Z * (nat → WorkerContext → stream) * recycling)%type.

Definition perform_run (run : route_run) (r : PdfRoute) :
    PdfRoute * result pdf_exception (option DocumentResult) :=
  let '(clock, finish, answers, recycle) := run in
  run_document cfg casefold json_limit fingerprint s digest clock finish answers recycle (new_run r).

(** How many of the runs extracted the file. *)
Fixpoint extracting_runs (runs : list route_run) (r : PdfRoute) : Z :=
  match runs with
  | [] => 0
  | run :: rest =>
      match perform_run run r with
      | (r', Ok (Some _)) => 1 + extracting_runs rest r'
      | (r', _) => extracting_runs rest r'
      end
  end.

Lemma failed_row t c r : failed_with cfg s t c r →
  ∃ d row, documents r !! key = Some d ∧ read_cache_row key r = Some row ∧ row_document row = d ∧
    source_changed cfg s d = false ∧ transient_retry_count d = c ∧ doc_status d = Failed ∧
    error_type d = Some t.
Proof.
  intros [[_ _ Hc] Hs Ht]. unfold read_cache_row.
  destruct (documents r !! key) as [d|]; [|discriminate Hs]. destruct Hc as [Hsrc Hc].
  injection Hs as Hs. eexists d, _. split; [done|]. split; [reflexivity|]. by cbn.
Qed.

(** Once the budget is spent, the decision is a hit, if there is a decision. *)
Lemma spent_budget_hits t c r clock d r' : automatic cfg →
  failed_with cfg s t c r → retried t = false ∨ 3 <= c →
  is_cache_hit cfg fingerprint s clock r = (r', Ok d) → hit d = true.
Proof.
  intros [Hrr Hre Hf Ha Hv] Hfail Hspent.
  destruct (failed_row t c r Hfail) as (doc&row&_&Hrow&Hd&Hsrc&Hc&Hst&Ht).
  unfold is_cache_hit. rewrite get_bind, Hrow. cbv zeta.
  unfold cached_snapshot_matches, cached_layers_are_consistent, cached_fingerprint_matches.
  rewrite Hd, Hsrc, Hst, Hv. cbn [negb andb orb bool_decide]. cbv iota beta.
  rewrite bool_decide_eq_false_2 by (by intros [|]). cbn [negb orb].
  rewrite stm_bind_eq. cbn [mret stm_ret negb]. unfold settle_decision. cbv zeta.
  rewrite Hd, Hst. unfold cached_status_decision. rewrite Hd, Hst. cbv zeta.
  rewrite bool_decide_eq_false_2 by done.
  unfold cached_retry_explicitly_requested. rewrite Hre, Hf. cbn [andb orb].
  unfold cached_policy_retry_required, cached_structural_revalidation_required,
    cached_page_sequence_retry_required. rewrite Ha. cbn [andb].
  rewrite (bool_decide_eq_false_2 (Failed = Partial)) by done. cbn [andb].
  assert (cached_automatic_retry_required cfg row Failed (row_error_type row) clock = false) as Hauto.
  { unfold cached_automatic_retry_required, row_error_type. rewrite Hrr, Hd, Hc, Ht. cbn [default from_option id].
    rewrite (bool_decide_eq_false_2 (Failed = Partial)) by done. cbn [andb].
    destruct Hspent as [->|H3]; [by rewrite andb_false_r; case_match|].
    by rewrite (proj2 (Z.ltb_ge c 3)) by lia. }
  assert (cached_document_automatic_retry_required row Failed (row_error_type row) clock = false)
    as Hdoc.
  { unfold cached_document_automatic_retry_required, retry_due, automatic_retry_due, row_error_type.
    rewrite Hd, Hc, Ht. cbn [default from_option id]. destruct Hspent as [->|H3]; [by rewrite andb_false_r|].
    unfold PDF_MAX_AUTOMATIC_RETRIES. rewrite (proj2 (Z.leb_le 3 c)) by lia. by rewrite andb_false_r. }
  rewrite Hauto, Hdoc, Hrr. cbn [negb orb].
  destruct (cached_timeout_retry_required _ _ _ _) as [[]|]; cbn; by intros [= _ <-].
Qed.

(** A decision leaves the tables as they are. *)
Definition same_tables (r r' : PdfRoute) : Prop :=
  documents r' = documents r ∧ page_staging r' = page_staging r.

#[local] Instance same_tables_preorder : PreOrder same_tables.
Proof. split; [by intros r|]. intros r1 r2 r3 [H1 H2] [H3 H4]. split; congruence. Qed.

Lemma decision_keeps_tables clock r :
  same_tables r (is_cache_hit cfg fingerprint s clock r).1.
Proof.
  change (yields same_tables (is_cache_hit cfg fingerprint s clock) r).
  unfold is_cache_hit, settle_decision, claim_recoverable_retry, cached_fingerprint_matches.
  repeat first [ progress cbv zeta | stm_step | (apply yields_modify; done)
               | (unfold yields, lift; cbn; reflexivity) ].
Qed.

Lemma unread_tables c r r' : same_tables r r' → unread cfg s c r → unread cfg s c r'.
Proof.
  intros [Hd Hp] H. eapply unread_documents, H; [done|]. unfold no_success. by rewrite Hp.
Qed.

Lemma failed_tables t c r r' : same_tables r r' → failed_with cfg s t c r → failed_with cfg s t c r'.
Proof.
  intros Hr [Hu Hs Ht]. pose proof Hr as [Hd _]. split; rewrite ?Hd; [|done|done].
  by eapply unread_tables.
Qed.

(** How many more runs may extract the file. *)
Inductive budget : Z → PdfRoute → Prop :=
| budget_new r : unread cfg s 0 r → budget 3 r
| budget_failed t c r : failed_with cfg s t c r →
    budget (if retried t then Z.max 0 (3 - c) else 0) r.

Lemma budget_nonneg b r : budget b r → 0 <= b.
Proof. intros []; [lia|]. case_match; lia. Qed.

Lemma budget_tables b r r' : same_tables r r' → budget b r → budget b r'.
Proof.
  intros Hr Hb. revert Hr. destruct Hb as [r Hu|t c r Hf]; intros Hr;
    [apply budget_new; by eapply unread_tables|].
  apply budget_failed. by eapply failed_tables.
Qed.

Definition failing_run (run : route_run) : Prop := ∀ n ctx, fails_without_pages (run.1.2 n ctx).

Lemma run_spends run b r : automatic cfg → failing_run run → budget b r →
  ∃ b', budget b' (perform_run run r).1 ∧
    match (perform_run run r).2 with Ok (Some _) => b' + 1 <= b | _ => b' <= b end.
Proof.
  destruct run as [[[clock finish] answers] recycle]. intros Hauto Hfail Hb.
  assert (budget b (new_run r)) as Hb0 by (by eapply budget_tables, Hb).
  unfold perform_run, run_document. rewrite stm_bind_eq.
  pose proof (decision_keeps_tables clock (new_run r)) as Hsame.
  pose proof (λ t c d r', spent_budget_hits t c (new_run r) clock d r' Hauto) as Hspent.
  destruct (is_cache_hit cfg fingerprint s clock (new_run r)) as [r1 [d|e]].
  2:{ exists b. split; [by eapply budget_tables, Hb0|cbn; lia]. }
  cbn in Hsame. destruct (hit d) eqn:Hhit.
  { exists b. split; [by eapply budget_tables, Hb0|cbn; lia]. }
  rewrite get_bind, stm_bind_eq.
  assert (∃ c, unread cfg s c r1 ∧ 3 - c <= b) as (c&Hu&Hc).
  { inversion Hb0 as [r0 Hu|t c r0 Hf]; subst.
    - exists 0. split; [by eapply unread_tables|lia].
    - exists c. split; [eapply unread_tables, Hf; done|]. case_match eqn:Hr; [lia|].
      assert (hit d = true) by (eapply Hspent; [exact Hf|by left|done]). congruence. }
  destruct (failing_attempts cfg s casefold json_limit digest clock finish answers recycle
    (auto_actions _ Hauto) Hfail TRANSIENT_RETRIES_PER_RUN 0 (worker_context cfg s clock r1) c (recoverable_retry_keys r1) r1 Hu
    eq_refl) as (r2&d2&->&_&t&c'&Hf&Hc').
  { unfold worker_context. destruct (resumable_pages _ _ _ _) as [[? ?] ?]. cbn.
    unfold successful_staged_page_count, count. lia. }
  eexists. split; [apply (budget_failed t c'); exact Hf|]. cbn [snd fst mret stm_ret].
  inversion Hb0 as [r0 _|t0 c0 r0 Hf0]; subst.
  - destruct Hc' as [?|Ht]; [case_match; lia|rewrite Ht; lia].
  - destruct (retried t0) eqn:Ht0.
    + assert (c0 < 3) as Hlt.
      { destruct (decide (3 <= c0)) as [Hge|]; [|lia].
        assert (hit d = true) by (eapply Hspent; [exact Hf0|by right|done]). congruence. }
      destruct Hc' as [?|Ht]; [case_match; lia|rewrite Ht; lia].
    + assert (hit d = true) by (eapply Hspent; [exact Hf0|by left|done]). congruence.
Qed.

(** C10: under automatic retries and nothing else ([automatic]: no explicit or forced
    retry, no physical actions, a validation of the cache that does not read the
    files), the retry budget of an unreadable document is spent once and for all.
    When every attempt on a new file fails before it reads a page, by a timeout, by
    the death of the child or by an error it reports, at most three runs extract the
    file, however many runs follow: all the others take the stored failure from the
    cache.  With physical actions or a full validation there is no such bound
    ([applied_damage_has_no_budget], [validated_failures_have_no_budget]). *)
Theorem retry_budget_is_spent runs r :
  automatic cfg → Forall failing_run runs → sole_owner s r → no_success cfg s r →
  documents r !! key = None →
  extracting_runs runs r <= PDF_MAX_AUTOMATIC_RETRIES.
Proof.
  intros Hauto Hruns Ho Hn Hd.
  assert (∀ b r0, budget b r0 → extracting_runs runs r0 <= b) as Hb.
  { clear Ho Hn Hd r. induction Hruns as [|run runs Hrun _ IH]; intros b r Hr;
      [by eapply budget_nonneg|].
    cbn [extracting_runs]. destruct (run_spends run b r Hauto Hrun Hr) as (b'&Hb'&Hle).
    destruct (perform_run run r) as [r' [[d|]|e]]; cbn in Hb', Hle; specialize (IH b' r' Hb'); lia. }
  apply (Hb 3). apply budget_new. split; [done|done|by rewrite Hd].
Qed.
End budget.

(** ** Documents that can be read *)

Section documents.
Context (cfg : PdfConfig) (casefold : pystr → pystr) (json_limit : ErrorLimit → pystr)
  (fingerprint : FileSnapshot → bool → option pystr) (s : FileSnapshot) (digest : option pystr).

Abbreviation key := (file_key s).

(** Every attempt runs the child on these engines. *)
Definition extracting (engines : Engines) (attempt : nat) (ctx : WorkerContext) : stream :=
  (extract_child cfg casefold (ctx_request ctx) engines, None).

Lemma new_request clock r total a b n : documents r !! key = None → page_bounds cfg total = Some (a, b) →
  recovery_reason (ctx_request (worker_context cfg s clock r)) = None ∧
  (n ∈ range a b → skipped (ctx_request (worker_context cfg s clock r)) n = false).
Proof.
  intros Hd Hb. unfold worker_context, resumable_pages, structural_recovery_reason. rewrite Hd.
  cbn [mbind option_bind]. split; [done|]. unfold skipped, range. cbn. intros [Hn _]%elem_of_seqZ.
  unfold page_bounds in Hb. case_match; [done|]. injection Hb as Ha _.
  rewrite (proj2 (Z.ltb_ge _ _)) by lia. done.
Qed.

(** A page of the range whose delivery is staged is published. *)
Lemma published_page engine a b rows r n :
  page_rows key r = published key (staged_rows key (processing_signature cfg) rows) →
  (∀ m n p, m ∈ deliveries engine (range a b) → page_of m = Some (n, p) →
     staged_rows key (processing_signature cfg) rows !! (key, processing_signature cfg, n) = Some p) →
  a <= n < b → pages r !! (key, n) = snd <$> page_of (delivery engine n).
Proof.
  intros Hrows Hl Hn. destruct (delivery_page engine n) as [p Hp]. rewrite Hp.
  cbn [fmap option_fmap snd option_map].
  assert (page_rows key r !! (key, n) = Some p) as [Hpage _]%map_lookup_filter_Some; [|exact Hpage].
  rewrite Hrows. apply (published_lookup cfg); [apply staged_signed|].
  apply (Hl (delivery engine n)); [|done]. apply list_elem_of_fmap. exists n.
  split; [done|]. apply elem_of_seqZ. lia.
Qed.

(** C8: a document with few unreadable pages is read once, whole.  Where a failed page
    does not end the extraction, and where a full validation, if it is asked for, has
    the digest of the file to compare: when a new file opens and fewer than 32 pages of
    the range cannot be read, the first run publishes one row per page of the range,
    the text of the page or the placeholder of its failure, and nothing else; it ends
    done if every page was read and partial otherwise; and a document that is done is
    never extracted again. *)
Theorem readable_document_is_read_once engines recycle total meta a b clock finish r :
  documents r !! key = None →
  source_matches engines = true → opening (primary engines) = Opened total meta →
  still_matches (primary engines) = true → page_bounds cfg total = Some (a, b) →
  fail_fast_pages cfg = false →
  failures (deliveries (primary engines) (range a b)) < MAX_CONSECUTIVE_PAGE_ERRORS →
  (validate_full cfg = true → is_Some digest ∧ fingerprint s true = digest) →
  ∃ r' d, run_document cfg casefold json_limit fingerprint s digest clock finish
      (extracting engines) recycle r = (r', Ok (Some d)) ∧
    result_errors d = failures (deliveries (primary engines) (range a b)) ∧
    result_status d = (if result_errors d =? 0 then Done else Partial) ∧
    count (page_rows key r') = Z.max 0 (b - a) ∧
    (∀ n, a <= n < b → pages r' !! (key, n) = snd <$> page_of (delivery (primary engines) n)) ∧
    (result_status d = Done → ∀ clock' finish' answers' recycle',
      run_document cfg casefold json_limit fingerprint s digest clock' finish' answers' recycle' r' =
        (r', Ok None)).
Proof.
  intros Hd Hsm Hop Hst Hb Hff Hlim Hfull.
  assert (is_cache_hit cfg fingerprint s clock r = (r, Ok (miss None 0))) as Hmiss.
  { unfold is_cache_hit, read_cache_row. by rewrite get_bind, Hd. }
  unfold run_document at 1. rewrite stm_bind_eq, Hmiss. cbn [hit miss]. rewrite get_bind, stm_bind_eq.
  unfold TRANSIENT_RETRIES_PER_RUN. cbn [process_document]. rewrite stm_bind_eq.
  unfold extracting at 1.
  rewrite (child_delivers cfg casefold _ engines total a b meta); try done;
    [|by eapply new_request|by intros n; eapply new_request].
  destruct (delivered_attempt cfg s casefold json_limit digest finish total a b meta
    (deliveries (primary engines) (range a b)) (ctx_staged (worker_context cfg s clock r)) recycle r Hd)
    as (r'&d&x&rows&->&Hs&He&Htr&[Hdoc Hrows Herrs]&Hx&Hxe&Hc&Hce&Hl);
    [apply deliveries_pages|rewrite deliveries_numbers; apply NoDup_seqZ|].
  rewrite Htr. cbn [negb]. cbn [mret stm_ret]. exists r', d. split; [done|]. split; [done|].
  rewrite He. split; [done|].
  assert (count (page_rows key r') = Z.max 0 (b - a)) as Hcount.
  { rewrite Hrows, (published_size cfg) by apply staged_signed. rewrite Hc.
    unfold deliveries, range. rewrite length_fmap, length_seqZ. lia. }
  split; [done|]. split.
  - intros n Hn. by eapply published_page.
  - intros Hdone clock' finish' answers' recycle'. destruct Hdoc as (d0&Hd0&Hsrc&Hst0&Hcomp&Herr&Hdig&Hsig).
    destruct (complete_document_hits cfg s fingerprint clock' d0 r') as (dec&Hdec&Hhit);
      [done|done|congruence|done|by rewrite Hcount, Hcomp, Hx|by rewrite Herrs, Herr, Hce|by rewrite Hdig|].
    unfold run_document. by rewrite stm_bind_eq, Hdec, Hhit.
Qed.

End documents.

(** ** A small library *)

Module Scenario.

Definition cfg : PdfConfig :=
  {| apply_actions := false; retry_errors := false; retry_recoverable_errors := true;
     force_incomplete_retry := false; validate_full := false; pdfminer_fallback := true;
     fail_fast_pages := false; max_pages := None; cfg_page_start := None; cfg_page_end := None;
     processing_signature := py "sig"; run_id := 1 |}.

Definition a_pdf : FileSnapshot :=
  {| path := py "/a.pdf"; DedupKeeper.volume_id := 1; DedupKeeper.file_id := 3; size := 100;
     mtime_ns := 11; birthtime_ns := 12 |}.

Definition empty_state : PdfRoute :=
  {| documents := ∅; page_staging := ∅; pages := ∅; page_errors := ∅; document_warnings := ∅;
     recoverable_retry_keys := ∅; reviews := [] |}.

Definition native (text : string) : page_answer := PageText (py "native") (py text).
Definition broken (type : string) : page_answer := PageRaises (py type, py "broken page").

Definition engine (total : Z) (answers : Z → page_answer) : Engine :=
  {| opening := Opened total (py "{}"); load_page := answers; still_matches := true |}.

Definition closed_engine : Engine :=
  {| opening := OpenRaises (py "FileDataError", py "cannot open broken document");
     load_page := λ _, broken "ValueError"; still_matches := true |}.

Definition intact (total : Z) (answers : Z → page_answer) : Engines :=
  {| source_matches := true; primary := engine total answers; repaired := inr closed_engine;
     miner_pages := []; miner_raises := None; miner_metadata := py "{}" |}.

Definition no_details (_ : ErrorLimit) : pystr := [].
Definition unknown (_ : FileSnapshot) (_ : bool) : option pystr := None.
Definition new_key : pystr := file_key a_pdf.

Definition late : pdf_exception := PdfDocumentTimeout (py "late") (py "page_extraction").
Definition dies (attempt : nat) (ctx : WorkerContext) : stream :=
  ([MWarnings 1 [py "repaired"]], Some (PdfChildProcessError (py "exit -9") (py "open") (Some (-9)))).
(** The first page is read again and again, and the rest is too slow. *)
Definition reads_one_page (attempt : nat) (ctx : WorkerContext) : stream :=
  ([MHeader 2 0 2 (py "{}"); MPage 0 (py "native") (py "one")], Some late).

(** One run with the first times. *)
Definition run (answers : nat → WorkerContext → stream) : route_run := (0, 0, answers, FileKept).

Definition run_on (cfg : PdfConfig) (answers : nat → WorkerContext → stream) (r : PdfRoute) :
    PdfRoute * result pdf_exception (option DocumentResult) :=
  run_document cfg ascii_fold no_details unknown a_pdf None 0 0 answers (Recycled true) r.

Abbreviation runs := (extracting_runs cfg ascii_fold no_details unknown a_pdf None).

Lemma retry_budget_is_spent_witness : runs (replicate 9 (run dies)) empty_state <= 3.
Proof.
  apply retry_budget_is_spent; [by split| |done|done|done].
  apply Forall_replicate. intros n ctx. split; [by repeat constructor|]. by eexists.
Defined.

(** The budget does not bound the runs of a document that was read in part: its
    staged pages are counted as completed and none is published, so that the
    stored layers never agree and every run extracts it again. *)
Lemma partial_timeouts_have_no_budget : runs (replicate 9 (run reads_one_page)) empty_state = 9.
Proof. vm_compute. reflexivity. Qed.

Lemma readable_document_is_read_once_witness :
  ∃ r' d, run_on cfg (extracting cfg ascii_fold (intact 2 (λ _, native "text"))) empty_state = (r', Ok (Some d)) ∧
    count (page_rows new_key r') = 2 ∧ result_status d = Done.
Proof.
  destruct (readable_document_is_read_once cfg ascii_fold no_details unknown a_pdf None
    (intact 2 (λ _, native "text")) (Recycled true) 2 (py "{}") 0 2 0 0 empty_state)
    as (r'&d&Hrun&He&Hs&Hc&_); try reflexivity; [discriminate|].
  exists r', d. split; [exact Hrun|]. split; [exact Hc|]. rewrite Hs, He. reflexivity.
Defined.


(** ** Where the route does not do what it means to *)

Definition after (m : PdfRoute * result pdf_exception (option DocumentResult)) : option Document :=
  documents m.1 !! new_key.

(** A page that failed before a page that was read, in an attempt that timed out, is
    forgotten: the next run resumes after it and the document is done without it. *)
Definition first_page_fails (n : Z) : page_answer :=
  if n =? 0 then broken "ValueError" else native "text".

Definition late_with_a_failure (attempt : nat) (ctx : WorkerContext) : stream :=
  ([MHeader 3 0 3 (py "{}"); MPageError 0 (py "ValueError") (py "broken page");
    MPage 1 (py "native") (py "text")], Some late).

Lemma failed_page_is_forgotten :
  let r := run_on cfg late_with_a_failure empty_state in
  let r' := run_on cfg (extracting cfg ascii_fold (intact 3 first_page_fails)) (new_run r.1) in
  doc_status <$> after r' = Some Done ∧ page_errors_count <$> after r' = Some 0 ∧
  pages r'.1 !! (new_key, 0) = None.
Proof. vm_compute. done. Qed.

(** A page read from the repaired copy is replaced by the placeholder of the second
    extractor, and the document counts as unreadable. *)
Definition damaged : Engines :=
  {| source_matches := true; primary := closed_engine;
     repaired := inr (engine 40 (λ n, if n =? 0 then native "text" else broken "ValueError"));
     miner_pages := [broken "PSEOF"]; miner_raises := Some (py "PSEOF", py "Unexpected EOF");
     miner_metadata := py "{}" |}.

Definition applying : PdfConfig :=
  {| apply_actions := true; retry_errors := false; retry_recoverable_errors := true;
     force_incomplete_retry := false; validate_full := false; pdfminer_fallback := true;
     fail_fast_pages := false; max_pages := None; cfg_page_start := None; cfg_page_end := None;
     processing_signature := py "sig"; run_id := 1 |}.

Lemma repaired_page_is_overwritten :
  In (MPage 0 (py "native") (py "text"))
    (extracting applying ascii_fold damaged 0
       {| ctx_staged := 0; ctx_request := {| skip_before := 0; only_pages := ∅; recovery_reason := None |} |}).1 ∧
  match run_on applying (extracting applying ascii_fold damaged) empty_state with
  | (r, Ok (Some d)) => successful_staged_page_count applying a_pdf r = 0 ∧ recycled d = true
  | _ => False
  end.
Proof. vm_compute. tauto. Qed.

(** With physical actions, damage that could not be repaired is extracted in every
    run for as long as its recycling is refused. *)
Definition beyond_repair (attempt : nat) (ctx : WorkerContext) : stream :=
  ([], Some (PdfChildReportedError (py "PdfStructuralRecoveryFailed") (py "unreadable") (py "structural_recovery"))).

Lemma applied_damage_has_no_budget :
  extracting_runs applying ascii_fold no_details unknown a_pdf None (replicate 9 (run beyond_repair)) empty_state = 9.
Proof. vm_compute. reflexivity. Qed.

(** Under full validation a failed document has no digest to compare, and every run
    extracts it. *)
Definition validating : PdfConfig :=
  {| apply_actions := false; retry_errors := false; retry_recoverable_errors := true;
     force_incomplete_retry := false; validate_full := true; pdfminer_fallback := true;
     fail_fast_pages := false; max_pages := None; cfg_page_start := None; cfg_page_end := None;
     processing_signature := py "sig"; run_id := 1 |}.

Definition known (_ : FileSnapshot) (_ : bool) : option pystr := Some (py "digest").

Lemma validated_failures_have_no_budget :
  extracting_runs validating ascii_fold no_details known a_pdf (Some (py "digest")) (replicate 9 (run dies))
    empty_state = 9.
Proof. vm_compute. reflexivity. Qed.

(** A file of which only a failed page was delivered, and which was put in the trash:
    its rows are gone.  When the resolution of its review raises after that, the
    answer is that it was not recycled. *)
Lemma trashed_file_is_said_to_be_kept :
  let m := process_document_isolated applying ascii_fold no_details a_pdf None 0 0
    ([MHeader 1 0 1 (py "{}"); MPageError 0 (py "ValueError") (py "bad")],
     Some (PdfChildReportedError (py "PdfStructuralRecoveryFailed") (py "unreadable") (py "structural_recovery")))
    ReviewFailed empty_state in
  map_to_list (documents m.1) = [] ∧ map_to_list (page_staging m.1) = [] ∧
  match m.2 with Ok d => recycled d = false | Err _ => False end.
Proof. vm_compute. done. Qed.

(** The repair of an aborted document is still asked for when the file was replaced. *)
Definition aborted : Document :=
  upd error_type (λ _, Some (py "PdfPageSequenceAborted")) (fresh_document cfg a_pdf Partial).

Definition replaced_pdf : FileSnapshot :=
  {| path := py "/a.pdf"; DedupKeeper.volume_id := 1; DedupKeeper.file_id := 3; size := 999;
     mtime_ns := 99; birthtime_ns := 12 |}.

Lemma replaced_file_is_repaired :
  let r := upd documents (λ _, {[new_key := aborted]}) empty_state in
  source_changed cfg replaced_pdf aborted = true ∧
  recovery_reason (ctx_request (worker_context cfg replaced_pdf 0 r)) ≠ None.
Proof. vm_compute. done. Qed.

(** A failure of both extractors inside the process is stored without its retry, so
    that an exhausted memory never spends the budget. *)
Lemma local_fallback_resets_the_budget :
  let m := process_document_local cfg ascii_fold a_pdf None 0
    {| skip_before := 0; only_pages := ∅; recovery_reason := None |}
    (LocalOpenRaises (py "FileDataError", py "cannot open")) (λ _, LocalCancelled)
    (throw (OtherError (py "MemoryError") (py "out of memory"))) in
  let r := upd documents (λ _, {[new_key := upd transient_retry_count (λ _, 2) (fresh_document cfg a_pdf Failed)]})
    empty_state in
  match documents (m r).1 !! new_key with
  | Some d => one_of (default [] (error_type d)) EXPLICIT_RECOVERABLE_DOCUMENT_ERRORS = true ∧
              transient_retry_count d = 0 ∧ next_retry_ns d = None
  | None => False
  end.
Proof. vm_compute. done. Qed.
End Scenario.
