(* ===== verification/HeapQ.v ===== *)
(** * Binary heaps on a list (the heapq module of the standard library)

    [heappush], [heappop] and [heapify] as CPython runs them on a list, with the
    moves of [_siftdown] and [_siftup].  The comparison [c] is that of the entries;
    the least entry of a heap is its first.

    A move leaves a hole that the moved entry fills at the end: the proofs follow
    the list with the hole filled, whose entries are only ever swapped. *)

From S2P Require Import Prelude PyOrder.

#[global] Open Scope nat_scope.

Section heapq.
Context {A : Type} (c : A → A → comparison).

(** [x < y] *)
Definition below (x y : A) : bool := match c x y with Lt => true | _ => false end.

(** The parent of a position other than 0. *)
Definition parent (pos : nat) : nat := Nat.div2 (pos - 1).

(** The loop of [_siftdown]; [fuel] bounds the position. *)
Fixpoint siftdown_loop (fuel : nat) (heap : list A) (startpos pos : nat) (newitem : A) : list A :=
  match fuel with
  | O => <[pos := newitem]> heap
  | S fuel' =>
      if startpos <? pos then
        match heap !! parent pos with
        | Some p => if below newitem p
                    then siftdown_loop fuel' (<[pos := p]> heap) startpos (parent pos) newitem
                    else <[pos := newitem]> heap
        | None => <[pos := newitem]> heap
        end
      else <[pos := newitem]> heap
  end.

Definition siftdown (heap : list A) (startpos pos : nat) : list A :=
  match heap !! pos with
  | Some newitem => siftdown_loop pos heap startpos pos newitem
  | None => heap
  end.

(** The smaller child of a position, the right one in case of a tie. *)
Definition smaller_child (heap : list A) (pos : nat) : option (nat * A) :=
  match heap !! (2 * pos + 1), heap !! (2 * pos + 2) with
  | Some l, Some r => if below l r then Some (2 * pos + 1, l) else Some (2 * pos + 2, r)
  | Some l, None => Some (2 * pos + 1, l)
  | None, _ => None
  end.

(** The loop of [_siftup]; [fuel] bounds the positions left below. *)
Fixpoint siftup_loop (fuel : nat) (heap : list A) (startpos pos : nat) (newitem : A) : list A :=
  match fuel with
  | O => siftdown (<[pos := newitem]> heap) startpos pos
  | S fuel' =>
      match smaller_child heap pos with
      | Some (child, x) => siftup_loop fuel' (<[pos := x]> heap) startpos child newitem
      | None => siftdown (<[pos := newitem]> heap) startpos pos
      end
  end.

Definition siftup (heap : list A) (pos : nat) : list A :=
  match heap !! pos with
  | Some newitem => siftup_loop (length heap - pos) heap pos pos newitem
  | None => heap
  end.

Definition heappush (heap : list A) (item : A) : list A :=
  siftdown (heap ++ [item]) 0 (length heap).

(** [heappop(heap)]: the least entry and the rest; [None] is an [IndexError]. *)
Definition heappop (heap : list A) : option (A * list A) :=
  match last heap with
  | None => None
  | Some lastelt =>
      match removelast heap with
      | [] => Some (lastelt, [])
      | returnitem :: rest => Some (returnitem, siftup (lastelt :: rest) 0)
      end
  end.

Definition heapify (heap : list A) : list A :=
  foldl siftup heap (reverse (seq 0 (Nat.div2 (length heap)))).
End heapq.

(** ** Laws *)

(** [j] is a child of [i]. *)
Definition child (i j : nat) : Prop := j = 2 * i + 1 ∨ j = 2 * i + 2.

Lemma child_parent i j : child i j → parent j = i.
Proof.
  unfold parent. intros [->| ->].
  - replace (2 * i + 1 - 1) with (2 * i) by lia. apply Nat.div2_double.
  - replace (2 * i + 2 - 1) with (S (2 * i)) by lia. apply Nat.div2_succ_double.
Qed.

Lemma parent_child j : 0 < j → child (parent j) j.
Proof.
  intros Hj. unfold parent, child. pose proof (Nat.div2_odd (j - 1)) as H.
  destruct (Nat.odd (j - 1)); cbn [Nat.b2n] in H; lia.
Qed.

(** [j] is [i] or below it. *)
Inductive descends (i : nat) : nat → Prop :=
| descends_refl : descends i i
| descends_child p j : descends i p → child p j → descends i j.

Lemma descends_le i j : descends i j → i <= j.
Proof. induction 1 as [|p j _ IH [->| ->]]; lia. Qed.

Lemma descends_parent i j : descends i j → i < j → descends i (parent j).
Proof. intros [|p j' Hp Hc] Hlt; [lia|]. by rewrite (child_parent p j'). Qed.

Lemma descends_root j : descends 0 j.
Proof.
  induction (Wf_nat.lt_wf j) as [j _ IH]. destruct (decide (j = 0)) as [->|]; [constructor|].
  pose proof (parent_child j ltac:(lia)) as Hc. apply (descends_child 0 (parent j)); [|done].
  apply IH. destruct Hc; lia.
Qed.

Section laws.
Context {A : Type} (c : A → A → comparison) `{!TotalOrder c}.

Abbreviation le := (cmp_le c).

(** The edges from position [k] on are in order. *)
Definition heap_from (k : nat) (h : list A) : Prop :=
  ∀ i j x y, k <= i → child i j → h !! i = Some x → h !! j = Some y → le x y.

Definition is_heap : list A → Prop := heap_from 0.

Lemma le_refl x : le x x.
Proof. unfold cmp_le. by rewrite (cmp_refl c). Qed.

Lemma not_below x y : below c x y = false → le y x.
Proof.
  unfold below, cmp_le. rewrite (cmp_sym c x y). by destruct (c x y).
Qed.

Lemma below_le x y : below c x y = true → le x y.
Proof. unfold below, cmp_le. by destruct (c x y). Qed.

(** Filling a hole after a move is a swap. *)
Lemma move_perm (h : list A) i j x y :
  i ≠ j → h !! i = Some x → h !! j = Some y → <[i := y]> (<[j := x]> h) ≡ₚ h.
Proof.
  intros Hij Hi Hj. apply Permutation_inj. split; [by rewrite !length_insert|].
  exists (λ k, if decide (k = i) then j else if decide (k = j) then i else k). split.
  { intros k1 k2. repeat case_decide; congruence. }
  intros k. destruct (decide (k = i)) as [->|].
  - by rewrite Hj, list_lookup_insert_eq by (rewrite length_insert; by eapply lookup_lt_Some).
  - rewrite list_lookup_insert_ne by done. case_decide as Hkj; [subst k|].
    + by rewrite Hi, list_lookup_insert_eq by by eapply lookup_lt_Some.
    + by rewrite list_lookup_insert_ne.
Qed.

(** The edges are in order but for the one into [pos], over which its children are
    in order with its parent. *)
Definition rising (start pos : nat) (h : list A) : Prop :=
  (∀ i j x y, start <= i → child i j → j ≠ pos → h !! i = Some x → h !! j = Some y → le x y) ∧
  (∀ k x y, start < pos → child pos k → h !! parent pos = Some x → h !! k = Some y → le x y).

Lemma hole_lookup (h : list A) pos x k : pos < length h →
  <[pos := x]> h !! k = if decide (k = pos) then Some x else h !! k.
Proof.
  intros Hpos. case_decide as Hk; [subst; by apply list_lookup_insert_eq|by apply list_lookup_insert_ne].
Qed.

Lemma parent_lt pos : 0 < pos → parent pos < pos.
Proof. intros H. destruct (parent_child pos H); lia. Qed.

(** The moved entry rises over its parent. *)
Lemma rising_step start pos h x p :
  descends start pos → start < pos → pos < length h → h !! parent pos = Some p → le x p →
  rising start pos (<[pos := x]> h) → rising start (parent pos) (<[parent pos := x]> (<[pos := p]> h)).
Proof.
  intros Hd Hlt Hlen Hp Hxp [Hr1 Hr2]. pose proof (parent_lt pos ltac:(lia)) as Hpp.
  pose proof (descends_le _ _ (descends_parent _ _ Hd Hlt)) as Hsp.
  assert (∀ k, <[parent pos := x]> (<[pos := p]> h) !! k =
    if decide (k = parent pos) then Some x else if decide (k = pos) then Some p else h !! k) as Hlook.
  { intros k. rewrite !hole_lookup by (rewrite ?length_insert; lia). done. }
  assert (∀ j b, child (parent pos) j → j ≠ pos → h !! j = Some b → le p b) as Hsib.
  { intros j b Hc Hj Hb. apply (Hr1 (parent pos) j); [lia|done|done|..];
      rewrite hole_lookup by lia; rewrite decide_False by lia; done. }
  split.
  - intros i j a b Hi Hc Hj. rewrite !Hlook. destruct (decide (j = pos)) as [->|Hjp].
    { pose proof (child_parent i pos Hc). rewrite (decide_True (P := i = parent pos)) by done.
      rewrite (decide_False (P := pos = parent pos)) by lia. intros [= <-] [= <-]. exact Hxp. }
    rewrite (decide_False (P := j = parent pos)) by done. case_decide as Hip; [subst i|].
    { intros [= <-] Hb. etrans; [exact Hxp|]. by eapply Hsib. }
    case_decide as Hip'; [subst i|].
    { intros [= <-] Hb. apply (Hr2 j); [done|done|..]; rewrite hole_lookup by lia.
      - by rewrite decide_False by lia.
      - by rewrite decide_False by done. }
    intros Ha Hb. apply (Hr1 i j); [done..| |]; rewrite hole_lookup by lia; by rewrite decide_False.
  - intros k g b Hsp' Hc. pose proof (parent_lt (parent pos) ltac:(lia)) as Hgp.
    rewrite !Hlook, !(decide_False (P := parent (parent pos) = _)) by lia. intros Hg.
    assert (le g p) as Hgp'.
    { apply (Hr1 (parent (parent pos)) (parent pos)); [|apply parent_child; lia|lia|..].
      - apply descends_le, descends_parent; [by apply descends_parent|done].
      - rewrite hole_lookup by lia. by rewrite decide_False by lia.
      - rewrite hole_lookup by lia. by rewrite decide_False by lia. }
    assert (k ≠ parent pos) by (destruct Hc; lia). rewrite decide_False by done.
    case_decide as Hk; [by intros [= <-]|]. intros Hb. etrans; [exact Hgp'|]. by eapply Hsib.
Qed.

Lemma rising_stops start pos h x :
  pos < length h → rising start pos (<[pos := x]> h) →
  (start < pos → ∃ p, h !! parent pos = Some p ∧ le p x) →
  heap_from start (<[pos := x]> h).
Proof.
  intros Hlen [Hr _] Hp i j a b Hi Hc Ha Hb. destruct (decide (j = pos)) as [->|Hj]; [|by eapply Hr].
  destruct Hp as (p&Hp&Hle); [destruct Hc; lia|]. rewrite <- (child_parent i pos Hc) in Ha.
  rewrite hole_lookup in Ha, Hb by done. rewrite decide_True in Hb by done.
  rewrite decide_False in Ha by (pose proof (parent_lt pos); destruct Hc; lia). congruence.
Qed.

Lemma siftdown_loop_spec start x fuel : ∀ h pos,
  pos <= fuel → descends start pos → pos < length h → rising start pos (<[pos := x]> h) →
  heap_from start (siftdown_loop c fuel h start pos x) ∧
  siftdown_loop c fuel h start pos x ≡ₚ <[pos := x]> h.
Proof.
  induction fuel as [|fuel IH]; intros h pos Hf Hd Hlen Hr; cbn [siftdown_loop];
    pose proof (descends_le _ _ Hd) as Hsp.
  { split; [|done]. apply rising_stops; [done|done|lia]. }
  destruct (Nat.ltb_spec start pos) as [Hlt|Hge].
  2:{ split; [|done]. apply rising_stops; [done|done|lia]. }
  pose proof (parent_lt pos ltac:(lia)) as Hpp.
  destruct (lookup_lt_is_Some_2 h (parent pos)) as [p Hp]; [lia|]. rewrite Hp.
  destruct (below c x p) eqn:Hb.
  - destruct (IH (<[pos := p]> h) (parent pos)) as [Hheap Hperm]; [lia|by apply descends_parent| | |].
    + rewrite length_insert. lia.
    + apply rising_step; [done..|by apply below_le|done].
    + split; [done|]. rewrite Hperm.
      rewrite <- (move_perm (<[pos := x]> h) (parent pos) pos p x); [|lia|..].
      * by rewrite list_insert_insert_eq.
      * rewrite hole_lookup by lia. by rewrite decide_False by lia.
      * by apply list_lookup_insert_eq.
  - split; [|done]. apply rising_stops; [done|done|]. intros _. exists p. split; [done|].
    by apply not_below.
Qed.

(** The edges are in order but for those of [pos], whose parent is in order with its
    children. *)
Definition sinking (start pos : nat) (h : list A) : Prop :=
  (∀ i j x y, start <= i → child i j → i ≠ pos → j ≠ pos →
     h !! i = Some x → h !! j = Some y → le x y) ∧
  (∀ k x y, start < pos → child pos k → h !! parent pos = Some x → h !! k = Some y → le x y).

Lemma smaller_child_spec h pos j y : smaller_child c h pos = Some (j, y) →
  child pos j ∧ h !! j = Some y ∧ ∀ k z, child pos k → h !! k = Some z → le y z.
Proof.
  unfold smaller_child, child. intros H.
  destruct (h !! (2 * pos + 1)) as [l|] eqn:Hl; [|done].
  destruct (h !! (2 * pos + 2)) as [r|] eqn:Hr.
  - destruct (below c l r) eqn:Hb; injection H as <- <-; (split; [auto|split; [done|]]);
      intros k z [->| ->]; rewrite ?Hl, ?Hr; intros [= <-];
      first [apply le_refl | by apply below_le | by apply not_below].
  - injection H as <- <-. split; [auto|]. split; [done|].
    intros k z [->| ->]; rewrite ?Hl, ?Hr; [|done]. intros [= <-]. apply le_refl.
Qed.

Lemma smaller_child_none h pos k : smaller_child c h pos = None → child pos k → h !! k = None.
Proof.
  unfold smaller_child. destruct (h !! (2 * pos + 1)) eqn:Hl; [repeat case_match; done|].
  apply lookup_ge_None in Hl. intros _ Hc. apply lookup_ge_None. destruct Hc; lia.
Qed.

(** The hole sinks to the smaller child. *)
Lemma sinking_step start pos h j y :
  start <= pos → pos < length h → smaller_child c h pos = Some (j, y) → sinking start pos h →
  sinking start j (<[pos := y]> h).
Proof.
  intros Hsp Hlen Hch [Hs1 Hs2]. apply smaller_child_spec in Hch as (Hc&Hy&Hmin).
  assert (pos < j) by (destruct Hc; lia). split.
  - intros i j' a b Hi Hc' Hij Hjj. rewrite !hole_lookup by done.
    destruct (decide (j' = pos)) as [->|Hj'].
    + rewrite decide_False by (destruct Hc'; lia). intros Ha [= <-].
      rewrite <- (child_parent i pos Hc') in Ha. apply (Hs2 j); [destruct Hc'; lia|done..].
    + case_decide as Hip; [subst i; intros [= <-]; by apply Hmin|]. by apply Hs1.
  - intros k a b _ Hck. rewrite (child_parent pos j Hc), !hole_lookup by done.
    rewrite decide_True, decide_False by (done || destruct Hck; lia). intros [= <-].
    apply (Hs1 j k); [lia|done|lia|destruct Hck; lia|done].
Qed.

Lemma siftup_loop_spec start x fuel : ∀ h pos,
  length h - pos <= fuel → descends start pos → pos < length h → sinking start pos h →
  heap_from start (siftup_loop c fuel h start pos x) ∧
  siftup_loop c fuel h start pos x ≡ₚ <[pos := x]> h.
Proof.
  induction fuel as [|fuel IH]; intros h pos Hf Hd Hlen Hs; [lia|]. cbn [siftup_loop].
  pose proof (descends_le _ _ Hd). destruct (smaller_child c h pos) as [[j y]|] eqn:Hch.
  - pose proof (smaller_child_spec h pos j y Hch) as (Hc&Hy&_).
    assert (pos < j) by (destruct Hc; lia). apply lookup_lt_Some in Hy as Hjl.
    destruct (IH (<[pos := y]> h) j) as [Hheap Hperm];
      [rewrite length_insert; lia|by eapply descends_child|by rewrite length_insert|by apply sinking_step|].
    split; [done|]. rewrite Hperm. rewrite <- (move_perm (<[pos := x]> h) j pos y x); [|lia|..].
    + by rewrite list_insert_insert_eq.
    + rewrite hole_lookup by lia. by rewrite decide_False by lia.
    + by apply list_lookup_insert_eq.
  - unfold siftdown. rewrite list_lookup_insert_eq by done.
    destruct (siftdown_loop_spec start x pos (<[pos := x]> h) pos) as [Hheap Hperm];
      [done|done|by rewrite length_insert| |split; [done|by rewrite Hperm, list_insert_insert_eq]].
    rewrite list_insert_insert_eq. destruct Hs as [Hs1 _]. split.
    + intros i j a b Hi Hc Hj. rewrite !hole_lookup, (decide_False (P := j = pos)) by done.
      case_decide as Hip; [subst i|by apply Hs1].
      by rewrite (smaller_child_none h pos j).
    + intros k a b _ Hc. rewrite !hole_lookup by done.
      rewrite (decide_False (P := k = pos)) by (destruct Hc; lia).
      by rewrite (smaller_child_none h pos k).
Qed.

Lemma siftup_spec h pos : pos < length h → heap_from (S pos) h →
  heap_from pos (siftup c h pos) ∧ siftup c h pos ≡ₚ h.
Proof.
  intros Hlen Hh. unfold siftup. destruct (lookup_lt_is_Some_2 h pos Hlen) as [x Hx]. rewrite Hx.
  destruct (siftup_loop_spec pos x (length h - pos) h pos) as [Hheap Hperm];
    [lia|constructor|done| |split; [done|by rewrite Hperm, list_insert_id]].
  split; [|intros; lia]. intros i j a b Hi Hc Hip Hjp. apply Hh; [lia|done].
Qed.

(** ** The operations *)

Lemma heappush_spec h x : is_heap h → is_heap (heappush c h x) ∧ heappush c h x ≡ₚ x :: h.
Proof.
  intros Hh. unfold heappush, siftdown. rewrite list_lookup_middle by done.
  destruct (siftdown_loop_spec 0 x (length h) (h ++ [x]) (length h)) as [Hheap Hperm];
    [done|apply descends_root|rewrite length_app; cbn; lia| |].
  - rewrite list_insert_id by by apply list_lookup_middle. split.
    + intros i j a b Hi Hc Hj Ha Hb. apply lookup_lt_Some in Hb as Hjl. rewrite length_app in Hjl.
      cbn in Hjl. rewrite lookup_app_l in Ha, Hb by (destruct Hc; lia). by apply (Hh i j).
    + intros k a b _ Hc _ Hb. apply lookup_lt_Some in Hb. rewrite length_app in Hb. cbn in Hb.
      destruct Hc; lia.
  - split; [done|]. rewrite Hperm, list_insert_id by by apply list_lookup_middle.
    symmetry. apply Permutation_cons_append.
Qed.

Lemma heap_min h x y : is_heap h → h !! 0 = Some x → y ∈ h → le x y.
Proof.
  intros Hh H0 [j Hj]%list_elem_of_lookup_1. revert y Hj.
  induction (Wf_nat.lt_wf j) as [j _ IH]. intros y Hj. destruct (decide (j = 0)) as [->|].
  { assert (x = y) as -> by congruence. apply le_refl. }
  pose proof (parent_lt j ltac:(lia)) as Hp. pose proof (parent_child j ltac:(lia)) as Hc.
  apply lookup_lt_Some in Hj as Hjl.
  destruct (lookup_lt_is_Some_2 h (parent j)) as [p Hpj]; [lia|].
  etrans; [by apply (IH (parent j))|]. by apply (Hh (parent j) j); [lia|..].
Qed.

Lemma heap_head_min h x y : is_heap (x :: h) → y ∈ x :: h → le x y.
Proof. intros Hh. by apply heap_min. Qed.

Lemma heappop_spec x h : is_heap (x :: h) →
  ∃ h', heappop c (x :: h) = Some (x, h') ∧ is_heap h' ∧ h' ≡ₚ h.
Proof.
  intros Hh. unfold heappop. destruct h as [|y h' _] using rev_ind.
  { exists []. by split_and!; [|intros i j a b _ _ Ha|]. }
  rewrite app_comm_cons, last_snoc, removelast_last. eexists. split; [reflexivity|].
  destruct (siftup_spec (y :: h') 0) as [Hheap Hperm]; [cbn; lia| |].
  - intros i j a b Hi Hc Ha Hb. apply lookup_lt_Some in Hb as Hjl. cbn in Hjl.
    destruct i as [|i]; [lia|]. destruct j as [|j]; [destruct Hc; lia|]. cbn in Ha, Hb.
    apply (Hh (S i) (S j)); [lia|done|..].
    + change ((h' ++ [y]) !! i = Some a). by rewrite lookup_app_l by (destruct Hc; lia).
    + change ((h' ++ [y]) !! j = Some b). by rewrite lookup_app_l by (destruct Hc; lia).
  - split; [done|]. rewrite Hperm. apply Permutation_cons_append.
Qed.

Lemma heapify_spec h : is_heap (heapify c h) ∧ heapify c h ≡ₚ h.
Proof.
  unfold heapify. set (n := length h).
  assert (∀ k h0, k <= Nat.div2 n → length h0 = n → heap_from k h0 →
    is_heap (foldl (siftup c) h0 (reverse (seq 0 k))) ∧
    foldl (siftup c) h0 (reverse (seq 0 k)) ≡ₚ h0) as Hloop.
  { induction k as [|k IH]; intros h0 Hk Hlen Hh0; [done|]. rewrite seq_S, reverse_app. cbn.
    destruct (siftup_spec h0 k) as [Hh1 Hp1]; [pose proof (Nat.div2_decr n n); lia|done|].
    destruct (IH (siftup c h0 k)) as [Hh2 Hp2]; [lia|by rewrite Hp1|done|].
    split; [done|]. by rewrite Hp2, Hp1. }
  apply Hloop; [done|done|]. intros i j x y Hi Hc Hx Hy. apply lookup_lt_Some in Hy.
  fold n in Hy. pose proof (Nat.div2_odd n). destruct (Nat.odd n); cbn in H; destruct Hc; lia.
Qed.
End laws.

#[global] Arguments heappush : simpl never.
#[global] Arguments heappop : simpl never.
#[global] Arguments heapify : simpl never.
