(* ===== verification/Utf8.v ===== *)
(** * UTF-8 (str.encode and bytes.decode of the standard library)

    The strict codec: a surrogate cannot be encoded, and overlong, surrogate and
    truncated sequences are refused by the decoder. *)

From S2P Require Import Prelude.

#[global] Open Scope Z_scope.

(** ** The codec *)

(** A code point that can be encoded. *)
Definition is_scalar (c : Z) : bool :=
  ((0 <=? c) && (c <? 55296)) || ((57343 <? c) && (c <=? 1114111)).

(** The units of one code point. *)
Definition utf8_units (c : Z) : list Z :=
  if c <? 128 then [c]
  else if c <? 2048 then [192 + c / 64; 128 + c mod 64]
  else if c <? 65536 then [224 + c / 4096; 128 + c / 64 mod 64; 128 + c mod 64]
  else [240 + c / 262144; 128 + c / 4096 mod 64; 128 + c / 64 mod 64; 128 + c mod 64].

(** [text.encode("utf-8")]; [None] is a [UnicodeEncodeError]. *)
Definition utf8_encode (text : pystr) : option (list byte) :=
  if forallb is_scalar text then Some (z2b <$> (text ≫= utf8_units)) else None.

Definition continues (u : Z) : bool := (128 <=? u) && (u <? 192).

Fixpoint decode_units (us : list Z) : option pystr :=
  match us with
  | [] => Some []
  | a :: us1 =>
      if a <? 128 then cons a <$> decode_units us1
      else match us1 with
      | [] => None
      | b :: us2 =>
          if (194 <=? a) && (a <? 224) && continues b
          then cons ((a - 192) * 64 + (b - 128)) <$> decode_units us2
          else match us2 with
          | [] => None
          | c :: us3 =>
              let v := (a - 224) * 4096 + (b - 128) * 64 + (c - 128) in
              if (224 <=? a) && (a <? 240) && continues b && continues c &&
                 (2048 <=? v) && is_scalar v
              then cons v <$> decode_units us3
              else match us3 with
              | [] => None
              | d :: us4 =>
                  let v := (a - 240) * 262144 + (b - 128) * 4096 + (c - 128) * 64 + (d - 128) in
                  if (240 <=? a) && (a <? 245) && continues b && continues c && continues d &&
                     (65536 <=? v) && is_scalar v
                  then cons v <$> decode_units us4
                  else None
              end
          end
      end
  end.

(** [data.decode("utf-8")]; [None] is a [UnicodeDecodeError]. *)
Definition utf8_decode (data : list byte) : option pystr := decode_units (b2z <$> data).

(** ** Laws *)

#[local] Ltac Zify.zify_post_hook ::= Z.div_mod_to_equations.

Lemma utf8_units_bytes c : is_scalar c = true → Forall (λ u, 0 <= u < 256) (utf8_units c).
Proof.
  unfold is_scalar, utf8_units. intros H. bool_prop.
  repeat case_match; bool_prop; repeat constructor; lia.
Qed.

(** The two parts of a unit split at 6 bits. *)
Ltac settle b v := replace b with v by (symmetry; unfold continues, is_scalar in *; lia).

Lemma decode_units_scalar c us : is_scalar c = true →
  decode_units (utf8_units c ++ us) = cons c <$> decode_units us.
Proof.
  intros H. unfold is_scalar in H. unfold utf8_units.
  destruct (c <? 128) eqn:H1; [cbn [app decode_units]; by rewrite H1|].
  destruct (c <? 2048) eqn:H2; [|destruct (c <? 65536) eqn:H3]; cbn [app decode_units]; cbv zeta.
  - settle (192 + c / 64 <? 128) false.
    settle ((194 <=? 192 + c / 64) && (192 + c / 64 <? 224) && continues (128 + c mod 64)) true.
    do 2 f_equal. lia.
  - settle (224 + c / 4096 <? 128) false.
    settle ((194 <=? 224 + c / 4096) && (224 + c / 4096 <? 224) && continues (128 + c / 64 mod 64)) false.
    replace ((224 + c / 4096 - 224) * 4096 + (128 + c / 64 mod 64 - 128) * 64 + (128 + c mod 64 - 128)) with c by lia.
    settle ((224 <=? 224 + c / 4096) && (224 + c / 4096 <? 240) && continues (128 + c / 64 mod 64) && continues (128 + c mod 64) && (2048 <=? c) && is_scalar c) true.
    done.
  - settle (240 + c / 262144 <? 128) false.
    settle ((194 <=? 240 + c / 262144) && (240 + c / 262144 <? 224) && continues (128 + c / 4096 mod 64)) false.
    match goal with |- context [if ?b then _ else _] => settle b false end.
    replace ((240 + c / 262144 - 240) * 262144 + (128 + c / 4096 mod 64 - 128) * 4096 + (128 + c / 64 mod 64 - 128) * 64 + (128 + c mod 64 - 128)) with c by lia.
    match goal with |- context [if ?b then _ else _] => settle b true end.
    done.
Qed.

(** Decoding gives back the encoded text. *)
Lemma utf8_roundtrip text data : utf8_encode text = Some data → utf8_decode data = Some text.
Proof.
  unfold utf8_encode, utf8_decode. intros H. case_match eqn:Hs; [|done]. injection H as <-.
  rewrite <- list_fmap_compose. rewrite forallb_forall in Hs.
  rewrite (list_fmap_ext _ id _), list_fmap_id.
  2: { intros i u Hu. apply list_elem_of_lookup_2 in Hu.
       apply list_elem_of_bind in Hu as (c & Hu & Hc). cbn. apply b2z_z2b.
       pose proof (utf8_units_bytes c) as Hb. rewrite Forall_forall in Hb.
       apply Hb; [apply Hs; by apply list_elem_of_In|done]. }
  induction text as [|c text IH]; [done|]. csimpl. rewrite decode_units_scalar by (apply Hs; by left).
  rewrite IH; [done|]. intros x Hx. apply Hs. by right.
Qed.
