(* ===== verification/VectorRetain.v ===== *)
(** * The exact-search order and the retention of the best hits

    [semantic/semantic_search_order.py], and the retention that
    [semantic_exact_index_format.py] and [semantic_search_repository.py] run on
    each scored hit: a dictionary of the best entry of each key and a heap whose
    first entry is the worst one retained.  An entry that a better one of its key
    replaces stays in the heap, stale, until it surfaces or the heap is rebuilt.

    The reference is [top_hits]: the best entry of each key, sorted, the first
    [limit] of them. *)

From S2P Require Import Prelude PyOrder HeapQ.

#[global] Open Scope Z_scope.

(** ** The order *)

(** Score descending; item, entity and model ascending; ref_id descending. *)
Definition ExactSearchOrder : Type := pyfloat * pystr * pystr * pystr * Z.

Definition exact_search_order (score : pyfloat) (item_id entity_id model_signature : pystr)
    (ref_id : Z) : ExactSearchOrder :=
  (SFopp score, item_id, entity_id, model_signature, - ref_id).

(** The comparison of the tuples. *)
Definition cmp_order : ExactSearchOrder → ExactSearchOrder → comparison :=
  lex (lex (lex (lex fcmp cmp_str) cmp_str) cmp_str) Z.compare.

#[export] Instance cmp_order_total : TotalOrder cmp_order.
Proof. unfold cmp_order. apply _. Qed.

(** [ExactSearchHeapKey.__lt__]: the reverse of the shared order.  [a > b] on two
    heap keys is [b < a]: Python reflects it. *)
Definition heap_key_lt (self other : ExactSearchOrder) : bool :=
  match cmp_order self other with Gt => true | _ => false end.

(** The comparison of two heap keys in a tuple. *)
Definition cmp_heap_key (x y : ExactSearchOrder) : comparison := cmp_order y x.

#[export] Instance cmp_heap_key_total : TotalOrder cmp_heap_key.
Proof.
  unfold cmp_heap_key. split.
  - intros x y. apply (cmp_sym cmp_order).
  - intros x y z H. by rewrite (cmp_eq_r cmp_order _ _ z H).
  - intros x y z H1 H2. by apply (cmp_lt_trans cmp_order _ y).
Qed.

(** What the hits are told apart by: the item, or the entity of the item in
    evidence mode. *)
Inductive hit_key : Type := ByItem (item_id : pystr) | ByEvidence (item_id entity_id : pystr).

#[export] Instance hit_key_eq_dec : EqDecision hit_key.
Proof. solve_decision. Defined.

Definition key_of (evidence_mode : bool) (item_id entity_id : pystr) : hit_key :=
  if evidence_mode then ByEvidence item_id entity_id else ByItem item_id.

(** Entries whose orders are equal have the same key. *)
Lemma order_tells_keys evidence_mode s1 i1 e1 m1 r1 s2 i2 e2 m2 r2 :
  cmp_order (exact_search_order s1 i1 e1 m1 r1) (exact_search_order s2 i2 e2 m2 r2) = Eq →
  key_of evidence_mode i1 e1 = key_of evidence_mode i2 e2.
Proof.
  unfold cmp_order, exact_search_order, lex; cbn. intros H.
  repeat (case_match; try done).
  repeat match goal with H : cmp_str _ _ = Eq |- _ => apply (cmp_eq cmp_str) in H as -> end.
  done.
Qed.

(** [del d[k]] *)
Fixpoint ddel {K V} `{!EqDecision K} (k : K) (d : list (K * V)) : list (K * V) :=
  match d with
  | [] => []
  | (k', v) :: d' => if decide (k = k') then d' else (k', v) :: ddel k d'
  end.

(** ** Retention *)

Section retention.
Context {E X : Type} `{!EqDecision E} (c : E → E → comparison)
  (order_of : E → ExactSearchOrder) (entry_key : E → hit_key).

Record retained : Type := { best : list (hit_key * E); heap : list E }.

Definition nothing_retained : retained := {| best := []; heap := [] |}.

(** [x[0] > y[0]] *)
Definition beats (x y : E) : bool := heap_key_lt (order_of y) (order_of x).

(** [while heap and best.get(heap[0].key) != heap[0]: heappop(heap)]; each turn
    takes one entry, so the length of the heap is fuel enough. *)
Fixpoint drop_stale (fuel : nat) (b : list (hit_key * E)) (h : list E) : list E :=
  match fuel, h with
  | S fuel', e :: _ =>
      if decide (dget (entry_key e) b = Some e) then h
      else match heappop c h with
           | Some (_, h') => drop_stale fuel' b h'
           | None => h
           end
  | _, _ => h
  end.

(** The entry of a new key once [limit] keys are retained: it takes the place of
    the worst one if it is better. *)
Definition replace_worst (empty : X) (entry : E) (st : retained) : result X retained :=
  match drop_stale (length (heap st)) (best st) (heap st) with
  | [] => Err empty
  | (worst :: _) as h =>
      if beats entry worst
      then match heappop c h with
           | None => Err empty
           | Some (removed, h') =>
               Ok {| best := dset (entry_key entry) entry (ddel (entry_key removed) (best st));
                     heap := heappush c h' entry |}
           end
      else Ok {| best := best st; heap := h |}
  end.

(** [best[key] = entry; heappush(heap, entry)] *)
Definition enter (entry : E) (st : retained) : retained :=
  {| best := dset (entry_key entry) entry (best st); heap := heappush c (heap st) entry |}.

(** [if len(heap) > max(limit * 2, limit + 64): heap[:] = best.values(); heapify(heap)] *)
Definition rebuild (limit : Z) (st : retained) : retained :=
  if Z.max (limit * 2) (limit + 64) <? zlen (heap st)
  then {| best := best st; heap := heapify c (best st).*2 |} else st.

(** The retention of one entry; [empty] is the error of an empty heap. *)
Definition retain (empty : X) (limit : Z) (entry : E) (st : retained) : result X retained :=
  st' ←
    match dget (entry_key entry) (best st) with
    | Some prior => Ok (if beats entry prior then enter entry st else st)
    | None =>
        if zlen (best st) <? limit then Ok (enter entry st) else replace_worst empty entry st
    end;
  Ok (rebuild limit st').

(** The entries of a scan, one after the other. *)
Definition retain_all (empty : X) (limit : Z) (entries : list E) (st : retained) :
    result X retained :=
  foldl (λ r e, st ← r; retain empty limit e st) (Ok st) entries.

(** [sorted(best.values(), key=order)] *)
Definition ordered_hits (st : retained) : list E := sort_by cmp_order order_of (best st).*2.

(** ** The reference *)

(** The first of the best entries of each key. *)
Definition note_best (d : list (hit_key * E)) (e : E) : list (hit_key * E) :=
  match dget (entry_key e) d with
  | Some prior => if beats e prior then dset (entry_key e) e d else d
  | None => dset (entry_key e) e d
  end.

Definition representatives (entries : list E) : list (hit_key * E) := foldl note_best [] entries.

Definition top_hits (limit : Z) (entries : list E) : list E :=
  take (Z.to_nat limit) (sort_by cmp_order order_of (representatives entries).*2).
End retention.

#[global] Arguments retained _ : clear implicits.

(** ** Target diagnostics

    The rank accounting of both searches: the best hit of each requested item, and
    the best order of each key until the accounting budget is exhausted. *)

Definition MAX_DIAGNOSTIC_RANK_ENTRIES : Z := 100000.
Definition MAX_DIAGNOSTIC_RANK_BYTES : Z := 64 * 1024 * 1024.

(** [a < b] on two orders *)
Definition order_lt (a b : ExactSearchOrder) : bool :=
  match cmp_order a b with Lt => true | _ => false end.

Section targets.
Context {H : Type} (item entity model : H → pystr) (order : H → ExactSearchOrder).

Record TargetDiagnostics : Type := {
  target_item_ids : list pystr;
  target_evidence_mode : bool;
  target_best : list (pystr * pystr * ExactSearchOrder);
  targets : list (pystr * H);
  exhausted : bool;
  target_bytes : Z
}.

Definition new_targets (item_ids : list pystr) (evidence_mode : bool) : TargetDiagnostics :=
  {| target_item_ids := item_ids; target_evidence_mode := evidence_mode; target_best := [];
     targets := []; exhausted := false; target_bytes := 0 |}.

(** The first half of [observe]: the best hit of a target. *)
Definition observe_target (h : H) (t : TargetDiagnostics) : list (pystr * H) :=
  if bool_decide (item h ∈ target_item_ids t)
  then match dget (item h) (targets t) with
       | Some prior => if order_lt (order h) (order prior)
                       then dset (item h) h (targets t) else targets t
       | None => dset (item h) h (targets t)
       end
  else targets t.

(** The second half: what the accounting of a new key costs, and the order of a
    key that is better than the known one. *)
Definition rank_bytes (h : H) (t : TargetDiagnostics) (known : option ExactSearchOrder) : Z :=
  match known with
  | None => target_bytes t + 256 + 4 * (zlen (item h) + zlen (entity h) + zlen (model h))
  | Some _ => target_bytes t
  end.

Definition note_rank (key : pystr * pystr) (h : H) (t : TargetDiagnostics)
    (known : option ExactSearchOrder) : list (pystr * pystr * ExactSearchOrder) :=
  match known with
  | Some prior => if order_lt (order h) prior then dset key (order h) (target_best t)
                  else target_best t
  | None => dset key (order h) (target_best t)
  end.

(** [observe] *)
Definition observe (h : H) (t : TargetDiagnostics) : TargetDiagnostics :=
  let found := observe_target h t in
  let update best exhausted_ bytes :=
    {| target_item_ids := target_item_ids t; target_evidence_mode := target_evidence_mode t;
       target_best := best; targets := found; exhausted := exhausted_; target_bytes := bytes |} in
  if exhausted t then update (target_best t) true (target_bytes t)
  else
    let key := (item h, if target_evidence_mode t then entity h else []) in
    let known := dget key (target_best t) in
    let bytes := rank_bytes h t known in
    if bool_decide (known = None) &&
       ((MAX_DIAGNOSTIC_RANK_ENTRIES <=? zlen (target_best t)) || (MAX_DIAGNOSTIC_RANK_BYTES <? bytes))
    then update [] true bytes
    else update (note_rank key h t known) false bytes.
End targets.

#[global] Arguments TargetDiagnostics _ : clear implicits.
