(* ===== verification/VectorRetainLaws.v ===== *)
(** * The laws of the retention

    [Retains]: what the dictionary and the heap hold after some entries, with
    respect to the best entry of each key; that [retain] keeps it, that it never
    raises, and that the ordered hits are the reference ones. *)

From S2P Require Import Prelude PyOrder HeapQ VectorRetain.

#[global] Open Scope Z_scope.

(** ** Dictionaries *)

Section odict.
Context {K V : Type} `{!EqDecision K}.
Implicit Types (d : list (K * V)).

Lemma dget_ddel k k' d : NoDup d.*1 → dget k (ddel k' d) = if decide (k = k') then None else dget k d.
Proof.
  induction d as [|[k1 v] d IH]; csimpl; [by case_decide|]. intros [Hk Hd]%NoDup_cons.
  destruct (decide (k' = k1)) as [->|]; csimpl.
  - destruct (decide (k = k1)) as [->|]; [|done]. by apply dget_None.
  - rewrite IH by done. repeat case_decide; congruence.
Qed.

Lemma ddel_elem k d p : p ∈ ddel k d → p ∈ d.
Proof. induction d as [|[k1 v] d IH]; csimpl; [done|]. case_decide; set_solver. Qed.

Lemma ddel_NoDup k d : NoDup d.*1 → NoDup (ddel k d).*1.
Proof.
  induction d as [|[k1 v] d IH]; csimpl; [done|]. intros [Hk Hd]%NoDup_cons.
  case_decide; csimpl; [done|]. apply NoDup_cons. split; [|by apply IH].
  intros [p [-> Hp]]%list_elem_of_fmap. apply Hk, list_elem_of_fmap. exists p. split; [done|].
  by apply ddel_elem in Hp.
Qed.

Lemma ddel_length k d : k ∈ d.*1 → S (length (ddel k d)) = length d.
Proof.
  induction d as [|[k1 v] d IH]; csimpl; [set_solver|]. intros Hk. case_decide; csimpl; [done|].
  rewrite IH; [done|]. set_solver.
Qed.

Lemma dset_length k v d :
  length (dset k v d) = if decide (dget k d = None) then S (length d) else length d.
Proof.
  induction d as [|[k1 v1] d IH]; csimpl; [done|].
  destruct (decide (k = k1)) as [->|]; csimpl; [done|]. rewrite IH. by case_decide.
Qed.

(** A dictionary within another one and as long as it has all its keys. *)
Lemma keys_fill d d' k : NoDup d.*1 → (length d' <= length d)%nat →
  (∀ k, dget k d ≠ None → dget k d' ≠ None) → dget k d = None → dget k d' = None.
Proof.
  intros Hd Hlen Hsub. rewrite !dget_None. intros Hk Hk'. apply Hk.
  rewrite (submseteq_length_Permutation d.*1 d'.*1); [done| |rewrite !length_fmap; lia].
  apply NoDup_submseteq; [done|]. intros k0 Hk0. destruct (dget k0 d') eqn:E.
  - apply dget_elem in E. apply list_elem_of_fmap. by eexists (_, _).
  - exfalso. apply (Hsub k0); [|done]. intros Hn. by apply dget_None in Hn.
Qed.

Lemma dget_values v d : v ∈ d.*2 → NoDup d.*1 → ∃ k, dget k d = Some v.
Proof. intros [[k v'] [-> Hin]]%list_elem_of_fmap Hd. exists k. by apply elem_dget. Qed.

Lemma values_dget k v d : dget k d = Some v → v ∈ d.*2.
Proof. intros H%dget_elem. apply list_elem_of_fmap. by exists (k, v). Qed.
End odict.

(** ** Orders *)

(** An order up to the equality of its comparison. *)
Definition order_text (o : ExactSearchOrder) :=
  match o with (s, i, e, m, r) => (float_key s, i, e, m, r) end.

Lemma order_text_eq o o' : cmp_order o o' = Eq ↔ order_text o = order_text o'.
Proof.
  destruct o as [[[[s i] e] m] r], o' as [[[[s' i'] e'] m'] r']. unfold cmp_order, lex; cbn.
  split; [|intros [= H -> -> -> ->]; unfold fcmp; rewrite H].
  - intros H. repeat (case_match; try done).
    repeat match goal with
    | H : cmp_str _ _ = Eq |- _ => apply (cmp_eq cmp_str) in H as ->
    | H : fcmp _ _ = Eq |- _ => apply (cmp_eq (lex Z.compare (lex Z.compare Z.compare))) in H as ->
    | H : (_ ?= _) = Eq |- _ => apply Z.compare_eq in H as ->
    end. done.
  - by rewrite (cmp_refl (lex Z.compare (lex Z.compare Z.compare))), !(cmp_refl cmp_str), Z.compare_refl.
Qed.

(** ** The retention *)

Section laws.
Context {E X : Type} `{!EqDecision E} (c : E → E → comparison) `{!TotalOrder c}
  (order_of : E → ExactSearchOrder) (entry_key : E → hit_key).

(** The heap surfaces the worst entry, and the order of the entries of a scan, which
    [ok] holds of, tells their keys apart. *)
Hypothesis surfaces_worst : ∀ x y, cmp_order (order_of x) (order_of y) = Lt → c y x = Lt.
Context (ok : E → Prop).
Hypothesis tells_keys : ∀ x y, ok x → ok y →
  cmp_order (order_of x) (order_of y) = Eq → entry_key x = entry_key y.

Abbreviation beats := (beats order_of).
Abbreviation note_best := (note_best order_of entry_key).

Lemma beats_lt x y : beats x y = true ↔ cmp_order (order_of x) (order_of y) = Lt.
Proof.
  unfold VectorRetain.beats, heap_key_lt. rewrite (cmp_sym cmp_order (order_of x)).
  by destruct (cmp_order (order_of x) (order_of y)).
Qed.

Lemma beats_trans x y z : beats x y = true → beats y z = true → beats x z = true.
Proof. rewrite !beats_lt. apply (cmp_lt_trans cmp_order). Qed.

Lemma beats_irrefl x : beats x x = false.
Proof.
  apply not_true_iff_false. rewrite beats_lt. by rewrite (cmp_refl cmp_order).
Qed.

(** An entry that does not beat another one of the same rank or better. *)
Lemma beats_false_trans x y z : beats y x = false → beats z y = false → beats z x = false.
Proof.
  rewrite <- !not_true_iff_false, !beats_lt. intros H1 H2.
  assert (cmp_le cmp_order (order_of x) (order_of z)) as H.
  { etrans; [|by unfold cmp_le; rewrite (cmp_sym cmp_order (order_of z)); intros H%CompOpp_iff; apply H2].
    unfold cmp_le. rewrite (cmp_sym cmp_order (order_of y)). intros H%CompOpp_iff. by apply H1. }
  unfold cmp_le in H. rewrite (cmp_sym cmp_order (order_of z)) in H. intros H3. by rewrite H3 in H.
Qed.

Lemma beats_total x y : ok x → ok y → entry_key x ≠ entry_key y → beats x y = false → beats y x = true.
Proof.
  rewrite <- not_true_iff_false, !beats_lt. intros Hx Hy Hk Hb.
  rewrite (cmp_sym cmp_order (order_of x)). destruct (cmp_order (order_of x) (order_of y)) eqn:H; [|done..].
  by apply tells_keys in H.
Qed.

Lemma beats_tie x y : beats x y = true → order_text (order_of x) ≠ order_text (order_of y).
Proof. rewrite beats_lt, <- order_text_eq. intros ->. done. Qed.

(** The first of a heap is the worst of it. *)
Lemma head_is_worst x h y : is_heap c (x :: h) → y ∈ x :: h → beats x y = false.
Proof.
  intros Hh Hy. apply not_true_iff_false. rewrite beats_lt. intros H%surfaces_worst.
  pose proof (heap_head_min c h x y Hh Hy) as Hle. unfold cmp_le in Hle.
  rewrite (cmp_sym c y x), H in Hle. done.
Qed.
(** *** The invariant *)

(** What is retained of entries whose best of each key are [reps]. *)
Record Retains (limit : Z) (reps : list (hit_key * E)) (st : retained E) : Prop := {
  rt_reps : NoDup reps.*1;
  rt_own : ∀ k e, dget k reps = Some e → entry_key e = k;
  rt_ok : ∀ k e, dget k reps = Some e → ok e;
  rt_keys : NoDup (best st).*1;
  rt_best : ∀ k e, dget k (best st) = Some e → dget k reps = Some e;
  rt_size : length (best st) = min (Z.to_nat limit) (length reps);
  rt_rest : ∀ k e k' e', dget k reps = Some e → dget k (best st) = None →
            dget k' (best st) = Some e' → beats e' e = true;
  rt_heap : is_heap c (heap st);
  rt_sub : ∀ k e, dget k (best st) = Some e → e ∈ heap st;
  rt_seen : ∀ y, y ∈ heap st → ok y ∧ ∃ p, dget (entry_key y) reps = Some p ∧ beats y p = false;
  rt_tie : NoDup (order_text ∘ order_of <$> heap st)
}.

Lemma retains_nothing limit : Retains limit [] nothing_retained.
Proof.
  split; cbn; try done; try apply NoDup_nil_2; [lia|]. intros y H. by apply elem_of_nil in H.
Qed.

(** Pushing an entry whose order is that of no other. *)
Lemma push_heap h x : is_heap c h → NoDup (order_text ∘ order_of <$> h) →
  (∀ y, y ∈ h → order_text (order_of x) ≠ order_text (order_of y)) →
  is_heap c (heappush c h x) ∧ heappush c h x ≡ₚ x :: h ∧
  NoDup (order_text ∘ order_of <$> heappush c h x).
Proof.
  intros Hh Hn Hx. destruct (heappush_spec c h x Hh) as [Hh' Hp]. split_and!; [done..|].
  rewrite Hp. csimpl. apply NoDup_cons. split; [|done].
  intros (y & Hy & Hin)%list_elem_of_fmap. by apply (Hx y).
Qed.

(** Popping the first entry. *)
Lemma pop_heap x h : is_heap c (x :: h) → NoDup (order_text ∘ order_of <$> x :: h) →
  ∃ h', heappop c (x :: h) = Some (x, h') ∧ is_heap c h' ∧ h' ≡ₚ h ∧
        NoDup (order_text ∘ order_of <$> h').
Proof.
  intros Hh Hn. destruct (heappop_spec c x h Hh) as (h' & -> & Hh' & Hp). exists h'.
  split_and!; [done..|]. rewrite Hp. csimpl in Hn. by apply NoDup_cons in Hn as [_ Hn].
Qed.

(** The entries that were seen are no better than the best of their keys, when a
    better one or the first one of its key is noted. *)
Lemma seen_noted reps x y :
  (∀ p, dget (entry_key x) reps = Some p → beats x p = true) →
  ok y ∧ (∃ p, dget (entry_key y) reps = Some p ∧ beats y p = false) →
  ok y ∧ ∃ p, dget (entry_key y) (dset (entry_key x) x reps) = Some p ∧ beats y p = false.
Proof.
  intros Hx (Hok & p & Hp & Hb). split; [done|]. destruct (decide (entry_key y = entry_key x)) as [Hk|Hk].
  - exists x. rewrite Hk, dget_dset_eq. split; [done|]. rewrite Hk in Hp. apply Hx in Hp.
    apply not_true_iff_false. intros H. rewrite (beats_trans y x p) in Hb; done.
  - exists p. by rewrite dget_dset_ne.
Qed.

Lemma noted_ok reps x : ok x → (∀ k e, dget k reps = Some e → ok e) →
  ∀ k e, dget k (dset (entry_key x) x reps) = Some e → ok e.
Proof.
  intros Hx Hok k e. destruct (decide (k = entry_key x)) as [->|Hk].
  - rewrite dget_dset_eq. by intros [= ->].
  - rewrite dget_dset_ne by done. apply Hok.
Qed.

Lemma noted_or_worse reps x :
  (∃ p, dget (entry_key x) reps = Some p ∧ beats x p = false) ∨
  (∀ p, dget (entry_key x) reps = Some p → beats x p = true).
Proof.
  destruct (dget (entry_key x) reps) as [p|]; [|by right].
  destruct (beats x p) eqn:?; [right; by intros ? [= <-]|left; eauto].
Qed.

Lemma note_new reps x : (∀ p, dget (entry_key x) reps = Some p → beats x p = true) →
  note_best reps x = dset (entry_key x) x reps.
Proof.
  intros Hx. unfold VectorRetain.note_best. destruct (dget (entry_key x) reps); [by rewrite Hx|done].
Qed.

Lemma noted_own reps x : (∀ k e, dget k reps = Some e → entry_key e = k) →
  ∀ k e, dget k (dset (entry_key x) x reps) = Some e → entry_key e = k.
Proof.
  intros Hown k e. destruct (decide (k = entry_key x)) as [->|Hk].
  - rewrite dget_dset_eq. by intros [= ->].
  - rewrite dget_dset_ne by done. apply Hown.
Qed.

(** An entry better than the best of its key has a new order. *)
Lemma new_order reps (h : list E) x y :
  ok x → (∀ y, y ∈ h → ok y ∧ ∃ p, dget (entry_key y) reps = Some p ∧ beats y p = false) →
  (∀ p, dget (entry_key x) reps = Some p → beats x p = true) →
  y ∈ h → order_text (order_of x) ≠ order_text (order_of y).
Proof.
  intros Hok Hseen Hx Hy Ht. apply order_text_eq in Ht.
  destruct (Hseen y Hy) as (Hoky & p & Hp & Hb). pose proof (tells_keys _ _ Hok Hoky Ht) as Hk. rewrite <- Hk in Hp. apply Hx, beats_lt in Hp.
  rewrite <- not_true_iff_false, beats_lt in Hb. apply Hb.
  by rewrite <- (cmp_eq_l cmp_order _ _ _ Ht).
Qed.

(** *** The steps *)

Lemma retains_absent limit reps st k :
  Retains limit reps st → dget k reps = None → dget k (best st) = None.
Proof.
  intros R Hn. destruct (dget k (best st)) eqn:H; [|done]. apply (rt_best _ _ _ R) in H. congruence.
Qed.

(** While there is room every best entry is retained. *)
Lemma retains_room limit reps st k :
  Retains limit reps st → zlen (best st) < limit → dget k (best st) = None → dget k reps = None.
Proof.
  intros R Hroom. apply keys_fill; [apply R|pose proof (rt_size _ _ _ R); lia|].
  intros k0 Hk0. destruct (dget k0 (best st)) as [e|] eqn:H0; [|done].
  by rewrite (rt_best _ _ _ R k0 e H0).
Qed.

(** An entry that beats the best of its key, retained in place of it or because
    there is room. *)
Lemma retains_enter limit reps st x :
  Retains limit reps st → ok x →
  (∀ p, dget (entry_key x) reps = Some p → beats x p = true) →
  (dget (entry_key x) (best st) ≠ None ∨ zlen (best st) < limit) →
  Retains limit (note_best reps x)
    {| best := dset (entry_key x) x (best st); heap := heappush c (heap st) x |}.
Proof.
  intros R Hok Hx Hroom. set (k := entry_key x) in *.
  rewrite note_new by done. fold k.
  destruct (push_heap (heap st) x (rt_heap _ _ _ R) (rt_tie _ _ _ R)) as (Hh & Hp & Ht).
  { intros y. apply (new_order reps (heap st)); [done|apply (rt_seen _ _ _ R)|done]. }
  assert (dget k (best st) = None ↔ dget k reps = None) as Hfill.
  { split; [|by apply (retains_absent limit)]. intros Hn.
    destruct Hroom as [?|Hroom]; [done|]. by apply (retains_room limit reps st). }
  split; cbn [best heap].
  - apply dset_NoDup, R.
  - apply noted_own, R.
  - apply noted_ok; [done|apply R].
  - apply dset_NoDup, R.
  - intros k0 e. destruct (decide (k0 = k)) as [->|]; [by rewrite !dget_dset_eq|].
    rewrite !dget_dset_ne by done. apply R.
  - rewrite !dset_length, (rt_size _ _ _ R).
    destruct (decide (dget k (best st) = None)) as [H1|H1], (decide (dget k reps = None)) as [H2|H2];
      [|tauto..|done].
    pose proof (rt_size _ _ _ R). destruct Hroom; [done|lia].
  - intros k1 e1 k2 e2. destruct (decide (k1 = k)) as [->|]; [by rewrite !dget_dset_eq|].
    rewrite !(dget_dset_ne k k1) by done. intros H1 H2.
    destruct (decide (k2 = k)) as [->|]; [|rewrite dget_dset_ne by done; by apply (rt_rest _ _ _ R _ _ _ _ H1)].
    rewrite dget_dset_eq. intros [= <-]. destruct (dget k (best st)) as [p|] eqn:Hp'.
    + apply (beats_trans _ p); [by apply Hx, (rt_best _ _ _ R)|by apply (rt_rest _ _ _ R k1 _ k)].
    + destruct Hroom as [?|Hroom]; [done|]. by rewrite (retains_room limit reps st k1) in H1.
  - done.
  - intros k0 e. rewrite Hp. destruct (decide (k0 = k)) as [->|].
    + rewrite dget_dset_eq. intros [= ->]. by left.
    + rewrite dget_dset_ne by done. intros He. right. by apply (rt_sub _ _ _ R k0).
  - intros y Hy. rewrite Hp in Hy. apply elem_of_cons in Hy as [->|Hy].
    + split; [done|]. exists x. fold k. rewrite dget_dset_eq. split; [done|apply beats_irrefl].
    + apply seen_noted; [done|]. by apply (rt_seen _ _ _ R).
  - done.
Qed.
(** Losing stale entries. *)
Lemma retains_heap limit reps st h :
  Retains limit reps st → is_heap c h → NoDup (order_text ∘ order_of <$> h) →
  (∀ y, y ∈ h → y ∈ heap st) → (∀ k e, dget k (best st) = Some e → e ∈ h) →
  Retains limit reps {| best := best st; heap := h |}.
Proof.
  intros R Hh Hn Hold Hsub. split; cbn [best heap]; try apply R; try done.
  intros y Hy. by apply (rt_seen _ _ _ R), Hold.
Qed.

Lemma drop_stale_retains limit reps b fuel : ∀ h,
  (length h <= fuel)%nat → Retains limit reps {| best := b; heap := h |} →
  Retains limit reps {| best := b; heap := drop_stale c entry_key fuel b h |} ∧
  match drop_stale c entry_key fuel b h with
  | [] => b = []
  | e :: _ => dget (entry_key e) b = Some e
  end.
Proof.
  assert (∀ b, Retains limit reps {| best := b; heap := [] |} → b = []) as Hnil.
  { intros b0 R. destruct b0 as [|[k e] b0]; [done|].
    pose proof (rt_sub _ _ _ R k e) as H. cbn in H. rewrite decide_True in H by done.
    by specialize (H eq_refl) as ?%elem_of_nil. }
  induction fuel as [|fuel IH]; intros h Hlen R; 
    [destruct h; [split; [done|by apply Hnil]|cbn in Hlen; lia]|].
  destruct h as [|x h]; cbn [drop_stale]; [split; [done|by apply Hnil]|].
  destruct (decide (dget (entry_key x) b = Some x)) as [Hx|Hx]; [done|].
  destruct (pop_heap x h (rt_heap _ _ _ R) (rt_tie _ _ _ R)) as (h' & -> & Hh & Hp & Hn).
  apply IH; [rewrite Hp; cbn in Hlen; lia|].
  apply (retains_heap limit reps _ h' R); cbn [best heap]; [done|done| |].
  - intros y. rewrite Hp. by right.
  - intros k e He. rewrite Hp. pose proof (rt_sub _ _ _ R k e He) as [->|?]%elem_of_cons; [|done].
    destruct Hx. cbn in He. by rewrite (rt_own _ _ _ R k x (rt_best _ _ _ R k x He)).
Qed.

(** An entry no better than the best of its key is not noted. *)
Lemma retains_worse limit reps st x p :
  Retains limit reps st → dget (entry_key x) reps = Some p → beats x p = false →
  Retains limit (note_best reps x) st.
Proof. intros R Hp Hb. unfold VectorRetain.note_best. by rewrite Hp, Hb. Qed.

(** The first of the heap, if it is retained, is the worst one retained. *)
Lemma worst_of_best limit reps st worst h k e :
  Retains limit reps st → heap st = worst :: h → k ≠ entry_key worst →
  dget k (best st) = Some e → beats e worst = true.
Proof.
  intros R Hheap Hk He. pose proof (rt_own _ _ _ R k e (rt_best _ _ _ R k e He)) as Ho.
  apply beats_total; [|by apply (rt_ok _ _ _ R k), (rt_best _ _ _ R)|congruence|].
  { apply (rt_seen _ _ _ R). rewrite Hheap. by left. }
  apply (head_is_worst worst h); [rewrite <- Hheap; apply R|].
  rewrite <- Hheap. by apply (rt_sub _ _ _ R k).
Qed.

(** An entry of a key that is not retained, no better than the worst entry. *)
Lemma retains_reject limit reps st x worst h :
  Retains limit reps st → limit <= zlen (best st) → heap st = worst :: h →
  dget (entry_key worst) (best st) = Some worst →
  ok x → dget (entry_key x) (best st) = None → beats x worst = false →
  Retains limit (note_best reps x) st.
Proof.
  intros R Hfull Hheap Hworst Hok Hnone Hb. set (k := entry_key x) in *.
  assert (beats worst x = true) as Hwx.
  { apply beats_total; [done| | |done].
    - by apply (rt_ok _ _ _ R (entry_key worst)), (rt_best _ _ _ R).
    - intros Heq. fold k in Heq. congruence. }
  assert (∀ k' e', dget k' (best st) = Some e' → beats e' x = true) as Hall.
  { intros k' e' He'. destruct (decide (k' = entry_key worst)) as [->|Hk]; [congruence|].
    apply (beats_trans _ worst); [|done]. by apply (worst_of_best limit reps st worst h k'). }
  destruct (noted_or_worse reps x) as [(p & Hp & Hbp)|Hx]; [by apply (retains_worse _ _ _ _ p)|].
  rewrite note_new by done. fold k.
  split; try apply R.
  - apply dset_NoDup, R.
  - apply noted_own, R.
  - apply noted_ok; [done|apply R].
  - intros k0 e He. rewrite dget_dset_ne by congruence. by apply R.
  - rewrite dset_length. pose proof (rt_size _ _ _ R). case_decide; lia.
  - intros k1 e1 k2 e2. destruct (decide (k1 = k)) as [->|].
    + rewrite dget_dset_eq. intros [= <-] _. apply Hall.
    + rewrite dget_dset_ne by done. apply R.
  - intros y Hy. apply seen_noted; [done|]. by apply (rt_seen _ _ _ R).
Qed.

(** An entry that takes the place of the worst one. *)
Lemma retains_swap limit reps st x worst h h' :
  0 < limit → Retains limit reps st → limit <= zlen (best st) → heap st = worst :: h →
  dget (entry_key worst) (best st) = Some worst →
  ok x → dget (entry_key x) (best st) = None → beats x worst = true →
  heappop c (heap st) = Some (worst, h') →
  Retains limit (note_best reps x)
    {| best := dset (entry_key x) x (ddel (entry_key worst) (best st)); heap := heappush c h' x |}.
Proof.
  intros Hlim R Hfull Hheap Hworst Hok Hnone Hb Hpop. set (k := entry_key x) in *.
  assert (∀ p, dget k reps = Some p → beats x p = true) as Hx.
  { intros p Hp. apply (beats_trans _ worst); [done|]. by apply (rt_rest _ _ _ R k _ (entry_key worst)). }
  rewrite note_new by done. fold k.
  pose proof (rt_heap _ _ _ R) as Hh. pose proof (rt_tie _ _ _ R) as Ht. rewrite Hheap in Hh, Ht, Hpop.
  destruct (pop_heap worst h Hh Ht) as (h1 & Hpop1 & Hh1 & Hp1 & Ht1).
  rewrite Hpop in Hpop1. injection Hpop1 as <-.
  assert (∀ y, y ∈ h' → y ∈ heap st) as Hold by (intros y; rewrite Hheap, Hp1; by right).
  destruct (push_heap h' x Hh1 Ht1) as (Hh2 & Hp2 & Ht2).
  { intros y Hy. apply (new_order reps (heap st)); [done|apply (rt_seen _ _ _ R)|done|by apply Hold]. }
  assert (∀ k', dget k' (ddel (entry_key worst) (best st)) =
                if decide (k' = entry_key worst) then None else dget k' (best st)) as Hdel.
  { intros k'. apply dget_ddel, R. }
  split; cbn [best heap].
  - apply dset_NoDup, R.
  - apply noted_own, R.
  - apply noted_ok; [done|apply R].
  - apply dset_NoDup, ddel_NoDup, R.
  - intros k0 e. destruct (decide (k0 = k)) as [->|]; [by rewrite !dget_dset_eq|].
    rewrite !dget_dset_ne, Hdel by done. case_decide; [done|]. apply R.
  - rewrite !dset_length, (Hdel k), Hnone.
    assert (S (length (ddel (entry_key worst) (best st))) = length (best st)) as Hl.
    { apply ddel_length. apply dget_elem in Hworst. apply list_elem_of_fmap. by eexists (_, _). }
    pose proof (rt_size _ _ _ R). repeat case_decide; try done; lia.
  - intros k1 e1 k2 e2. destruct (decide (k1 = k)) as [->|]; [by rewrite !dget_dset_eq|].
    rewrite !(dget_dset_ne k k1), Hdel by done. intros H1 H2.
    assert (beats worst e1 = true ∨ e1 = worst) as Hw.
    { case_decide as Hk; [|left; by apply (rt_rest _ _ _ R k1 _ (entry_key worst))].
      subst k1. right. apply (rt_best _ _ _ R) in Hworst. congruence. }
    destruct (decide (k2 = k)) as [->|].
    + rewrite dget_dset_eq. intros [= <-]. destruct Hw as [Hw| ->]; [by apply (beats_trans _ worst)|done].
    + rewrite dget_dset_ne, Hdel by done.
      destruct (decide (k2 = entry_key worst)) as [|Hk]; [done|]. intros He2.
      apply (worst_of_best limit reps st worst h k2) in He2 as Hb2; [|done..].
      destruct Hw as [Hw| ->]; [by apply (beats_trans _ worst)|done].
  - done.
  - intros k0 e. rewrite Hp2. destruct (decide (k0 = k)) as [->|].
    + rewrite dget_dset_eq. intros [= ->]. by left.
    + rewrite dget_dset_ne, Hdel by done. case_decide as Hk; [done|]. intros He. right. rewrite Hp1.
      apply (rt_sub _ _ _ R k0) in He as Hin. rewrite Hheap in Hin.
      apply elem_of_cons in Hin as [->|Hin]; [|done]. destruct Hk.
      symmetry. apply (rt_own _ _ _ R k0). by apply (rt_best _ _ _ R).
  - intros y Hy. rewrite Hp2 in Hy. apply elem_of_cons in Hy as [->|Hy].
    + split; [done|]. exists x. fold k. rewrite dget_dset_eq. split; [done|apply beats_irrefl].
    + apply seen_noted; [done|]. by apply (rt_seen _ _ _ R), Hold.
  - done.
Qed.
(** Rebuilding the heap from the dictionary. *)
Lemma retains_rebuilt limit reps st :
  Retains limit reps st →
  Retains limit reps {| best := best st; heap := heapify c (best st).*2 |}.
Proof.
  intros R. destruct (heapify_spec c (best st).*2) as [Hh Hp].
  assert (∀ y, y ∈ (best st).*2 → dget (entry_key y) (best st) = Some y) as Hval.
  { intros y Hy. destruct (dget_values y (best st) Hy (rt_keys _ _ _ R)) as [k Hk].
    by rewrite (rt_own _ _ _ R k y (rt_best _ _ _ R k y Hk)). }
  apply retains_heap; [done..| | |].
  - rewrite Hp. apply NoDup_fmap_2_strong.
    + intros y z Hy Hz Ht. apply Hval in Hy, Hz. apply order_text_eq, tells_keys in Ht; [congruence|..].
      * by apply (rt_ok _ _ _ R (entry_key y)), (rt_best _ _ _ R).
      * by apply (rt_ok _ _ _ R (entry_key z)), (rt_best _ _ _ R).
    + apply (NoDup_fmap_1 entry_key). rewrite <- list_fmap_compose.
      rewrite (list_fmap_ext _ fst _); [apply R|]. intros i [k y] Hi. cbn.
      apply (rt_own _ _ _ R), (rt_best _ _ _ R), elem_dget; [apply R|].
      by apply list_elem_of_lookup_2 in Hi.
  - intros y. rewrite Hp. intros Hy. by apply (rt_sub _ _ _ R (entry_key y)), Hval.
  - intros k e He. rewrite Hp. by apply (values_dget k).
Qed.

(** The replacement keeps the invariant: there is a worst entry to compare with. *)
Lemma replace_worst_retains (empty : X) limit reps st x :
  0 < limit → Retains limit reps st → limit <= zlen (best st) → ok x →
  dget (entry_key x) (best st) = None →
  ∃ st', replace_worst c order_of entry_key empty x st = Ok st' ∧
         Retains limit (note_best reps x) st'.
Proof.
  intros Hlim R Hfull Hok Hnone. unfold replace_worst.
  destruct (drop_stale_retains limit reps (best st) (length (heap st)) (heap st)) as [R' Hhead];
    [done|by destruct st|].
  destruct (drop_stale _ _ _ _ _) as [|worst h] eqn:Hh; [rewrite Hhead in Hfull; cbn in Hfull; lia|].
  destruct (beats x worst) eqn:Hb.
  - destruct (pop_heap worst h (rt_heap _ _ _ R') (rt_tie _ _ _ R')) as (h' & Hpop & _).
    rewrite Hpop. eexists. split; [done|].
    by apply (retains_swap limit reps _ x worst h h') in R'.
  - eexists. split; [done|]. by apply (retains_reject limit reps _ x worst h).
Qed.

Definition heap_bounded (limit : Z) (st : retained E) : Prop :=
  zlen (heap st) <= Z.max (limit * 2) (limit + 64).

(** [retain] keeps the invariant, never raises and bounds the heap. *)
Lemma retain_retains (empty : X) limit reps st x :
  0 < limit → ok x → Retains limit reps st →
  ∃ st', retain c order_of entry_key empty limit x st = Ok st' ∧
         Retains limit (note_best reps x) st' ∧ heap_bounded limit st'.
Proof.
  intros Hlim Hok R. unfold retain.
  assert (∃ st', match dget (entry_key x) (best st) with
    | Some prior => Ok (if beats x prior then enter c entry_key x st else st)
    | None => if zlen (best st) <? limit then Ok (enter c entry_key x st)
              else replace_worst c order_of entry_key empty x st
    end = Ok st' ∧ Retains limit (note_best reps x) st') as (st' & -> & R').
  { destruct (dget (entry_key x) (best st)) as [p|] eqn:Hp.
    - apply (rt_best _ _ _ R) in Hp as Hp'. eexists. split; [done|]. destruct (beats x p) eqn:Hb.
      + apply retains_enter; [done..| |left; congruence]. congruence.
      + by apply (retains_worse _ _ _ _ p).
    - destruct (zlen (best st) <? limit) eqn:Hroom; bool_prop; [|by apply replace_worst_retains].
      eexists. split; [done|]. apply retains_enter; [done..| |by right].
      intros q Hq. by rewrite (retains_room limit reps st) in Hq. }
  cbn. unfold rebuild. eexists. split; [done|]. unfold heap_bounded.
  destruct (Z.ltb_spec (Z.max (limit * 2) (limit + 64)) (zlen (heap st'))); [|done].
  split; [by apply retains_rebuilt|]. cbn. destruct (heapify_spec c (best st').*2) as [_ Hp].
  rewrite Hp, length_fmap, (rt_size _ _ _ R'). lia.
Qed.

(** A whole scan. *)
Lemma retain_all_retains (empty : X) limit entries : ∀ reps st,
  0 < limit → Forall ok entries → Retains limit reps st → heap_bounded limit st →
  ∃ st', retain_all c order_of entry_key empty limit entries st = Ok st' ∧
         Retains limit (foldl note_best reps entries) st' ∧ heap_bounded limit st'.
Proof.
  unfold retain_all. induction entries as [|x entries IH]; intros reps st Hlim Hok R Hb; [by exists st|].
  apply Forall_cons in Hok as [Hx Hok]. destruct (retain_retains empty limit reps st x Hlim Hx R) as (st1 & H1 & R1 & Hb1).
  cbn [foldl]. destruct (IH _ st1 Hlim Hok R1 Hb1) as (st2 & H2 & R2). exists st2. split; [|done].
  rewrite <- H2. cbn. by rewrite H1.
Qed.

(** *** The ordered hits *)

Lemma reps_values limit reps st x y :
  Retains limit reps st → x ∈ reps.*2 → y ∈ reps.*2 →
  cmp_order (order_of x) (order_of y) = Eq → x = y.
Proof.
  intros R Hx Hy Heq. destruct R.
  destruct (dget_values x reps Hx) as [k Hk]; [done|].
  destruct (dget_values y reps Hy) as [k' Hk']; [done|].
  apply tells_keys in Heq; [|eauto..].
  rewrite (rt_own0 _ _ Hk), (rt_own0 _ _ Hk') in Heq. congruence.
Qed.

(** The best entries that are not retained. *)
Definition left_out (reps : list (hit_key * E)) (st : retained E) : list (hit_key * E) :=
  filter (λ p, dget p.1 (best st) = None) reps.

Lemma left_out_perm limit reps st :
  Retains limit reps st → reps ≡ₚ best st ++ left_out reps st.
Proof.
  intros R. apply NoDup_Permutation.
  - apply (NoDup_fmap_1 fst), R.
  - apply NoDup_app. split_and!; [apply (NoDup_fmap_1 fst), R| |].
    + intros [k e] Hb [Hn _]%list_elem_of_filter. cbn in Hn.
      apply elem_dget in Hb; [congruence|apply R].
    + apply NoDup_filter, (NoDup_fmap_1 fst), R.
  - intros [k e]. unfold left_out. rewrite elem_of_app, list_elem_of_filter. cbn. split.
    + intros He. destruct (dget k (best st)) as [e'|] eqn:Hb; [left|by right].
      apply dget_elem in Hb as Hin. apply (rt_best _ _ _ R) in Hb.
      apply elem_dget in He; [|apply R]. congruence.
    + intros [Hb|[_ ?]]; [|done]. apply dget_elem, (rt_best _ _ _ R), elem_dget; [apply R|done].
Qed.

Lemma left_out_worse limit reps st x y :
  Retains limit reps st → x ∈ (best st).*2 → y ∈ (left_out reps st).*2 → beats x y = true.
Proof.
  intros R Hx ([k e] & -> & [Hp Hr]%list_elem_of_filter)%list_elem_of_fmap. cbn in Hp |- *.
  apply dget_values in Hx as [k' Hk']; [|apply R]. apply elem_dget in Hr; [|apply R].
  by apply (rt_rest _ _ _ R k e k').
Qed.

(** The retained entries are the first ones of the best entries in order. *)
Lemma retained_top limit reps st :
  Retains limit reps st →
  ordered_hits order_of st = take (Z.to_nat limit) (sort_by cmp_order order_of reps.*2).
Proof.
  intros R. unfold ordered_hits. pose proof (left_out_perm _ _ _ R) as Hperm.
  apply (fmap_Permutation snd) in Hperm. rewrite fmap_app in Hperm.
  assert (sort_by cmp_order order_of reps.*2 = sort_by cmp_order order_of (best st).*2 ++
            sort_by cmp_order order_of (left_out reps st).*2) as ->.
  { apply (StronglySorted_unique_strong (λ a b, cmp_le cmp_order (order_of a) (order_of b))).
    - intros x y Hx Hy H1 H2. rewrite sort_by_perm in Hx. rewrite !sort_by_perm, <- Hperm in Hy.
      apply (reps_values limit reps st); [done..|]. unfold cmp_le in H1, H2.
      rewrite (cmp_sym cmp_order (order_of x)) in H2. by destruct (cmp_order _ _).
    - apply sort_by_sorted. apply _.
    - apply StronglySorted_app. split_and!; [|apply sort_by_sorted; apply _..].
      intros x y. rewrite !sort_by_perm. intros Hx Hy.
      pose proof (left_out_worse _ _ _ _ _ R Hx Hy) as Hb. apply beats_lt in Hb.
      unfold cmp_le. by rewrite Hb.
    - by rewrite !sort_by_perm. }
  assert (length (sort_by cmp_order order_of (best st).*2) = min (Z.to_nat limit) (length reps)) as Hlen.
  { rewrite sort_by_perm, length_fmap. apply R. }
  apply Permutation_length in Hperm. rewrite length_app, !length_fmap in Hperm.
  destruct (decide (Z.to_nat limit <= length reps)%nat).
  - by rewrite take_app_length' by lia.
  - rewrite take_ge by (rewrite length_app, Hlen, sort_by_perm, length_fmap, (rt_size _ _ _ R) in *; lia).
    rewrite (nil_length_inv (left_out reps st)); [by rewrite app_nil_r|].
    pose proof (rt_size _ _ _ R). lia.
Qed.

(** A scan retains the reference hits. *)
Lemma retain_all_top (empty : X) limit entries : 0 < limit → Forall ok entries →
  ∃ st, retain_all c order_of entry_key empty limit entries nothing_retained = Ok st ∧
        heap_bounded limit st ∧ ordered_hits order_of st = top_hits order_of entry_key limit entries.
Proof.
  intros Hlim Hok.
  destruct (retain_all_retains empty limit entries [] _ Hlim Hok (retains_nothing limit))
    as (st & Hst & R & Hb); [unfold heap_bounded; cbn; lia|]. exists st. split_and!; [done..|]. by apply retained_top.
Qed.
End laws.

(** ** The reference *)

Section reference.
Context {E : Type} (order_of : E → ExactSearchOrder) (entry_key : E → hit_key).

Abbreviation representatives := (representatives order_of entry_key).

Lemma representatives_snoc es x :
  representatives (es ++ [x]) = note_best order_of entry_key (representatives es) x.
Proof. apply foldl_snoc. Qed.

Lemma representatives_NoDup es : NoDup (representatives es).*1.
Proof.
  induction es as [|x es IH] using rev_ind; [constructor|]. rewrite representatives_snoc.
  unfold note_best. repeat case_match; auto using dset_NoDup.
Qed.

Lemma representatives_none es k :
  dget k (representatives es) = None → ∀ y, y ∈ es → entry_key y ≠ k.
Proof.
  induction es as [|x es IH] using rev_ind; intros Hk y; [by intros ?%elem_of_nil|].
  rewrite representatives_snoc in Hk. rewrite elem_of_app, list_elem_of_singleton.
  assert (dget k (representatives es) = None ∧ entry_key x ≠ k) as [Hn Hx].
  { unfold note_best in Hk. destruct (decide (k = entry_key x)) as [->|].
    - exfalso. repeat case_match; rewrite ?dget_dset_eq in Hk; congruence.
    - repeat case_match; rewrite ?dget_dset_ne in Hk by done; done. }
  intros [Hy| ->]; [by apply IH|done].
Qed.

(** The representative of a key is an entry of it that no entry of it beats. *)
Lemma representatives_spec es k e :
  dget k (representatives es) = Some e →
  e ∈ es ∧ entry_key e = k ∧ ∀ y, y ∈ es → entry_key y = k → beats order_of y e = false.
Proof.
  revert k e. induction es as [|x es IH] using rev_ind; intros k e; [done|].
  rewrite representatives_snoc. unfold note_best.
  setoid_rewrite elem_of_app. setoid_rewrite list_elem_of_singleton.
  destruct (dget (entry_key x) (representatives es)) as [p|] eqn:Hp.
  - destruct (IH _ _ Hp) as (Hpin & Hpk & Hpb). destruct (beats order_of x p) eqn:Hb.
    + destruct (decide (k = entry_key x)) as [->|Hk].
      * rewrite dget_dset_eq. intros [= <-]. split_and!; [by right|done|].
        intros y [Hy| ->] Hyk; [|apply beats_irrefl]. apply not_true_iff_false. intros Hyx.
        pose proof (beats_trans order_of y x p Hyx Hb) as Hyp. by rewrite (Hpb y) in Hyp by congruence.
      * rewrite dget_dset_ne by done. intros He. destruct (IH _ _ He) as (? & ? & ?).
        split_and!; [by left|done|]. intros y [Hy| ->]; [by auto|congruence].
    + intros He. destruct (IH _ _ He) as (? & ? & ?). split_and!; [by left|done|].
      intros y [Hy| ->]; [by auto|]. intros <-. congruence.
  - destruct (decide (k = entry_key x)) as [->|Hk].
    + rewrite dget_dset_eq. intros [= <-]. split_and!; [by right|done|].
      intros y [Hy| ->] Hyk; [|apply beats_irrefl]. by apply (representatives_none es (entry_key x)) in Hyk.
    + rewrite dget_dset_ne by done. intros He. destruct (IH _ _ He) as (? & ? & ?).
      split_and!; [by left|done|]. intros y [Hy| ->]; [by auto|congruence].
Qed.

(** The hits of the reference are representatives in order. *)
Lemma top_hits_elem limit es e : e ∈ top_hits order_of entry_key limit es →
  dget (entry_key e) (representatives es) = Some e.
Proof.
  unfold top_hits. intros He. apply (subseteq_take _ _ e) in He. rewrite sort_by_perm in He.
  apply dget_values in He as [k Hk]; [|apply representatives_NoDup].
  by destruct (representatives_spec es k e Hk) as (_ & -> & _).
Qed.
Lemma top_hits_in limit es e : e ∈ top_hits order_of entry_key limit es → e ∈ es.
Proof. intros H%top_hits_elem. by destruct (representatives_spec _ _ _ H) as (? & _). Qed.

Lemma top_hits_sorted limit es :
  StronglySorted (λ x y, cmp_le cmp_order (order_of x) (order_of y)) (top_hits order_of entry_key limit es).
Proof.
  unfold top_hits. pose proof (sort_by_sorted cmp_order order_of (representatives es).*2) as H.
  rewrite <- (take_drop (Z.to_nat limit)) in H. by apply StronglySorted_app in H as (_ & ? & _).
Qed.

Lemma top_hits_keys limit es : NoDup (entry_key <$> top_hits order_of entry_key limit es).
Proof.
  unfold top_hits. rewrite fmap_take. eapply sublist_NoDup; [|apply sublist_take].
  rewrite (fmap_Permutation entry_key _ _ (sort_by_perm cmp_order order_of _)).
  replace (entry_key <$> (representatives es).*2) with (representatives es).*1;
    [apply representatives_NoDup|].
  rewrite <- list_fmap_compose. apply list_fmap_ext. intros i [k e] Hi. cbn.
  apply list_elem_of_lookup_2, elem_dget in Hi; [|apply representatives_NoDup].
  by destruct (representatives_spec _ _ _ Hi) as (_ & <- & _).
Qed.

Lemma representatives_length es : (length (representatives es) <= length es)%nat.
Proof.
  induction es as [|x es IH] using rev_ind; [done|]. rewrite representatives_snoc, length_app. cbn.
  unfold note_best. repeat case_match; rewrite ?dset_length; repeat case_decide; lia.
Qed.

Lemma top_hits_length limit es :
  (length (top_hits order_of entry_key limit es) <= Z.to_nat limit)%nat ∧
  (length (top_hits order_of entry_key limit es) <= length es)%nat.
Proof.
  unfold top_hits. rewrite length_take, (Permutation_length (sort_by_perm cmp_order order_of _)), length_fmap.
  pose proof (representatives_length es). lia.
Qed.
End reference.

(** ** Transfer

    The reference sees an entry through its order and its key only. *)
Section transfer.
Context {E E' : Type} (f : E → E') (order_of : E → ExactSearchOrder) (entry_key : E → hit_key)
  (order_of' : E' → ExactSearchOrder) (entry_key' : E' → hit_key).
Hypothesis order_kept : ∀ x, order_of' (f x) = order_of x.
Hypothesis key_kept : ∀ x, entry_key' (f x) = entry_key x.

Lemma dget_prod_map k (d : list (hit_key * E)) : dget k (prod_map id f <$> d) = f <$> dget k d.
Proof. induction d as [|[k' x] d IH]; csimpl; [done|]. by case_decide. Qed.

Lemma dset_prod_map k x (d : list (hit_key * E)) :
  dset k (f x) (prod_map id f <$> d) = prod_map id f <$> dset k x d.
Proof. induction d as [|[k' y] d IH]; csimpl; [done|]. case_decide; csimpl; [done|]. by rewrite IH. Qed.

Lemma representatives_fmap es :
  representatives order_of' entry_key' (f <$> es) =
    prod_map id f <$> representatives order_of entry_key es.
Proof.
  induction es as [|x es IH] using rev_ind; [done|].
  rewrite fmap_app. csimpl. rewrite !representatives_snoc, IH. unfold note_best.
  rewrite key_kept, dget_prod_map. destruct (dget (entry_key x) _) as [p|]; csimpl.
  - unfold VectorRetain.beats. rewrite !order_kept. case_match; [apply dset_prod_map|done].
  - apply dset_prod_map.
Qed.

Lemma sort_by_fmap l :
  sort_by cmp_order order_of' (f <$> l) = f <$> sort_by cmp_order order_of l.
Proof.
  induction l as [|x l IH]; [done|]. unfold sort_by in *. csimpl. rewrite IH.
  generalize (foldr (insert_by cmp_order order_of) [] l). clear l IH.
  induction l as [|y l IH]; csimpl; [done|]. rewrite !order_kept, IH. by case_match.
Qed.

Lemma top_hits_fmap limit es :
  top_hits order_of' entry_key' limit (f <$> es) = f <$> top_hits order_of entry_key limit es.
Proof.
  unfold top_hits. rewrite representatives_fmap.
  replace ((prod_map id f <$> representatives order_of entry_key es).*2)
    with (f <$> (representatives order_of entry_key es).*2).
  - by rewrite sort_by_fmap, fmap_take.
  - rewrite <- !list_fmap_compose. apply list_fmap_ext. by intros i [k x] _.
Qed.
End transfer.

Lemma forall2_zip {A B} (R : A → B → Prop) xs ys :
  Forall2 R xs ys → ∃ zs : list { p : A * B | R p.1 p.2 },
    xs = (λ z, (`z).1) <$> zs ∧ ys = (λ z, (`z).2) <$> zs.
Proof.
  induction 1 as [|x y xs ys Hxy _ (zs & -> & ->)]; [by exists []|].
  by exists (exist _ (x, y) Hxy :: zs).
Qed.

(** Entries related in pairs, of the same orders and keys, have related references. *)
Lemma top_hits_related {E E'} (R : E → E' → Prop) order_of entry_key order_of' entry_key' limit es es' :
  (∀ x y, R x y → order_of' y = order_of x ∧ entry_key' y = entry_key x) →
  Forall2 R es es' →
  Forall2 R (top_hits order_of entry_key limit es) (top_hits order_of' entry_key' limit es').
Proof.
  intros Hsame (zs & -> & ->)%forall2_zip.
  rewrite (top_hits_fmap (λ z : { p : E * E' | R p.1 p.2 }, (`z).1)
    (λ z, order_of (`z).1) (λ z, entry_key (`z).1)) by done.
  rewrite (top_hits_fmap (λ z : { p : E * E' | R p.1 p.2 }, (`z).2)
    (λ z, order_of (`z).1) (λ z, entry_key (`z).1))
    by (intros [[x y] Hxy]; cbn in *; by apply Hsame).
  rewrite Forall2_fmap. apply Forall_Forall2_diag, Forall_forall. by intros [[x y] Hxy] _.
Qed.
