(* ===== verification/VectorFormat.v ===== *)
(** * The exact vector index: records, wire formats and row writing

    [semantic/semantic_exact_index_format.py] up to the query: the published
    pairs, the vector records and their checks, the fixed rows and the identity
    records, and the loop of [prepare_exact_view] that writes them.  Texts and
    integers are typed, so the [isinstance] checks of the code hold.  The norms
    that NumPy computes for a view and the publication of the files are not
    modelled: a writer is the bytes it has been given. *)

From S2P Require Import Prelude PyOrder KnowledgeContracts Utf8.

#[global] Open Scope Z_scope.

(** ** Errors and bounds *)

Inductive vector_error : Type :=
| DerivedViewContractError (message : pystr)
| FallbackExactRequired (reason phase : pystr)
| SemanticStateError (message : pystr)
| ExactIndexUnavailable (reason : pystr)
| VectorSearchContractError (message : pystr)
| VectorValueError (message : pystr)
| StructError
| UnicodeEncodeError
| FloatOverflowError
| FloatZeroDivisionError
| MissingKeyError
| ReadBudgetExceeded
| Cancelled.

Definition contract (message : string) : vector_error := DerivedViewContractError (py message).
Definition fallback (reason phase : string) : vector_error :=
  FallbackExactRequired (py reason) (py phase).
Definition vector_value (message : string) : vector_error := VectorValueError (py message).

Definition MAX_DIMENSIONS : Z := 65536.
Definition MAX_PAIR_COUNT : Z := 1024.
Definition MAX_FIELD_BYTES : Z := 4096.
Definition MAX_PROVENANCE_BYTES : Z := 1024 * 1024.
Definition MAX_IDENTITY_BYTES : Z := 64 * 1024.
Definition MAX_NUMERIC_CODEBOOK_BYTES : Z := 512 * 1024 * 1024.
Definition MAX_VIEW_ROWS : Z := 500000.
Definition MAX_VIEW_BYTES : Z := 19000000000.

Definition DTYPE_CODE : list (pystr * Z) := [(py "float16", 1); (py "float32", 2)].
Definition ENTITY_CODE : list (pystr * Z) := [(py "text_chunk", 1); (py "image_item", 2)].
Definition SCOPE_CODE : list (pystr * Z) := [(py "all", 0); (py "content", 1); (py "title", 2)].
(** [{v: k for k, v in DTYPE_CODE.items()}] *)
Definition CODE_DTYPE : list (Z * pystr) := (λ p, (p.2, p.1)) <$> DTYPE_CODE.

(** Where the callback of a call may raise. *)
Inductive vector_site : Type :=
| AtStart | AtEnd | AtRecord (n : nat) | AtRow (n : nat) | AtScore (scored n : nat) | AtBatch (n : nat)
| AtHit (n : nat) | AtModel (n : nat) | AtHead (n : nat) | AtFetch (n : nat).

Definition vector_callback : Type := option (vector_site → bool).

Definition vector_checkpoint (cancellation_check : vector_callback) (s : vector_site) :
    result vector_error unit :=
  match cancellation_check with
  | Some raises => raise_if (raises s) Cancelled
  | None => Ok tt
  end.

(** ** The data *)

Record PublishedPair : Type := {
  pair_model_signature : pystr;
  pair_generation_id : Z;
  pair_processing_signature : pystr;
  pair_vector_space : pystr;
  pair_modality : pystr;
  pair_entity_kind : pystr;
  pair_status : pystr
}.

(** The provenance of a record: bytes, JSON text or a mapping. *)
Inductive provenance_source : Type :=
| ProvenanceBytes (data : list byte)
| ProvenanceText (text : pystr)
| ProvenanceObject (value : json).

Record VectorRecord : Type := {
  ref_id : Z;
  entity_id : pystr;
  item_id : pystr;
  model_signature : pystr;
  vector_space : pystr;
  modality : pystr;
  generation_id : Z;
  processing_signature : pystr;
  entity_kind : pystr;
  vector_dtype : pystr;
  dimensions : Z;
  vector_blob : list byte;
  provenance_json : provenance_source;
  section_scope : pystr;
  owner_row_binding : pystr
}.

Record Candidate : Type := {
  c_ref_id : Z;
  c_entity_id : pystr;
  c_item_id : pystr;
  c_pair_index : Z;
  c_vector_dtype : pystr;
  c_dimensions : Z;
  c_vector_offset : Z;
  c_vector_length : Z;
  c_metadata_offset : Z;
  c_metadata_length : Z;
  c_owner_row_binding : pystr;
  c_score : pyfloat
}.

#[export] Instance Candidate_eq_dec : EqDecision Candidate.
Proof. solve_decision. Defined.

(** [_Candidate.scored] *)
Definition scored (c : Candidate) (score : pyfloat) : Candidate :=
  {| c_ref_id := c_ref_id c; c_entity_id := c_entity_id c; c_item_id := c_item_id c;
     c_pair_index := c_pair_index c; c_vector_dtype := c_vector_dtype c;
     c_dimensions := c_dimensions c; c_vector_offset := c_vector_offset c;
     c_vector_length := c_vector_length c; c_metadata_offset := c_metadata_offset c;
     c_metadata_length := c_metadata_length c; c_owner_row_binding := c_owner_row_binding c;
     c_score := score |}.

(** [WireRow]: the twelve integers of a row. *)
Record WireRow : Type := {
  w_ref_id : Z;
  w_pair_index : Z;
  w_entity_code : Z;
  w_dtype_code : Z;
  w_scope : Z;
  w_dimensions : Z;
  w_vector_offset : Z;
  w_vector_length : Z;
  w_identity_offset : Z;
  w_identity_length : Z;
  w_metadata_offset : Z;
  w_metadata_length : Z
}.

(** ** The struct formats *)

(** [B], [I] and [Q] are unsigned fields of 1, 4 and 8 bytes, [x] is a pad byte;
    ["<"]: little-endian, no alignment. *)
Inductive wire_field : Type := UInt (width : nat) | PadByte.

(** ["<QIBBBxIQIQIQI"] and ["<IIIIII"] and ["<II"] *)
Definition ROW_STRUCT : list wire_field :=
  [UInt 8; UInt 4; UInt 1; UInt 1; UInt 1; PadByte; UInt 4; UInt 8; UInt 4; UInt 8; UInt 4;
   UInt 8; UInt 4].
Definition IDENTITY_HEADER : list wire_field := [UInt 4; UInt 4; UInt 4; UInt 4; UInt 4; UInt 4].
Definition NUMERIC_CODE_STRUCT : list wire_field := [UInt 4; UInt 4].

Definition field_size (f : wire_field) : nat := match f with UInt w => w | PadByte => 1 end.
Definition struct_size (fs : list wire_field) : Z := sum_with (λ f, Z.of_nat (field_size f)) fs.

(** [Struct.pack]: an integer that does not fit raises. *)
Fixpoint struct_pack (fs : list wire_field) (vs : list Z) : result vector_error (list byte) :=
  match fs, vs with
  | [], [] => Ok []
  | UInt w :: fs', v :: vs' =>
      raise_if (negb ((0 <=? v) && (v <? 256 ^ Z.of_nat w))) StructError;;
      rest ← struct_pack fs' vs'; Ok (to_le w v ++ rest)
  | PadByte :: fs', _ => rest ← struct_pack fs' vs; Ok (x00 :: rest)
  | _, _ => Err StructError
  end.

(** [Struct.unpack] of as many bytes as the format has. *)
Fixpoint struct_unpack (fs : list wire_field) (data : list byte) : list Z :=
  match fs with
  | [] => []
  | UInt w :: fs' => le_int (take w data) :: struct_unpack fs' (drop w data)
  | PadByte :: fs' => struct_unpack fs' (drop 1 data)
  end.

Definition row_values (r : WireRow) : list Z :=
  [w_ref_id r; w_pair_index r; w_entity_code r; w_dtype_code r; w_scope r; w_dimensions r;
   w_vector_offset r; w_vector_length r; w_identity_offset r; w_identity_length r;
   w_metadata_offset r; w_metadata_length r].

Definition row_of_values (vs : list Z) : result vector_error WireRow :=
  match vs with
  | [v1; v2; v3; v4; v5; v6; v7; v8; v9; v10; v11; v12] =>
      Ok {| w_ref_id := v1; w_pair_index := v2; w_entity_code := v3; w_dtype_code := v4;
            w_scope := v5; w_dimensions := v6; w_vector_offset := v7; w_vector_length := v8;
            w_identity_offset := v9; w_identity_length := v10; w_metadata_offset := v11;
            w_metadata_length := v12 |}
  | _ => Err StructError
  end.

(** [blob[offset:offset + size]] with [0 <= offset] and [0 <= size] *)
Definition slice (blob : list byte) (offset size : Z) : list byte :=
  take (Z.to_nat size) (drop (Z.to_nat offset) blob).

(** An IEEE number of [exp_bits] and [mant_bits], as a Python float. *)
Definition unpack_float (exp_bits mant_bits n : Z) : pyfloat :=
  let s := Z.testbit n (exp_bits + mant_bits) in
  let e := (n / 2 ^ mant_bits) mod 2 ^ exp_bits in
  let m := n mod 2 ^ mant_bits in
  let bias := 2 ^ (exp_bits - 1) - 1 in
  let number (m e : Z) := binary_normalize 53 1024 (if s then - m else m) e s in
  if e =? 2 ^ exp_bits - 1 then (if m =? 0 then S754_infinity s else S754_nan)
  else if e =? 0 then number m (1 - bias - mant_bits)
  else number (m + 2 ^ mant_bits) (e - bias - mant_bits).

(** The bytes of one number, and [struct.unpack(f"<{dimensions}e")] or ["f"]. *)
Definition dtype_width (vector_dtype : pystr) : Z :=
  if bool_decide (vector_dtype = py "float16") then 2 else 4.

Definition unpack_number (vector_dtype : pystr) (data : list byte) : pyfloat :=
  if bool_decide (vector_dtype = py "float16") then unpack_float 5 10 (le_int data)
  else unpack_float 8 23 (le_int data).

Fixpoint unpack_numbers (n : nat) (vector_dtype : pystr) (data : list byte) : list pyfloat :=
  match n with
  | O => []
  | S n' => let w := Z.to_nat (dtype_width vector_dtype) in
            unpack_number vector_dtype (take w data) :: unpack_numbers n' vector_dtype (drop w data)
  end.

(** ** Texts and JSON *)

(** [text.encode("utf-8")] *)
Definition encode_text (text : pystr) : result vector_error (list byte) :=
  or_raise (utf8_encode text) UnicodeEncodeError.

(** A character of a JSON string that keeps what is not ASCII. *)
Definition raw_json_char (c : Z) : pystr :=
  if c =? 34 then [92; 34]
  else if c =? 92 then [92; 92]
  else if c =? 10 then py "\n"
  else if c =? 13 then py "\r"
  else if c =? 9 then py "\t"
  else if c =? 12 then py "\f"
  else if c =? 8 then py "\b"
  else if c <? 32 then py "\u" ++ hex4 c
  else [c].

Definition raw_json_string (s : pystr) : pystr := [34] ++ concat (raw_json_char <$> s) ++ [34].

(** A field of an object with the text of its value. *)
Definition json_field (p : pystr * pystr) : pystr := raw_json_string p.1 ++ [58] ++ p.2.

Section canonical.
Variables (float_repr : pyfloat → pystr) (json_loads : pystr → option json).

(** [_canonical_json]: sorted keys, no spaces; [None] where it raises. *)
Fixpoint _canonical_json (v : json) : option pystr :=
  match v with
  | JNull => Some (py "null")
  | JBool b => Some (if b then py "true" else py "false")
  | JInt z => if 10 ^ INT_MAX_STR_DIGITS <=? Z.abs z then None else Some (int_text z)
  | JFloat f => if is_finite f then Some (float_repr f) else None
  | JStr s => Some (raw_json_string s)
  | JList l =>
      parts ← (fix go (l : list json) : option (list pystr) :=
                 match l with
                 | [] => Some []
                 | x :: l' => p ← _canonical_json x; ps ← go l'; Some (p :: ps)
                 end) l;
      Some ([91] ++ intersperse [44] parts ++ [93])
  | JObject fs =>
      parts ← (fix go (fs : list (pystr * json)) : option (list (pystr * pystr)) :=
                 match fs with
                 | [] => Some []
                 | (k, x) :: fs' => p ← _canonical_json x; ps ← go fs'; Some ((k, p) :: ps)
                 end) fs;
      Some ([123] ++ intersperse [44] (json_field <$> sort_by cmp_str fst parts) ++ [125])
  end.

(** [_object]: the value as an object that JSON gives back. *)
Definition _object (value : json) (label : string) : result vector_error json :=
  match value with
  | JObject _ =>
      match _canonical_json value ≫= json_loads with
      | Some (JObject fields) => Ok (JObject fields)
      | Some _ => Err (DerivedViewContractError (py label ++ py " must remain an object"))
      | None => Err (DerivedViewContractError (py label ++ py " is not canonical JSON"))
      end
  | _ => Err (DerivedViewContractError (py label ++ py " must be an object"))
  end.

(** The bytes of the canonical object of a provenance. *)
Definition provenance_value (source : provenance_source) : result vector_error json :=
  match source with
  | ProvenanceBytes data =>
      text ← or_raise (utf8_decode data) (contract "provenance is not UTF-8");
      or_raise (json_loads text) (contract "provenance JSON is invalid")
  | ProvenanceText text => or_raise (json_loads text) (contract "provenance JSON is invalid")
  | ProvenanceObject value => Ok value
  end.

(** [_provenance] *)
Definition _provenance (source : provenance_source) : result vector_error (list byte) :=
  value ← provenance_value source;
  object ← _object value "provenance";
  text ← or_raise (_canonical_json object) (vector_value "Out of range float values");
  encoded ← encode_text text;
  raise_if (MAX_PROVENANCE_BYTES <? zlen encoded) (contract "provenance exceeds bounded size");;
  Ok encoded.

(** [PublishedPair.key]: [_canonical_json([model_signature, generation_id])] *)
Definition pair_key (signature : pystr) (generation : Z) : result vector_error pystr :=
  or_raise (_canonical_json (JList [JStr signature; JInt generation]))
    (vector_value "Exceeds the limit for integer string conversion").

(** ** Checks *)

(** [_text]: bounded text that is not blank. *)
Definition _text (name : string) (value : pystr) : result vector_error pystr :=
  raise_if (blank value)
    (DerivedViewContractError (py name ++ py " must be bounded non-blank text"));;
  encoded ← encode_text value;
  raise_if (MAX_FIELD_BYTES <? zlen encoded)
    (DerivedViewContractError (py name ++ py " must be bounded non-blank text"));;
  Ok value.

Definition pair_text (name : string) (value : pystr) : result vector_error unit :=
  raise_if (blank value)
    (DerivedViewContractError (py "published pair " ++ py name ++ py " is blank"));;
  encoded ← encode_text value;
  raise_if (MAX_FIELD_BYTES <? zlen encoded)
    (DerivedViewContractError (py "published pair " ++ py name ++ py " is blank")).

(** [PublishedPair.__post_init__] *)
Definition validate_pair (p : PublishedPair) : result vector_error unit :=
  pair_text "model_signature" (pair_model_signature p);;
  pair_text "processing_signature" (pair_processing_signature p);;
  pair_text "vector_space" (pair_vector_space p);;
  pair_text "modality" (pair_modality p);;
  pair_text "entity_kind" (pair_entity_kind p);;
  raise_if (pair_generation_id p <? 1) (contract "generation_id must be positive");;
  raise_if (bool_decide (pair_status p ≠ py "ready") ||
            bool_decide ((pair_modality p, pair_entity_kind p) ∉
                         [(py "text", py "text_chunk"); (py "image", py "image_item")]))
    (contract "published pair is not ready or is incompatible").

(** [_pairs]: the index of each key. *)
Definition _pairs (values : list PublishedPair) : result vector_error (list (pystr * Z)) :=
  raise_if (MAX_PAIR_COUNT <? zlen values) (contract "published pair count exceeds bound");;
  foldl (λ r p,
      found ← r;
      key ← pair_key (pair_model_signature p) (pair_generation_id p);
      raise_if (bool_decide (dget key found ≠ None)) (contract "duplicate published pair key");;
      Ok (dset key (zlen found) found))
    (Ok []) values.

(** [any(not math.isfinite(v) for v in vs)] and
    [math.fsum(v * v for v in vs)], [v * w] for the pairs of two vectors. *)
Definition all_finite (vs : list pyfloat) : bool := forallb is_finite vs.

Definition dot (vs ws : list pyfloat) : result vector_error pyfloat :=
  match fsum (zip_with fmul vs ws) with
  | Ok s => Ok s
  | Err intermediate_overflow => Err FloatOverflowError
  | Err opposite_infinities => Err (vector_value "-inf + inf in fsum")
  end.

Definition float_zero : pyfloat := S754_zero false.

(** [_validate_payload] *)
Definition _validate_payload (payload : list byte) (dims : Z) (dtype : pystr) (finite : bool) :
    result vector_error unit :=
  raise_if (negb ((1 <=? dims) && (dims <=? MAX_DIMENSIONS))) (contract "dimensions out of bounds");;
  raise_if (bool_decide (zlen payload ≠ dims * dtype_width dtype))
    (DerivedViewContractError (py "invalid vector payload length: expected " ++
       int_text (dims * dtype_width dtype) ++ py ", got " ++ int_text (zlen payload)));;
  if finite then
    let values := unpack_numbers (Z.to_nat dims) dtype payload in
    raise_if (negb (all_finite values)) (contract "vector must be finite and non-zero");;
    norm_squared ← dot values values;
    raise_if (SFleb norm_squared float_zero) (contract "vector must be finite and non-zero")
  else Ok tt.

(** [VectorRecord.__post_init__] *)
Definition validate_vector_record (r : VectorRecord) : result vector_error unit :=
  raise_if (negb ((1 <=? dimensions r) && (dimensions r <=? MAX_DIMENSIONS)))
    (contract "record dimensions must be between 1 and 65536");;
  raise_if (bool_decide (dget (vector_dtype r) DTYPE_CODE = None))
    (contract "record vector_dtype must be float16 or float32").

Definition record_matches (r : VectorRecord) (p : PublishedPair) : bool :=
  bool_decide (model_signature r = pair_model_signature p) &&
  (generation_id r =? pair_generation_id p) &&
  bool_decide (processing_signature r = pair_processing_signature p) &&
  bool_decide (vector_space r = pair_vector_space p) &&
  bool_decide (modality r = pair_modality p) &&
  bool_decide (entity_kind r = pair_entity_kind p).

(** [_validate_record] *)
Definition _validate_record (r : VectorRecord) (p : PublishedPair) : result vector_error (list byte) :=
  raise_if (ref_id r <? 1) (contract "ref_id must be positive");;
  _text "entity_id" (entity_id r);;
  _text "item_id" (item_id r);;
  raise_if (bool_decide (modality r ∉ [py "text"; py "image"]) ||
            bool_decide (dget (entity_kind r) ENTITY_CODE = None))
    (contract "record modality/entity_kind invalid");;
  raise_if (bool_decide (dget (vector_dtype r) DTYPE_CODE = None))
    (contract "vector_dtype must be float16 or float32");;
  raise_if (generation_id r <? 1) (contract "generation_id must be positive");;
  raise_if (negb ((1 <=? dimensions r) && (dimensions r <=? MAX_DIMENSIONS)))
    (contract "dimensions out of bounds");;
  raise_if (bool_decide (dget (section_scope r) SCOPE_CODE = None) ||
            blank (owner_row_binding r) || (4096 <? zlen (owner_row_binding r)))
    (contract "scope or owner_row_binding invalid");;
  raise_if (negb (record_matches r p)) (contract "record does not match published pair");;
  _validate_payload (vector_blob r) (dimensions r) (vector_dtype r) true;;
  _provenance (provenance_json r).
End canonical.

(** ** Identity records *)

Definition identity_texts (r : VectorRecord) : list pystr :=
  [entity_id r; item_id r; model_signature r; vector_space r; modality r; owner_row_binding r].

(** [_encode_identity] *)
Definition _encode_identity (r : VectorRecord) : result vector_error (list byte) :=
  values ← map_result encode_text (identity_texts r);
  header ← struct_pack IDENTITY_HEADER ((λ v : list byte, zlen v) <$> values);
  raise_if (MAX_IDENTITY_BYTES <? zlen (header ++ concat values))
    (contract "identity record exceeds bounded size");;
  Ok (header ++ concat values).

(** The loop of [_decode_identity]: the fields of the given sizes from [cursor]
    on, and where they end. *)
Fixpoint identity_fields (blob : list byte) (sizes : list Z) (cursor stop : Z) :
    result vector_error (list pystr * Z) :=
  match sizes with
  | [] => Ok ([], cursor)
  | size :: sizes' =>
      raise_if (stop <? cursor + size) (fallback "identity field exceeds artifact" "row_identity");;
      text ← or_raise (utf8_decode (slice blob cursor size))
               (fallback "identity is not UTF-8" "row_identity");
      '(texts, cursor') ← identity_fields blob sizes' (cursor + size) stop;
      Ok (text :: texts, cursor')
  end.

(** [_decode_identity] *)
Definition _decode_identity (blob : list byte) (offset length_ : Z) :
    result vector_error (list pystr) :=
  raise_if ((offset <? 0) || (length_ <? struct_size IDENTITY_HEADER) ||
            (zlen blob <? offset + length_)) (fallback "identity offset invalid" "row_identity");;
  let sizes := struct_unpack IDENTITY_HEADER (slice blob offset (struct_size IDENTITY_HEADER)) in
  '(texts, cursor) ←
    identity_fields blob sizes (offset + struct_size IDENTITY_HEADER) (offset + length_);
  raise_if (bool_decide (cursor ≠ offset + length_))
    (fallback "identity record trailing bytes" "row_identity");;
  Ok texts.

(** ** Reading a row *)

(** [_row] *)
Definition _row (rows : list byte) (index : Z) : result vector_error WireRow :=
  let offset := index * struct_size ROW_STRUCT in
  raise_if ((offset <? 0) || (zlen rows <? offset + struct_size ROW_STRUCT))
    (fallback "row outside artifact" "row_identity");;
  row_of_values (struct_unpack ROW_STRUCT (slice rows offset (struct_size ROW_STRUCT))).

Definition row_error (row_index : Z) (what : string) : vector_error :=
  FallbackExactRequired (py "row " ++ int_text row_index ++ py what) (py "row_identity").

(** [_candidate] of a row against the pairs of the view; a score of 0.0 until it
    is scored. *)
Definition _candidate (row : WireRow) (identity : list byte) (metadata_size : Z)
    (pairs : list PublishedPair) (row_index : Z) : result vector_error Candidate :=
  match pairs !! Z.to_nat (w_pair_index row), dget (w_dtype_code row) CODE_DTYPE with
  | Some p, Some dtype =>
      raise_if (bool_decide (Some (w_entity_code row) ≠ dget (pair_entity_kind p) ENTITY_CODE) ||
                negb ((1 <=? w_dimensions row) && (w_dimensions row <=? MAX_DIMENSIONS)))
        (row_error row_index " binding invalid");;
      raise_if ((w_vector_offset row <? 0) || (w_vector_length row <? 0) ||
                (w_identity_offset row <? 0) || (w_identity_length row <? 0) ||
                (w_metadata_offset row <? 0) || (w_metadata_length row <? 0) ||
                (w_identity_length row <? struct_size IDENTITY_HEADER) ||
                (w_metadata_length row <? 2) ||
                (metadata_size <? w_metadata_offset row + w_metadata_length row))
        (row_error row_index " offset invalid");;
      texts ← _decode_identity identity (w_identity_offset row) (w_identity_length row);
      match texts with
      | [entity; item; signature; space; modality_; binding] =>
          raise_if (bool_decide ((signature, space, modality_) ≠
              (pair_model_signature p, pair_vector_space p, pair_modality p)))
            (row_error row_index " identity/pair mismatch");;
          Ok {| c_ref_id := w_ref_id row; c_entity_id := entity; c_item_id := item;
                c_pair_index := w_pair_index row; c_vector_dtype := dtype;
                c_dimensions := w_dimensions row; c_vector_offset := w_vector_offset row;
                c_vector_length := w_vector_length row; c_metadata_offset := w_metadata_offset row;
                c_metadata_length := w_metadata_length row; c_owner_row_binding := binding;
                c_score := float_zero |}
      | _ => Err StructError
      end
  | _, _ => Err (row_error row_index " binding invalid")
  end.

(** [_vector_bytes] of a candidate in the segment of its dtype. *)
Definition _vector_bytes (mapping : list byte) (c : Candidate) : result vector_error (list byte) :=
  raise_if (zlen mapping <? c_vector_offset c + c_vector_length c)
    (fallback "vector outside artifact" "row_payload");;
  let payload := slice mapping (c_vector_offset c) (c_vector_length c) in
  _validate_payload payload (c_dimensions c) (c_vector_dtype c) false;;
  Ok payload.

(** ** Writing the rows of a view *)

(** [_Writer]: the bytes written, their count, whether it is sealed. *)
Record Writer : Type := { stream : list byte; size : Z; sealed : bool }.

Definition new_writer : Writer := {| stream := []; size := 0; sealed := false |}.

(** [_Writer.write]: the offset and the length of the data. *)
Definition write (w : Writer) (data : list byte) : result vector_error (Writer * (Z * Z)) :=
  raise_if (sealed w) (contract "sealed writer cannot accept more bytes");;
  Ok ({| stream := stream w ++ data; size := size w + zlen data; sealed := false |},
      (size w, zlen data)).

(** The writers and the locals of [prepare_exact_view]. *)
Record PrepareState : Type := {
  rows_writer : Writer;
  identity_writer : Writer;
  metadata_writer : Writer;
  f16_writer : Writer;
  f32_writer : Writer;
  codes_writer : Writer;
  previous : Z;
  count : Z;
  total : Z;
  provenance_count : Z;
  scopes : list (pystr * Z);
  dtypes : list (pystr * Z);
  item_codes : list (pystr * Z);
  evidence_codes : list (pystr * pystr * Z);
  codebook_estimated_bytes : Z
}.

Definition prepare_start : PrepareState :=
  {| rows_writer := new_writer; identity_writer := new_writer; metadata_writer := new_writer;
     f16_writer := new_writer; f32_writer := new_writer; codes_writer := new_writer;
     previous := 0; count := 0; total := 0; provenance_count := 0;
     scopes := (λ p, (p.1, 0)) <$> SCOPE_CODE; dtypes := (λ p, (p.1, 0)) <$> DTYPE_CODE;
     item_codes := []; evidence_codes := []; codebook_estimated_bytes := 0 |}.

(** [d.setdefault(k, v)] *)
Definition setdefault {K V} `{!EqDecision K} (k : K) (v : V) (d : list (K * V)) : V * list (K * V) :=
  match dget k d with Some v' => (v', d) | None => (v, dset k v d) end.

(** [counts[key] += 1] *)
Definition tally (key : pystr) (counts : list (pystr * Z)) : result vector_error (list (pystr * Z)) :=
  n ← or_raise (dget key counts) MissingKeyError; Ok (dset key (n + 1) counts).

(** [_numeric_codes]: the codes of the item and of the entity of the item, the
    codebooks and their estimated size. *)
Definition _numeric_codes (r : VectorRecord) (items : list (pystr * Z))
    (evidence : list (pystr * pystr * Z)) (estimated : Z) :
    result vector_error ((Z * Z) * (list (pystr * Z) * list (pystr * pystr * Z) * Z)) :=
  item_addition ←
    (if bool_decide (dget (item_id r) items = None)
     then item_bytes ← encode_text (item_id r); Ok (64 + zlen item_bytes)
     else Ok 0);
  evidence_addition ←
    (if bool_decide (dget (item_id r, entity_id r) evidence = None)
     then item_bytes ← encode_text (item_id r); entity_bytes ← encode_text (entity_id r);
          Ok (96 + zlen item_bytes + zlen entity_bytes)
     else Ok 0);
  let additions := item_addition + evidence_addition in
  raise_if (MAX_NUMERIC_CODEBOOK_BYTES <? estimated + additions)
    (contract "numeric codebook estimate exceeds 512 MiB before row write");;
  let '(item_code, items') := setdefault (item_id r) (zlen items) items in
  let '(evidence_code, evidence') := setdefault (item_id r, entity_id r) (zlen evidence) evidence in
  Ok ((item_code, evidence_code), (items', evidence', estimated + additions)).

Section prepare.
Variables (float_repr : pyfloat → pystr) (json_loads : pystr → option json)
  (cancellation_check : vector_callback) (pair_tuple : list PublishedPair)
  (pair_index : list (pystr * Z)) (max_rows max_total_bytes : Z) (numeric_projection : bool).

(** [writers[VECTOR_FILES[record.vector_dtype]].write(record.vector_blob)] *)
Definition write_vector (r : VectorRecord) (st : PrepareState) :
    result vector_error ((Writer * Writer) * (Z * Z)) :=
  if bool_decide (vector_dtype r = py "float16")
  then '(w, at_) ← write (f16_writer st) (vector_blob r); Ok ((w, f32_writer st), at_)
  else '(w, at_) ← write (f32_writer st) (vector_blob r); Ok ((f16_writer st, w), at_).

(** One turn of the loop of [prepare_exact_view] over the records. *)
Definition prepare_row (n : nat) (r : VectorRecord) (st : PrepareState) :
    result vector_error PrepareState :=
  vector_checkpoint cancellation_check (AtRecord n);;
  raise_if (max_rows <=? count st) (contract "max_rows exceeded");;
  raise_if (ref_id r <=? previous st) (contract "records must be strictly ordered by ref_id");;
  key ← pair_key float_repr (model_signature r) (generation_id r);
  index ← or_raise (dget key pair_index) (contract "record is outside published pair selection");
  p ← or_raise (pair_tuple !! Z.to_nat index) MissingKeyError;
  provenance ← _validate_record float_repr json_loads r p;
  identity ← _encode_identity r;
  let record_bytes := struct_size ROW_STRUCT + zlen (vector_blob r) + zlen identity + zlen provenance in
  '((item_code, evidence_code), (items, evidence, estimated)) ←
    (if numeric_projection
     then _numeric_codes r (item_codes st) (evidence_codes st) (codebook_estimated_bytes st)
     else Ok ((0, 0), (item_codes st, evidence_codes st, codebook_estimated_bytes st)));
  let record_bytes := if numeric_projection then record_bytes + struct_size NUMERIC_CODE_STRUCT
                      else record_bytes in
  raise_if (max_total_bytes <? total st + record_bytes)
    (contract "max_total_bytes preflight exceeded");;
  '((f16, f32), (vector_offset, vector_length)) ← write_vector r st;
  '(identity_w, (identity_offset, identity_length)) ← write (identity_writer st) identity;
  '(metadata_w, (metadata_offset, metadata_length)) ← write (metadata_writer st) provenance;
  entity_code ← or_raise (dget (entity_kind r) ENTITY_CODE) MissingKeyError;
  dtype_code ← or_raise (dget (vector_dtype r) DTYPE_CODE) MissingKeyError;
  scope_code ← or_raise (dget (section_scope r) SCOPE_CODE) MissingKeyError;
  packed ← struct_pack ROW_STRUCT (row_values
    {| w_ref_id := ref_id r; w_pair_index := index; w_entity_code := entity_code;
       w_dtype_code := dtype_code; w_scope := scope_code; w_dimensions := dimensions r;
       w_vector_offset := vector_offset; w_vector_length := vector_length;
       w_identity_offset := identity_offset; w_identity_length := identity_length;
       w_metadata_offset := metadata_offset; w_metadata_length := metadata_length |});
  '(rows_w, _) ← write (rows_writer st) packed;
  codes_w ←
    (if numeric_projection
     then codes ← struct_pack NUMERIC_CODE_STRUCT [item_code; evidence_code];
          '(w, _) ← write (codes_writer st) codes; Ok w
     else Ok (codes_writer st));
  scopes' ← tally (section_scope r) (scopes st);
  dtypes' ← tally (vector_dtype r) (dtypes st);
  Ok {| rows_writer := rows_w; identity_writer := identity_w; metadata_writer := metadata_w;
        f16_writer := f16; f32_writer := f32; codes_writer := codes_w;
        previous := ref_id r; count := count st + 1; total := total st + record_bytes;
        provenance_count := provenance_count st + 1; scopes := scopes'; dtypes := dtypes';
        item_codes := items; evidence_codes := evidence; codebook_estimated_bytes := estimated |}.

(** The loop over the records. *)
Fixpoint prepare_rows (n : nat) (records : list VectorRecord) (st : PrepareState) :
    result vector_error PrepareState :=
  match records with
  | [] => Ok st
  | r :: records' => st' ← prepare_row n r st; prepare_rows (S n) records' st'
  end.
End prepare.

(** [prepare_exact_view] without norms: the checks of its arguments and the rows
    it writes.  [exhausted] is how the iteration over the records ends. *)
Definition prepare_exact_view (float_repr : pyfloat → pystr) (json_loads : pystr → option json)
    (cancellation_check : vector_callback) (records : list VectorRecord)
    (exhausted : result vector_error unit) (pair_tuple : list PublishedPair) (max_rows max_total_bytes : Z) (numeric_projection : bool) :
    result vector_error PrepareState :=
  raise_if (negb ((1 <=? max_rows) && (max_rows <=? MAX_VIEW_ROWS)) ||
            negb ((1 <=? max_total_bytes) && (max_total_bytes <=? MAX_VIEW_BYTES)))
    (vector_value "index bounds are outside the exact contract");;
  raise_if (bool_decide (pair_tuple = [])) (contract "published pair selection is empty");;
  pair_index ← _pairs float_repr pair_tuple;
  vector_checkpoint cancellation_check AtStart;;
  st ← prepare_rows float_repr json_loads cancellation_check pair_tuple pair_index max_rows
         max_total_bytes numeric_projection 0 records prepare_start;
  exhausted;;
  vector_checkpoint cancellation_check AtEnd;;
  Ok st.
