(* ===== verification/VectorFormatLaws.v ===== *)
(** * The laws of the wire formats and of the written rows

    Packing and unpacking, the identity records, and what the writers of a
    prepared view hold: each record is read back from its row. *)

From S2P Require Import Prelude PyOrder KnowledgeContracts Utf8 VectorFormat.

#[global] Open Scope Z_scope.

(** Takes the tuples of a computation apart. *)
Ltac split_pairs :=
  repeat (match goal with H : (let '(_, _) := ?p in _) = Ok _ |- _ => destruct p end; inv_ok).

(** ** Slices *)

(** [len] bytes [x] of [data] at [off]. *)
Definition holds_at (data : list byte) (off : Z) (x : list byte) : Prop :=
  0 <= off ∧ ∃ a b, data = a ++ x ++ b ∧ zlen a = off.

Lemma holds_at_slice data off x : holds_at data off x → slice data off (zlen x) = x.
Proof.
  intros (H0 & a & b & -> & Ha). unfold slice. rewrite <- Ha, !Nat2Z.id.
  by rewrite drop_app_length, take_app_length.
Qed.

Lemma slice_holds data off x : 0 <= off → x ≠ [] → slice data off (zlen x) = x → holds_at data off x.
Proof.
  intros H0 Hx Hs. split; [done|]. unfold slice in Hs. rewrite Nat2Z.id in Hs.
  exists (take (Z.to_nat off) data), (drop (length x) (drop (Z.to_nat off) data)). split.
  - rewrite <- Hs at 1. by rewrite !take_drop.
  - assert (length (drop (Z.to_nat off) data) ≠ 0%nat) as Hne.
    { intros Hn%nil_length_inv. rewrite Hn, take_nil in Hs. by symmetry in Hs. }
    rewrite length_drop in Hne. rewrite length_take. lia.
Qed.

Lemma holds_at_bounds data off x : holds_at data off x → 0 <= off ∧ off + zlen x <= zlen data.
Proof. intros (H0 & a & b & -> & Ha). rewrite !length_app. lia. Qed.

Lemma holds_at_app data off x y : holds_at data off x → holds_at (data ++ y) off x.
Proof.
  intros (H0 & a & b & -> & Ha). split; [done|]. exists a, (b ++ y). by rewrite <- !(assoc_L (++)).
Qed.

Lemma holds_at_end data x : holds_at (data ++ x) (zlen data) x.
Proof. split; [lia|]. exists data, []. by rewrite app_nil_r. Qed.

(** A part of the bytes held at an offset. *)
Lemma holds_at_part data off a x b : holds_at data off (a ++ x ++ b) → holds_at data (off + zlen a) x.
Proof.
  intros (H0 & c & d & -> & Hc). split; [lia|]. exists (c ++ a), (b ++ d).
  rewrite <- !(assoc_L (++)), length_app. split; [done|lia].
Qed.

(** ** Struct formats *)

Definition sized (fs : list wire_field) : Prop := Forall (λ f, (0 < field_size f)%nat) fs.

Lemma struct_pack_spec fs : ∀ vs data, sized fs → struct_pack fs vs = Ok data →
  zlen data = struct_size fs ∧ struct_unpack fs data = vs.
Proof.
  induction fs as [|f fs IH]; intros vs data Hs H; [destruct vs; [by injection H as <-|done]|].
  inversion Hs as [|? ? Hf Hs']; subst. unfold struct_size in *. cbn.
  destruct f as [w|]; [destruct vs as [|v vs]; [done|]|]; cbn in H, Hf; inv_ok; bool_prop.
  - rename select (struct_pack _ _ = _) into Hr. destruct (IH _ _ Hs' Hr) as [Hl Hu].
    destruct (to_le_spec w v) as [Hw Hv]; [done|lia|]. cbn [struct_unpack].
    rewrite length_app, take_app_length', drop_app_length', Hu, Hv, Hw by done.
    cbn [field_size]. split; [lia|done].
  - rename select (struct_pack _ _ = _) into Hr. destruct (IH _ _ Hs' Hr) as [Hl Hu].
    cbn [field_size length struct_unpack]. split; [lia|]. cbn. by rewrite drop_0.
Qed.

Lemma row_sized : sized ROW_STRUCT.
Proof. repeat constructor. Qed.

(** ** Identity records *)

Lemma encode_decode text data : encode_text text = Ok data → utf8_decode data = Some text.
Proof. unfold encode_text. intros H. apply utf8_roundtrip. by destruct (utf8_encode text); cbn in H; inv_ok. Qed.

(** The fields of an identity record that is held at an offset. *)
Lemma identity_fields_spec blob texts values : ∀ cursor stop,
  Forall2 (λ t v, encode_text t = Ok v) texts values →
  holds_at blob cursor (concat values) → cursor + zlen (concat values) <= stop →
  identity_fields blob ((λ v : list byte, zlen v) <$> values) cursor stop =
    Ok (texts, cursor + zlen (concat values)).
Proof.
  revert texts. induction values as [|v values IH]; intros texts cursor stop Hf Hh Hstop.
  { inversion Hf; subst. csimpl. by rewrite Z.add_0_r. }
  inversion Hf as [|t ? texts' ? Ht Hf']; subst. csimpl. cbn [concat] in *. rewrite length_app in Hstop.
  destruct (Z.ltb_spec stop (cursor + zlen v)); [lia|]. cbn.
  pose proof (holds_at_part blob cursor [] v (concat values) Hh) as Hv. rewrite Z.add_0_r in Hv.
  rewrite (holds_at_slice blob cursor v), (encode_decode t v) by done. cbn.
  rewrite (IH texts' (cursor + zlen v) stop); [|done| |lia].
  - cbn. rewrite length_app. do 2 f_equal. lia.
  - apply (holds_at_part blob cursor v (concat values) []). by rewrite app_nil_r.
Qed.

Lemma map_result_forall2 {A B} (f : A → result vector_error B) l ys :
  map_result f l = Ok ys → Forall2 (λ x y, f x = Ok y) l ys.
Proof. apply map_result_ok. Qed.

(** An identity record has its header. *)
Lemma identity_length r data : _encode_identity r = Ok data → struct_size IDENTITY_HEADER <= zlen data.
Proof.
  unfold _encode_identity. intros H. inv_ok. rename select (struct_pack _ _ = _) into Hp.
  apply struct_pack_spec in Hp as [Hl _]; [|repeat constructor]. rewrite length_app. lia.
Qed.

(** What is encoded of a record is decoded from where it is held. *)
Lemma identity_roundtrip blob off r data :
  _encode_identity r = Ok data → holds_at blob off data →
  _decode_identity blob off (zlen data) = Ok (identity_texts r).
Proof.
  unfold _encode_identity. intros H Hh. inv_ok. bool_prop.
  rename select (map_result _ _ = _) into Hv. apply map_result_ok in Hv.
  rename select (struct_pack _ _ = _) into Hp. rename x into values, x0 into header.
  apply struct_pack_spec in Hp as [Hl Hu]; [|repeat constructor]. unfold _decode_identity.
  pose proof (holds_at_bounds _ _ _ Hh) as [Hoff Hb].
  pose proof (holds_at_part blob off [] header (concat values) Hh) as Hhead.
  pose proof (holds_at_part blob off header (concat values) []) as Hbody.
  rewrite Z.add_0_r in Hhead. rewrite app_nil_r in Hbody. rewrite length_app in *.
  assert (struct_size IDENTITY_HEADER = 24) as Hsz by done.
  rewrite <- Hl in *. clear Hsz.
  repeat match goal with |- context [?a <? ?b] => destruct (Z.ltb_spec a b); [lia|] end.
  cbn [orb raise_if mbind result_bind]. rewrite (holds_at_slice blob off header), Hu by done.
  rewrite (identity_fields_spec blob (identity_texts r) values) by (done || auto || lia).
  cbn [mbind result_bind]. rewrite bool_decide_eq_false_2 by (intros Hne; apply Hne; lia). done.
Qed.

(** ** Rows *)

Lemma row_roundtrip rows index row data :
  0 <= index → struct_pack ROW_STRUCT (row_values row) = Ok data →
  holds_at rows (index * struct_size ROW_STRUCT) data → _row rows index = Ok row.
Proof.
  intros Hi Hp Hh. apply struct_pack_spec in Hp as [Hl Hu]; [|repeat constructor].
  pose proof (holds_at_bounds _ _ _ Hh) as [H0 Hb]. unfold _row. rewrite <- Hl in *.
  repeat match goal with |- context [?a <? ?b] => destruct (Z.ltb_spec a b); [lia|] end.
  cbn [orb raise_if mbind result_bind]. rewrite holds_at_slice, Hu by done. by destruct row.
Qed.

(** ** The written rows *)

(** The segment of a dtype. *)
Definition segment (st : PrepareState) (dtype : pystr) : list byte :=
  if bool_decide (dtype = py "float16") then stream (f16_writer st) else stream (f32_writer st).

(** A writer counts its bytes and is open. *)
Definition open_writer (w : Writer) : Prop := size w = zlen (stream w) ∧ sealed w = false.

Lemma write_spec w data w' at_ : open_writer w → write w data = Ok (w', at_) →
  stream w' = stream w ++ data ∧ open_writer w' ∧ at_ = (zlen (stream w), zlen data).
Proof.
  intros [Hs Ho] H. unfold write in H. inv_ok. cbn. unfold open_writer. cbn.
  rewrite length_app, Hs. split_and!; [done|lia|done|done].
Qed.

Section written.
Variables (float_repr : pyfloat → pystr) (json_loads : pystr → option json)
  (cancellation_check : vector_callback) (pair_tuple : list PublishedPair)
  (pair_index : list (pystr * Z)) (max_rows max_total_bytes : Z) (numeric_projection : bool).

(** A record as the files hold it: its pair, its row, and where its parts are. *)
Record Stored (st : PrepareState) (i : nat) (r : VectorRecord) (p : PublishedPair) (row : WireRow)
    (provenance : list byte) : Prop := {
  stored_pair : pair_tuple !! Z.to_nat (w_pair_index row) = Some p;
  stored_valid : _validate_record float_repr json_loads r p = Ok provenance;
  stored_row : ∃ data, struct_pack ROW_STRUCT (row_values row) = Ok data ∧
    holds_at (stream (rows_writer st)) (Z.of_nat i * struct_size ROW_STRUCT) data;
  stored_identity : ∃ data, _encode_identity r = Ok data ∧ zlen data = w_identity_length row ∧
    holds_at (stream (identity_writer st)) (w_identity_offset row) data;
  stored_metadata : holds_at (stream (metadata_writer st)) (w_metadata_offset row) provenance;
  stored_metadata_length : w_metadata_length row = zlen provenance;
  stored_vector : holds_at (segment st (vector_dtype r)) (w_vector_offset row) (vector_blob r);
  stored_vector_length : w_vector_length row = zlen (vector_blob r);
  stored_ref : w_ref_id row = ref_id r;
  stored_dimensions : w_dimensions row = dimensions r;
  stored_entity : dget (entity_kind r) ENTITY_CODE = Some (w_entity_code row);
  stored_dtype : dget (vector_dtype r) DTYPE_CODE = Some (w_dtype_code row);
  stored_scope : dget (section_scope r) SCOPE_CODE = Some (w_scope row)
}.

(** The files grow. *)
Definition extends (st st' : PrepareState) : Prop :=
  (∃ d, stream (rows_writer st') = stream (rows_writer st) ++ d) ∧
  (∃ d, stream (identity_writer st') = stream (identity_writer st) ++ d) ∧
  (∃ d, stream (metadata_writer st') = stream (metadata_writer st) ++ d) ∧
  (∃ d, stream (f16_writer st') = stream (f16_writer st) ++ d) ∧
  (∃ d, stream (f32_writer st') = stream (f32_writer st) ++ d).

Lemma stored_extends st st' i r p row prov :
  extends st st' → Stored st i r p row prov → Stored st' i r p row prov.
Proof.
  intros ([d1 H1] & [d2 H2] & [d3 H3] & [d4 H4] & [d5 H5]) S. destruct S. split; try done.
  - destruct stored_row0 as (data & Hp & Hh). exists data. rewrite H1. auto using holds_at_app.
  - destruct stored_identity0 as (data & Hp & Hl & Hh). exists data. rewrite H2. auto using holds_at_app.
  - rewrite H3. by apply holds_at_app.
  - unfold segment in *. rewrite H4, H5. case_bool_decide; by apply holds_at_app.
Qed.

Definition writers_open (st : PrepareState) : Prop :=
  Forall open_writer [rows_writer st; identity_writer st; metadata_writer st; f16_writer st;
                      f32_writer st; codes_writer st].

(** What one turn does to the codebooks and the codes. *)
Definition CodesTurn (r : VectorRecord) (st st' : PrepareState) : Prop :=
  if numeric_projection then
    ∃ item_code evidence_code codes,
      _numeric_codes r (item_codes st) (evidence_codes st) (codebook_estimated_bytes st) =
        Ok ((item_code, evidence_code), (item_codes st', evidence_codes st', codebook_estimated_bytes st')) ∧
      struct_pack NUMERIC_CODE_STRUCT [item_code; evidence_code] = Ok codes ∧
      stream (codes_writer st') = stream (codes_writer st) ++ codes
  else item_codes st' = item_codes st ∧ evidence_codes st' = evidence_codes st ∧
       codebook_estimated_bytes st' = codebook_estimated_bytes st ∧ codes_writer st' = codes_writer st.

(** What one turn of the loop does to the state. *)
Record Turn (r : VectorRecord) (st st' : PrepareState) (p : PublishedPair) (row : WireRow)
    (provenance identity packed : list byte) : Prop := {
  turn_pair : pair_tuple !! Z.to_nat (w_pair_index row) = Some p;
  turn_valid : _validate_record float_repr json_loads r p = Ok provenance;
  turn_identity : _encode_identity r = Ok identity;
  turn_packed : struct_pack ROW_STRUCT (row_values row) = Ok packed;
  turn_codes : dget (entity_kind r) ENTITY_CODE = Some (w_entity_code row) ∧
    dget (vector_dtype r) DTYPE_CODE = Some (w_dtype_code row) ∧
    dget (section_scope r) SCOPE_CODE = Some (w_scope row);
  turn_row : w_ref_id row = ref_id r ∧ w_dimensions row = dimensions r ∧
    w_vector_offset row = zlen (segment st (vector_dtype r)) ∧ w_vector_length row = zlen (vector_blob r) ∧
    w_identity_offset row = zlen (stream (identity_writer st)) ∧ w_identity_length row = zlen identity ∧
    w_metadata_offset row = zlen (stream (metadata_writer st)) ∧ w_metadata_length row = zlen provenance;
  turn_streams : stream (rows_writer st') = stream (rows_writer st) ++ packed ∧
    stream (identity_writer st') = stream (identity_writer st) ++ identity ∧
    stream (metadata_writer st') = stream (metadata_writer st) ++ provenance ∧
    segment st' (vector_dtype r) = segment st (vector_dtype r) ++ vector_blob r;
  turn_extends : extends st st';
  turn_open : writers_open st';
  turn_order : previous st < ref_id r ∧ previous st' = ref_id r;
  turn_counts : count st' = count st + 1 ∧ count st < max_rows ∧ total st' <= max_total_bytes;
  turn_key : ∃ key, pair_key float_repr (model_signature r) (generation_id r) = Ok key ∧
    dget key pair_index = Some (w_pair_index row);
  turn_tally : tally (section_scope r) (scopes st) = Ok (scopes st') ∧
    tally (vector_dtype r) (dtypes st) = Ok (dtypes st');
  turn_numeric : CodesTurn r st st';
  turn_other : if bool_decide (vector_dtype r = py "float16") then f32_writer st' = f32_writer st
               else f16_writer st' = f16_writer st
}.

Lemma write_vector_spec r st f16 f32 at_ :
  open_writer (f16_writer st) → open_writer (f32_writer st) →
  write_vector r st = Ok ((f16, f32), at_) →
  open_writer f16 ∧ open_writer f32 ∧
  at_ = (zlen (segment st (vector_dtype r)), zlen (vector_blob r)) ∧
  (∃ d, stream f16 = stream (f16_writer st) ++ d) ∧ (∃ d, stream f32 = stream (f32_writer st) ++ d) ∧
  (if bool_decide (vector_dtype r = py "float16") then stream f16 else stream f32) =
    segment st (vector_dtype r) ++ vector_blob r ∧
  (if bool_decide (vector_dtype r = py "float16") then f32 = f32_writer st else f16 = f16_writer st).
Proof.
  intros H16 H32 H. unfold write_vector, segment in *. case_bool_decide; inv_ok; case_match; inv_ok;
    rename select (write _ _ = _) into Hw.
  - destruct (write_spec _ _ _ _ H16 Hw) as (Hs & Ho & ->). rewrite Hs.
    split_and!; [done..|by eexists|by exists []; rewrite app_nil_r|done|done].
  - destruct (write_spec _ _ _ _ H32 Hw) as (Hs & Ho & ->). rewrite Hs.
    split_and!; [done..|by exists []; rewrite app_nil_r|by eexists|done|done].
Qed.

Lemma codes_writer_open st codes w :
  open_writer (codes_writer st) →
  (if numeric_projection
   then data ← struct_pack NUMERIC_CODE_STRUCT codes; '(w, _) ← write (codes_writer st) data; Ok w
   else Ok (codes_writer st)) = Ok w → open_writer w.
Proof.
  intros Ho H. case_match; inv_ok; [|done]. split_pairs.
  by rename select (write _ _ = _) into Hw; apply write_spec in Hw as (_ & ? & _).
Qed.

Lemma codes_turn r st st' item_code evidence_code :
  open_writer (codes_writer st) →
  (if numeric_projection
   then _numeric_codes r (item_codes st) (evidence_codes st) (codebook_estimated_bytes st)
   else Ok ((0, 0), (item_codes st, evidence_codes st, codebook_estimated_bytes st))) =
    Ok ((item_code, evidence_code), (item_codes st', evidence_codes st', codebook_estimated_bytes st')) →
  (if numeric_projection
   then data ← struct_pack NUMERIC_CODE_STRUCT [item_code; evidence_code];
        '(w, _) ← write (codes_writer st) data; Ok w
   else Ok (codes_writer st)) = Ok (codes_writer st') →
  CodesTurn r st st'.
Proof.
  intros Ho Hn Hw. unfold CodesTurn. case_match; [|by inv_ok]. inv_ok. split_pairs.
  rename select (write _ _ = _) into Hwrite. apply write_spec in Hwrite as (Hs & _ & _); [|done].
  by eexists _, _, _.
Qed.

Lemma prepare_row_turn n r st st' :
  writers_open st →
  prepare_row float_repr json_loads cancellation_check pair_tuple pair_index max_rows max_total_bytes
    numeric_projection n r st = Ok st' →
  ∃ p row provenance identity packed, Turn r st st' p row provenance identity packed.
Proof.
  intros Ho H. unfold writers_open in Ho. decompose_Forall.
  unfold prepare_row in H. inv_ok. split_pairs. bool_prop.
  rename select (write_vector _ _ = _) into Hv. apply write_vector_spec in Hv; [|done..].
  destruct Hv as (Ho16 & Ho32 & [= -> ->] & He16 & He32 & Hseg & Hother).
  rename select (write (identity_writer st) _ = _) into Hi. apply write_spec in Hi; [|done].
  destruct Hi as (Hsi & Hoi & [= -> ->]).
  rename select (write (metadata_writer st) _ = _) into Hm. apply write_spec in Hm; [|done].
  destruct Hm as (Hsm & Hom & [= -> ->]).
  rename select (write (rows_writer st) _ = _) into Hr. apply write_spec in Hr; [|done].
  destruct Hr as (Hsr & Hor & _). rename select (struct_pack ROW_STRUCT _ = _) into Hpack.
  eexists _, {| w_pair_index := _ |}, _, _, _. split; [done..| | | | | | | | | | |]; cbn.
  - done.
  - by split_and!.
  - by split_and!.
  - unfold extends. cbn. rewrite Hsi, Hsm, Hsr. eauto 10.
  - apply codes_writer_open in H23; [|done]. unfold writers_open. cbn.
    repeat (apply Forall_cons_2; [done|]). constructor.
  - done.
  - done.
  - by eexists.
  - done.
  - by eapply codes_turn.
  - done.
Qed.

Lemma turn_stored r st st' p row prov ident packed i :
  Turn r st st' p row prov ident packed →
  zlen (stream (rows_writer st)) = Z.of_nat i * struct_size ROW_STRUCT → Stored st' i r p row prov.
Proof.
  intros T Hi. destruct T as [? ? ? ? (?&?&?) (?&?&Hvo&?&Hio&?&Hmo&?) (Hsr&Hsi&Hsm&Hsv) _ _ _ _ _ _ _ _].
  split; try done.
  - exists packed. split; [done|]. rewrite Hsr, <- Hi. apply holds_at_end.
  - exists ident. split_and!; [done..|]. rewrite Hsi, Hio. apply holds_at_end.
  - rewrite Hsm, Hmo. apply holds_at_end.
  - rewrite Hsv, Hvo. apply holds_at_end.
Qed.

(** What the writers hold after some records. *)
Record Written (st : PrepareState) (records : list VectorRecord) : Prop := {
  written_open : writers_open st;
  written_count : count st = zlen records;
  written_rows : zlen (stream (rows_writer st)) = zlen records * struct_size ROW_STRUCT;
  written_previous : Forall (λ r, ref_id r <= previous st) records;
  written_order : StronglySorted (λ r r', ref_id r < ref_id r') records;
  written_bounds : zlen records <= Z.max 0 max_rows ∧ total st <= Z.max 0 max_total_bytes;
  written_stored : ∀ i r, records !! i = Some r → ∃ p row prov, Stored st i r p row prov
}.

Lemma written_start : Written prepare_start [].
Proof. split; try done; [by repeat constructor|constructor|cbn; lia]. Qed.

Lemma prepare_row_written n r st st' records :
  Written st records →
  prepare_row float_repr json_loads cancellation_check pair_tuple pair_index max_rows max_total_bytes
    numeric_projection n r st = Ok st' →
  Written st' (records ++ [r]).
Proof.
  intros W H. apply prepare_row_turn in H; [|apply W].
  destruct H as (p & row & prov & ident & packed & T).
  destruct W as [_ Hcount Hrows Hprev Hord [Hb1 Hb2] Hst].
  destruct (turn_streams _ _ _ _ _ _ _ _ T) as (Hsr & _ & _ & _).
  destruct (turn_order _ _ _ _ _ _ _ _ T) as [Hlt Heq].
  destruct (turn_counts _ _ _ _ _ _ _ _ T) as (Hc & Hmax & Htot).
  destruct (struct_pack_spec _ _ _ row_sized (turn_packed _ _ _ _ _ _ _ _ T)) as [Hpl _].
  split.
  - apply T.
  - rewrite Hc, Hcount, length_app. cbn. lia.
  - rewrite Hsr, !length_app. cbn [length]. lia.
  - rewrite Heq. apply Forall_app. split; [|by constructor].
    eapply Forall_impl; [exact Hprev|]. cbn. lia.
  - apply StronglySorted_app. split_and!; [|done|repeat constructor].
    intros x y Hx ->%list_elem_of_singleton. rewrite Forall_forall in Hprev. specialize (Hprev x Hx). lia.
  - rewrite length_app. cbn. lia.
  - intros i x [Hi|[Hle Hi]]%lookup_app_Some.
    + destruct (Hst i x Hi) as (p' & row' & prov' & S). exists p', row', prov'.
      apply (stored_extends st); [apply T|done].
    + apply list_lookup_singleton_Some in Hi as [Hi0 <-]. exists p, row, prov.
      eapply turn_stored; [exact T|]. rewrite Hrows. f_equal. lia.
Qed.

Lemma prepare_rows_written records : ∀ n st st' done_,
  Written st done_ →
  prepare_rows float_repr json_loads cancellation_check pair_tuple pair_index max_rows max_total_bytes
    numeric_projection n records st = Ok st' →
  Written st' (done_ ++ records).
Proof.
  induction records as [|r records IH]; intros n st st' done_ W H; cbn in H; inv_ok.
  { by rewrite app_nil_r. }
  rename select (prepare_row _ _ _ _ _ _ _ _ _ _ _ = _) into Hr.
  eapply prepare_row_written in Hr; [|done]. rewrite (cons_middle r), (assoc_L (++)).
  by eapply IH.
Qed.
End written.

(** The whole of [prepare_exact_view]. *)
Lemma prepared_written fr jl cb records exhausted ps max_rows max_bytes numeric st :
  prepare_exact_view fr jl cb records exhausted ps max_rows max_bytes numeric = Ok st →
  Written fr jl ps max_rows max_bytes st records.
Proof.
  unfold prepare_exact_view. intros H. inv_ok. rename select (prepare_rows _ _ _ _ _ _ _ _ _ _ _ = _) into Hr.
  by apply (prepare_rows_written _ _ _ _ _ _ _ _ _ _ _ _ [] (written_start _ _ _ _ _)) in Hr.
Qed.

(** ** Reading the written rows *)

Lemma utf8_length text data : utf8_encode text = Some data → (length text <= length data)%nat.
Proof.
  unfold utf8_encode. intros H. case_match; [|done]. injection H as <-. rewrite length_fmap. clear.
  induction text as [|c text IH]; [done|]. csimpl. rewrite length_app.
  assert (1 <= length (utf8_units c))%nat; [|lia]. unfold utf8_units. repeat case_match; cbn; lia.
Qed.

(** The text of an object has its two braces. *)
Lemma provenance_length float_repr json_loads source data :
  _provenance float_repr json_loads source = Ok data → 2 <= zlen data.
Proof.
  intros H. unfold _provenance in H. inv_ok. rename select (_object _ _ _ _ = _) into Ho.
  rename select (_canonical_json _ _ = _) into Hc. rename select (encode_text _ = _) into He.
  unfold _object in Ho. repeat (case_match; try done). inv_ok. cbn in Hc.
  destruct (_ : option (list (pystr * pystr))) as [parts|]; [|done]. injection Hc as <-.
  unfold encode_text in He. inv_ok. apply utf8_length in He.
  cbn [app length] in He. rewrite length_app in He. cbn in He. lia.
Qed.

Lemma dtype_code_back dtype code :
  dget dtype DTYPE_CODE = Some code → dget code CODE_DTYPE = Some dtype.
Proof.
  unfold DTYPE_CODE. cbn. intros H. repeat (case_decide; [by injection H as <-; subst|]). done.
Qed.

(** What a validated record is. *)
Lemma validated_record float_repr json_loads r p provenance :
  _validate_record float_repr json_loads r p = Ok provenance →
  record_matches r p = true ∧ 1 <= ref_id r ∧ 1 <= dimensions r <= MAX_DIMENSIONS ∧
  _validate_payload (vector_blob r) (dimensions r) (vector_dtype r) true = Ok tt ∧
  2 <= zlen provenance.
Proof.
  intros H. unfold _validate_record in H. inv_ok. bool_prop.
  rename select (_provenance _ _ _ = _) into Hp. apply provenance_length in Hp.
  by repeat match goal with x : unit |- _ => destruct x end.
Qed.

Lemma validate_payload_weaken payload dims dtype :
  _validate_payload payload dims dtype true = Ok tt → _validate_payload payload dims dtype false = Ok tt.
Proof. unfold _validate_payload. intros H. inv_ok.
  by repeat match goal with H : ?b = false |- context [?b] => rewrite H end.
Qed.

(** The candidate of a stored record. *)
Definition stored_candidate (r : VectorRecord) (row : WireRow) : Candidate :=
  {| c_ref_id := ref_id r; c_entity_id := entity_id r; c_item_id := item_id r;
     c_pair_index := w_pair_index row; c_vector_dtype := vector_dtype r;
     c_dimensions := dimensions r; c_vector_offset := w_vector_offset row;
     c_vector_length := w_vector_length row; c_metadata_offset := w_metadata_offset row;
     c_metadata_length := w_metadata_length row; c_owner_row_binding := owner_row_binding r;
     c_score := float_zero |}.

(** A candidate is read from the parts of its row. *)
Lemma candidate_of_parts float_repr json_loads ps identity metadata_size index r p row provenance ident :
  ps !! Z.to_nat (w_pair_index row) = Some p →
  _validate_record float_repr json_loads r p = Ok provenance →
  _encode_identity r = Ok ident → zlen ident = w_identity_length row →
  holds_at identity (w_identity_offset row) ident →
  0 <= w_metadata_offset row → w_metadata_length row = zlen provenance →
  w_metadata_offset row + w_metadata_length row <= metadata_size →
  0 <= w_vector_offset row → 0 <= w_vector_length row →
  w_ref_id row = ref_id r → w_dimensions row = dimensions r →
  dget (entity_kind r) ENTITY_CODE = Some (w_entity_code row) →
  dget (vector_dtype r) DTYPE_CODE = Some (w_dtype_code row) →
  _candidate row identity metadata_size ps index = Ok (stored_candidate r row).
Proof.
  intros Hpair Hvalid He Hil Hh Hmo Hml Hmb Hvo Hvl Href Hdim Hent Hdt.
  apply validated_record in Hvalid as (Hm & _ & Hd & _ & Hpl). unfold record_matches in Hm. bool_prop.
  apply holds_at_bounds in Hh as Hib. pose proof (identity_length _ _ He) as Hi24.
  unfold _candidate. rewrite Hpair, (dtype_code_back _ _ Hdt), Hdim.
  replace (pair_entity_kind p) with (entity_kind r) by done. rewrite Hent.
  rewrite bool_decide_eq_false_2 by (intros Hne; by apply Hne).
  repeat match goal with
  | |- context [?a <? ?b] => destruct (Z.ltb_spec a b); [lia|]
  | |- context [?a <=? ?b] => destruct (Z.leb_spec a b); [|lia]
  end. cbn [orb andb negb raise_if mbind result_bind].
  rewrite <- Hil, (identity_roundtrip _ _ r ident) by done. cbn.
  rewrite bool_decide_eq_false_2 by (intros Hne; apply Hne; congruence). cbn.
  unfold stored_candidate. congruence.
Qed.

Section stored.
Context {float_repr : pyfloat → pystr} {json_loads : pystr → option json}
  {pair_tuple : list PublishedPair} {st : PrepareState} {i : nat} {r : VectorRecord}
  {p : PublishedPair} {row : WireRow} {provenance : list byte}.
Hypothesis S : Stored float_repr json_loads pair_tuple st i r p row provenance.

Lemma read_row : _row (stream (rows_writer st)) (Z.of_nat i) = Ok row.
Proof.
  destruct S as [_ _ (data & Hp & Hh) _ _ _ _ _ _ _ _ _].
  eapply row_roundtrip; [lia|exact Hp|exact Hh].
Qed.

Lemma read_candidate :
  _candidate row (stream (identity_writer st)) (zlen (stream (metadata_writer st))) pair_tuple
    (Z.of_nat i) = Ok (stored_candidate r row).
Proof.
  destruct S as [Hpair Hvalid _ (ident & He & Hil & Hh) Hmeta Hml Hvec Hvl Href Hdim Hent Hdt _].
  apply holds_at_bounds in Hmeta as Hmb. apply holds_at_bounds in Hvec as Hvb.
  eapply candidate_of_parts; try done; lia.
Qed.

Lemma read_vector :
  _vector_bytes (segment st (vector_dtype r)) (stored_candidate r row) = Ok (vector_blob r).
Proof.
  destruct S as [Hpair Hvalid _ _ _ _ Hvec Hvl _ _ _ _ _].
  apply validated_record in Hvalid as (_ & _ & _ & Hpay & _).
  apply holds_at_bounds in Hvec as Hvb. unfold _vector_bytes. cbn. rewrite Hvl.
  destruct (Z.ltb_spec (zlen (segment st (vector_dtype r))) (w_vector_offset row + zlen (vector_blob r))); [lia|].
  cbn. rewrite holds_at_slice by done. by rewrite (validate_payload_weaken _ _ _ Hpay).
Qed.

Lemma read_metadata :
  slice (stream (metadata_writer st)) (w_metadata_offset row) (w_metadata_length row) = provenance.
Proof. destruct S as [_ _ _ _ Hmeta -> _ _ _ _ _ _ _]. by apply holds_at_slice. Qed.
End stored.
