(* ===== verification/VectorQuery.v ===== *)
(** * The exact vector index: scoring and querying a validated view

    [query_exact_view] of [semantic/semantic_exact_index_format.py] on the scalar
    or batched scorer: the checks of the query, the scan of the rows under a
    budget, the batches, the retention and the page.  The fences of the view, its
    mapped files and NumPy are parameters; the projected numeric query and the
    export of the target diagnostics are not modelled. *)

From S2P Require Import Prelude PyOrder KnowledgeContracts Utf8 HeapQ VectorRetain VectorFormat.

#[global] Open Scope Z_scope.

Definition MAX_QUERY_VECTORS : Z := 10000000.
Definition MAX_QUERY_LIMIT : Z := 10000.
Definition MAX_DIAGNOSTIC_ITEMS : Z := 20.

(** ** Floats *)

(** [a / b] and [math.sqrt(a)] *)
Definition float_div (a b : pyfloat) : result vector_error pyfloat :=
  raise_if (match b with S754_zero _ => true | _ => false end) FloatZeroDivisionError;;
  Ok (fdiv a b).

Definition math_sqrt (a : pyfloat) : result vector_error pyfloat :=
  raise_if (SFltb a float_zero) (vector_value "math domain error");;
  Ok (SFsqrt 53 1024 a).

Definition float_one : pyfloat := float_of_int 1.

(** [max(-1.0, min(1.0, score))] *)
Definition clamp_score (score : pyfloat) : pyfloat :=
  let low := if SFltb score float_one then score else float_one in
  if SFltb (SFopp float_one) low then low else SFopp float_one.

(** ** The query *)

Record ExactQuery : Type := {
  query_model_signature : pystr;
  q_vector_space : pystr;
  q_dimensions : Z;
  q_vector : list pyfloat;
  q_target_modality : pystr;
  q_indexed_model_signatures : list pystr
}.

(** [_query_vector]: the vector divided by its norm. *)
Definition _query_vector (q : ExactQuery) : result vector_error (list pyfloat) :=
  raise_if (blank (query_model_signature q) || blank (q_vector_space q) ||
            bool_decide (q_target_modality q ∉ [py "text"; py "image"]))
    (vector_value "query contract is invalid");;
  raise_if (negb ((1 <=? q_dimensions q) && (q_dimensions q <=? MAX_DIMENSIONS)))
    (vector_value "dimensions must be between 1 and 65536");;
  raise_if (bool_decide (zlen (q_vector q) ≠ q_dimensions q) || negb (all_finite (q_vector q)))
    (vector_value "query vector is invalid");;
  norm_squared ← dot (q_vector q) (q_vector q);
  raise_if (negb (is_finite norm_squared) || SFleb norm_squared float_zero)
    (vector_value "query vector must have finite non-zero norm");;
  norm ← math_sqrt norm_squared;
  map_result (λ v, float_div v norm) (q_vector q).

(** [_bounds] *)
Definition _bounds (limit max_vectors after_ref_id batch_size : Z) (diagnostic_item_ids : list pystr) :
    result vector_error (list pystr) :=
  raise_if (negb ((1 <=? limit) && (limit <=? MAX_QUERY_LIMIT)))
    (vector_value "limit must be between 1 and 10000");;
  raise_if (negb ((1 <=? max_vectors) && (max_vectors <=? MAX_QUERY_VECTORS)))
    (vector_value "max_vectors must be between 1 and 10000000");;
  raise_if (after_ref_id <? 0) (vector_value "after_ref_id cannot be negative");;
  raise_if (negb ((1 <=? batch_size) && (batch_size <=? MAX_QUERY_LIMIT)))
    (vector_value "batch_size must be between 1 and 10000");;
  let selected := (foldl (λ d v, dset v tt d) [] diagnostic_item_ids).*1 in
  raise_if ((MAX_DIAGNOSTIC_ITEMS <? zlen selected) ||
            existsb (λ v, blank v || (512 <? zlen v)) selected)
    (vector_value "diagnostic_item_ids are not bounded");;
  Ok selected.

(** ** Scoring *)

(** [_scalar_score]: the cosine of the query and of a payload. *)
Definition _scalar_score (query_vector : list pyfloat) (payload : list byte) (dims : Z)
    (dtype : pystr) : result vector_error pyfloat :=
  _validate_payload payload dims dtype true;;
  let values := unpack_numbers (Z.to_nat dims) dtype payload in
  left_squared ← dot query_vector query_vector;
  left_norm ← math_sqrt left_squared;
  right_squared ← dot values values;
  right_norm ← math_sqrt right_squared;
  raise_if (bool_decide (length query_vector ≠ length values))
    (vector_value "zip() argument 2 is shorter than argument 1");;
  numerator ← dot query_vector values;
  score ← float_div numerator (fmul left_norm right_norm);
  raise_if (negb (is_finite score)) (fallback "cosine score is not finite" "row_score");;
  Ok (clamp_score score).

(** What the scorer uses of NumPy: a row of a matrix from bytes, the norm of a
    vector, the norms of the rows, and [(matrix @ query) / (norms * query_norm)]. *)
Record Numpy : Type := {
  np_frombuffer : pystr → Z → list byte → list pyfloat;
  np_norm : list pyfloat → pyfloat;
  np_row_norms : list (list pyfloat) → list pyfloat;
  np_cosines : list (list pyfloat) → list pyfloat → list pyfloat → pyfloat → list pyfloat
}.

Section scoring.
Variables (numpy : option Numpy) (cancellation_check : vector_callback)
  (vector_maps : pystr → option (list byte)) (query_vector : list pyfloat) (dims : Z).

(** The payload of a candidate, once its dimensions and its segment are checked. *)
Definition candidate_payload (done_ : nat) (index : nat) (c : Candidate) :
    result vector_error (list byte) :=
  (if decide (Z.of_nat index mod 128 = 0)
   then vector_checkpoint cancellation_check (AtScore done_ index) else Ok tt);;
  match vector_maps (c_vector_dtype c) with
  | Some mapping =>
      raise_if (bool_decide (c_dimensions c ≠ dims))
        (fallback "vector dimensions/segment invalid" "row_payload");;
      _vector_bytes mapping c
  | None => Err (fallback "vector dimensions/segment invalid" "row_payload")
  end.

(** The loop of [_score] without NumPy or below eight candidates. *)
Fixpoint scalar_scores (done_ index : nat) (cs : list Candidate) : result vector_error (list Candidate) :=
  match cs with
  | [] => Ok []
  | c :: cs' =>
      payload ← candidate_payload done_ index c;
      score ← _scalar_score query_vector payload dims (c_vector_dtype c);
      rest ← scalar_scores done_ (S index) cs';
      Ok (scored c score :: rest)
  end.

(** The positions of the candidates by dtype, in the order they are met. *)
Fixpoint dtype_positions (done_ index : nat) (cs : list Candidate) (positions : list (pystr * list nat)) :
    result vector_error (list (pystr * list nat)) :=
  match cs with
  | [] => Ok positions
  | c :: cs' =>
      payload ← candidate_payload done_ index c;
      _validate_payload payload dims (c_vector_dtype c) false;;
      let '(indices, positions') := setdefault (c_vector_dtype c) [] positions in
      dtype_positions done_ (S index) cs' (dset (c_vector_dtype c) (indices ++ [index]) positions')
  end.

(** The scores of the candidates of one dtype, put at their positions. *)
Definition batch_scores (np : Numpy) (query_norm : pyfloat) (cs : list Candidate) (dtype : pystr)
    (indices : list nat) (scores : list (option pyfloat)) : result vector_error (list (option pyfloat)) :=
  mapping ← or_raise (vector_maps dtype) (fallback "vector dtype segment is unavailable" "row_payload");
  matrix ← map_result (λ i,
      c ← or_raise (cs !! i) MissingKeyError;
      payload ← _vector_bytes mapping c;
      Ok (np_frombuffer np dtype dims payload)) indices;
  raise_if (negb (forallb all_finite matrix))
    (fallback "vector matrix contains non-finite values" "row_score");;
  let norms := np_row_norms np matrix in
  raise_if (negb (all_finite norms) || existsb (λ n, SFleb n float_zero) norms)
    (fallback "vector matrix contains invalid norm" "row_score");;
  let cosines := np_cosines np matrix query_vector norms query_norm in
  raise_if (negb (all_finite cosines)) (fallback "cosine score is not finite" "row_score");;
  raise_if (bool_decide (length indices ≠ length cosines))
    (vector_value "zip() argument 2 is shorter than argument 1");;
  Ok (foldl (λ s p, <[p.1 := Some (clamp_score p.2)]> s) scores (zip indices cosines)).

(** [_score] *)
Definition _score (done_ : nat) (cs : list Candidate) : result vector_error (list Candidate) :=
  match numpy with
  | Some np =>
      if (length cs <? 8)%nat then scalar_scores done_ 0 cs
      else
        let query_norm := np_norm np query_vector in
        raise_if (negb (is_finite query_norm) || SFleb query_norm float_zero)
          (fallback "query norm is not finite" "row_score");;
        positions ← dtype_positions done_ 0 cs [];
        scores ← foldl (λ r p, scores ← r; batch_scores np query_norm cs p.1 p.2 scores)
                   (Ok (replicate (length cs) None)) positions;
        raise_if (existsb (λ s : option pyfloat, negb (bool_decide (is_Some s))) scores)
          (fallback "scorer omitted a row" "row_score");;
        Ok (zip_with (λ c s, scored c (default float_zero s)) cs scores)
  | None => scalar_scores done_ 0 cs
  end.
End scoring.

Definition candidate_order (c : Candidate) (p : PublishedPair) : ExactSearchOrder :=
  exact_search_order (c_score c) (c_item_id c) (c_entity_id c) (pair_model_signature p) (c_ref_id c).

(** [_TargetDiagnostics.observe] of a candidate and its pair. *)
Definition observed : Type := Candidate * PublishedPair.
Definition observe_candidate (c : Candidate) (p : PublishedPair) (t : TargetDiagnostics observed) :
    TargetDiagnostics observed :=
  observe (λ h, c_item_id h.1) (λ h, c_entity_id h.1) (λ h, pair_model_signature h.2)
    (λ h, candidate_order h.1 h.2) (c, p) t.

(** ** Retention of a candidate *)

(** The entry [(heap key, ref_id, serial, key, candidate)]. *)
Record derived_entry : Type := {
  d_order : ExactSearchOrder;
  d_ref_id : Z;
  d_serial : Z;
  d_key : hit_key;
  d_candidate : Candidate
}.

#[export] Instance derived_entry_eq_dec : EqDecision derived_entry.
Proof. solve_decision. Defined.

(** The comparison of two entries: the serials of a query are all different, what
    follows them is not compared. *)
Definition cmp_derived (x y : derived_entry) : comparison :=
  lex cmp_heap_key (lex Z.compare Z.compare)
    (d_order x, (d_ref_id x, d_serial x)) (d_order y, (d_ref_id y, d_serial y)).

#[export] Instance cmp_derived_total : TotalOrder cmp_derived.
Proof.
  by apply (order_on (λ x, (d_order x, (d_ref_id x, d_serial x)))
              (lex cmp_heap_key (lex Z.compare Z.compare)) _ _).
Qed.

Definition derived_retained : Type := retained derived_entry.

Definition candidate_entry (c : Candidate) (p : PublishedPair) (key : hit_key) (serial : Z) :
    derived_entry :=
  {| d_order := candidate_order c p; d_ref_id := c_ref_id c; d_serial := serial; d_key := key;
     d_candidate := c |}.

(** [_retain] *)
Definition _retain (c : Candidate) (p : PublishedPair) (key : hit_key) (limit serial : Z)
    (st : derived_retained) : result vector_error derived_retained :=
  retain cmp_derived d_order d_key (fallback "retention heap empty" "retention") limit
    (candidate_entry c p key serial) st.

(** ** Hits *)

Record DerivedHit : Type := {
  h_ref_id : Z;
  h_entity_id : pystr;
  h_item_id : pystr;
  h_indexed_model_signature : pystr;
  h_vector_space : pystr;
  h_modality : pystr;
  h_score : pyfloat;
  h_generation_id : Z;
  h_provenance : json;
  h_query_model_signature : pystr;
  h_handoff : list (pystr * json)
}.

Record DerivedSearchPage : Type := {
  hits : list DerivedHit;
  scanned : Z;
  next_cursor : option Z;
  complete : bool
}.

Definition empty_page : DerivedSearchPage :=
  {| hits := []; scanned := 0; next_cursor := None; complete := true |}.

Section hits.
Variables (float_repr : pyfloat → pystr) (json_loads : pystr → option json).

(** [_provenance_from] *)
Definition _provenance_from (metadata : list byte) (c : Candidate) : result vector_error json :=
  let raw := slice metadata (c_metadata_offset c) (c_metadata_length c) in
  value ← or_raise (utf8_decode raw ≫= json_loads)
            (fallback "winner provenance JSON invalid" "winner_provenance");
  _object float_repr json_loads value "winner provenance".

(** [_hit] *)
Definition _hit (c : Candidate) (p : PublishedPair) (q : ExactQuery) (metadata : list byte)
    (hydrate : bool) : result vector_error DerivedHit :=
  provenance ← (if hydrate then _provenance_from metadata c else Ok (JObject []));
  key ← pair_key float_repr (pair_model_signature p) (pair_generation_id p);
  Ok {| h_ref_id := c_ref_id c; h_entity_id := c_entity_id c; h_item_id := c_item_id c;
        h_indexed_model_signature := pair_model_signature p; h_vector_space := pair_vector_space p;
        h_modality := pair_modality p; h_score := c_score c;
        h_generation_id := pair_generation_id p; h_provenance := provenance;
        h_query_model_signature := query_model_signature q;
        h_handoff := [(py "owner", JStr (py "semantic"));
                      (py "owner_row_binding", JStr (c_owner_row_binding c));
                      (py "ref_id", JInt (c_ref_id c)); (py "pair_key", JStr key);
                      (py "generation_id", JInt (pair_generation_id p));
                      (py "model_signature", JStr (pair_model_signature p));
                      (py "locator_status", JStr (py "owner_hydration_required"))] |}.
End hits.

(** ** The query of a view *)

(** A validated view: its pairs and row count, and its mapped files; [None] is an
    empty file. *)
Record View : Type := {
  pairs : list PublishedPair;
  row_count : nat;
  rows_map : option (list byte);
  identity_map : option (list byte);
  metadata_map : option (list byte);
  f16_map : option (list byte);
  f32_map : option (list byte)
}.

Definition vector_map (v : View) (dtype : pystr) : option (list byte) :=
  if bool_decide (dtype = py "float16") then f16_map v
  else if bool_decide (dtype = py "float32") then f32_map v else None.

(** The locals of the scan. *)
Record ScanState : Type := {
  kept : derived_retained;
  scored_count : Z;
  serial : Z;
  target : option (TargetDiagnostics observed);
  batch : list Candidate;
  has_more : bool;
  last_ref : Z
}.

Section query.
Variables (numpy : option Numpy) (cancellation_check : vector_callback) (view : View)
  (query_vector : list pyfloat) (q : ExactQuery).
Variables (limit max_vectors after_ref_id batch_size : Z) (text_scope : pystr) (evidence_mode : bool).
Variables (signatures : list (pystr * Z)) (selected_pairs : list nat).
Variables (identity metadata rows : list byte).

(** One scored candidate of [score_and_retain]. *)
Definition retain_scored (c : Candidate) (st : ScanState) : result vector_error ScanState :=
  p ← or_raise (pairs view !! Z.to_nat (c_pair_index c)) MissingKeyError;
  kept' ← _retain c p (key_of evidence_mode (c_item_id c) (c_entity_id c)) limit (serial st) (kept st);
  Ok {| kept := kept'; scored_count := scored_count st; serial := serial st + 1;
        target := observe_candidate c p <$> target st; batch := batch st; has_more := has_more st;
        last_ref := last_ref st |}.

(** [score_and_retain(batch)] and [batch.clear()] *)
Definition score_and_retain (st : ScanState) : result vector_error ScanState :=
  scored_ ← _score numpy cancellation_check (vector_map view) query_vector (q_dimensions q)
              (Z.to_nat (scored_count st)) (batch st);
  st' ← foldl (λ r c, st ← r; retain_scored c st) (Ok st) scored_;
  Ok {| kept := kept st'; scored_count := scored_count st' + zlen scored_; serial := serial st';
        target := target st'; batch := []; has_more := has_more st'; last_ref := last_ref st' |}.

(** [if scored_count + len(batch) >= max_vectors] *)
Definition budget_spent (st : ScanState) : bool :=
  max_vectors <=? scored_count st + zlen (batch st).

Definition stop_scan (st : ScanState) : ScanState :=
  {| kept := kept st; scored_count := scored_count st; serial := serial st; target := target st;
     batch := batch st; has_more := true; last_ref := last_ref st |}.

(** [batch.append(candidate); last_ref = candidate.ref_id] *)
Definition append_candidate (c : Candidate) (st : ScanState) : ScanState :=
  {| kept := kept st; scored_count := scored_count st; serial := serial st; target := target st;
     batch := batch st ++ [c]; has_more := has_more st; last_ref := c_ref_id c |}.

(** [for _copy in range(copies)] *)
Fixpoint add_copies (copies : nat) (c : Candidate) (st : ScanState) : result vector_error ScanState :=
  match copies with
  | O => Ok st
  | S copies' =>
      if budget_spent st then Ok (stop_scan st)
      else
        let st1 := append_candidate c st in
        st2 ← (if batch_size <=? zlen (batch st1) then score_and_retain st1 else Ok st1);
        add_copies copies' c st2
  end.

(** The rows the query does not see. *)
Definition row_skipped (row : WireRow) : bool :=
  (w_ref_id row <=? after_ref_id) || bool_decide (Z.to_nat (w_pair_index row) ∉ selected_pairs) ||
  (bool_decide (text_scope = py "content") && bool_decide (Some (w_scope row) = dget (py "title") SCOPE_CODE)) ||
  (bool_decide (text_scope = py "title") && bool_decide (Some (w_scope row) ≠ dget (py "title") SCOPE_CODE)).

(** [for index in range(view.row_count)]: [n] rows are left from [index] on. *)
Fixpoint scan_rows (n index : nat) (st : ScanState) : result vector_error ScanState :=
  match n with
  | O => Ok st
  | S n' =>
      (if decide (Z.of_nat index mod 128 = 0)
       then vector_checkpoint cancellation_check (AtRow index) else Ok tt);;
      row ← _row rows (Z.of_nat index);
      if row_skipped row then scan_rows n' (S index) st
      else
        raw_pair ← or_raise (pairs view !! Z.to_nat (w_pair_index row)) MissingKeyError;
        let copies := default 1 (dget (pair_model_signature raw_pair) signatures) in
        if budget_spent st then Ok (stop_scan st)
        else
          c ← _candidate row identity (zlen metadata) (pairs view) (Z.of_nat index);
          st' ← add_copies (Z.to_nat copies) c st;
          if has_more st' then Ok st' else scan_rows n' (S index) st'
  end.
End query.

(** [{value: count}] of the requested signatures, a blank one raises. *)
Definition signature_counts (values : list pystr) : result vector_error (list (pystr * Z)) :=
  foldl (λ r v,
      d ← r;
      raise_if (blank v) (vector_value "indexed_model_signatures contain blank");;
      Ok (dset v (default 0 (dget v d) + 1) d)) (Ok []) values.

(** A pair the query can be compared with. *)
Definition pair_compatible (q : ExactQuery) (signatures : list (pystr * Z)) (p : PublishedPair) : bool :=
  bool_decide (pair_modality p = q_target_modality q) &&
  bool_decide (pair_vector_space p = q_vector_space q) &&
  (bool_decide (signatures = []) || bool_decide (dget (pair_model_signature p) signatures ≠ None)).

(** [selected_pairs] *)
Definition compatible_pairs (q : ExactQuery) (signatures : list (pystr * Z)) (ps : list PublishedPair) :
    list nat :=
  filter (λ i, from_option (pair_compatible q signatures) false (ps !! i) = true) (seq 0 (length ps)).

(** What a query of a view depends on besides its arguments: the text of floats,
    the JSON parser, NumPy, the callback, the fences of the view before the query,
    around the mapped files and after them. *)
Record Runtime : Type := {
  float_repr : pyfloat → pystr;
  json_loads : pystr → option json;
  numpy : option Numpy;
  cancellation_check : vector_callback;
  live_fence : result vector_error unit;
  mapped_fence : result vector_error unit;
  final_fence : result vector_error unit
}.

(** The page of the retained hits. *)
Definition derived_page (rt : Runtime) (v : View) (q : ExactQuery) (metadata : list byte)
    (hydrate : bool) (st : ScanState) : result vector_error DerivedSearchPage :=
  hits_ ← map_result (λ e,
      p ← or_raise (pairs v !! Z.to_nat (c_pair_index (d_candidate e))) MissingKeyError;
      _hit (float_repr rt) (json_loads rt) (d_candidate e) p q metadata hydrate)
    (ordered_hits d_order (kept st));
  Ok {| hits := hits_; scanned := scored_count st;
        next_cursor := if has_more st then Some (last_ref st) else None;
        complete := negb (has_more st) |}.

Definition scan_start (after_ref_id : Z) (selected : list pystr) (evidence_mode : bool) : ScanState :=
  {| kept := nothing_retained; scored_count := 0; serial := 0;
     target := if bool_decide (selected = []) then None else Some (new_targets selected evidence_mode);
     batch := []; has_more := false; last_ref := after_ref_id |}.

(** [query_exact_view] with [numeric=False]: the page and the target diagnostics. *)
Definition query_exact_view (rt : Runtime) (v : View) (q : ExactQuery)
    (limit max_vectors after_ref_id batch_size : Z) (text_scope : pystr) (evidence_mode : bool)
    (diagnostic_item_ids : list pystr) (hydrate : bool) :
    result vector_error (DerivedSearchPage * option (TargetDiagnostics observed)) :=
  raise_if (bool_decide (dget text_scope SCOPE_CODE = None) ||
            (bool_decide (q_target_modality q = py "image") && bool_decide (text_scope ≠ py "all")))
    (vector_value "query scope/evidence contract is invalid");;
  selected ← _bounds limit max_vectors after_ref_id batch_size diagnostic_item_ids;
  vector_checkpoint (cancellation_check rt) AtStart;;
  query_vector ← _query_vector q;
  live_fence rt;;
  signatures ← signature_counts (q_indexed_model_signatures q);
  raise_if (existsb (λ s, negb (existsb (λ p, bool_decide (s = pair_model_signature p)) (pairs v)))
              signatures.*1) (fallback "requested indexed model is absent" "query_model_binding");;
  let selected_pairs := compatible_pairs q signatures (pairs v) in
  raise_if (bool_decide (selected_pairs = []) && bool_decide (q_indexed_model_signatures q ≠ []))
    (fallback "no compatible selected pair" "query_model_binding");;
  if bool_decide (selected_pairs = []) || (row_count v =? 0)%nat then Ok (empty_page, None)
  else
    mapped_fence rt;;
    match rows_map v, identity_map v, metadata_map v with
    | Some rows, Some identity, Some metadata =>
        st ← scan_rows (numpy rt) (cancellation_check rt) v query_vector q limit max_vectors
               after_ref_id batch_size text_scope evidence_mode signatures selected_pairs identity
               metadata rows (row_count v) 0 (scan_start after_ref_id selected evidence_mode);
        st' ← score_and_retain (numpy rt) (cancellation_check rt) v query_vector q limit evidence_mode st;
        page ← derived_page rt v q metadata hydrate st';
        final_fence rt;;
        Ok (page, target st')
    | _, _, _ => Err (fallback "non-empty view segment absent" "query_artifact")
    end.
