(* ===== verification/VectorQueryLaws.v ===== *)
(** * The laws of the query of a view

    [Absorbed]: what the scan has made of the candidates it was given, scored or
    still in the batch.  A scan of readable rows absorbs the candidates of the
    visible ones, up to the budget. *)

From S2P Require Import Prelude PyOrder KnowledgeContracts Utf8 HeapQ VectorRetain VectorRetainLaws VectorFormat VectorQuery.

#[global] Open Scope Z_scope.

(** ** The entries of a query *)

Lemma derived_surfaces x y : cmp_order (d_order x) (d_order y) = Lt → cmp_derived y x = Lt.
Proof. intros H. unfold cmp_derived, lex, cmp_heap_key. cbn. by rewrite H. Qed.

Definition no_pair : PublishedPair :=
  {| pair_model_signature := []; pair_generation_id := 0; pair_processing_signature := [];
     pair_vector_space := []; pair_modality := []; pair_entity_kind := []; pair_status := [] |}.

Section scan.
Variables (numpy : option Numpy) (cancellation_check : vector_callback) (view : View)
  (query_vector : list pyfloat) (q : ExactQuery).
Variables (limit max_vectors after_ref_id batch_size : Z) (text_scope : pystr) (evidence_mode : bool).
Variables (signatures : list (pystr * Z)) (selected_pairs : list nat).
Variables (identity metadata rows : list byte).

(** The scores, and the candidates that can be scored. *)
Variables (score : Candidate → pyfloat) (good : Candidate → Prop).
Hypothesis positive_limit : 0 < limit.
Hypothesis quiet : ∀ s, vector_checkpoint cancellation_check s = Ok tt.
Hypothesis scores : ∀ done_ cs, Forall good cs →
  _score numpy cancellation_check (vector_map view) query_vector (q_dimensions q) done_ cs =
    Ok ((λ c, scored c (score c)) <$> cs).
Hypothesis paired : ∀ c, good c → is_Some (pairs view !! Z.to_nat (c_pair_index c)).

Definition pair_of (c : Candidate) : PublishedPair :=
  default no_pair (pairs view !! Z.to_nat (c_pair_index c)).

(** The entry of a candidate that was scored as the [i]-th. *)
Definition scored_entry (i : Z) (c : Candidate) : derived_entry :=
  candidate_entry (scored c (score c)) (pair_of c) (key_of evidence_mode (c_item_id c) (c_entity_id c)) i.

Fixpoint entries_from (i : Z) (cs : list Candidate) : list derived_entry :=
  match cs with
  | [] => []
  | c :: cs' => scored_entry i c :: entries_from (i + 1) cs'
  end.

Lemma entries_app cs cs' : ∀ i,
  entries_from i (cs ++ cs') = entries_from i cs ++ entries_from (i + zlen cs) cs'.
Proof.
  induction cs as [|c cs IH]; intros i; cbn; [by rewrite Z.add_0_r|]. rewrite IH.
  do 3 f_equal. lia.
Qed.

(** An entry of this query: its order and key are those of its candidate. *)
Definition entry_ok (e : derived_entry) : Prop := ∃ i c, e = scored_entry i c.

Lemma entries_ok cs : ∀ i, Forall entry_ok (entries_from i cs).
Proof. induction cs as [|c cs IH]; intros i; constructor; [by eexists _, _|apply IH]. Qed.

Lemma entries_tell_keys x y : entry_ok x → entry_ok y →
  cmp_order (d_order x) (d_order y) = Eq → d_key x = d_key y.
Proof. intros (i & c & ->) (j & c' & ->). cbn. apply order_tells_keys. Qed.

Abbreviation retains := (Retains cmp_derived d_order d_key entry_ok limit).
Abbreviation reps_of cs := (representatives d_order d_key (entries_from 0 cs)).

(** ** What the scan has absorbed *)

(** Of the candidates [cs], those before the batch are scored and retained. *)
Record Absorbed (b : bool) (cs : list Candidate) (st : ScanState) : Prop := {
  ab_good : Forall good cs;
  ab_split : ∃ done_, cs = done_ ++ batch st ∧ scored_count st = zlen done_ ∧
             serial st = zlen done_ ∧ retains (reps_of done_) (kept st);
  ab_more : has_more st = b;
  ab_last : last_ref st = default after_ref_id (c_ref_id <$> last cs)
}.

Lemma retain_scored_ok c st done_ :
  good c → serial st = zlen done_ → retains (reps_of done_) (kept st) →
  ∃ kept', retain_scored view limit evidence_mode (scored c (score c)) st =
    Ok {| kept := kept'; scored_count := scored_count st; serial := serial st + 1;
          target := observe_candidate (scored c (score c)) (pair_of c) <$> target st; batch := batch st;
          has_more := has_more st; last_ref := last_ref st |} ∧
    retains (reps_of (done_ ++ [c])) kept'.
Proof.
  intros Hc Hs R. unfold retain_scored. cbn [c_pair_index scored].
  destruct (paired c Hc) as [p Hp]. rewrite Hp. cbn [or_raise mbind result_bind].
  destruct (retain_retains cmp_derived d_order d_key derived_surfaces entry_ok entries_tell_keys
              (fallback "retention heap empty" "retention") limit _ (kept st)
              (scored_entry (serial st) c) positive_limit ltac:(by eexists _, _) R) as (kept' & Hk & R' & _).
  assert (pair_of c = p) as Hpc by (unfold pair_of; by rewrite Hp).
  unfold _retain. unfold scored_entry in Hk. rewrite Hpc in Hk |- *. cbn [c_item_id c_entity_id scored].
  rewrite Hk. eexists. split; [done|].
  rewrite entries_app. cbn [entries_from]. rewrite representatives_snoc, Z.add_0_l, <- Hs. exact R'.
Qed.

(** The state a batch leaves. *)
Definition scored_state (st : ScanState) (kept' : derived_retained) (done_ : list Candidate)
    (target' : option (TargetDiagnostics observed)) : ScanState :=
  {| kept := kept'; scored_count := scored_count st; serial := serial st + zlen done_;
     target := target'; batch := batch st; has_more := has_more st; last_ref := last_ref st |}.

Lemma retain_batch_ok cs : ∀ st done_,
  Forall good cs → serial st = zlen done_ → retains (reps_of done_) (kept st) →
  ∃ kept' target', foldl (λ r c, st ← r; retain_scored view limit evidence_mode c st) (Ok st)
      ((λ c, scored c (score c)) <$> cs) = Ok (scored_state st kept' cs target') ∧
    retains (reps_of (done_ ++ cs)) kept'.
Proof.
  induction cs as [|c cs IH]; intros st done_ Hgood Hs R.
  { exists (kept st), (target st). rewrite app_nil_r. split; [|done]. cbn. unfold scored_state.
    rewrite Z.add_0_r. by destruct st. }
  apply Forall_cons in Hgood as [Hc Hgood]. csimpl.
  destruct (retain_scored_ok c st done_ Hc Hs R) as (k1 & -> & R1).
  set (st1 := {| kept := k1 |}).
  assert (serial st1 = zlen (done_ ++ [c])) as Hs1 by (cbn; rewrite length_app; cbn; lia).
  destruct (IH st1 (done_ ++ [c]) Hgood Hs1 R1) as (k2 & t2 & H2 & R2).
  exists k2, t2. rewrite <- (assoc_L (++)) in R2. split; [|exact R2]. etrans; [exact H2|].
  unfold scored_state. cbn. do 2 f_equal. lia.
Qed.

(** Scoring the batch changes where it is, not what was absorbed. *)
Lemma score_and_retain_ok b cs st :
  Absorbed b cs st →
  ∃ st', score_and_retain numpy cancellation_check view query_vector q limit evidence_mode st = Ok st' ∧
         Absorbed b cs st' ∧ batch st' = [].
Proof.
  intros [Hgood (done_ & Hcs & Hsc & Hse & R) Hm Hl]. unfold score_and_retain. rewrite scores.
  2: { rewrite Hcs in Hgood. by apply Forall_app in Hgood as [_ ?]. }
  cbn [mbind result_bind].
  destruct (retain_batch_ok (batch st) st done_) as (k & t & -> & R'); [|done..|].
  { rewrite Hcs in Hgood. by apply Forall_app in Hgood as [_ ?]. }
  eexists. split; [done|]. split; [|done]. split; cbn; try done.
  exists cs. rewrite app_nil_r, length_fmap, Hcs, length_app, Hsc, Hse. split_and!; [done|lia..|done].
Qed.

(** Appending a candidate. *)
Lemma append_ok cs st c : Absorbed false cs st → good c → Absorbed false (cs ++ [c]) (append_candidate c st).
Proof.
  intros [Hgood (done_ & Hcs & Hsc & Hse & R) Hm Hl] Hc. split; cbn; try done.
  - apply Forall_app. split; [done|by constructor].
  - exists done_. by rewrite Hcs, <- (assoc_L (++)).
  - by rewrite last_snoc.
Qed.

Lemma absorbed_count b cs st : Absorbed b cs st → scored_count st + zlen (batch st) = zlen cs.
Proof. intros [_ (done_ & -> & -> & _) _ _]. rewrite length_app. lia. Qed.

Lemma stop_ok cs st : Absorbed false cs st → Absorbed true cs (stop_scan st).
Proof. intros []. by split. Qed.

(** The copies of a candidate are absorbed up to the budget. *)
Lemma add_copies_ok n : ∀ cs st c,
  good c → Absorbed false cs st → zlen cs <= max_vectors →
  ∃ st', add_copies numpy cancellation_check view query_vector q limit max_vectors batch_size
           evidence_mode n c st = Ok st' ∧
         Absorbed (bool_decide (max_vectors < zlen (cs ++ replicate n c)))
           (take (Z.to_nat max_vectors) (cs ++ replicate n c)) st'.
Proof.
  induction n as [|n IH]; intros cs st c Hc A Hmax; cbn [add_copies replicate].
  { exists st. split; [done|]. rewrite app_nil_r, bool_decide_eq_false_2 by lia. by rewrite take_ge by lia. }
  unfold budget_spent. rewrite (absorbed_count _ _ _ A). destruct (Z.leb_spec max_vectors (zlen cs)).
  - exists (stop_scan st). split; [done|]. rewrite bool_decide_eq_true_2 by (rewrite length_app; cbn; lia).
    rewrite take_app_length' by lia. by apply stop_ok.
  - pose proof (append_ok cs st c A Hc) as A1.
    rewrite cons_middle, (assoc_L (++)).
    destruct (batch_size <=? zlen (batch (append_candidate c st))).
    + destruct (score_and_retain_ok _ _ _ A1) as (st1 & -> & A2 & _).
      apply IH; [done..|rewrite length_app; cbn; lia].
    + apply IH; [done..|rewrite length_app; cbn; lia].
Qed.
(** ** The rows *)

Variables (row_at : nat → WireRow) (candidate_at : nat → Candidate).

Abbreviation skipped := (row_skipped after_ref_id text_scope selected_pairs).

(** How often a row is scanned: once for each time its model is requested. *)
Definition copies_of (row : WireRow) : nat :=
  match pairs view !! Z.to_nat (w_pair_index row) with
  | Some p => Z.to_nat (default 1 (dget (pair_model_signature p) signatures))
  | None => 0
  end.

(** The candidates of the rows from [index] on, of which there are [n]. *)
Fixpoint visible (n index : nat) : list Candidate :=
  match n with
  | O => []
  | S n' => (if skipped (row_at index) then []
             else replicate (copies_of (row_at index)) (candidate_at index)) ++ visible n' (S index)
  end.

(** A row that can be read, and decoded if the query sees it. *)
Definition readable (i : nat) : Prop :=
  _row rows (Z.of_nat i) = Ok (row_at i) ∧
  (skipped (row_at i) = false →
   is_Some (pairs view !! Z.to_nat (w_pair_index (row_at i))) ∧ (1 <= copies_of (row_at i))%nat ∧
   _candidate (row_at i) identity (zlen metadata) (pairs view) (Z.of_nat i) = Ok (candidate_at i) ∧
   good (candidate_at i)).

(** A scan of readable rows absorbs what is visible, up to the budget. *)
Lemma scan_rows_ok n : ∀ index cs st,
  (∀ i, (index <= i < index + n)%nat → readable i) →
  Absorbed false cs st → zlen cs <= max_vectors →
  ∃ st', scan_rows numpy cancellation_check view query_vector q limit max_vectors after_ref_id
           batch_size text_scope evidence_mode signatures selected_pairs identity metadata rows
           n index st = Ok st' ∧
         Absorbed (bool_decide (max_vectors < zlen (cs ++ visible n index)))
           (take (Z.to_nat max_vectors) (cs ++ visible n index)) st'.
Proof.
  induction n as [|n IH]; intros index cs st Hread A Hmax; cbn [scan_rows visible].
  { exists st. split; [done|]. rewrite app_nil_r, bool_decide_eq_false_2 by lia. by rewrite take_ge by lia. }
  assert ((if decide (Z.of_nat index mod 128 = 0)
           then vector_checkpoint cancellation_check (AtRow index) else Ok tt) = Ok tt) as ->
    by (case_decide; [apply quiet|done]).
  destruct (Hread index ltac:(lia)) as [Hrow Hseen]. rewrite Hrow. cbn [mbind result_bind].
  assert (∀ i, (S index <= i < S index + n)%nat → readable i) as Hrest by (intros; apply Hread; lia).
  destruct (skipped (row_at index)) eqn:Hsk; [by apply IH|].
  destruct (Hseen eq_refl) as ([p Hp] & Hcop & Hcand & Hgood). rewrite Hp. cbn [or_raise mbind result_bind].
  unfold copies_of in *. rewrite Hp in *. set (k := Z.to_nat (default 1 _)) in *.
  unfold budget_spent at 1. rewrite (absorbed_count _ _ _ A).
  destruct (Z.leb_spec max_vectors (zlen cs)).
  - exists (stop_scan st). split; [done|].
    rewrite bool_decide_eq_true_2 by (rewrite !length_app, length_replicate; lia).
    rewrite take_app_length' by lia. by apply stop_ok.
  - rewrite Hcand. cbn [mbind result_bind].
    destruct (add_copies_ok k cs st (candidate_at index) Hgood A Hmax) as (st1 & -> & A1).
    cbn [mbind result_bind]. rewrite (ab_more _ _ _ A1), (assoc_L (++)).
    destruct (decide (max_vectors < zlen (cs ++ replicate k (candidate_at index)))) as [Hlt|Hge].
    + rewrite bool_decide_eq_true_2 in A1 |- * by done. exists st1. split; [done|].
      rewrite bool_decide_eq_true_2 by (rewrite length_app; lia). by rewrite take_app_le by lia.
    + rewrite bool_decide_eq_false_2 in A1 |- * by done. rewrite take_ge in A1 by lia.
      apply IH; [done..|lia].
Qed.

(** The scan and its last batch: the retained hits are the best of what the budget
    covers, and the cursor is where it ends. *)
Lemma scan_ok n selected :
  (∀ i, (i < n)%nat → readable i) → 0 <= max_vectors →
  ∃ st st', scan_rows numpy cancellation_check view query_vector q limit max_vectors after_ref_id
      batch_size text_scope evidence_mode signatures selected_pairs identity metadata rows n 0
      (scan_start after_ref_id selected evidence_mode) = Ok st ∧
    score_and_retain numpy cancellation_check view query_vector q limit evidence_mode st = Ok st' ∧
    let cs := take (Z.to_nat max_vectors) (visible n 0) in
    ordered_hits d_order (kept st') = top_hits d_order d_key limit (entries_from 0 cs) ∧
    scored_count st' = zlen cs ∧ has_more st' = bool_decide (max_vectors < zlen (visible n 0)) ∧
    last_ref st' = default after_ref_id (c_ref_id <$> last cs).
Proof.
  intros Hread Hmax.
  destruct (scan_rows_ok n 0 [] (scan_start after_ref_id selected evidence_mode)) as (st & Hst & A).
  { intros i Hi. apply Hread. lia. }
  { split; [constructor| |done..]. exists []. split_and!; [done..|]. apply retains_nothing. }
  { done. }
  cbn [app] in A. destruct (score_and_retain_ok _ _ _ A) as (st' & Hst' & A' & Hb).
  exists st, st'. split; [done|]. split; [done|]. cbv zeta. split_and!.
  - destruct A' as [_ (done_ & Hd & _ & _ & R) _ _]. rewrite Hb, app_nil_r in Hd. subst done_.
    by rewrite (retained_top cmp_derived d_order d_key entry_ok entries_tell_keys limit _ _ R).
  - pose proof (absorbed_count _ _ _ A') as Hc. rewrite Hb in Hc. cbn in Hc. lia.
  - apply A'.
  - apply A'.
Qed.
End scan.

(** ** The scalar scorer *)

(** A candidate that the scalar scorer gives a score. *)
Definition scorable (vector_maps : pystr → option (list byte)) (query_vector : list pyfloat) (dims : Z)
    (c : Candidate) (score : pyfloat) : Prop :=
  ∃ mapping payload, vector_maps (c_vector_dtype c) = Some mapping ∧ c_dimensions c = dims ∧
    _vector_bytes mapping c = Ok payload ∧
    _scalar_score query_vector payload dims (c_vector_dtype c) = Ok score.

Lemma scalar_scores_ok cancellation_check vector_maps query_vector dims score done_ cs : ∀ index,
  (∀ s, vector_checkpoint cancellation_check s = Ok tt) →
  Forall (λ c, scorable vector_maps query_vector dims c (score c)) cs →
  scalar_scores cancellation_check vector_maps query_vector dims done_ index cs =
    Ok ((λ c, scored c (score c)) <$> cs).
Proof.
  intros index quiet H. revert index.
  induction H as [|c cs (mapping & payload & Hm & Hd & Hv & Hs) _ IH]; intros index; csimpl; [done|].
  unfold candidate_payload. rewrite Hm, Hv, bool_decide_eq_false_2 by (intros Hne; by apply Hne).
  assert ((if decide (Z.of_nat index mod 128 = 0)
           then vector_checkpoint cancellation_check (AtScore done_ index) else Ok tt) = Ok tt) as ->
    by (case_decide; [apply quiet|done]).
  cbn. by rewrite Hs, IH.
Qed.
