(* ===== verification/VectorScan.v ===== *)
(** * The owner's exact scan (semantic/semantic_search_repository.py)

    [_scan_exact_page], which the exact index hands a query back to, with the
    vector codec and cosine of [semantic/semantic_models.py].  The tables are
    lists; what the SQL selects is written out: the rows of the published pairs
    past the cursor, in the order of their member ids, one more than the budget.
    The read operation is its remaining vectors; NumPy is the parameter of
    [VectorQuery]. *)

From S2P Require Import Prelude PyOrder KnowledgeContracts Utf8 HeapQ VectorRetain VectorFormat VectorQuery.

#[global] Open Scope Z_scope.

(** ** Vectors (semantic_models.py) *)

Definition _require_dimensions (value : Z) : result vector_error Z :=
  raise_if (negb ((1 <=? value) && (value <=? 65536)))
    (vector_value "dimensions must be an integer between 1 and 65536");;
  Ok value.

Definition validate_vector (values : list pyfloat) (dims : Z) : result vector_error (list pyfloat) :=
  dims' ← _require_dimensions dims;
  raise_if (bool_decide (zlen values ≠ dims'))
    (VectorValueError (py "expected " ++ int_text dims' ++ py " vector values, received " ++
                       int_text (zlen values)));;
  raise_if (negb (all_finite values)) (vector_value "embedding vectors must contain only finite values");;
  norm_squared ← dot values values;
  raise_if (SFleb norm_squared float_zero || negb (is_finite norm_squared))
    (vector_value "embedding vectors must have a finite non-zero L2 norm");;
  Ok values.

Definition normalize_vector (values : list pyfloat) (dims : Z) :
    result vector_error (list pyfloat * pyfloat) :=
  vector ← validate_vector values dims;
  norm_squared ← dot vector vector;
  norm ← math_sqrt norm_squared;
  quotients ← map_result (λ v, float_div v norm) vector;
  Ok (quotients, norm).

Definition decode_vector (payload : list byte) (dims : Z) (dtype : pystr) :
    result vector_error (list pyfloat) :=
  dims' ← _require_dimensions dims;
  raise_if (bool_decide (zlen payload ≠ dims' * dtype_width dtype))
    (VectorValueError (py "invalid vector payload length: expected " ++
       int_text (dims' * dtype_width dtype) ++ py ", got " ++ int_text (zlen payload)));;
  Ok (unpack_numbers (Z.to_nat dims') dtype payload).

Definition cosine_similarity (left right : list pyfloat) (dims : Z) : result vector_error pyfloat :=
  left_vector ← validate_vector left dims;
  right_vector ← validate_vector right dims;
  numerator ← dot left_vector right_vector;
  left_squared ← dot left_vector left_vector;
  left_norm ← math_sqrt left_squared;
  right_squared ← dot right_vector right_vector;
  right_norm ← math_sqrt right_squared;
  score ← float_div numerator (fmul left_norm right_norm);
  Ok (clamp_score score).

(** ** The owner's tables *)

(** A row of [embedding_models]. *)
Record ModelRow : Type := {
  m_signature : pystr;
  m_vector_space : pystr;
  m_modality : pystr;
  m_dimensions : Z;
  m_active : bool
}.

(** A published head joined with its generation. *)
Record HeadRow : Type := {
  head_model : pystr;
  head_generation : Z;
  generation_model : pystr;
  generation_status : pystr;
  generation_processing : pystr
}.

(** A generation member joined with its model, payload, chunk, item and
    generation; [content_matches]: its fingerprint is that of its source. *)
Record MemberRow : Type := {
  r_ref_id : Z;
  r_entity_id : pystr;
  r_item_id : pystr;
  r_model_signature : pystr;
  r_vector_space : pystr;
  r_modality : pystr;
  r_generation_id : Z;
  r_provenance_json : pystr;
  r_vector_blob : list byte;
  r_dimensions : Z;
  r_vector_dtype : pystr;
  r_entity_kind : pystr;
  r_section_kind : pystr;
  r_status : pystr;
  content_matches : bool
}.

Record Tables : Type := {
  models : list ModelRow;
  heads : list HeadRow;
  members : list MemberRow
}.

(** [_validate_text_scope] *)
Definition _validate_text_scope (modality_ text_scope : pystr) : result vector_error unit :=
  raise_if (bool_decide (text_scope ∉ [py "all"; py "content"; py "title"]))
    (vector_value "text_scope must be all, content or title");;
  raise_if (bool_decide (modality_ ≠ py "text") && bool_decide (text_scope ≠ py "all"))
    (vector_value "text_scope is only valid for text embeddings").

(** [_search_models] *)
Definition _search_models (t : Tables) (q : ExactQuery) : result vector_error (list pystr) :=
  query_model ← or_raise (List.find (λ m, bool_decide (m_signature m = query_model_signature q) &&
                                          m_active m) (models t)) MissingKeyError;
  raise_if (bool_decide (m_vector_space query_model ≠ q_vector_space q) ||
            bool_decide (m_dimensions query_model ≠ q_dimensions q))
    (vector_value "query vector is incompatible with its registered model");;
  let available := sort_by cmp_str id (m_signature <$> filter (λ m,
      bool_decide (m_vector_space m = q_vector_space q) &&
      bool_decide (m_modality m = q_target_modality q) &&
      bool_decide (m_dimensions m = q_dimensions q) && m_active m = true) (models t)) in
  if decide (q_indexed_model_signatures q = []) then
    raise_if (bool_decide (available = [])) (vector_value "no compatible indexed models are registered");;
    Ok available
  else
    raise_if (existsb (λ s, negb (bool_decide (s ∈ available))) (q_indexed_model_signatures q))
      (vector_value "indexed models are absent or incompatible");;
    Ok (q_indexed_model_signatures q).

(** [_published_model_generations] *)
Definition _published_model_generations (t : Tables) (signatures : list pystr) :
    result vector_error (list (pystr * Z)) :=
  by_model ← foldl (λ r h,
      d ← r;
      raise_if (bool_decide (generation_model h ≠ head_model h) ||
                bool_decide (generation_status h ≠ py "ready"))
        (SemanticStateError (py "published embedding head is invalid"));;
      Ok (dset (head_model h) (head_generation h) d))
    (Ok []) (filter (λ h, head_model h ∈ signatures) (heads t));
  Ok (omap (λ s, (s,.) <$> dget s by_model) signatures).

Definition TITLE_SECTION_KINDS : list pystr :=
  [py "semantic_metadata_title"; py "video_metadata_title"].

(** The [WHERE] of [_search_sql] for one pair and a cursor. *)
Definition row_selected (modality_ text_scope : pystr) (after_ref_id : Z) (p : pystr * Z) (r : MemberRow) :
    bool :=
  bool_decide (r_model_signature r = p.1) && (r_generation_id r =? p.2) && (after_ref_id <? r_ref_id r) &&
  bool_decide (r_status r = py "ready") && content_matches r &&
  if decide (modality_ = py "text") then
    bool_decide (r_entity_kind r = py "text_chunk") &&
    (if decide (text_scope = py "content") then bool_decide (r_section_kind r ∉ TITLE_SECTION_KINDS)
     else if decide (text_scope = py "title") then bool_decide (r_section_kind r ∈ TITLE_SECTION_KINDS)
     else true)
  else bool_decide (r_entity_kind r = py "image_item").

(** What [_search_sql] selects: a pair selects a row once for each time it is
    requested; ordered by member id, at most [bound] rows. *)
Definition search_rows (t : Tables) (modality_ text_scope : pystr) (ps : list (pystr * Z))
    (after_ref_id bound : Z) : list MemberRow :=
  take (Z.to_nat bound) (sort_by Z.compare r_ref_id
    (members t ≫= λ r, omap (λ p, if row_selected modality_ text_scope after_ref_id p r
                                  then Some r else None) ps)).

(** ** Hits *)

Record SearchHit : Type := {
  s_ref_id : Z;
  s_entity_id : pystr;
  s_item_id : pystr;
  s_indexed_model_signature : pystr;
  s_vector_space : pystr;
  s_modality : pystr;
  s_score : pyfloat;
  s_generation_id : Z;
  s_provenance : list (pystr * json);
  s_query_model_signature : pystr
}.

Section hits.
Variables (json_loads : pystr → option json) (q : ExactQuery) (query_vector : list pyfloat).

(** [VectorDType(value)] and [EmbeddingModality(value)] *)
Definition valid_dtype (value : pystr) : result vector_error unit :=
  raise_if (bool_decide (dget value DTYPE_CODE = None)) (vector_value "is not a valid VectorDType").
Definition valid_modality (value : pystr) : result vector_error unit :=
  raise_if (bool_decide (value ∉ [py "text"; py "image"])) (vector_value "is not a valid EmbeddingModality").

(** The provenance of a row, and the hit of a row with its score. *)
Definition row_provenance (r : MemberRow) : result vector_error (list (pystr * json)) :=
  match json_loads (r_provenance_json r) with
  | None => Err (vector_value "Expecting value")
  | Some (JObject fields) => Ok fields
  | Some _ => Err (SemanticStateError (py "embedding provenance is not a JSON object"))
  end.

Definition row_hit (r : MemberRow) (fields : list (pystr * json)) (score : pyfloat) : SearchHit :=
  {| s_ref_id := r_ref_id r; s_entity_id := r_entity_id r; s_item_id := r_item_id r;
     s_indexed_model_signature := r_model_signature r; s_vector_space := r_vector_space r;
     s_modality := r_modality r; s_score := score; s_generation_id := r_generation_id r;
     s_provenance := fields; s_query_model_signature := query_model_signature q |}.

(** [_search_hit_from_score] *)
Definition _search_hit_from_score (r : MemberRow) (score : pyfloat) : result vector_error SearchHit :=
  fields ← row_provenance r;
  valid_modality (r_modality r);;
  Ok (row_hit r fields (clamp_score score)).

Definition dimension_error : vector_error :=
  SemanticStateError (py "persisted vector dimension violates its space").

(** [_exact_search_hit] *)
Definition _exact_search_hit (r : MemberRow) : result vector_error SearchHit :=
  raise_if (bool_decide (r_dimensions r ≠ q_dimensions q)) dimension_error;;
  valid_dtype (r_vector_dtype r);;
  stored ← decode_vector (r_vector_blob r) (r_dimensions r) (r_vector_dtype r);
  fields ← row_provenance r;
  valid_modality (r_modality r);;
  score ← cosine_similarity query_vector stored (r_dimensions r);
  Ok (row_hit r fields score).

(** The first loop of [_numpy_exact_search_hits]: the positions by dtype. *)
Fixpoint row_positions (position : nat) (rows : list MemberRow) (positions : list (pystr * list nat)) :
    result vector_error (list (pystr * list nat)) :=
  match rows with
  | [] => Ok positions
  | r :: rows' =>
      raise_if (bool_decide (r_dimensions r ≠ q_dimensions q)) dimension_error;;
      valid_dtype (r_vector_dtype r);;
      raise_if (bool_decide (zlen (r_vector_blob r) ≠ r_dimensions r * dtype_width (r_vector_dtype r)))
        (VectorValueError (py "invalid vector payload length: expected " ++
           int_text (r_dimensions r * dtype_width (r_vector_dtype r)) ++ py ", got " ++
           int_text (zlen (r_vector_blob r))));;
      let '(ps, positions') := setdefault (r_vector_dtype r) [] positions in
      row_positions (S position) rows' (dset (r_vector_dtype r) (ps ++ [position]) positions')
  end.

(** The scores of the rows of one dtype. *)
Definition row_scores (np : Numpy) (query_norm : pyfloat) (rows : list MemberRow) (dtype : pystr)
    (positions : list nat) (scores : list (option pyfloat)) : result vector_error (list (option pyfloat)) :=
  matrix ← map_result (λ i,
      r ← or_raise (rows !! i) MissingKeyError;
      Ok (np_frombuffer np dtype (q_dimensions q) (r_vector_blob r))) positions;
  raise_if (negb (forallb all_finite matrix))
    (vector_value "embedding vectors must contain only finite values");;
  let norms := np_row_norms np matrix in
  raise_if (negb (all_finite norms) || existsb (λ n, SFleb n float_zero) norms)
    (vector_value "embedding vectors must have a finite non-zero L2 norm");;
  let cosines := np_cosines np matrix query_vector norms query_norm in
  raise_if (negb (all_finite cosines)) (vector_value "cosine similarity must be finite");;
  raise_if (bool_decide (length positions ≠ length cosines))
    (vector_value "zip() argument 2 is shorter than argument 1");;
  Ok (foldl (λ s p, <[p.1 := Some p.2]> s) scores (zip positions cosines)).

(** [_numpy_exact_search_hits] *)
Definition _numpy_exact_search_hits (np : Numpy) (rows : list MemberRow) :
    result vector_error (list SearchHit) :=
  let query_norm := np_norm np query_vector in
  raise_if (negb (is_finite query_norm) || SFleb query_norm float_zero)
    (vector_value "embedding vectors must have a finite non-zero L2 norm");;
  positions ← row_positions 0 rows [];
  scores ← foldl (λ r p, scores ← r; row_scores np query_norm rows p.1 p.2 scores)
             (Ok (replicate (length rows) None)) positions;
  raise_if (existsb (λ s : option pyfloat, negb (bool_decide (is_Some s))) scores)
    (SemanticStateError (py "vectorized exact search omitted a selected row"));;
  map_result (λ p, _search_hit_from_score p.1 (default float_zero p.2)) (zip rows scores).

(** [_exact_search_hits]; [controlled] is false where the control of the native
    library is unavailable, which keeps the scalar path. *)
Definition _exact_search_hits (numpy : option Numpy) (controlled : bool) (rows : list MemberRow) :
    result vector_error (list SearchHit) :=
  match numpy with
  | Some np => if (length rows <? 8)%nat || negb controlled then map_result _exact_search_hit rows
               else _numpy_exact_search_hits np rows
  | None => map_result _exact_search_hit rows
  end.
End hits.

(** ** The scan *)

#[export] Instance json_eq_dec : EqDecision json.
Proof.
  refine (_ : ∀ a b : json, {a = b} + {a ≠ b}). fix go 1. intros a b. destruct a as [|x|x|x|x|xs|xs], b as [|y|y|y|y|ys|ys]; try (right; congruence).
  - by left.
  - destruct (decide (x = y)) as [->|]; [by left|right; congruence].
  - destruct (decide (x = y)) as [->|]; [by left|right; congruence].
  - destruct (decide (x = y)) as [->|]; [by left|right; congruence].
  - destruct (decide (x = y)) as [->|]; [by left|right; congruence].
  - destruct (List.list_eq_dec go xs ys) as [->|]; [by left|right; congruence].
  - assert (∀ p r : pystr * json, {p = r} + {p ≠ r}) as Hp.
    { intros [k x] [k' y]. destruct (decide (k = k')) as [->|]; [|right; congruence].
      destruct (go x y) as [->|]; [by left|right; congruence]. }
    destruct (List.list_eq_dec Hp xs ys) as [->|]; [by left|right; congruence].
Defined.

#[export] Instance SearchHit_eq_dec : EqDecision SearchHit.
Proof. solve_decision. Defined.

(** [_TargetedSearchDiagnostics._order] *)
Definition hit_order (h : SearchHit) : ExactSearchOrder :=
  exact_search_order (s_score h) (s_item_id h) (s_entity_id h) (s_indexed_model_signature h) (s_ref_id h).

(** [_TargetedSearchDiagnostics.observe] *)
Definition observe_hit (h : SearchHit) (t : TargetDiagnostics SearchHit) : TargetDiagnostics SearchHit :=
  observe s_item_id s_entity_id s_indexed_model_signature hit_order h t.

(** The entry [(heap key, ref_id, hit)]. *)
Record search_entry : Type := { e_order : ExactSearchOrder; e_ref_id : Z; e_hit : SearchHit }.

#[export] Instance search_entry_eq_dec : EqDecision search_entry.
Proof. solve_decision. Defined.

Definition hit_entry (h : SearchHit) : search_entry :=
  {| e_order := hit_order h; e_ref_id := s_ref_id h; e_hit := h |}.

(** The comparison of two entries of different orders or ids; two others would
    have their hits compared, which raises. *)
Definition cmp_search (x y : search_entry) : comparison :=
  lex cmp_heap_key Z.compare (e_order x, e_ref_id x) (e_order y, e_ref_id y).

#[export] Instance cmp_search_total : TotalOrder cmp_search.
Proof. by apply (order_on (λ x, (e_order x, e_ref_id x)) (lex cmp_heap_key Z.compare) _ _). Qed.

Definition search_retained : Type := retained search_entry.

Definition search_key (evidence_mode : bool) (e : search_entry) : hit_key :=
  key_of evidence_mode (s_item_id (e_hit e)) (s_entity_id (e_hit e)).

(** [_retain_exact_search_hit]: the best hit of each item. *)
Definition _retain_exact_search_hit (h : SearchHit) (limit : Z) (st : search_retained) :
    result vector_error search_retained :=
  retain cmp_search e_order (search_key false)
    (SemanticStateError (py "exact-search item heap became empty")) limit (hit_entry h) st.

(** [_retain_exact_evidence_hit]: the best hit of each entity of an item. *)
Definition _retain_exact_evidence_hit (h : SearchHit) (limit : Z) (st : search_retained) :
    result vector_error search_retained :=
  retain cmp_search e_order (search_key true)
    (SemanticStateError (py "exact-search evidence heap became empty")) limit (hit_entry h) st.

Record ExactSearchPage : Type := {
  page_hits : list SearchHit;
  page_scanned : Z;
  page_cursor : option Z;
  page_complete : bool
}.

(** The locals of the scan; [allowance] is what the read operation has left. *)
Record PageState : Type := {
  page_kept : search_retained;
  scanned_rows : Z;
  last_ref_id : Z;
  more : bool;
  page_targets : option (TargetDiagnostics SearchHit);
  allowance : option Z
}.

(** [remaining_read_limit(limit, vectors=True)] and [read_checkpoint(vectors=n)] *)
Definition remaining_read_limit (limit : Z) (left : option Z) : result vector_error Z :=
  match left with
  | None => Ok limit
  | Some n => raise_if (n <=? 0) ReadBudgetExceeded;; Ok (Z.min limit n)
  end.

Definition read_checkpoint (n : Z) (left : option Z) : result vector_error (option Z) :=
  match left with
  | None => Ok None
  | Some r => raise_if (r <? n) ReadBudgetExceeded;; Ok (Some (r - n))
  end.

(** A character of category Cc. *)
Definition is_control (c : Z) : bool := (c <? 32) || ((127 <=? c) && (c <? 160)).

Definition validate_diagnostic_item_ids (value : list pystr) : result vector_error (list pystr) :=
  raise_if ((MAX_DIAGNOSTIC_ITEMS <? zlen value) ||
            existsb (λ v, blank v || (512 <? zlen v) || existsb is_control v) value)
    (vector_value "diagnostic_item_ids must be a tuple of at most 20 bounded item IDs");;
  Ok (foldl (λ d v, dset v tt d) [] value).*1.

Section scan.
Variables (cancellation_check : vector_callback)
  (score_rows : list MemberRow → result vector_error (list SearchHit))
  (limit max_vectors batch_size : Z) (evidence_mode : bool).

(** One hit of the loop over [page_hits]. *)
Definition retain_hit (h : SearchHit) (st : PageState) : result vector_error PageState :=
  (if scanned_rows st mod 128 =? 0
   then vector_checkpoint cancellation_check (AtHit (Z.to_nat (scanned_rows st))) else Ok tt);;
  kept' ← (if evidence_mode then _retain_exact_evidence_hit h limit (page_kept st)
           else _retain_exact_search_hit h limit (page_kept st));
  Ok {| page_kept := kept'; scanned_rows := scanned_rows st + 1; last_ref_id := s_ref_id h;
        more := more st; page_targets := observe_hit h <$> page_targets st;
        allowance := allowance st |}.

Definition mark_more (st : PageState) : PageState :=
  {| page_kept := page_kept st; scanned_rows := scanned_rows st; last_ref_id := last_ref_id st;
     more := true; page_targets := page_targets st; allowance := allowance st |}.

Definition charge (left : option Z) (st : PageState) : PageState :=
  {| page_kept := page_kept st; scanned_rows := scanned_rows st; last_ref_id := last_ref_id st;
     more := more st; page_targets := page_targets st; allowance := left |}.

(** [while rows := cursor.fetchmany(batch_size)]; a turn takes a row at least, so
    the number of rows and one is fuel enough. *)
Fixpoint scan_batches (fuel : nat) (rows : list MemberRow) (st : PageState) :
    result vector_error PageState :=
  match fuel, take (Z.to_nat batch_size) rows with
  | S fuel', (_ :: _) as fetched =>
      vector_checkpoint cancellation_check (AtBatch (length rows));;
      let remaining := max_vectors - scanned_rows st in
      if remaining <=? 0 then Ok (mark_more st)
      else
        let selected_rows := take (Z.to_nat remaining) fetched in
        left ← read_checkpoint (zlen selected_rows) (allowance st);
        hits_ ← score_rows selected_rows;
        st' ← foldl (λ r h, st ← r; retain_hit h st) (Ok (charge left st)) hits_;
        if remaining <? zlen fetched then Ok (mark_more st')
        else scan_batches fuel' (drop (Z.to_nat batch_size) rows) st'
  | _, _ => Ok st
  end.
End scan.

(** What a scan depends on besides its arguments. *)
Record ScanRuntime : Type := {
  scan_json_loads : pystr → option json;
  scan_numpy : option Numpy;
  native_control : bool;
  scan_callback : vector_callback;
  vectors_left : option Z
}.

Definition page_of (st : PageState) : ExactSearchPage :=
  {| page_hits := e_hit <$> ordered_hits e_order (page_kept st); page_scanned := scanned_rows st;
     page_cursor := if more st then Some (last_ref_id st) else None; page_complete := negb (more st) |}.

Definition page_start (after_ref_id : Z) (selected : list pystr) (evidence_mode : bool)
    (left : option Z) : PageState :=
  {| page_kept := nothing_retained; scanned_rows := 0; last_ref_id := after_ref_id; more := false;
     page_targets := if decide (selected = []) then None else Some (new_targets selected evidence_mode);
     allowance := left |}.

(** [_scan_exact_page]: the page and the locals it comes from. *)
Definition _scan_exact_page (rt : ScanRuntime) (t : Tables) (q : ExactQuery)
    (limit max_vectors after_ref_id batch_size : Z) (evidence_mode : bool) (text_scope : pystr)
    (diagnostic_item_ids : list pystr) : result vector_error (ExactSearchPage * PageState) :=
  _validate_text_scope (q_target_modality q) text_scope;;
  selected ← validate_diagnostic_item_ids diagnostic_item_ids;
  raise_if (negb ((1 <=? limit) && (limit <=? 10000))) (vector_value "limit must be between 1 and 10000");;
  raise_if (negb ((1 <=? max_vectors) && (max_vectors <=? 10000000)))
    (vector_value "max_vectors must be between 1 and 10000000");;
  raise_if (after_ref_id <? 0) (vector_value "after_ref_id cannot be negative");;
  raise_if (negb ((1 <=? batch_size) && (batch_size <=? 10000)))
    (vector_value "batch_size must be between 1 and 10000");;
  vector_checkpoint (scan_callback rt) AtStart;;
  '(query_vector, _) ← normalize_vector (q_vector q) (q_dimensions q);
  bound ← remaining_read_limit max_vectors (vectors_left rt);
  let start := page_start after_ref_id selected evidence_mode (vectors_left rt) in
  signatures ← _search_models t q;
  ps ← _published_model_generations t signatures;
  if decide (ps = []) then Ok (page_of start, start)
  else
    let rows := search_rows t (q_target_modality q) text_scope ps after_ref_id (bound + 1) in
    st ← scan_batches (scan_callback rt)
           (_exact_search_hits (scan_json_loads rt) q query_vector (scan_numpy rt) (native_control rt))
           limit bound batch_size evidence_mode (S (length rows)) rows start;
    Ok (page_of st, st).
