(* ===== verification/VectorScanLaws.v ===== *)
(** * The laws of the owner's exact scan

    The batches of a scan take the selected rows in their order, up to the bound,
    and retain the best hits of what they took; the allowance of the read operation
    covers the bound. *)

From S2P Require Import Prelude PyOrder KnowledgeContracts Utf8 HeapQ VectorRetain VectorRetainLaws VectorFormat VectorQuery VectorScan.

#[global] Open Scope Z_scope.

(** ** Well-formed tables *)

(** What the schema says of the keys of the models and of the heads. *)
Record KeyedTables (t : Tables) : Prop := {
  kt_models : NoDup (m_signature <$> models t);
  kt_heads : NoDup (head_model <$> heads t)
}.

(** And of the rows: a member row is joined with its model, ids are not empty. *)
Record TablesWellFormed (t : Tables) : Prop := {
  wf_keys : KeyedTables t;
  wf_joined : ∀ r, r ∈ members t → ∃ m, m ∈ models t ∧ m_signature m = r_model_signature r ∧
    m_vector_space m = r_vector_space r ∧ m_modality m = r_modality r;
  wf_ids : ∀ r, r ∈ members t → r_item_id r ≠ [] ∧ r_entity_id r ≠ [] ∧
    r_model_signature r ≠ [] ∧ 1 <= r_generation_id r
}.

(** ** The batches *)

Lemma search_surfaces x y : cmp_order (e_order x) (e_order y) = Lt → cmp_search y x = Lt.
Proof. intros H. unfold cmp_search, lex, cmp_heap_key. cbn. by rewrite H. Qed.

(** An entry of a hit. *)
Definition of_hit (e : search_entry) : Prop := ∃ h, e = hit_entry h.

Lemma search_tells_keys evidence_mode x y : of_hit x → of_hit y →
  cmp_order (e_order x) (e_order y) = Eq → search_key evidence_mode x = search_key evidence_mode y.
Proof. intros (h & ->) (h' & ->). cbn. apply order_tells_keys. Qed.

Section batches.
Variables (cancellation_check : vector_callback) (score_rows : list MemberRow → result vector_error (list SearchHit))
  (limit max_vectors batch_size after_ref_id : Z) (evidence_mode : bool).

(** The hit of each row, which the scorer gives. *)
Variables (hit_of : MemberRow → SearchHit) (scorable_row : MemberRow → Prop) (allowed : option Z).
Hypothesis positive_limit : 0 < limit.
Hypothesis positive_batch : 0 < batch_size.
Hypothesis quiet : ∀ s, vector_checkpoint cancellation_check s = Ok tt.
Hypothesis scores : ∀ rows, Forall scorable_row rows → score_rows rows = Ok (hit_of <$> rows).
Hypothesis same_ref : ∀ r, scorable_row r → s_ref_id (hit_of r) = r_ref_id r.
Hypothesis enough : ∀ n, allowed = Some n → max_vectors <= n.

Abbreviation retains := (Retains cmp_search e_order (search_key evidence_mode) of_hit limit).
Abbreviation reps_of rows := (representatives e_order (search_key evidence_mode) (hit_entry ∘ hit_of <$> rows)).

(** What a scan has made of the rows it took. *)
Record Taken (b : bool) (rows : list MemberRow) (st : PageState) : Prop := {
  tk_ok : Forall scorable_row rows;
  tk_kept : retains (reps_of rows) (page_kept st);
  tk_count : scanned_rows st = zlen rows;
  tk_last : last_ref_id st = default after_ref_id (r_ref_id <$> last rows);
  tk_more : more st = b
}.

Lemma retain_hit_ok rows r st : Taken false rows st → scorable_row r →
  ∃ st', retain_hit cancellation_check limit evidence_mode (hit_of r) st = Ok st' ∧
         Taken false (rows ++ [r]) st' ∧ allowance st' = allowance st.
Proof.
  intros [Hok Hk Hc Hl Hm] Hr. unfold retain_hit.
  assert ((if scanned_rows st mod 128 =? 0
     then vector_checkpoint cancellation_check (AtHit (Z.to_nat (scanned_rows st))) else Ok tt) = Ok tt) as ->
    by (case_match; [apply quiet|done]).
  cbn [mbind result_bind].
  assert (∃ k, (if evidence_mode then _retain_exact_evidence_hit (hit_of r) limit (page_kept st)
           else _retain_exact_search_hit (hit_of r) limit (page_kept st)) = Ok k ∧
         retains (note_best e_order (search_key evidence_mode) (reps_of rows) (hit_entry (hit_of r))) k)
    as (k & -> & R').
  { unfold _retain_exact_evidence_hit, _retain_exact_search_hit.
    destruct (retain_retains cmp_search e_order (search_key evidence_mode) search_surfaces of_hit
      (search_tells_keys evidence_mode)
      (SemanticStateError (if evidence_mode then py "exact-search evidence heap became empty"
                           else py "exact-search item heap became empty"))
      limit _ (page_kept st) (hit_entry (hit_of r)) positive_limit ltac:(by eexists) Hk) as (k & Hk' & R' & _).
    exists k. split; [|done]. by destruct evidence_mode. }
  cbn [mbind result_bind]. eexists. split; [done|]. split; [|done]. split; cbn; try done.
  - apply Forall_app. split; [done|by constructor].
  - rewrite fmap_app. csimpl. by rewrite representatives_snoc.
  - rewrite length_app. cbn. lia.
  - rewrite last_snoc. cbn. by apply same_ref.
Qed.

Lemma retain_hits_ok rs : ∀ rows st, Taken false rows st → Forall scorable_row rs →
  ∃ st', foldl (λ r h, st ← r; retain_hit cancellation_check limit evidence_mode h st) (Ok st)
           (hit_of <$> rs) = Ok st' ∧ Taken false (rows ++ rs) st' ∧ allowance st' = allowance st.
Proof.
  induction rs as [|r rs IH]; intros rows st T Hrs; csimpl.
  { exists st. by rewrite app_nil_r. }
  apply Forall_cons in Hrs as [Hr Hrs]. destruct (retain_hit_ok rows r st T Hr) as (st1 & -> & T1 & Ha).
  destruct (IH _ _ T1 Hrs) as (st2 & H2 & T2 & Ha2). exists st2.
  rewrite <- (assoc_L (++)) in T2. split_and!; [exact H2|exact T2|congruence].
Qed.

Lemma taken_more rows st : Taken false rows st → Taken true rows (mark_more st).
Proof. intros []. by split. Qed.

Lemma taken_charge left rows st : Taken false rows st → Taken false rows (charge left st).
Proof. intros []. by split. Qed.

(** The allowance after [rows]. *)
Definition left_after (rows : list MemberRow) : option Z := (λ n, n - zlen rows) <$> allowed.

Lemma charge_ok done_ sel st :
  allowance st = left_after done_ → zlen done_ + zlen sel <= max_vectors →
  read_checkpoint (zlen sel) (allowance st) = Ok (left_after (done_ ++ sel)).
Proof.
  intros Hleft Hsel. rewrite Hleft. unfold left_after, read_checkpoint. rewrite length_app.
  destruct allowed as [n|] eqn:Ha; [|done]. specialize (enough n eq_refl). csimpl.
  destruct (Z.ltb_spec (n - zlen done_) (zlen sel)); [lia|]. cbn. do 2 f_equal. lia.
Qed.

(** A scan takes the rows up to the bound, and its fuel is enough. *)
Lemma scan_batches_ok fuel : ∀ rows done_ st,
  (length rows < fuel)%nat → Forall scorable_row rows → Taken false done_ st →
  allowance st = left_after done_ → zlen done_ <= max_vectors →
  ∃ st', scan_batches cancellation_check score_rows limit max_vectors batch_size evidence_mode fuel rows st
           = Ok st' ∧
         Taken (bool_decide (max_vectors < zlen (done_ ++ rows)))
           (take (Z.to_nat max_vectors) (done_ ++ rows)) st' ∧
         allowance st' = left_after (take (Z.to_nat max_vectors) (done_ ++ rows)).
Proof.
  induction fuel as [|fuel IH]; intros rows done_ st Hfuel Hrows T Hleft Hmax; [lia|]. cbn [scan_batches].
  destruct (take (Z.to_nat batch_size) rows) as [|r0 fetched] eqn:Hf.
  { assert (rows = []) as -> by (destruct rows; [done|]; destruct (Z.to_nat batch_size) eqn:?; [lia|done]).
    exists st. rewrite app_nil_r, bool_decide_eq_false_2, take_ge by lia. done. }
  rewrite quiet. cbn [mbind result_bind]. rewrite (tk_count _ _ _ T).
  assert (rows = (r0 :: fetched) ++ drop (Z.to_nat batch_size) rows) as Hsplit
    by (rewrite <- Hf; symmetry; apply take_drop).
  set (rest := drop (Z.to_nat batch_size) rows) in *. set (fs := r0 :: fetched) in *.
  assert (1 <= length fs)%nat as Hfs by (cbn; lia).
  destruct (Z.leb_spec (max_vectors - zlen done_) 0) as [Hover|Hroom].
  { exists (mark_more st).
    rewrite bool_decide_eq_true_2, take_app_length' by (rewrite ?length_app, ?Hsplit, ?length_app; lia).
    split_and!; [done|by apply taken_more|done]. }
  assert (Forall scorable_row fs) as Hgood by (rewrite Hsplit in Hrows; by apply Forall_app in Hrows as [? _]).
  set (sel := take (Z.to_nat (max_vectors - zlen done_)) fs).
  assert (Forall scorable_row sel) as Hsel by (by apply Forall_take).
  assert (zlen sel <= max_vectors - zlen done_) as Hsl by (unfold sel; rewrite length_take; lia).
  assert (read_checkpoint (zlen sel) (allowance st) = Ok (left_after (done_ ++ sel))) as ->
    by (apply charge_ok; [done|lia]).
  cbn [mbind result_bind]. rewrite scores by done. cbn [mbind result_bind].
  destruct (retain_hits_ok sel done_ _ (taken_charge (left_after (done_ ++ sel)) _ _ T) Hsel) as (st1 & -> & T1 & Ha1).
  cbn [mbind result_bind]. cbn [allowance charge] in Ha1.
  destruct (Z.ltb_spec (max_vectors - zlen done_) (zlen fs)) as [Hmore|Hall].
  - exists (mark_more st1).
    assert (take (Z.to_nat max_vectors) (done_ ++ rows) = done_ ++ sel) as ->.
    { rewrite Hsplit, (assoc_L (++)), take_app_le by (rewrite length_app; lia). unfold sel.
      rewrite take_app_ge by lia. do 2 f_equal. lia. }
    rewrite bool_decide_eq_true_2 by (rewrite Hsplit, !length_app; lia).
    split_and!; [done|by apply taken_more|done].
  - assert (sel = fs) as Hsf by (unfold sel; apply take_ge; lia). rewrite Hsf in *.
    destruct (IH rest (done_ ++ fs) st1) as (st2 & H2 & T2 & Ha2); try done.
    + rewrite Hsplit, length_app in Hfuel. lia.
    + rewrite Hsplit in Hrows. by apply Forall_app in Hrows as [_ ?].
    + rewrite length_app. lia.
    + rewrite <- (assoc_L (++)), <- Hsplit in T2, Ha2. by exists st2.
Qed.
End batches.

(** ** The page *)

Section page.
Variables (t : Tables) (q : ExactQuery) (limit after_ref_id batch_size : Z) (evidence_mode : bool)
  (text_scope : pystr) (hit_of : MemberRow → SearchHit) (start_ids : list pystr).

(** All the rows that a cursor selects, and the page of a bound. *)
Definition selected_rows (ps : list (pystr * Z)) : list MemberRow :=
  sort_by Z.compare r_ref_id
    (members t ≫= λ r, omap (λ p, if row_selected (q_target_modality q) text_scope after_ref_id p r
                                  then Some r else None) ps).

Definition owner_page (bound : Z) (ps : list (pystr * Z)) : ExactSearchPage :=
  let used := take (Z.to_nat bound) (selected_rows ps) in
  {| page_hits := e_hit <$> top_hits e_order (search_key evidence_mode) limit (hit_entry ∘ hit_of <$> used);
     page_scanned := zlen used;
     page_cursor := if decide (bound < zlen (selected_rows ps)) then r_ref_id <$> last used else None;
     page_complete := bool_decide (zlen (selected_rows ps) <= bound) |}.

Lemma members_no_pairs ms modality_ scope after :
  (ms ≫= λ r, omap (λ p, if row_selected modality_ scope after p r then Some r else None) []) = [].
Proof. by induction ms. Qed.

Lemma page_of_taken bound rows st :
  0 < bound → Taken limit after_ref_id evidence_mode hit_of (λ _, True) (bool_decide (bound < zlen rows))
    (take (Z.to_nat bound) rows) st →
  page_of st =
    {| page_hits := e_hit <$> top_hits e_order (search_key evidence_mode) limit
                               (hit_entry ∘ hit_of <$> take (Z.to_nat bound) rows);
       page_scanned := zlen (take (Z.to_nat bound) rows);
       page_cursor := if decide (bound < zlen rows) then r_ref_id <$> last (take (Z.to_nat bound) rows) else None;
       page_complete := bool_decide (zlen rows <= bound) |}.
Proof.
  intros Hb [_ Hk Hc Hl Hm]. unfold page_of. rewrite Hc, Hm, Hl.
  rewrite (retained_top cmp_search e_order (search_key evidence_mode) of_hit
             (search_tells_keys evidence_mode) limit _ _ Hk). f_equal.
  - case_bool_decide as Hlt; [rewrite decide_True by done|by rewrite decide_False].
    destruct (last (take _ rows)) as [r|] eqn:Hr; [done|].
    apply last_None, (f_equal length) in Hr. rewrite length_take in Hr. cbn in Hr. lia.
  - case_bool_decide; case_bool_decide; (done || lia).
Qed.

Lemma taken_weaken (P Q : MemberRow → Prop) b rows st :
  (∀ r, P r → Q r) → Taken limit after_ref_id evidence_mode hit_of P b rows st →
  Taken limit after_ref_id evidence_mode hit_of Q b rows st.
Proof. intros H []. split; try done. by eapply Forall_impl. Qed.

Lemma scalar_hits_ok jl query_vector controlled rows :
  Forall (λ r, _exact_search_hit jl q query_vector r = Ok (hit_of r)) rows →
  _exact_search_hits jl q query_vector None controlled rows = Ok (hit_of <$> rows).
Proof. cbn. induction 1 as [|r rows Hr _ IH]; [done|]. cbn. by rewrite Hr, IH. Qed.

Lemma hit_ref jl query_vector r h : _exact_search_hit jl q query_vector r = Ok h → s_ref_id h = r_ref_id r.
Proof. unfold _exact_search_hit. intros H. inv_ok. done. Qed.

(** The scan of the rows of the pairs, on the scalar scorer. *)
Lemma owner_scan rt query_vector bound ps start :
  (∀ s, vector_checkpoint (scan_callback rt) s = Ok tt) → scan_numpy rt = None →
  0 < limit → 0 < batch_size → 0 < bound → (∀ n, vectors_left rt = Some n → bound <= n) →
  (∀ r, r ∈ selected_rows ps → _exact_search_hit (scan_json_loads rt) q query_vector r = Ok (hit_of r)) →
  start = page_start after_ref_id start_ids evidence_mode (vectors_left rt) →
  let rows := search_rows t (q_target_modality q) text_scope ps after_ref_id (bound + 1) in
  ∃ st, scan_batches (scan_callback rt)
          (_exact_search_hits (scan_json_loads rt) q query_vector (scan_numpy rt) (native_control rt))
          limit bound batch_size evidence_mode (S (length rows)) rows start = Ok st ∧
        page_of st = owner_page bound ps.
Proof.
  intros quiet Hnp Hl Hb Hbound Hleft Hscore -> rows. rewrite Hnp.
  set (ok := λ r, _exact_search_hit (scan_json_loads rt) q query_vector r = Ok (hit_of r)).
  destruct (scan_batches_ok (scan_callback rt) (_exact_search_hits (scan_json_loads rt) q query_vector None (native_control rt))
    limit bound batch_size after_ref_id evidence_mode hit_of ok (vectors_left rt) Hl Hb quiet
    (scalar_hits_ok (scan_json_loads rt) query_vector (native_control rt)) (λ r, hit_ref _ _ r _) Hleft
    (S (length rows)) rows [] (page_start after_ref_id start_ids evidence_mode (vectors_left rt)))
    as (st & Hst & T & _); [lia| | | |cbn; lia|].
  - apply Forall_forall. intros r Hr. apply Hscore. unfold rows, search_rows in Hr.
    by apply (subseteq_take _ _ r) in Hr.
  - split; cbn; try done. apply retains_nothing.
  - cbn. unfold left_after. destruct (vectors_left rt); [|done]. cbn. f_equal. lia.
  - exists st. split; [exact Hst|]. cbn [app] in T.
    assert (take (Z.to_nat bound) rows = take (Z.to_nat bound) (selected_rows ps)) as Htake
      by (unfold rows, search_rows; rewrite take_take; f_equal; lia).
    assert (zlen rows = Z.min (bound + 1) (zlen (selected_rows ps))) as Hlen
      by (unfold rows, search_rows; rewrite length_take; fold (selected_rows ps); lia).
    rewrite (page_of_taken bound rows st Hbound) by (by eapply taken_weaken; [|exact T]).
    unfold owner_page. rewrite Htake, Hlen. f_equal.
    + repeat case_decide; (done || lia).
    + apply bool_decide_ext. lia.
Qed.

Lemma owner_page_empty bound : 0 < bound → page_of (page_start after_ref_id start_ids evidence_mode None) = owner_page bound [].
Proof.
  intros Hb. unfold owner_page, selected_rows. rewrite members_no_pairs. cbn. rewrite take_nil. cbn.
  rewrite decide_False, bool_decide_eq_true_2 by lia. unfold top_hits. cbn. by rewrite take_nil.
Qed.
End page.

(** The whole of [_scan_exact_page], on the scalar scorer. *)
Lemma scan_exact_page_ok rt t q limit max_vectors after batch evidence scope ids sel qv norm bound sigs ps hit_of :
  _validate_text_scope (q_target_modality q) scope = Ok tt → validate_diagnostic_item_ids ids = Ok sel →
  1 <= limit <= 10000 → 1 <= max_vectors <= 10000000 → 0 <= after → 1 <= batch <= 10000 →
  (∀ s, vector_checkpoint (scan_callback rt) s = Ok tt) → scan_numpy rt = None →
  normalize_vector (q_vector q) (q_dimensions q) = Ok (qv, norm) →
  remaining_read_limit max_vectors (vectors_left rt) = Ok bound →
  _search_models t q = Ok sigs → _published_model_generations t sigs = Ok ps →
  (∀ r, r ∈ selected_rows t q after scope ps → _exact_search_hit (scan_json_loads rt) q qv r = Ok (hit_of r)) →
  ∃ st, _scan_exact_page rt t q limit max_vectors after batch evidence scope ids =
          Ok (owner_page t q limit after evidence scope hit_of bound ps, st).
Proof.
  intros Hscope Hids Hl Hm Ha Hb quiet Hnp Hnorm Hbound Hsigs Hps Hscored.
  assert (0 < bound ∧ ∀ n, vectors_left rt = Some n → bound <= n) as [Hpos Hleft].
  { unfold remaining_read_limit in Hbound. destruct (vectors_left rt) as [n|]; inv_ok; bool_prop.
    - split; [lia|]. intros ? [= <-]. lia.
    - split; [lia|done]. }
  unfold _scan_exact_page. rewrite Hscope. cbn [mbind result_bind]. rewrite Hids. cbn [mbind result_bind].
  repeat match goal with
  | |- context [?a <=? ?b] => destruct (Z.leb_spec a b); [|lia]
  | |- context [?a <? ?b] => destruct (Z.ltb_spec a b); [lia|]
  end. cbn [andb negb raise_if mbind result_bind].
  rewrite quiet. cbn [mbind result_bind]. rewrite Hnorm. cbn [mbind result_bind].
  rewrite Hbound. cbn [mbind result_bind]. rewrite Hsigs. cbn [mbind result_bind].
  rewrite Hps. cbn [mbind result_bind]. case_decide as Hnil.
  - subst ps. eexists. do 2 f_equal. rewrite <- (owner_page_empty t q limit after evidence scope hit_of [] bound Hpos). done.
  - destruct (owner_scan t q limit after batch evidence scope hit_of sel rt qv bound ps _ quiet Hnp
      ltac:(lia) ltac:(lia) Hpos Hleft Hscored eq_refl) as (st & Hst & Hpage).
    exists st. rewrite Hst. cbn. by rewrite Hpage.
Qed.
