(* ===== verification/VectorSearch.v ===== *)
(** * The contract of a vector search and its dispatch

    [semantic/semantic_vector_search.py], and [NativeExactVectorSearch] and
    [_search_exact_page] of [semantic/semantic_search_repository.py].  A backend is a
    record of its operations; the read operation is its remaining vectors, which is
    passed from call to call.  The fence of the owner's files and the hash that makes
    a snapshot id of it are parameters. *)

From S2P Require Import Prelude PyOrder KnowledgeContracts Utf8 HeapQ VectorRetain VectorFormat VectorQuery VectorScan.

#[global] Open Scope Z_scope.

Definition search_contract (message : string) : vector_error := VectorSearchContractError (py message).

(** ** Requests and results *)

Record VectorSearchRequest : Type := {
  request_query : ExactQuery;
  owner_path : pystr;
  snapshot_id : pystr;
  request_after : Z;
  request_evidence : bool;
  request_scope : pystr;
  request_item_ids : list pystr;
  metric : pystr
}.

(** [VectorSearchRequest.__post_init__] *)
Definition validate_request (r : VectorSearchRequest) : result vector_error unit :=
  raise_if (bool_decide (snapshot_id r = []))
    (vector_value "vector request requires an exact query and owner snapshot");;
  raise_if (request_after r <? 0) (vector_value "after_ref_id must be a nonnegative integer");;
  raise_if (bool_decide (metric r ≠ py "cosine") ||
            bool_decide (request_scope r ∉ [py "all"; py "content"; py "title"]))
    (vector_value "unsupported vector metric or text scope").

Record VectorSearchBudget : Type := { budget_limit : Z; budget_vectors : Z; budget_batch : Z }.

Definition budget_error (name : string) (maximum : Z) : vector_error :=
  VectorValueError (py name ++ py " must be between 1 and " ++ int_text maximum).

(** [VectorSearchBudget.__post_init__] *)
Definition validate_budget (b : VectorSearchBudget) : result vector_error unit :=
  raise_if (negb ((1 <=? budget_limit b) && (budget_limit b <=? 10000))) (budget_error "limit" 10000);;
  raise_if (negb ((1 <=? budget_vectors b) && (budget_vectors b <=? 10000000)))
    (budget_error "max_vectors" 10000000);;
  raise_if (negb ((1 <=? budget_batch b) && (budget_batch b <=? 10000))) (budget_error "batch_size" 10000).

Record VectorSearchUnavailable : Type := { u_backend_id : pystr; u_reason : pystr; u_phase : pystr }.

Record VectorSearchPage : Type := {
  vp_page : ExactSearchPage;
  vp_backend_id : pystr;
  vp_snapshot_id : pystr;
  vp_coverage : pystr;
  vp_fallback_reason : option pystr;
  vp_diagnostics : option (TargetDiagnostics SearchHit)
}.

Inductive backend_outcome : Type :=
| Answered (page : VectorSearchPage)
| Declined (reason : VectorSearchUnavailable).

(** [SemanticVectorSearch]: the request, the budget and what the read operation has
    left; whether it is the native backend. *)
Record VectorBackend : Type := {
  search_page : VectorSearchRequest → VectorSearchBudget → option Z →
                result vector_error (backend_outcome * option Z);
  is_native : bool
}.

(** ** The validation of a page *)

(** A candidate within the boundary of the query. *)
Definition hit_in_bounds (r : VectorSearchRequest) (cursor : option Z) (h : SearchHit) : bool :=
  let q := request_query r in
  (request_after r <? s_ref_id h) && (1 <=? s_generation_id h) &&
  is_finite (s_score h) && SFleb (SFopp float_one) (s_score h) && SFleb (s_score h) float_one &&
  bool_decide (s_vector_space h = q_vector_space q) && bool_decide (s_modality h = q_target_modality q) &&
  bool_decide (s_query_model_signature h = query_model_signature q) &&
  (bool_decide (q_indexed_model_signatures q = []) ||
   bool_decide (s_indexed_model_signature h ∈ q_indexed_model_signatures q)) &&
  negb (bool_decide (s_item_id h = []) || bool_decide (s_entity_id h = []) ||
        bool_decide (s_indexed_model_signature h = [])) &&
  match cursor with Some n => s_ref_id h <=? n | None => true end.

Definition group_key (r : VectorSearchRequest) (h : SearchHit) : pystr * pystr :=
  (s_item_id h, if request_evidence r then s_entity_id h else []).

(** The loop over the hits: their orders. *)
Fixpoint validate_hits (r : VectorSearchRequest) (cursor : option Z) (hs : list SearchHit)
    (seen : list (pystr * pystr)) : result vector_error (list ExactSearchOrder) :=
  match hs with
  | [] => Ok []
  | h :: hs' =>
      raise_if (negb (hit_in_bounds r cursor h))
        (search_contract "backend candidate violates the query boundary");;
      raise_if (bool_decide (group_key r h ∈ seen))
        (search_contract "backend returned duplicate ranked groups");;
      orders ← validate_hits r cursor hs' (group_key r h :: seen);
      Ok (hit_order h :: orders)
  end.

Definition coverage_of (page : ExactSearchPage) : pystr :=
  if page_complete page then py "complete" else py "partial".

(** The page agrees with the budget, its coverage and its cursor. *)
Definition page_in_budget (r : VectorSearchRequest) (b : VectorSearchBudget) (result_ : VectorSearchPage) :
    bool :=
  let page := vp_page result_ in
  (0 <=? page_scanned page) && (page_scanned page <=? budget_vectors b) &&
  (zlen (page_hits page) <=? Z.min (budget_limit b) (page_scanned page)) &&
  bool_decide (vp_coverage result_ = coverage_of page) &&
  negb (page_complete page && bool_decide (page_cursor page ≠ None)) &&
  (page_complete page || match page_cursor page with Some n => request_after r <? n | None => false end).

(** [validate_vector_page] *)
Definition validate_vector_page (result_ : VectorSearchPage) (r : VectorSearchRequest)
    (b : VectorSearchBudget) : result vector_error unit :=
  raise_if (bool_decide (vp_backend_id result_ = [])) (search_contract "backend identity is missing");;
  raise_if (bool_decide (vp_snapshot_id result_ ≠ snapshot_id r))
    (search_contract "backend returned a different owner snapshot");;
  raise_if (negb (page_in_budget r b result_))
    (search_contract "backend coverage or scan budget is inconsistent");;
  orders ← validate_hits r (page_cursor (vp_page result_)) (page_hits (vp_page result_)) [];
  raise_if (bool_decide (orders ≠ sort_by cmp_order id orders))
    (search_contract "backend candidates violate the exact total order").

(** ** The native backend *)

Definition with_vectors (rt : ScanRuntime) (left : option Z) : ScanRuntime :=
  {| scan_json_loads := scan_json_loads rt; scan_numpy := scan_numpy rt;
     native_control := native_control rt; scan_callback := scan_callback rt; vectors_left := left |}.

(** [NativeExactVectorSearch.search_page] *)
Definition native_search_page (rt : ScanRuntime) (t : Tables) (closed : bool) (r : VectorSearchRequest)
    (b : VectorSearchBudget) (left : option Z) : result vector_error (backend_outcome * option Z) :=
  raise_if closed (search_contract "native vector backend is closed");;
  '(page, st) ← _scan_exact_page (with_vectors rt left) t (request_query r) (budget_limit b)
                  (budget_vectors b) (request_after r) (budget_batch b) (request_evidence r)
                  (request_scope r) (request_item_ids r);
  Ok (Answered {| vp_page := page; vp_backend_id := py "native_exact"; vp_snapshot_id := snapshot_id r;
                  vp_coverage := coverage_of page; vp_fallback_reason := None;
                  vp_diagnostics := page_targets st |}, allowance st).

Definition NativeExactVectorSearch (rt : ScanRuntime) (t : Tables) : VectorBackend :=
  {| search_page := native_search_page rt t false; is_native := true |}.

(** ** The dispatch *)

(** The fence of the owner's files at the start, before a fallback and at the end,
    and the snapshot id of a path and a fence. *)
Inductive fence_site : Type := BeforeSearch | BeforeFallback | AfterSearch.

Record DispatchRuntime : Type := {
  scan_rt : ScanRuntime;
  capture_fence : fence_site → result vector_error pystr;
  snapshot_of : pystr → pystr → pystr
}.

(** What follows the answer of the backend that was asked first. *)
Definition settle_outcome (rt : DispatchRuntime) (t : Tables) (r : VectorSearchRequest)
    (b : VectorSearchBudget) (fence : pystr) (outcome : backend_outcome) (left : option Z) :
    result vector_error (VectorSearchPage * option pystr * option Z) :=
  match outcome with
  | Answered page => Ok (page, None, left)
  | Declined u =>
      raise_if (bool_decide (u_phase u ≠ py "prescan") || bool_decide (u_reason u = []) ||
                bool_decide (u_backend_id u = []))
        (search_contract "backend decline is not a valid pre-scan outcome");;
      now ← capture_fence rt BeforeFallback;
      raise_if (bool_decide (now ≠ fence))
        (SemanticStateError (py "semantic owner changed before exact fallback; no implicit retry"));;
      '(outcome', left') ← native_search_page (scan_rt rt) t false r b left;
      match outcome' with
      | Answered page => Ok (page, Some (u_reason u), left')
      | Declined _ => Err (search_contract "backend returned an invalid vector page")
      end
  end.

(** [_search_exact_page]: the page, why a fallback was taken, what is left to read. *)
Definition _search_exact_page (rt : DispatchRuntime) (t : Tables) (path : pystr) (q : ExactQuery)
    (limit max_vectors after_ref_id batch_size : Z) (evidence_mode : bool) (text_scope : pystr)
    (diagnostic_item_ids : list pystr) (exact_index vector_backend : option VectorBackend) :
    result vector_error (ExactSearchPage * option pystr * option Z) :=
  raise_if (bool_decide (is_Some exact_index) && bool_decide (is_Some vector_backend))
    (vector_value "select exact_index or vector_backend, not both");;
  _validate_text_scope (q_target_modality q) text_scope;;
  selected ← validate_diagnostic_item_ids diagnostic_item_ids;
  vectors ← remaining_read_limit max_vectors (vectors_left (scan_rt rt));
  let b := {| budget_limit := limit; budget_vectors := vectors; budget_batch := batch_size |} in
  validate_budget b;;
  vector_checkpoint (scan_callback (scan_rt rt)) AtStart;;
  fence ← capture_fence rt BeforeSearch;
  let r := {| request_query := q; owner_path := path; snapshot_id := snapshot_of rt path fence;
              request_after := after_ref_id; request_evidence := evidence_mode;
              request_scope := text_scope; request_item_ids := selected; metric := py "cosine" |} in
  validate_request r;;
  let backend := default (NativeExactVectorSearch (scan_rt rt) t) (union vector_backend exact_index) in
  '(outcome, remaining) ← search_page backend r b (vectors_left (scan_rt rt));
  '(result_, fallback_reason, remaining) ← settle_outcome rt t r b fence outcome remaining;
  validate_vector_page result_ r b;;
  remaining ← (if bool_decide (fallback_reason = None) && negb (is_native backend)
               then read_checkpoint (page_scanned (vp_page result_)) remaining else Ok remaining);
  now ← capture_fence rt AfterSearch;
  raise_if (bool_decide (now ≠ fence))
    (SemanticStateError (py "semantic owner changed during vector query; no implicit retry"));;
  vector_checkpoint (scan_callback (scan_rt rt)) AtEnd;;
  Ok (vp_page result_, fallback_reason, remaining).
