(* ===== verification/VectorSearchLaws.v ===== *)
(** * The laws of the vector search

    The native backend meets the contract that every page is validated against: its
    page is within the budget and the boundary of the query, names no group twice
    and is sorted. *)

From S2P Require Import Prelude PyOrder KnowledgeContracts Utf8 HeapQ VectorRetain VectorRetainLaws VectorFormat VectorQuery VectorScan VectorScanLaws VectorSearch.

#[global] Open Scope Z_scope.

(** ** Generic lemmas *)

(** A sorted list is its own sort. *)
Lemma sort_by_done {A K} (c : K → K → comparison) (key : A → K) `{!TotalOrder c} l :
  StronglySorted (λ x y, cmp_le c (key x) (key y)) l → sort_by c key l = l.
Proof.
  induction 1 as [|x l _ IH Hx]; [done|]. unfold sort_by in *. cbn. rewrite IH.
  destruct l as [|y l]; [done|]. cbn. apply Forall_cons in Hx as [Hy _]. unfold cmp_le in Hy.
  by destruct (c (key x) (key y)).
Qed.

Lemma sorted_last {A} (R : A → A → Prop) l x y :
  StronglySorted R l → last l = Some x → y ∈ l → R y x ∨ y = x.
Proof.
  intros Hs [l' ->]%last_Some Hy. apply elem_of_app in Hy as [Hy| ->%list_elem_of_singleton]; [|by right].
  left. apply StronglySorted_app in Hs as (Hs & _ & _). by apply Hs; [|left].
Qed.

Lemma clamp_range s : is_finite (clamp_score s) = true ∧
  SFleb (SFopp float_one) (clamp_score s) = true ∧ SFleb (clamp_score s) float_one = true.
Proof.
  unfold clamp_score. destruct (SFltb s float_one) eqn:H1.
  - destruct (SFltb (SFopp float_one) s) eqn:H2; [|by split_and!].
    unfold SFltb, SFleb in *. destruct (SFcompare s float_one) as [[]|] eqn:H4; try done.
    destruct (SFcompare (SFopp float_one) s) as [[]|] eqn:H3; try done.
    split_and!; [|done..]. by destruct s as [|[]| |].
  - by split_and!.
Qed.

(** ** The hits of a page *)

Lemma validate_hits_ok r cursor hs : ∀ seen,
  Forall (λ h, hit_in_bounds r cursor h = true) hs → NoDup (group_key r <$> hs) →
  (∀ h, h ∈ hs → group_key r h ∉ seen) →
  validate_hits r cursor hs seen = Ok (hit_order <$> hs).
Proof.
  induction hs as [|h hs IH]; intros seen Hb Hk Hseen; csimpl; [done|].
  apply Forall_cons in Hb as [Hh Hb]. csimpl in Hk. apply NoDup_cons in Hk as [Hn Hk].
  rewrite Hh, bool_decide_eq_false_2 by (apply Hseen; by left). cbn.
  rewrite (IH (group_key r h :: seen)); [done..|]. intros h' Hh' [Heq|Hin]%elem_of_cons.
  - apply Hn. rewrite <- Heq. by apply list_elem_of_fmap_2.
  - by apply (Hseen h'); [right|].
Qed.

Lemma group_keys_distinct r (es : list search_entry) :
  NoDup (search_key (request_evidence r) <$> es) → NoDup (group_key r <$> (e_hit <$> es)).
Proof.
  intros H. apply (NoDup_fmap_1 (λ p, key_of (request_evidence r) p.1 p.2)).
  rewrite <- !list_fmap_compose.
  replace ((λ p, key_of (request_evidence r) p.1 p.2) ∘ group_key r ∘ e_hit <$> es)
    with (search_key (request_evidence r) <$> es); [done|].
  apply list_fmap_ext. intros i e _. unfold search_key, group_key, key_of. cbn. by destruct (request_evidence r).
Qed.

(** ** The rows of well-formed tables *)

Lemma search_models_spec t q sigs : _search_models t q = Ok sigs →
  (∀ s, s ∈ sigs → ∃ m, m ∈ models t ∧ m_signature m = s ∧ m_vector_space m = q_vector_space q ∧
                        m_modality m = q_target_modality q) ∧
  (q_indexed_model_signatures q ≠ [] → sigs = q_indexed_model_signatures q).
Proof.
  unfold _search_models. intros H. inv_ok.
  set (available := sort_by _ _ _) in *.
  assert (∀ s, s ∈ available → ∃ m, m ∈ models t ∧ m_signature m = s ∧
    m_vector_space m = q_vector_space q ∧ m_modality m = q_target_modality q) as Hav.
  { intros s Hs. unfold available in Hs. rewrite sort_by_perm in Hs.
    apply list_elem_of_fmap in Hs as (m & -> & [Hm Hin]%list_elem_of_filter).
    exists m. bool_prop. by split_and!. }
  case_decide; inv_ok; [by split|]. split; [|done]. intros s Hs. apply Hav.
  rename select (existsb _ _ = false) into Hex. destruct (decide (s ∈ available)) as [|Hno]; [done|].
  exfalso. apply not_true_iff_false in Hex. apply Hex, existsb_exists. exists s.
  split; [by apply list_elem_of_In|]. by rewrite bool_decide_eq_false_2.
Qed.

Lemma published_spec t sigs ps : _published_model_generations t sigs = Ok ps →
  ∀ p, p ∈ ps → p.1 ∈ sigs.
Proof.
  unfold _published_model_generations. intros H. inv_ok. intros p Hp.
  apply list_elem_of_omap in Hp as (s & Hs & Hp). destruct (dget s _); [|done]. by injection Hp as <-.
Qed.

Lemma selected_row_spec t q after scope ps r : r ∈ selected_rows t q after scope ps →
  r ∈ members t ∧ after < r_ref_id r ∧ ∃ p, p ∈ ps ∧ r_model_signature r = p.1.
Proof.
  unfold selected_rows. rewrite sort_by_perm. intros (r' & Hr & Hin)%list_elem_of_bind.
  apply list_elem_of_omap in Hr as (p & Hp & Hr). destruct (row_selected _ _ _ _ _) eqn:Hsel; [|done].
  injection Hr as ->. unfold row_selected in Hsel. bool_prop. split_and!; [done|lia|by exists p].
Qed.

Lemma hit_fields jl q qv r h : _exact_search_hit jl q qv r = Ok h →
  ∃ fields s, h = row_hit q r fields (clamp_score s).
Proof.
  unfold _exact_search_hit. intros H. inv_ok. rename select (cosine_similarity _ _ _ = _) into Hc.
  unfold cosine_similarity in Hc. inv_ok. by eexists _, _.
Qed.

(** ** The page of the native backend *)

Section native.
Variables (jl : pystr → option json) (t : Tables) (r : VectorSearchRequest) (b : VectorSearchBudget)
  (qv : list pyfloat) (hit_of : MemberRow → SearchHit) (sigs : list pystr) (ps : list (pystr * Z)) (bound : Z).
Hypothesis W : TablesWellFormed t.
Hypothesis searched : _search_models t (request_query r) = Ok sigs.
Hypothesis published : _published_model_generations t sigs = Ok ps.

Abbreviation selected := (selected_rows t (request_query r) (request_after r) (request_scope r) ps).
Abbreviation used := (take (Z.to_nat bound) selected).
Abbreviation page := (owner_page t (request_query r) (budget_limit b) (request_after r)
                        (request_evidence r) (request_scope r) hit_of bound ps).

Hypothesis scored : ∀ row, row ∈ selected →
  _exact_search_hit jl (request_query r) qv row = Ok (hit_of row).
Hypothesis bounded : 0 < bound <= budget_vectors b.

Lemma page_hit h : h ∈ page_hits page → ∃ row, row ∈ used ∧ row ∈ selected ∧ h = hit_of row.
Proof.
  intros (e & -> & He)%list_elem_of_fmap. apply top_hits_in in He.
  apply list_elem_of_fmap in He as (row & -> & Hrow). exists row. split_and!; [done| |done].
  by apply (subseteq_take _ _ row) in Hrow.
Qed.

(** The last row that was taken has the greatest id. *)
Lemma used_last row last_row : row ∈ used → last used = Some last_row → r_ref_id row <= r_ref_id last_row.
Proof.
  intros Hrow Hlast.
  pose proof (sort_by_sorted Z.compare r_ref_id (members t ≫= λ r0, omap (λ p,
    if row_selected (q_target_modality (request_query r)) (request_scope r) (request_after r) p r0
    then Some r0 else None) ps)) as Hs.
  fold selected in Hs. rewrite <- (take_drop (Z.to_nat bound)) in Hs.
  apply StronglySorted_app in Hs as (_ & Hs & _).
  destruct (sorted_last _ _ _ _ Hs Hlast Hrow) as [Hle| ->]; [|done]. exact Hle.
Qed.

Lemma selected_boundary row : row ∈ selected →
  request_after r < r_ref_id row ∧ 1 <= r_generation_id row ∧
  r_vector_space row = q_vector_space (request_query r) ∧
  r_modality row = q_target_modality (request_query r) ∧
  (q_indexed_model_signatures (request_query r) = [] ∨
   r_model_signature row ∈ q_indexed_model_signatures (request_query r)) ∧
  r_item_id row ≠ [] ∧ r_entity_id row ≠ [] ∧ r_model_signature row ≠ [].
Proof.
  intros (Hm & Hafter & p & Hp & Hsig)%selected_row_spec.
  destruct (search_models_spec _ _ _ searched) as [Hmodels Hasked].
  pose proof (published_spec _ _ _ published p Hp) as Hps. rewrite <- Hsig in Hps.
  destruct (wf_ids _ W row Hm) as (? & ? & ? & ?).
  destruct (wf_joined _ W row Hm) as (m & Hin & Hms & <- & <-).
  destruct (Hmodels _ Hps) as (m' & Hin' & Hms' & <- & <-).
  assert (m = m') as ->.
  { apply list_elem_of_lookup in Hin as [i Hi], Hin' as [j Hj].
    assert (i = j) as ->; [|congruence].
    apply (NoDup_lookup (m_signature <$> models t) _ _ (m_signature m) (kt_models _ (wf_keys _ W)));
      rewrite list_lookup_fmap, ?Hi, ?Hj; cbn; congruence. }
  split_and!; try done. destruct (decide (q_indexed_model_signatures (request_query r) = [])); [by left|].
  right. by rewrite <- Hasked.
Qed.

Lemma page_hits_bounded : Forall (λ h, hit_in_bounds r (page_cursor page) h = true) (page_hits page).
Proof.
  apply Forall_forall. intros h (row & Hused & Hsel & ->)%page_hit.
  destruct (hit_fields _ _ _ _ _ (scored row Hsel)) as (fields & s & ->).
  destruct (selected_boundary row Hsel) as (Ha & Hg & Hs & Hm & Hq & Hi & He & Hsig).
  destruct (clamp_range s) as (Hf & Hlo & Hhi).
  unfold hit_in_bounds, row_hit. cbn [s_ref_id s_generation_id s_score s_vector_space s_modality
    s_query_model_signature s_indexed_model_signature s_item_id s_entity_id].
  rewrite Hf, Hlo, Hhi, Hs, Hm. repeat rewrite (bool_decide_eq_true_2 (_ = _) eq_refl).
  rewrite (bool_decide_eq_false_2 _ Hi), (bool_decide_eq_false_2 _ He), (bool_decide_eq_false_2 _ Hsig).
  rewrite !andb_true_iff. split_and!; try done.
  - by apply Z.ltb_lt.
  - by apply Z.leb_le.
  - apply orb_true_iff. rewrite !bool_decide_eq_true. exact Hq.
  - unfold owner_page. cbn. case_decide; [|done]. destruct (last used) as [l|] eqn:Hl; [|done].
    cbn. apply Z.leb_le. by apply used_last.
Qed.

Hypothesis positive : 0 < budget_limit b.

Lemma page_hits_few : zlen (page_hits page) <= Z.min (budget_limit b) (page_scanned page).
Proof.
  unfold owner_page. cbn [page_hits page_scanned]. rewrite length_fmap.
  match goal with |- context [top_hits ?o ?k ?l ?es] =>
    destruct (top_hits_length o k l es) as [H1 H2]; rewrite length_fmap in H2 end. lia.
Qed.

(** The page of the native backend, whatever backend it is said to be from. *)
Definition page_from (backend : pystr) (fallback : option pystr)
    (diagnostics : option (TargetDiagnostics SearchHit)) : VectorSearchPage :=
  {| vp_page := page; vp_backend_id := backend; vp_snapshot_id := snapshot_id r;
     vp_coverage := coverage_of page; vp_fallback_reason := fallback; vp_diagnostics := diagnostics |}.

Lemma page_budget backend fallback diagnostics :
  page_in_budget r b (page_from backend fallback diagnostics) = true.
Proof.
  pose proof page_hits_few as Hfew. unfold page_in_budget, page_from. cbn [vp_page vp_coverage].
  rewrite bool_decide_eq_true_2 by done.
  assert (0 <= page_scanned page <= budget_vectors b) as [H0 H1]
    by (unfold owner_page; cbn; rewrite length_take; lia).
  rewrite (proj2 (Z.leb_le _ _) H0), (proj2 (Z.leb_le _ _) H1), (proj2 (Z.leb_le _ _) Hfew). cbn [andb].
  unfold owner_page. cbn [page_complete page_cursor].
  destruct (decide (bound < zlen selected)) as [Hlt|Hge].
  - rewrite bool_decide_eq_false_2 by lia. cbn [andb orb negb].
    destruct (last used) as [l|] eqn:Hl.
    + cbn. apply Z.ltb_lt. apply last_Some_elem_of, (subseteq_take _ _ l), selected_row_spec in Hl. tauto.
    + apply last_None, (f_equal length) in Hl. rewrite length_take in Hl. cbn in Hl. lia.
  - rewrite bool_decide_eq_true_2 by lia. done.
Qed.

Lemma page_orders_sorted :
  sort_by cmp_order id (hit_order <$> page_hits page) = hit_order <$> page_hits page.
Proof.
  apply sort_by_done; [apply _|]. unfold owner_page. cbn [page_hits]. rewrite <- list_fmap_compose.
  match goal with |- context [top_hits ?o ?k ?l ?es] =>
    pose proof (top_hits_sorted o k l es) as Hs; pose proof (top_hits_in o k l es) as Hin end.
  assert (∀ e, e ∈ hit_entry ∘ hit_of <$> used → hit_order (e_hit e) = e_order e) as Horder
    by (by intros e (row & -> & _)%list_elem_of_fmap).
  induction Hs as [|e es Hs IH He]; csimpl; [constructor|]. constructor.
  - apply IH. intros e' He'. apply Hin. by right.
  - apply Forall_fmap, Forall_forall. intros e' He'. rewrite Forall_forall in He. cbn.
    rewrite !Horder by (apply Hin; by (left || right)). by apply He.
Qed.

(** The native backend meets the contract. *)
Lemma owner_page_valid backend fallback diagnostics : backend ≠ [] →
  validate_vector_page (page_from backend fallback diagnostics) r b = Ok tt.
Proof.
  intros Hb. unfold validate_vector_page. rewrite page_budget.
  unfold page_from. cbn [vp_page vp_backend_id vp_snapshot_id].
  rewrite !bool_decide_eq_false_2 by tauto. cbn [negb raise_if mbind result_bind].
  rewrite validate_hits_ok; [|apply page_hits_bounded|apply group_keys_distinct, top_hits_keys|
    by intros h _ ?%elem_of_nil].
  cbn [mbind result_bind]. by rewrite page_orders_sorted, bool_decide_eq_false_2 by tauto.
Qed.
End native.

(** ** What a validated page is *)

Lemma validate_hits_spec r cursor hs : ∀ seen orders,
  validate_hits r cursor hs seen = Ok orders →
  orders = hit_order <$> hs ∧ Forall (λ h, hit_in_bounds r cursor h = true) hs ∧
  NoDup (group_key r <$> hs) ∧ ∀ h, h ∈ hs → group_key r h ∉ seen.
Proof.
  induction hs as [|h hs IH]; intros seen orders H; cbn in H; inv_ok.
  { split_and!; [done|constructor|constructor|by intros h ?%elem_of_nil]. }
  rename select (validate_hits _ _ _ _ = _) into Hrest. apply IH in Hrest as (-> & Hb & Hk & Hseen). bool_prop.
  split_and!; [done|by constructor| |].
  - csimpl. apply NoDup_cons. split; [|done]. intros (h' & Heq & Hin)%list_elem_of_fmap.
    apply (Hseen h' Hin). rewrite <- Heq. by left.
  - intros h' [->|Hin]%elem_of_cons; [done|]. intros Hs. apply (Hseen h' Hin). by right.
Qed.

(** The order, the groups and the boundary of the hits of a page. *)
Record SoundPage (r : VectorSearchRequest) (b : VectorSearchBudget) (page : ExactSearchPage) : Prop := {
  sp_scanned : 0 <= page_scanned page <= budget_vectors b;
  sp_few : zlen (page_hits page) <= Z.min (budget_limit b) (page_scanned page);
  sp_sorted : StronglySorted (λ h h', cmp_le cmp_order (hit_order h) (hit_order h')) (page_hits page);
  sp_groups : NoDup (group_key r <$> page_hits page);
  sp_bounds : ∀ h, h ∈ page_hits page →
    request_after r < s_ref_id h ∧ is_finite (s_score h) = true ∧
    s_vector_space h = q_vector_space (request_query r) ∧
    s_modality h = q_target_modality (request_query r) ∧
    ∀ n, page_cursor page = Some n → s_ref_id h <= n;
  sp_cursor : if page_complete page then page_cursor page = None
              else ∃ n, page_cursor page = Some n ∧ request_after r < n
}.

Lemma validated_page r b result_ : validate_vector_page result_ r b = Ok tt → SoundPage r b (vp_page result_).
Proof.
  unfold validate_vector_page. intros H. inv_ok. rename select (validate_hits _ _ _ _ = _) into Hh.
  apply validate_hits_spec in Hh as (-> & Hb & Hk & _). bool_prop.
  rename select (page_in_budget _ _ _ = true) into Hp. unfold page_in_budget in Hp. bool_prop.
  repeat match goal with H : ¬ _ ≠ _ |- _ => apply dec_stable in H end. split; try done.
  - rename select (_ = sort_by _ _ _) into Hs. pose proof (sort_by_sorted cmp_order id (hit_order <$> page_hits (vp_page result_))) as Hsort.
    rewrite <- Hs in Hsort. clear -Hsort. induction (page_hits (vp_page result_)) as [|h hs IH]; [constructor|].
    csimpl in Hsort. apply StronglySorted_inv in Hsort as [Hs Hh]. constructor; [by apply IH|].
    rewrite Forall_fmap in Hh. exact Hh.
  - rewrite Forall_forall in Hb. intros h Hh. specialize (Hb h Hh). unfold hit_in_bounds in Hb. bool_prop.
    split_and!; try done. intros n Hn. rewrite Hn in *. bool_prop. lia.
  - rename select (_ && _ = false) into Hc. rename select (_ || _ = true) into Hn.
    destruct (page_complete (vp_page result_)), (page_cursor (vp_page result_)) as [n|]; try done.
    exists n. split; [done|]. cbn in Hn. lia.
Qed.
