(* ===== verification/VectorSpec.v ===== *)
(** * What a query of an index promises

    The page of a query over vector records, and the query of the view that was
    prepared from them: [record_page] names no row, offset, batch or heap. *)

From S2P Require Import Prelude PyOrder KnowledgeContracts Utf8 HeapQ VectorRetain VectorRetainLaws VectorFormat VectorFormatLaws VectorQuery VectorQueryLaws.

#[global] Open Scope Z_scope.

(** ** The specification *)

Section specification.
Variables (float_repr : pyfloat → pystr) (json_loads : pystr → option json) (q : ExactQuery)
  (query_vector : list pyfloat) (limit max_vectors after_ref_id : Z) (text_scope : pystr)
  (evidence_mode hydrate : bool).

Definition occurrences (s : pystr) (values : list pystr) : nat := length (filter (λ v, v = s) values).

(** How often the query asks for the vectors of the model of a record. *)
Definition requested (r : VectorRecord) : nat :=
  if decide (q_indexed_model_signatures q = []) then 1%nat
  else occurrences (model_signature r) (q_indexed_model_signatures q).

Definition in_text_scope (r : VectorRecord) : bool :=
  if decide (text_scope = py "content") then bool_decide (section_scope r ≠ py "title")
  else if decide (text_scope = py "title") then bool_decide (section_scope r = py "title") else true.

(** The records of the modality, the space and the scope of the query past its cursor. *)
Definition sees (r : VectorRecord) : bool :=
  (after_ref_id <? ref_id r) && bool_decide (modality r = q_target_modality q) &&
  bool_decide (vector_space r = q_vector_space q) && in_text_scope r.

Definition seen_copies (r : VectorRecord) : nat := if sees r then requested r else 0%nat.

Definition seen_records (records : list VectorRecord) : list VectorRecord :=
  records ≫= λ r, replicate (seen_copies r) r.

Definition record_score (r : VectorRecord) : pyfloat :=
  match _scalar_score query_vector (vector_blob r) (q_dimensions q) (vector_dtype r) with
  | Ok score => score
  | Err _ => S754_nan
  end.

Definition record_order (r : VectorRecord) : ExactSearchOrder :=
  exact_search_order (record_score r) (item_id r) (entity_id r) (model_signature r) (ref_id r).

Definition record_key (r : VectorRecord) : hit_key := key_of evidence_mode (item_id r) (entity_id r).

(** The provenance of a record as a reader of the index gets it. *)
Definition record_provenance (r : VectorRecord) : result vector_error json :=
  if hydrate then
    data ← _provenance float_repr json_loads (provenance_json r);
    value ← or_raise (utf8_decode data ≫= json_loads)
              (fallback "winner provenance JSON invalid" "winner_provenance");
    _object float_repr json_loads value "winner provenance"
  else Ok (JObject []).

Definition record_hit (r : VectorRecord) : result vector_error DerivedHit :=
  provenance ← record_provenance r;
  key ← pair_key float_repr (model_signature r) (generation_id r);
  Ok {| h_ref_id := ref_id r; h_entity_id := entity_id r; h_item_id := item_id r;
        h_indexed_model_signature := model_signature r; h_vector_space := vector_space r;
        h_modality := modality r; h_score := record_score r; h_generation_id := generation_id r;
        h_provenance := provenance; h_query_model_signature := query_model_signature q;
        h_handoff := [(py "owner", JStr (py "semantic"));
                      (py "owner_row_binding", JStr (owner_row_binding r));
                      (py "ref_id", JInt (ref_id r)); (py "pair_key", JStr key);
                      (py "generation_id", JInt (generation_id r));
                      (py "model_signature", JStr (model_signature r));
                      (py "locator_status", JStr (py "owner_hydration_required"))] |}.

(** The best [limit] of the first [max_vectors] records the query sees. *)
Definition record_page (records : list VectorRecord) : result vector_error DerivedSearchPage :=
  let all := seen_records records in
  let used := take (Z.to_nat max_vectors) all in
  hits_ ← map_result record_hit (top_hits record_order record_key limit used);
  Ok {| hits := hits_; scanned := zlen used;
        next_cursor := if decide (max_vectors < zlen all) then ref_id <$> last used else None;
        complete := bool_decide (zlen all <= max_vectors) |}.
End specification.

(** A file of the view: an empty one is not mapped. *)
Definition mapped (data : list byte) : option (list byte) :=
  match data with [] => None | _ => Some data end.

(** The view of the files that were written. *)
Definition prepared_view (ps : list PublishedPair) (st : PrepareState) : View :=
  {| pairs := ps; row_count := Z.to_nat (count st); rows_map := mapped (stream (rows_writer st));
     identity_map := mapped (stream (identity_writer st));
     metadata_map := mapped (stream (metadata_writer st));
     f16_map := mapped (stream (f16_writer st)); f32_map := mapped (stream (f32_writer st)) |}.

(** ** The requested signatures *)

Lemma occurrences_snoc s vs v :
  occurrences s (vs ++ [v]) = (occurrences s vs + if decide (v = s) then 1 else 0)%nat.
Proof.
  unfold occurrences. rewrite filter_app, length_app. f_equal. cbn.
  by repeat case_decide.
Qed.

Lemma occurrences_none s vs : s ∉ vs → occurrences s vs = 0%nat.
Proof.
  unfold occurrences. induction vs as [|v vs IH]; intros Hs; [done|].
  rewrite filter_cons_False; [apply IH|intros ->]; set_solver.
Qed.

Lemma occurrences_some s vs : s ∈ vs → (1 <= occurrences s vs)%nat.
Proof.
  intros Hs. assert (s ∈ filter (λ v, v = s) vs) as Hin by (by apply list_elem_of_filter).
  unfold occurrences. destruct (filter _ _); [by apply elem_of_nil in Hin|cbn; lia].
Qed.

Lemma signature_counts_spec vs : ∀ d, signature_counts vs = Ok d →
  ∀ s, dget s d = if decide (s ∈ vs) then Some (Z.of_nat (occurrences s vs)) else None.
Proof.
  induction vs as [|v vs IH] using rev_ind; intros d H s.
  { injection H as <-. by rewrite decide_False by (by intros ?%elem_of_nil). }
  unfold signature_counts in *. rewrite foldl_snoc in H. inv_ok. rename x into d0.
  specialize (IH d0 H). rewrite occurrences_snoc.
  destruct (decide (s = v)) as [->|Hne].
  - rewrite dget_dset_eq, decide_True by set_solver. rewrite decide_True by done. rewrite IH.
    case_decide as Hv; cbn; [f_equal; lia|]. rewrite occurrences_none by done. done.
  - rewrite dget_dset_ne by done. rewrite IH, Nat.add_comm. rewrite (decide_False (P := v = s)) by done.
    destruct (decide (s ∈ vs)), (decide (s ∈ vs ++ [v])); (done || set_solver).
Qed.

Lemma signature_counts_nil vs d : signature_counts vs = Ok d → d = [] ↔ vs = [].
Proof.
  intros H. split; [|intros ->; by injection H]. intros ->.
  destruct vs as [|v vs]; [done|]. pose proof (signature_counts_spec _ _ H v) as Hv.
  rewrite decide_True in Hv by left. done.
Qed.

Lemma compatible_pairs_spec q signatures ps i :
  i ∈ compatible_pairs q signatures ps ↔ ∃ p, ps !! i = Some p ∧ pair_compatible q signatures p = true.
Proof.
  unfold compatible_pairs. rewrite list_elem_of_filter. setoid_rewrite elem_of_seq. split.
  - intros [Hc _]. destruct (ps !! i) as [p|]; [by exists p|done].
  - intros (p & Hp & Hc). rewrite Hp. split; [done|]. apply lookup_lt_Some in Hp. lia.
Qed.
