(* ===== verification/VectorSpecLaws.v ===== *)
(** * The query of a view that holds records

    The rows of such a view are read back, the scan sees the records of the
    specification, and the page of the view is their page.  A prepared view holds the
    records it was prepared from. *)

From S2P Require Import Prelude PyOrder KnowledgeContracts Utf8 HeapQ VectorRetain VectorRetainLaws VectorFormat VectorFormatLaws VectorQuery VectorQueryLaws VectorSpec.

#[global] Open Scope Z_scope.

(** ** A view that holds records *)

(** The record [r] as the [i]-th row of a view: what is read back from its row. *)
Record Held (float_repr : pyfloat → pystr) (json_loads : pystr → option json) (view : View)
    (rows identity metadata : list byte) (i : nat) (r : VectorRecord) (p : PublishedPair) (row : WireRow)
    (provenance : list byte) : Prop := {
  held_pair : pairs view !! Z.to_nat (w_pair_index row) = Some p;
  held_valid : _validate_record float_repr json_loads r p = Ok provenance;
  held_ref : w_ref_id row = ref_id r;
  held_scope : dget (section_scope r) SCOPE_CODE = Some (w_scope row);
  held_row : _row rows (Z.of_nat i) = Ok row;
  held_candidate : _candidate row identity (zlen metadata) (pairs view) (Z.of_nat i) =
                     Ok (stored_candidate r row);
  held_metadata : slice metadata (w_metadata_offset row) (w_metadata_length row) = provenance;
  held_vector : ∃ m, vector_map view (vector_dtype r) = Some m ∧
                     _vector_bytes m (stored_candidate r row) = Ok (vector_blob r)
}.

Record Holds (float_repr : pyfloat → pystr) (json_loads : pystr → option json) (view : View)
    (rows identity metadata : list byte) (records : list VectorRecord) : Prop := {
  holds_count : row_count view = length records;
  holds_order : StronglySorted (λ r r', ref_id r < ref_id r') records;
  holds_files : records ≠ [] → rows_map view = Some rows ∧ identity_map view = Some identity ∧
                metadata_map view = Some metadata;
  holds_records : ∀ i r, records !! i = Some r →
    ∃ p row prov, Held float_repr json_loads view rows identity metadata i r p row prov
}.

(** The prepared view holds the records it was prepared from. *)
Section prepared.
Variables (float_repr : pyfloat → pystr) (json_loads : pystr → option json).
Variables (ps : list PublishedPair) (max_rows max_total_bytes : Z) (st : PrepareState)
  (records : list VectorRecord).
Hypothesis W : Written float_repr json_loads ps max_rows max_total_bytes st records.

Abbreviation stored := (Stored float_repr json_loads ps st).
Abbreviation view := (prepared_view ps st).

(** ** The files *)

Lemma mapped_some data : 0 < zlen data → mapped data = Some data.
Proof. destruct data; cbn; [lia|done]. Qed.

Lemma stored_files i r p row prov : stored i r p row prov →
  rows_map view = Some (stream (rows_writer st)) ∧
  identity_map view = Some (stream (identity_writer st)) ∧
  metadata_map view = Some (stream (metadata_writer st)) ∧
  vector_map view (vector_dtype r) = Some (segment st (vector_dtype r)).
Proof.
  intros S. destruct (validated_record _ _ _ _ _ (stored_valid _ _ _ _ _ _ _ _ _ S)) as (_ & _ & Hd & Hv & Hp).
  destruct (stored_row _ _ _ _ _ _ _ _ _ S) as (data & Hpack & Hrow).
  apply struct_pack_spec in Hpack as [Hlen _]; [|apply row_sized].
  assert (0 < struct_size ROW_STRUCT) by done. apply holds_at_bounds in Hrow as [? Hrow].
  destruct (stored_identity _ _ _ _ _ _ _ _ _ S) as (ident & Hi & _ & Hident).
  apply identity_length in Hi. assert (0 < struct_size IDENTITY_HEADER) by done.
  apply holds_at_bounds in Hident as [? Hident].
  destruct (holds_at_bounds _ _ _ (stored_metadata _ _ _ _ _ _ _ _ _ S)) as [? Hm].
  destruct (holds_at_bounds _ _ _ (stored_vector _ _ _ _ _ _ _ _ _ S)) as [? Hvec].
  assert (1 <= zlen (vector_blob r)) as Hblob.
  { unfold _validate_payload in Hv. inv_ok. bool_prop. unfold dtype_width in *. case_bool_decide; lia. }
  split_and!; [apply mapped_some; lia..|].
  pose proof (stored_dtype _ _ _ _ _ _ _ _ _ S) as Hdt. unfold DTYPE_CODE in Hdt. cbn in Hdt.
  unfold vector_map. cbn. revert Hvec. unfold segment. repeat case_decide; simplify_eq; repeat case_bool_decide; try congruence;
    intros Hvec; apply mapped_some; lia.
Qed.

Lemma prepared_holds :
  Holds float_repr json_loads view (stream (rows_writer st)) (stream (identity_writer st))
    (stream (metadata_writer st)) records.
Proof.
  split.
  - cbn. rewrite (written_count _ _ _ _ _ _ _ W). lia.
  - apply W.
  - intros Hne. destruct (lookup_lt_is_Some_2 records 0) as [r Hr]; [destruct records; [done|cbn; lia]|].
    destruct (written_stored _ _ _ _ _ _ _ W 0 r Hr) as (p & row & prov & S).
    by destruct (stored_files _ _ _ _ _ S) as (? & ? & ? & _).
  - intros i r Hr. destruct (written_stored _ _ _ _ _ _ _ W i r Hr) as (p & row & prov & S).
    exists p, row, prov. split.
    + apply S.
    + apply S.
    + apply S.
    + apply S.
    + apply (read_row S).
    + apply (read_candidate S).
    + apply (read_metadata S).
    + exists (segment st (vector_dtype r)). split; [|apply (read_vector S)].
      by destruct (stored_files _ _ _ _ _ S) as (_ & _ & _ & ?).
Qed.
End prepared.

(** ** The query of a view that holds records *)

Section held.
Variables (float_repr : pyfloat → pystr) (json_loads : pystr → option json) (view : View)
  (rows identity metadata : list byte) (records : list VectorRecord).
Hypothesis H : Holds float_repr json_loads view rows identity metadata records.

Abbreviation held := (Held float_repr json_loads view rows identity metadata).

(** ** The rows and the candidates *)

Definition no_row : WireRow :=
  {| w_ref_id := 0; w_pair_index := 0; w_entity_code := 0; w_dtype_code := 0; w_scope := 0;
     w_dimensions := 0; w_vector_offset := 0; w_vector_length := 0; w_identity_offset := 0;
     w_identity_length := 0; w_metadata_offset := 0; w_metadata_length := 0 |}.

Definition no_candidate : Candidate :=
  {| c_ref_id := 0; c_entity_id := []; c_item_id := []; c_pair_index := 0; c_vector_dtype := [];
     c_dimensions := 0; c_vector_offset := 0; c_vector_length := 0; c_metadata_offset := 0;
     c_metadata_length := 0; c_owner_row_binding := []; c_score := float_zero |}.

Definition row_at (i : nat) : WireRow :=
  match _row rows (Z.of_nat i) with Ok row => row | Err _ => no_row end.

Definition candidate_at (i : nat) : Candidate :=
  match _candidate (row_at i) identity (zlen metadata) (pairs view)
          (Z.of_nat i) with Ok c => c | Err _ => no_candidate end.

Lemma stored_row_at i r p row prov : held i r p row prov → row_at i = row.
Proof. intros S. unfold row_at. by rewrite (held_row _ _ _ _ _ _ _ _ _ _ _ S). Qed.

Lemma stored_candidate_at i r p row prov :
  held i r p row prov → candidate_at i = stored_candidate r row.
Proof. intros S. unfold candidate_at. by rewrite (stored_row_at _ _ _ _ _ S), (held_candidate _ _ _ _ _ _ _ _ _ _ _ S). Qed.

(** A candidate that was read from the row of a record. *)
Definition represents (c : Candidate) (r : VectorRecord) : Prop :=
  ∃ i p row prov, held i r p row prov ∧ c = stored_candidate r row.

(** ** What the query sees *)

Variables (q : ExactQuery) (signatures : list (pystr * Z)) (query_vector : list pyfloat).
Variables (limit max_vectors after_ref_id batch_size : Z) (text_scope : pystr)
  (evidence_mode hydrate : bool).
Hypothesis counted : signature_counts (q_indexed_model_signatures q) = Ok signatures.

Abbreviation selected := (compatible_pairs q signatures (pairs view)).
Abbreviation sees := (sees q after_ref_id text_scope).
Abbreviation seen_copies := (seen_copies q after_ref_id text_scope).
Abbreviation skipped := (row_skipped after_ref_id text_scope selected).

Lemma scope_seen i r p row prov : held i r p row prov →
  (bool_decide (text_scope = py "content") && bool_decide (Some (w_scope row) = dget (py "title") SCOPE_CODE)) ||
  (bool_decide (text_scope = py "title") && bool_decide (Some (w_scope row) ≠ dget (py "title") SCOPE_CODE)) =
  negb (in_text_scope text_scope r).
Proof.
  intros S. pose proof (held_scope _ _ _ _ _ _ _ _ _ _ _ S) as Hs.
  assert (bool_decide (Some (w_scope row) = dget (py "title") SCOPE_CODE) =
          bool_decide (section_scope r = py "title")) as Ht.
  { apply bool_decide_ext. change (dget (py "title") SCOPE_CODE) with (Some 2). unfold SCOPE_CODE in Hs. cbn in Hs.
    repeat case_decide; simplify_eq; rename select (section_scope r = _) into Hr; rewrite Hr; rewrite <- Hs;
      (split; intros He; [discriminate He || done|discriminate He || done]).
  }
  rewrite !bool_decide_not, Ht. unfold in_text_scope. rewrite bool_decide_not.
  destruct (decide (text_scope = py "content")) as [->|Hc].
  - rewrite bool_decide_eq_true_2 by done. cbn. by destruct (bool_decide (section_scope r = _)).
  - rewrite (bool_decide_eq_false_2 (text_scope = py "content")) by done. cbn.
    destruct (decide (text_scope = py "title")) as [Hs2|Hs2].
    + by rewrite (bool_decide_eq_true_2 _ Hs2).
    + by rewrite (bool_decide_eq_false_2 _ Hs2).
Qed.

Lemma pair_seen i r p row prov : held i r p row prov →
  bool_decide (Z.to_nat (w_pair_index row) ∉ selected) = negb (pair_compatible q signatures p).
Proof.
  intros S. pose proof (held_pair _ _ _ _ _ _ _ _ _ _ _ S) as Hp.
  rewrite bool_decide_not. f_equal. apply eq_true_iff_eq.
  rewrite bool_decide_eq_true, compatible_pairs_spec. setoid_rewrite Hp. naive_solver.
Qed.

Lemma stored_matches i r p row prov : held i r p row prov →
  model_signature r = pair_model_signature p ∧ generation_id r = pair_generation_id p ∧
  vector_space r = pair_vector_space p ∧ modality r = pair_modality p.
Proof.
  intros S. destruct (validated_record _ _ _ _ _ (held_valid _ _ _ _ _ _ _ _ _ _ _ S)) as (Hm & _).
  unfold record_matches in Hm. bool_prop. by split_and!.
Qed.

(** The rows that are not skipped are those the specification sees, and as often. *)
Lemma row_seen i r p row prov : held i r p row prov →
  (if skipped row then 0%nat else copies_of view signatures row) = seen_copies r ∧
  (skipped row = false → 1 <= seen_copies r)%nat.
Proof.
  intros S. pose proof (stored_matches _ _ _ _ _ S) as (Hm & _ & Hsp & Hmo).
  unfold row_skipped. rewrite <- orb_assoc, (scope_seen _ _ _ _ _ S), (pair_seen _ _ _ _ _ S).
  rewrite (held_ref _ _ _ _ _ _ _ _ _ _ _ S). unfold copies_of. cbn [pairs prepared_view].
  rewrite (held_pair _ _ _ _ _ _ _ _ _ _ _ S). unfold VectorSpec.seen_copies, VectorSpec.sees, pair_compatible.
  rewrite <- Hm, <- Hsp, <- Hmo, (Z.ltb_antisym (ref_id r)).
  destruct (ref_id r <=? after_ref_id); [done|]. cbn [negb andb orb].
  destruct (bool_decide (modality r = _)); [|done]. destruct (bool_decide (vector_space r = _)); [|done].
  cbn [negb andb orb]. unfold requested. pose proof (signature_counts_nil _ _ counted) as Hnil.
  rewrite (signature_counts_spec _ _ counted).
  destruct (decide (q_indexed_model_signatures q = [])) as [Hq|Hq].
  - rewrite Hq, decide_False by (by intros ?%elem_of_nil). rewrite bool_decide_eq_true_2 by tauto.
    cbn. by destruct (in_text_scope text_scope r).
  - rewrite bool_decide_eq_false_2 by tauto. cbn [orb].
    destruct (in_text_scope text_scope r); [|by rewrite orb_true_r].
    destruct (decide (model_signature r ∈ q_indexed_model_signatures q)) as [Hs|Hs]; cbn;
      [|by rewrite occurrences_none].
    rewrite Nat2Z.id. split; [done|]. intros _. by apply occurrences_some.
Qed.

(** ** The scores *)

Hypothesis scored_records : ∀ r, r ∈ records → seen_copies r ≠ 0%nat →
  dimensions r = q_dimensions q ∧
  ∃ s, _scalar_score query_vector (vector_blob r) (q_dimensions q) (vector_dtype r) = Ok s.

Definition candidate_score (c : Candidate) : pyfloat :=
  match (m ← or_raise (vector_map view (c_vector_dtype c)) MissingKeyError;
         payload ← _vector_bytes m c;
         _scalar_score query_vector payload (q_dimensions q) (c_vector_dtype c)) with
  | Ok s => s
  | Err _ => S754_nan
  end.

Definition good (c : Candidate) : Prop :=
  scorable (vector_map view) query_vector (q_dimensions q) c (candidate_score c) ∧
  is_Some (pairs view !! Z.to_nat (c_pair_index c)).

(** A candidate of a record that the query sees. *)
Definition candidate_for (c : Candidate) (r : VectorRecord) : Prop :=
  represents c r ∧ r ∈ records ∧ seen_copies r ≠ 0%nat.

Lemma candidate_for_good c r : candidate_for c r →
  good c ∧ candidate_score c = record_score q query_vector r.
Proof.
  intros ((i & p & row & prov & S & ->) & Hr & Hseen).
  destruct (scored_records r Hr Hseen) as [Hd [s Hs]].
  destruct (held_vector _ _ _ _ _ _ _ _ _ _ _ S) as (m & Hmap & Hbytes).
  assert (candidate_score (stored_candidate r row) = s) as Hscore.
  { unfold candidate_score. cbn [c_vector_dtype stored_candidate]. rewrite Hmap. cbn.
    rewrite Hbytes. cbn. by rewrite Hs. }
  split; [split|].
  - exists m, (vector_blob r). rewrite Hscore. by cbn [stored_candidate c_vector_dtype].
  - cbn. rewrite (held_pair _ _ _ _ _ _ _ _ _ _ _ S). done.
  - rewrite Hscore. unfold record_score. by rewrite Hs.
Qed.

(** ** The scan of the rows *)

Abbreviation visible_from := (visible view after_ref_id text_scope signatures selected row_at candidate_at).

Lemma rows_readable i : (i < length records)%nat →
  readable view after_ref_id text_scope signatures selected identity
    metadata rows good row_at candidate_at i.
Proof.
  intros [r Hr]%lookup_lt_is_Some. destruct (holds_records _ _ _ _ _ _ _ H i r Hr) as (p & row & prov & S).
  destruct (row_seen _ _ _ _ _ S) as [Hcopies Hone].
  unfold readable. rewrite (stored_row_at _ _ _ _ _ S), (stored_candidate_at _ _ _ _ _ S).
  split; [apply (held_row _ _ _ _ _ _ _ _ _ _ _ S)|]. intros Hsk. rewrite Hsk in Hcopies. specialize (Hone Hsk).
  split_and!; [by rewrite (held_pair _ _ _ _ _ _ _ _ _ _ _ S)|by rewrite Hcopies|apply (held_candidate _ _ _ _ _ _ _ _ _ _ _ S)|].
  apply (candidate_for_good _ r). split_and!; [by exists i, p, row, prov|by eapply list_elem_of_lookup_2|lia].
Qed.


Lemma visible_seen rs : ∀ index, drop index records = rs →
  Forall2 candidate_for (visible_from (length rs) index) (seen_records q after_ref_id text_scope rs).
Proof.
  induction rs as [|r rs IH]; intros index Hdrop; [constructor|].
  assert (records !! index = Some r) as Hr by (by rewrite <- (Nat.add_0_r index), <- lookup_drop, Hdrop).
  destruct (holds_records _ _ _ _ _ _ _ H index r Hr) as (p & row & prov & S).
  destruct (row_seen _ _ _ _ _ S) as [Hcopies _]. unfold seen_records. csimpl. cbn [length visible].
  apply Forall2_app.
  - rewrite (stored_row_at _ _ _ _ _ S), (stored_candidate_at _ _ _ _ _ S), <- Hcopies.
    destruct (skipped row); [constructor|]. destruct (copies_of view signatures row) eqn:Hn; [constructor|].
    apply Forall2_replicate. split_and!; [by exists index, p, row, prov|by eapply list_elem_of_lookup_2|lia].
  - apply (IH (Datatypes.S index)). by rewrite <- Nat.add_1_r, <- drop_drop, Hdrop.
Qed.

(** ** The entries and the hits *)

Definition entry_for (e : derived_entry) (r : VectorRecord) : Prop :=
  ∃ i c, e = scored_entry view evidence_mode candidate_score i c ∧ candidate_for c r.

Lemma entries_for cs rs : Forall2 candidate_for cs rs → ∀ i,
  Forall2 entry_for (entries_from view evidence_mode candidate_score i cs) rs.
Proof. induction 1; intros i; constructor; [by eexists _, _|done]. Qed.

Lemma candidate_pair c r : candidate_for c r → ∃ p, pairs view !! Z.to_nat (c_pair_index c) = Some p ∧
  pair_of view c = p ∧ c_ref_id c = ref_id r ∧
  model_signature r = pair_model_signature p ∧ generation_id r = pair_generation_id p ∧
  vector_space r = pair_vector_space p ∧ modality r = pair_modality p.
Proof.
  intros ((i & p & row & prov & S & ->) & _). exists p. pose proof (held_pair _ _ _ _ _ _ _ _ _ _ _ S) as Hp.
  pose proof (stored_matches _ _ _ _ _ S) as (? & ? & ? & ?).
  split_and!; try done. unfold pair_of. cbn. by rewrite Hp.
Qed.

Lemma entry_order e r : entry_for e r →
  record_order q query_vector r = d_order e ∧ record_key evidence_mode r = d_key e.
Proof.
  intros (i & c & -> & Hc). destruct (candidate_pair _ _ Hc) as (p & Hp & Hpo & _ & Hm & _).
  destruct (candidate_for_good _ _ Hc) as [_ Hs]. destruct Hc as ((j & p' & row & prov & S & ->) & _).
  unfold scored_entry, candidate_entry, candidate_order. cbn. rewrite Hpo, Hs, <- Hm. done.
Qed.

Lemma validated_provenance r p prov :
  _validate_record float_repr json_loads r p = Ok prov →
  _provenance float_repr json_loads (provenance_json r) = Ok prov.
Proof. unfold _validate_record. intros Hv. by inv_ok. Qed.

(** The hit of an entry is that of its record. *)
Lemma entry_hit e r : entry_for e r →
  (p ← or_raise (pairs view !! Z.to_nat (c_pair_index (d_candidate e))) MissingKeyError;
   _hit float_repr json_loads (d_candidate e) p q metadata hydrate) =
  record_hit float_repr json_loads q query_vector hydrate r.
Proof.
  intros (i & c & -> & Hc). destruct (candidate_pair _ _ Hc) as (p & Hp & _ & _ & Hm & Hg & Hsp & Hmo).
  destruct (candidate_for_good _ _ Hc) as [_ Hs]. destruct Hc as ((j & p' & row & prov & S & ->) & _).
  unfold scored_entry, candidate_entry. cbn [d_candidate c_pair_index scored pairs prepared_view] in *.
  rewrite Hp. cbn [or_raise mbind result_bind]. unfold _hit, record_hit, record_provenance.
  rewrite <- Hm, <- Hg, <- Hsp, <- Hmo, (validated_provenance _ _ _ (held_valid _ _ _ _ _ _ _ _ _ _ _ S)).
  assert (_provenance_from float_repr json_loads metadata
    (scored (stored_candidate r row) (candidate_score (stored_candidate r row))) =
    (value ← or_raise (utf8_decode prov ≫= json_loads)
               (fallback "winner provenance JSON invalid" "winner_provenance");
     _object float_repr json_loads value "winner provenance")) as ->.
  { unfold _provenance_from. cbn [scored stored_candidate c_metadata_offset c_metadata_length].
    by rewrite (held_metadata _ _ _ _ _ _ _ _ _ _ _ S). }
  cbn [scored c_score c_ref_id c_entity_id c_item_id c_owner_row_binding stored_candidate].
  rewrite Hs. by destruct hydrate.
Qed.

Lemma map_result_related {E A B C} (R : A → B → Prop) (f : A → result E C) (g : B → result E C) xs ys :
  Forall2 R xs ys → (∀ x y, R x y → f x = g y) → map_result f xs = map_result g ys.
Proof. intros Hall Hfg. induction Hall as [|x y xs ys Hxy _ IH]; [done|]. cbn. by rewrite (Hfg x y Hxy), IH. Qed.

Abbreviation page_spec := (record_page float_repr json_loads q query_vector limit max_vectors
                             after_ref_id text_scope evidence_mode hydrate records).

(** The page of a scan that retained the best of what it saw. *)
Lemma page_of_scan rt st' :
  VectorQuery.float_repr rt = float_repr → VectorQuery.json_loads rt = json_loads → 0 < max_vectors →
  (let cs := take (Z.to_nat max_vectors) (visible_from (length records) 0) in
   ordered_hits d_order (kept st') =
     top_hits d_order d_key limit (entries_from view evidence_mode candidate_score 0 cs) ∧
   scored_count st' = zlen cs ∧
   has_more st' = bool_decide (max_vectors < zlen (visible_from (length records) 0)) ∧
   last_ref st' = default after_ref_id (c_ref_id <$> last cs)) →
  derived_page rt view q metadata hydrate st' = page_spec.
Proof.
  intros Hf Hj Hmax (Hhits & Hcount & Hmore & Hlast). unfold derived_page, record_page.
  pose proof (visible_seen records 0 (drop_0 _)) as Hvis.
  set (all := seen_records _ _ _ _) in *. set (vis := visible_from _ _) in *.
  pose proof (Forall2_take _ _ _ (Z.to_nat max_vectors) Hvis) as Htake.
  rewrite Hhits, Hf, Hj, Hcount, Hmore, Hlast.
  pose proof (top_hits_related entry_for d_order d_key (record_order q query_vector)
    (record_key evidence_mode) limit _ _ entry_order (entries_for _ _ Htake 0)) as Htop.
  rewrite (map_result_related _ _ _ _ _ Htop entry_hit).
  rewrite (Forall2_length _ _ _ Hvis), (Forall2_length _ _ _ Htake).
  destruct (map_result _ _) as [hs|]; [|done]. cbn [mbind result_bind]. f_equal.
  destruct (decide (max_vectors < zlen all)) as [Hlt|Hge].
  - rewrite bool_decide_eq_true_2, bool_decide_eq_false_2 by lia. f_equal.
    pose proof (Forall2_last _ _ _ Htake) as Hl.
    destruct (last (take _ all)) as [r|] eqn:Hr.
    + inversion Hl as [c r' Hc Hcl|]; subst. destruct (candidate_pair _ _ Hc) as (p & _ & _ & Href & _).
      cbn. by rewrite Href.
    + apply last_None, (f_equal length) in Hr. rewrite length_take in Hr. cbn in Hr. lia.
  - by rewrite bool_decide_eq_false_2, bool_decide_eq_true_2 by lia.
Qed.

(** A query that sees no record. *)
Lemma nothing_seen : 0 < max_vectors →
  seen_records q after_ref_id text_scope records = [] → page_spec = Ok empty_page.
Proof.
  intros Hmax Hn. unfold record_page. rewrite Hn, take_nil. unfold top_hits. cbn.
  rewrite take_nil. cbn. by rewrite decide_False, bool_decide_eq_true_2 by lia.
Qed.

Lemma no_pair_seen : selected = [] → seen_records q after_ref_id text_scope records = [].
Proof.
  intros Hsel. pose proof (visible_seen records 0 (drop_0 _)) as Hvis.
  assert (∀ n i, visible_from n i = []) as Hnone; [|rewrite Hnone in Hvis; by inversion Hvis].
  intros n. induction n as [|n IH]; intros i; cbn; [done|]. rewrite IH.
  unfold row_skipped. rewrite Hsel, (bool_decide_eq_true_2 (_ ∉ [])) by (intros ?%elem_of_nil; done).
  by rewrite orb_true_r.
Qed.

Lemma bounds_positive l m a b ids sel : _bounds l m a b ids = Ok sel → 0 < l ∧ 0 < m.
Proof. unfold _bounds. intros Hb. inv_ok. bool_prop. lia. Qed.

(** ** The query *)

(** Every model that is asked for is that of a compatible pair. *)
Definition asked_pairs : Prop :=
  ∀ s, s ∈ q_indexed_model_signatures q → ∃ p, p ∈ pairs view ∧ pair_model_signature p = s ∧
    pair_modality p = q_target_modality q ∧ pair_vector_space p = q_vector_space q.

Lemma asked_selected : asked_pairs →
  existsb (λ s, negb (existsb (λ p, bool_decide (s = pair_model_signature p)) (pairs view))) signatures.*1 = false ∧
  bool_decide (selected = []) && bool_decide (q_indexed_model_signatures q ≠ []) = false.
Proof.
  intros Hasked. split.
  - apply not_true_iff_false. intros (s & Hs & Hn)%existsb_exists. apply negb_true_iff in Hn.
    apply list_elem_of_In, list_elem_of_fmap in Hs as ([s' n] & -> & Hs). cbn in *.
    destruct (Hasked s') as (p & Hp & Hm & _).
    { destruct (decide (s' ∈ q_indexed_model_signatures q)) as [|Hno]; [done|].
      pose proof (signature_counts_spec _ _ counted s') as Hc. rewrite decide_False in Hc by done.
      apply dget_None in Hc. exfalso. apply Hc, list_elem_of_fmap. by exists (s', n). }
    apply not_true_iff_false in Hn. apply Hn, existsb_exists. exists p.
    split; [by apply list_elem_of_In|by apply bool_decide_eq_true_2].
  - destruct (q_indexed_model_signatures q) as [|s l] eqn:Hq; [by rewrite andb_false_r|].
    destruct (Hasked s) as (p & [i Hi]%list_elem_of_lookup & Hm & Hmo & Hsp); [try rewrite Hq; by left|].
    rewrite bool_decide_eq_false_2; [done|]. intros Hsel.
    assert (i ∈ selected) as Hin; [|rewrite Hsel in Hin; by apply elem_of_nil in Hin].
    apply compatible_pairs_spec. exists p. split; [done|]. unfold pair_compatible.
    rewrite !bool_decide_eq_true_2 by done. cbn. rewrite Hm. apply orb_true_iff. right.
    apply bool_decide_eq_true_2. rewrite (signature_counts_spec _ _ counted), ?Hq, decide_True by (by left). done.
Qed.

Lemma held_query rt diagnostic_item_ids sel :
  VectorQuery.float_repr rt = float_repr → VectorQuery.json_loads rt = json_loads →
  numpy rt = None → (∀ s, vector_checkpoint (cancellation_check rt) s = Ok tt) →
  live_fence rt = Ok tt → mapped_fence rt = Ok tt → final_fence rt = Ok tt →
  dget text_scope SCOPE_CODE ≠ None → (q_target_modality q = py "image" → text_scope = py "all") →
  _bounds limit max_vectors after_ref_id batch_size diagnostic_item_ids = Ok sel →
  _query_vector q = Ok query_vector → asked_pairs →
  fst <$> query_exact_view rt view q limit max_vectors after_ref_id batch_size text_scope evidence_mode
            diagnostic_item_ids hydrate = page_spec.
Proof.
  intros Hf Hj Hnp Hquiet Hlive Hmapped Hfinal Hscope Himage Hb Hqv Hasked.
  destruct (bounds_positive _ _ _ _ _ _ Hb) as [Hl Hm]. unfold query_exact_view.
  rewrite (bool_decide_eq_false_2 (dget _ _ = None)) by done.
  assert (bool_decide (q_target_modality q = py "image") && bool_decide (text_scope ≠ py "all") = false) as ->.
  { apply andb_false_iff. destruct (decide (q_target_modality q = py "image")).
    - right. apply bool_decide_eq_false_2. tauto.
    - left. by apply bool_decide_eq_false_2. }
  cbn [orb raise_if mbind result_bind]. rewrite Hb. cbn [mbind result_bind].
  rewrite Hquiet. cbn [mbind result_bind]. rewrite Hqv. cbn [mbind result_bind].
  rewrite Hlive. cbn [mbind result_bind]. rewrite counted. cbn [mbind result_bind].
  destruct (asked_selected Hasked) as [Hpresent Hsel].
  rewrite Hpresent. cbn [raise_if mbind result_bind]. rewrite Hsel. cbn [raise_if mbind result_bind].
  destruct (decide (selected = [])) as [He|Hne].
  { rewrite bool_decide_eq_true_2 by done. cbn. by rewrite (nothing_seen Hm (no_pair_seen He)). }
  rewrite bool_decide_eq_false_2 by done. cbn [orb].
  rewrite (holds_count _ _ _ _ _ _ _ H).
  destruct (length records =? 0)%nat eqn:Hlen.
  { apply Nat.eqb_eq, nil_length_inv in Hlen. by rewrite nothing_seen by (done || by rewrite Hlen). }
  destruct (holds_files _ _ _ _ _ _ _ H) as (-> & -> & ->); [by intros ->|].
  rewrite Hmapped. cbn [mbind result_bind].
  rewrite Hnp.
  destruct (scan_ok None (cancellation_check rt) view query_vector q limit max_vectors after_ref_id batch_size
    text_scope evidence_mode signatures selected identity metadata
    rows candidate_score good Hl Hquiet) with (row_at := row_at) (candidate_at := candidate_at)
    (n := length records) (selected := sel) as (s1 & s2 & Hs1 & Hs2 & Hout).
  { intros done_ cs Hgood. apply scalar_scores_ok; [done|]. eapply Forall_impl; [exact Hgood|]. by intros c []. }
  { by intros c []. }
  { intros i Hi. by apply rows_readable. }
  { lia. }
  rewrite Hs1. cbn [mbind result_bind]. rewrite Hs2. cbn [mbind result_bind].
  rewrite (page_of_scan rt s2 Hf Hj Hm Hout), Hfinal. by destruct page_spec.
Qed.
End held.

(** A page without provenance is always there. *)
Lemma record_page_answers float_repr json_loads q query_vector limit max_vectors after_ref_id text_scope
    evidence_mode records :
  Forall (λ r, ∃ key, pair_key float_repr (model_signature r) (generation_id r) = Ok key) records →
  ∃ page, record_page float_repr json_loads q query_vector limit max_vectors after_ref_id text_scope
            evidence_mode false records = Ok page.
Proof.
  intros Hkeys. unfold record_page. set (es := top_hits _ _ _ _).
  assert (Forall (λ r, ∃ key, pair_key float_repr (model_signature r) (generation_id r) = Ok key) es) as Hes.
  { rewrite Forall_forall in *. intros r Hr%top_hits_in. apply Hkeys.
    apply (subseteq_take _ _ r), list_elem_of_bind in Hr as (r' & Hr & Hin). by apply elem_of_replicate in Hr as [-> _]. }
  clearbody es. clear Hkeys. induction Hes as [|r es [key Hr] _ [page IH]]; [by eexists|].
  inv_ok. rename select (map_result _ _ = _) into Hm.
  assert (∃ h, record_hit float_repr json_loads q query_vector false r = Ok h) as [h Hh]
    by (unfold record_hit, record_provenance; cbn [mbind result_bind]; rewrite Hr; by eexists).
  cbn [map_result]. rewrite Hh. cbn [mbind result_bind]. rewrite Hm. by eexists.
Qed.
