(* ===== verification/VectorVerify.v ===== *)
(** * The verification of a stored view against its owner

    [verify_exact_records] of [semantic/semantic_exact_index_format.py] on a view
    without a norm sidecar: each sealed row is compared with the next record of the
    owner, and what is left over with the manifest. *)

From S2P Require Import Prelude PyOrder KnowledgeContracts Utf8 VectorFormat VectorQuery.

#[global] Open Scope Z_scope.

(** What the verification reads of the manifest; [None]: no numeric projection. *)
Record Manifest : Type := {
  manifest_last_ref_id : Z;
  manifest_scope_counts : list (pystr * Z);
  manifest_dtype_counts : list (pystr * Z);
  manifest_numeric : option (Z * Z * Z)
}.

Record SealedView : Type := { opened : View; codes_map : option (list byte); manifest : Manifest }.

(** The locals of the loop. *)
Record VerifyState : Type := {
  v_items : list (pystr * Z);
  v_evidence : list (pystr * pystr * Z);
  v_estimated : Z;
  v_f16 : Z;
  v_f32 : Z;
  v_identity : Z;
  v_metadata : Z;
  v_scopes : list (pystr * Z);
  v_dtypes : list (pystr * Z);
  v_previous : Z
}.

Definition verify_start : VerifyState :=
  {| v_items := []; v_evidence := []; v_estimated := 0; v_f16 := 0; v_f32 := 0; v_identity := 0;
     v_metadata := 0; v_scopes := (λ p, (p.1, 0)) <$> SCOPE_CODE;
     v_dtypes := (λ p, (p.1, 0)) <$> DTYPE_CODE; v_previous := 0 |}.

Definition binding_error (reason : string) : vector_error := fallback reason "owner_binding".
Definition row_differs (i : nat) (what : string) : vector_error :=
  FallbackExactRequired (py "authoritative row " ++ int_text (Z.of_nat i) ++ py what) (py "owner_binding").

(** [except (DerivedViewError, TypeError, ValueError)] *)
Definition invalid_record (i : nat) (e : vector_error) : vector_error :=
  match e with
  | DerivedViewContractError _ | FallbackExactRequired _ _ | VectorValueError _ | UnicodeEncodeError =>
      FallbackExactRequired (py "authoritative record " ++ int_text (Z.of_nat i) ++ py " is invalid")
        (py "owner_binding")
  | _ => e
  end.

Definition catch_invalid {A} (i : nat) (r : result vector_error A) : result vector_error A :=
  match r with Ok x => Ok x | Err e => Err (invalid_record i e) end.

(** Two dictionaries are equal, whatever their orders. *)
Definition same_dict (d d' : list (pystr * Z)) : bool :=
  (length d =? length d')%nat && forallb (λ p, bool_decide (dget p.1 d' = Some p.2)) d.

Section verify.
Variables (float_repr : pyfloat → pystr) (json_loads : pystr → option json)
  (cancellation_check : vector_callback) (sv : SealedView).
Variables (pair_by_key : list (pystr * Z)) (rows identity metadata : list byte).

(** The identity of a row is that of the record. *)
Definition row_matches (r : VectorRecord) (pair_index : Z) (row : WireRow) : bool :=
  (w_ref_id row =? ref_id r) && (w_pair_index row =? pair_index) &&
  bool_decide (Some (w_entity_code row) = dget (entity_kind r) ENTITY_CODE) &&
  bool_decide (Some (w_dtype_code row) = dget (vector_dtype r) DTYPE_CODE) &&
  bool_decide (Some (w_scope row) = dget (section_scope r) SCOPE_CODE) &&
  (w_dimensions row =? dimensions r).

Definition vector_offset (r : VectorRecord) (st : VerifyState) : Z :=
  if bool_decide (vector_dtype r = py "float16") then v_f16 st else v_f32 st.

(** The codes of a row of the numeric projection. *)
Definition verify_codes (i : nat) (r : VectorRecord) (st : VerifyState) :
    result vector_error (list (pystr * Z) * list (pystr * pystr * Z) * Z) :=
  match manifest_numeric (manifest sv) with
  | None => Ok (v_items st, v_evidence st, v_estimated st)
  | Some _ =>
      codes ← or_raise (codes_map sv) (fallback "authoritative verification segment is absent" "artifact_identity");
      let offset := Z.of_nat i * struct_size NUMERIC_CODE_STRUCT in
      raise_if (zlen codes <? offset + struct_size NUMERIC_CODE_STRUCT)
        (fallback "numeric code row is outside artifact" "numeric_codes");;
      '((item_code, evidence_code), books) ← _numeric_codes r (v_items st) (v_evidence st) (v_estimated st);
      raise_if (bool_decide (struct_unpack NUMERIC_CODE_STRUCT
                  (slice codes offset (struct_size NUMERIC_CODE_STRUCT)) ≠ [item_code; evidence_code]))
        (FallbackExactRequired (py "authoritative row " ++ int_text (Z.of_nat i) ++
           py " numeric code differs") (py "numeric_codes"));;
      Ok books
  end.

(** One turn of the loop: the record against the row. *)
Definition verify_row (i : nat) (r : VectorRecord) (st : VerifyState) : result vector_error VerifyState :=
  raise_if (ref_id r <? 1) (binding_error "authoritative record ref_id is invalid");;
  raise_if (ref_id r <=? v_previous st) (binding_error "authoritative records are not strictly ordered");;
  key ← pair_key float_repr (model_signature r) (generation_id r);
  pair_index ← or_raise (dget key pair_by_key)
                 (binding_error "authoritative record is outside published pairs");
  p ← or_raise (pairs (opened sv) !! Z.to_nat pair_index) MissingKeyError;
  provenance ← catch_invalid i (_validate_record float_repr json_loads r p);
  row ← _row rows (Z.of_nat i);
  raise_if (negb (row_matches r pair_index row)) (row_differs i " identity differs");;
  raise_if (bool_decide (w_vector_offset row ≠ vector_offset r st) ||
            bool_decide (w_vector_length row ≠ zlen (vector_blob r)))
    (row_differs i " vector layout differs");;
  raise_if (match vector_map (opened sv) (vector_dtype r) with
            | Some m => bool_decide (slice m (w_vector_offset row) (w_vector_length row) ≠ vector_blob r)
            | None => true
            end) (row_differs i " vector bytes differ");;
  expected ← _encode_identity r;
  raise_if (bool_decide (w_identity_offset row ≠ v_identity st) ||
            bool_decide (w_identity_length row ≠ zlen expected) ||
            bool_decide (slice identity (w_identity_offset row) (w_identity_length row) ≠ expected))
    (row_differs i " identity bytes differ");;
  raise_if (bool_decide (w_metadata_offset row ≠ v_metadata st) ||
            bool_decide (w_metadata_length row ≠ zlen provenance) ||
            bool_decide (slice metadata (w_metadata_offset row) (w_metadata_length row) ≠ provenance))
    (row_differs i " provenance differs");;
  '((items, evidence), estimated) ← verify_codes i r st;
  let is_f16 := bool_decide (vector_dtype r = py "float16") in
  scopes' ← tally (section_scope r) (v_scopes st);
  dtypes' ← tally (vector_dtype r) (v_dtypes st);
  Ok {| v_items := items; v_evidence := evidence; v_estimated := estimated;
        v_f16 := if is_f16 then v_f16 st + zlen (vector_blob r) else v_f16 st;
        v_f32 := if is_f16 then v_f32 st else v_f32 st + zlen (vector_blob r);
        v_identity := v_identity st + zlen expected; v_metadata := v_metadata st + zlen provenance;
        v_scopes := scopes'; v_dtypes := dtypes'; v_previous := ref_id r |}.

(** [for row_index in range(count)]: [n] rows are left from [i] on; then the
    iteration has to be exhausted. *)
Fixpoint verify_rows (n i : nat) (records : list VectorRecord) (exhausted : result vector_error unit)
    (st : VerifyState) : result vector_error VerifyState :=
  match n, records with
  | O, [] => exhausted;; Ok st
  | O, _ :: _ => Err (binding_error "authoritative record cardinality exceeds index")
  | S n', records =>
      vector_checkpoint cancellation_check (AtRow i);;
      match records with
      | [] => exhausted;; Err (binding_error "authoritative record cardinality/type differs")
      | r :: records' => st' ← verify_row i r st; verify_rows n' (S i) records' exhausted st'
      end
  end.

(** A file that is mapped has the given length. *)
Definition file_size_is (file : option (list byte)) (size : Z) : bool :=
  match file with Some data => zlen data =? size | None => true end.

(** What follows the loop. *)
Definition verify_end (st : VerifyState) : result vector_error unit :=
  let m := manifest sv in let v := opened sv in
  raise_if (bool_decide (v_previous st ≠ manifest_last_ref_id m))
    (binding_error "authoritative last_ref_id differs");;
  raise_if (match manifest_numeric m with
            | Some counts => bool_decide (counts ≠ (zlen (v_items st), zlen (v_evidence st), v_estimated st))
            | None => false
            end) (fallback "authoritative numeric code cardinality differs" "numeric_codes");;
  raise_if (negb (same_dict (manifest_scope_counts m) (v_scopes st) &&
                  same_dict (manifest_dtype_counts m) (v_dtypes st)))
    (binding_error "authoritative scope or dtype counts differ");;
  raise_if (negb (file_size_is (rows_map v) (Z.of_nat (row_count v) * struct_size ROW_STRUCT)))
    (binding_error "authoritative row cardinality differs");;
  raise_if (negb (file_size_is (f16_map v) (v_f16 st) && file_size_is (f32_map v) (v_f32 st)))
    (binding_error "authoritative vector segment has trailing bytes");;
  raise_if (negb (file_size_is (identity_map v) (v_identity st)))
    (binding_error "authoritative identity segment has trailing bytes");;
  raise_if (negb (file_size_is (metadata_map v) (v_metadata st)))
    (binding_error "authoritative metadata segment has trailing bytes").
End verify.

(** [{pair.key: index for index, pair in enumerate(pairs)}] *)
Definition pairs_by_key (float_repr : pyfloat → pystr) (ps : list PublishedPair) :
    result vector_error (list (pystr * Z)) :=
  keys ← map_result (λ p, pair_key float_repr (pair_model_signature p) (pair_generation_id p)) ps;
  Ok (foldl (λ d p, dset p.2 (Z.of_nat p.1) d) [] (zip (seq 0 (length keys)) keys)).

(** [verify_exact_records]; [stable_before] and [stable_after] are the two calls of
    [view.assert_files_stable()]. *)
Definition verify_exact_records (float_repr : pyfloat → pystr) (json_loads : pystr → option json)
    (cancellation_check : vector_callback) (stable_before stable_after : result vector_error unit)
    (sv : SealedView) (records : list VectorRecord) (exhausted : result vector_error unit) :
    result vector_error unit :=
  stable_before;;
  pair_by_key ← pairs_by_key float_repr (pairs (opened sv));
  let v := opened sv in
  raise_if (negb (row_count v =? 0)%nat &&
            (bool_decide (rows_map v = None) || bool_decide (identity_map v = None) ||
             bool_decide (metadata_map v = None) ||
             (bool_decide (manifest_numeric (manifest sv) ≠ None) && bool_decide (codes_map sv = None))))
    (fallback "authoritative verification segment is absent" "artifact_identity");;
  st ← verify_rows float_repr json_loads cancellation_check sv pair_by_key (default [] (rows_map v))
         (default [] (identity_map v)) (default [] (metadata_map v)) (row_count v) 0 records exhausted
         verify_start;
  verify_end sv st;;
  vector_checkpoint cancellation_check AtEnd;;
  stable_after.
