(* ===== verification/VectorVerifyLaws.v ===== *)
(** * The laws of the verification

    A view that is accepted holds the records it was verified against, and the view
    that was prepared from records is accepted. *)

From S2P Require Import Prelude PyOrder KnowledgeContracts Utf8 VectorRetain VectorRetainLaws VectorFormat VectorFormatLaws VectorQuery VectorSpec VectorSpecLaws VectorVerify.

#[global] Open Scope Z_scope.

(** ** What is accepted *)

Section sound.
Variables (float_repr : pyfloat → pystr) (json_loads : pystr → option json)
  (cancellation_check : vector_callback) (sv : SealedView) (pair_by_key : list (pystr * Z))
  (rows identity metadata : list byte).

Abbreviation held := (Held float_repr json_loads (opened sv) rows identity metadata).

Definition offsets_ok (st : VerifyState) : Prop :=
  0 <= v_f16 st ∧ 0 <= v_f32 st ∧ 0 <= v_identity st ∧ 0 <= v_metadata st.

Lemma blob_nonempty r : _validate_payload (vector_blob r) (dimensions r) (vector_dtype r) true = Ok tt →
  1 <= dimensions r → 1 <= zlen (vector_blob r).
Proof.
  unfold _validate_payload. intros H Hd. inv_ok. bool_prop. unfold dtype_width in *. case_bool_decide; lia.
Qed.

Lemma vector_held m r row : 
  _validate_payload (vector_blob r) (dimensions r) (vector_dtype r) true = Ok tt →
  holds_at m (w_vector_offset row) (vector_blob r) → w_vector_length row = zlen (vector_blob r) →
  _vector_bytes m (stored_candidate r row) = Ok (vector_blob r).
Proof.
  intros Hpay Hvec Hvl. apply holds_at_bounds in Hvec as Hvb. unfold _vector_bytes. cbn. rewrite Hvl.
  destruct (Z.ltb_spec (zlen m) (w_vector_offset row + zlen (vector_blob r))); [lia|].
  cbn. rewrite holds_at_slice by done. by rewrite (validate_payload_weaken _ _ _ Hpay).
Qed.

(** What a turn of the loop has compared. *)
Record Compared (i : nat) (r : VectorRecord) (st st' : VerifyState) (p : PublishedPair) (row : WireRow)
    (provenance ident : list byte) : Prop := {
  cmp_pair : pairs (opened sv) !! Z.to_nat (w_pair_index row) = Some p;
  cmp_valid : _validate_record float_repr json_loads r p = Ok provenance;
  cmp_identity : _encode_identity r = Ok ident;
  cmp_row : _row rows (Z.of_nat i) = Ok row;
  cmp_codes : w_ref_id row = ref_id r ∧ w_dimensions row = dimensions r ∧
    dget (entity_kind r) ENTITY_CODE = Some (w_entity_code row) ∧
    dget (vector_dtype r) DTYPE_CODE = Some (w_dtype_code row) ∧
    dget (section_scope r) SCOPE_CODE = Some (w_scope row);
  cmp_vector : ∃ m, vector_map (opened sv) (vector_dtype r) = Some m ∧
    w_vector_offset row = vector_offset r st ∧ w_vector_length row = zlen (vector_blob r) ∧
    slice m (vector_offset r st) (zlen (vector_blob r)) = vector_blob r;
  cmp_ident : w_identity_offset row = v_identity st ∧ w_identity_length row = zlen ident ∧
    slice identity (v_identity st) (zlen ident) = ident;
  cmp_metadata : w_metadata_offset row = v_metadata st ∧ w_metadata_length row = zlen provenance ∧
    slice metadata (v_metadata st) (zlen provenance) = provenance;
  cmp_next : v_identity st' = v_identity st + zlen ident ∧
    v_metadata st' = v_metadata st + zlen provenance ∧ v_f16 st <= v_f16 st' ∧ v_f32 st <= v_f32 st';
  cmp_increasing : v_previous st < ref_id r ∧ v_previous st' = ref_id r
}.

Lemma verify_row_compared i r st st' :
  verify_row float_repr json_loads sv pair_by_key rows identity metadata i r st = Ok st' →
  ∃ p row prov ident, Compared i r st st' p row prov ident.
Proof.
  intros H. unfold verify_row in H. inv_ok. split_pairs. bool_prop.
  rename select (catch_invalid _ _ = Ok _) into Hv. unfold catch_invalid in Hv.
  destruct (_validate_record _ _ r _) as [prov|] eqn:Hvalid; [|done]. injection Hv as <-.
  rename select (row_matches _ _ _ = true) into Hm. unfold row_matches in Hm. bool_prop.
  repeat match goal with H : ¬ _ ≠ _ |- _ => apply dec_stable in H end.
  rename select (match vector_map _ _ with _ => _ end = false) into Hvec.
  destruct (vector_map (opened sv) (vector_dtype r)) as [m|] eqn:Hmap; [|done].
  apply bool_decide_eq_false, dec_stable in Hvec.
  rename select PublishedPair into p. rename select WireRow into row.
  match goal with H : _encode_identity r = Ok ?ident |- _ => exists p, row, prov, ident end.
  split; try done.
  - congruence.
  - exists m. split_and!; congruence.
  - split_and!; congruence.
  - split_and!; congruence.
  - cbn. split_and!; [done..| |]; case_bool_decide; lia.
Qed.

Lemma compared_held i r st st' p row prov ident :
  offsets_ok st → Compared i r st st' p row prov ident → offsets_ok st' ∧ held i r p row prov.
Proof.
  intros (H16 & H32 & Hid & Hme) [Hp Hvalid Hi Hrow (Href & Hdim & Hent & Hdt & Hsc) (m & Hmap & Hvo & Hvl & Hvs)
    (Hio & Hil & His) (Hmo & Hml & Hms) (Hn1 & Hn2 & Hn3 & Hn4) _].
  split; [unfold offsets_ok; lia|].
  destruct (validated_record _ _ _ _ _ Hvalid) as (_ & _ & Hd & Hpay & Hpl).
  pose proof (blob_nonempty r Hpay ltac:(lia)) as Hblob. pose proof (identity_length _ _ Hi) as Hi24.
  assert (0 < struct_size IDENTITY_HEADER) as Hpos by done.
  assert (0 <= vector_offset r st) as Hvo0 by (unfold vector_offset; case_bool_decide; lia).
  apply slice_holds in Hvs; [|done|by intros Hb; rewrite Hb in Hblob].
  apply slice_holds in His; [|done|intros Hb; rewrite Hb in Hi24; cbn in Hi24; lia].
  apply slice_holds in Hms as Hmh; [|done|by intros Hb; rewrite Hb in Hpl].
  apply holds_at_bounds in Hmh. split; try done.
  - apply (candidate_of_parts float_repr json_loads _ _ _ _ r p row prov ident); try done; try congruence; try lia.
  - by rewrite Hmo, Hml.
  - exists m. split; [done|]. apply vector_held; [done| |done]. by rewrite Hvo.
Qed.

Lemma verify_rows_held n : ∀ i records exhausted st st',
  offsets_ok st →
  verify_rows float_repr json_loads cancellation_check sv pair_by_key rows identity metadata n i records
    exhausted st = Ok st' →
  length records = n ∧ StronglySorted (λ r r', ref_id r < ref_id r') records ∧
  Forall (λ r, v_previous st < ref_id r) records ∧
  ∀ k r, records !! k = Some r → ∃ p row prov, held (i + k) r p row prov.
Proof.
  induction n as [|n IH]; intros i records exhausted st st' Ho H; cbn in H; destruct records as [|r records];
    inv_ok; [split_and!; [done|apply SSorted_nil|apply Forall_nil_2|done]|].
  rename select (verify_row _ _ _ _ _ _ _ _ _ _ = _) into Hr. apply verify_row_compared in Hr as (p & row & prov & ident & C).
  destruct (compared_held _ _ _ _ _ _ _ _ Ho C) as [Ho' Hheld].
  rename select (verify_rows _ _ _ _ _ _ _ _ _ _ _ _ _ = _) into Hrest.
  apply IH in Hrest as (Hlen & Hsort & Hprev & Hall); [|done].
  destruct (cmp_increasing _ _ _ _ _ _ _ _ C) as [Hlt Heq]. rewrite Heq in Hprev.
  split_and!; [cbn; lia|by constructor|constructor; [done|]; eapply Forall_impl; [exact Hprev|cbn; lia]|].
  intros [|k] x Hx.
  - injection Hx as <-. rewrite Nat.add_0_r. by exists p, row, prov.
  - rewrite <- Nat.add_succ_comm. by apply Hall.
Qed.
End sound.

(** The iteration is exhausted where the view is accepted, and its records have keys. *)
Lemma verify_rows_exhausted float_repr json_loads cb sv by_key rows identity metadata n : ∀ i records (exhausted : result vector_error unit) st st',
  verify_rows float_repr json_loads cb sv by_key rows identity metadata n i records exhausted st = Ok st' →
  exhausted = Ok tt ∧ Forall (λ r, ∃ key, pair_key float_repr (model_signature r) (generation_id r) = Ok key) records.
Proof.
  induction n as [|n IH]; intros i records exhausted st st' H; cbn in H; destruct records as [|r records]; inv_ok.
  - by split.
  - rename select (verify_rows _ _ _ _ _ _ _ _ _ _ _ _ _ = _) into Hrest. apply IH in Hrest as [-> Hkeys].
    split; [done|]. constructor; [|done]. rename select (verify_row _ _ _ _ _ _ _ _ _ _ = _) into Hr.
    unfold verify_row in Hr. inv_ok. by eexists.
Qed.

Lemma verified_exhausted float_repr json_loads cb before after sv records exhausted :
  verify_exact_records float_repr json_loads cb before after sv records exhausted = Ok tt →
  exhausted = Ok tt ∧ Forall (λ r, ∃ key, pair_key float_repr (model_signature r) (generation_id r) = Ok key) records.
Proof. unfold verify_exact_records. intros H. inv_ok. by eapply verify_rows_exhausted. Qed.

(** A view that is accepted holds the records. *)
Lemma verified_holds float_repr json_loads cb before after sv records exhausted :
  verify_exact_records float_repr json_loads cb before after sv records exhausted = Ok tt →
  Holds float_repr json_loads (opened sv) (default [] (rows_map (opened sv)))
    (default [] (identity_map (opened sv))) (default [] (metadata_map (opened sv))) records.
Proof.
  unfold verify_exact_records. intros H. inv_ok.
  rename select (verify_rows _ _ _ _ _ _ _ _ _ _ _ _ _ = _) into Hrows.
  apply verify_rows_held in Hrows as (Hlen & Hsort & _ & Hheld); [|by split_and!].
  split; [done|done| |exact Hheld].
  intros Hne. assert (row_count (opened sv) ≠ 0%nat) as Hc by (rewrite <- Hlen; by destruct records).
  rename select (_ && _ = false) into Hfiles. apply Nat.eqb_neq in Hc. rewrite Hc in Hfiles. cbn in Hfiles.
  bool_prop. destruct (rows_map (opened sv)), (identity_map (opened sv)), (metadata_map (opened sv)); done.
Qed.

(** ** What was prepared is accepted *)

(** The sealed view of what was written: the manifest has the counts of the loop. *)
Definition sealed_from (ps : list PublishedPair) (numeric : bool) (st : PrepareState) : SealedView :=
  {| opened := prepared_view ps st;
     codes_map := if numeric then mapped (stream (codes_writer st)) else None;
     manifest :=
       {| manifest_last_ref_id := previous st; manifest_scope_counts := scopes st;
          manifest_dtype_counts := dtypes st;
          manifest_numeric := if numeric
                              then Some (zlen (item_codes st), zlen (evidence_codes st), codebook_estimated_bytes st)
                              else None |} |}.

(** The locals of the verification where those of the preparation are [st]. *)
Definition verify_state (st : PrepareState) : VerifyState :=
  {| v_items := item_codes st; v_evidence := evidence_codes st; v_estimated := codebook_estimated_bytes st;
     v_f16 := zlen (stream (f16_writer st)); v_f32 := zlen (stream (f32_writer st));
     v_identity := zlen (stream (identity_writer st)); v_metadata := zlen (stream (metadata_writer st));
     v_scopes := scopes st; v_dtypes := dtypes st; v_previous := previous st |}.

(** The two dictionaries of the pairs agree. *)
Lemma map_result_snoc {E A B} (f : A → result E B) l x ys y :
  map_result f l = Ok ys → f x = Ok y → map_result f (l ++ [x]) = Ok (ys ++ [y]).
Proof.
  revert ys. induction l as [|z l IH]; intros ys H Hx; cbn in *; inv_ok; [by rewrite Hx|].
  rename select (map_result _ _ = _) into Hl. rename select (f z = _) into Hz.
  rewrite Hz. cbn. by rewrite (IH _ Hl Hx).
Qed.

Lemma pairs_by_key_spec float_repr ps idx : _pairs float_repr ps = Ok idx → pairs_by_key float_repr ps = Ok idx.
Proof.
  unfold _pairs. intros H. inv_ok. rename select (foldl _ _ _ = _) into Hf.
  assert (∃ keys, map_result (λ p, pair_key float_repr (pair_model_signature p) (pair_generation_id p)) ps = Ok keys ∧
    length idx = length keys ∧
    foldl (λ d p, dset p.2 (Z.of_nat p.1) d) [] (zip (seq 0 (length keys)) keys) = idx) as (keys & Hk & _ & Hd);
    [|unfold pairs_by_key; rewrite Hk; cbn; by rewrite Hd].
  clear -Hf. revert idx Hf. induction ps as [|p ps IH] using rev_ind; intros idx Hf; [injection Hf as <-; by exists []|].
  rewrite foldl_snoc in Hf. inv_ok. rename select (foldl _ _ _ = _) into Hf. bool_prop.
  destruct (IH _ Hf) as (keys & Hk & Hl & Hd). rename select (pair_key _ _ _ = _) into Hkey.
  eexists. split; [by apply map_result_snoc|]. rename select (¬ _ ≠ None) into Hnew. apply dec_stable in Hnew.
  rewrite dset_length, decide_True by done. rewrite length_app. cbn. split; [lia|].
  rewrite Nat.add_1_r, seq_S, zip_with_app by (by rewrite length_seq).
  rewrite foldl_app, Hd. cbn. by rewrite Hl.
Qed.

Section complete.
Variables (float_repr : pyfloat → pystr) (json_loads : pystr → option json).
Variables (ps : list PublishedPair) (pair_index : list (pystr * Z)) (max_rows max_total_bytes : Z)
  (numeric : bool) (final : PrepareState).

Abbreviation turn := (Turn float_repr json_loads ps pair_index max_rows max_total_bytes numeric).
Abbreviation sv := (sealed_from ps numeric final).

(** The files of [final] start with those of [st]. *)
Definition part_of (st : PrepareState) : Prop :=
  extends st final ∧ ∃ d, stream (codes_writer final) = stream (codes_writer st) ++ d.

(** The codes are as many as the rows. *)
Definition codes_aligned (i : nat) (st : PrepareState) : Prop :=
  if numeric then zlen (stream (codes_writer st)) = Z.of_nat i * struct_size NUMERIC_CODE_STRUCT else True.

Lemma codes_sized : sized NUMERIC_CODE_STRUCT.
Proof. repeat constructor. Qed.

Lemma codes_aligned_next i r st st' :
  CodesTurn numeric r st st' → codes_aligned i st → codes_aligned (S i) st'.
Proof.
  unfold CodesTurn, codes_aligned. destruct numeric; [|done]. intros (ic & ec & codes & _ & Hp & Hs) Ha.
  apply struct_pack_spec in Hp as [Hl _]; [|apply codes_sized]. rewrite Hs, length_app. lia.
Qed.

Lemma codes_verified i r st st' :
  CodesTurn numeric r st st' → part_of st' → codes_aligned i st →
  verify_codes sv i r (verify_state st) =
    Ok (item_codes st', evidence_codes st', codebook_estimated_bytes st').
Proof.
  unfold CodesTurn, codes_aligned, verify_codes. intros T [_ [d Hd]] Ha. cbn [manifest sealed_from].
  destruct numeric; cbn [manifest_numeric].
  - destruct T as (ic & ec & codes & Hn & Hp & Hs). apply struct_pack_spec in Hp as [Hl Hu]; [|apply codes_sized].
    assert (0 < struct_size NUMERIC_CODE_STRUCT) as Hpos by done.
    cbn [codes_map sealed_from].
    pose proof (f_equal (λ l : list byte, zlen l) Hd) as Hlen. rewrite Hs, !length_app in Hlen.
    rewrite mapped_some by lia. cbn [or_raise mbind result_bind].
    destruct (Z.ltb_spec (zlen (stream (codes_writer final)))
      (Z.of_nat i * struct_size NUMERIC_CODE_STRUCT + struct_size NUMERIC_CODE_STRUCT)); [lia|].
    cbn [raise_if mbind result_bind v_items v_evidence v_estimated verify_state]. rewrite Hn. cbn [mbind result_bind].
    rewrite <- Hl. rewrite holds_at_slice, Hu; [by rewrite bool_decide_eq_false_2 by (intros Hne; by apply Hne)|].
    rewrite Hd, Hs, Hl, <- Ha. apply holds_at_app, holds_at_end.
  - by destruct T as (-> & -> & -> & _).
Qed.

Lemma part_of_before r st st' p row prov ident packed :
  turn r st st' p row prov ident packed → part_of st' → part_of st.
Proof.
  intros T [E' [dc Hc]]. pose proof (turn_extends _ _ _ _ _ _ _ _ _ _ _ _ _ _ _ T) as E.
  destruct E as ([d1 H1] & [d2 H2] & [d3 H3] & [d4 H4] & [d5 H5]).
  destruct E' as ([e1 G1] & [e2 G2] & [e3 G3] & [e4 G4] & [e5 G5]).
  split; [unfold extends; rewrite G1, G2, G3, G4, G5, H1, H2, H3, H4, H5, <- !(assoc_L (++)); eauto 10|].
  pose proof (turn_numeric _ _ _ _ _ _ _ _ _ _ _ _ _ _ _ T) as N. unfold CodesTurn in N.
  destruct numeric; [|destruct N as (_ & _ & _ & N); rewrite Hc, N; eauto].
  destruct N as (? & ? & codes & _ & _ & Hs). rewrite Hc, Hs, <- (assoc_L (++)). eauto.
Qed.

Lemma segment_offset r st : vector_offset r (verify_state st) = zlen (segment st (vector_dtype r)).
Proof. unfold vector_offset, segment. by case_bool_decide. Qed.

Lemma row_matches_stored i r p row prov :
  Stored float_repr json_loads ps final i r p row prov → row_matches r (w_pair_index row) row = true.
Proof.
  intros S. destruct S. unfold row_matches.
  rewrite !andb_true_iff, !bool_decide_eq_true, !Z.eqb_eq. by split_and!.
Qed.

(** A row that was written is accepted, and the locals go on together. *)
Lemma verify_row_written i r st st' p row prov ident packed :
  turn r st st' p row prov ident packed → part_of st' → codes_aligned i st →
  zlen (stream (rows_writer st)) = Z.of_nat i * struct_size ROW_STRUCT →
  verify_row float_repr json_loads sv pair_index (stream (rows_writer final))
    (stream (identity_writer final)) (stream (metadata_writer final)) i r (verify_state st) =
    Ok (verify_state st').
Proof.
  intros T P Ha Hi. pose proof (turn_stored _ _ _ _ _ _ _ _ _ _ _ _ _ _ _ _ T Hi) as S.
  apply (stored_extends _ _ _ st' final) in S; [|apply P].
  destruct (stored_files _ _ _ _ _ _ _ _ _ S) as (_ & _ & _ & Hmap).
  pose proof (codes_verified i r st st' (turn_numeric _ _ _ _ _ _ _ _ _ _ _ _ _ _ _ T) P Ha) as Hcodes.
  pose proof (read_row S) as Hrow. pose proof (row_matches_stored _ _ _ _ _ S) as Hm.
  pose proof (read_metadata S) as Hmeta.
  destruct T as [Hp Hvalid Hident _ _ (_ & _ & Hvo & Hvl & Hio & Hil & Hmo & Hml) (_ & Hsi & Hsm & Hsv) _ _
    [Hlt Hprev] _ (key & Hkey & Hidx) [Hsc Hdt] _ Hother].
  destruct (stored_identity _ _ _ _ _ _ _ _ _ S) as (ident' & He & _ & Hih).
  assert (ident' = ident) as -> by congruence. pose proof (stored_vector _ _ _ _ _ _ _ _ _ S) as Hvh.
  destruct (validated_record _ _ _ _ _ Hvalid) as (_ & Href & _).
  unfold verify_row. destruct (Z.ltb_spec (ref_id r) 1); [lia|]. cbn [raise_if mbind result_bind v_previous verify_state].
  destruct (Z.leb_spec (ref_id r) (previous st)); [lia|]. cbn [raise_if mbind result_bind].
  rewrite Hkey. cbn [mbind result_bind]. rewrite Hidx. cbn [or_raise mbind result_bind].
  cbn [opened sealed_from]. cbn [pairs prepared_view]. rewrite Hp. cbn [or_raise mbind result_bind].
  rewrite Hvalid. cbn [catch_invalid mbind result_bind]. rewrite Hrow. cbn [mbind result_bind].
  rewrite Hm. cbn [negb raise_if mbind result_bind]. rewrite segment_offset, Hvo, Hvl.
  rewrite !(bool_decide_eq_false_2 (?[x] ≠ ?x)) by tauto.
  cbn [orb raise_if mbind result_bind]. rewrite Hmap, <- Hvo, holds_at_slice by done.
  rewrite (bool_decide_eq_false_2 (vector_blob r ≠ _)) by tauto. cbn [raise_if mbind result_bind].
  rewrite He. cbn [mbind result_bind v_identity v_metadata v_scopes v_dtypes v_f16 v_f32 verify_state].
  rewrite <- Hio, Hil, holds_at_slice by done. rewrite !(bool_decide_eq_false_2 (?[x] ≠ ?x)) by tauto.
  cbn [orb raise_if mbind result_bind]. rewrite <- Hml, Hmeta, Hmo.
  rewrite !(bool_decide_eq_false_2 (?[x] ≠ ?x)) by tauto. cbn [orb raise_if mbind result_bind].
  rewrite Hcodes. cbn [mbind result_bind]. rewrite Hsc. cbn [mbind result_bind]. rewrite Hdt. cbn [mbind result_bind].
  f_equal. unfold verify_state. rewrite Hsi, Hsm, Hprev, !length_app. unfold segment in Hsv.
  f_equal; try lia. 1, 2: case_bool_decide; rewrite ?Hsv, ?Hother, ?length_app; lia.
Qed.

Lemma turn_rows r st st' p row prov ident packed i :
  turn r st st' p row prov ident packed →
  zlen (stream (rows_writer st)) = Z.of_nat i * struct_size ROW_STRUCT →
  zlen (stream (rows_writer st')) = Z.of_nat (S i) * struct_size ROW_STRUCT.
Proof.
  intros T Hi. destruct (turn_streams _ _ _ _ _ _ _ _ _ _ _ _ _ _ _ T) as (-> & _).
  destruct (struct_pack_spec _ _ _ row_sized (turn_packed _ _ _ _ _ _ _ _ _ _ _ _ _ _ _ T)) as [Hl _].
  rewrite length_app. lia.
Qed.

Definition tallies_ok (st : PrepareState) : Prop := NoDup (scopes st).*1 ∧ NoDup (dtypes st).*1.

Lemma tally_NoDup key counts counts' : tally key counts = Ok counts' → NoDup counts.*1 → NoDup counts'.*1.
Proof. unfold tally. intros H Hd. inv_ok. by apply dset_NoDup. Qed.

Lemma turn_tallies r st st' p row prov ident packed :
  turn r st st' p row prov ident packed → tallies_ok st → tallies_ok st'.
Proof.
  intros T [Hs Hd]. destruct (turn_tally _ _ _ _ _ _ _ _ _ _ _ _ _ _ _ T) as [Ts Td].
  split; by eapply tally_NoDup.
Qed.

(** The loops of the preparation and of the verification go together. *)
Lemma verify_rows_written cb cb' records : ∀ i st,
  (∀ s, vector_checkpoint cb' s = Ok tt) →
  writers_open st → codes_aligned i st → tallies_ok st →
  zlen (stream (rows_writer st)) = Z.of_nat i * struct_size ROW_STRUCT →
  prepare_rows float_repr json_loads cb ps pair_index max_rows max_total_bytes numeric i records st = Ok final →
  part_of st ∧ codes_aligned (i + length records) final ∧ tallies_ok final ∧
  verify_rows float_repr json_loads cb' sv pair_index (stream (rows_writer final))
    (stream (identity_writer final)) (stream (metadata_writer final)) (length records) i records (Ok tt)
    (verify_state st) = Ok (verify_state final).
Proof.
  induction records as [|r records IH]; intros i st quiet Ho Ha Ht Hi H; cbn in H; inv_ok.
  { rewrite Nat.add_0_r. split_and!; [|done..]. split; [unfold extends; split_and!; exists []; by rewrite app_nil_r|].
    exists []. by rewrite app_nil_r. }
  rename select (prepare_row _ _ _ _ _ _ _ _ _ _ _ = _) into Hr.
  rename select (prepare_rows _ _ _ _ _ _ _ _ _ _ _ = _) into Hrest0. rename x into st1.
  apply prepare_row_turn in Hr as (p & row & prov & ident & packed & T); [|done].
  pose proof (turn_rows _ _ _ _ _ _ _ _ _ T Hi) as Hi'.
  pose proof (codes_aligned_next _ _ _ _ (turn_numeric _ _ _ _ _ _ _ _ _ _ _ _ _ _ _ T) Ha) as Ha'.
  destruct (IH (S i) st1 quiet (turn_open _ _ _ _ _ _ _ _ _ _ _ _ _ _ _ T) Ha'
    (turn_tallies _ _ _ _ _ _ _ _ T Ht) Hi' Hrest0) as (P & Hc & Ht' & Hrest).
  split_and!; [by eapply part_of_before|by cbn [length]; rewrite <- Nat.add_succ_comm|done|]. cbn [length verify_rows]. rewrite quiet. cbn [mbind result_bind].
  rewrite (verify_row_written _ _ _ _ _ _ _ _ _ T P Ha Hi). exact Hrest.
Qed.

End complete.

Lemma same_dict_refl d : NoDup d.*1 → same_dict d d = true.
Proof.
  intros Hd. unfold same_dict. rewrite Nat.eqb_refl. apply forallb_forall. intros [k v] Hin. cbn.
  apply list_elem_of_In, elem_dget in Hin; [|done]. by apply bool_decide_eq_true_2.
Qed.

Lemma mapped_size data : file_size_is (mapped data) (zlen data) = true.
Proof. destruct data; [done|]. cbn [mapped file_size_is]. apply Z.eqb_refl. Qed.

Lemma mapped_back data : default [] (mapped data) = data.
Proof. by destruct data. Qed.

(** The files of a nonempty view are present. *)
Lemma segments_present float_repr json_loads ps max_rows max_bytes numeric st records :
  Written float_repr json_loads ps max_rows max_bytes st records → codes_aligned numeric (length records) st →
  negb (length records =? 0)%nat &&
  (bool_decide (mapped (stream (rows_writer st)) = None) ||
   bool_decide (mapped (stream (identity_writer st)) = None) ||
   bool_decide (mapped (stream (metadata_writer st)) = None) ||
   (bool_decide (manifest_numeric (manifest (sealed_from ps numeric st)) ≠ None) &&
    bool_decide (codes_map (sealed_from ps numeric st) = None))) = false.
Proof.
  intros W Hc. destruct records as [|r records]; [done|].
  destruct (holds_files _ _ _ _ _ _ _ (prepared_holds _ _ _ _ _ _ _ W)) as (Hr & Hi & Hm); [done|].
  cbn in Hr, Hi, Hm. rewrite Hr, Hi, Hm, !(bool_decide_eq_false_2 (Some _ = None)) by done. cbn [length Nat.eqb negb andb orb].
  cbn. unfold codes_aligned in Hc. destruct numeric; [|done].
  assert (0 < struct_size NUMERIC_CODE_STRUCT) as Hpos by done.
  rewrite mapped_some by (cbn [length] in Hc; lia). done.
Qed.

Lemma verify_end_written ps numeric st n :
  tallies_ok st → zlen (stream (rows_writer st)) = Z.of_nat n * struct_size ROW_STRUCT →
  Z.to_nat (count st) = n → verify_end (sealed_from ps numeric st) (verify_state st) = Ok tt.
Proof.
  intros [Hs Hd] Hrows Hn. unfold verify_end. cbn [manifest opened sealed_from verify_state
    manifest_last_ref_id manifest_scope_counts manifest_dtype_counts manifest_numeric v_previous v_items
    v_evidence v_estimated v_scopes v_dtypes v_f16 v_f32 v_identity v_metadata rows_map f16_map f32_map
    identity_map metadata_map row_count prepared_view].
  rewrite Hn, <- Hrows, !mapped_size, !same_dict_refl by done.
  rewrite bool_decide_eq_false_2 by tauto. destruct numeric; [|done].
  by rewrite bool_decide_eq_false_2 by tauto.
Qed.

(** What the preparation wrote, the verification accepts. *)
Lemma prepared_verified float_repr json_loads cb cb' records exhausted ps max_rows max_bytes numeric st :
  prepare_exact_view float_repr json_loads cb records exhausted ps max_rows max_bytes numeric = Ok st →
  (∀ s, vector_checkpoint cb' s = Ok tt) →
  verify_exact_records float_repr json_loads cb' (Ok tt) (Ok tt) (sealed_from ps numeric st) records (Ok tt)
    = Ok tt.
Proof.
  intros H quiet. pose proof (prepared_written _ _ _ _ _ _ _ _ _ _ H) as W.
  unfold prepare_exact_view in H. inv_ok. rename select (_pairs _ _ = _) into Hidx.
  rename select (prepare_rows _ _ _ _ _ _ _ _ _ _ _ = _) into Hrows.
  apply (verify_rows_written _ _ _ _ _ _ _ _ _ cb' _ 0 prepare_start quiet) in Hrows as (P & Hc & [Hs Hd] & Hrows).
  2: exact (written_open _ _ _ _ _ _ _ (written_start float_repr json_loads ps max_rows max_bytes)).
  2: by unfold codes_aligned; destruct numeric.
  2: split; repeat constructor; set_solver.
  2: done.
  unfold verify_exact_records. cbn [mbind result_bind opened sealed_from].
  cbn [pairs prepared_view]. rewrite (pairs_by_key_spec _ _ _ Hidx). cbn [mbind result_bind].
  cbn [rows_map identity_map metadata_map row_count prepared_view]. rewrite !mapped_back.
  assert (Z.to_nat (count st) = length records) as Hcount by (rewrite (written_count _ _ _ _ _ _ _ W); lia).
  rewrite Hcount. change verify_start with (verify_state prepare_start). rewrite Hrows.
  rewrite (segments_present float_repr json_loads ps max_rows max_bytes numeric st records W Hc). cbn [raise_if mbind result_bind].
  rewrite (verify_end_written ps numeric st (length records)); [|done|apply W|done].
  cbn [mbind result_bind]. by rewrite quiet.
Qed.
