(* ===== verification/VectorHandle.v ===== *)
(** * The adapter of the exact index (semantic/semantic_exact_index.py)

    What the index of one published head is prepared from and verified against, which
    queries it takes, and how many rows are left past a cursor.  The tables are those
    of [VectorScan]; the fences, the marker and the files of an artifact, and the
    projected numeric query that a handle runs, are not modelled. *)

From S2P Require Import Prelude PyOrder KnowledgeContracts Utf8 HeapQ VectorRetain VectorFormat VectorQuery VectorScan VectorVerify.

#[global] Open Scope Z_scope.

Definition MAX_EXACT_INDEX_ROWS : Z := 500000.
Definition MAX_EXACT_INDEX_BYTES : Z := 4000000000.
Definition MAX_EXACT_INDEX_MODELS : Z := 1024.

Definition unavailable (reason : string) : vector_error := ExactIndexUnavailable (py reason).

(** [_limits] *)
Definition _limits (max_rows max_total_bytes : Z) : result vector_error unit :=
  raise_if (negb ((1 <=? max_rows) && (max_rows <=? MAX_EXACT_INDEX_ROWS)))
    (vector_value "max_rows must be between 1 and 500000");;
  raise_if (negb ((1 <=? max_total_bytes) && (max_total_bytes <=? MAX_EXACT_INDEX_BYTES)))
    (vector_value "max_total_bytes must be between 1 and 4000000000").

(** [_scope] *)
Definition _scope (value : pystr) : result vector_error pystr :=
  raise_if (bool_decide (value ∉ [py "all"; py "content"; py "title"]))
    (vector_value "text_scope must be all, content, or title");;
  Ok value.

(** ** The owner *)

Record Owner : Type := {
  o_models : list ModelRow;
  o_heads : list (pystr * Z);
  o_pair : PublishedPair;
  o_scope : pystr
}.

(** [{model.model_signature: model}] of the active models. *)
Definition active_models (t : Tables) : list ModelRow :=
  sort_by cmp_str m_signature (filter (λ m, m_active m = true) (models t)).

Definition find_model (signature : pystr) (ms : list ModelRow) : option ModelRow :=
  List.find (λ m, bool_decide (m_signature m = signature)) ms.

Section contract.
Variables (cancellation_check : vector_callback) (signature : pystr) (model : ModelRow).

(** [for row in rows: checks.checkpoint()] *)
Fixpoint load_models (n : nat) (ms : list ModelRow) : result vector_error unit :=
  match ms with
  | [] => Ok tt
  | _ :: ms' => vector_checkpoint cancellation_check (AtModel n);; load_models (S n) ms'
  end.

(** The loop over the heads: their generations and the pair of the signature. *)
Fixpoint load_heads (n : nat) (hs : list HeadRow) (found : list (pystr * Z)) (pair : option PublishedPair) :
    result vector_error (list (pystr * Z) * option PublishedPair) :=
  match hs with
  | [] => Ok (found, pair)
  | h :: hs' =>
      vector_checkpoint cancellation_check (AtHead n);;
      raise_if (bool_decide (head_model h ≠ generation_model h) ||
                bool_decide (generation_status h ≠ py "ready")) (unavailable "published_head_invalid");;
      let found' := dset (head_model h) (head_generation h) found in
      pair' ←
        (if decide (head_model h = signature) then
           let p := {| pair_model_signature := signature; pair_generation_id := head_generation h;
                       pair_processing_signature := generation_processing h;
                       pair_vector_space := m_vector_space model; pair_modality := py "text";
                       pair_entity_kind := py "text_chunk"; pair_status := py "ready" |} in
           validate_pair p;; Ok (Some p)
         else Ok pair);
      load_heads (S n) hs' found' pair'
  end.
End contract.

(** [_owner_contract] *)
Definition _owner_contract (cancellation_check : vector_callback) (t : Tables) (signature scope : pystr) :
    result vector_error Owner :=
  vector_checkpoint cancellation_check AtStart;;
  let ms := active_models t in
  raise_if (MAX_EXACT_INDEX_MODELS <? zlen ms) (unavailable "model_bound");;
  load_models cancellation_check 0 ms;;
  match find_model signature ms with
  | None => Err (unavailable "active_text_model_required")
  | Some model =>
      raise_if (bool_decide (m_modality model ≠ py "text")) (unavailable "active_text_model_required");;
      raise_if (MAX_EXACT_INDEX_MODELS <? zlen (heads t)) (unavailable "head_bound");;
      '(found, chosen) ← load_heads cancellation_check signature model 0
                         (sort_by cmp_str head_model (heads t)) [] None;
      p ← or_raise chosen (unavailable "published_head_required");
      Ok {| o_models := ms; o_heads := found; o_pair := p; o_scope := scope |}
  end.

(** ** The rows of the owner *)

(** The record of a row. *)
Definition native_record (owner : Owner) (r : MemberRow) : VectorRecord :=
  {| ref_id := r_ref_id r; entity_id := r_entity_id r; item_id := r_item_id r;
     model_signature := r_model_signature r; vector_space := r_vector_space r; modality := py "text";
     generation_id := r_generation_id r; processing_signature := pair_processing_signature (o_pair owner);
     entity_kind := py "text_chunk"; vector_dtype := r_vector_dtype r; dimensions := r_dimensions r;
     vector_blob := r_vector_blob r; provenance_json := ProvenanceText (r_provenance_json r);
     section_scope := o_scope owner;
     owner_row_binding := py "semantic.member:" ++ int_text (r_ref_id r) |}.

(** The iteration over fetched rows: the records it yields and how it ends.  A
    checkpoint comes before each fetch of 512 rows, the last of which is empty or
    follows a short one. *)
Fixpoint native_rows (cancellation_check : vector_callback) (owner : Owner) (max_rows : Z) (n : nat)
    (rows : list MemberRow) : list VectorRecord * result vector_error unit :=
  match rows with
  | [] => ([], vector_checkpoint cancellation_check (AtFetch n))
  | r :: rows' =>
      match (if decide (Z.of_nat n mod 512 = 0) then vector_checkpoint cancellation_check (AtFetch n) else Ok tt);;
            vector_checkpoint cancellation_check (AtRow n);;
            raise_if (max_rows <? Z.of_nat n + 1) (unavailable "source_row_bound");;
            raise_if (bool_decide (r_vector_dtype r ∉ [py "float16"; py "float32"]))
              (unavailable "source_vector_dtype") with
      | Err e => ([], Err e)
      | Ok _ => let rest := native_rows cancellation_check owner max_rows (S n) rows' in
                (native_record owner r :: rest.1, rest.2)
      end
  end.

(** [_native_rows] *)
Definition _native_rows (cancellation_check : vector_callback) (t : Tables) (owner : Owner) (max_rows : Z) :
    list VectorRecord * result vector_error unit :=
  native_rows cancellation_check owner max_rows 0
    (search_rows t (py "text") (o_scope owner)
       [(pair_model_signature (o_pair owner), pair_generation_id (o_pair owner))] 0 (max_rows + 1)).

(** The rows that [prepare_exact_index] writes; [marker_bytes] is the length of the
    completion marker. *)
Definition prepare_index_rows (float_repr : pyfloat → pystr) (json_loads : pystr → option json)
    (cancellation_check : vector_callback) (t : Tables) (signature scope : pystr)
    (max_rows max_total_bytes marker_bytes : Z) : result vector_error (Owner * PrepareState) :=
  raise_if (max_total_bytes <=? marker_bytes) (unavailable "artifact_byte_bound");;
  owner ← _owner_contract cancellation_check t signature scope;
  let rows := _native_rows cancellation_check t owner max_rows in
  st ← prepare_exact_view float_repr json_loads cancellation_check rows.1 rows.2 [o_pair owner] max_rows
         (max_total_bytes - marker_bytes) true;
  raise_if (count st <? 1) (unavailable "published_scope_empty");;
  Ok (owner, st).

(** The verification of [open_exact_index] against the rows of the owner. *)
Definition verify_index_rows (float_repr : pyfloat → pystr) (json_loads : pystr → option json)
    (cancellation_check : vector_callback) (t : Tables) (signature scope : pystr) (max_rows : Z)
    (stable_before stable_after : result vector_error unit) (sv : SealedView) : result vector_error Owner :=
  owner ← _owner_contract cancellation_check t signature scope;
  let rows := _native_rows cancellation_check t owner max_rows in
  verify_exact_records float_repr json_loads cancellation_check stable_before stable_after sv rows.1 rows.2;;
  Ok owner.

(** ** The queries an index takes *)

(** [_selected_pairs] *)
Definition _selected_pairs (owner : Owner) (q : ExactQuery) : result vector_error (list (pystr * Z)) :=
  model ← or_raise (find_model (query_model_signature q) (o_models owner)) MissingKeyError;
  raise_if (bool_decide (m_vector_space model ≠ q_vector_space q) ||
            bool_decide (m_dimensions model ≠ q_dimensions q))
    (vector_value "query vector is incompatible with its registered model");;
  let available := sort_by cmp_str id (m_signature <$> filter (λ m,
      bool_decide (m_vector_space m = q_vector_space q) &&
      bool_decide (m_modality m = q_target_modality q) &&
      bool_decide (m_dimensions m = q_dimensions q) = true) (o_models owner)) in
  let selected := if decide (q_indexed_model_signatures q = []) then available
                  else q_indexed_model_signatures q in
  raise_if (existsb (λ s, negb (bool_decide (s ∈ available))) selected)
    (vector_value "indexed models are absent or incompatible");;
  raise_if (bool_decide (available = [])) (vector_value "no compatible indexed models are registered");;
  Ok (omap (λ s, (s,.) <$> dget s (o_heads owner)) selected).

(** The loop of [_remaining_rows]; a turn halves what is between the bounds, so the
    number of rows is fuel enough. *)
Fixpoint bisect_rows (fuel : nat) (rows : list byte) (after_ref_id low high : Z) : result vector_error Z :=
  if decide (low < high) then
    match fuel with
    | O => Ok low
    | S fuel' =>
        let middle := (low + high) / 2 in
        row ← _row rows middle;
        if w_ref_id row <=? after_ref_id then bisect_rows fuel' rows after_ref_id (middle + 1) high
        else bisect_rows fuel' rows after_ref_id low middle
    end
  else Ok low.

(** [_remaining_rows] *)
Definition _remaining_rows (v : View) (after_ref_id : Z) : result vector_error Z :=
  match rows_map v with
  | None => Ok 0
  | Some rows =>
      low ← bisect_rows (row_count v) rows after_ref_id 0 (Z.of_nat (row_count v));
      Ok (Z.of_nat (row_count v) - low)
  end.

(** The state of a handle. *)
Record ExactIndexHandle : Type := {
  h_owner : Owner;
  h_path : pystr;
  h_view : View;
  h_closed : bool;
  h_invalid : option pystr;
  h_used : Z;
  h_fallbacks : Z;
  h_scanned : Z;
  h_last_fallback : option pystr
}.

(** [_fallback] *)
Definition _fallback (reason : pystr) (h : ExactIndexHandle) : ExactIndexHandle :=
  {| h_owner := h_owner h; h_path := h_path h; h_view := h_view h; h_closed := h_closed h;
     h_invalid := h_invalid h; h_used := h_used h; h_fallbacks := h_fallbacks h + 1;
     h_scanned := h_scanned h; h_last_fallback := Some reason |}.

Definition invalidate (reason : pystr) (h : ExactIndexHandle) : ExactIndexHandle :=
  {| h_owner := h_owner h; h_path := h_path h; h_view := h_view h; h_closed := h_closed h;
     h_invalid := Some reason; h_used := h_used h; h_fallbacks := h_fallbacks h;
     h_scanned := h_scanned h; h_last_fallback := h_last_fallback h |}.

(** Why a query is not for the index, before its rows are counted. *)
Definition mismatch_reason (h : ExactIndexHandle) (q : ExactQuery) (batch_size : Z) (text_scope : pystr)
    (diagnostic_item_ids : list pystr) (ps : list (pystr * Z)) : option pystr :=
  let owner := h_owner h in
  if bool_decide (q_target_modality q ≠ py "text") then Some (py "unsupported_modality")
  else if bool_decide (text_scope ≠ o_scope owner) then Some (py "scope_mismatch")
  else if bool_decide (ps ≠ [(pair_model_signature (o_pair owner), pair_generation_id (o_pair owner))])
  then Some (py "published_pairs_mismatch")
  else if bool_decide (diagnostic_item_ids ≠ []) then Some (py "target_diagnostics")
  else if negb ((8 <=? batch_size) && (batch_size <=? 512)) then Some (py "batch_not_numeric")
  else None.

(** [_try_exact_index_page] up to its query: the number of rows of the query, or
    [None] where the handle declines.  [stable] is why the owner or the artifact has
    changed, [thread_control] whether the control of the native threads is there. *)
Definition admit_query (h : ExactIndexHandle) (path : pystr) (stable : option pystr) (thread_control : bool)
    (q : ExactQuery) (max_vectors after_ref_id batch_size : Z) (text_scope : pystr)
    (diagnostic_item_ids : list pystr) : result vector_error (option Z * ExactIndexHandle) :=
  if h_closed h || bool_decide (is_Some (h_invalid h)) then
    Ok (None, _fallback (default (py "handle_closed") (h_invalid h)) h)
  else if bool_decide (path ≠ h_path h) then Ok (None, _fallback (py "different_owner") h)
  else
    match stable with
    | Some reason => Ok (None, _fallback reason (invalidate reason h))
    | None =>
        ps ← _selected_pairs (h_owner h) q;
        match mismatch_reason h q batch_size text_scope diagnostic_item_ids ps with
        | Some reason => Ok (None, _fallback reason h)
        | None =>
            remaining ← _remaining_rows (h_view h) after_ref_id;
            let count_ := Z.min max_vectors remaining in
            if (count_ <? 8) || ((0 <? count_ mod batch_size) && (count_ mod batch_size <? 8))
            then Ok (None, _fallback (py "scalar_page_or_tail") h)
            else if thread_control then Ok (Some count_, h)
            else Ok (None, _fallback (py "native_thread_control_unavailable") h)
        end
    end.
