(* ===== verification/VectorHandleLaws.v ===== *)
(** * The laws of the adapter

    The bisection counts the rows past a cursor, the pairs a handle selects are those
    of the owner's search, and the records of an index are the rows of that search. *)

From S2P Require Import Prelude PyOrder KnowledgeContracts Utf8 HeapQ VectorRetain VectorRetainLaws VectorFormat VectorFormatLaws VectorQuery VectorScan VectorScanLaws VectorSpec VectorSpecLaws VectorVerify VectorHandle.

#[global] Open Scope Z_scope.

(** ** Generic lemmas *)

Lemma list_filter_all {A} (P : A → Prop) `{!∀ x, Decision (P x)} l : Forall P l → filter P l = l.
Proof. induction 1 as [|x l Hx _ IH]; [done|]. by rewrite filter_cons_True, IH. Qed.

Lemma list_filter_none {A} (P : A → Prop) `{!∀ x, Decision (P x)} l : Forall (λ x, ¬ P x) l → filter P l = [].
Proof. induction 1 as [|x l Hx _ IH]; [done|]. by rewrite filter_cons_False. Qed.

Lemma filter_fmap_length {A B} (P : B → Prop) `{!∀ x, Decision (P x)} (f : A → B) l :
  length (filter P (f <$> l)) = length (filter (λ x, P (f x)) l).
Proof. induction l as [|x l IH]; [done|]. csimpl. rewrite !filter_cons. case_decide; cbn; congruence. Qed.

(** ** The rows past a cursor *)

Section bisection.
Variables (rows : list byte) (refs : list Z) (after : Z).
Hypothesis read : ∀ i n, refs !! i = Some n → ∃ row, _row rows (Z.of_nat i) = Ok row ∧ w_ref_id row = n.
Hypothesis sorted_refs : StronglySorted Z.lt refs.

Lemma refs_increase i j m n : refs !! i = Some m → refs !! j = Some n → (i < j)%nat → m < n.
Proof.
  intros Hi Hj Hij. rewrite <- (take_drop j refs) in sorted_refs.
  apply StronglySorted_app in sorted_refs as (Hall & _ & _). apply Hall.
  - apply list_elem_of_lookup. exists i. by rewrite lookup_take_lt.
  - apply list_elem_of_lookup. exists 0%nat. by rewrite lookup_drop, Nat.add_0_r.
Qed.

(** What is below the bounds is at most [after], what is above them is more. *)
Lemma bisect_ok fuel : ∀ low high,
  0 <= low <= high → high <= zlen refs → high - low <= Z.of_nat fuel →
  (∀ i n, refs !! i = Some n → Z.of_nat i < low → n <= after) →
  (∀ i n, refs !! i = Some n → high <= Z.of_nat i → after < n) →
  ∃ cut, bisect_rows fuel rows after low high = Ok cut ∧ 0 <= cut <= zlen refs ∧
    (∀ i n, refs !! i = Some n → Z.of_nat i < cut → n <= after) ∧
    (∀ i n, refs !! i = Some n → cut <= Z.of_nat i → after < n).
Proof.
  induction fuel as [|fuel IH]; intros low high Hlow Hhigh Hfuel Hbelow Habove; cbn.
  { assert (high = low) as -> by lia. rewrite decide_False by lia. exists low. by split_and!; try lia. }
  case_decide as Hlt.
  2: { assert (high = low) as -> by lia. exists low. by split_and!; try lia. }
  set (middle := (low + high) / 2).
  assert (low <= middle < high) as Hmid by (unfold middle; split; [apply Z.div_le_lower_bound|apply Z.div_lt_upper_bound]; lia).
  destruct (lookup_lt_is_Some_2 refs (Z.to_nat middle)) as [n Hn]; [lia|].
  destruct (read _ _ Hn) as (row & Hrow & Href). rewrite Z2Nat.id in Hrow by lia. rewrite Hrow. cbn.
  rewrite Href. destruct (Z.leb_spec n after).
  - apply IH; [lia..| |done]. intros i m Hi Him.
    destruct (decide (i = Z.to_nat middle)) as [->|Hne]; [congruence|].
    pose proof (refs_increase _ _ _ _ Hi Hn). lia.
  - apply IH; [lia..|done|]. intros i m Hi Him.
    destruct (decide (i = Z.to_nat middle)) as [->|Hne]; [congruence|].
    pose proof (refs_increase _ _ _ _ Hn Hi). lia.
Qed.

(** The filter of a sorted list is what is from the cut on. *)
Lemma filter_from cut : 0 <= cut <= zlen refs →
  (∀ i n, refs !! i = Some n → Z.of_nat i < cut → n <= after) →
  (∀ i n, refs !! i = Some n → cut <= Z.of_nat i → after < n) →
  zlen (filter (λ n, after < n) refs) = zlen refs - cut.
Proof.
  intros Hcut Hbelow Habove. rewrite <- (take_drop (Z.to_nat cut) refs) at 1. rewrite filter_app, length_app.
  rewrite (list_filter_none _ (take _ refs)), list_filter_all.
  - rewrite length_drop. cbn. lia.
  - apply Forall_forall. intros n [i Hi]%list_elem_of_lookup. rewrite lookup_drop in Hi.
    apply (Habove _ _ Hi). lia.
  - apply Forall_forall. intros n [i Hi]%list_elem_of_lookup Hn. apply lookup_take_Some in Hi as [Hi Hlt].
    specialize (Hbelow _ _ Hi). lia.
Qed.
End bisection.

(** [_remaining_rows] counts the records past the cursor. *)
Lemma remaining_rows_count float_repr json_loads view rows identity metadata records after :
  Holds float_repr json_loads view rows identity metadata records →
  _remaining_rows view after = Ok (zlen (filter (λ r, after < ref_id r) records)).
Proof.
  intros H. destruct (decide (records = [])) as [->|Hne].
  { unfold _remaining_rows. rewrite (holds_count _ _ _ _ _ _ _ H). by destruct (rows_map view). }
  destruct (holds_files _ _ _ _ _ _ _ H Hne) as (Hrows & _). unfold _remaining_rows. rewrite Hrows.
  rewrite (holds_count _ _ _ _ _ _ _ H).
  assert (∀ i n, (ref_id <$> records) !! i = Some n → ∃ row, _row rows (Z.of_nat i) = Ok row ∧ w_ref_id row = n) as Hread.
  { intros i n Hi. rewrite list_lookup_fmap in Hi. destruct (records !! i) as [r|] eqn:Hr; [|done].
    injection Hi as <-. destruct (holds_records _ _ _ _ _ _ _ H i r Hr) as (p & row & prov & S).
    exists row. by destruct S. }
  assert (StronglySorted Z.lt (ref_id <$> records)) as Hsorted.
  { eapply StronglySorted_fmap; [|apply H]. done. }
  destruct (bisect_ok rows (ref_id <$> records) after Hread Hsorted (length records) 0 (zlen records))
    as (cut & Hcut & Hrange & Hbelow & Habove); [lia|by rewrite length_fmap|lia|lia| |].
  { intros i n Hi%lookup_lt_Some. rewrite length_fmap in Hi. lia. }
  rewrite Hcut. cbn. f_equal. pose proof (filter_from _ after cut Hrange Hbelow Habove) as Hf.
  rewrite filter_fmap_length, length_fmap in Hf. by rewrite Hf.
Qed.

(** ** The owner *)

Definition head_valid (h : HeadRow) : Prop :=
  head_model h = generation_model h ∧ generation_status h = py "ready".

(** A dictionary of heads, from a list of them. *)
Definition add_heads (hs : list HeadRow) (d : list (pystr * Z)) : list (pystr * Z) :=
  foldl (λ d h, dset (head_model h) (head_generation h) d) d hs.

Lemma add_heads_get hs s g : ∀ d, NoDup (head_model <$> hs) → (∀ h, h ∈ hs → dget (head_model h) d = None) →
  dget s (add_heads hs d) = Some g ↔ (∃ h, h ∈ hs ∧ head_model h = s ∧ head_generation h = g) ∨ dget s d = Some g.
Proof.
  induction hs as [|h hs IH]; intros d Hnd Hd; cbn.
  { split; [by right|]. intros [(h & Hh%elem_of_nil & _)|?]; done. }
  csimpl in Hnd. apply NoDup_cons in Hnd as [Hh Hnd].
  fold (add_heads hs (dset (head_model h) (head_generation h) d)). rewrite IH; [|done|].
  - destruct (decide (s = head_model h)) as [->|Hne].
    + rewrite dget_dset_eq, (Hd h) by (by left). split; [|].
      * intros [(h' & Hin & Heq & Hg)|[= <-]]; [|left; exists h; by split_and!; [left|..]].
        exfalso. apply Hh. rewrite <- Heq. by apply list_elem_of_fmap_2.
      * intros [(h' & [->|Hin]%elem_of_cons & Heq & <-)|?]; [by right| |done].
        exfalso. apply Hh. rewrite <- Heq. by apply list_elem_of_fmap_2.
    + rewrite dget_dset_ne by done. split; (intros [(h' & Hin & Heq & Hg)|Hg]; [left|by right]).
      * exists h'. by split_and!; [right|..].
      * apply elem_of_cons in Hin as [->|Hin]; [by rewrite Heq in Hne|]. by exists h'.
  - intros h' Hin. rewrite dget_dset_ne; [by apply Hd; right|].
    intros Heq. apply Hh. rewrite <- Heq. by apply list_elem_of_fmap_2.
Qed.

(** What a contract says of its owner. *)
Record Captured (t : Tables) (signature scope : pystr) (owner : Owner) : Prop := {
  cap_models : o_models owner = active_models t;
  cap_scope : o_scope owner = scope;
  cap_heads : ∀ s g, dget s (o_heads owner) = Some g ↔
    ∃ h, h ∈ heads t ∧ head_model h = s ∧ head_generation h = g;
  cap_valid : ∀ h, h ∈ heads t → head_valid h;
  cap_pair : ∃ m h, find_model signature (active_models t) = Some m ∧ m_modality m = py "text" ∧
    h ∈ heads t ∧ head_model h = signature ∧
    o_pair owner = {| pair_model_signature := signature; pair_generation_id := head_generation h;
      pair_processing_signature := generation_processing h; pair_vector_space := m_vector_space m;
      pair_modality := py "text"; pair_entity_kind := py "text_chunk"; pair_status := py "ready" |}
}.

Lemma load_heads_spec cb signature model hs : ∀ n found pair found' pair',
  load_heads cb signature model n hs found pair = Ok (found', pair') →
  found' = add_heads hs found ∧ (∀ h, h ∈ hs → head_valid h) ∧
  ∀ p, pair' = Some p → pair = Some p ∨ ∃ h, h ∈ hs ∧ head_model h = signature ∧
    p = {| pair_model_signature := signature; pair_generation_id := head_generation h;
      pair_processing_signature := generation_processing h; pair_vector_space := m_vector_space model;
      pair_modality := py "text"; pair_entity_kind := py "text_chunk"; pair_status := py "ready" |}.
Proof.
  induction hs as [|h hs IH]; intros n found pair found' pair' H; cbn in H; inv_ok.
  { split_and!; [done|by intros h ?%elem_of_nil|by left]. }
  rename select (load_heads _ _ _ _ _ _ _ = _) into Hrest. apply IH in Hrest as (-> & Hvalid & Hpair).
  bool_prop. repeat match goal with H : ¬ _ ≠ _ |- _ => apply dec_stable in H end.
  split_and!; [done| |].
  - intros h' [->|Hin]%elem_of_cons; [by split|by apply Hvalid].
  - intros p Hp. destruct (Hpair p Hp) as [->|(h' & Hin & Hm & ->)].
    + case_decide; inv_ok; [|by left]. right. exists h. by split_and!; [left|..].
    + right. exists h'. by split_and!; [right|..].
Qed.

Lemma owner_captured cb t signature scope owner : KeyedTables t →
  _owner_contract cb t signature scope = Ok owner → Captured t signature scope owner.
Proof.
  intros K H. unfold _owner_contract in H. inv_ok. case_match; [|done]. inv_ok. split_pairs.
  rename select (load_heads _ _ _ _ _ _ _ = _) into Hh. apply load_heads_spec in Hh as (-> & Hvalid & Hpair).
  bool_prop. repeat match goal with H : ¬ _ ≠ _ |- _ => apply dec_stable in H end.
  setoid_rewrite sort_by_perm in Hvalid. setoid_rewrite sort_by_perm in Hpair. split; cbn; try done.
  - intros s g. rewrite add_heads_get.
    + setoid_rewrite sort_by_perm. split; [intros [?|?]; done|by left].
    + rewrite (fmap_Permutation head_model _ _ (sort_by_perm _ _ _)). apply K.
    + done.
  - destruct (Hpair _ eq_refl) as [?|(h & Hin & Hm & ->)]; [done|]. by eexists _, h.
Qed.

(** ** The pairs a query selects *)

Lemma omap_ext_in {A B} (f g : A → option B) (l : list A) : (∀ x, x ∈ l → f x = g x) → omap f l = omap g l.
Proof.
  induction l as [|x l IH]; intros H; [done|]. cbn. rewrite H by (by left).
  rewrite IH; [done|]. intros y Hy. apply H. by right.
Qed.

Lemma find_unique {A B} (key : A → B) `{!EqDecision B} (P : A → bool) (b : B) l m :
  NoDup (key <$> l) → (∀ x, P x = true → key x = b) →
  List.find P l = Some m ↔ m ∈ l ∧ P m = true.
Proof.
  intros Hnd HP. split; [intros H; apply List.find_some in H as [H1 H2]; by rewrite list_elem_of_In|].
  induction l as [|x l IH]; [by intros [?%elem_of_nil _]|]. csimpl in Hnd. apply NoDup_cons in Hnd as [Hx Hnd].
  intros [[->|Hin]%elem_of_cons Hm]; cbn; [by rewrite Hm|].
  destruct (P x) eqn:Hpx; [|by apply IH]. exfalso. apply Hx.
  rewrite (HP x Hpx), <- (HP m Hm). by apply list_elem_of_fmap_2.
Qed.

Lemma active_keys t : KeyedTables t → NoDup (m_signature <$> active_models t).
Proof.
  intros K. unfold active_models. rewrite (fmap_Permutation m_signature _ _ (sort_by_perm _ _ _)).
  eapply sublist_NoDup; [apply K|]. apply fmap_sublist, sublist_filter.
Qed.

Lemma find_active t signature : KeyedTables t →
  find_model signature (active_models t) =
  List.find (λ m, bool_decide (m_signature m = signature) && m_active m) (models t).
Proof.
  intros K. apply option_eq. intros m. unfold find_model.
  rewrite (find_unique m_signature _ signature); [|by apply active_keys|by intros x Hx; bool_prop].
  rewrite (find_unique m_signature _ signature); [|apply K|by intros x Hx; bool_prop].
  unfold active_models. rewrite sort_by_perm, list_elem_of_filter, andb_true_iff. tauto.
Qed.

(** The signatures that are compatible with a query. *)
Lemma available_active t q :
  sort_by cmp_str id (m_signature <$> filter (λ m,
      bool_decide (m_vector_space m = q_vector_space q) &&
      bool_decide (m_modality m = q_target_modality q) &&
      bool_decide (m_dimensions m = q_dimensions q) = true) (active_models t)) =
  sort_by cmp_str id (m_signature <$> filter (λ m,
      bool_decide (m_vector_space m = q_vector_space q) &&
      bool_decide (m_modality m = q_target_modality q) &&
      bool_decide (m_dimensions m = q_dimensions q) && m_active m = true) (models t)).
Proof.
  apply sort_by_unique; [apply _| |by intros x y _ _ H%(cmp_eq cmp_str)].
  apply fmap_Permutation. unfold active_models. rewrite sort_by_perm, list_filter_filter.
  apply reflexive_eq, list_filter_iff. intros m. rewrite !andb_true_iff. tauto.
Qed.

Lemma published_heads t sigs signature scope owner :
  KeyedTables t → Captured t signature scope owner →
  _published_model_generations t sigs = Ok (omap (λ s, (s,.) <$> dget s (o_heads owner)) sigs).
Proof.
  intros K C. unfold _published_model_generations. set (hs := filter (λ h, head_model h ∈ sigs) (heads t)).
  assert (∀ h, h ∈ hs → head_valid h) as Hvalid by (intros h [_ Hin]%list_elem_of_filter; by apply (cap_valid _ _ _ _ C)).
  assert (∀ d, foldl (λ r h, d ← r; raise_if (bool_decide (generation_model h ≠ head_model h) ||
      bool_decide (generation_status h ≠ py "ready")) (SemanticStateError (py "published embedding head is invalid"));;
      Ok (dset (head_model h) (head_generation h) d)) (Ok d) hs = Ok (add_heads hs d)) as Hfold.
  { clearbody hs. induction hs as [|h hs IH]; intros d; [done|]. cbn.
    destruct (Hvalid h) as [<- ->]; [by left|]. rewrite !bool_decide_eq_false_2 by tauto. cbn.
    apply IH. intros h' Hh'. apply Hvalid. by right. }
  rewrite Hfold. cbn [mbind result_bind]. f_equal.
  assert (∀ s, s ∈ sigs → dget s (add_heads hs []) = dget s (o_heads owner)) as Hget.
  { intros s Hs. apply option_eq. intros g. rewrite (cap_heads _ _ _ _ C), add_heads_get; [|..|done].
    - unfold hs. setoid_rewrite list_elem_of_filter. split; [intros [(h & [Hm Hin] & Hrest)|?]; [by exists h|done]|].
      intros (h & Hin & <- & <-). left. by exists h.
    - eapply sublist_NoDup; [apply (kt_heads _ K)|]. apply fmap_sublist, sublist_filter. }
  apply omap_ext_in. intros s Hs. by rewrite Hget.
Qed.

(** The pairs of a handle are those of the owner's search, errors included. *)
Lemma selected_pairs_of_search t signature scope owner q :
  KeyedTables t → Captured t signature scope owner →
  _selected_pairs owner q = (sigs ← _search_models t q; _published_model_generations t sigs).
Proof.
  intros K C. unfold _selected_pairs, _search_models.
  rewrite (cap_models _ _ _ _ C), (find_active _ _ K), available_active.
  set (available := sort_by cmp_str id _). destruct (List.find _ (models t)) as [m|]; [|done].
  cbn [or_raise mbind result_bind]. destruct (_ || _); [done|]. cbn [raise_if mbind result_bind].
  destruct (decide (q_indexed_model_signatures q = [])) as [Hq|Hq].
  - assert (existsb (λ s, negb (bool_decide (s ∈ available))) available = false) as ->.
    { apply not_true_iff_false. intros (s & Hs & Hn)%existsb_exists. apply list_elem_of_In in Hs.
      by rewrite bool_decide_eq_true_2 in Hn. }
    cbn [raise_if mbind result_bind]. case_bool_decide; [done|]. cbn.
    by rewrite (published_heads _ _ _ _ _ K C).
  - destruct (existsb _ _) eqn:He; [done|]. cbn [raise_if mbind result_bind].
    rewrite bool_decide_eq_false_2.
    + cbn. by rewrite (published_heads _ _ _ _ _ K C).
    + intros Hnil. destruct (q_indexed_model_signatures q) as [|s l]; [done|]. cbn in He.
      rewrite Hnil, bool_decide_eq_false_2 in He by (by intros ?%elem_of_nil). done.
Qed.
