(* ===== verification/VectorAgree.v ===== *)
(** * The index and the owner's search agree

    The records of an index are the rows of the owner's search of its head, a query
    of the index sees those that the search selects, scores them the same and keeps
    the same hits. *)

From S2P Require Import Prelude PyOrder KnowledgeContracts Utf8 HeapQ VectorRetain VectorRetainLaws VectorFormat VectorFormatLaws VectorQuery VectorScan VectorScanLaws VectorSearch VectorSearchLaws VectorSpec VectorSpecLaws VectorVerify VectorHandle VectorHandleLaws.

#[global] Open Scope Z_scope.

(** ** The rows of a head *)

Lemma row_selected_after modality_ scope after p r : 0 <= after →
  row_selected modality_ scope after p r =
    row_selected modality_ scope 0 p r && (after <? r_ref_id r).
Proof.
  intros Ha. unfold row_selected. destruct (Z.ltb_spec after (r_ref_id r)), (Z.ltb_spec 0 (r_ref_id r)); try lia;
    rewrite ?andb_true_r, ?andb_false_r; done.
Qed.

(** A cursor selects the rows past it, in the same order. *)
Lemma selected_rows_after t q after scope ps : 0 <= after →
  selected_rows t q after scope ps = filter (λ r, after < r_ref_id r) (selected_rows t q 0 scope ps).
Proof.
  intros Ha. unfold selected_rows. rewrite sort_by_filter by apply _. f_equal.
  induction (members t) as [|r ms IH]; [done|]. csimpl. rewrite filter_app, <- IH. f_equal.
  clear IH. induction ps as [|p ps IHp]; [done|]. cbn. rewrite (row_selected_after _ _ after) by done.
  destruct (row_selected _ _ 0 p r); cbn [andb]; [|exact IHp]. rewrite filter_cons.
  destruct (Z.ltb_spec after (r_ref_id r)); [rewrite decide_True by done|rewrite decide_False by lia]; by rewrite IHp.
Qed.

(** The iteration that is exhausted has yielded the records of all the rows. *)
Lemma native_rows_all cb owner max_rows rows : ∀ n records,
  native_rows cb owner max_rows n rows = (records, Ok tt) →
  records = native_record owner <$> rows ∧ (rows ≠ [] → Z.of_nat n + zlen rows <= max_rows).
Proof.
  induction rows as [|r rows IH]; intros n records H; cbn in H.
  { injection H as <- _. by split. }
  destruct (_ ;; _) as [u|] eqn:Hok in H; [|done]. inv_ok.
  destruct (native_rows cb owner max_rows (S n) rows) as [rest e] eqn:Hrest. cbn in H. injection H as <- ->.
  destruct (IH _ _ Hrest) as [-> Hmax]. split; [done|]. intros _. bool_prop.
  destruct rows; [cbn; lia|]. specialize (Hmax ltac:(done)). cbn [length] in *. lia.
Qed.

(** ** The query *)

(** A computation has one result. *)
Ltac same_results :=
  repeat match goal with
  | H : ?x = Ok ?a, H' : ?x = Ok ?b |- _ => rewrite H in H'; injection H' as H'; subst
  end.

(** Both normalizations of the query agree. *)
Lemma query_vectors_agree q qv qv' norm :
  _query_vector q = Ok qv → normalize_vector (q_vector q) (q_dimensions q) = Ok (qv', norm) → qv' = qv.
Proof.
  unfold _query_vector, normalize_vector, validate_vector, _require_dimensions. intros H1 H2. inv_ok. same_results. done.
Qed.

(** Both scores of a row agree. *)
Lemma scores_agree jl q qv row h s :
  _exact_search_hit jl q qv row = Ok h →
  _scalar_score qv (r_vector_blob row) (q_dimensions q) (r_vector_dtype row) = Ok s → s_score h = s.
Proof.
  unfold _exact_search_hit, _scalar_score, decode_vector, cosine_similarity, validate_vector, _require_dimensions.
  intros H1 H2. inv_ok. bool_prop.
  repeat match goal with H : ¬ _ ≠ _ |- _ => apply dec_stable in H end. cbn [s_score row_hit].
  rename select (r_dimensions row = q_dimensions q) into Hd. rewrite Hd in *. subst. same_results. done.
Qed.

Section agree.
Variables (float_repr : pyfloat → pystr) (json_loads scan_loads : pystr → option json) (t : Tables)
  (owner : Owner) (signature scope : pystr) (q : ExactQuery) (query_vector : list pyfloat)
  (limit after_ref_id : Z) (evidence_mode hydrate : bool) (hit_of : MemberRow → SearchHit).
Hypothesis W : TablesWellFormed t.
Hypothesis C : Captured t signature scope owner.
Hypothesis text_query : q_target_modality q = py "text".
Hypothesis known_scope : scope ∈ [py "all"; py "content"; py "title"].
Hypothesis asked : ∀ s, s ∈ q_indexed_model_signatures q → s = signature.
Hypothesis from_start : 0 <= after_ref_id.

Definition head_pair : pystr * Z := (pair_model_signature (o_pair owner), pair_generation_id (o_pair owner)).

Hypothesis selects : _selected_pairs owner q = Ok [head_pair].

Abbreviation rows_from after := (selected_rows t q after scope [head_pair]).
Abbreviation head_records := (native_record owner <$> rows_from 0).

Lemma head_signature : head_pair.1 = signature.
Proof. destruct (cap_pair _ _ _ _ C) as (m & h & _ & _ & _ & _ & Hp). unfold head_pair. by rewrite Hp. Qed.

Lemma searched_pairs : ∃ sigs, _search_models t q = Ok sigs ∧ _published_model_generations t sigs = Ok [head_pair].
Proof.
  pose proof selects as Hs. rewrite (selected_pairs_of_search _ _ _ _ _ (wf_keys _ W) C) in Hs.
  inv_ok. by eexists.
Qed.

Lemma row_boundary row : row ∈ rows_from 0 →
  0 < r_ref_id row ∧ r_model_signature row = signature ∧ r_vector_space row = q_vector_space q ∧
  r_modality row = py "text".
Proof.
  intros Hrow. destruct searched_pairs as (sigs & Hs & Hp).
  pose proof (selected_boundary t {| request_query := q; owner_path := []; snapshot_id := []; request_after := 0;
    request_evidence := false; request_scope := scope; request_item_ids := []; metric := [] |}
    sigs [head_pair] W Hs Hp row Hrow) as (Hr & _ & Hsp & Hmo & _). cbn in Hr, Hsp, Hmo.
  apply selected_row_spec in Hrow as (_ & _ & p & ->%list_elem_of_singleton & Hm).
  rewrite head_signature in Hm. by rewrite <- text_query.
Qed.

Lemma all_same {A} (x : A) l : (∀ y, y ∈ l → y = x) → l = replicate (length l) x.
Proof.
  induction l as [|y l IH]; intros H; [done|]. cbn. rewrite <- IH by (intros; apply H; by right).
  by rewrite (H y) by (by left).
Qed.

Lemma omap_replicate {A B} (f : A → option B) x y n : f x = Some y → omap f (replicate n x) = replicate n y.
Proof. intros H. induction n as [|n IH]; [done|]. cbn. by rewrite H, IH. Qed.

(** The query asks once for the model of the head. *)
Lemma asked_once : q_indexed_model_signatures q = [] ∨ q_indexed_model_signatures q = [signature].
Proof.
  destruct (decide (q_indexed_model_signatures q = [])) as [|Hq]; [by left|right].
  destruct searched_pairs as (sigs & Hs & Hp). destruct (search_models_spec _ _ _ Hs) as [_ Hsigs].
  rewrite (published_heads _ _ _ _ _ (wf_keys _ W) C) in Hp. injection Hp as Hp. rewrite (Hsigs Hq) in Hp.
  pose proof (all_same _ _ asked) as Hall. set (n := length (q_indexed_model_signatures q)) in *.
  destruct (cap_pair _ _ _ _ C) as (m & h & _ & _ & Hin & Hm & Hpair).
  assert (dget signature (o_heads owner) = Some (head_generation h)) as Hg by (apply (cap_heads _ _ _ _ C); by exists h).
  rewrite Hall, (omap_replicate _ _ (signature, head_generation h)) in Hp by (by rewrite Hg).
  apply (f_equal length) in Hp. rewrite length_replicate in Hp. cbn in Hp. rewrite Hall, Hp. done.
Qed.

Lemma native_seen row : row ∈ rows_from 0 →
  seen_copies q after_ref_id scope (native_record owner row) = if after_ref_id <? r_ref_id row then 1%nat else 0%nat.
Proof.
  intros (_ & Hm & Hsp & _)%row_boundary.
  assert (in_text_scope scope (native_record owner row) = true) as Hscope.
  { unfold in_text_scope. cbn [section_scope native_record]. rewrite (cap_scope _ _ _ _ C).
    destruct (decide (scope = py "content")) as [->|]; [by apply bool_decide_eq_true_2|].
    destruct (decide (scope = py "title")) as [->|]; [by apply bool_decide_eq_true_2|done]. }
  unfold seen_copies, sees. rewrite Hscope. unfold native_record. cbn [ref_id modality vector_space].
  rewrite Hsp, text_query, !bool_decide_eq_true_2, !andb_true_r by done. case_match; [|done].
  unfold requested. cbn [model_signature]. rewrite Hm.
  destruct asked_once as [->| ->]; [done|]. unfold occurrences. rewrite decide_False by done. cbn.
  by rewrite decide_True.
Qed.

Lemma seen_native : seen_records q after_ref_id scope head_records = native_record owner <$> rows_from after_ref_id.
Proof.
  rewrite (selected_rows_after _ _ _ _ _ from_start).
  assert (Forall (λ row, seen_copies q after_ref_id scope (native_record owner row) =
    if after_ref_id <? r_ref_id row then 1%nat else 0%nat) (rows_from 0)) as Hall
    by (apply Forall_forall; exact native_seen).
  induction Hall as [|row rows Hrow _ IH]; [done|]. unfold seen_records in *. csimpl. rewrite IH, Hrow, filter_cons.
  destruct (Z.ltb_spec after_ref_id (r_ref_id row)); [rewrite decide_True by done|rewrite decide_False by lia]; done.
Qed.

(** ** The pages *)

Hypothesis row_scored : ∀ row, row ∈ rows_from after_ref_id →
  _exact_search_hit scan_loads q query_vector row = Ok (hit_of row) ∧
  ∃ s, _scalar_score query_vector (r_vector_blob row) (q_dimensions q) (r_vector_dtype row) = Ok s.

Lemma rows_from_start row : row ∈ rows_from after_ref_id → row ∈ rows_from 0.
Proof. rewrite (selected_rows_after _ _ _ _ _ from_start). by intros [_ ?]%list_elem_of_filter. Qed.

(** An entry of the owner's scan and the record of its row. *)
Definition row_entry (e : search_entry) (r : VectorRecord) : Prop :=
  ∃ row, row ∈ rows_from after_ref_id ∧ e = hit_entry (hit_of row) ∧ r = native_record owner row.

Lemma row_score row : row ∈ rows_from after_ref_id →
  record_score q query_vector (native_record owner row) = s_score (hit_of row) ∧
  ∃ fields, hit_of row = row_hit q row fields (s_score (hit_of row)).
Proof.
  intros Hrow. destruct (row_scored row Hrow) as (Hhit & s & Hs). split.
  - unfold record_score. cbn [vector_blob vector_dtype native_record]. rewrite Hs.
    by rewrite (scores_agree _ _ _ _ _ _ Hhit Hs).
  - destruct (hit_fields _ _ _ _ _ Hhit) as (fields & c & Heq). exists fields. by rewrite Heq.
Qed.

Lemma row_entry_order e r : row_entry e r →
  record_order q query_vector r = e_order e ∧ record_key evidence_mode r = search_key evidence_mode e.
Proof.
  intros (row & Hrow & -> & ->). destruct (row_score row Hrow) as [Hs [fields Heq]].
  unfold record_order, record_key, search_key, hit_entry, hit_order. rewrite Hs. cbn [e_order e_hit].
  rewrite Heq. done.
Qed.

(** What both hits say of their candidate. *)
Definition candidate_facts : Type :=
  Z * pystr * pystr * pystr * pystr * pystr * pyfloat * Z * pystr.

Definition derived_facts (h : DerivedHit) : candidate_facts :=
  (h_ref_id h, h_entity_id h, h_item_id h, h_indexed_model_signature h, h_vector_space h, h_modality h,
   h_score h, h_generation_id h, h_query_model_signature h).

Definition search_facts (h : SearchHit) : candidate_facts :=
  (s_ref_id h, s_entity_id h, s_item_id h, s_indexed_model_signature h, s_vector_space h, s_modality h,
   s_score h, s_generation_id h, s_query_model_signature h).

Lemma row_facts e r h : row_entry e r →
  record_hit float_repr json_loads q query_vector hydrate r = Ok h →
  derived_facts h = search_facts (e_hit e).
Proof.
  intros (row & Hrow & -> & ->) Hh. destruct (row_score row Hrow) as [Hs [fields Heq]].
  destruct (row_boundary row (rows_from_start _ Hrow)) as (_ & _ & _ & Hmo).
  unfold record_hit in Hh. inv_ok. rewrite Hs. cbn [e_hit hit_entry].
  destruct (hit_of row). injection Heq as -> -> -> -> -> -> -> -> ->. cbn. by rewrite <- Hmo.
Qed.

Lemma map_facts (es : list search_entry) rs hs : Forall2 row_entry es rs →
  map_result (record_hit float_repr json_loads q query_vector hydrate) rs = Ok hs →
  derived_facts <$> hs = search_facts <$> (e_hit <$> es).
Proof.
  intros H. revert hs. induction H as [|e r es rs Her _ IH]; intros hs Hm; cbn in Hm; inv_ok; [done|].
  rename select (map_result _ _ = _) into Hrest. rename select (record_hit _ _ _ _ _ _ = _) into Hh.
  csimpl. by rewrite (IH _ Hrest), (row_facts _ _ _ Her Hh).
Qed.

(** The page of the records and the page of the owner's scan. *)
Lemma pages_agree bound page :
  record_page float_repr json_loads q query_vector limit bound after_ref_id scope evidence_mode hydrate
    head_records = Ok page →
  let owned := owner_page t q limit after_ref_id evidence_mode scope hit_of bound [head_pair] in
  derived_facts <$> hits page = search_facts <$> page_hits owned ∧
  scanned page = page_scanned owned ∧ next_cursor page = page_cursor owned ∧
  complete page = page_complete owned.
Proof.
  unfold record_page. rewrite seen_native. intros Hp. inv_ok. rename select (map_result _ _ = _) into Hm.
  unfold owner_page. cbn [hits scanned next_cursor complete page_hits page_scanned page_cursor page_complete].
  set (rows := rows_from after_ref_id) in *. rewrite <- fmap_take in Hm |- *. rewrite !length_fmap.
  assert (Forall2 row_entry (hit_entry ∘ hit_of <$> take (Z.to_nat bound) rows)
    (native_record owner <$> take (Z.to_nat bound) rows)) as Hrel.
  { rewrite Forall2_fmap. apply Forall_Forall2_diag, Forall_forall. intros row Hrow. apply (subseteq_take _ _ row) in Hrow.
    by exists row. }
  split_and!; [|done| |done].
  - eapply map_facts; [|exact Hm]. exact (top_hits_related _ _ _ _ _ limit _ _ row_entry_order Hrel).
  - case_decide; [|done]. rewrite fmap_last. by destruct (last (take _ rows)).
Qed.
End agree.

(** ** What the properties are stated of *)

(** A run on the scalar scorer that nothing interrupts, and whose view is stable. *)
Record QuietRuntime (rt : Runtime) : Prop := {
  qr_scalar : numpy rt = None;
  qr_quiet : ∀ s, vector_checkpoint (cancellation_check rt) s = Ok tt;
  qr_live : live_fence rt = Ok tt;
  qr_mapped : mapped_fence rt = Ok tt;
  qr_final : final_fence rt = Ok tt
}.

(** A query of a view that passes its checks: its vector normalizes to [query_vector]
    and the models it asks for are those of pairs of the view. *)
Record AcceptedQuery (view : View) (q : ExactQuery) (query_vector : list pyfloat)
    (limit max_vectors after_ref_id batch_size : Z) (text_scope : pystr) (item_ids : list pystr) : Prop := {
  aq_scope : dget text_scope SCOPE_CODE ≠ None;
  aq_image : q_target_modality q = py "image" → text_scope = py "all";
  aq_bounds : ∃ selected, _bounds limit max_vectors after_ref_id batch_size item_ids = Ok selected;
  aq_vector : _query_vector q = Ok query_vector;
  aq_counted : ∃ signatures, signature_counts (q_indexed_model_signatures q) = Ok signatures;
  aq_asked : asked_pairs view q
}.

(** The records that a query sees can be scored. *)
Definition scorable_records (q : ExactQuery) (query_vector : list pyfloat) (after_ref_id : Z)
    (text_scope : pystr) (records : list VectorRecord) : Prop :=
  ∀ r, r ∈ records → seen_copies q after_ref_id text_scope r ≠ 0%nat →
  dimensions r = q_dimensions q ∧
  ∃ s, _scalar_score query_vector (vector_blob r) (q_dimensions q) (vector_dtype r) = Ok s.

(** What both backends can score. *)
Definition scored_rows (jl : pystr → option json) (q : ExactQuery) (query_vector : list pyfloat)
    (hit_of : MemberRow → SearchHit) (rows : list MemberRow) : Prop :=
  ∀ row, row ∈ rows → _exact_search_hit jl q query_vector row = Ok (hit_of row) ∧
    ∃ s, _scalar_score query_vector (r_vector_blob row) (q_dimensions q) (r_vector_dtype row) = Ok s.

(** ** The records of the owner *)

(** The record of each row of the head, where the iteration is exhausted. *)
Lemma native_records cb t owner max_rows records q :
  1 <= max_rows → q_target_modality q = py "text" →
  _native_rows cb t owner max_rows = (records, Ok tt) →
  records = native_record owner <$> selected_rows t q 0 (o_scope owner) [head_pair owner].
Proof.
  intros Hmax Hq H. unfold _native_rows in H. apply native_rows_all in H as [-> Hlen].
  assert (search_rows t (py "text") (o_scope owner)
            [(pair_model_signature (o_pair owner), pair_generation_id (o_pair owner))] 0 (max_rows + 1) =
          take (Z.to_nat (max_rows + 1)) (selected_rows t q 0 (o_scope owner) [head_pair owner])) as E
    by (unfold selected_rows; rewrite Hq; reflexivity).
  rewrite E in *. set (rows := selected_rows _ _ _ _ _) in *.
  destruct (decide (zlen rows <= max_rows)) as [Hle|Hgt]; [by rewrite take_ge by lia|].
  clearbody rows. rewrite length_take in Hlen. destruct rows as [|row rows]; [by rewrite take_nil|].
  assert (take (Z.to_nat (max_rows + 1)) (row :: rows) ≠ []) as Hne
    by (destruct (Z.to_nat (max_rows + 1)) eqn:?; [lia|done]).
  specialize (Hlen Hne). lia.
Qed.

Lemma native_scorable jl t owner signature scope q query_vector after_ref_id hit_of :
  TablesWellFormed t → Captured t signature scope owner → q_target_modality q = py "text" →
  scope ∈ [py "all"; py "content"; py "title"] → (∀ s, s ∈ q_indexed_model_signatures q → s = signature) →
  0 <= after_ref_id → _selected_pairs owner q = Ok [head_pair owner] →
  scored_rows jl q query_vector hit_of (selected_rows t q after_ref_id scope [head_pair owner]) →
  scorable_records q query_vector after_ref_id scope
    (native_record owner <$> selected_rows t q 0 scope [head_pair owner]).
Proof.
  intros W C Ht Hs Ha H0 Hsel Hscored r (row & -> & Hrow)%list_elem_of_fmap Hseen.
  rewrite (native_seen t owner signature scope q after_ref_id W C Ht Hs Ha Hsel row Hrow) in Hseen.
  destruct (Z.ltb_spec after_ref_id (r_ref_id row)) as [Hlt|]; [|done].
  destruct (Hscored row) as (Hhit & s & Hsc).
  { rewrite (selected_rows_after _ _ _ _ _ H0). by apply list_elem_of_filter. }
  cbn [dimensions vector_blob vector_dtype native_record]. split; [|by exists s].
  unfold _exact_search_hit in Hhit. inv_ok. bool_prop. by apply dec_stable.
Qed.
