(* ===== verification/VectorExample.v ===== *)
(** * Two rows

    A head of two text chunks with vectors of one dimension, the index that is
    prepared from it and a query of it: the input on which the properties of the
    exact search are shown to apply. *)

From S2P Require Import Prelude PyOrder KnowledgeContracts Utf8 HeapQ VectorRetain VectorFormat VectorFormatLaws VectorQuery VectorScan VectorSearch VectorSpec VectorVerify VectorVerifyLaws VectorHandle VectorScanLaws VectorAgree.

#[global] Open Scope Z_scope.

(** The JSON of the example is that of the empty object. *)
Definition tiny_repr (f : pyfloat) : pystr := py "1.0".
Definition tiny_loads (s : pystr) : option json := if decide (s = py "{}") then Some (JObject []) else None.

Definition tiny_float (n : Z) : pyfloat := binary_normalize 53 1024 n 0 false.

Definition tiny_model : ModelRow :=
  {| m_signature := py "m"; m_vector_space := py "s"; m_modality := py "text"; m_dimensions := 1;
     m_active := true |}.

Definition tiny_row (n : Z) (item entity : string) (vector : list byte) : MemberRow :=
  {| r_ref_id := n; r_entity_id := py entity; r_item_id := py item; r_model_signature := py "m";
     r_vector_space := py "s"; r_modality := py "text"; r_generation_id := 7;
     r_provenance_json := py "{}"; r_vector_blob := vector; r_dimensions := 1;
     r_vector_dtype := py "float32"; r_entity_kind := py "text_chunk"; r_section_kind := py "body";
     r_status := py "ready"; content_matches := true |}.

(** The vectors [[-1.0]] and [[1.0]]. *)
Definition tiny_tables : Tables :=
  {| models := [tiny_model];
     heads := [{| head_model := py "m"; head_generation := 7; generation_model := py "m";
                  generation_status := py "ready"; generation_processing := py "p" |}];
     members := [tiny_row 3 "i" "e" [Byte.x00; Byte.x00; Byte.x80; Byte.xbf];
                 tiny_row 5 "i" "f" [Byte.x00; Byte.x00; Byte.x80; Byte.x3f]] |}.

Definition tiny_query : ExactQuery :=
  {| query_model_signature := py "m"; q_vector_space := py "s"; q_dimensions := 1;
     q_vector := [tiny_float 2]; q_target_modality := py "text"; q_indexed_model_signatures := [] |}.

Definition tiny_prepared : result vector_error (Owner * PrepareState) :=
  prepare_index_rows tiny_repr tiny_loads None tiny_tables (py "m") (py "all") 10 100000 100.

Definition tiny_owner : Owner :=
  match tiny_prepared with
  | Ok x => x.1
  | Err _ => {| o_models := []; o_heads := []; o_scope := [];
                o_pair := {| pair_model_signature := []; pair_generation_id := 0;
                  pair_processing_signature := []; pair_vector_space := []; pair_modality := [];
                  pair_entity_kind := []; pair_status := [] |} |}
  end.

Definition tiny_state : PrepareState :=
  match tiny_prepared with Ok x => x.2 | Err _ => prepare_start end.

Definition tiny_index : SealedView := sealed_from [o_pair tiny_owner] true tiny_state.

Definition tiny_runtime : Runtime :=
  {| float_repr := tiny_repr; json_loads := tiny_loads; numpy := None; cancellation_check := None;
     live_fence := Ok tt; mapped_fence := Ok tt; final_fence := Ok tt |}.

Definition tiny_scan : ScanRuntime :=
  {| scan_json_loads := tiny_loads; scan_numpy := None; native_control := true; scan_callback := None;
     vectors_left := None |}.

(** The normalized query, the records of the index, and the hit of a row. *)
Definition tiny_vector : list pyfloat := [tiny_float 1].

Definition tiny_records : list VectorRecord := native_record tiny_owner <$> members tiny_tables.

Definition tiny_hit (r : MemberRow) : SearchHit :=
  row_hit tiny_query r [] (record_score tiny_query tiny_vector (native_record tiny_owner r)).

Definition tiny_dispatch : DispatchRuntime :=
  {| scan_rt := tiny_scan; capture_fence := λ _, Ok (py "fence"); snapshot_of := λ _ fence, fence |}.

Definition tiny_request : VectorSearchRequest :=
  {| request_query := tiny_query; owner_path := py "db"; snapshot_id := py "fence"; request_after := 0;
     request_evidence := true; request_scope := py "all"; request_item_ids := []; metric := py "cosine" |}.

Definition tiny_budget : VectorSearchBudget := {| budget_limit := 5; budget_vectors := 1; budget_batch := 8 |}.

(** A backend that declines. *)
Definition tiny_declining : VectorBackend :=
  {| search_page := λ _ _ left, Ok (Declined {| u_backend_id := py "x"; u_reason := py "busy";
                                                u_phase := py "prescan" |}, left);
     is_native := false |}.

Lemma tiny_well_formed : TablesWellFormed tiny_tables.
Proof.
  split.
  - split; cbn; repeat constructor; set_solver.
  - apply Forall_forall. assert (tiny_model ∈ models tiny_tables) by by left.
    repeat (apply Forall_cons; split; [by exists tiny_model|]). by apply Forall_nil.
  - apply Forall_forall. repeat (apply Forall_cons; split; [by split_and!|]). by apply Forall_nil.
Qed.

Lemma tiny_quiet : QuietRuntime tiny_runtime.
Proof. by split. Qed.

Lemma tiny_accepted : AcceptedQuery (opened tiny_index) tiny_query tiny_vector 5 10 0 8 (py "all") [].
Proof.
  split; [done|done|by eexists|by vm_compute|by eexists|]. by intros s Hs%elem_of_nil.
Qed.

Lemma tiny_row_scored r : r ∈ members tiny_tables →
  _exact_search_hit tiny_loads tiny_query tiny_vector r = Ok (tiny_hit r) ∧
  r_dimensions r = 1 ∧ ∃ s, _scalar_score tiny_vector (r_vector_blob r) 1 (r_vector_dtype r) = Ok s.
Proof.
  intros Hr. apply elem_of_cons in Hr as [->|Hr%list_elem_of_singleton]; [|subst r];
    (split; [vm_compute; reflexivity|split; [reflexivity|eexists; vm_compute; reflexivity]]).
Qed.

Lemma tiny_scorable : scorable_records tiny_query tiny_vector 0 (py "all") tiny_records.
Proof. intros r (row & -> & Hrow)%list_elem_of_fmap _. by apply tiny_row_scored in Hrow as (_ & ? & ?). Qed.

Lemma tiny_selected : selected_rows tiny_tables tiny_query 0 (py "all") [head_pair tiny_owner] = members tiny_tables.
Proof. vm_compute. reflexivity. Qed.

Lemma tiny_scored : scored_rows tiny_loads tiny_query tiny_vector tiny_hit
  (selected_rows tiny_tables tiny_query 0 (py "all") [head_pair tiny_owner]).
Proof. rewrite tiny_selected. intros r (? & _ & ?)%tiny_row_scored. by split. Qed.

(** A second model that is active and compatible but not published: a query that asks
    for both is one of the index to [_selected_pairs], and is refused by the index. *)
Definition both_models : ExactQuery :=
  {| query_model_signature := py "m"; q_vector_space := py "s"; q_dimensions := 1;
     q_vector := [tiny_float 2]; q_target_modality := py "text";
     q_indexed_model_signatures := [py "m"; py "n"] |}.

Definition second_model : ModelRow :=
  {| m_signature := py "n"; m_vector_space := py "s"; m_modality := py "text"; m_dimensions := 1;
     m_active := true |}.

Definition two_models : Tables :=
  {| models := [tiny_model; second_model]; heads := heads tiny_tables; members := members tiny_tables |}.

Lemma unpublished_model_is_refused :
  (owner ← _owner_contract None two_models (py "m") (py "all"); _selected_pairs owner both_models) =
    Ok [(py "m", 7)] ∧
  (page ← _scan_exact_page tiny_scan two_models both_models 5 10 0 8 true (py "all") [];
   Ok (page_scanned page.1)) = Ok 2 ∧
  query_exact_view tiny_runtime (opened tiny_index) both_models 5 10 0 8 (py "all") true [] true =
    Err (FallbackExactRequired (py "requested indexed model is absent") (py "query_model_binding")).
Proof. split_and!; vm_compute; reflexivity. Qed.
