(* ===== verification/VectorSafety.v ===== *)
(** * The properties of the exact vector search

    The index, its verification, its queries, the owner's scan and the dispatch
    between them. *)

From S2P Require Import Prelude PyOrder KnowledgeContracts Utf8 HeapQ VectorRetain VectorRetainLaws VectorFormat VectorFormatLaws VectorQuery VectorQueryLaws VectorScan VectorScanLaws VectorSearch VectorSearchLaws VectorSpec VectorSpecLaws VectorVerify VectorVerifyLaws VectorHandle VectorHandleLaws VectorAgree VectorExample.

#[global] Open Scope Z_scope.

(** ** The index *)

(** C7: A stored index that the verification accepts against the owner's records —
    whatever bytes it holds — answers a query that it accepts with the page of those
    records: the best [limit] of the first [max_vectors] that the query sees past the
    cursor, one for each item (or entity of an item), in the exact order, with the
    count of what was scanned and the cursor where the budget ended it.  Rows, offsets,
    batches and the heap leave no trace in the page.  This is about the scalar scorer
    (no NumPy, which scores batches of eight rows and more where it is installed), a
    run that is not cancelled and whose fences hold ([QuietRuntime]), a query that
    passes the checks of its arguments and asks for models of the view
    ([AcceptedQuery]; any other is refused, or left to the owner), and records of the
    dimensions of the query whose score exists ([scorable_records]). *)
Theorem accepted_view_answers_its_records cb before after sv records exhausted rt q query_vector limit
    max_vectors after_ref_id batch_size text_scope evidence_mode item_ids hydrate :
  verify_exact_records (float_repr rt) (json_loads rt) cb before after sv records exhausted = Ok tt →
  QuietRuntime rt →
  AcceptedQuery (opened sv) q query_vector limit max_vectors after_ref_id batch_size text_scope item_ids →
  scorable_records q query_vector after_ref_id text_scope records →
  fst <$> query_exact_view rt (opened sv) q limit max_vectors after_ref_id batch_size text_scope
            evidence_mode item_ids hydrate =
    record_page (float_repr rt) (json_loads rt) q query_vector limit max_vectors after_ref_id text_scope
      evidence_mode hydrate records.
Proof.
  intros Hv [] [? ? [sel Hb] ? [sigs Hc] ?] Hscored.
  by apply (held_query _ _ _ _ _ _ _ (verified_holds _ _ _ _ _ _ _ _ Hv) q sigs query_vector limit
    max_vectors after_ref_id batch_size text_scope evidence_mode hydrate Hc Hscored rt item_ids sel).
Qed.

Lemma accepted_view_witness :
  fst <$> query_exact_view tiny_runtime (opened tiny_index) tiny_query 5 10 0 8 (py "all") true [] true =
    record_page tiny_repr tiny_loads tiny_query tiny_vector 5 10 0 (py "all") true true tiny_records.
Proof.
  apply (accepted_view_answers_its_records None (Ok tt) (Ok tt) tiny_index tiny_records (Ok tt) tiny_runtime).
  - vm_compute. reflexivity.
  - exact tiny_quiet.
  - exact tiny_accepted.
  - exact tiny_scorable.
Defined.

(** C15: The index that was written from records is accepted by the verification
    against the same records: what [prepare_exact_view] seals, [verify_exact_records]
    reads back row for row — the rows, the identities, the vectors, the provenance, the
    numeric codes and the counts of the manifest. *)
Theorem prepared_view_is_accepted float_repr json_loads cb cb' records exhausted ps max_rows max_total_bytes
    numeric st :
  prepare_exact_view float_repr json_loads cb records exhausted ps max_rows max_total_bytes numeric = Ok st →
  (∀ s, vector_checkpoint cb' s = Ok tt) →
  verify_exact_records float_repr json_loads cb' (Ok tt) (Ok tt) (sealed_from ps numeric st) records (Ok tt)
    = Ok tt.
Proof. apply prepared_verified. Qed.

Lemma prepared_view_witness :
  verify_exact_records tiny_repr tiny_loads None (Ok tt) (Ok tt) tiny_index tiny_records (Ok tt) = Ok tt.
Proof.
  apply (prepared_view_is_accepted tiny_repr tiny_loads None None tiny_records (Ok tt) [o_pair tiny_owner] 10 99900
    true tiny_state).
  - vm_compute. reflexivity.
  - reflexivity.
Defined.

(** ** Retention *)

(** C14: The retention of the owner's scan, in both modes and for any hits: it never
    raises, its heap never grows past [max(2 * limit, limit + 64)] entries, and what it
    retains, sorted, is the best hit of each item (or entity) and of those the best
    [limit]. *)
Theorem retention_keeps_the_best evidence_mode empty limit hs :
  0 < limit →
  ∃ st, retain_all (X := vector_error) cmp_search e_order (search_key evidence_mode) empty limit
          (hit_entry <$> hs) nothing_retained = Ok st ∧
        zlen (heap st) <= Z.max (limit * 2) (limit + 64) ∧
        ordered_hits e_order st = top_hits e_order (search_key evidence_mode) limit (hit_entry <$> hs).
Proof.
  intros Hl. apply (retain_all_top cmp_search e_order (search_key evidence_mode) search_surfaces of_hit
    (search_tells_keys evidence_mode) empty limit (hit_entry <$> hs) Hl).
  apply Forall_fmap, Forall_forall. by eexists.
Qed.

Lemma retention_witness :
  ∃ st, retain_all (X := vector_error) cmp_search e_order (search_key true) MissingKeyError 1
          (hit_entry <$> (tiny_hit <$> members tiny_tables)) nothing_retained = Ok st ∧
        zlen (heap st) <= Z.max (1 * 2) (1 + 64) ∧
        ordered_hits e_order st =
          top_hits e_order (search_key true) 1 (hit_entry <$> (tiny_hit <$> members tiny_tables)).
Proof. apply (retention_keeps_the_best true MissingKeyError 1 (tiny_hit <$> members tiny_tables)). reflexivity. Defined.


(** ** The searches *)

(** C24: The page of the native backend meets the contract that every page is validated
    against: with the scalar scorer (no NumPy, which scores batches of eight rows and
    more where it is installed) and a run that is not cancelled, on well-formed tables
    whose selected rows can be scored, a valid request whose models are published is
    answered — the bound of the read operation included — with the best hits of the
    first rows past the cursor, and [validate_vector_page] accepts the page. *)
Theorem native_backend_meets_its_contract rt t r b left item_ids query_vector norm bound sigs ps hit_of :
  TablesWellFormed t → validate_request r = Ok tt → validate_budget b = Ok tt →
  _validate_text_scope (q_target_modality (request_query r)) (request_scope r) = Ok tt →
  validate_diagnostic_item_ids (request_item_ids r) = Ok item_ids →
  (∀ s, vector_checkpoint (scan_callback rt) s = Ok tt) → scan_numpy rt = None →
  normalize_vector (q_vector (request_query r)) (q_dimensions (request_query r)) = Ok (query_vector, norm) →
  remaining_read_limit (budget_vectors b) left = Ok bound →
  _search_models t (request_query r) = Ok sigs → _published_model_generations t sigs = Ok ps →
  (∀ row, row ∈ selected_rows t (request_query r) (request_after r) (request_scope r) ps →
     _exact_search_hit (scan_json_loads rt) (request_query r) query_vector row = Ok (hit_of row)) →
  ∃ result_ left',
    search_page (NativeExactVectorSearch rt t) r b left = Ok (Answered result_, left') ∧
    vp_page result_ = owner_page t (request_query r) (budget_limit b) (request_after r)
                        (request_evidence r) (request_scope r) hit_of bound ps ∧
    validate_vector_page result_ r b = Ok tt.
Proof.
  intros W Hr Hb Hscope Hids quiet Hnp Hnorm Hbound Hsigs Hps Hscored.
  unfold validate_request in Hr. unfold validate_budget in Hb. inv_ok. bool_prop.
  destruct (scan_exact_page_ok (with_vectors rt left) t (request_query r) (budget_limit b) (budget_vectors b)
    (request_after r) (budget_batch b) (request_evidence r) (request_scope r) (request_item_ids r) item_ids
    query_vector norm bound sigs ps hit_of Hscope Hids) as (st & Hst); try done; try lia.
  cbn [search_page NativeExactVectorSearch]. unfold native_search_page. cbn [raise_if mbind result_bind].
  rewrite Hst. cbn [mbind result_bind]. eexists _, _. split; [done|]. split; [done|].
  apply (owner_page_valid (scan_json_loads rt) t r b query_vector hit_of sigs ps bound W Hsigs Hps Hscored); try done; try lia.
  unfold remaining_read_limit in Hbound. destruct left; inv_ok; bool_prop; lia.
Qed.

Lemma native_backend_witness :
  ∃ result_ left',
    search_page (NativeExactVectorSearch tiny_scan tiny_tables) tiny_request tiny_budget (Some 1) =
      Ok (Answered result_, left') ∧
    vp_page result_ = owner_page tiny_tables tiny_query 5 0 true (py "all") tiny_hit 1 [head_pair tiny_owner] ∧
    validate_vector_page result_ tiny_request tiny_budget = Ok tt.
Proof.
  apply (native_backend_meets_its_contract tiny_scan tiny_tables tiny_request tiny_budget (Some 1) [] tiny_vector
    (tiny_float 2) 1 [py "m"] [head_pair tiny_owner] tiny_hit);
    [exact tiny_well_formed|reflexivity|reflexivity|reflexivity|reflexivity|reflexivity|reflexivity
    |vm_compute; reflexivity|reflexivity|reflexivity|vm_compute; reflexivity|].
  intros row Hrow. by apply tiny_scored.
Defined.

(** C13: No backend — the index, an external one or the native scan, whatever it
    answers — gets a page past the dispatch that breaks the exact search: what
    [_search_exact_page] returns was scanned within the bound, its hits are sorted in
    the total order, name no group twice, lie past the cursor and within the query,
    and its cursor is one that a later page can resume from. *)
Theorem dispatched_page_is_sound rt t path q limit max_vectors after_ref_id batch_size evidence_mode
    text_scope item_ids exact_index vector_backend page reason left :
  _search_exact_page rt t path q limit max_vectors after_ref_id batch_size evidence_mode text_scope
    item_ids exact_index vector_backend = Ok (page, reason, left) →
  page_scanned page <= max_vectors ∧ zlen (page_hits page) <= Z.min limit (page_scanned page) ∧
  StronglySorted (λ h h', cmp_le cmp_order (hit_order h) (hit_order h')) (page_hits page) ∧
  NoDup ((λ h, key_of evidence_mode (s_item_id h) (s_entity_id h)) <$> page_hits page) ∧
  (∀ h, h ∈ page_hits page → after_ref_id < s_ref_id h ∧ s_vector_space h = q_vector_space q ∧
     ∀ n, page_cursor page = Some n → s_ref_id h <= n) ∧
  if page_complete page then page_cursor page = None
  else ∃ n, page_cursor page = Some n ∧ after_ref_id < n.
Proof.
  intros H. unfold _search_exact_page in H. inv_ok. split_pairs.
  rename select (validate_vector_page _ _ _ = _) into Hv. apply validated_page in Hv as [Hs Hf Ho Hg Hb Hc].
  cbn [budget_vectors budget_limit request_after request_query] in *. split_and!; try done.
  - rename select (remaining_read_limit _ _ = _) into Hrem. unfold remaining_read_limit in Hrem.
    destruct (vectors_left (scan_rt rt)); inv_ok; lia.
  - apply (NoDup_fmap_1 (λ k, match k with ByItem i => (i, []) | ByEvidence i e => (i, e) end)).
    rewrite <- list_fmap_compose. erewrite list_fmap_ext; [exact Hg|]. intros i h _. unfold group_key, key_of. cbn.
    by destruct evidence_mode.
  - intros h Hh. destruct (Hb h Hh) as (? & _ & ? & _ & ?). by split_and!.
Qed.

Lemma dispatched_page_witness :
  ∃ page reason left,
    _search_exact_page tiny_dispatch tiny_tables (py "db") tiny_query 5 1 0 8 true (py "all") []
      (Some tiny_declining) None = Ok (page, reason, left) ∧
    NoDup ((λ h, key_of true (s_item_id h) (s_entity_id h)) <$> page_hits page).
Proof.
  eexists _, _, _. split; [vm_compute; reflexivity|].
  eapply (dispatched_page_is_sound tiny_dispatch tiny_tables (py "db") tiny_query 5 1 0 8 true (py "all") []
    (Some tiny_declining) None). vm_compute. reflexivity.
Defined.

(** A backend that declines before it scans costs the query nothing: where the
    owner's files have not changed, the dispatch returns what the native search
    returns — the same page, the same allowance, the same errors — and says why. *)
Theorem declined_query_gets_the_native_page rt t path q limit max_vectors after_ref_id batch_size
    evidence_mode text_scope item_ids declining u fence :
  (∀ site, capture_fence rt site = Ok fence) →
  (∀ r b left, search_page declining r b left = Ok (Declined u, left)) →
  u_phase u = py "prescan" → u_reason u ≠ [] → u_backend_id u ≠ [] →
  _search_exact_page rt t path q limit max_vectors after_ref_id batch_size evidence_mode text_scope
    item_ids (Some declining) None =
  (λ x, (x.1.1, Some (u_reason u), x.2)) <$>
    _search_exact_page rt t path q limit max_vectors after_ref_id batch_size evidence_mode text_scope
      item_ids None None.
Proof.
  intros Hfence Hdeclines Hphase Hreason Hid. unfold _search_exact_page.
  rewrite !(bool_decide_eq_false_2 (is_Some (None : option VectorBackend))), !andb_false_r by (by intros [? ?]).
  cbn [raise_if mbind result_bind]. destruct (_validate_text_scope _ _); [|done]. cbn [mbind result_bind].
  destruct (validate_diagnostic_item_ids item_ids) as [sel|]; [|done]. cbn [mbind result_bind].
  destruct (remaining_read_limit _ _) as [vectors|]; [|done]. cbn [mbind result_bind].
  set (b := {| budget_vectors := vectors |}). destruct (validate_budget b); [|done]. cbn [mbind result_bind].
  destruct (vector_checkpoint _ AtStart); [|done]. cbn [mbind result_bind].
  rewrite !Hfence. cbn [mbind result_bind]. set (r := {| request_query := q |}).
  destruct (validate_request r); [|done]. cbn [mbind result_bind].
  change (default _ (None ∪ Some declining)) with declining.
  change (default _ (None ∪ None)) with (NativeExactVectorSearch (scan_rt rt) t).
  rewrite Hdeclines. cbn [mbind result_bind search_page NativeExactVectorSearch is_native].
  unfold settle_outcome at 1. rewrite Hphase, !(bool_decide_eq_false_2 (_ = [])) by done.
  rewrite (bool_decide_eq_false_2 (py "prescan" ≠ py "prescan")) by tauto. cbn [orb raise_if mbind result_bind].
  rewrite Hfence. cbn [mbind result_bind]. rewrite (bool_decide_eq_false_2 (fence ≠ fence)) by tauto.
  cbn [raise_if mbind result_bind].
  unfold native_search_page. cbn [raise_if mbind result_bind].
  destruct (_scan_exact_page _ _ _ _ _ _ _ _ _ _) as [[page st]|]; [|done]. cbn [mbind result_bind settle_outcome].
  destruct (validate_vector_page _ r b); [|done]. cbn [mbind result_bind].
  rewrite !(bool_decide_eq_false_2 (Some _ = None)), andb_false_r by done. cbn [andb mbind result_bind raise_if].
  by destruct (vector_checkpoint _ AtEnd).
Qed.

Lemma declined_query_witness :
  _search_exact_page tiny_dispatch tiny_tables (py "db") tiny_query 5 1 0 8 true (py "all") []
    (Some tiny_declining) None =
  (λ x, (x.1.1, Some (py "busy"), x.2)) <$>
    _search_exact_page tiny_dispatch tiny_tables (py "db") tiny_query 5 1 0 8 true (py "all") [] None None.
Proof.
  apply (declined_query_gets_the_native_page tiny_dispatch tiny_tables (py "db") tiny_query 5 1 0 8 true (py "all") []
    tiny_declining {| u_backend_id := py "x"; u_reason := py "busy"; u_phase := py "prescan" |} (py "fence"));
    (reflexivity || discriminate).
Defined.

(** The index and the owner's search choose the published heads of a query alike:
    on tables whose models and heads have primary keys, the pairs that a handle
    selects from the owner it captured are those that [_search_models] and
    [_published_model_generations] read from the database, errors included. *)
Theorem handle_selects_the_searched_pairs cb t signature scope owner q :
  KeyedTables t → _owner_contract cb t signature scope = Ok owner →
  _selected_pairs owner q = (sigs ← _search_models t q; _published_model_generations t sigs).
Proof. intros K H%owner_captured; [|done]. by eapply selected_pairs_of_search. Qed.

Lemma handle_selects_witness :
  _selected_pairs tiny_owner tiny_query =
    (sigs ← _search_models tiny_tables tiny_query; _published_model_generations tiny_tables sigs).
Proof.
  apply (handle_selects_the_searched_pairs None tiny_tables (py "m") (py "all")).
  - exact (wf_keys _ tiny_well_formed).
  - vm_compute. reflexivity.
Defined.

(** C4: An index answers as its owner.  For a head of well-formed tables, let the
    verification of [open_exact_index] accept a stored index, and let a text query in
    the scope of the index select that head only.  Then the owner's exact scan of the
    database answers, the query of the index answers (at least where it leaves the
    provenance to the owner), and every page it returns is the owner's: the same
    candidates with the same scores in the same order, the same count, the same cursor,
    the same coverage — for every limit, budget, cursor and mode, on the scalar scorers
    of both. *)
Theorem index_answers_as_owner cb before after_ t signature scope max_rows sv owner rt srt q query_vector norm
    limit max_vectors after_ref_id batch_size batch_size' evidence_mode hydrate hit_of :
  TablesWellFormed t → 1 <= max_rows → scope ∈ [py "all"; py "content"; py "title"] →
  verify_index_rows (float_repr rt) (json_loads rt) cb t signature scope max_rows before after_ sv = Ok owner →
  QuietRuntime rt → scan_numpy srt = None → vectors_left srt = None →
  (∀ s, vector_checkpoint (scan_callback srt) s = Ok tt) →
  AcceptedQuery (opened sv) q query_vector limit max_vectors after_ref_id batch_size scope [] →
  q_target_modality q = py "text" → (∀ s, s ∈ q_indexed_model_signatures q → s = signature) →
  _selected_pairs owner q = Ok [head_pair owner] →
  normalize_vector (q_vector q) (q_dimensions q) = Ok (query_vector, norm) → 1 <= batch_size' <= 10000 →
  scored_rows (scan_json_loads srt) q query_vector hit_of
    (selected_rows t q after_ref_id scope [head_pair owner]) →
  ∃ owned st,
    _scan_exact_page srt t q limit max_vectors after_ref_id batch_size' evidence_mode scope [] = Ok (owned, st) ∧
    let answer := fst <$> query_exact_view rt (opened sv) q limit max_vectors after_ref_id batch_size scope
                            evidence_mode [] hydrate in
    (hydrate = false → ∃ page, answer = Ok page) ∧
    ∀ page, answer = Ok page →
      derived_facts <$> hits page = search_facts <$> page_hits owned ∧
      scanned page = page_scanned owned ∧ next_cursor page = page_cursor owned ∧
      complete page = page_complete owned.
Proof.
  intros W Hmax Hscope Hv Quiet Hnp Hleft Hcb A Htext Hasked Hsel Hnorm Hbatch Hscored.
  unfold verify_index_rows in Hv. inv_ok. rename select (_owner_contract _ _ _ _ = _) into Hown.
  apply owner_captured in Hown as C; [|apply W].
  destruct (_native_rows cb t owner max_rows) as [records e] eqn:Hrows.
  rename select (verify_exact_records _ _ _ _ _ _ _ _ = _) into Hver. cbn [fst snd] in Hver.
  destruct (verified_exhausted _ _ _ _ _ _ _ _ Hver) as [-> Hkeys].
  apply (native_records _ _ _ _ _ q Hmax Htext) in Hrows. rewrite (cap_scope _ _ _ _ C) in Hrows. subst records.
  pose proof (verified_holds _ _ _ _ _ _ _ _ Hver) as Hholds. clear Hver.
  destruct A as [Hcode Himage [sel Hb] Hqv [sigs Hc] Haskedp], Quiet as [Hn Hq Hl Hm Hf].
  destruct (searched_pairs t owner signature scope q W C Hsel) as (msigs & Hms & Hps).
  assert (1 <= limit <= 10000 ∧ 1 <= max_vectors <= 10000000 ∧ 0 <= after_ref_id) as (Hlim & Hvec & Hafter)
    by (unfold _bounds in Hb; inv_ok; bool_prop; unfold MAX_QUERY_LIMIT, MAX_QUERY_VECTORS in *; lia).
  destruct (scan_exact_page_ok srt t q limit max_vectors after_ref_id batch_size' evidence_mode scope [] []
    query_vector norm max_vectors msigs [head_pair owner] hit_of) as (st & Hst); try done.
  { unfold _validate_text_scope. rewrite Htext. rewrite (bool_decide_eq_false_2 (scope ∉ _)) by tauto.
    by rewrite (bool_decide_eq_false_2 (py "text" ≠ _)) by tauto. }
  { by rewrite Hleft. }
  { intros row Hrow. by apply Hscored. }
  eexists _, st. split; [exact Hst|]. set (records := native_record owner <$> _) in *. intros answer.
  assert (scorable_records q query_vector after_ref_id scope records) as Hgood.
  { by apply (native_scorable (scan_json_loads srt)) with signature hit_of. }
  assert (answer = record_page (float_repr rt) (json_loads rt) q query_vector limit max_vectors after_ref_id
    scope evidence_mode hydrate records) as -> by (by apply (held_query _ _ _ _ _ _ _ Hholds q sigs query_vector
      limit max_vectors after_ref_id batch_size scope evidence_mode hydrate Hc Hgood rt [] sel)).
  split; [intros ->; by apply record_page_answers|]. intros page Hpage.
  by apply (pages_agree (float_repr rt) (json_loads rt) (scan_json_loads srt) t owner signature scope q query_vector
    limit after_ref_id evidence_mode hydrate hit_of W C Htext Hscope Hasked Hafter Hsel Hscored max_vectors page).
Qed.

Lemma index_answers_witness :
  ∃ owned st,
    _scan_exact_page tiny_scan tiny_tables tiny_query 5 10 0 16 true (py "all") [] = Ok (owned, st) ∧
    let answer := fst <$> query_exact_view tiny_runtime (opened tiny_index) tiny_query 5 10 0 8 (py "all")
                            true [] false in
    (false = false → ∃ page, answer = Ok page) ∧
    ∀ page, answer = Ok page →
      derived_facts <$> hits page = search_facts <$> page_hits owned ∧
      scanned page = page_scanned owned ∧ next_cursor page = page_cursor owned ∧
      complete page = page_complete owned.
Proof.
  apply (index_answers_as_owner None (Ok tt) (Ok tt) tiny_tables (py "m") (py "all") 10 tiny_index tiny_owner
    tiny_runtime tiny_scan tiny_query tiny_vector (tiny_float 2) 5 10 0 8 16 true false tiny_hit);
    [exact tiny_well_formed|lia|by left|vm_compute; reflexivity|exact tiny_quiet|reflexivity|reflexivity|reflexivity
    |exact tiny_accepted|reflexivity|by intros ? ?%elem_of_nil|vm_compute; reflexivity|vm_compute; reflexivity|lia|].
  exact tiny_scored.
Defined.
