(* ===== verification/RetentionGraph.v ===== *)
(** * Bounded reachability (workflow/retention/planner.py)

    The ancestors of live rows in a table of parents, walked to a bounded depth and a
    bounded number of rows, as the recursive queries of the retention planner collect
    them.  SQLite takes the rows of a recursive query in the order in which they were
    added. *)

From S2P Require Import Prelude PyOrder.

#[global] Open Scope Z_scope.

Definition MAX_REACHABILITY_DEPTH : Z := 64.
Definition MAX_REACHABILITY_NODES : Z := 4096.

Inductive retention_error : Type :=
| RetentionValueError (message : pystr)
| RetentionTypeError
| RetentionUnicodeError
| RetentionKeyError
| RetentionAssertionError
| RetentionPlanningCancelled
| RetentionOperationalError (message : pystr).

Definition retention_value (message : string) : retention_error := RetentionValueError (py message).

(** [_ReachabilityResult] *)
Record ReachabilityResult : Type := { ancestors : gset Z; walk_complete : bool }.

Section walk.
Variable edges : list (Z * option Z).

(** The parents of a node: the join of a turn of the recursion. *)
Definition parents_of (n : Z) : list Z := omap (λ e, if decide (e.1 = n) then e.2 else None) edges.

(** The rows of the recursive query from a level on: [more] levels follow. *)
Fixpoint walk (more : nat) (depth : Z) (level : list Z) : list (Z * Z) :=
  ((λ n, (n, depth)) <$> level) ++
  match more with
  | O => []
  | S more' => walk more' (depth + 1) (level ≫= parents_of)
  end.

(** The query and what is made of its rows; [roots] are the parents of the live rows,
    [existing] the nodes of the table. *)
Definition bounded_reachability (roots existing : list Z) (max_depth max_nodes : Z)
    (depth_limit_is_incomplete : bool) : result retention_error ReachabilityResult :=
  raise_if (negb ((1 <=? max_depth) && (max_depth <=? MAX_REACHABILITY_DEPTH)))
    (retention_value "reachability depth is outside the planner bound");;
  raise_if (negb ((1 <=? max_nodes) && (max_nodes <=? MAX_REACHABILITY_NODES)))
    (retention_value "reachability node limit is outside the planner bound");;
  let rows := take (Z.to_nat (max_nodes + 1)) (walk (Z.to_nat (max_depth - 1)) 1 roots) in
  let selected := take (Z.to_nat max_nodes) rows in
  let found : gset Z := list_to_set selected.*1 in
  let truncated := (max_nodes <? zlen rows) ||
    negb (bool_decide (found ⊆ list_to_set existing)) ||
    (depth_limit_is_incomplete && existsb (λ r, max_depth <=? r.2) selected) in
  Ok {| ancestors := found; walk_complete := negb truncated |}.
End walk.

(** [_bounded_parent_reachability]: a row is its node, its parent and whether it is
    live. *)
Definition _bounded_parent_reachability (rows : list (Z * option Z * bool)) (max_depth max_nodes : Z)
    (depth_limit_is_incomplete : bool) : result retention_error ReachabilityResult :=
  bounded_reachability rows.*1 (omap (λ r : Z * option Z * bool, if r.2 then r.1.2 else None) rows)
    rows.*1.*1 max_depth max_nodes depth_limit_is_incomplete.

(** [_bounded_inventory_reachability]: the edges from a scan to its predecessor, and
    the scans. *)
Definition _bounded_inventory_reachability (edges : list (Z * option Z)) (scans : list Z)
    (max_depth max_nodes : Z) : result retention_error ReachabilityResult :=
  bounded_reachability edges (omap snd edges) scans max_depth max_nodes true.

(** ** Laws *)

(** A node and its parent. *)
Definition has_parent (edges : list (Z * option Z)) (n m : Z) : Prop := (n, Some m) ∈ edges.

Section laws.
Variable edges : list (Z * option Z).

Lemma parents_of_spec n m : m ∈ parents_of edges n ↔ has_parent edges n m.
Proof.
  unfold parents_of, has_parent. rewrite list_elem_of_omap. split.
  - intros ([n' [m'|]] & Hin & H); cbn in H; case_decide; try done; by simplify_eq.
  - intros Hin. exists (n, Some m). split; [done|]. cbn. by rewrite decide_True.
Qed.

(** The rows of the walk, level by level. *)
Lemma walk_elem more : ∀ depth level n d,
  (n, d) ∈ walk edges more depth level ↔
  ∃ k, (k <= more)%nat ∧ d = depth + Z.of_nat k ∧ ∃ r, r ∈ level ∧ nsteps (has_parent edges) k r n.
Proof.
  induction more as [|more IH]; intros depth level n d; cbn; rewrite elem_of_app, list_elem_of_fmap.
  - split.
    + intros [(r & [= <- <-] & Hr)|[]%elem_of_nil]. exists 0%nat. split_and!; [lia..|]. exists n. by repeat constructor.
    + intros (k & Hk & -> & r & Hr & Hs). assert (k = 0%nat) as -> by lia. inv Hs. left. exists n. split; [f_equal; lia|done].
  - rewrite IH. split.
    + intros [(r & [= <- <-] & Hr)|(k & Hk & -> & r & Hr & Hs)].
      * exists 0%nat. split_and!; [lia..|]. exists n. by repeat constructor.
      * apply list_elem_of_bind in Hr as (r0 & Hr%parents_of_spec & Hin). exists (S k).
        split_and!; [lia..|]. exists r0. split; [done|]. by econstructor.
    + intros ([|k] & Hk & -> & r & Hr & Hs); inv Hs.
      * left. exists n. split; [f_equal; lia|done].
      * right. exists k. split_and!; [lia..|]. rename select (has_parent edges r _) into Hp.
        eexists. split; [|done]. apply list_elem_of_bind. exists r. split; [by apply parents_of_spec|done].
Qed.

(** A walk that says it is complete has the ancestors of its levels, all of which
    exist; where the depth bound counts as incomplete, these are all the ancestors. *)
Lemma complete_levels roots existing max_depth max_nodes b r :
  bounded_reachability edges roots existing max_depth max_nodes b = Ok r →
  walk_complete r = true →
  (∀ n, n ∈ ancestors r ↔ ∃ root k, root ∈ roots ∧ nsteps (has_parent edges) k root n ∧
                            (b = true ∨ Z.of_nat k < max_depth)) ∧
  (∀ n, n ∈ ancestors r → n ∈ existing).
Proof.
  unfold bounded_reachability. set (all := walk edges _ 1 roots). intros H Hc. inv_ok. cbn [ancestors walk_complete] in *.
  bool_prop. rename select (b && _ = false) into Hdeep. rename select (_ ⊆ _) into Hex.
  assert (zlen all <= max_nodes) as Hlen by (rewrite length_take in *; lia).
  rewrite !(take_ge all) in * by lia.
  assert (b = true → ∀ n d, (n, d) ∈ all → d < max_depth) as Hshallow.
  { intros -> n d Hin. destruct (Z.ltb_spec d max_depth) as [|Hge]; [done|]. exfalso. cbn in Hdeep.
    rewrite <- not_true_iff_false in Hdeep. apply Hdeep, existsb_exists. exists (n, d).
    split; [by apply list_elem_of_In|]. by apply Z.leb_le. }
  split.
  - intros n. rewrite elem_of_list_to_set, list_elem_of_fmap. split.
    + intros ([n' d] & -> & (k & Hk & _ & root & Hr & Hs)%walk_elem). exists root, k. split_and!; [done..|]. right. lia.
    + intros (root & k & Hr & Hs & Hb).
      assert (k <= Z.to_nat (max_depth - 1))%nat as Hk.
      { destruct Hb as [Hb|Hb]; [|lia]. destruct (decide (k <= Z.to_nat (max_depth - 1))%nat) as [|Hge]; [done|]. exfalso.
        assert (k = (Z.to_nat (max_depth - 1) + (k - Z.to_nat (max_depth - 1)))%nat) as Hsplit by lia.
        rewrite Hsplit in Hs. apply nsteps_add_inv in Hs as (m & Hs & _).
        enough (max_depth < max_depth) by lia. apply (Hshallow Hb m), walk_elem. exists (Z.to_nat (max_depth - 1)). split_and!; [lia..|]. by exists root. }
      exists (n, 1 + Z.of_nat k). split; [done|]. apply walk_elem. exists k. split_and!; [lia..|]. by exists root.
  - intros n Hn. apply Hex in Hn. by apply elem_of_list_to_set in Hn.
Qed.

Lemma complete_walk roots existing max_depth max_nodes r :
  bounded_reachability edges roots existing max_depth max_nodes true = Ok r →
  walk_complete r = true →
  (∀ n, n ∈ ancestors r ↔ ∃ root, root ∈ roots ∧ rtc (has_parent edges) root n) ∧
  (∀ n, n ∈ ancestors r → n ∈ existing).
Proof.
  intros H Hc. destruct (complete_levels _ _ _ _ _ _ H Hc) as [Ha Hex]. split; [|done]. intros n. rewrite Ha. split.
  - intros (root & k & Hr & Hs & _). exists root. split; [done|]. by eapply rtc_nsteps_2.
  - intros (root & Hr & [k Hs]%rtc_nsteps_1). exists root, k. split_and!; [done..|by left].
Qed.

(** Whatever its bounds, a walk finds ancestors only. *)
Lemma walk_sound roots existing max_depth max_nodes b r n :
  bounded_reachability edges roots existing max_depth max_nodes b = Ok r → n ∈ ancestors r →
  ∃ root, root ∈ roots ∧ rtc (has_parent edges) root n.
Proof.
  unfold bounded_reachability. intros H Hn. inv_ok. cbn in Hn.
  apply elem_of_list_to_set, list_elem_of_fmap in Hn as ([n' d] & -> & Hin).
  apply (subseteq_take _ _ (n', d)), (subseteq_take _ _ (n', d)), walk_elem in Hin as (k & _ & _ & root & Hr & Hs).
  exists root. split; [done|]. by eapply rtc_nsteps_2.
Qed.
End laws.

(** Where every row is live, the first level has all the ancestors already. *)
Lemma first_level_suffices (edges : list (Z * option Z)) n :
  (∃ root, root ∈ omap snd edges ∧ rtc (has_parent edges) root n) ↔ n ∈ omap snd edges.
Proof.
  split.
  - intros (root & Hr & Hs). apply rtc_inv_r in Hs as [->|(m & _ & Hp)]; [done|].
    apply list_elem_of_omap. by exists (m, Some n).
  - intros Hn. by exists n.
Qed.
