(* ===== verification/RetentionStores.v ===== *)
(** * Retention over the stores (workflow/retention/planner.py)

    The dry run over the semantic, catalog, inventory and framework stores: for a page
    of rows of a store, what is protected, what is blocked and what is old enough to be
    proposed.  A snapshot is the tables of a store, a table the list of its rows with
    the columns that the queries read; the lengths of the text columns of a row that
    an estimate adds up are one number of the row.  Opening and validating a
    snapshot, the sizes of its files and the accounts of its holds are arguments. *)

From S2P Require Import Prelude PyOrder RetentionGraph.

#[global] Open Scope Z_scope.

Inductive Disposition : Type := Eligible | Protected | Blocked.
#[export] Instance disposition_eq_dec : EqDecision Disposition.
Proof. solve_decision. Defined.

Inductive StoreStatus : Type := StoreReady | StoreAbsent | StoreBlocked.
#[export] Instance store_status_eq_dec : EqDecision StoreStatus.
Proof. solve_decision. Defined.

Inductive RetentionStore : Type := Semantic | Catalog | Inventory | Framework.
#[export] Instance retention_store_eq_dec : EqDecision RetentionStore.
Proof. solve_decision. Defined.

Definition STORE_ORDER : list RetentionStore := [Semantic; Catalog; Inventory; Framework].

(** ** The policy *)

Record RetentionPolicy : Type := {
  minimum_age_ns : option Z;
  keep_published : Z;
  batch_size : Z;
  snapshot_max_temporary_bytes : Z;
  snapshot_prepare_timeout_seconds : pyfloat;
  terminal_log_count : Z;
  terminal_log_bytes : Z;
  summary_count : Z;
  summary_bytes : Z;
  receipt_count : Z;
  receipt_bytes : Z;
  rollback_derived_count : Z
}.

(** [SQLiteSnapshotBudget.__post_init__] of the two values *)
Definition validate_snapshot_budget (max_temporary_bytes : Z) (prepare_timeout_seconds : pyfloat) :
    result retention_error unit :=
  raise_if (max_temporary_bytes <=? 0) (retention_value "max_temporary_bytes must be a positive integer");;
  raise_if (negb (is_finite prepare_timeout_seconds) || SFleb prepare_timeout_seconds (float_of_int 0))
    (retention_value "prepare_timeout_seconds must be finite and positive").

(** [RetentionPolicy.__post_init__] *)
Definition validate_policy (p : RetentionPolicy) : result retention_error unit :=
  validate_snapshot_budget (snapshot_max_temporary_bytes p) (snapshot_prepare_timeout_seconds p);;
  raise_if (match minimum_age_ns p with Some n => n <? 0 | None => false end)
    (retention_value "minimum_age_ns must be a non-negative integer");;
  raise_if (negb (keep_published p =? 2)) (retention_value "keep_published must be exactly 2");;
  raise_if (negb ((1 <=? batch_size p) && (batch_size p <=? 1000)))
    (retention_value "retention batch_size must be between 1 and 1000");;
  foldl (λ r q, r;; raise_if (q.2 <? 0) (RetentionValueError (py q.1 ++ py " must be a non-negative integer")))
    (Ok tt)
    [("terminal_log_count"%string, terminal_log_count p); ("terminal_log_bytes"%string, terminal_log_bytes p);
     ("summary_count"%string, summary_count p); ("summary_bytes"%string, summary_bytes p);
     ("receipt_count"%string, receipt_count p); ("receipt_bytes"%string, receipt_bytes p);
     ("rollback_derived_count"%string, rollback_derived_count p)];;
  raise_if (negb (terminal_log_count p =? 2)) (retention_value "terminal_log_count must be exactly 2");;
  raise_if (negb (summary_count p =? 30)) (retention_value "summary_count must be exactly 30");;
  raise_if (negb (receipt_count p =? 30)) (retention_value "receipt_count must be exactly 30");;
  raise_if (negb (rollback_derived_count p =? 1)) (retention_value "rollback_derived_count must be exactly 1").

(** ** Plans *)

Record RetentionItem : Type := {
  key : Z;
  entity : pystr;
  scope : pystr;
  recorded_status : pystr;
  disposition : Disposition;
  reasons : list pystr;
  estimated_rows : Z;
  estimated_bytes : Z
}.

Record RetentionHold : Type := { hold_name : pystr; hold_reason : pystr; hold_rows : Z; hold_bytes : Z }.

Record RetentionStorePlan : Type := {
  plan_store : RetentionStore;
  plan_status : StoreStatus;
  plan_schema_version : option Z;
  plan_sizes : Z * Z * Z;
  items : list RetentionItem;
  holds : list RetentionHold;
  after : Z;
  next_after : option Z;
  truncated : bool;
  detail : option pystr;
  plan_storage : option (Z * Z * Z)
}.

Definition proposed (i : RetentionItem) : bool := bool_decide (disposition i = Eligible).

Definition eligible_rows (p : RetentionStorePlan) : Z :=
  sum_with estimated_rows (filter (λ i, proposed i = true) (items p)).
Definition eligible_bytes (p : RetentionStorePlan) : Z :=
  sum_with estimated_bytes (filter (λ i, proposed i = true) (items p)).
Definition protected_rows (p : RetentionStorePlan) : Z :=
  sum_with estimated_rows (filter (λ i, proposed i = false) (items p)) + sum_with hold_rows (holds p).
Definition protected_bytes (p : RetentionStorePlan) : Z :=
  sum_with estimated_bytes (filter (λ i, proposed i = false) (items p)) + sum_with hold_bytes (holds p).
Definition observed_rows (p : RetentionStorePlan) : Z :=
  sum_with estimated_rows (items p) + sum_with hold_rows (holds p).
Definition observed_bytes (p : RetentionStorePlan) : Z :=
  sum_with estimated_bytes (items p) + sum_with hold_bytes (holds p).
Definition proposed_rows : RetentionStorePlan → Z := eligible_rows.
Definition proposed_bytes : RetentionStorePlan → Z := eligible_bytes.

Record RetentionPlan : Type := { now_ns : Z; policy : RetentionPolicy; stores : list RetentionStorePlan }.

Definition plan_observed_rows (p : RetentionPlan) : Z := sum_with observed_rows (stores p).
Definition plan_observed_bytes (p : RetentionPlan) : Z := sum_with observed_bytes (stores p).
Definition plan_proposed_rows (p : RetentionPlan) : Z := sum_with proposed_rows (stores p).
Definition plan_proposed_bytes (p : RetentionPlan) : Z := sum_with proposed_bytes (stores p).

(** ** Snapshots *)

(** [_StoreSnapshot]; the tables of a connection, the sizes of the three files. *)
Record StoreSnapshot (A : Type) : Type := {
  snapshot_status : StoreStatus;
  schema_version : option Z;
  connection : option A;
  snapshot_detail : option pystr;
  storage : option (Z * Z * Z);
  file_sizes : Z * Z * Z;
  snapshot_holds : list RetentionHold
}.
#[global] Arguments snapshot_status {A} _.
#[global] Arguments schema_version {A} _.
#[global] Arguments connection {A} _.
#[global] Arguments snapshot_detail {A} _.
#[global] Arguments storage {A} _.
#[global] Arguments file_sizes {A} _.
#[global] Arguments snapshot_holds {A} _.

(** [_empty_store_plan] *)
Definition _empty_store_plan {A} (store : RetentionStore) (s : StoreSnapshot A) (after_ : Z) : RetentionStorePlan :=
  {| plan_store := store; plan_status := snapshot_status s; plan_schema_version := schema_version s;
     plan_sizes := file_sizes s; items := []; holds := []; after := after_; next_after := None;
     truncated := false; detail := snapshot_detail s; plan_storage := None |}.

(** [_age_disposition] *)
Definition _age_disposition (p : RetentionPolicy) (now : Z) (terminal_ns : option Z) :
    Disposition * list pystr :=
  match minimum_age_ns p, terminal_ns with
  | None, _ => (Protected, [py "policy_not_configured"])
  | Some _, None => (Blocked, [py "terminal_timestamp_missing"])
  | Some minimum, Some terminal =>
      if (now <? terminal) || (now - terminal <? minimum) then (Protected, [py "minimum_age_not_reached"])
      else (Eligible, [py "explicit_age_policy_matched"; py "dry_run_only"])
  end.

(** [_page_result] *)
Definition _page_result {R} (rows : list R) (batch : Z) (build : R → RetentionItem) :
    list RetentionItem * option Z * bool :=
  let truncated_ := batch <? zlen rows in
  let built := build <$> take (Z.to_nat batch) rows in
  (built, if truncated_ then key <$> last built else None, truncated_).

(** [WHERE id > ? ORDER BY id LIMIT ?] of a table with a primary key. *)
Definition keyset {R} (id_of : R → Z) (table : list R) (after_ limit : Z) : list R :=
  take (Z.to_nat limit) (sort_by Z.compare id_of (filter (λ r, after_ < id_of r) table)).

(** [EXISTS(SELECT 1 FROM table WHERE ...)] and [SELECT COUNT(...)] *)
Definition exists_in {R} (p : R → bool) (table : list R) : bool := existsb p table.
Definition count_in {R} (p : R → bool) (table : list R) : Z := zlen (filter (λ r, p r = true) table).
Definition bytes_in {R} (p : R → bool) (bytes : R → Z) (table : list R) : Z :=
  sum_with bytes (filter (λ r, p r = true) table).

(** A column that may be null equals a value. *)
Definition column_is (column : option Z) (n : Z) : bool := bool_decide (column = Some n).

(** [SELECT MAX(id) FROM table WHERE ...]; null over no row. *)
Definition max_id {R} (id_of : R → Z) (p : R → bool) (table : list R) : option Z :=
  foldr (λ n m, Some (match m with Some k => Z.max n k | None => n end)) None
    (id_of <$> filter (λ r, p r = true) table).

(** [list.append] under a condition. *)
Definition note (b : bool) (reason : string) (rs : list pystr) : list pystr :=
  if b then rs ++ [py reason] else rs.

(** [if reason not in reasons: reasons.append(reason)] under a condition *)
Definition note_once (b : bool) (reason : string) (rs : list pystr) : list pystr :=
  if b && negb (bool_decide (py reason ∈ rs)) then rs ++ [py reason] else rs.

Definition any_of (rs : list pystr) (names : list string) : bool :=
  existsb (λ n, bool_decide (py n ∈ rs)) names.

Section plans.
Variables (casefold : pystr → pystr) (p : RetentionPolicy) (now : Z).

(** [_status_is_partial_or_recovery] *)
Definition _status_is_partial_or_recovery (status : pystr) : bool :=
  bool_decide (casefold (strip status) ∈
    py <$> ["partial"; "ready_partial"; "recovery"; "recovering"; "recovery_required"]%string).

(** The disposition by age, with its reasons after those that were noted. *)
Definition by_age (completed : option Z) (rs : list pystr) : Disposition * list pystr :=
  let '(d, age_reasons) := _age_disposition p now completed in (d, rs ++ age_reasons).

Definition blocked_for (reason : string) (rs : list pystr) : Disposition * list pystr :=
  (Blocked, rs ++ [py reason]).
End plans.
