(* ===== verification/RetentionOwners.v ===== *)
(** * The plans of the four stores (workflow/retention/planner.py)

    [_plan_semantic], [_plan_catalog], [_plan_inventory] and [_plan_framework]: the row
    each query selects, and the disposition its [build] gives it. *)

From S2P Require Import Prelude PyOrder RetentionGraph RetentionStores.

#[global] Open Scope Z_scope.

(** ** The semantic store *)

Record GenerationRow : Type := {
  g_id : Z; g_model : pystr; g_status : pystr; g_completed : option Z;
  g_base : option Z; g_clone_complete : bool; g_bytes : Z
}.
Record EmbeddingHead : Type := { eh_model : pystr; eh_generation : Z; eh_bytes : Z }.
Record EmbeddingJob : Type := { j_generation : Z; j_status : pystr; j_lease_until : option Z; j_bytes : Z }.
(** A row of [embedding_generation_members], [text_embeddings] or [image_embeddings]. *)
Record OwnedRow : Type := { o_owner : Z; o_bytes : Z }.

Record SemanticTables : Type := {
  generations : list GenerationRow;
  embedding_heads : list EmbeddingHead;
  jobs : list EmbeddingJob;
  generation_members : list OwnedRow;
  text_embeddings : list OwnedRow;
  image_embeddings : list OwnedRow;
  evidence_generations : list (option Z);
  receipt_generations : list (option Z)
}.

(** The columns of a row of the query. *)
Record SemanticRow : Type := {
  s_generation : GenerationRow;
  s_current_head : bool;
  s_previous_head : bool;
  s_incoming_base : bool;
  s_evidence_reference : bool;
  s_lineage_reference : bool;
  s_live_lease : bool;
  s_rows : Z;
  s_bytes : Z
}.

Definition owned_by (n : Z) (r : OwnedRow) : bool := o_owner r =? n.

Definition semantic_row (t : SemanticTables) (now : Z) (g : GenerationRow) : SemanticRow :=
  let n := g_id g in
  {| s_generation := g;
     s_current_head := exists_in (λ h, eh_generation h =? n) (embedding_heads t);
     s_previous_head := exists_in (λ h, bool_decide (eh_model h = g_model g) &&
         bool_decide (Some n = max_id g_id (λ previous, bool_decide (g_model previous = eh_model h) &&
           bool_decide (g_status previous = py "ready") && (g_id previous <? eh_generation h)) (generations t)))
       (embedding_heads t);
     s_incoming_base := exists_in (λ child, column_is (g_base child) n &&
         bool_decide (g_status child = py "building") && negb (g_clone_complete child)) (generations t);
     s_evidence_reference := exists_in (λ c, column_is c n) (evidence_generations t);
     s_lineage_reference := exists_in (λ c, column_is c n) (receipt_generations t);
     s_live_lease := exists_in (λ j, (j_generation j =? n) && bool_decide (j_status j = py "leased") &&
         match j_lease_until j with Some until => now <? until | None => false end) (jobs t);
     s_rows := 1 + count_in (λ j, j_generation j =? n) (jobs t) + count_in (owned_by n) (generation_members t) +
         count_in (owned_by n) (text_embeddings t) + count_in (owned_by n) (image_embeddings t) +
         count_in (λ h, eh_generation h =? n) (embedding_heads t);
     s_bytes := g_bytes g + bytes_in (λ j, j_generation j =? n) j_bytes (jobs t) +
         bytes_in (owned_by n) o_bytes (generation_members t) + bytes_in (owned_by n) o_bytes (text_embeddings t) +
         bytes_in (owned_by n) o_bytes (image_embeddings t) +
         bytes_in (λ h, eh_generation h =? n) eh_bytes (embedding_heads t) |}.

Section plans.
Variables (casefold : pystr → pystr) (p : RetentionPolicy) (now : Z).

Definition semantic_reasons (found : gset Z) (r : SemanticRow) : list pystr :=
  let g := s_generation r in
  note_once (bool_decide (g_id g ∈ found)) "referenced_as_generation_base"
    (note (s_lineage_reference r) "referenced_by_semantic_work_receipt"
    (note (s_evidence_reference r) "referenced_by_semantic_evidence"
    (note (s_incoming_base r) "referenced_as_generation_base"
    (note (bool_decide (g_status g = py "building")) "resumable_builder_no_durable_owner"
    (note (s_live_lease r) "live_worker_lease"
    (note (s_previous_head r) "previous_published_generation"
    (note (s_current_head r) "current_published_generation" []))))))).

Definition semantic_disposition (reach : ReachabilityResult) (r : SemanticRow) : Disposition * list pystr :=
  let g := s_generation r in
  let rs := semantic_reasons (ancestors reach) r in
  if any_of rs ["current_published_generation"; "previous_published_generation"; "live_worker_lease";
                "resumable_builder_no_durable_owner"]%string then (Protected, rs)
  else if negb (walk_complete reach) then blocked_for "bounded_reachability_incomplete" rs
  else if s_incoming_base r then (Blocked, rs)
  else if s_evidence_reference r then (Blocked, rs)
  else if s_lineage_reference r then (Blocked, rs)
  else if _status_is_partial_or_recovery casefold (g_status g) then blocked_for "partial_or_recovery_state" rs
  else if bool_decide (g_status g ∉ py <$> ["ready"; "ready_partial"; "failed"]%string)
  then blocked_for "unexpected_generation_status" rs
  else by_age p now (g_completed g) rs.

Definition semantic_item (reach : ReachabilityResult) (r : SemanticRow) : RetentionItem :=
  let g := s_generation r in
  let '(d, rs) := semantic_disposition reach r in
  {| key := g_id g; entity := py "embedding_generation"; scope := g_model g; recorded_status := g_status g;
     disposition := d; reasons := rs; estimated_rows := s_rows r; estimated_bytes := s_bytes r |}.

Definition building_clone (g : GenerationRow) : bool :=
  bool_decide (g_status g = py "building") && negb (g_clone_complete g).

(** The plan of a store whose walk and page are done. *)
Definition store_plan {A} (store : RetentionStore) (s : StoreSnapshot A) (ready : bool) (after_ : Z)
    (page : list RetentionItem * option Z * bool) (detail_ : option pystr) : RetentionStorePlan :=
  {| plan_store := store; plan_status := if ready then StoreReady else StoreBlocked;
     plan_schema_version := schema_version s; plan_sizes := file_sizes s; items := page.1.1;
     holds := snapshot_holds s; after := after_; next_after := page.1.2; truncated := page.2;
     detail := detail_; plan_storage := None |}.

(** [_plan_semantic] *)
Definition _plan_semantic (s : StoreSnapshot SemanticTables) (after_ : Z) :
    result retention_error RetentionStorePlan :=
  t ← or_raise (connection s) RetentionAssertionError;
  reach ← _bounded_parent_reachability ((λ g, (g_id g, g_base g, building_clone g)) <$> generations t)
            1 MAX_REACHABILITY_NODES false;
  let rows := keyset g_id (generations t) after_ (batch_size p + 1) in
  Ok (store_plan Semantic s (walk_complete reach) after_
        (_page_result rows (batch_size p) (λ g, semantic_item reach (semantic_row t now g)))
        (if walk_complete reach then None else Some (py "bounded semantic generation reachability is incomplete"))).
End plans.

(** ** The catalog *)

Record CatalogGeneration : Type := {
  cg_id : Z; cg_source : pystr; cg_status : pystr; cg_completed : option Z; cg_run : option Z;
  cg_base : option Z; cg_bytes : Z
}.
Record CatalogPublication : Type := { cp_source : pystr; cp_generation : Z }.
Record OrganizationPlan : Type := { op_run : option Z; op_status : pystr }.

Record CatalogTables : Type := {
  catalog_generations : list CatalogGeneration;
  catalog_publications : list CatalogPublication;
  organization_plans : list OrganizationPlan;
  catalog_documents : list OwnedRow;
  catalog_framework_runs : list (option Z)
}.

Record CatalogRow : Type := {
  c_generation : CatalogGeneration;
  c_current_head : bool;
  c_previous_head : bool;
  c_incoming_base : bool;
  c_uncertain_action : bool;
  c_rows : Z;
  c_bytes : Z
}.

Definition uncertain_plan (o : OrganizationPlan) : bool :=
  bool_decide (op_status o ∈ py <$> ["applying"; "moved_cache_pending"; "recovery_required"]%string).

Definition catalog_row (t : CatalogTables) (g : CatalogGeneration) : CatalogRow :=
  let n := cg_id g in
  {| c_generation := g;
     c_current_head := exists_in (λ h, cp_generation h =? n) (catalog_publications t);
     c_previous_head := exists_in (λ h, bool_decide (cp_source h = cg_source g) &&
         bool_decide (Some n = max_id cg_id (λ previous, bool_decide (cg_source previous = cp_source h) &&
           bool_decide (cg_status previous = py "published") && (cg_id previous <? cp_generation h))
             (catalog_generations t)))
       (catalog_publications t);
     c_incoming_base := exists_in (λ child, column_is (cg_base child) n &&
         bool_decide (cg_status child = py "building")) (catalog_generations t);
     c_uncertain_action := exists_in (λ o, match op_run o with Some k => column_is (cg_run g) k | None => false end &&
         uncertain_plan o) (organization_plans t);
     c_rows := 1 + count_in (owned_by n) (catalog_documents t);
     c_bytes := cg_bytes g + bytes_in (owned_by n) o_bytes (catalog_documents t) |}.

Section catalog.
Variables (casefold : pystr → pystr) (p : RetentionPolicy) (now : Z).

Definition catalog_reasons (found : gset Z) (r : CatalogRow) : list pystr :=
  let g := c_generation r in
  note_once (bool_decide (cg_id g ∈ found)) "referenced_as_generation_base"
    (note (c_incoming_base r) "referenced_as_generation_base"
    (note (c_uncertain_action r) "uncertain_organization_action"
    (note (bool_decide (cg_status g = py "building")) "builder_liveness_unverifiable"
    (note (c_previous_head r) "previous_published_generation"
    (note (c_current_head r) "current_published_generation" []))))).

Definition catalog_disposition (reach : ReachabilityResult) (r : CatalogRow) : Disposition * list pystr :=
  let g := c_generation r in
  let rs := catalog_reasons (ancestors reach) r in
  if any_of rs ["current_published_generation"; "previous_published_generation"; "builder_liveness_unverifiable";
                "uncertain_organization_action"]%string then (Protected, rs)
  else if negb (walk_complete reach) then blocked_for "bounded_reachability_incomplete" rs
  else if c_incoming_base r then (Blocked, rs)
  else if _status_is_partial_or_recovery casefold (cg_status g) then blocked_for "partial_or_recovery_state" rs
  else if bool_decide (cg_status g ∉ py <$> ["published"; "failed"; "cancelled"; "superseded"; "abandoned"]%string)
  then blocked_for "unexpected_generation_status" rs
  else by_age p now (cg_completed g) rs.

Definition catalog_item (reach : ReachabilityResult) (r : CatalogRow) : RetentionItem :=
  let g := c_generation r in
  let '(d, rs) := catalog_disposition reach r in
  {| key := cg_id g; entity := py "catalog_generation"; scope := cg_source g; recorded_status := cg_status g;
     disposition := d; reasons := rs; estimated_rows := c_rows r; estimated_bytes := c_bytes r |}.

(** [_plan_catalog] *)
Definition _plan_catalog (s : StoreSnapshot CatalogTables) (after_ : Z) :
    result retention_error RetentionStorePlan :=
  t ← or_raise (connection s) RetentionAssertionError;
  reach ← _bounded_parent_reachability
            ((λ g, (cg_id g, cg_base g, bool_decide (cg_status g = py "building"))) <$> catalog_generations t)
            1 MAX_REACHABILITY_NODES false;
  let rows := keyset cg_id (catalog_generations t) after_ (batch_size p + 1) in
  Ok (store_plan Catalog s (walk_complete reach) after_
        (_page_result rows (batch_size p) (λ g, catalog_item reach (catalog_row t g)))
        (if walk_complete reach then None else Some (py "bounded catalog generation reachability is incomplete"))).
End catalog.

(** ** The framework's runs *)

Record FrameworkRun : Type := {
  run_id : Z; run_root : pystr; run_status : pystr; run_completed : option Z; run_source : option Z;
  run_scan : option Z; run_bytes : Z
}.
(** A row of [file_actions], [route_runs] or [route_phase_runs]: its run and status. *)
Record RunRow : Type := { rr_run : Z; rr_status : pystr; rr_bytes : Z }.

Record FrameworkTables : Type := {
  runs : list FrameworkRun;
  file_actions : list RunRow;
  route_runs : list RunRow;
  route_phase_runs : list RunRow;
  findings : list (option Z * option Z);
  run_events : list OwnedRow;
  run_actions : list OwnedRow;
  route_candidates : list OwnedRow
}.

Record FrameworkRow : Type := {
  f_run : FrameworkRun;
  f_latest_two : bool;
  f_last_completed : bool;
  f_source_reference : bool;
  f_uncertain_action : bool;
  f_action_evidence : bool;
  f_live_route : bool;
  f_live_phase : bool;
  f_finding_reference : bool;
  f_rows : Z;
  f_bytes : Z
}.

Definition incomplete_status (s : pystr) : bool :=
  bool_decide (s ∈ py <$> ["running"; "partial"; "recovery"; "recovering"; "recovery_required"]%string).

Definition framework_row (t : FrameworkTables) (r : FrameworkRun) : FrameworkRow :=
  let n := run_id r in
  {| f_run := r;
     f_latest_two := count_in (λ newer, bool_decide (run_root newer = run_root r) && (n <? run_id newer)) (runs t) <? 2;
     f_last_completed := bool_decide (run_status r = py "completed") &&
       negb (exists_in (λ c, bool_decide (run_root c = run_root r) && bool_decide (run_status c = py "completed") &&
                             (n <? run_id c)) (runs t));
     f_source_reference := exists_in (λ child, column_is (run_source child) n) (runs t);
     f_uncertain_action := exists_in (λ a, (rr_run a =? n) &&
         bool_decide (rr_status a ∈ py <$> ["started"; "applying"; "recovery_required"]%string)) (file_actions t);
     f_action_evidence := exists_in (λ a, rr_run a =? n) (file_actions t);
     f_live_route := exists_in (λ x, (rr_run x =? n) && incomplete_status (rr_status x)) (route_runs t);
     f_live_phase := exists_in (λ x, (rr_run x =? n) && incomplete_status (rr_status x)) (route_phase_runs t);
     f_finding_reference := exists_in (λ f, column_is f.1 n || column_is f.2 n) (findings t);
     f_rows := 1 + count_in (owned_by n) (run_events t) + count_in (λ x, rr_run x =? n) (route_runs t) +
         count_in (λ x, rr_run x =? n) (route_phase_runs t) + count_in (owned_by n) (run_actions t) +
         count_in (owned_by n) (route_candidates t);
     f_bytes := run_bytes r + bytes_in (owned_by n) o_bytes (run_events t) +
         bytes_in (λ x, rr_run x =? n) rr_bytes (route_runs t) +
         bytes_in (λ x, rr_run x =? n) rr_bytes (route_phase_runs t) +
         bytes_in (owned_by n) o_bytes (route_candidates t) |}.

(** The references from another store to the ids of a page, and whether they could
    not be verified; [column] is the referring column of that store. *)
Definition referenced {A} (other : option (StoreSnapshot A)) (column : A → list (option Z)) (ids : list Z) :
    gset Z * bool :=
  match other with
  | None => (∅, false)
  | Some s =>
      if bool_decide (snapshot_status s = StoreAbsent) then (∅, false)
      else match connection s with
           | Some t => if bool_decide (snapshot_status s = StoreReady)
                       then (list_to_set (filter (λ n, n ∈ ids) (omap id (column t))), false)
                       else (∅, true)
           | None => (∅, true)
           end
  end.

(** [_referenced_framework_runs] *)
Definition _referenced_framework_runs (catalog : option (StoreSnapshot CatalogTables)) (run_ids : list Z) :
    gset Z * bool := referenced catalog catalog_framework_runs run_ids.

Section framework.
Variables (casefold : pystr → pystr) (p : RetentionPolicy) (now : Z).

Definition framework_reasons (found references : gset Z) (r : FrameworkRow) : list pystr :=
  let n := run_id (f_run r) in
  note (f_live_phase r) "live_or_incomplete_phase"
    (note (f_live_route r) "live_or_incomplete_route"
    (note_once (bool_decide (n ∈ found)) "referenced_as_source_run"
    (note (f_source_reference r) "referenced_as_source_run"
    (note (bool_decide (n ∈ references)) "referenced_by_catalog_run"
    (note (f_finding_reference r) "human_evidence_provenance"
    (note (f_action_evidence r) "file_action_audit_evidence"
    (note (f_uncertain_action r) "uncertain_file_action"
    (note (bool_decide (run_status (f_run r) = py "running")) "active_framework_run"
    (note (f_last_completed r) "last_completed_run"
    (note (f_latest_two r) "latest_and_previous_run" [])))))))))).

Definition framework_disposition (reach : ReachabilityResult) (references : gset Z) (unverified : bool)
    (r : FrameworkRow) : Disposition * list pystr :=
  let run := f_run r in
  let rs := framework_reasons (ancestors reach) references r in
  if any_of rs ["latest_and_previous_run"; "last_completed_run"; "active_framework_run"; "uncertain_file_action";
                "file_action_audit_evidence"; "human_evidence_provenance"; "referenced_by_catalog_run";
                "live_or_incomplete_route"; "live_or_incomplete_phase"]%string then (Protected, rs)
  else if negb (walk_complete reach) then blocked_for "bounded_reachability_incomplete" rs
  else if f_source_reference r then (Blocked, rs)
  else if _status_is_partial_or_recovery casefold (run_status run) then blocked_for "partial_or_recovery_state" rs
  else if unverified then blocked_for "catalog_dependency_unverified" rs
  else match run_completed run with
       | None => blocked_for "run_completion_unverified" rs
       | Some _ => by_age p now (run_completed run) rs
       end.

Definition framework_item (reach : ReachabilityResult) (references : gset Z) (unverified : bool)
    (r : FrameworkRow) : RetentionItem :=
  let run := f_run r in
  let '(d, rs) := framework_disposition reach references unverified r in
  {| key := run_id run; entity := py "framework_run"; scope := run_root run; recorded_status := run_status run;
     disposition := d; reasons := rs; estimated_rows := f_rows r; estimated_bytes := f_bytes r |}.

(** [_plan_framework] *)
Definition _plan_framework (s : StoreSnapshot FrameworkTables) (catalog : option (StoreSnapshot CatalogTables))
    (after_ : Z) : result retention_error RetentionStorePlan :=
  t ← or_raise (connection s) RetentionAssertionError;
  reach ← _bounded_parent_reachability ((λ r, (run_id r, run_source r, bool_decide (is_Some (run_source r)))) <$> runs t)
            MAX_REACHABILITY_DEPTH MAX_REACHABILITY_NODES true;
  let rows := keyset run_id (runs t) after_ (batch_size p + 1) in
  let '(references, unverified) :=
    _referenced_framework_runs catalog (run_id <$> take (Z.to_nat (batch_size p)) rows) in
  Ok (store_plan Framework s (negb (unverified || negb (walk_complete reach))) after_
        (_page_result rows (batch_size p) (λ r, framework_item reach references unverified (framework_row t r)))
        (if negb (walk_complete reach) then Some (py "bounded framework source reachability is incomplete")
         else if unverified then Some (py "catalog retention dependency could not be validated") else None)).
End framework.

(** ** The inventory *)

Record ScanRow : Type := {
  sc_id : Z; sc_root : pystr; sc_status : pystr; sc_completed : option Z; sc_bytes : Z
}.
Record Checkpoint : Type := { cp_scan : Z; cp_root : pystr; cp_valid : bool }.
Record DuplicateGroup : Type := { dg_id : Z; dg_scan : Z; dg_bytes : Z }.

Record InventoryTables : Type := {
  scans : list ScanRow;
  checkpoints : list Checkpoint;
  successors : list (Z * option Z);
  files : list OwnedRow;
  duplicate_summaries : list OwnedRow;
  duplicate_groups : list DuplicateGroup;
  duplicate_members : list OwnedRow
}.

Record InventoryRow : Type := {
  i_scan : ScanRow;
  i_current_head : bool;
  i_previous_head : bool;
  i_checkpoint_reference : bool;
  i_publication_candidate : bool;
  i_latest_without_head : bool;
  i_rows : Z;
  i_bytes : Z
}.

Definition complete_scan (s : ScanRow) : bool := bool_decide (sc_status s = py "complete").

(** The members of the groups of a scan. *)
Definition members_of (t : InventoryTables) (n : Z) : list OwnedRow :=
  duplicate_members t ≫= λ m, (λ _, m) <$> filter (λ g, (dg_scan g =? n) && (o_owner m =? dg_id g) = true) (duplicate_groups t).

Definition inventory_row (t : InventoryTables) (s : ScanRow) : InventoryRow :=
  let n := sc_id s in
  {| i_scan := s;
     i_current_head := exists_in (λ c, (cp_scan c =? n) && cp_valid c) (checkpoints t);
     i_previous_head := exists_in (λ c, bool_decide (cp_root c = sc_root s) && cp_valid c &&
         bool_decide (Some n = max_id sc_id (λ previous, bool_decide (sc_root previous = sc_root s) &&
           complete_scan previous && (sc_id previous <? cp_scan c)) (scans t))) (checkpoints t);
     i_checkpoint_reference := exists_in (λ c, cp_scan c =? n) (checkpoints t);
     i_publication_candidate := exists_in (λ c, bool_decide (cp_root c = sc_root s) && cp_valid c &&
         complete_scan s && (cp_scan c <? n)) (checkpoints t);
     i_latest_without_head := complete_scan s &&
         (count_in (λ newer, bool_decide (sc_root newer = sc_root s) && complete_scan newer && (n <? sc_id newer))
            (scans t) <? 2);
     i_rows := 1 + count_in (owned_by n) (files t) + count_in (owned_by n) (duplicate_summaries t) +
         count_in (λ g, dg_scan g =? n) (duplicate_groups t) + zlen (members_of t n);
     i_bytes := sc_bytes s + bytes_in (owned_by n) o_bytes (files t) +
         bytes_in (λ g, dg_scan g =? n) dg_bytes (duplicate_groups t) + sum_with o_bytes (members_of t n) |}.

(** [_referenced_inventory_scans] *)
Definition _referenced_inventory_scans (framework : option (StoreSnapshot FrameworkTables)) (scan_ids : list Z) :
    gset Z * bool := referenced framework (λ t, run_scan <$> runs t) scan_ids.

Section inventory.
Variables (p : RetentionPolicy) (now : Z).

Definition inventory_reasons (found references : gset Z) (r : InventoryRow) : list pystr :=
  let n := sc_id (i_scan r) in
  note (negb (i_current_head r) && negb (i_previous_head r) && negb (i_checkpoint_reference r) &&
        negb (i_publication_candidate r) && i_latest_without_head r) "latest_complete_without_published_head"
    (note (bool_decide (n ∈ found)) "referenced_by_inventory_successor"
    (note (bool_decide (n ∈ references)) "referenced_by_framework_run"
    (note (bool_decide (sc_status (i_scan r) = py "building")) "active_inventory_builder"
    (note (i_publication_candidate r) "complete_publication_candidate"
    (note (i_checkpoint_reference r) "checkpoint_reference"
    (note (i_previous_head r) "previous_published_inventory"
    (note (i_current_head r) "current_published_inventory" []))))))).

Definition inventory_disposition (reach : ReachabilityResult) (references : gset Z) (unverified : bool)
    (r : InventoryRow) : Disposition * list pystr :=
  let s := i_scan r in
  let rs := inventory_reasons (ancestors reach) references r in
  if negb (bool_decide (rs = [])) then (Protected, rs)
  else if negb (walk_complete reach) then blocked_for "bounded_reachability_incomplete" rs
  else if unverified then blocked_for "framework_dependency_unverified" rs
  else if bool_decide (sc_status s ∉ py <$> ["complete"; "partial"]%string)
  then blocked_for "unexpected_scan_status" rs
  else by_age p now (sc_completed s) rs.

Definition inventory_item (reach : ReachabilityResult) (references : gset Z) (unverified : bool)
    (r : InventoryRow) : RetentionItem :=
  let s := i_scan r in
  let '(d, rs) := inventory_disposition reach references unverified r in
  {| key := sc_id s; entity := py "inventory_scan"; scope := sc_root s; recorded_status := sc_status s;
     disposition := d; reasons := rs; estimated_rows := i_rows r; estimated_bytes := i_bytes r |}.

(** [_plan_inventory] *)
Definition _plan_inventory (s : StoreSnapshot InventoryTables) (framework : option (StoreSnapshot FrameworkTables))
    (after_ : Z) : result retention_error RetentionStorePlan :=
  t ← or_raise (connection s) RetentionAssertionError;
  reach ← _bounded_inventory_reachability (successors t) (sc_id <$> scans t)
            MAX_REACHABILITY_DEPTH MAX_REACHABILITY_NODES;
  let rows := keyset sc_id (scans t) after_ (batch_size p + 1) in
  let '(references, unverified) :=
    _referenced_inventory_scans framework (sc_id <$> take (Z.to_nat (batch_size p)) rows) in
  Ok (store_plan Inventory s (negb (unverified || negb (walk_complete reach))) after_
        (_page_result rows (batch_size p) (λ r, inventory_item reach references unverified (inventory_row t r)))
        (if negb (walk_complete reach) then Some (py "bounded inventory scan reachability is incomplete")
         else if unverified then Some (py "framework retention dependency could not be validated") else None)).
End inventory.
