(* ===== verification/RetentionRun.v ===== *)
(** * A run of the retention planner (workflow/retention/planner.py)

    The request, the shared budget of time and cancellation, the dispatch to the plan
    of each store and what becomes of a query that fails.  The callback, the clock and
    the failures of queries are given by where they happen. *)

From S2P Require Import Prelude PyOrder RetentionGraph RetentionStores RetentionOwners.

#[global] Open Scope Z_scope.

Definition store_name (s : RetentionStore) : pystr :=
  py match s with Semantic => "semantic" | Catalog => "catalog" | Inventory => "inventory"
     | Framework => "framework" end.

(** ** The request *)

(** [sorted(set(a) - set(STORE_ORDER))] *)
Definition unknown_names (names : list pystr) : list pystr :=
  sort_by cmp_str id (remove_dups (filter (λ n, n ∉ store_name <$> STORE_ORDER) names)).

(** [_selected_stores] *)
Definition _selected_stores (requested : option (list pystr)) : result retention_error (list RetentionStore) :=
  match requested with
  | None => Ok STORE_ORDER
  | Some names =>
      match unknown_names names with
      | n :: _ => Err (RetentionValueError (py "unknown retention store: " ++ n))
      | [] =>
          raise_if (negb (length (remove_dups names) =? length names)%nat)
            (retention_value "retention stores must be unique");;
          raise_if (bool_decide (names = [])) (retention_value "at least one retention store is required");;
          Ok (filter (λ s, store_name s ∈ names) STORE_ORDER)
      end
  end.

(** [_retention_request]; the policy is one that was constructed. *)
Definition _retention_request (cursors : list (pystr * Z)) (requested : option (list pystr)) (now : Z) :
    result retention_error (list RetentionStore) :=
  selected ← _selected_stores requested;
  match unknown_names cursors.*1 with
  | n :: _ => Err (RetentionValueError (py "unknown retention cursor: " ++ n))
  | [] =>
      raise_if (existsb (λ c : pystr * Z, c.2 <? 0) cursors)
        (retention_value "retention cursors must be non-negative integers");;
      raise_if (now <? 0) (retention_value "now_ns must be a non-negative integer");;
      Ok selected
  end.

(** [_required_retention_stores] *)
Definition _required_retention_stores (selected : list RetentionStore) : list RetentionStore :=
  selected ++ (if bool_decide (Inventory ∈ selected) then [Framework] else []) ++
  (if bool_decide (Framework ∈ selected) then [Catalog] else []).

(** ** The budget *)

Inductive retention_site : Type :=
| BeforeSnapshots | BeforeStore (s : RetentionStore) | AtCheckpoint (s : RetentionStore)
| AfterError (s : RetentionStore) | AtPlanEnd.

(** A query that fails: the message, and what the progress handler saw before. *)
Record QueryFailure : Type := { failure_message : pystr; saw_cancellation : bool; saw_deadline : bool }.

Record RetentionRuntime : Type := {
  cancelled_at : option (retention_site → bool);
  deadline_passed : retention_site → bool;
  query_failure : RetentionStore → option QueryFailure
}.

(** The flags of [_RetentionInspectionBudget]. *)
Record InspectionBudget : Type := { exhausted : bool; cancelled : bool }.

Section run.
Variables (rt : RetentionRuntime).

Definition is_cancelled (site : retention_site) : bool :=
  match cancelled_at rt with Some f => f site | None => false end.

(** [_check_cancelled] *)
Definition _check_cancelled (site : retention_site) : result retention_error unit :=
  raise_if (is_cancelled site) RetentionPlanningCancelled.

(** [_RetentionInspectionBudget.progress] *)
Definition progress (site : retention_site) (b : InspectionBudget) : bool * InspectionBudget :=
  if is_cancelled site then (true, {| exhausted := exhausted b; cancelled := true |})
  else if deadline_passed rt site then (true, {| exhausted := true; cancelled := cancelled b |})
  else (false, b).

(** ** The stores *)

Record Snapshots : Type := {
  semantic_snapshot : StoreSnapshot SemanticTables;
  catalog_snapshot : StoreSnapshot CatalogTables;
  inventory_snapshot : StoreSnapshot InventoryTables;
  framework_snapshot : StoreSnapshot FrameworkTables
}.

Variables (casefold : pystr → pystr) (p : RetentionPolicy) (now : Z) (ss : Snapshots)
  (required : list RetentionStore).

(** [snapshots.get(store)] *)
Definition opened_snapshot {A} (store : RetentionStore) (s : StoreSnapshot A) : option (StoreSnapshot A) :=
  if bool_decide (store ∈ required) then Some s else None.

Definition empty_plan (store : RetentionStore) (after_ : Z) : RetentionStorePlan :=
  match store with
  | Semantic => _empty_store_plan store (semantic_snapshot ss) after_
  | Catalog => _empty_store_plan store (catalog_snapshot ss) after_
  | Inventory => _empty_store_plan store (inventory_snapshot ss) after_
  | Framework => _empty_store_plan store (framework_snapshot ss) after_
  end.

Definition snapshot_ready (store : RetentionStore) : bool :=
  bool_decide (match store with
               | Semantic => snapshot_status (semantic_snapshot ss)
               | Catalog => snapshot_status (catalog_snapshot ss)
               | Inventory => snapshot_status (inventory_snapshot ss)
               | Framework => snapshot_status (framework_snapshot ss)
               end = StoreReady).

Definition snapshot_storage (store : RetentionStore) : option (Z * Z * Z) :=
  match store with
  | Semantic => storage (semantic_snapshot ss)
  | Catalog => storage (catalog_snapshot ss)
  | Inventory => storage (inventory_snapshot ss)
  | Framework => storage (framework_snapshot ss)
  end.

(** [_plan_retention_store] *)
Definition _plan_retention_store (store : RetentionStore) (after_ : Z) :
    result retention_error RetentionStorePlan :=
  if negb (snapshot_ready store) then Ok (empty_plan store after_)
  else match store with
       | Semantic => _plan_semantic casefold p now (semantic_snapshot ss) after_
       | Catalog => _plan_catalog casefold p now (catalog_snapshot ss) after_
       | Inventory => _plan_inventory p now (inventory_snapshot ss)
                        (opened_snapshot Framework (framework_snapshot ss)) after_
       | Framework => _plan_framework casefold p now (framework_snapshot ss)
                        (opened_snapshot Catalog (catalog_snapshot ss)) after_
       end.

(** [replace(_empty_store_plan(...), status='blocked', detail=...)] *)
Definition out_of_budget (store : RetentionStore) (after_ : Z) : RetentionStorePlan :=
  let q := empty_plan store after_ in
  {| plan_store := plan_store q; plan_status := StoreBlocked; plan_schema_version := plan_schema_version q;
     plan_sizes := plan_sizes q; items := items q; holds := holds q; after := after q; next_after := next_after q;
     truncated := truncated q;
     detail := Some (py "eligibility unknown: retention inspection SQL time budget exhausted");
     plan_storage := plan_storage q |}.

(** [needle in text] *)
Fixpoint text_contains (needle text : pystr) : bool :=
  starts_with needle text || match text with [] => false | _ :: text' => text_contains needle text' end.

(** [_plan_retention_store_with_cancellation] *)
Definition _plan_retention_store_with_cancellation (store : RetentionStore) (after_ : Z) (b : InspectionBudget) :
    result retention_error (RetentionStorePlan * InspectionBudget) :=
  let '(stop, b) := progress (AtCheckpoint store) b in
  if stop then if cancelled b then Err RetentionPlanningCancelled else Ok (out_of_budget store after_, b)
  else
    match (if snapshot_ready store then query_failure rt store else None) with
    | None => plan ← _plan_retention_store store after_; Ok (plan, b)
    | Some f =>
        let b := {| exhausted := exhausted b || saw_deadline f; cancelled := cancelled b || saw_cancellation f |} in
        if cancelled b then Err RetentionPlanningCancelled
        else if exhausted b then Ok (out_of_budget store after_, b)
        else if is_cancelled (AfterError store) &&
                text_contains (py "interrupt") (ascii_lower <$> failure_message f)
        then Err RetentionPlanningCancelled
        else Err (RetentionOperationalError (failure_message f))
    end.

(** [replace(plan, storage=...)] *)
Definition with_storage (q : RetentionStorePlan) (s : option (Z * Z * Z)) : RetentionStorePlan :=
  {| plan_store := plan_store q; plan_status := plan_status q; plan_schema_version := plan_schema_version q;
     plan_sizes := plan_sizes q; items := items q; holds := holds q; after := after q; next_after := next_after q;
     truncated := truncated q; detail := detail q; plan_storage := s |}.

(** [_plan_selected_retention_stores] *)
Fixpoint _plan_selected_retention_stores (selected : list RetentionStore) (cursors : list (pystr * Z))
    (b : InspectionBudget) : result retention_error (list RetentionStorePlan) :=
  match selected with
  | [] => Ok []
  | store :: selected' =>
      _check_cancelled (BeforeStore store);;
      '(plan, b) ← _plan_retention_store_with_cancellation store (default 0 (dget (store_name store) cursors)) b;
      plans ← _plan_selected_retention_stores selected' cursors b;
      Ok (with_storage plan (snapshot_storage store) :: plans)
  end.
End run.

(** [plan_retention]; [opened] is how the opening of the snapshots ends, with the
    flags of the budget. *)
Definition plan_retention (rt : RetentionRuntime) (casefold : pystr → pystr) (p : RetentionPolicy)
    (cursors : list (pystr * Z)) (requested : option (list pystr)) (now : Z)
    (opened : result retention_error (Snapshots * InspectionBudget)) : result retention_error RetentionPlan :=
  selected ← _retention_request cursors requested now;
  _check_cancelled rt BeforeSnapshots;;
  '(ss, b) ← opened;
  plans ← _plan_selected_retention_stores rt casefold p now ss (_required_retention_stores selected) selected cursors b;
  _check_cancelled rt AtPlanEnd;;
  Ok {| now_ns := now; policy := p; stores := plans |}.
