(* ===== verification/RetentionLaws.v ===== *)
(** * The laws of the retention plans

    What an eligible row is not, the totals of a plan, and the pages of a store. *)

From S2P Require Import Prelude PyOrder RetentionGraph RetentionStores RetentionOwners RetentionRun.

#[global] Open Scope Z_scope.

(** ** Reasons *)

Lemma note_keeps b reason rs x : x ∉ note b reason rs → x ∉ rs.
Proof. unfold note. destruct b; set_solver. Qed.

Lemma note_once_keeps b reason rs x : x ∉ note_once b reason rs → x ∉ rs.
Proof. unfold note_once. destruct (_ && _); set_solver. Qed.

Lemma note_unset b reason rs : py reason ∉ note b reason rs → b = false.
Proof. unfold note. destruct b; [|done]. set_solver. Qed.

Lemma any_of_none rs names : any_of rs names = false → ∀ n, n ∈ names → py n ∉ rs.
Proof.
  unfold any_of. induction names as [|m names IH]; intros H n; cbn in H; bool_prop; [set_solver|].
  intros [->|Hn]%elem_of_cons; [done|]. by apply IH.
Qed.

(** Goes down a chain of notes: the flags of the reasons that are not there. *)
Ltac unnoted H :=
  lazymatch type of H with
  | py ?n ∉ note ?b ?n ?rs => apply note_unset in H
  | _ ∉ note _ _ _ => apply note_keeps in H; unnoted H
  | _ ∉ note_once _ _ _ => apply note_once_keeps in H; unnoted H
  | _ => idtac
  end.

(** Old enough under a policy that has an age. *)
Definition aged (p : RetentionPolicy) (now : Z) (completed : option Z) : Prop :=
  ∃ minimum c, minimum_age_ns p = Some minimum ∧ completed = Some c ∧ c <= now ∧ minimum <= now - c.

Lemma by_age_eligible p now completed rs : (by_age p now completed rs).1 = Eligible → aged p now completed.
Proof.
  unfold by_age, _age_disposition, aged. destruct (minimum_age_ns p) as [m|], completed as [c|]; cbn; try done.
  destruct (_ || _) eqn:Hb; cbn; [done|]. intros _. bool_prop. by exists m, c.
Qed.

Lemma blocked_not_eligible reason rs : (blocked_for reason rs).1 ≠ Eligible.
Proof. done. Qed.

(** Takes the tests of a disposition apart. *)
Ltac eligible_cases :=
  repeat match goal with
  | |- (if ?b then (Protected, _) else _).1 = Eligible → _ => destruct b eqn:?; [done|]
  | |- (if ?b then (Blocked, _) else _).1 = Eligible → _ => destruct b eqn:?; [done|]
  | |- (if ?b then blocked_for _ _ else _).1 = Eligible → _ => destruct b eqn:?; [done|]
  end.

(** ** Eligible rows *)

Lemma semantic_eligible casefold p now reach r :
  (semantic_disposition casefold p now reach r).1 = Eligible →
  s_current_head r = false ∧ s_previous_head r = false ∧ s_live_lease r = false ∧
  s_incoming_base r = false ∧ s_evidence_reference r = false ∧ s_lineage_reference r = false ∧
  walk_complete reach = true ∧ g_status (s_generation r) ∈ py <$> ["ready"; "ready_partial"; "failed"]%string ∧
  aged p now (g_completed (s_generation r)).
Proof.
  unfold semantic_disposition. eligible_cases. intros Ha%by_age_eligible. bool_prop.
  rename select (any_of _ _ = false) into Hn. pose proof (any_of_none _ _ Hn) as H.
  pose proof (H "current_published_generation"%string ltac:(set_solver)) as H1.
  pose proof (H "previous_published_generation"%string ltac:(set_solver)) as H2.
  pose proof (H "live_worker_lease"%string ltac:(set_solver)) as H3.
  clear H Hn. unfold semantic_reasons in *. unnoted H1. unnoted H2. unnoted H3.
  split_and!; try done. by apply dec_stable.
Qed.

Lemma catalog_eligible casefold p now reach r :
  (catalog_disposition casefold p now reach r).1 = Eligible →
  c_current_head r = false ∧ c_previous_head r = false ∧ c_uncertain_action r = false ∧
  c_incoming_base r = false ∧ walk_complete reach = true ∧
  cg_status (c_generation r) ∈ py <$> ["published"; "failed"; "cancelled"; "superseded"; "abandoned"]%string ∧
  aged p now (cg_completed (c_generation r)).
Proof.
  unfold catalog_disposition. eligible_cases. intros Ha%by_age_eligible. bool_prop.
  rename select (any_of _ _ = false) into Hn. pose proof (any_of_none _ _ Hn) as H.
  pose proof (H "current_published_generation"%string ltac:(set_solver)) as H1.
  pose proof (H "previous_published_generation"%string ltac:(set_solver)) as H2.
  pose proof (H "uncertain_organization_action"%string ltac:(set_solver)) as H3.
  clear H Hn. unfold catalog_reasons in *. unnoted H1. unnoted H2. unnoted H3.
  split_and!; try done. by apply dec_stable.
Qed.

Lemma framework_eligible casefold p now reach references unverified r :
  (framework_disposition casefold p now reach references unverified r).1 = Eligible →
  f_latest_two r = false ∧ f_last_completed r = false ∧ run_status (f_run r) ≠ py "running" ∧
  f_action_evidence r = false ∧ f_finding_reference r = false ∧ run_id (f_run r) ∉ references ∧
  f_source_reference r = false ∧ f_live_route r = false ∧ f_live_phase r = false ∧
  walk_complete reach = true ∧ unverified = false ∧ aged p now (run_completed (f_run r)).
Proof.
  unfold framework_disposition. eligible_cases.
  destruct (run_completed (f_run r)) as [c|] eqn:Hc; [|done]. rewrite <- Hc at 1. intros Ha%by_age_eligible.
  rewrite Hc in Ha. bool_prop.
  rename select (any_of _ _ = false) into Hn. pose proof (any_of_none _ _ Hn) as H.
  pose proof (H "latest_and_previous_run"%string ltac:(set_solver)) as H1.
  pose proof (H "last_completed_run"%string ltac:(set_solver)) as H2.
  pose proof (H "active_framework_run"%string ltac:(set_solver)) as H3.
  pose proof (H "file_action_audit_evidence"%string ltac:(set_solver)) as H4.
  pose proof (H "human_evidence_provenance"%string ltac:(set_solver)) as H5.
  pose proof (H "referenced_by_catalog_run"%string ltac:(set_solver)) as H6.
  pose proof (H "live_or_incomplete_route"%string ltac:(set_solver)) as H7.
  pose proof (H "live_or_incomplete_phase"%string ltac:(set_solver)) as H8.
  clear H Hn. unfold framework_reasons in *.
  unnoted H1. unnoted H2. unnoted H3. unnoted H4. unnoted H5. unnoted H6. unnoted H7. unnoted H8.
  bool_prop. by split_and!.
Qed.

Lemma note_nil b reason rs : note b reason rs = [] → b = false ∧ rs = [].
Proof. unfold note. destruct b; [|done]. by intros [_ ?]%app_eq_nil. Qed.

Lemma inventory_eligible p now reach references unverified r :
  (inventory_disposition p now reach references unverified r).1 = Eligible →
  i_current_head r = false ∧ i_previous_head r = false ∧ i_checkpoint_reference r = false ∧
  i_publication_candidate r = false ∧ i_latest_without_head r = false ∧
  sc_id (i_scan r) ∉ references ∧ sc_id (i_scan r) ∉ ancestors reach ∧
  walk_complete reach = true ∧ unverified = false ∧
  sc_status (i_scan r) ∈ py <$> ["complete"; "partial"]%string ∧ aged p now (sc_completed (i_scan r)).
Proof.
  unfold inventory_disposition. eligible_cases. intros Ha%by_age_eligible. bool_prop.
  rename select (inventory_reasons _ _ _ = []) into Hn. unfold inventory_reasons in Hn.
  repeat match goal with H : note _ _ _ = [] |- _ => apply note_nil in H as [? H] end.
  bool_prop. repeat match goal with H : ?b = false, H' : context [negb ?b] |- _ => rewrite H in H' end.
  cbn [negb andb] in *. split_and!; try done. by apply dec_stable.
Qed.

(** ** Queries *)

Lemma exists_in_none {R} (q : R → bool) table : exists_in q table = false → Forall (λ r, q r = false) table.
Proof.
  unfold exists_in. intros H. apply Forall_forall. intros r Hr. apply not_true_iff_false. intros Hq.
  apply not_true_iff_false in H. apply H, existsb_exists. exists r. split; [by apply list_elem_of_In|done].
Qed.

(** From a query without a row to what no row satisfies. *)
Ltac no_row H := apply exists_in_none in H; rewrite Forall_forall in H.

Lemma column_is_not column n : column_is column n = false → column ≠ Some n.
Proof. unfold column_is. by intros ?%bool_decide_eq_false. Qed.

(** The greatest id. *)
Lemma max_of_greatest (ns : list Z) n : n ∈ ns → (∀ m, m ∈ ns → m <= n) →
  foldr (λ n m, Some (match m with Some k => Z.max n k | None => n end)) None ns = Some n.
Proof.
  intros Hn Hmax. assert (∀ ns' : list Z, (∀ m, m ∈ ns' → m <= n) →
    match foldr (λ n m, Some (match m with Some k => Z.max n k | None => n end)) None ns' with
    | Some k => k <= n ∧ (n ∈ ns' → k = n) | None => n ∉ ns' end) as Hall.
  { clear. induction ns' as [|x ns' IH]; intros H; cbn; [by intros ?%elem_of_nil|].
    specialize (IH ltac:(intros; apply H; by right)). pose proof (H x ltac:(by left)).
    destruct (foldr _ None ns') as [k|]; split; try lia.
    - destruct IH as [Hk Hin]. intros [->|Hx]%elem_of_cons; [lia|]. specialize (Hin Hx). lia.
    - intros [->|Hx]%elem_of_cons; done. }
  specialize (Hall ns Hmax). destruct (foldr _ None ns); [|done]. f_equal. by apply Hall.
Qed.

Lemma max_id_spec {R} (id_of : R → Z) (q : R → bool) table r :
  r ∈ table → q r = true → (∀ r', r' ∈ table → q r' = true → id_of r' <= id_of r) →
  max_id id_of q table = Some (id_of r).
Proof.
  intros Hr Hq Hmax. apply max_of_greatest.
  - apply list_elem_of_fmap_2. by apply list_elem_of_filter.
  - intros m (r' & -> & [Hq' Hr']%list_elem_of_filter)%list_elem_of_fmap. by apply Hmax.
Qed.

Lemma page_item {R} (id_of : R → Z) table after_ limit batch (build : R → RetentionItem) i :
  i ∈ (_page_result (keyset id_of table after_ limit) batch build).1.1 →
  ∃ r, r ∈ table ∧ r ∈ take (Z.to_nat batch) (keyset id_of table after_ limit) ∧ i = build r.
Proof.
  cbn. intros (r & -> & Hr)%list_elem_of_fmap. exists r. split_and!; [|done..].
  apply (subseteq_take _ _ r) in Hr. unfold keyset in Hr. apply (subseteq_take _ _ r) in Hr.
  rewrite sort_by_perm in Hr. by apply list_elem_of_filter in Hr as [_ ?].
Qed.

(** What is not referenced from the other store: it is absent, or its column has no
    reference. *)
Definition unreferenced {A} (s : StoreSnapshot A) (column : A → list (option Z)) (n : Z) : Prop :=
  snapshot_status s = StoreAbsent ∨
  snapshot_status s = StoreReady ∧ ∃ t, connection s = Some t ∧ Some n ∉ column t.

Lemma referenced_none {A} (s : StoreSnapshot A) column ids references n :
  referenced (Some s) column ids = (references, false) → n ∈ ids → n ∉ references → unreferenced s column n.
Proof.
  unfold referenced, unreferenced. intros H Hn Hr. case_bool_decide; [by left|]. destruct (connection s) as [t|]; [|done].
  case_bool_decide; [|done]. injection H as <-. right. split; [done|]. exists t. split; [done|]. intros Hin. apply Hr.
  apply elem_of_list_to_set, list_elem_of_filter. split; [done|]. apply list_elem_of_omap. by exists (Some n).
Qed.

(** ** Rows that may be proposed *)

(** The published generation before the one of a head. *)
Definition previous_generation (t : SemanticTables) (h : EmbeddingHead) (g : GenerationRow) : Prop :=
  let ready g' := g_model g' = eh_model h ∧ g_status g' = py "ready" ∧ g_id g' < eh_generation h in
  ready g ∧ ∀ g', g' ∈ generations t → ready g' → g_id g' <= g_id g.

Record SemanticReleasable (p : RetentionPolicy) (now : Z) (t : SemanticTables) (g : GenerationRow) : Prop := {
  sr_member : g ∈ generations t;
  sr_head : ∀ h, h ∈ embedding_heads t → eh_generation h ≠ g_id g;
  sr_previous : ∀ h, h ∈ embedding_heads t → ¬ previous_generation t h g;
  sr_lease : ∀ j until, j ∈ jobs t → j_generation j = g_id g → j_status j = py "leased" →
    j_lease_until j = Some until → until <= now;
  sr_base : ∀ child, child ∈ generations t → g_base child = Some (g_id g) → building_clone child = false;
  sr_evidence : Some (g_id g) ∉ evidence_generations t;
  sr_receipts : Some (g_id g) ∉ receipt_generations t;
  sr_status : g_status g ∈ py <$> ["ready"; "ready_partial"; "failed"]%string;
  sr_aged : aged p now (g_completed g)
}.

Definition previous_publication (t : CatalogTables) (h : CatalogPublication) (g : CatalogGeneration) : Prop :=
  let published g' := cg_source g' = cp_source h ∧ cg_status g' = py "published" ∧ cg_id g' < cp_generation h in
  published g ∧ ∀ g', g' ∈ catalog_generations t → published g' → cg_id g' <= cg_id g.

Record CatalogReleasable (p : RetentionPolicy) (now : Z) (t : CatalogTables) (g : CatalogGeneration) : Prop := {
  cr_member : g ∈ catalog_generations t;
  cr_head : ∀ h, h ∈ catalog_publications t → cp_generation h ≠ cg_id g;
  cr_previous : ∀ h, h ∈ catalog_publications t → ¬ previous_publication t h g;
  cr_base : ∀ child, child ∈ catalog_generations t → cg_base child = Some (cg_id g) → cg_status child ≠ py "building";
  cr_uncertain : ∀ o n, o ∈ organization_plans t → op_run o = Some n → cg_run g = Some n → uncertain_plan o = false;
  cr_status : cg_status g ∈ py <$> ["published"; "failed"; "cancelled"; "superseded"; "abandoned"]%string;
  cr_aged : aged p now (cg_completed g)
}.

Definition previous_scan (t : InventoryTables) (c : Checkpoint) (s : ScanRow) : Prop :=
  let complete_ s' := sc_root s' = cp_root c ∧ sc_status s' = py "complete" ∧ sc_id s' < cp_scan c in
  complete_ s ∧ ∀ s', s' ∈ scans t → complete_ s' → sc_id s' <= sc_id s.

Record InventoryReleasable (p : RetentionPolicy) (now : Z) (t : InventoryTables)
    (framework : StoreSnapshot FrameworkTables) (s : ScanRow) : Prop := {
  ir_member : s ∈ scans t;
  ir_checkpoint : ∀ c, c ∈ checkpoints t → cp_scan c ≠ sc_id s;
  ir_previous : ∀ c, c ∈ checkpoints t → cp_valid c = true → ¬ previous_scan t c s;
  ir_candidate : ∀ c, c ∈ checkpoints t → cp_valid c = true → cp_root c = sc_root s →
    sc_status s = py "complete" → sc_id s <= cp_scan c;
  ir_newer : sc_status s = py "complete" →
    2 <= count_in (λ newer, bool_decide (sc_root newer = sc_root s) && complete_scan newer &&
                            (sc_id s <? sc_id newer)) (scans t);
  ir_successor : ∀ n, (n, Some (sc_id s)) ∉ successors t;
  ir_framework : unreferenced framework (λ ft, run_scan <$> runs ft) (sc_id s);
  ir_status : sc_status s ∈ py <$> ["complete"; "partial"]%string;
  ir_aged : aged p now (sc_completed s)
}.

Record FrameworkReleasable (p : RetentionPolicy) (now : Z) (t : FrameworkTables)
    (catalog : StoreSnapshot CatalogTables) (r : FrameworkRun) : Prop := {
  fr_member : r ∈ runs t;
  fr_newer : 2 <= count_in (λ newer, bool_decide (run_root newer = run_root r) && (run_id r <? run_id newer)) (runs t);
  fr_completed : run_status r = py "completed" → ∃ newer, newer ∈ runs t ∧ run_root newer = run_root r ∧
    run_status newer = py "completed" ∧ run_id r < run_id newer;
  fr_running : run_status r ≠ py "running";
  fr_actions : ∀ a, a ∈ file_actions t → rr_run a ≠ run_id r;
  fr_findings : ∀ f, f ∈ findings t → f.1 ≠ Some (run_id r) ∧ f.2 ≠ Some (run_id r);
  fr_routes : ∀ x, x ∈ route_runs t ∨ x ∈ route_phase_runs t → rr_run x = run_id r → incomplete_status (rr_status x) = false;
  fr_source : ∀ child, child ∈ runs t → run_source child ≠ Some (run_id r);
  fr_catalog : unreferenced catalog catalog_framework_runs (run_id r);
  fr_aged : aged p now (run_completed r)
}.

Definition releasable (p : RetentionPolicy) (now : Z) (ss : Snapshots) (store : RetentionStore) (n : Z) : Prop :=
  match store with
  | Semantic => ∃ t g, connection (semantic_snapshot ss) = Some t ∧ g_id g = n ∧ SemanticReleasable p now t g
  | Catalog => ∃ t g, connection (catalog_snapshot ss) = Some t ∧ cg_id g = n ∧ CatalogReleasable p now t g
  | Inventory => ∃ t s, connection (inventory_snapshot ss) = Some t ∧ sc_id s = n ∧
                   InventoryReleasable p now t (framework_snapshot ss) s
  | Framework => ∃ t r, connection (framework_snapshot ss) = Some t ∧ run_id r = n ∧
                   FrameworkReleasable p now t (catalog_snapshot ss) r
  end.

(** ** The plans propose such rows only *)

Lemma semantic_releases casefold p now s after_ q i :
  _plan_semantic casefold p now s after_ = Ok q → i ∈ items q → disposition i = Eligible →
  ∃ t g, connection s = Some t ∧ g_id g = key i ∧ SemanticReleasable p now t g.
Proof.
  unfold _plan_semantic. intros H Hi He. inv_ok. rename x into t.
  cbn [items store_plan] in Hi. apply page_item in Hi as (g & Hg & _ & ->).
  exists t, g. split; [done|]. unfold semantic_item in *. destruct (semantic_disposition _ _ _ _ _) as [d rs] eqn:Hd.
  cbn in He |- *. subst d. split; [done|].
  assert ((semantic_disposition casefold p now x0 (semantic_row t now g)).1 = Eligible) as Hs by (by rewrite Hd).
  apply semantic_eligible in Hs as (H1 & H2 & H3 & H4 & H5 & H6 & _ & H8 & H9).
  cbn [s_current_head s_previous_head s_live_lease s_incoming_base s_evidence_reference s_lineage_reference
    s_generation semantic_row] in H1, H2, H3, H4, H5, H6, H8, H9.
  no_row H1. no_row H2. no_row H3. no_row H4. no_row H5. no_row H6. split; try done.
  - intros h Hh. specialize (H1 h Hh). by bool_prop.
  - intros h Hh ((Hm & Hst & Hlt) & Hmax). specialize (H2 h Hh). cbn in H2. apply andb_false_iff in H2 as [H2|H2]; bool_prop; [congruence|].
    apply H2. symmetry. apply max_id_spec; [done| |].
    + rewrite !andb_true_iff, !bool_decide_eq_true. split_and!; [done..|lia].
    + intros g' Hg' Hq. bool_prop. by apply Hmax.
  - intros j until Hj Hn Hst Hl. specialize (H3 j Hj). cbn in H3. rewrite Hl in H3. bool_prop.
    apply andb_false_iff in H3 as [H3|H3]; [apply andb_false_iff in H3 as [H3|H3]|]; bool_prop; (lia || congruence).
  - intros child Hc Hb. specialize (H4 child Hc). cbn in H4. unfold building_clone.
    rewrite <- andb_assoc in H4. apply andb_false_iff in H4 as [H4%column_is_not|H4]; [congruence|done].
  - intros Hin. specialize (H5 _ Hin). by apply column_is_not in H5.
  - intros Hin. specialize (H6 _ Hin). by apply column_is_not in H6.
Qed.

Lemma catalog_releases casefold p now s after_ q i :
  _plan_catalog casefold p now s after_ = Ok q → i ∈ items q → disposition i = Eligible →
  ∃ t g, connection s = Some t ∧ cg_id g = key i ∧ CatalogReleasable p now t g.
Proof.
  unfold _plan_catalog. intros H Hi He. inv_ok. rename x into t, x0 into reach.
  cbn [items store_plan] in Hi. apply page_item in Hi as (g & Hg & _ & ->).
  exists t, g. split; [done|]. unfold catalog_item in *. destruct (catalog_disposition _ _ _ _ _) as [d rs] eqn:Hd.
  cbn in He |- *. subst d. split; [done|].
  assert ((catalog_disposition casefold p now reach (catalog_row t g)).1 = Eligible) as Hs by (by rewrite Hd).
  apply catalog_eligible in Hs as (H1 & H2 & H3 & H4 & _ & H6 & H7).
  cbn [c_current_head c_previous_head c_uncertain_action c_incoming_base c_generation catalog_row] in H1, H2, H3, H4, H6, H7.
  no_row H1. no_row H2. no_row H3. no_row H4. split; try done.
  - intros h Hh. specialize (H1 h Hh). by bool_prop.
  - intros h Hh ((Hm & Hst & Hlt) & Hmax). specialize (H2 h Hh). cbn in H2.
    apply andb_false_iff in H2 as [H2|H2]; bool_prop; [congruence|].
    apply H2. symmetry. apply max_id_spec; [done| |].
    + rewrite !andb_true_iff, !bool_decide_eq_true. split_and!; [done..|lia].
    + intros g' Hg' Hq. bool_prop. by apply Hmax.
  - intros child Hc Hb Hst. specialize (H4 child Hc). apply andb_false_iff in H4 as [H4%column_is_not|H4]; [congruence|].
    by bool_prop.
  - intros o n Ho Hn Hr. specialize (H3 o Ho). rewrite Hn, Hr in H3. unfold column_is in H3.
    by rewrite bool_decide_eq_true_2 in H3.
Qed.

Lemma framework_releases casefold p now s catalog after_ q i :
  _plan_framework casefold p now s (Some catalog) after_ = Ok q → i ∈ items q → disposition i = Eligible →
  ∃ t r, connection s = Some t ∧ run_id r = key i ∧ FrameworkReleasable p now t catalog r.
Proof.
  unfold _plan_framework. intros H Hi He. inv_ok. rename x into t, x0 into reach.
  destruct (_referenced_framework_runs _ _) as [references unverified] eqn:Href. inv_ok.
  cbn [items store_plan] in Hi. apply page_item in Hi as (r & Hr & Htake & ->).
  exists t, r. split; [done|]. unfold framework_item in *. destruct (framework_disposition _ _ _ _ _ _ _) as [d rs] eqn:Hd.
  cbn in He |- *. subst d. split; [done|].
  assert ((framework_disposition casefold p now reach references unverified (framework_row t r)).1 = Eligible) as Hs
    by (by rewrite Hd).
  apply framework_eligible in Hs as (H1 & H2 & H3 & H4 & H5 & H6 & H7 & H8 & H9 & _ & -> & H12).
  cbn [f_latest_two f_last_completed f_run f_action_evidence f_finding_reference f_source_reference f_live_route
    f_live_phase framework_row] in H1, H2, H3, H4, H5, H6, H7, H8, H9, H12.
  no_row H4. no_row H5. no_row H7. no_row H8. no_row H9. split; try done.
  - by apply Z.ltb_ge in H1.
  - intros Hst. apply andb_false_iff in H2 as [H2|H2]; [by bool_prop|]. apply negb_false_iff, existsb_exists in H2.
    destruct H2 as (newer & Hin & Hq). apply list_elem_of_In in Hin. bool_prop. by exists newer.
  - intros a Ha. specialize (H4 a Ha). by bool_prop.
  - intros f Hf. specialize (H5 f Hf). apply orb_false_iff in H5 as [?%column_is_not ?%column_is_not]. done.
  - intros x [Hx|Hx] Hn; [specialize (H8 x Hx)|specialize (H9 x Hx)]; rewrite Hn, Z.eqb_refl in *; done.
  - intros child Hc. by apply column_is_not, H7.
  - eapply referenced_none; [exact Href| |done]. by apply list_elem_of_fmap_2.
Qed.

Lemma inventory_releases p now s framework after_ q i :
  _plan_inventory p now s (Some framework) after_ = Ok q → i ∈ items q → disposition i = Eligible →
  ∃ t r, connection s = Some t ∧ sc_id r = key i ∧ InventoryReleasable p now t framework r.
Proof.
  unfold _plan_inventory. intros H Hi He. inv_ok. rename x into t, x0 into reach.
  destruct (_referenced_inventory_scans _ _) as [references unverified] eqn:Href. inv_ok.
  cbn [items store_plan] in Hi. apply page_item in Hi as (r & Hr & Htake & ->).
  exists t, r. split; [done|]. unfold inventory_item in *. destruct (inventory_disposition _ _ _ _ _ _) as [d rs] eqn:Hd.
  cbn in He |- *. subst d. split; [done|].
  assert ((inventory_disposition p now reach references unverified (inventory_row t r)).1 = Eligible) as Hs
    by (by rewrite Hd).
  apply inventory_eligible in Hs as (H1 & H2 & H3 & H4 & H5 & H6 & H7 & Hc & -> & H10 & H11).
  cbn [i_current_head i_previous_head i_checkpoint_reference i_publication_candidate i_latest_without_head i_scan
    inventory_row] in H1, H2, H3, H4, H5, H6, H7, H10, H11.
  no_row H2. no_row H3. no_row H4. split; try done.
  - intros c Hin. specialize (H3 c Hin). by bool_prop.
  - intros c Hin Hv ((Hm & Hst & Hlt) & Hmax). specialize (H2 c Hin). rewrite Hv, andb_true_r in H2.
    apply andb_false_iff in H2 as [H2|H2]; bool_prop; [congruence|].
    apply H2. symmetry. apply max_id_spec; [done| |].
    + unfold complete_scan. rewrite !andb_true_iff, !bool_decide_eq_true. split_and!; [done..|lia].
    + intros s' Hs' Hq. unfold complete_scan in Hq. bool_prop. apply Hmax; [done|]. split_and!; [congruence|done|done].
  - intros c Hin Hv Hroot Hst. specialize (H4 c Hin). unfold complete_scan in H4.
    rewrite Hv, Hroot, Hst, !bool_decide_eq_true_2 in H4 by done. cbn in H4. by apply Z.ltb_ge in H4.
  - intros Hst. unfold complete_scan at 1 in H5. rewrite Hst, bool_decide_eq_true_2 in H5 by done. by apply Z.ltb_ge in H5.
  - intros n Hn. apply H7. eapply complete_walk in Hc as [Ha _]; [|eassumption]. apply Ha, first_level_suffices.
    apply list_elem_of_omap. by exists (n, Some (sc_id r)).
  - eapply referenced_none; [exact Href| |done]. by apply list_elem_of_fmap_2.
Qed.

(** ** The run *)

Lemma walk_bounds_ok rows depth b : 1 <= depth <= MAX_REACHABILITY_DEPTH →
  ∃ r, _bounded_parent_reachability rows depth MAX_REACHABILITY_NODES b = Ok r.
Proof.
  intros [H1 H2]. unfold _bounded_parent_reachability, bounded_reachability.
  destruct (Z.leb_spec 1 depth), (Z.leb_spec depth MAX_REACHABILITY_DEPTH); try lia. by eexists.
Qed.

Lemma inventory_walk_ok edges ids :
  ∃ r, _bounded_inventory_reachability edges ids MAX_REACHABILITY_DEPTH MAX_REACHABILITY_NODES = Ok r.
Proof. by eexists. Qed.

Lemma retention_store_releases casefold p now ss required store after_ q i :
  (store = Inventory → Framework ∈ required) → (store = Framework → Catalog ∈ required) →
  _plan_retention_store casefold p now ss required store after_ = Ok q →
  plan_store q = store ∧ (i ∈ items q → disposition i = Eligible → releasable p now ss store (key i)).
Proof.
  intros Hinv Hframe. unfold _plan_retention_store. destruct (negb _).
  { intros [= <-]. destruct store; (split; [done|by intros ?%elem_of_nil]). }
  destruct store; intros H.
  - split; [unfold _plan_semantic in H; by inv_ok|]. intros Hi He.
    destruct (semantic_releases _ _ _ _ _ _ _ H Hi He) as (t & g & Ht & Hk & Hr). by exists t, g.
  - split; [unfold _plan_catalog in H; by inv_ok|]. intros Hi He.
    destruct (catalog_releases _ _ _ _ _ _ _ H Hi He) as (t & g & Ht & Hk & Hr). by exists t, g.
  - unfold opened_snapshot in H. rewrite bool_decide_eq_true_2 in H by auto.
    split; [unfold _plan_inventory in H; inv_ok; by destruct (_referenced_inventory_scans _ _); inv_ok|]. intros Hi He.
    destruct (inventory_releases _ _ _ _ _ _ _ H Hi He) as (t & g & Ht & Hk & Hr). by exists t, g.
  - unfold opened_snapshot in H. rewrite bool_decide_eq_true_2 in H by auto.
    split; [unfold _plan_framework in H; inv_ok; by destruct (_referenced_framework_runs _ _); inv_ok|]. intros Hi He.
    destruct (framework_releases _ _ _ _ _ _ _ _ H Hi He) as (t & g & Ht & Hk & Hr). by exists t, g.
Qed.

Lemma out_of_budget_items ss store after_ : items (out_of_budget ss store after_) = [].
Proof. by destruct store. Qed.

Lemma cancellable_releases rt casefold p now ss required store after_ b q b' i :
  (store = Inventory → Framework ∈ required) → (store = Framework → Catalog ∈ required) →
  _plan_retention_store_with_cancellation rt casefold p now ss required store after_ b = Ok (q, b') →
  plan_store q = store ∧ (i ∈ items q → disposition i = Eligible → releasable p now ss store (key i)).
Proof.
  intros Hinv Hframe. unfold _plan_retention_store_with_cancellation. destruct (progress _ _ _) as [stop b1].
  assert (∀ q, out_of_budget ss store after_ = q →
    plan_store q = store ∧ (i ∈ items q → disposition i = Eligible → releasable p now ss store (key i))) as Hempty.
  { intros q' <-. rewrite out_of_budget_items. split; [by destruct store|by intros ?%elem_of_nil]. }
  destruct stop; [destruct (cancelled b1); intros H; inv_ok; by apply Hempty|].
  destruct (if snapshot_ready ss store then _ else _) as [f|].
  - cbn [cancelled exhausted]. destruct (_ || saw_cancellation f); [done|].
    destruct (exhausted b1 || saw_deadline f); intros H; [injection H as Hq _; by apply Hempty|by destruct (_ && _)].
  - intros H. inv_ok. by eapply retention_store_releases.
Qed.

(** The plans of a run are those of the selected stores, and propose what may be
    released. *)
Lemma selected_release rt casefold p now ss required cursors : ∀ selected b qs,
  (∀ s, s ∈ selected → (s = Inventory → Framework ∈ required) ∧ (s = Framework → Catalog ∈ required)) →
  _plan_selected_retention_stores rt casefold p now ss required selected cursors b = Ok qs →
  plan_store <$> qs = selected ∧
  ∀ q i, q ∈ qs → i ∈ items q → disposition i = Eligible → releasable p now ss (plan_store q) (key i).
Proof.
  induction selected as [|s selected IH]; intros b qs Hreq H; cbn in H; inv_ok.
  { split; [done|]. by intros q i ?%elem_of_nil. }
  destruct x0 as [q b']. inv_ok. rename select (_plan_selected_retention_stores _ _ _ _ _ _ _ _ _ = _) into Hrest.
  destruct (IH _ _ ltac:(intros; apply Hreq; by right) Hrest) as [Hstores Hsafe].
  destruct (Hreq s ltac:(by left)) as [Hi Hf].
  assert (∀ i, plan_store q = s ∧ (i ∈ items q → disposition i = Eligible → releasable p now ss s (key i))) as Hq
    by (intros i; by eapply cancellable_releases).
  split.
  - cbn. f_equal; [|done]. by apply (Hq {| key := 0; entity := []; scope := []; recorded_status := []; disposition := Blocked;
      reasons := []; estimated_rows := 0; estimated_bytes := 0 |}).
  - intros q' i [->|Hin]%elem_of_cons; [|by apply Hsafe]. cbn. destruct (Hq i) as [-> Hr]. exact Hr.
Qed.

Lemma required_stores selected s : s ∈ selected →
  (s = Inventory → Framework ∈ _required_retention_stores selected) ∧
  (s = Framework → Catalog ∈ _required_retention_stores selected).
Proof.
  intros Hs. unfold _required_retention_stores. split; intros ->; rewrite !elem_of_app.
  - right; left. rewrite bool_decide_eq_true_2 by done. by left.
  - right; right. rewrite bool_decide_eq_true_2 by done. by left.
Qed.

(** ** Totals *)

Lemma proposed_split (f : RetentionItem → Z) its :
  sum_with f (filter (λ i, proposed i = true) its) + sum_with f (filter (λ i, proposed i = false) its) = sum_with f its.
Proof.
  induction its as [|i its IH]; [done|]. rewrite !filter_cons. cbn [sum_with].
  destruct (proposed i); [rewrite decide_True, decide_False by done|rewrite decide_False, decide_True by done];
    cbn [sum_with]; lia.
Qed.

(** ** Pages *)

Section pages.
Context {R : Type} (id_of : R → Z) (table : list R) (batch : Z).
Hypothesis batch_positive : 1 <= batch.
Hypothesis unique : NoDup (id_of <$> table).

Definition rest (after_ : Z) : list R := sort_by Z.compare id_of (filter (λ r, after_ < id_of r) table).

Lemma rest_increasing after_ : StronglySorted Z.lt (id_of <$> rest after_).
Proof.
  assert (NoDup (id_of <$> rest after_)) as Hnd.
  { unfold rest. rewrite sort_by_perm. eapply sublist_NoDup; [exact unique|]. apply fmap_sublist, sublist_filter. }
  pose proof (sort_by_sorted Z.compare id_of (filter (λ r, after_ < id_of r) table)) as Hs. fold (rest after_) in Hs.
  induction Hs as [|r rs Hs IH Hr]; csimpl in *; [constructor|]. apply NoDup_cons in Hnd as [Hnot Hnd].
  constructor; [by apply IH|]. apply Forall_fmap. rewrite Forall_forall in *. intros r' Hr'. specialize (Hr r' Hr').
  assert (id_of r ≠ id_of r') by (intros He; apply Hnot; rewrite He; by apply list_elem_of_fmap_2).
  unfold cmp_le in Hr. cbn. destruct (Z.compare_spec (id_of r) (id_of r')); (done || lia || congruence).
Qed.

(** What lies past the last row of a page. *)
Lemma rest_after after_ n r : (0 < n)%nat → last (take n (rest after_)) = Some r → rest (id_of r) = drop n (rest after_).
Proof.
  intros Hn Hl. pose proof (rest_increasing after_) as Hinc.
  assert (r ∈ rest after_) as Hr.
  { apply last_Some in Hl as [l' Hl]. apply (subseteq_take n). rewrite Hl, elem_of_app. right. by left. }
  assert (after_ < id_of r) as Hlt by (unfold rest in Hr; rewrite sort_by_perm in Hr; by apply list_elem_of_filter in Hr as [? _]).
  assert (rest (id_of r) = filter (λ x, id_of r < id_of x) (rest after_)) as ->.
  { unfold rest at 2. rewrite sort_by_filter by apply _. unfold rest. f_equal. clear -Hlt.
    induction table as [|x t IH]; [done|]. rewrite (filter_cons (λ r0, after_ < id_of r0)).
    case_decide; rewrite !filter_cons; repeat case_decide; try lia; rewrite ?IH; try done; by f_equal. }
  clear Hlt Hr. set (l := rest after_) in *. clearbody l. clear unique batch_positive.
  rewrite <- (take_drop n l) at 1. rewrite filter_app.
  rewrite <- (take_drop n l), fmap_app in Hinc. apply StronglySorted_app in Hinc as (Hall & Htake & Hdrop).
  apply last_Some in Hl as [l' Hl]. rewrite Hl in *. rewrite fmap_app in Htake.
  apply StronglySorted_app in Htake as (Hbelow & _ & _).
  assert (filter (λ x, id_of r < id_of x) (l' ++ [r]) = []) as ->.
  { apply elem_of_nil_inv. intros x [Hx Hin]%list_elem_of_filter. apply elem_of_app in Hin as [Hin|Hin%list_elem_of_singleton].
    - specialize (Hbelow (id_of x) (id_of r)). cbn in Hbelow.
      enough (id_of x < id_of r) by lia. apply Hbelow; [by apply list_elem_of_fmap_2|by left].
    - subst x. lia. }
  cbn [app]. assert (Forall (λ x, id_of r < id_of x) (drop n l)) as Hpast.
  { apply Forall_forall. intros x Hx. apply Hall; [|by apply list_elem_of_fmap_2].
    rewrite fmap_app, elem_of_app. right. by left. }
  clear -Hpast. induction Hpast as [|x xs Hx _ IH]; [done|]. by rewrite filter_cons_True, IH.
Qed.

Variable build : Z → R → RetentionItem.
Hypothesis build_key : ∀ a r, key (build a r) = id_of r.

Definition page (after_ : Z) : list RetentionItem * option Z * bool :=
  _page_result (keyset id_of table after_ (batch + 1)) batch (build after_).

Lemma page_spec after_ :
  key <$> (page after_).1.1 = id_of <$> take (Z.to_nat batch) (rest after_) ∧
  (page after_).1.2 = if batch <? zlen (rest after_) then id_of <$> last (take (Z.to_nat batch) (rest after_)) else None.
Proof.
  unfold page, _page_result, keyset. fold (rest after_). cbn [fst snd].
  rewrite take_take, Nat.min_l by lia. split.
  - rewrite <- list_fmap_compose. apply list_fmap_ext. intros i r _. apply build_key.
  - rewrite length_take. destruct (Z.ltb_spec batch (Z.of_nat (Z.to_nat (batch + 1) `min` length (rest after_)))),
      (Z.ltb_spec batch (zlen (rest after_))); try lia; [|done].
    rewrite fmap_last. destruct (last (take _ (rest after_))); cbn; [by rewrite build_key|done].
Qed.
End pages.

(** The items of the pages from a cursor on; [None]: the fuel did not suffice. *)
Fixpoint all_pages {E} (fuel : nat) (plan : Z → result E RetentionStorePlan) (after_ : Z) :
    result E (option (list RetentionItem)) :=
  q ← plan after_;
  match next_after q, fuel with
  | None, _ => Ok (Some (items q))
  | Some n, S fuel' => more ← all_pages fuel' plan n; Ok (option_map (λ l, items q ++ l) more)
  | Some _, O => Ok None
  end.

Lemma all_pages_spec {R} (id_of : R → Z) table batch build (plan : Z → result retention_error RetentionStorePlan) :
  1 <= batch → NoDup (id_of <$> table) → (∀ a r, key (build a r) = id_of r) →
  (∀ a, ∃ q, plan a = Ok q ∧ items q = (page id_of table batch build a).1.1 ∧
             next_after q = (page id_of table batch build a).1.2) →
  ∀ fuel after_, (length (rest id_of table after_) <= fuel)%nat →
  ∃ its, all_pages fuel plan after_ = Ok (Some its) ∧ key <$> its = id_of <$> rest id_of table after_.
Proof.
  intros Hb Hnd Hkey Hplan. induction fuel as [|fuel IH]; intros after_ Hf; cbn;
    destruct (Hplan after_) as (q & -> & Hi & Hn); cbn [mbind result_bind];
    destruct (page_spec id_of table batch Hb build Hkey after_) as [Hk Hnext]; rewrite <- Hi in Hk; rewrite <- Hn in Hnext.
  - rewrite Hnext. destruct (Z.ltb_spec batch (zlen (rest id_of table after_))) as [|Hge]; [lia|].
    eexists. split; [done|]. by rewrite Hk, take_ge by lia.
  - rewrite Hnext. destruct (Z.ltb_spec batch (zlen (rest id_of table after_))) as [Hlt|Hge].
    2: { eexists. split; [done|]. by rewrite Hk, take_ge by lia. }
    destruct (last (take (Z.to_nat batch) (rest id_of table after_))) as [r|] eqn:Hl.
    2: { apply last_None in Hl. apply (f_equal length) in Hl. rewrite length_take in Hl. cbn in Hl. lia. }
    cbn [fmap option_fmap option_map]. pose proof (rest_after id_of table Hnd after_ (Z.to_nat batch) r ltac:(lia) Hl) as Hrest.
    destruct (IH (id_of r)) as (its & -> & His); [rewrite Hrest, length_drop; lia|].
    eexists. split; [done|]. by rewrite fmap_app, Hk, His, Hrest, <- fmap_app, take_drop.
Qed.
