(* ===== verification/RetentionTerminal.v ===== *)
(** * The retention of terminal evidence (workflow/retention/planner.py)

    [plan_terminal_retention]: the records of an owner are read up to a bound, what is
    uncertain is protected, and the quotas of each category keep the newest of the
    rest; what they do not keep is proposed.  A source is a record, a mapping or an
    object; the messages of errors are those of the code without the values they
    quote.  The case folding of a status and the digest of the decisions are
    parameters. *)

From S2P Require Import Prelude PyOrder KnowledgeContracts Utf8 RetentionGraph RetentionStores.

#[global] Open Scope Z_scope.

Inductive TerminalRetentionCategory : Type :=
| Workspace | Tombstone | TerminalLog | Summary | Receipt | RollbackDerived | OtherCategory.
#[export] Instance terminal_category_eq_dec : EqDecision TerminalRetentionCategory.
Proof. solve_decision. Defined.

Definition category_names : list (pystr * TerminalRetentionCategory) :=
  [(py "workspace", Workspace); (py "tombstone", Tombstone); (py "terminal_log", TerminalLog);
   (py "summary", Summary); (py "receipt", Receipt); (py "rollback_derived", RollbackDerived);
   (py "other", OtherCategory)].

Definition TERMINAL_RETENTION_STATES : list pystr :=
  py <$> ["completed"; "failed"; "failed-retained"; "cancelled"; "abandoned"; "retired"]%string.
Definition TERMINAL_LIVE_STATES : list pystr :=
  py <$> ["active"; "committing"; "running"; "building"; "partial"; "recovering"; "recovery"; "recovery_required"]%string.
Definition RECOVERY_STATES : list pystr := py <$> ["recovery_required"; "recovering"; "recovery"]%string.
Definition MAX_TERMINAL_RETENTION_RECORDS : Z := 100000.
Definition MAX_TERMINAL_RETENTION_BYTES : Z := 4 * 1024 * 1024 * 1024.
Definition MAX_TERMINAL_RECORD_ID_BYTES : Z := 256.

(** ** The policy *)

Record TerminalRetentionPolicy : Type := {
  t_minimum_age_ns : option Z;
  max_records : Z;
  max_bytes : Z;
  workspace_quota : Z * Z;
  tombstone_quota : Z * Z;
  terminal_log_quota : Z * Z;
  summary_quota : Z * Z;
  receipt_quota : Z * Z;
  rollback_derived_quota : Z * Z
}.

Definition DEFAULT_TERMINAL_POLICY : TerminalRetentionPolicy :=
  {| t_minimum_age_ns := None; max_records := MAX_TERMINAL_RETENTION_RECORDS;
     max_bytes := MAX_TERMINAL_RETENTION_BYTES; workspace_quota := (2, 512 * 1024 * 1024);
     tombstone_quota := (2, 64 * 1024 * 1024); terminal_log_quota := (2, 512 * 1024 * 1024);
     summary_quota := (30, 64 * 1024 * 1024); receipt_quota := (30, 128 * 1024 * 1024);
     rollback_derived_quota := (1, 128 * 1024 * 1024) |}.

(** [_validate_terminal_quota] and [_validate_terminal_non_negative] *)
Definition _validate_terminal_quota (value : Z) (label : string) (maximum : Z) : result retention_error Z :=
  raise_if (negb ((0 <=? value) && (value <=? maximum)))
    (RetentionValueError (py label ++ py " must be between 0 and " ++ dec_text maximum));;
  Ok value.

(** [TerminalRetentionPolicy.__post_init__] *)
Definition validate_terminal_policy (p : TerminalRetentionPolicy) : result retention_error unit :=
  match t_minimum_age_ns p with
  | Some n => _validate_terminal_quota n "terminal minimum_age_ns" (2 ^ 63 - 1);; Ok tt
  | None => Ok tt
  end;;
  _validate_terminal_quota (max_records p) "terminal max_records" MAX_TERMINAL_RETENTION_RECORDS;;
  _validate_terminal_quota (max_bytes p) "terminal max_bytes" MAX_TERMINAL_RETENTION_BYTES;;
  map_result (λ q : string * Z, _validate_terminal_quota q.2 q.1 MAX_TERMINAL_RETENTION_RECORDS)
    [("terminal workspace_count"%string, (workspace_quota p).1); ("terminal tombstone_count"%string, (tombstone_quota p).1);
     ("terminal terminal_log_count"%string, (terminal_log_quota p).1); ("terminal summary_count"%string, (summary_quota p).1);
     ("terminal receipt_count"%string, (receipt_quota p).1);
     ("terminal rollback_derived_count"%string, (rollback_derived_quota p).1)];;
  map_result (λ q : string * Z, _validate_terminal_quota q.2 q.1 MAX_TERMINAL_RETENTION_BYTES)
    [("terminal workspace_bytes"%string, (workspace_quota p).2); ("terminal tombstone_bytes"%string, (tombstone_quota p).2);
     ("terminal terminal_log_bytes"%string, (terminal_log_quota p).2); ("terminal summary_bytes"%string, (summary_quota p).2);
     ("terminal receipt_bytes"%string, (receipt_quota p).2);
     ("terminal rollback_derived_bytes"%string, (rollback_derived_quota p).2)];;
  Ok tt.

(** [TerminalRetentionPolicy.from_retention_policy] *)
Definition from_retention_policy (p : RetentionPolicy) : result retention_error TerminalRetentionPolicy :=
  let d := DEFAULT_TERMINAL_POLICY in
  let q := {| t_minimum_age_ns := minimum_age_ns p;
              max_records := Z.min (batch_size p * 1000) MAX_TERMINAL_RETENTION_RECORDS;
              max_bytes := Z.min (snapshot_max_temporary_bytes p) MAX_TERMINAL_RETENTION_BYTES;
              workspace_quota := workspace_quota d; tombstone_quota := tombstone_quota d;
              terminal_log_quota := (terminal_log_count p, terminal_log_bytes p);
              summary_quota := (summary_count p, summary_bytes p);
              receipt_quota := (receipt_count p, receipt_bytes p);
              rollback_derived_quota := (rollback_derived_count p, (rollback_derived_quota d).2) |} in
  validate_terminal_policy q;; Ok q.

(** [TerminalRetentionPolicy.quota] *)
Definition quota (p : TerminalRetentionPolicy) (c : TerminalRetentionCategory) : Z * Z :=
  match c with
  | Workspace => workspace_quota p
  | Tombstone => tombstone_quota p
  | TerminalLog => terminal_log_quota p
  | Summary => summary_quota p
  | Receipt => receipt_quota p
  | RollbackDerived => rollback_derived_quota p
  | OtherCategory => workspace_quota p
  end.

(** ** Records *)

Record TerminalRetentionRecord : Type := {
  record_id : pystr;
  status : pystr;
  category : TerminalRetentionCategory;
  terminal_ns : option Z;
  apparent_bytes : Z;
  allocated_bytes : Z;
  physical_identity : option (Z * Z * Z);
  reconciled : bool;
  recovery_required : bool;
  replay_required : bool;
  pinned : bool;
  grant_active : bool;
  authorization_active : bool;
  release_authorized : bool;
  evidence_required : bool;
  retain_until_ns : option Z;
  tombstone : bool;
  owner : option pystr
}.

Definition not_negative (name : string) (value : option Z) : result retention_error unit :=
  raise_if (match value with Some n => n <? 0 | None => false end)
    (RetentionValueError (py "terminal " ++ py name ++ py " must be a non-negative integer")).

(** [physical_identity] as a tuple or list of any values. *)
Definition identity_of (values : list pyval) : result retention_error (Z * Z * Z) :=
  match values with
  | [PInt a; PInt b; PInt c] =>
      raise_if ((a <? 0) || (b <? 0) || (c <? -1)) (retention_value "terminal physical_identity is invalid");;
      Ok (a, b, c)
  | _ => Err (retention_value "terminal physical_identity is invalid")
  end.

(** [TerminalRetentionRecord.__post_init__]: the typed fields, and the identity and the
    owner as they were given. *)
Definition post_init (r : TerminalRetentionRecord) (identity : option (list pyval)) (owner_ : pyval) :
    result retention_error TerminalRetentionRecord :=
  raise_if (blank (record_id r)) (retention_value "terminal record_id must be non-empty text");;
  data ← or_raise (utf8_encode (record_id r)) RetentionUnicodeError;
  raise_if (MAX_TERMINAL_RECORD_ID_BYTES <? zlen data)
    (retention_value "terminal record_id exceeds the durable size limit");;
  raise_if (blank (status r)) (retention_value "terminal status must be non-empty text");;
  not_negative "terminal_ns" (terminal_ns r);;
  not_negative "retain_until_ns" (retain_until_ns r);;
  not_negative "apparent_bytes" (Some (apparent_bytes r));;
  not_negative "allocated_bytes" (Some (allocated_bytes r));;
  identity_ ← match identity with
              | Some values => i ← identity_of values; Ok (Some i)
              | None => Ok None
              end;
  owner' ← match owner_ with
           | PNone => Ok None
           | PStr s => raise_if (blank s) (retention_value "terminal owner must be non-empty text or None");; Ok (Some s)
           | _ => Err (retention_value "terminal owner must be non-empty text or None")
           end;
  Ok {| record_id := record_id r; status := status r; category := category r; terminal_ns := terminal_ns r;
        apparent_bytes := apparent_bytes r; allocated_bytes := allocated_bytes r; physical_identity := identity_;
        reconciled := reconciled r; recovery_required := recovery_required r; replay_required := replay_required r;
        pinned := pinned r; grant_active := grant_active r; authorization_active := authorization_active r;
        release_authorized := release_authorized r; evidence_required := evidence_required r;
        retain_until_ns := retain_until_ns r;
        tombstone := tombstone r || bool_decide (category r = Tombstone); owner := owner' |}.

(** ** Sources *)

(** A value of a source: a tuple, a list or another value. *)
Inductive source_value : Type := Plain (v : pyval) | TupleOf (vs : list pyval) | ListOf (vs : list pyval).

Inductive terminal_source : Type :=
| RecordSource (r : TerminalRetentionRecord)
| MappingSource (fields : list (pystr * source_value))
| ObjectSource (attributes : list (pystr * source_value)).

Definition is_none (v : source_value) : bool := match v with Plain PNone => true | _ => false end.

(** [_terminal_value]: a mapping gives the first name it has, an object the first
    attribute that is not [None]. *)
Fixpoint _terminal_value (source : terminal_source) (names : list string) (default_ : source_value) : source_value :=
  match names with
  | [] => default_
  | name :: names' =>
      match source with
      | RecordSource _ => default_
      | MappingSource fields => match dget (py name) fields with Some v => v | None => _terminal_value source names' default_ end
      | ObjectSource attributes =>
          match dget (py name) attributes with
          | Some v => if is_none v then _terminal_value source names' default_ else v
          | None => _terminal_value source names' default_
          end
      end
  end.

(** [_terminal_bool] *)
Definition _terminal_bool (source : terminal_source) (name : string) (aliases : list string) (default_ : bool) :
    result retention_error bool :=
  match _terminal_value source (name :: aliases) (Plain (PBool default_)) with
  | Plain (PBool b) => Ok b
  | _ => Err (RetentionValueError (py "terminal " ++ py name ++ py " must be a boolean"))
  end.

(** [_terminal_int] *)
Definition _terminal_int (source : terminal_source) (name : string) (aliases : list string) (default_ : pyval) :
    result retention_error (option Z) :=
  match _terminal_value source (name :: aliases) (Plain default_) with
  | Plain PNone => Ok None
  | Plain (PInt n) =>
      raise_if (n <? 0)
        (RetentionValueError (py "terminal " ++ py name ++ py " must be a non-negative integer or None"));;
      Ok (Some n)
  | _ => Err (RetentionValueError (py "terminal " ++ py name ++ py " must be a non-negative integer or None"))
  end.

(** The category of a value; a list is not hashable. *)
Definition category_of (v : source_value) : result retention_error TerminalRetentionCategory :=
  match v with
  | Plain (PStr s) =>
      let s := if bool_decide (s ∈ py <$> ["temporary"; "cache"; "rebuildable"]%string) then py "workspace" else s in
      let s := if bool_decide (s ∈ py <$> ["canonical"; "operational"; "external"]%string) then py "other" else s in
      let s := if bool_decide (s = py "registry_tombstone") then py "tombstone" else s in
      or_raise (dget s category_names) (retention_value "unsupported terminal retention category")
  | ListOf _ => Err RetentionTypeError
  | _ => Err (retention_value "unsupported terminal retention category")
  end.

(** Nonblank text of a source. *)
Definition source_text (v : source_value) (message : string) : result retention_error pystr :=
  match v with
  | Plain (PStr s) => raise_if (blank s) (retention_value message);; Ok s
  | _ => Err (retention_value message)
  end.

(** [_coerce_terminal_record] *)
Definition _coerce_terminal_record (source : terminal_source) : result retention_error TerminalRetentionRecord :=
  match source with
  | RecordSource r => Ok r
  | _ =>
      let none := Plain PNone in
      id_ ← source_text (_terminal_value source ["record_id"; "artifact_id"; "workspace_id"; "id"]%string none)
              "terminal record must provide a non-empty record_id";
      status_ ← source_text (_terminal_value source ["status"; "state"; "recorded_status"]%string none)
                  "terminal record must provide status";
      category_ ← category_of (_terminal_value source ["category"; "kind"; "role"]%string (Plain (PStr (py "workspace"))));
      terminal_ns_ ← _terminal_int source "terminal_ns" ["completed_ns"; "finished_ns"; "retired_ns"; "updated_ns"]%string PNone;
      apparent ← _terminal_int source "apparent_bytes" ["size_bytes"; "payload_size_bytes"; "estimated_bytes"]%string (PInt 0);
      allocated ← _terminal_int source "allocated_bytes" ["physical_bytes"]%string (PInt 0);
      identity ← match _terminal_value source ["physical_identity"; "path_identity"; "identity"]%string none with
                 | Plain PNone => Ok None
                 | TupleOf vs | ListOf vs =>
                     raise_if (negb (length vs =? 3)%nat) (retention_value "terminal physical_identity is invalid");;
                     Ok (Some vs)
                 | _ => Err (retention_value "terminal physical_identity is invalid")
                 end;
      tombstone_ ← _terminal_bool source "tombstone" [] (bool_decide (category_ = Tombstone));
      evidence ← (if is_none (_terminal_value source ["evidence_required"]%string none) then Ok tombstone_
                  else _terminal_bool source "evidence_required" [] false);
      reconciled_ ← _terminal_bool source "reconciled" ["reconciled_ok"]%string false;
      recovery ← _terminal_bool source "recovery_required" ["recovery_pending"]%string false;
      replay ← _terminal_bool source "replay_required" ["replay_pending"]%string false;
      pinned_ ← _terminal_bool source "pinned" ["pin"]%string false;
      grant ← _terminal_bool source "grant_active" ["grant"; "lease_active"]%string false;
      authorization ← _terminal_bool source "authorization_active" ["retention_authorized"; "authorization"]%string false;
      release ← _terminal_bool source "release_authorized" ["releasable"]%string false;
      retain_until ← _terminal_int source "retain_until_ns" ["retire_after_ns"]%string PNone;
      let owner_ := match _terminal_value source ["owner"]%string none with Plain v => v | _ => POther end in
      post_init {| record_id := id_; status := status_; category := category_; terminal_ns := terminal_ns_;
                   apparent_bytes := default 0 apparent; allocated_bytes := default 0 allocated;
                   physical_identity := None; reconciled := reconciled_; recovery_required := recovery;
                   replay_required := replay; pinned := pinned_; grant_active := grant;
                   authorization_active := authorization; release_authorized := release;
                   evidence_required := evidence; retain_until_ns := retain_until; tombstone := tombstone_;
                   owner := None |} identity owner_
  end.
