(* ===== verification/RetentionTerminalPlan.v ===== *)
(** * The plan of terminal retention (workflow/retention/planner.py)

    [plan_terminal_retention] and the accounting of its result. *)

From S2P Require Import Prelude PyOrder KnowledgeContracts Utf8 RetentionGraph RetentionStores RetentionTerminal.

#[global] Open Scope Z_scope.

(** [dict.fromkeys(values)]: each value where it is first. *)
Definition fromkeys (values : list pystr) : list pystr := (foldl (λ d v, dset v tt d) [] values).*1.

(** ** The observation *)

Definition observation_cost (r : TerminalRetentionRecord) : Z := apparent_bytes r + allocated_bytes r.

Section observe.
Variables (cancelled_at : nat → bool) (p : TerminalRetentionPolicy).

(** The loop over the sources: what is observed, and why it stopped early. *)
Fixpoint observe (sources : list terminal_source) (bounded : list TerminalRetentionRecord) (budget : Z) :
    result retention_error (list TerminalRetentionRecord * option pystr) :=
  raise_if (cancelled_at (length bounded)) RetentionPlanningCancelled;;
  if max_records p <=? zlen bounded then Ok (bounded, Some (py "record_limit"))
  else match sources with
       | [] => Ok (bounded, None)
       | raw :: sources' =>
           r ← _coerce_terminal_record raw;
           if max_bytes p - budget <? observation_cost r then Ok (bounded, Some (py "byte_limit"))
           else observe sources' (bounded ++ [r]) (budget + observation_cost r)
       end.
End observe.

(** ** The gates *)

Section gates.
Variables (casefold : pystr → pystr) (p : TerminalRetentionPolicy) (now : Z).

Definition status_normalized (r : TerminalRetentionRecord) : pystr := casefold (strip (status r)).

Definition terminal (r : TerminalRetentionRecord) : bool := bool_decide (status_normalized r ∈ TERMINAL_RETENTION_STATES).

Definition in_recovery (r : TerminalRetentionRecord) : bool :=
  recovery_required r || bool_decide (status_normalized r ∈ RECOVERY_STATES).

(** [id_counts] *)
Definition id_counts (bounded : list TerminalRetentionRecord) : list (pystr * Z) :=
  foldl (λ d r, dset (record_id r) (default 0 (dget (record_id r) d) + 1) d) [] bounded.

(** The reasons of the age of a record. *)
Definition age_reasons (r : TerminalRetentionRecord) : list pystr :=
  match terminal_ns r, t_minimum_age_ns p with
  | None, _ => [py "terminal_timestamp_missing"]
  | Some _, None => [py "age_policy_not_configured"]
  | Some n, Some minimum =>
      if (now <? n) || (now - n <? minimum) then [py "minimum_age_not_reached"] else []
  end.

(** What the identity and the state of a record say against it. *)
Definition state_reasons (counts : list (pystr * Z)) (r : TerminalRetentionRecord) : list pystr :=
  let s := status_normalized r in
  let duplicate := note (1 <? default 0 (dget (record_id r) counts)) "duplicate_record_id" [] in
  if bool_decide (s ∈ TERMINAL_LIVE_STATES) then duplicate ++ [py "state_not_terminal"]
  else note (negb (bool_decide (s ∈ TERMINAL_RETENTION_STATES))) "unknown_status" duplicate.

(** What its claims say against it. *)
Definition claim_reasons (r : TerminalRetentionRecord) (rs : list pystr) : list pystr :=
  note (negb (release_authorized r)) "release_not_authorized"
    (note (negb (reconciled r)) "reconciliation_required"
    (note (evidence_required r) "evidence_required"
    (note (authorization_active r) "authorization_active"
    (note (grant_active r) "grant_active"
    (note (pinned r) "pinned"
    (note (replay_required r) "replay_required"
    (note (in_recovery r) "recovery_required" rs))))))).

(** What keeps a record from being a candidate. *)
Definition gate_reasons (counts : list (pystr * Z)) (r : TerminalRetentionRecord) : list pystr :=
  note (match retain_until_ns r with Some until => now <? until | None => false end) "retention_active"
    (claim_reasons r (state_reasons counts r) ++ age_reasons r).

Definition candidate_category (r : TerminalRetentionRecord) : TerminalRetentionCategory :=
  if tombstone r then Tombstone else category r.

(** The maps of the loop: the candidates of each category, and what is decided of
    each index. *)
Record GateState : Type := {
  candidates : list (TerminalRetentionCategory * list nat);
  preliminary : list (nat * (Disposition * list pystr))
}.

Definition gate (counts : list (pystr * Z)) (st : GateState) (e : nat * TerminalRetentionRecord) : GateState :=
  let '(index, r) := e in
  let rs := gate_reasons counts r in
  if bool_decide (rs ≠ []) then
    {| candidates := candidates st;
       preliminary := dset index (if bool_decide (py "unknown_status" ∈ rs) then Blocked else Protected, rs)
                        (preliminary st) |}
  else
    let c := candidate_category r in
    {| candidates := dset c (default [] (dget c (candidates st)) ++ [index]) (candidates st);
       preliminary := dset index (Protected, [py "policy_window"]) (preliminary st) |}.

Definition indexed (bounded : list TerminalRetentionRecord) : list (nat * TerminalRetentionRecord) :=
  zip (seq 0 (length bounded)) bounded.

Definition gates (bounded : list TerminalRetentionRecord) : GateState :=
  foldl (gate (id_counts bounded)) {| candidates := []; preliminary := [] |} (indexed bounded).

(** ** The quotas *)

(** [(terminal_ns or -1, record_id)] *)
Definition rank_key (r : TerminalRetentionRecord) : Z * pystr := (default (-1) (terminal_ns r), record_id r).
Definition cmp_rank : Z * pystr → Z * pystr → comparison := lex Z.compare cmp_str.

(** [sorted(..., reverse=True)]: the greatest key first, equal ones as they were. *)
Definition sort_reverse {A K} (c : K → K → comparison) (key_ : A → K) : list A → list A :=
  sort_by (λ x y, c y x) key_.

(** The loop over the ranked candidates: those that are kept. *)
Fixpoint keep_loop {A} (bytes : A → Z) (count_limit byte_limit : Z) (ranked : list A) (kept_count kept_bytes : Z) :
    list A :=
  match ranked with
  | [] => []
  | x :: ranked' =>
      if (count_limit <=? kept_count) || ((0 <? kept_count) && (byte_limit <? kept_bytes + bytes x))
      then keep_loop bytes count_limit byte_limit ranked' kept_count kept_bytes
      else x :: keep_loop bytes count_limit byte_limit ranked' (kept_count + 1) (kept_bytes + bytes x)
  end.

(** The candidates of one category. *)
Definition expire (bounded : list TerminalRetentionRecord)
    (decided : result retention_error (list (nat * (Disposition * list pystr))))
    (e : TerminalRetentionCategory * list nat) : result retention_error (list (nat * (Disposition * list pystr))) :=
  d ← decided;
  entries ← map_result (λ i, r ← or_raise (bounded !! i) RetentionKeyError; Ok (i, r)) e.2;
  let '(count_limit, byte_limit) := quota p e.1 in
  let ranked := sort_reverse cmp_rank (λ x : nat * TerminalRetentionRecord, rank_key x.2) entries in
  let keep := keep_loop (λ x : nat * TerminalRetentionRecord, apparent_bytes x.2) count_limit byte_limit ranked 0 0 in
  Ok (foldl (λ d x, if bool_decide (x.1 ∈ keep.*1) then d
                    else dset x.1 (Eligible, [py "terminal_retention_expired"]) d) d ranked).
End gates.

(** ** The plan *)

Record TerminalRetentionItem : Type := {
  item_record : TerminalRetentionRecord;
  item_disposition : Disposition;
  item_reasons : list pystr
}.

Record TerminalRetentionPlan : Type := {
  t_now_ns : Z;
  t_policy : TerminalRetentionPolicy;
  t_items : list TerminalRetentionItem;
  t_status : pystr;
  t_truncated : bool;
  truncation_reasons : list pystr;
  omitted_records : option Z;
  baseline_record_ids : list pystr;
  free_bytes : option Z;
  physical_accounting_complete : bool;
  fingerprint : pystr
}.

Section plan.
Variables (casefold : pystr → pystr)
  (digest : TerminalRetentionPolicy → list TerminalRetentionItem → result retention_error pystr)
  (p : TerminalRetentionPolicy) (now : Z).

Definition fingerprint_key (i : TerminalRetentionItem) : pystr * pystr * Z :=
  let r := item_record i in (record_id r, status_normalized casefold r, default (-1) (terminal_ns r)).

(** [_terminal_fingerprint]: the digest of the policy and the decisions. *)
Definition _terminal_fingerprint (its : list TerminalRetentionItem) : result retention_error pystr :=
  digest p (sort_by (lex (lex cmp_str cmp_str) Z.compare) fingerprint_key its).

(** [sorted(set(baseline_record_ids or ()))] and its checks *)
Definition baseline_of (ids : list pystr) : result retention_error (list pystr) :=
  let baseline := sort_by cmp_str id (remove_dups ids) in
  raise_if (existsb blank baseline) (retention_value "terminal baseline_record_ids must contain non-empty text");;
  foldl (λ res v, res;; data ← or_raise (utf8_encode v) RetentionUnicodeError;
           raise_if (MAX_TERMINAL_RECORD_ID_BYTES <? zlen data)
             (retention_value "terminal baseline_record_ids contain an oversized identifier")) (Ok tt) baseline;;
  Ok baseline.

(** The item of an index. *)
Definition item_of (truncated_ : bool) (decided : list (nat * (Disposition * list pystr)))
    (e : nat * TerminalRetentionRecord) : result retention_error TerminalRetentionItem :=
  '(d, rs) ← or_raise (dget e.1 decided) RetentionKeyError;
  Ok (if truncated_
      then {| item_record := e.2; item_disposition := Blocked;
              item_reasons := fromkeys (py "observation_incomplete" :: rs) |}
      else {| item_record := e.2; item_disposition := d; item_reasons := rs |}).

Definition blocked_item (i : TerminalRetentionItem) : bool := bool_decide (item_disposition i = Blocked).

(** [plan_terminal_retention] under a policy that was constructed; [known_total] is
    the length of a sequence. *)
Definition plan_terminal_retention (cancelled_at : nat → bool) (sources : list terminal_source) (known_total : bool)
    (baseline_ids : list pystr) (free : option Z) : result retention_error TerminalRetentionPlan :=
  raise_if (now <? 0) (retention_value "terminal retention now_ns must be a non-negative integer");;
  raise_if (match free with Some n => n <? 0 | None => false end)
    (retention_value "terminal free_bytes must be a non-negative integer or None");;
  baseline ← baseline_of baseline_ids;
  '(bounded, stopped) ← observe cancelled_at p sources [] 0;
  let truncated_ := bool_decide (is_Some stopped) in
  let st := gates casefold p now bounded in
  decided ← foldl (expire p bounded) (Ok (preliminary st)) (candidates st);
  its ← map_result (item_of truncated_ decided) (indexed bounded);
  digest_ ← _terminal_fingerprint its;
  Ok {| t_now_ns := now; t_policy := p; t_items := its;
        t_status := if truncated_ || existsb blocked_item its then py "blocked" else py "ready";
        t_truncated := truncated_;
        truncation_reasons := match stopped with Some reason => [reason] | None => [] end;
        omitted_records := if truncated_ && known_total then Some (Z.max 0 (zlen sources - zlen bounded)) else None;
        baseline_record_ids := baseline; free_bytes := free;
        physical_accounting_complete := forallb (λ i, bool_decide (is_Some (physical_identity (item_record i)))) its;
        fingerprint := digest_ |}.
End plan.

(** ** The accounting of a plan *)

Section accounting.
Variables (casefold : pystr → pystr) (q : TerminalRetentionPlan).

Definition items_with (d : Disposition) : list TerminalRetentionItem :=
  filter (λ i, item_disposition i = d) (t_items q).
Definition item_apparent (i : TerminalRetentionItem) : Z := apparent_bytes (item_record i).
Definition item_allocated (i : TerminalRetentionItem) : Z := allocated_bytes (item_record i).

Definition observed_count : Z := zlen (t_items q).
Definition eligible_count : Z := zlen (items_with Eligible).
Definition protected_count : Z := zlen (items_with Protected).
Definition blocked_count : Z := zlen (items_with Blocked).
Definition observed_apparent_bytes : Z := sum_with item_apparent (t_items q).
Definition observed_allocated_bytes : Z := sum_with item_allocated (t_items q).
Definition eligible_apparent_bytes : Z := sum_with item_apparent (items_with Eligible).
Definition protected_apparent_bytes : Z := sum_with item_apparent (items_with Protected).
Definition blocked_apparent_bytes : Z := sum_with item_apparent (items_with Blocked).
Definition preserved_terminal_count : Z := protected_count + blocked_count.

Definition recovery_pending (i : TerminalRetentionItem) : bool :=
  recovery_required (item_record i) || replay_required (item_record i) ||
  bool_decide (status_normalized casefold (item_record i) ∈ RECOVERY_STATES).
Definition recovery_pending_count : Z := zlen (filter (λ i, recovery_pending i = true) (t_items q)).
Definition pending_recovery_bytes : Z :=
  sum_with item_apparent (filter (λ i, recovery_pending i = true) (t_items q)).
Definition tombstone_count : Z := zlen (filter (λ i, tombstone (item_record i) = true) (t_items q)).
Definition unique_workspace_count : Z :=
  zlen (remove_dups (omap (λ i, if bool_decide (category (item_record i) = Workspace)
                                then physical_identity (item_record i) else None) (t_items q))).
Definition terminal_overhead (i : TerminalRetentionItem) : bool :=
  tombstone (item_record i) ||
  bool_decide (category (item_record i) ∈ [TerminalLog; Summary; Receipt; RollbackDerived]).
Definition terminal_overhead_apparent_bytes : Z :=
  sum_with item_apparent (filter (λ i, terminal_overhead i = true) (t_items q)).
Definition new_terminal_records : Z :=
  zlen (filter (λ i, terminal casefold (item_record i) &&
                     negb (bool_decide (record_id (item_record i) ∈ baseline_record_ids q)) = true) (t_items q)).

(** The loop of [_unique_bytes]: the greatest observations of each object. *)
Definition note_object (seen : list (Z * Z * Z * (Z * Z))) (i : TerminalRetentionItem) : list (Z * Z * Z * (Z * Z)) :=
  match physical_identity (item_record i) with
  | None => seen
  | Some identity =>
      match dget identity seen with
      | None => dset identity (item_apparent i, item_allocated i) seen
      | Some current => dset identity (Z.max current.1 (item_apparent i), Z.max current.2 (item_allocated i)) seen
      end
  end.

(** [_unique_bytes] *)
Definition _unique_bytes (its : list TerminalRetentionItem) : Z * Z * bool * Z :=
  let seen := foldl note_object [] its in
  let missing := zlen (filter (λ i, physical_identity (item_record i) = None) its) in
  (sum_with (λ e : Z * Z * Z * (Z * Z), e.2.1) seen, sum_with (λ e : Z * Z * Z * (Z * Z), e.2.2) seen, missing =? 0, missing).

Definition unique_apparent_bytes : Z := (_unique_bytes (t_items q)).1.1.1.
Definition unique_allocated_bytes : Z := (_unique_bytes (t_items q)).1.1.2.
Definition physical_unique_count : Z :=
  zlen (remove_dups (omap (λ i, physical_identity (item_record i)) (t_items q))).

(** [reason_counts] *)
Definition reason_counts : list (pystr * Z) :=
  sort_by cmp_str fst
    (foldl (λ d reason, dset reason (default 0 (dget reason d) + 1) d) [] (t_items q ≫= item_reasons)).
End accounting.
