(* ===== verification/RetentionTerminalLaws.v ===== *)
(** * The laws of the terminal plan

    The maps of the loops decide each record by itself: [decision] names no index and
    no dictionary. *)

From S2P Require Import Prelude PyOrder KnowledgeContracts Utf8 RetentionGraph RetentionStores RetentionTerminal RetentionTerminalPlan.

#[global] Open Scope Z_scope.

#[export] Instance terminal_record_eq_dec : EqDecision TerminalRetentionRecord.
Proof. solve_decision. Defined.

(** ** Sorting *)

Lemma flip_order {A} (c : A → A → comparison) `{!TotalOrder c} : TotalOrder (λ x y, c y x).
Proof.
  split.
  - intros x y. apply (cmp_sym c).
  - intros x y z H. by apply (cmp_eq_r c), (cmp_eq_sym c).
  - intros x y z H1 H2. by apply (cmp_lt_trans c z y x).
Qed.

Lemma sort_by_on {A B K} (c : K → K → comparison) (f : A → B) (key_ : B → K) (l : list A) :
  sort_by c key_ (f <$> l) = f <$> sort_by c (λ x, key_ (f x)) l.
Proof.
  induction l as [|x l IH]; [done|]. unfold sort_by in *. csimpl. rewrite IH.
  generalize (foldr (insert_by c (λ x, key_ (f x))) [] l). clear l IH.
  induction l as [|y l IH]; csimpl; [done|]. rewrite IH. by case_match.
Qed.

(** ** The quotas *)

Section keep.
Context {A : Type} (bytes : A → Z) (count_limit byte_limit : Z).

Lemma keep_sublist l : ∀ n b, keep_loop bytes count_limit byte_limit l n b `sublist_of` l.
Proof.
  induction l as [|x l IH]; intros n b; cbn; [constructor|]. case_match; [apply sublist_cons|apply sublist_skip]; apply IH.
Qed.

Lemma keep_count l : ∀ n b, n <= count_limit →
  n + zlen (keep_loop bytes count_limit byte_limit l n b) <= count_limit.
Proof.
  induction l as [|x l IH]; intros n b Hn; cbn; [lia|]. destruct (_ || _) eqn:Hc; [by apply IH|].
  bool_prop. cbn [length]. specialize (IH (n + 1) (b + bytes x)). lia.
Qed.

Lemma keep_bytes l : ∀ n b, 0 <= n → n <= 1 ∨ b <= byte_limit →
  let kept := keep_loop bytes count_limit byte_limit l n b in
  n + zlen kept <= 1 ∨ b + sum_with bytes kept <= byte_limit.
Proof.
  induction l as [|x l IH]; intros n b Hn Hb; cbn; [lia|]. destruct (_ || _) eqn:Hc; [by apply IH|].
  cbn [length sum_with]. apply orb_false_iff in Hc as [Hc1 Hc2].
  assert (n + 1 <= 1 ∨ b + bytes x <= byte_limit) as Hnext.
  { apply andb_false_iff in Hc2 as [Hc2|Hc2]; [left|right]; lia. }
  specialize (IH (n + 1) (b + bytes x) ltac:(lia) Hnext). cbn in IH. lia.
Qed.

Lemma keep_first x l : 1 <= count_limit → x ∈ keep_loop bytes count_limit byte_limit (x :: l) 0 0.
Proof. intros H. cbn. destruct (Z.leb_spec count_limit 0); [lia|]. by left. Qed.
End keep.

Lemma keep_loop_fmap {A B} (f : A → B) (bytes : B → Z) count_limit byte_limit l : ∀ n b,
  f <$> keep_loop (λ x, bytes (f x)) count_limit byte_limit l n b =
    keep_loop bytes count_limit byte_limit (f <$> l) n b.
Proof. induction l as [|x l IH]; intros n b; csimpl; [done|]. case_match; csimpl; by rewrite IH. Qed.

(** ** The decision of a record *)

Lemma note_nil_parts b reason rs : note b reason rs = [] → b = false ∧ rs = [].
Proof. unfold note. destruct b; [|done]. by intros [_ ?]%app_eq_nil. Qed.

Lemma fold_if_dset {A V} (key_ : A → nat) (skip : A → bool) (v : V) (l : list A) : ∀ d i,
  dget i (foldl (λ d x, if skip x then d else dset (key_ x) v d) d l) =
    if existsb (λ x, negb (skip x) && bool_decide (key_ x = i)) l then Some v else dget i d.
Proof.
  induction l as [|x l IH]; intros d i; cbn; [done|]. rewrite IH.
  destruct (skip x); cbn; [done|]. case_bool_decide as Hx; cbn.
  - subst i. case_match; [done|]. by rewrite dget_dset_eq.
  - case_match; [done|]. by rewrite dget_dset_ne.
Qed.

(** How many records have an id. *)
Definition holders (bounded : list TerminalRetentionRecord) (id_ : pystr) : Z :=
  zlen (filter (λ r, record_id r = id_) bounded).

Lemma id_counts_spec bounded id_ :
  default 0 (dget id_ (id_counts bounded)) = holders bounded id_.
Proof.
  unfold id_counts, holders. induction bounded as [|r bounded IH] using rev_ind; [done|].
  rewrite foldl_snoc, filter_app, length_app. cbn. destruct (decide (id_ = record_id r)) as [->|Hne].
  - rewrite dget_dset_eq, decide_True by done. cbn. rewrite IH. cbn. lia.
  - rewrite dget_dset_ne, decide_False by done. rewrite IH. cbn. lia.
Qed.

Section decision.
Variables (casefold : pystr → pystr) (p : TerminalRetentionPolicy) (now : Z) (bounded : list TerminalRetentionRecord).

Abbreviation reasons_of := (gate_reasons casefold p now (id_counts bounded)).

Definition passes (r : TerminalRetentionRecord) : bool := bool_decide (reasons_of r = []).

(** The candidates of a category and those its quota keeps. *)
Definition candidates_in (c : TerminalRetentionCategory) : list TerminalRetentionRecord :=
  filter (λ r, passes r && bool_decide (candidate_category r = c) = true) bounded.

Definition kept_in (c : TerminalRetentionCategory) : list TerminalRetentionRecord :=
  keep_loop apparent_bytes (quota p c).1 (quota p c).2 (sort_reverse cmp_rank rank_key (candidates_in c)) 0 0.

Definition decision (r : TerminalRetentionRecord) : Disposition * list pystr :=
  if passes r then
    if bool_decide (r ∈ kept_in (candidate_category r)) then (Protected, [py "policy_window"])
    else (Eligible, [py "terminal_retention_expired"])
  else (if bool_decide (py "unknown_status" ∈ reasons_of r) then Blocked else Protected, reasons_of r).

(** What the gates decide before the quotas. *)
Definition before_quotas (r : TerminalRetentionRecord) : Disposition * list pystr :=
  if passes r then (Protected, [py "policy_window"]) else decision r.

Definition candidate_indexes (es : list (nat * TerminalRetentionRecord)) (c : TerminalRetentionCategory) : list nat :=
  (filter (λ e, passes e.2 && bool_decide (candidate_category e.2 = c) = true) es).*1.

Lemma gate_state es : NoDup es.*1 →
  let st := foldl (gate casefold p now (id_counts bounded)) {| candidates := []; preliminary := [] |} es in
  NoDup (candidates st).*1 ∧
  (∀ c, default [] (dget c (candidates st)) = candidate_indexes es c) ∧
  (∀ i, i ∉ es.*1 → dget i (preliminary st) = None) ∧
  ∀ i r, (i, r) ∈ es → dget i (preliminary st) = Some (before_quotas r).
Proof.
  induction es as [|[i r] es IH] using rev_ind; intros Hnd.
  { split_and!; [constructor|done|done|by intros ? ? ?%elem_of_nil]. }
  rewrite fmap_app in Hnd. apply NoDup_app in Hnd as (Hnd & Hdisj & _).
  specialize (IH Hnd). rewrite foldl_snoc. cbn zeta in *.
  set (st := foldl _ _ es) in *. destruct IH as (Hkeys & Hcand & Hnone & Hprel).
  assert (i ∉ es.*1) as Hi by (intros Hin; apply (Hdisj i Hin); by left).
  assert (∀ c, candidate_indexes (es ++ [(i, r)]) c = candidate_indexes es c ++
    if passes r && bool_decide (candidate_category r = c) then [i] else []) as Hidx.
  { intros c. unfold candidate_indexes. rewrite filter_app, fmap_app. f_equal. rewrite filter_cons. cbn [snd].
    case_decide as Hc; [by rewrite Hc|]. apply not_true_iff_false in Hc. by rewrite Hc. }
  cbn [gate]. destruct (decide (reasons_of r ≠ [])) as [Hr|Hr];
    [rewrite (bool_decide_eq_true_2 _ Hr)|rewrite (bool_decide_eq_false_2 _ Hr)]; cbn [candidates preliminary].
  - assert (passes r = false) as Hp by (by apply bool_decide_eq_false_2).
    split_and!; [done| | |].
    + intros c. rewrite Hcand, Hidx, Hp. cbn. by rewrite app_nil_r.
    + intros j Hj. rewrite fmap_app, not_elem_of_app in Hj. destruct Hj as [Hj Hj'].
      rewrite dget_dset_ne by set_solver. by apply Hnone.
    + intros j r' [Hin|[= -> ->]%list_elem_of_singleton]%elem_of_app.
      * rewrite dget_dset_ne; [by apply Hprel|]. intros ->. apply Hi. by apply (list_elem_of_fmap_2 fst _ (i, r')).
      * rewrite dget_dset_eq. unfold before_quotas, decision. by rewrite Hp.
  - apply dec_stable in Hr.
    assert (passes r = true) as Hp by (by apply bool_decide_eq_true_2).
    split_and!; [by apply dset_NoDup| | |].
    + intros c. rewrite Hidx, Hp. cbn [andb].
      destruct (decide (candidate_category r = c)) as [<-|Hc].
      * rewrite dget_dset_eq, bool_decide_eq_true_2 by done. cbn. by rewrite Hcand.
      * rewrite dget_dset_ne, bool_decide_eq_false_2, app_nil_r by done. apply Hcand.
    + intros j Hj. rewrite fmap_app, not_elem_of_app in Hj. destruct Hj as [Hj Hj'].
      rewrite dget_dset_ne by set_solver. by apply Hnone.
    + intros j r' [Hin|[= -> ->]%list_elem_of_singleton]%elem_of_app.
      * rewrite dget_dset_ne; [by apply Hprel|]. intros ->. apply Hi. by apply (list_elem_of_fmap_2 fst _ (i, r')).
      * rewrite dget_dset_eq. unfold before_quotas. by rewrite Hp.
Qed.

Lemma indexed_lookup i r : (i, r) ∈ indexed bounded ↔ bounded !! i = Some r.
Proof.
  unfold indexed. rewrite list_elem_of_lookup. split.
  - intros (k & Hk). apply lookup_zip_with_Some in Hk as (i' & r' & [= -> ->] & Hi & Hr).
    apply lookup_seq in Hi as [-> _]. done.
  - intros Hr. exists i. apply lookup_zip_with_Some. exists i, r. split_and!; [done| |done].
    apply lookup_seq. split; [done|]. by apply lookup_lt_Some in Hr.
Qed.

Lemma indexed_fst : (indexed bounded).*1 = seq 0 (length bounded).
Proof. unfold indexed. apply fst_zip. by rewrite length_seq. Qed.

Lemma indexed_snd : (indexed bounded).*2 = bounded.
Proof. unfold indexed. apply snd_zip. by rewrite length_seq. Qed.

Lemma passes_once r : passes r = true → holders bounded (record_id r) <= 1.
Proof.
  unfold passes, gate_reasons. intros H. bool_prop. apply note_nil_parts in H as [_ H].
  apply app_eq_nil in H as [H _]. unfold claim_reasons in H.
  repeat match goal with H : note _ _ _ = [] |- _ => apply note_nil_parts in H as [_ H] end.
  unfold state_reasons in H. case_bool_decide; [by apply app_eq_nil in H as [_ ?]|].
  apply note_nil_parts in H as [_ H]. apply note_nil_parts in H as [H _]. rewrite id_counts_spec in H. lia.
Qed.

(** A candidate has its id for itself. *)
Lemma passes_unique i j r r' : passes r = true → bounded !! i = Some r → bounded !! j = Some r' →
  record_id r' = record_id r → i = j.
Proof.
  intros Hp Hi Hj Hid. apply passes_once in Hp. unfold holders in Hp. destruct (decide (i = j)) as [|Hne]; [done|exfalso].
  assert (∀ k l x y, (k < l)%nat → bounded !! k = Some x → bounded !! l = Some y →
    record_id x = record_id r → record_id y = record_id r → False) as Htwo.
  { intros k l x y Hkl Hx Hy Hidx Hidy. rewrite <- (take_drop l bounded) in Hp. rewrite filter_app, length_app in Hp.
    assert (x ∈ filter (λ r0, record_id r0 = record_id r) (take l bounded)) as Hin1.
    { apply list_elem_of_filter. split; [done|]. apply list_elem_of_lookup. exists k. by rewrite lookup_take_lt. }
    assert (y ∈ filter (λ r0, record_id r0 = record_id r) (drop l bounded)) as Hin2.
    { apply list_elem_of_filter. split; [done|]. apply list_elem_of_lookup. exists 0%nat. by rewrite lookup_drop, Nat.add_0_r. }
    destruct (filter _ (take _ _)); [by apply elem_of_nil in Hin1|].
    destruct (filter _ (drop _ _)); [by apply elem_of_nil in Hin2|]. cbn in Hp. lia. }
  destruct (Nat.lt_total i j) as [|[|]]; [by apply (Htwo i j r r')|done|by apply (Htwo j i r' r)].
Qed.

Abbreviation in_category c := (λ e : nat * TerminalRetentionRecord,
  passes e.2 && bool_decide (candidate_category e.2 = c) = true).

Lemma indexed_entries_ok (es : list (nat * TerminalRetentionRecord)) : (∀ i r, (i, r) ∈ es → bounded !! i = Some r) →
  map_result (E := retention_error) (λ i, r ← or_raise (bounded !! i) RetentionKeyError; Ok (i, r)) es.*1 = Ok es.
Proof.
  induction es as [|[i r] es IH]; intros H; [done|]. cbn [fmap list_fmap fst map_result].
  rewrite (H i r) by (by left). cbn [or_raise mbind result_bind].
  rewrite IH by (intros; apply H; by right). done.
Qed.

(** The effect of the quota of a category. *)
Lemma expire_ok c d :
  ∃ d', expire p bounded (Ok d) (c, candidate_indexes (indexed bounded) c) = Ok d' ∧
  ∀ i r, (i, r) ∈ indexed bounded →
    dget i d' = if passes r && bool_decide (candidate_category r = c) && negb (bool_decide (r ∈ kept_in c))
                then Some (Eligible, [py "terminal_retention_expired"]) else dget i d.
Proof.
  unfold expire. cbn [mbind result_bind fst snd]. unfold candidate_indexes. set (entries := filter (in_category c) (indexed bounded)).
  rewrite indexed_entries_ok.
  2: { intros i r [_ Hin]%list_elem_of_filter. by apply indexed_lookup. }
  cbn [mbind result_bind]. destruct (quota p c) as [count_limit byte_limit] eqn:Hq.
  set (ranked := sort_reverse _ _ entries). set (keep := keep_loop _ _ _ ranked 0 0).
  eexists. split; [done|]. intros i r Hir. rewrite fold_if_dset.
  assert (keep.*2 = kept_in c) as Hkeep.
  { unfold keep, kept_in. rewrite Hq. cbn [fst snd].
    rewrite (keep_loop_fmap snd apparent_bytes). f_equal. unfold ranked, sort_reverse. rewrite <- sort_by_on. f_equal.
    unfold entries, candidates_in. rewrite <- indexed_snd at 2.
    generalize (indexed bounded). clear. induction l as [|e l IH]; [done|]. csimpl. rewrite !filter_cons.
    case_decide; csimpl; by rewrite IH. }
  assert (∀ e, e ∈ ranked ↔ e ∈ entries) as Hranked by (intros e; unfold ranked, sort_reverse; by rewrite sort_by_perm).
  assert (∀ e, e ∈ keep → e ∈ entries) as Hsub.
  { intros e He. apply Hranked. eapply sublist_subseteq; [apply keep_sublist|exact He]. }
  destruct (passes r && bool_decide (candidate_category r = c)) eqn:Hc; cbn [andb].
  - bool_prop. assert (i ∈ keep.*1 ↔ r ∈ kept_in c) as Hiff.
    { rewrite <- Hkeep, !list_elem_of_fmap. split.
      - intros ([i' r'] & -> & Hin). exists (i', r'). split; [|done]. cbn. apply Hsub, list_elem_of_filter in Hin as [_ Hin].
        apply indexed_lookup in Hin, Hir. cbn in Hir. congruence.
      - intros ([i' r'] & -> & Hin). exists (i', r'). split; [|done]. cbn in *. apply Hsub, list_elem_of_filter in Hin as [_ Hin].
        apply indexed_lookup in Hin, Hir. by eapply passes_unique. }
    rewrite (bool_decide_ext (r ∈ kept_in c) (i ∈ keep.*1)) by done.
    case_bool_decide as Hk; cbn.
    + destruct (existsb _ ranked) eqn:He; [|done]. apply existsb_exists in He as ([i' r'] & _ & Hx). cbn in Hx. bool_prop.
      subst i'. done.
    + destruct (existsb _ ranked) eqn:He; [done|]. exfalso. apply not_true_iff_false in He. apply He, existsb_exists.
      exists (i, r). split; [apply list_elem_of_In, Hranked, list_elem_of_filter; split; [|done]|].
      * cbn. rewrite andb_true_iff, bool_decide_eq_true. done.
      * cbn. rewrite bool_decide_eq_false_2, bool_decide_eq_true_2 by done. done.
  - destruct (existsb _ ranked) eqn:He; [|done]. exfalso. apply existsb_exists in He as ([i' r'] & Hin & Hx).
    cbn in Hx. bool_prop. subst i'. apply list_elem_of_In, Hranked, list_elem_of_filter in Hin as [Hr' Hin].
    apply indexed_lookup in Hin, Hir. assert (r' = r) as -> by congruence. cbn in Hr'. congruence.
Qed.
End decision.
