(* ===== verification/RetentionDecision.v ===== *)
(** * The terminal plan decides record by record

    What is observed, and that the dictionaries of the plan hold the [decision] of each
    record, which the order of the records does not change. *)

From S2P Require Import Prelude PyOrder KnowledgeContracts Utf8 RetentionGraph RetentionStores RetentionTerminal RetentionTerminalPlan RetentionTerminalLaws.

#[global] Open Scope Z_scope.

(** ** What is observed *)

Lemma map_result_perm {E A B} (f : A → result E B) l1 l2 : l1 ≡ₚ l2 → ∀ ys1, map_result f l1 = Ok ys1 →
  ∃ ys2, map_result f l2 = Ok ys2 ∧ ys1 ≡ₚ ys2.
Proof.
  induction 1 as [|x l1 l2 _ IH|x y l|l1 l2 l3 _ IH1 _ IH2]; intros ys1 H.
  - by exists ys1.
  - cbn in H. apply bind_ok in H as (y & Hy & H). apply bind_ok in H as (ys & Hys & [= <-]).
    destruct (IH ys Hys) as (ys2 & H2 & Hp). exists (y :: ys2). cbn. by rewrite Hy, H2, Hp.
  - cbn in H. apply bind_ok in H as (y' & Hy & H). apply bind_ok in H as (ys & H & [= <-]).
    apply bind_ok in H as (x' & Hx & H). apply bind_ok in H as (zs & Hzs & [= <-]).
    exists (x' :: y' :: zs). cbn. rewrite Hx, Hy, Hzs. split; [done|apply Permutation_swap].
  - destruct (IH1 ys1 H) as (ys2 & H2 & Hp). destruct (IH2 ys2 H2) as (ys3 & H3 & Hp'). exists ys3. split; [done|by etrans].
Qed.

Section observed.
Variables (cancelled_at : nat → bool) (p : TerminalRetentionPolicy).

Lemma observe_spec sources : ∀ bounded budget out stopped,
  observe cancelled_at p sources bounded budget = Ok (out, stopped) →
  ∃ new n, out = bounded ++ new ∧
    map_result _coerce_terminal_record (take n sources) = Ok new ∧
    (zlen bounded <= max_records p → zlen out <= max_records p) ∧
    (budget <= max_bytes p → budget + sum_with observation_cost new <= max_bytes p) ∧
    (stopped = None → n = length sources ∧ zlen out < max_records p).
Proof.
  induction sources as [|raw sources IH]; intros bounded budget out stopped H; cbn in H;
    apply bind_ok in H as ([] & _ & H); cbn in *.
  - destruct (Z.leb_spec (max_records p) (zlen bounded)); injection H as <- <-; exists [], 0%nat; rewrite app_nil_r;
      cbn; split_and!; (done || lia).
  - destruct (Z.leb_spec (max_records p) (zlen bounded)).
    { injection H as <- <-. exists [], 0%nat. rewrite app_nil_r. cbn. split_and!; (done || lia). }
    apply bind_ok in H as (a & Ha & H). destruct (Z.ltb_spec (max_bytes p - budget) (observation_cost a)).
    { injection H as <- <-. exists [], 0%nat. rewrite app_nil_r. cbn. split_and!; (done || lia). }
    apply IH in H as (new & n & -> & Hnew & Hr & Hb & Hs). exists (a :: new), (S n). rewrite <- app_assoc in *.
    rewrite !length_app in *. cbn in *. split_and!; [done|by rewrite Ha; cbn; rewrite Hnew|lia|lia|].
    intros Hstop. destruct (Hs Hstop) as [-> Hlt]. split; [done|lia].
Qed.
End observed.

(** ** The decision of each record *)

Section refinement.
Variables (casefold : pystr → pystr) (p : TerminalRetentionPolicy) (now : Z) (bounded : list TerminalRetentionRecord).

Abbreviation passes_ := (passes casefold p now bounded).
Abbreviation kept := (kept_in casefold p now bounded).
Abbreviation indexes := (candidate_indexes casefold p now bounded (indexed bounded)).

(** The quotas of the categories, one after the other. *)
Lemma expire_all cs : ∀ d,
  NoDup cs.*1 → (∀ c idxs, (c, idxs) ∈ cs → idxs = indexes c) →
  ∃ d', foldl (expire p bounded) (Ok d) cs = Ok d' ∧
  ∀ i r, (i, r) ∈ indexed bounded →
    dget i d' = if passes_ r && bool_decide (candidate_category r ∈ cs.*1) &&
                   negb (bool_decide (r ∈ kept (candidate_category r)))
                then Some (Eligible, [py "terminal_retention_expired"]) else dget i d.
Proof.
  induction cs as [|[c idxs] cs IH] using rev_ind; intros d Hnd Hidx.
  { exists d. split; [done|]. intros i r _. cbn. by rewrite andb_false_r. }
  rewrite fmap_app in Hnd. apply NoDup_app in Hnd as (Hnd & Hdisj & _).
  destruct (IH d Hnd) as (d1 & H1 & Hd1); [intros; apply Hidx; rewrite elem_of_app; by left|].
  rewrite foldl_snoc, H1. rewrite (Hidx c idxs) by (rewrite elem_of_app; right; by left).
  destruct (expire_ok casefold p now bounded c d1) as (d' & -> & Hd'). exists d'. split; [done|].
  intros i r Hir. rewrite (Hd' i r Hir), (Hd1 i r Hir), fmap_app. cbn [fmap list_fmap fst].
  destruct (passes_ r); cbn [andb]; [|done].
  destruct (decide (candidate_category r = c)) as [<-|Hc].
  - rewrite bool_decide_eq_true_2 by done. cbn [andb].
    rewrite (bool_decide_eq_true_2 (_ ∈ _ ++ _)) by (rewrite elem_of_app; right; by left). cbn [andb].
    case_bool_decide as Hk; cbn [negb]; [|done]. rewrite bool_decide_eq_false_2; [done|].
    intros Hin. apply (Hdisj _ Hin). by left.
  - rewrite bool_decide_eq_false_2 by done. cbn [andb].
    rewrite (bool_decide_ext (candidate_category r ∈ cs.*1 ++ [c]) (candidate_category r ∈ cs.*1)); [done|].
    rewrite elem_of_app, list_elem_of_singleton. tauto.
Qed.

(** What is decided of each index is the decision of its record. *)
Lemma decided_of :
  let st := gates casefold p now bounded in
  ∃ d, foldl (expire p bounded) (Ok (preliminary st)) (candidates st) = Ok d ∧
  ∀ i r, (i, r) ∈ indexed bounded → dget i d = Some (decision casefold p now bounded r).
Proof.
  cbn zeta. destruct (gate_state casefold p now bounded (indexed bounded)) as (Hkeys & Hcand & _ & Hprel).
  { rewrite indexed_fst. apply NoDup_seq. }
  fold (gates casefold p now bounded) in *. set (st := gates casefold p now bounded) in *.
  destruct (expire_all (candidates st) (preliminary st) Hkeys) as (d & -> & Hd).
  { intros c idxs Hin. rewrite <- Hcand. by rewrite (elem_dget _ _ _ Hkeys Hin). }
  exists d. split; [done|]. intros i r Hir. rewrite (Hd i r Hir), (Hprel i r Hir).
  unfold before_quotas, decision. destruct (passes_ r) eqn:Hp; cbn [andb]; [|done].
  rewrite bool_decide_eq_true_2; cbn [andb]; [by case_bool_decide|].
  apply dec_stable. intros Hnot%dget_None. specialize (Hcand (candidate_category r)). rewrite Hnot in Hcand. cbn in Hcand.
  assert (i ∈ indexes (candidate_category r)) as Hin; [|rewrite <- Hcand in Hin; by apply elem_of_nil in Hin].
  apply list_elem_of_fmap. exists (i, r). split; [done|]. apply list_elem_of_filter. split; [|done].
  cbn. by rewrite Hp, bool_decide_eq_true_2.
Qed.

(** The item a record gets. *)
Definition planned (truncated_ : bool) (r : TerminalRetentionRecord) : TerminalRetentionItem :=
  let '(d, rs) := decision casefold p now bounded r in
  if truncated_
  then {| item_record := r; item_disposition := Blocked; item_reasons := fromkeys (py "observation_incomplete" :: rs) |}
  else {| item_record := r; item_disposition := d; item_reasons := rs |}.

Lemma items_planned truncated_ d :
  (∀ i r, (i, r) ∈ indexed bounded → dget i d = Some (decision casefold p now bounded r)) →
  map_result (item_of truncated_ d) (indexed bounded) = Ok (planned truncated_ <$> bounded).
Proof.
  assert (planned truncated_ <$> bounded = planned truncated_ <$> (indexed bounded).*2) as -> by (by rewrite indexed_snd).
  generalize (indexed bounded). induction l as [|[i r] l IH]; intros H; [done|].
  specialize (IH ltac:(intros; apply H; by right)). assert (item_of truncated_ d (i, r) = Ok (planned truncated_ r)) as Hi.
  { unfold item_of, planned. cbn [fst snd]. rewrite (H i r) by (by left). cbn [or_raise mbind result_bind].
    destruct (decision casefold p now bounded r). by destruct truncated_. }
  cbn [map_result]. by rewrite Hi, IH.
Qed.
End refinement.

(** ** What passes the gates *)

Lemma note_elem b reason rs x : x ∈ note b reason rs ↔ x ∈ rs ∨ b = true ∧ x = py reason.
Proof. unfold note. destruct b; set_solver. Qed.

Lemma note_empty b reason rs : note b reason rs = [] ↔ b = false ∧ rs = [].
Proof. split; [apply note_nil_parts|]. by intros [-> ->]. Qed.

Section authorized.
Variables (casefold : pystr → pystr) (p : TerminalRetentionPolicy) (now : Z).

(** A record whose owner released it, in a terminal state, old enough, and which
    nothing else needs. *)
Record Authorized (bounded : list TerminalRetentionRecord) (r : TerminalRetentionRecord) : Prop := {
  au_state : status_normalized casefold r ∈ TERMINAL_RETENTION_STATES;
  au_unique : holders bounded (record_id r) <= 1;
  au_reconciled : reconciled r = true;
  au_released : release_authorized r = true;
  au_recovery : recovery_required r = false;
  au_replay : replay_required r = false;
  au_pin : pinned r = false;
  au_grant : grant_active r = false;
  au_authorization : authorization_active r = false;
  au_evidence : evidence_required r = false;
  au_aged : ∃ minimum n, t_minimum_age_ns p = Some minimum ∧ terminal_ns r = Some n ∧
              n <= now ∧ minimum <= now - n;
  au_until : ∀ until, retain_until_ns r = Some until → until <= now
}.

(** A terminal state is neither live nor in recovery. *)
Lemma terminal_not_live s : s ∈ TERMINAL_RETENTION_STATES → s ∉ TERMINAL_LIVE_STATES ∧ s ∉ RECOVERY_STATES.
Proof.
  intros H. assert (Forall (λ s, s ∉ TERMINAL_LIVE_STATES ∧ s ∉ RECOVERY_STATES) TERMINAL_RETENTION_STATES) as Hall.
  { apply (bool_decide_unpack _). vm_compute. exact I. }
  by rewrite Forall_forall in Hall; apply Hall.
Qed.

Lemma state_reasons_empty bounded r :
  state_reasons casefold (id_counts bounded) r = [] ↔
  status_normalized casefold r ∈ TERMINAL_RETENTION_STATES ∧ holders bounded (record_id r) <= 1.
Proof.
  unfold state_reasons. case_bool_decide as Hl.
  - split; [by intros [_ ?]%app_eq_nil|]. by intros [[? _]%terminal_not_live _].
  - rewrite !note_empty, id_counts_spec, negb_false_iff, bool_decide_eq_true, Z.ltb_ge. tauto.
Qed.

Lemma age_reasons_empty r :
  age_reasons p now r = [] ↔
  ∃ minimum n, t_minimum_age_ns p = Some minimum ∧ terminal_ns r = Some n ∧ n <= now ∧ minimum <= now - n.
Proof.
  unfold age_reasons. destruct (terminal_ns r) as [n|], (t_minimum_age_ns p) as [m|]; try naive_solver.
  destruct (_ || _) eqn:H; bool_prop; [split; [done|]; intros (? & ? & [= <-] & [= <-] & ? & ?); lia|].
  split; [|done]. intros _. exists m, n. split_and!; (done || lia).
Qed.

Lemma passes_authorized bounded r : passes casefold p now bounded r = true ↔ Authorized bounded r.
Proof.
  unfold passes, gate_reasons, claim_reasons. rewrite bool_decide_eq_true, note_empty, app_nil, !note_empty.
  rewrite state_reasons_empty, age_reasons_empty, !negb_false_iff. unfold in_recovery. rewrite orb_false_iff, bool_decide_eq_false.
  split.
  - intros (Hu & (? & ? & ? & ? & ? & ? & ? & [? _] & ? & ?) & ?). constructor; try done.
    intros u Hun. rewrite Hun in Hu. bool_prop. lia.
  - intros []. split_and!; try done.
    + destruct (retain_until_ns r) as [u|] eqn:Hu; [|done]. specialize (au_until0 u eq_refl). bool_prop. lia.
    + by apply terminal_not_live.
Qed.

Lemma window_not_gate counts r : py "policy_window" ∉ gate_reasons casefold p now counts r.
Proof.
  unfold gate_reasons, claim_reasons, state_reasons, age_reasons.
  rewrite !note_elem, elem_of_app, !note_elem. intros H.
  repeat case_match; rewrite ?elem_of_app, ?note_elem in H; set_solver.
Qed.
End authorized.

(** ** The order of the records *)

#[export] Instance cmp_rank_order : TotalOrder cmp_rank.
Proof. unfold cmp_rank. apply _. Qed.
#[export] Instance reverse_rank_order : TotalOrder (λ x y, cmp_rank y x) := flip_order cmp_rank.
#[export] Instance cmp_rank_discriminating : Discriminating cmp_rank.
Proof. unfold cmp_rank. apply _. Qed.

Lemma length_filter_sublist {A} (P : A → Prop) `{!∀ x, Decision (P x)} (l1 l2 : list A) :
  l1 `sublist_of` l2 → (length (filter P l1) <= length (filter P l2))%nat.
Proof. induction 1; rewrite ?filter_cons; repeat case_decide; cbn; lia. Qed.

Section orderless.
Variables (casefold : pystr → pystr) (p : TerminalRetentionPolicy) (now : Z).

Lemma holders_perm l1 l2 id_ : l1 ≡ₚ l2 → holders l1 id_ = holders l2 id_.
Proof. unfold holders. by intros ->. Qed.

Lemma gate_reasons_perm l1 l2 r : l1 ≡ₚ l2 →
  gate_reasons casefold p now (id_counts l1) r = gate_reasons casefold p now (id_counts l2) r.
Proof.
  intros H. assert (default 0 (dget (record_id r) (id_counts l1)) = default 0 (dget (record_id r) (id_counts l2))) as Heq
    by (rewrite !id_counts_spec; by apply holders_perm).
  unfold gate_reasons, state_reasons. rewrite Heq. reflexivity.
Qed.

Lemma passes_perm l1 l2 r : l1 ≡ₚ l2 → passes casefold p now l1 r = passes casefold p now l2 r.
Proof. intros H. unfold passes. by rewrite (gate_reasons_perm l1 l2). Qed.

Lemma candidates_perm l1 l2 c : l1 ≡ₚ l2 → candidates_in casefold p now l1 c ≡ₚ candidates_in casefold p now l2 c.
Proof.
  intros H. unfold candidates_in.
  rewrite (list_filter_iff _ (λ r, passes casefold p now l2 r && bool_decide (candidate_category r = c) = true) l1).
  - by rewrite H.
  - intros r. by rewrite (passes_perm l1 l2).
Qed.

Lemma candidates_elem l c r : r ∈ candidates_in casefold p now l c ↔
  r ∈ l ∧ passes casefold p now l r = true ∧ candidate_category r = c.
Proof. unfold candidates_in. rewrite list_elem_of_filter, andb_true_iff, bool_decide_eq_true. tauto. Qed.

Lemma candidates_NoDup l c : NoDup (candidates_in casefold p now l c).
Proof.
  apply NoDup_alt. intros i j r Hi Hj.
  assert (r ∈ candidates_in casefold p now l c) as (_ & Hp & _)%candidates_elem by (by eapply list_elem_of_lookup_2).
  apply passes_once in Hp. destruct (decide (i = j)) as [|Hne]; [done|exfalso].
  assert (candidates_in casefold p now l c `sublist_of` l) as Hsub by apply sublist_filter.
  apply (length_filter_sublist (λ x, record_id x = record_id r)) in Hsub.
  unfold holders in Hp. set (cs := candidates_in casefold p now l c) in *.
  assert (length (filter (λ x, record_id x = record_id r) cs) <= 1)%nat as Hone by lia. clear -Hi Hj Hne Hone.
  revert i j Hi Hj Hne. induction cs as [|x cs IH]; intros [|i] [|j] Hi Hj Hne; cbn in Hi, Hj; simplify_eq; try done.
  - rewrite filter_cons_True in Hone by done. cbn in Hone. apply list_elem_of_lookup_2 in Hj.
    destruct (filter _ cs) eqn:Hf; [|cbn in *; lia]. by apply (filter_nil_not_elem_of _ _ r) in Hf.
  - rewrite filter_cons_True in Hone by done. cbn in Hone. apply list_elem_of_lookup_2 in Hi.
    destruct (filter _ cs) eqn:Hf; [|cbn in *; lia]. by apply (filter_nil_not_elem_of _ _ r) in Hf.
  - apply (IH ltac:(rewrite filter_cons in Hone; case_decide; cbn in *; lia) i j); [done..|lia].
Qed.

(** Candidates with one rank are one. *)
Lemma candidates_ranked l c x y : x ∈ candidates_in casefold p now l c → y ∈ candidates_in casefold p now l c →
  cmp_rank (rank_key y) (rank_key x) = Eq → x = y.
Proof.
  intros (Hx & Hp & _)%candidates_elem (Hy & _ & _)%candidates_elem Heq%cmp_eq; [|apply _].
  unfold rank_key in Heq. apply (f_equal snd) in Heq. cbn in Heq.
  apply list_elem_of_lookup in Hx as [i Hi]. apply list_elem_of_lookup in Hy as [j Hj].
  assert (i = j) as -> by by eapply passes_unique. congruence.
Qed.

Lemma kept_perm l1 l2 c : l1 ≡ₚ l2 → kept_in casefold p now l1 c = kept_in casefold p now l2 c.
Proof.
  intros H. unfold kept_in, sort_reverse. f_equal. apply (sort_by_unique (λ x y, cmp_rank y x) _ (TotalOrder0 := reverse_rank_order)); [by apply candidates_perm|].
  intros x y Hx Hy. by eapply candidates_ranked.
Qed.

(** The decision of a record does not depend on the order of the records. *)
Lemma decision_perm l1 l2 r : l1 ≡ₚ l2 → decision casefold p now l1 r = decision casefold p now l2 r.
Proof. intros H. unfold decision. by rewrite (passes_perm l1 l2), (kept_perm l1 l2), (gate_reasons_perm l1 l2). Qed.

Lemma kept_elem l c r : r ∈ kept_in casefold p now l c →
  r ∈ l ∧ passes casefold p now l r = true ∧ candidate_category r = c.
Proof.
  intros Hr. apply candidates_elem. rewrite <- (sort_by_perm (λ x y, cmp_rank y x) rank_key).
  eapply sublist_subseteq; [apply keep_sublist|exact Hr].
Qed.

Lemma kept_NoDup l c : NoDup (kept_in casefold p now l c).
Proof.
  eapply sublist_NoDup; [|apply keep_sublist]. unfold sort_reverse. rewrite sort_by_perm. apply candidates_NoDup.
Qed.

(** What is kept of a category is within its quota, or is one record. *)
Lemma kept_quota l c : 0 <= (quota p c).1 →
  zlen (kept_in casefold p now l c) <= (quota p c).1 ∧
  (zlen (kept_in casefold p now l c) <= 1 ∨ sum_with apparent_bytes (kept_in casefold p now l c) <= (quota p c).2).
Proof.
  intros Hq. unfold kept_in. split.
  - pose proof (keep_count apparent_bytes (quota p c).1 (quota p c).2 (sort_reverse cmp_rank rank_key (candidates_in casefold p now l c)) 0 0 Hq). lia.
  - pose proof (keep_bytes apparent_bytes (quota p c).1 (quota p c).2 (sort_reverse cmp_rank rank_key (candidates_in casefold p now l c)) 0 0 ltac:(lia) ltac:(lia)) as H.
    cbn zeta in H. lia.
Qed.

(** A candidate that is not kept is older than one that is. *)
Lemma kept_newer l c r : 1 <= (quota p c).1 → r ∈ candidates_in casefold p now l c →
  r ∉ kept_in casefold p now l c →
  ∃ r', r' ∈ kept_in casefold p now l c ∧ cmp_rank (rank_key r') (rank_key r) = Gt.
Proof.
  intros Hq Hr. unfold kept_in, sort_reverse. set (cs := candidates_in casefold p now l c) in *.
  pose proof (sort_by_sorted (λ x y, cmp_rank y x) rank_key cs) as Hs.
  pose proof (sort_by_perm (λ x y, cmp_rank y x) rank_key cs) as Hp.
  destruct (sort_by _ rank_key cs) as [|x xs]; [apply Permutation_nil in Hp; rewrite Hp in Hr; by apply elem_of_nil in Hr|].
  assert (x ∈ keep_loop apparent_bytes (quota p c).1 (quota p c).2 (x :: xs) 0 0) as Hx by by apply keep_first.
  intros Hnot. exists x. split; [done|]. assert (x ∈ cs) as Hcs by (rewrite <- Hp; by left).
  assert (cmp_rank (rank_key x) (rank_key r) ≠ Eq) as Hne.
  { intros Heq. apply Hnot. by rewrite (candidates_ranked l c r x Hr Hcs Heq). }
  rewrite <- Hp in Hr. apply elem_of_cons in Hr as [->|Hr]; [done|].
  apply StronglySorted_inv in Hs as [_ Hall]. rewrite Forall_forall in Hall. specialize (Hall r Hr).
  unfold cmp_le in Hall. cbn in Hall. rewrite (cmp_sym cmp_rank) in Hall.
  by destruct (cmp_rank (rank_key x) (rank_key r)).
Qed.
End orderless.

(** ** The plan *)

Section planned.
Variables (casefold : pystr → pystr)
  (digest : TerminalRetentionPolicy → list TerminalRetentionItem → result retention_error pystr)
  (p : TerminalRetentionPolicy) (now : Z) (cancelled_at : nat → bool).

(** The items of a plan are the planned items of what it observed. *)
Lemma plan_planned sources known ids free q :
  plan_terminal_retention casefold digest p now cancelled_at sources known ids free = Ok q →
  ∃ bounded stopped, observe cancelled_at p sources [] 0 = Ok (bounded, stopped) ∧
    t_items q = planned casefold p now bounded (bool_decide (is_Some stopped)) <$> bounded ∧
    t_truncated q = bool_decide (is_Some stopped) ∧ t_policy q = p ∧ t_now_ns q = now.
Proof.
  unfold plan_terminal_retention. intros H.
  apply bind_ok in H as ([] & _ & H). apply bind_ok in H as ([] & _ & H). apply bind_ok in H as (baseline & _ & H).
  apply bind_ok in H as ([bounded stopped] & Hobs & H). cbn zeta in H.
  destruct (decided_of casefold p now bounded) as (d & Hd & Hdec). rewrite Hd in H. cbn [mbind result_bind] in H.
  rewrite (items_planned casefold p now bounded _ d Hdec) in H. cbn [mbind result_bind] in H.
  apply bind_ok in H as (digest_ & _ & [= <-]). by exists bounded, stopped.
Qed.

Lemma planned_record bounded t r : item_record (planned casefold p now bounded t r) = r.
Proof. unfold planned. destruct (decision _ _ _ _ r). by destruct t. Qed.

Lemma planned_records bounded t : item_record <$> (planned casefold p now bounded t <$> bounded) = bounded.
Proof.
  generalize (planned casefold p now bounded t) (planned_record bounded t). intros f Hf.
  induction bounded as [|r l IH]; csimpl; [done|]. by rewrite Hf, IH.
Qed.

Lemma decision_eligible bounded r : (decision casefold p now bounded r).1 = Eligible →
  passes casefold p now bounded r = true ∧ r ∉ kept_in casefold p now bounded (candidate_category r).
Proof.
  unfold decision. destruct (passes _ _ _ _ r); [case_bool_decide; done|]. by case_bool_decide.
Qed.

Lemma decision_window bounded r : (decision casefold p now bounded r).2 = [py "policy_window"] →
  r ∈ kept_in casefold p now bounded (candidate_category r).
Proof.
  unfold decision. destruct (passes _ _ _ _ r); cbn; [case_bool_decide as Hk; [done|]; cbn; intros H|].
  - vm_compute in H. discriminate H.
  - intros H. destruct (window_not_gate casefold p now (id_counts bounded) r). rewrite H. by left.
Qed.
End planned.

(** ** The window of a category *)

Section window.
Variables (casefold : pystr → pystr) (p : TerminalRetentionPolicy) (now : Z).

Definition in_window (c : TerminalRetentionCategory) (i : TerminalRetentionItem) : bool :=
  bool_decide (item_reasons i = [py "policy_window"]) && bool_decide (candidate_category (item_record i) = c).

Lemma decision_kept bounded r : r ∈ kept_in casefold p now bounded (candidate_category r) →
  decision casefold p now bounded r = (Protected, [py "policy_window"]).
Proof.
  intros Hr. unfold decision. destruct (kept_elem _ _ _ _ _ _ Hr) as (_ & -> & _). by rewrite bool_decide_eq_true_2.
Qed.

Lemma in_window_planned bounded c r :
  in_window c (planned casefold p now bounded false r) = true ↔ r ∈ kept_in casefold p now bounded c.
Proof.
  unfold in_window. rewrite planned_record, andb_true_iff, !bool_decide_eq_true. split.
  - intros [Hw <-]. apply decision_window. unfold planned in Hw. by destruct (decision _ _ _ _ r).
  - intros Hr. destruct (kept_elem _ _ _ _ _ _ Hr) as (_ & _ & <-). split; [|done]. unfold planned. by rewrite decision_kept.
Qed.

(** The records in the window of a category are those its quota keeps. *)
Lemma window_records bounded c :
  item_record <$> filter (λ i, in_window c i = true) (planned casefold p now bounded false <$> bounded)
    ≡ₚ kept_in casefold p now bounded c.
Proof.
  assert (∀ l, item_record <$> filter (λ i, in_window c i = true) (planned casefold p now bounded false <$> l) =
    filter (λ r, r ∈ kept_in casefold p now bounded c) l) as ->.
  { induction l as [|r l IH]; [done|]. csimpl. rewrite !filter_cons.
    destruct (decide (in_window c _ = true)) as [Hw|Hw]; rewrite in_window_planned in Hw.
    - rewrite decide_True by done. csimpl. by rewrite planned_record, IH.
    - by rewrite decide_False. }
  apply NoDup_Permutation; [|apply kept_NoDup|].
  - eapply sublist_NoDup; [apply (candidates_NoDup casefold p now bounded c)|].
    rewrite (list_filter_iff _ (λ r, r ∈ kept_in casefold p now bounded c ∧
      passes casefold p now bounded r && bool_decide (candidate_category r = c) = true)).
    + rewrite <- list_filter_filter. apply sublist_filter.
    + intros r. split; [|tauto]. intros Hr. split; [done|].
      destruct (kept_elem _ _ _ _ _ _ Hr) as (_ & -> & <-). by rewrite bool_decide_eq_true_2.
  - intros r. rewrite list_elem_of_filter. split; [tauto|]. intros Hr. split; [done|]. by apply kept_elem in Hr as [? _].
Qed.
End window.

(** The records of a list of items weigh what the items weigh. *)
Lemma sum_apparent its : sum_with apparent_bytes (item_record <$> its) = sum_with item_apparent its.
Proof. induction its as [|i its IH]; [done|]. csimpl. by rewrite IH. Qed.

Lemma quota_count p c : validate_terminal_policy p = Ok tt → 0 <= (quota p c).1.
Proof.
  unfold validate_terminal_policy. cbn [map_result snd fst]. unfold _validate_terminal_quota. intros H.
  apply bind_ok in H as (? & _ & H). inv_ok. bool_prop. destruct c; cbn [quota]; lia.
Qed.
