(* ===== verification/RetentionSafety.v ===== *)
(** * What the retention plans guarantee

    A plan proposes only rows that nothing refers to, its pages visit each row once,
    and terminal evidence is proposed only when its owner released it, whatever the
    order in which it was observed. *)

From S2P Require Import Prelude PyOrder KnowledgeContracts Utf8 RetentionGraph RetentionStores RetentionOwners RetentionRun RetentionLaws RetentionTerminal RetentionTerminalPlan RetentionTerminalLaws RetentionDecision.

#[global] Open Scope Z_scope.

(** ** Pages *)

(** The ids of a store that was opened. *)
Definition store_ids (ss : Snapshots) (store : RetentionStore) : option (list Z) :=
  match store with
  | Semantic => (λ t, g_id <$> generations t) <$> connection (semantic_snapshot ss)
  | Catalog => (λ t, cg_id <$> catalog_generations t) <$> connection (catalog_snapshot ss)
  | Inventory => (λ t, sc_id <$> scans t) <$> connection (inventory_snapshot ss)
  | Framework => (λ t, run_id <$> runs t) <$> connection (framework_snapshot ss)
  end.

Lemma policy_batch p : validate_policy p = Ok tt → 1 <= batch_size p.
Proof. unfold validate_policy. intros H. inv_ok. bool_prop. lia. Qed.

(** The page of a store is a page of a table that has the ids. *)
Lemma store_paged casefold p now ss required store ids :
  snapshot_ready ss store = true → store_ids ss store = Some ids →
  ∃ (R : Type) (id_of : R → Z) table build, ids = id_of <$> table ∧ (∀ a r, key (build a r) = id_of r) ∧
    ∀ a, ∃ q, _plan_retention_store casefold p now ss required store a = Ok q ∧
      items q = (page id_of table (batch_size p) build a).1.1 ∧
      next_after q = (page id_of table (batch_size p) build a).1.2.
Proof.
  intros Hready Hids. unfold _plan_retention_store. rewrite Hready. cbn [negb].
  destruct store; cbn [store_ids] in Hids; apply fmap_Some in Hids as (t & Ht & ->).
  - set (rows := (λ g, (g_id g, g_base g, building_clone g)) <$> generations t).
    destruct (walk_bounds_ok rows 1 false) as (reach & Hreach); [by vm_compute|].
    exists GenerationRow, g_id, (generations t), (λ _ g, semantic_item casefold p now reach (semantic_row t now g)).
    split_and!; [done| |].
    { intros a r. unfold semantic_item. by destruct (semantic_disposition _ _ _ _ _). }
    intros a. unfold _plan_semantic. rewrite Ht. cbn [or_raise mbind result_bind]. fold rows. rewrite Hreach.
    cbn [mbind result_bind]. eexists. split; [done|]. done.
  - set (rows := (λ g, (cg_id g, cg_base g, bool_decide (cg_status g = py "building"))) <$> catalog_generations t).
    destruct (walk_bounds_ok rows 1 false) as (reach & Hreach); [by vm_compute|].
    exists CatalogGeneration, cg_id, (catalog_generations t), (λ _ g, catalog_item casefold p now reach (catalog_row t g)).
    split_and!; [done| |].
    { intros a r. unfold catalog_item. by destruct (catalog_disposition _ _ _ _ _). }
    intros a. unfold _plan_catalog. rewrite Ht. cbn [or_raise mbind result_bind]. fold rows. rewrite Hreach.
    cbn [mbind result_bind]. eexists. split; [done|]. done.
  - destruct (inventory_walk_ok (successors t) (sc_id <$> scans t)) as (reach & Hreach).
    set (refs := λ a, _referenced_inventory_scans (opened_snapshot required Framework (framework_snapshot ss))
      (sc_id <$> take (Z.to_nat (batch_size p)) (keyset sc_id (scans t) a (batch_size p + 1)))).
    exists ScanRow, sc_id, (scans t), (λ a s, inventory_item p now reach (refs a).1 (refs a).2 (inventory_row t s)).
    split_and!; [done| |].
    { intros a r. unfold inventory_item. by destruct (inventory_disposition _ _ _ _ _ _). }
    intros a. unfold _plan_inventory. rewrite Ht. cbn [or_raise mbind result_bind]. rewrite Hreach.
    cbn [mbind result_bind]. cbn zeta. fold (refs a). destruct (refs a) as [references unverified] eqn:Hrefs.
    eexists. split; [done|]. cbn [items next_after store_plan]. unfold page. rewrite Hrefs. done.
  - set (rows := (λ r, (run_id r, run_source r, bool_decide (is_Some (run_source r)))) <$> runs t).
    destruct (walk_bounds_ok rows MAX_REACHABILITY_DEPTH true) as (reach & Hreach); [by vm_compute|].
    set (refs := λ a, _referenced_framework_runs (opened_snapshot required Catalog (catalog_snapshot ss))
      (run_id <$> take (Z.to_nat (batch_size p)) (keyset run_id (runs t) a (batch_size p + 1)))).
    exists FrameworkRun, run_id, (runs t), (λ a r, framework_item casefold p now reach (refs a).1 (refs a).2 (framework_row t r)).
    split_and!; [done| |].
    { intros a r. unfold framework_item. by destruct (framework_disposition _ _ _ _ _ _ _). }
    intros a. unfold _plan_framework. rewrite Ht. cbn [or_raise mbind result_bind]. fold rows. rewrite Hreach.
    cbn [mbind result_bind]. cbn zeta. fold (refs a). destruct (refs a) as [references unverified] eqn:Hrefs.
    eexists. split; [done|]. cbn [items next_after store_plan]. unfold page. rewrite Hrefs. done.
Qed.

(** C12: The pages of a store, asked for one after the other with the cursor each returns,
    come to an end and hold every row past the first cursor exactly once, in the order
    of the ids: as many turns as there are rows suffice, whatever the rows are. *)
Theorem every_row_is_visited_once casefold p now ss required store ids after_ fuel :
  validate_policy p = Ok tt → snapshot_ready ss store = true → store_ids ss store = Some ids → NoDup ids →
  (length ids <= fuel)%nat →
  ∃ its, all_pages fuel (_plan_retention_store casefold p now ss required store) after_ = Ok (Some its) ∧
    StronglySorted Z.lt (key <$> its) ∧ ∀ n, n ∈ key <$> its ↔ n ∈ ids ∧ after_ < n.
Proof.
  intros Hp Hready Hids Hnd Hf.
  destruct (store_paged casefold p now ss required store ids Hready Hids) as (R & id_of & table & build & -> & Hkey & Hplan).
  assert (length (rest id_of table after_) <= fuel)%nat as Hrest.
  { unfold rest. rewrite sort_by_perm. rewrite length_fmap in Hf. pose proof (length_filter (λ r, after_ < id_of r) table). lia. }
  destruct (all_pages_spec id_of table (batch_size p) build _ (policy_batch p Hp) Hnd Hkey Hplan fuel after_ Hrest)
    as (its & Hall & Hits).
  exists its. rewrite Hits. split_and!; [done|by apply rest_increasing|]. intros n. unfold rest. rewrite sort_by_perm.
  rewrite !list_elem_of_fmap. split.
  - intros (r & -> & [Hlt Hr]%list_elem_of_filter). split; [by exists r|done].
  - intros [(r & -> & Hr) Hlt]. exists r. split; [done|]. by apply list_elem_of_filter.
Qed.

(** C5: What a run of the planner proposes may be released: a semantic generation that
    no head publishes or published before, no live lease holds and no building clone,
    evidence or receipt names; a catalog generation likewise; an inventory scan that no
    checkpoint, publication candidate, successor or framework run refers to; a
    framework run that is not among the latest of its root, that no action, finding,
    child, route or catalog run refers to. All of them ended, and are as old as the
    policy asks. *)
Theorem proposals_are_releasable rt casefold p cursors requested now ss b plan q i :
  plan_retention rt casefold p cursors requested now (Ok (ss, b)) = Ok plan →
  q ∈ stores plan → i ∈ items q → disposition i = Eligible →
  releasable p now ss (plan_store q) (key i).
Proof.
  unfold plan_retention. intros H Hq Hi He. inv_ok. cbn beta iota in *. inv_ok. cbn [stores] in Hq.
  eapply selected_release; [|eassumption|done..]. intros s Hs. by apply required_stores.
Qed.

(** C26: A walk over the rows of a table that says it is complete found exactly the
    ancestors of the live rows that lie within its depth, and every one of them is a
    row: the bound on the rows, or a parent that is missing, makes it incomplete.
    Where the depth bound counts as incomplete too, as in the walks over the runs, it
    found all the ancestors; where it does not, as in the walks of depth one over the
    semantic and the catalog generations, the parents of the live rows. *)
Theorem complete_walks_are_closures rows max_depth max_nodes depth_limit_is_incomplete r :
  _bounded_parent_reachability rows max_depth max_nodes depth_limit_is_incomplete = Ok r → walk_complete r = true →
  let live_parent parent := ∃ child, (child, Some parent, true) ∈ rows in
  (∀ n, n ∈ ancestors r ↔ ∃ parent k, live_parent parent ∧ nsteps (has_parent rows.*1) k parent n ∧
                            (depth_limit_is_incomplete = true ∨ Z.of_nat k < max_depth)) ∧
  (depth_limit_is_incomplete = true →
     ∀ n, n ∈ ancestors r ↔ ∃ parent, live_parent parent ∧ rtc (has_parent rows.*1) parent n) ∧
  (depth_limit_is_incomplete = false → max_depth = 1 → ∀ n, n ∈ ancestors r ↔ live_parent n) ∧
  ∀ n, n ∈ ancestors r → ∃ parent live, (n, parent, live) ∈ rows.
Proof.
  intros H Hc live_parent. unfold _bounded_parent_reachability in H. destruct (complete_levels _ _ _ _ _ _ _ H Hc) as [Ha Hex].
  assert (∀ parent, parent ∈ omap (λ r : Z * option Z * bool, if r.2 then r.1.2 else None) rows ↔ live_parent parent) as Hroot.
  { intros parent. rewrite list_elem_of_omap. split; [|by intros (child & Hin); exists (child, Some parent, true)].
    intros ([[child column] live] & Hin & Hlive). cbn in Hlive. destruct live; [|done]. subst column. by exists child. }
  setoid_rewrite Hroot in Ha. split_and!; [done| | |].
  - intros Hb n. rewrite Ha. split.
    + intros (parent & k & Hp & Hs & _). exists parent. split; [done|]. by eapply rtc_nsteps_2.
    + intros (parent & Hp & [k Hs]%rtc_nsteps_1). exists parent, k. auto.
  - intros Hb Hone n. rewrite Ha. split.
    + intros (parent & k & Hp & Hs & [?|Hk]); [congruence|]. assert (k = 0%nat) as -> by lia. by inv Hs.
    + intros Hp. exists n, 0%nat. split_and!; [done|constructor|right; lia].
  - intros n Hn. apply Hex in Hn. rewrite list_elem_of_fmap in Hn. destruct Hn as ([n' parent] & -> & Hn).
    apply list_elem_of_fmap in Hn as ([[n'' parent'] live] & [= -> ->] & Hin). by exists parent', live.
Qed.

(** ** Terminal evidence *)

(** C9: A record of terminal evidence is proposed only by an observation that was not cut
    short, and only if it has its id for itself, is in a terminal state, was reconciled
    and released by its owner, is as old as the policy asks, its own retention has
    passed, and nothing holds it: no recovery, replay, pin, grant, authorization or
    evidence. *)
Theorem terminal_proposals_are_authorized casefold digest p now cancelled_at sources known ids free q i :
  plan_terminal_retention casefold digest p now cancelled_at sources known ids free = Ok q →
  i ∈ t_items q → item_disposition i = Eligible →
  t_truncated q = false ∧ Authorized casefold p now (item_record <$> t_items q) (item_record i).
Proof.
  intros (bounded & stopped & _ & Hitems & -> & _ & _)%plan_planned Hi He. rewrite Hitems in Hi |- *. rewrite planned_records.
  apply list_elem_of_fmap in Hi as (r & -> & Hr). rewrite planned_record. unfold planned in He.
  destruct (decision casefold p now bounded r) as [d rs] eqn:Hd. destruct (bool_decide (is_Some stopped)); [done|].
  cbn in He. subst d. split; [done|]. apply passes_authorized.
  apply (decision_eligible casefold p now bounded r). by rewrite Hd.
Qed.

(** C23: The items of two plans that each observed all of its sources are the same up to
    their order, when the sources are the same up to their order. *)
Theorem source_order_is_irrelevant casefold digest p now c1 c2 sources1 sources2 k1 k2 ids1 ids2 free1 free2 q1 q2 :
  sources1 ≡ₚ sources2 →
  plan_terminal_retention casefold digest p now c1 sources1 k1 ids1 free1 = Ok q1 →
  plan_terminal_retention casefold digest p now c2 sources2 k2 ids2 free2 = Ok q2 →
  t_truncated q1 = false → t_truncated q2 = false →
  t_items q1 ≡ₚ t_items q2.
Proof.
  intros Hp (l1 & s1 & Ho1 & -> & -> & _ & _)%plan_planned (l2 & s2 & Ho2 & -> & -> & _ & _)%plan_planned H1 H2.
  destruct s1, s2; try done. clear H1 H2.
  apply observe_spec in Ho1 as (n1 & k & -> & Hm1 & _ & _ & Hs1). apply observe_spec in Ho2 as (n2 & m & -> & Hm2 & _ & _ & Hs2).
  destruct (Hs1 eq_refl) as [-> _]. destruct (Hs2 eq_refl) as [-> _]. rewrite !firstn_all in *. cbn [app].
  destruct (map_result_perm _ _ _ Hp _ Hm1) as (n & Hm & Hn). assert (n = n2) as -> by congruence.
  rewrite Hn at 2. apply Permutation_refl'. apply list_fmap_ext. intros i r _. unfold planned.
  by rewrite (decision_perm casefold p now n1 n2 r Hn).
Qed.

(** C16: What a policy's quota keeps of the releasable records of a category is at most
    its count and within its bytes, unless it is one record; and a record is proposed
    only while a newer one of its category, by the end and then the id, is kept, unless
    the count is zero. *)
Theorem quotas_bound_what_is_kept casefold digest p now cancelled_at sources known ids free q c :
  validate_terminal_policy p = Ok tt →
  plan_terminal_retention casefold digest p now cancelled_at sources known ids free = Ok q →
  t_truncated q = false →
  let kept := filter (λ i, in_window c i = true) (t_items q) in
  zlen kept <= (quota p c).1 ∧
  (zlen kept <= 1 ∨ sum_with item_apparent kept <= (quota p c).2) ∧
  ∀ i, i ∈ t_items q → item_disposition i = Eligible → candidate_category (item_record i) = c →
    (quota p c).1 = 0 ∨
    ∃ j, j ∈ kept ∧ cmp_rank (rank_key (item_record j)) (rank_key (item_record i)) = Gt.
Proof.
  intros Hp%(quota_count p c) (bounded & stopped & _ & Hitems & -> & _ & _)%plan_planned Ht kept. subst kept. rewrite Hitems, Ht.
  pose proof (window_records casefold p now bounded c) as Hw. set (kept := filter _ _) in *.
  destruct (kept_quota casefold p now bounded c Hp) as [Hcount Hbytes].
  rewrite <- Hw in Hcount. rewrite <- (sum_with_perm _ _ _ Hw), sum_apparent, <- Hw in Hbytes. rewrite length_fmap in *.
  split_and!; [done..|]. intros i Hi He Hc.
  apply list_elem_of_fmap in Hi as (r & -> & Hr). rewrite planned_record in *.
  destruct (decision_eligible casefold p now bounded r) as [Hpass Hnot].
  { unfold planned in He. by destruct (decision _ _ _ _ r). }
  rewrite Hc in Hnot. destruct (decide ((quota p c).1 = 0)) as [|Hq]; [by left|right].
  destruct (kept_newer casefold p now bounded c r) as (r' & Hr' & Hgt); [lia|by apply candidates_elem|done|].
  rewrite <- Hw in Hr'. apply list_elem_of_fmap in Hr' as (j & -> & Hj). by exists j.
Qed.

(** ** Examples *)

Definition example_policy : RetentionPolicy :=
  {| minimum_age_ns := Some 100; keep_published := 2; batch_size := 2;
     snapshot_max_temporary_bytes := 1048576; snapshot_prepare_timeout_seconds := float_of_int 30;
     terminal_log_count := 2; terminal_log_bytes := 1000; summary_count := 30; summary_bytes := 1000;
     receipt_count := 30; receipt_bytes := 1000; rollback_derived_count := 1 |}.

Definition example_generation (n : Z) (status_ : string) (completed : Z) : GenerationRow :=
  {| g_id := n; g_model := py "m"; g_status := py status_; g_completed := Some completed; g_base := None;
     g_clone_complete := true; g_bytes := 10 |}.

Definition example_tables : SemanticTables :=
  {| generations := [example_generation 5 "ready" 50; example_generation 1 "failed" 10; example_generation 2 "ready" 20;
                     example_generation 4 "ready" 40; example_generation 3 "failed" 950];
     embedding_heads := [{| eh_model := py "m"; eh_generation := 5; eh_bytes := 1 |}];
     jobs := []; generation_members := []; text_embeddings := []; image_embeddings := [];
     evidence_generations := [Some 2]; receipt_generations := [None] |}.

Definition example_snapshot {A} (c : option A) : StoreSnapshot A :=
  {| snapshot_status := if c then StoreReady else StoreAbsent; schema_version := Some 1; connection := c;
     snapshot_detail := None; storage := None; file_sizes := (0, 0, 0); snapshot_holds := [] |}.

Definition example_snapshots : Snapshots :=
  {| semantic_snapshot := example_snapshot (Some example_tables); catalog_snapshot := example_snapshot None;
     inventory_snapshot := example_snapshot None; framework_snapshot := example_snapshot None |}.

Definition example_runtime : RetentionRuntime :=
  {| cancelled_at := None; deadline_passed := λ _, false; query_failure := λ _, None |}.

Definition example_run : result retention_error RetentionPlan :=
  plan_retention example_runtime id example_policy [] None 1000
    (Ok (example_snapshots, {| exhausted := false; cancelled := false |})).

Definition example_plan : RetentionPlan :=
  match example_run with Ok plan => plan | Err _ => {| now_ns := 0; policy := example_policy; stores := [] |} end.

(** The first page has the row that may be released and the one that evidence names. *)
Lemma proposals_are_releasable_witness :
  example_run = Ok example_plan ∧
  match stores example_plan with
  | q :: _ => match items q with
              | [i; j] => (key i, disposition i) = (1, Eligible) ∧ (key j, disposition j) = (2, Blocked) ∧
                          releasable example_policy 1000 example_snapshots (plan_store q) (key i)
              | _ => False
              end
  | [] => False
  end.
Proof.
  assert (example_run = Ok example_plan) as H by (vm_compute; reflexivity). split; [done|].
  assert (∀ q i, q ∈ stores example_plan → i ∈ items q → disposition i = Eligible →
    releasable example_policy 1000 example_snapshots (plan_store q) (key i)) as Hall
    by exact (λ q i, proposals_are_releasable _ _ _ _ _ _ _ _ _ q i H).
  destruct (stores example_plan) as [|q qs] eqn:Hq; [vm_compute in Hq; discriminate Hq|].
  assert (q = match stores example_plan with q :: _ => q | [] => q end) as Hqv by (by rewrite Hq).
  specialize (Hall q). vm_compute in Hqv. rewrite Hqv in Hall |- *. cbn [items] in *.
  split_and!; [vm_compute; reflexivity..|]. apply Hall; [by left|cbn [items]; by left|reflexivity].
Defined.

(** Three pages of two rows, two and one. *)
Lemma every_row_is_visited_once_witness :
  ∃ its, all_pages 5 (_plan_retention_store id example_policy 1000 example_snapshots [] Semantic) 0 = Ok (Some its) ∧
    StronglySorted Z.lt (key <$> its) ∧ ∀ n, n ∈ key <$> its ↔ n ∈ [5; 1; 2; 4; 3] ∧ 0 < n.
Proof.
  apply every_row_is_visited_once; [vm_compute; reflexivity..| |cbn; lia].
  apply (bool_decide_unpack _). vm_compute. exact I.
Defined.

Definition example_chain : list (Z * option Z * bool) := [(1, None, false); (2, Some 1, false); (3, Some 2, true)].

(** The whole chain where the depth bound counts, and the first parent at depth one. *)
Lemma complete_walks_are_closures_witness :
  match _bounded_parent_reachability example_chain 64 4096 true, _bounded_parent_reachability example_chain 1 4096 false with
  | Ok all, Ok first =>
      walk_complete all = true ∧ walk_complete first = true ∧ 1 ∈ ancestors all ∧ 1 ∉ ancestors first ∧
      (∃ parent, (∃ child, (child, Some parent, true) ∈ example_chain) ∧ rtc (has_parent example_chain.*1) parent 1) ∧
      ¬ ∃ child, (child, Some 1, true) ∈ example_chain
  | _, _ => False
  end.
Proof.
  destruct (_bounded_parent_reachability example_chain 64 4096 true) as [all|] eqn:Hall; [|discriminate Hall].
  destruct (_bounded_parent_reachability example_chain 1 4096 false) as [first|] eqn:Hfirst; [|discriminate Hfirst].
  assert (walk_complete all = true ∧ 1 ∈ ancestors all) as [Hc H1].
  { injection Hall as <-. split; [vm_compute; reflexivity|]. apply (bool_decide_unpack _). vm_compute. exact I. }
  assert (walk_complete first = true ∧ 1 ∉ ancestors first) as [Hc' H1'].
  { injection Hfirst as <-. split; [vm_compute; reflexivity|]. apply (bool_decide_unpack _). vm_compute. exact I. }
  destruct (complete_walks_are_closures example_chain 64 4096 true all Hall Hc) as (_ & Hclosure & _).
  destruct (complete_walks_are_closures example_chain 1 4096 false first Hfirst Hc') as (_ & _ & Hparents & _).
  split_and!; [exact Hc|exact Hc'|exact H1|exact H1'|by apply (Hclosure eq_refl)|].
  intros Hp. apply H1'. by apply (Hparents eq_refl eq_refl).
Defined.

(** ** Examples of terminal evidence *)

Definition example_terminal_policy : TerminalRetentionPolicy :=
  {| t_minimum_age_ns := Some 100; max_records := 100; max_bytes := 100000; workspace_quota := (2, 100);
     tombstone_quota := (2, 1000); terminal_log_quota := (2, 1000); summary_quota := (30, 1000);
     receipt_quota := (30, 1000); rollback_derived_quota := (1, 1000) |}.

Definition example_record (name : string) (ended size : Z) : TerminalRetentionRecord :=
  {| record_id := py name; status := py "completed"; category := Workspace; terminal_ns := Some ended;
     apparent_bytes := size; allocated_bytes := size; physical_identity := None; reconciled := true;
     recovery_required := false; replay_required := false; pinned := false; grant_active := false;
     authorization_active := false; release_authorized := true; evidence_required := false;
     retain_until_ns := None; tombstone := false; owner := None |}.

(** The newest of 60 bytes, the second of 60 and the oldest of 40. *)
Definition example_sources : list terminal_source :=
  RecordSource <$> [example_record "newest" 300 60; example_record "second" 200 60; example_record "oldest" 100 40].

Definition terminal_run (sources : list terminal_source) : result retention_error TerminalRetentionPlan :=
  plan_terminal_retention id (λ _ its, Ok (py "digest")) example_terminal_policy 1000 (λ _, false) sources true [] None.

Definition terminal_decisions (r : result retention_error TerminalRetentionPlan) : list (pystr * Disposition) :=
  match r with Ok q => (λ i, (record_id (item_record i), item_disposition i)) <$> t_items q | Err _ => [] end.

(** The quota keeps the oldest record, which still fits, and proposes a newer one. *)
Lemma newer_is_proposed_before_older :
  terminal_decisions (terminal_run example_sources) =
    [(py "newest", Protected); (py "second", Eligible); (py "oldest", Protected)].
Proof. vm_compute. reflexivity. Qed.

(** As many records as the limit allows are said to be truncated, with none omitted. *)
Lemma full_observation_is_truncated :
  match plan_terminal_retention id (λ _ its, Ok (py "digest"))
          {| t_minimum_age_ns := Some 100; max_records := 3; max_bytes := 100000; workspace_quota := (2, 100);
             tombstone_quota := (2, 1000); terminal_log_quota := (2, 1000); summary_quota := (30, 1000);
             receipt_quota := (30, 1000); rollback_derived_quota := (1, 1000) |}
          1000 (λ _, false) example_sources true [] None with
  | Ok q => t_truncated q = true ∧ omitted_records q = Some 0 ∧ Forall (λ i, item_disposition i = Blocked) (t_items q)
  | Err _ => False
  end.
Proof. vm_compute. split_and!; [reflexivity..|]. repeat constructor. Qed.

Definition example_terminal_plan : TerminalRetentionPlan :=
  match terminal_run example_sources with
  | Ok q => q
  | Err _ => {| t_now_ns := 0; t_policy := example_terminal_policy; t_items := []; t_status := []; t_truncated := true;
                truncation_reasons := []; omitted_records := None; baseline_record_ids := []; free_bytes := None;
                physical_accounting_complete := false; fingerprint := [] |}
  end.

Definition example_second : TerminalRetentionItem :=
  {| item_record := example_record "second" 200 60; item_disposition := Eligible;
     item_reasons := [py "terminal_retention_expired"] |}.

#[export] Instance terminal_item_eq_dec : EqDecision TerminalRetentionItem.
Proof. solve_decision. Defined.

Lemma terminal_proposals_are_authorized_witness :
  terminal_run example_sources = Ok example_terminal_plan ∧ example_second ∈ t_items example_terminal_plan ∧
  t_truncated example_terminal_plan = false ∧
  Authorized id example_terminal_policy 1000 (item_record <$> t_items example_terminal_plan) (item_record example_second).
Proof.
  assert (terminal_run example_sources = Ok example_terminal_plan) as H by (vm_compute; reflexivity).
  assert (example_second ∈ t_items example_terminal_plan) as Hin by (apply (bool_decide_unpack _); vm_compute; exact I).
  split; [exact H|]. split; [exact Hin|].
  exact (terminal_proposals_are_authorized _ _ _ _ _ _ _ _ _ _ _ H Hin eq_refl).
Defined.

Lemma source_order_is_irrelevant_witness :
  match terminal_run example_sources, terminal_run (reverse example_sources) with
  | Ok q1, Ok q2 => t_items q1 ≡ₚ t_items q2 ∧ t_items q1 ≠ t_items q2
  | _, _ => False
  end.
Proof.
  destruct (terminal_run example_sources) as [q1|] eqn:H1; [|vm_compute in H1; discriminate H1].
  destruct (terminal_run (reverse example_sources)) as [q2|] eqn:H2; [|vm_compute in H2; discriminate H2].
  split.
  - apply (source_order_is_irrelevant _ _ _ _ _ _ _ _ _ _ _ _ _ _ q1 q2 (symmetry (reverse_Permutation example_sources)) H1 H2);
      [vm_compute in H1; injection H1 as <-|vm_compute in H2; injection H2 as <-]; reflexivity.
  - vm_compute in H1, H2. injection H1 as <-. injection H2 as <-. discriminate.
Defined.

(** Two records of a workspace quota of two and a hundred bytes, and none of receipts. *)
Lemma quotas_bound_what_is_kept_witness :
  validate_terminal_policy example_terminal_policy = Ok tt ∧
  let kept := filter (λ i, in_window Workspace i = true) (t_items example_terminal_plan) in
  zlen kept = 2 ∧ (zlen kept <= 1 ∨ sum_with item_apparent kept <= 100) ∧
  ∃ j, j ∈ kept ∧ cmp_rank (rank_key (item_record j)) (rank_key (item_record example_second)) = Gt.
Proof.
  assert (validate_terminal_policy example_terminal_policy = Ok tt) as Hp by (vm_compute; reflexivity).
  assert (terminal_run example_sources = Ok example_terminal_plan) as H by (vm_compute; reflexivity).
  assert (example_second ∈ t_items example_terminal_plan) as Hin by (apply (bool_decide_unpack _); vm_compute; exact I).
  destruct (quotas_bound_what_is_kept _ _ _ _ _ _ _ _ _ _ Workspace Hp H eq_refl) as (_ & Hb & Hnewer).
  split; [exact Hp|]. split; [vm_compute; reflexivity|]. split; [exact Hb|].
  destruct (Hnewer _ Hin eq_refl eq_refl) as [Hz|Hj]; [discriminate Hz|exact Hj].
Defined.

(** A chain of sixty-five rows, each the child of the one before. *)
Definition long_chain : list (Z * option Z * bool) :=
  (λ n, (n, if n =? 1 then None else Some (n - 1), negb (n =? 1))) <$> seqZ 1 65.

(** The last row of the walk has no parent to follow, and yet the walk is incomplete. *)
Lemma final_depth_is_incomplete_without_a_parent :
  match _bounded_parent_reachability long_chain 64 4096 true with
  | Ok r => walk_complete r = false ∧ ancestors r = list_to_set (seqZ 1 64) ∧ parents_of long_chain.*1 1 = []
  | Err _ => False
  end.
Proof.
  vm_compute _bounded_parent_reachability. split_and!; [reflexivity| |vm_compute; reflexivity].
  vm_compute. reflexivity.
Qed.
